(* ===== verification/_CoqProject ===== *)
-Q . S2P
Prelude.v
Json.v
Doubles.v
Bytes.v
ExecutionStatus.v
Repositories.v
V3Market.v
MarkPrice.v
PrivateSessions.v
Risk.v
Keepers.v
Orchestrator.v
EventDecoder.v
Indexer.v
Transactions.v
Relay.v
PythStream.v
Signers.v
KeeperRuntime.v
ClientInstructions.v
ClientEquivalence.v
ClientAccounts.v
OracleRefresh.v
PythKeeper.v
ChainTransports.v
WsTransport.v
BrowserState.v
BrowserRpc.v
Auth.v
RelayRoute.v
Faucet.v
PublicApi.v
WorkerRoutes.v
WorkerDispatch.v
ScheduledWork.v
BrowserSession.v
BrowserBook.v
BrowserCustody.v
MarketEvents.v
BookFeed.v
BrowserFeeds.v
BrowserPositions.v
OrderTicket.v
Terminal.v
Baskets.v
ErSocket.v
