(* ===== verification/Prelude.v ===== *)
(** * Equinox: a verification library for the TypeScript services

    Equinox is a perpetual-futures exchange on Solana.  The on-chain program
    (Rust) owns the state; the TypeScript services beside it index it, relay
    session-signed orders, and run the keepers that move oracle prices, funding,
    sessions, liquidations, cleanup and rollup commits.  A market can live on
    the base layer (L1) or be delegated to an ephemeral rollup (ER), whose
    state is committed back sequence by sequence.  This library models the
    services' own logic, mostly under src/workers/src, as executable Rocq
    definitions and proves what makes each part correct.

    ** How the parts interact

    A scheduled worker invocation takes a scheduler lease, discovers the active
    markets, and runs six keeper ticks per market.  Every tick runs under a
    per-market lease and an idempotency key in the D1 database, sends at most
    one transaction and records its outcome; failures go to a retry table.
    In parallel, log notifications are decoded into events, appended to a
    durable per-market log with a cursor, and published through one stream
    object per market; a gap is repaired from an authoritative account read.
    Browsers route orders by the execution status reconciled from L1, and
    session transactions are co-signed only after their bytes and the session
    account behind them have been checked.

    The browser reads the same accounts through the client library, builds the
    instructions the program takes, signs orders with a session key through the
    relay proxy or with the wallet, and moves collateral in and out of the rollup
    in two steps whose second waits for the first to be committed.

    ** Files

    Shared:
    - Prelude: exceptions ([result]), stores with exceptions ([eff]), doubles
      restricted to the integers the code uses, tactics, hint databases, and
      the [preserves] rules that derive frame properties from the structure of
      a computation.
    - Json: JSON values and the string methods the services use.
    - Doubles: JavaScript numbers with fractions, their rounding and their text.
    - Bytes: DataView readers, the DataWriter of transactions.ts and the
      writers of clients/equinox/src/abi/encoding.ts.

    The worker (src/workers/src):
    - ExecutionStatus: execution-status.ts (the delegation and commit state
      machine, its reconciliation from account bytes, the durable tick) and
      lib/execution-status.ts (display and order routing).
    - Repositories: repositories.ts and backoff.ts over the tables of the
      migrations; every SQL statement is one operation on finite maps, and an
      operation that reads before it writes is split where another worker can
      interleave.
    - V3Market: v3-market-state.ts, the decoders of the sharded accounts, the
      labelling of book trees, the executable mark and the aggregation.
    - MarkPrice: market-state.ts and mark-price.ts, the monolithic account.
    - PrivateSessions: private-sessions.ts, seat projections and tokens.
    - Risk: risk-model.ts, funding-source.ts, liquidation-discovery.ts and
      liquidation-scanner.ts.
    - Keepers: keepers.ts and keeper-jobs.ts, leases, idempotency, dead letters
      and the six ticks over a world of database, clock and sent transactions.
    - Orchestrator: commit-policy.ts, session-calendar.ts, active-markets.ts
      and keeper-orchestrator.ts.
    - EventDecoder: event-decoder.ts, Base64 included.
    - Indexer: indexer.ts, market-stream.ts, indexer-service.ts and
      ingestion-pipeline.ts.
    - Transactions: transactions.ts, every instruction encoder and the keeper
      builders.
    - Relay: session-relayer.ts and relay-auth.ts.
    - PythStream: pyth-lazer-client.ts and pyth-source.ts, the price stream.
    - Signers, KeeperRuntime: signer.ts, keeper-signer.ts and keeper-config.ts.
    - OracleRefresh: oracle-refresh.ts, oracle-runner.ts and the single-flight
      refresh of market-stream.ts; PythKeeper: lib/server/pyth-keeper.ts.
    - ChainTransports, WsTransport: chain-transports.ts and ws-transport.ts.
    - RelayRoute, Faucet, PublicApi, WorkerRoutes, WorkerDispatch,
      ScheduledWork: the HTTP handlers, the dispatcher and the scheduled entry
      point of index.ts with faucet.ts, cors.ts, launches.ts, pre-ipo.ts,
      candles.ts, route-inputs.ts and v3-routes.ts.

    The client library (src/clients/equinox/src/abi):
    - ClientInstructions, ClientAccounts: every builder and decoder;
      ClientEquivalence: the builders against the worker's encoders and checks.

    The browser and its server routes (src/lib, src/app, src/features):
    - Auth: lib/auth and app/api/auth.
    - BrowserState, BrowserRpc: the state machines of lib and rpc-transport.ts.
    - BrowserSession: browser-session.ts, session-trading.ts and the hooks of
      features/sessions.
    - BrowserBook: the decoding of features/trading/use-v3-book.ts and open-orders.ts;
      BookFeed: its effect, as a machine of pushes, answers, timers and frames.
    - MarketEvents: features/activity/use-market-events.ts, the event feed with its
      reconnections, and the terminal's lifecycle events.
    - BrowserFeeds, BrowserPositions: the polling hooks (status, clock, orders,
      balances, seats, candles, fills; position, readiness) over one [Polling]
      interface, lib/v3-seat.ts and lib/v3-aggregate.ts.
    - BrowserCustody: oracle-freshness.ts, execution-boundary.ts,
      protocol-service.ts and features/collateral.
    - OrderTicket: sizing and guarding of the order ticket, on doubles.
    - Terminal: the actions of features/trading/trading-terminal.tsx, v3-order.ts and
      faucet-client.ts, over the [io] monad of BrowserCustody.
    - Baskets: features/pre-ipo/basket.ts, and the accounts of deposits and
      withdrawals (custody-accounts.ts, lib/token-accounts.ts).
    - ErSocket: lib/er-socket.ts.

    Definitions keep the names of the source.  A TypeScript function that
    throws becomes a function into [result]; one that also writes becomes an
    [eff] computation, whose writes survive an exception as they do in the
    source.  Bytes are integers in [0, 256), 64- and 128-bit fields are read
    and written at their width, [Number(...)] conversions round to 53 bits.

    ** What the theorems show

    - Storage: leases exclude each other and fence off their predecessors under
      every interleaving, reservations are granted at most once, the rate
      limiter is exact, the event log applies exactly the successor of its
      cursor, retries back off within bounds.
    - Keepers: a durable request runs its work at most once per key and replays
      the recorded outcome; commit sequences are requested strictly in order
      and at most once; a scheduled run yields to a live lease, isolates
      failing markets and gives its lease back; without a signer it only
      observes.
    - Execution status: counters are ordered and monotone along every run, the
      machine refines a four-phase lifecycle that order routing follows,
      reconciliation is idempotent and durable.
    - Market state: decoders are total on byte arrays, the recursive tree walk
      terminates on hostile pages and labels exactly the reachable nodes, marks
      are bounded by the oracle, aggregation is fail-closed.
    - Indexing: the log decoder inverts the wire layout, the stream keeps a
      complete prefix per domain and delivers private payloads only to their
      verified seat, ingestion keeps cursor and stream together.
    - Relaying: the relayer reads back exactly what the encoders wrote, accepts
      only the canonical account vector, and a positive authorisation implies a
      live session of exactly the claimed owner, signer, market and seat.
    - Prices: a price is used only when enough endpoints agree on it; a refresh
      submits one verified message and reports what the chain shows; the worker's
      and the Node keeper's refresh build the same instructions.
    - Transports: confirmation polling ends and reports what the chain answered;
      a subscription survives reconnections.
    - Client: both sides build the same instructions and decode the same accounts
      alike, and an order built in the browser passes every check of the relay.
    - HTTP: every state-changing route is guarded or public by intent, an
      application session authenticates only its holder, the relay proxy and the
      worker together co-sign only the session's own action, the faucet pays
      once a day, the launch registry holds well-formed rows only.
    - Scheduled work: the ingestion tick reaches every market whatever individual
      reads do, and the jobs run in their order.
    - Browser: a session-signed action goes out only with a usable session and its
      next nonce; the book read through the market API is the book decoded from
      the accounts; a rollup submission is preceded by a price check; a
      withdrawal pays out once, after its request was accepted and committed; a
      deposit transfers once and is claimed at most four times.
    - The terminal's screen: the live book loses no push and shows only what was
      read, the event feed shows no event twice, polled data is the selected
      market's, and the position shown is the worker's projection of the wallet's
      own seat; a wallet order is one transaction, to the chain the status routes
      to; every watched signature settles; a ticket is sized on doubles within a
      stated distance of exact arithmetic; a leg of a basket opens, funds and orders
      in that order, each step after the rollup accepted the one before.
    - Some theorems pin down defects: a cleanup sweep whose audit id repeats
      (and then starves the commit step), a restored market that keeps routing
      to the rollup, an empty book root read as node -1, V3 projections that
      are never published, V3 seats beyond the first shard that cannot be
      relayed, an emergency market the session keeper asks to open, an Ed25519
      index that points at the compute-budget instruction, a null transaction
      that aborts the ingestion tick, a failed clean-up that blocks it, a stream
      endpoint that leaks its connection, a faucet that can pay twice, a leaf
      with expiry 0 that one view of the book shows and the other hides, a feed that
      never returns to live, a book relabelled with another domain or market, data
      kept across a change of wallet or market, orders sent to Solana while the
      status is unknown, an amount that overflows and stops the rendering, and a
      subscription number used twice.

    ** Fuel

    The walk over book pages gets two units more than there are indexed handles,
    and [walk_total] proves it never runs out: a level that recurses has met a
    new handle.  The Base58 loop gets two iterations per byte, each removing
    more than five bits, which [issue_requires_owner_key] relies on and proves
    enough.  The carry loop of the Base58 decoder gets two iterations, one per byte of a
    carry below 2^16 ([push_carry_spec]).  The descents of the monolithic book are bounded by the source's
    own depth limit of 2048.  Confirmation polling and the wait for a rollup
    commit run against a deadline: [confirm_spec] and [wait_commit_ends] prove
    that with a clock that advances by the pause between two reads the fuel (for
    the commit, 62 rounds of 750 ms against 45 s) is enough.  Every other
    recursion is structural.

    ** Parameters and what is not modelled

    Base58 text (except where injectivity matters), SHA-256, Ed25519, program
    address derivation, message compilation and signing, SPL token builders, the
    time-zone database, the RPC answers, the wallet and the clock are
    parameters.  Answers of the outside world are functions of the history of
    calls, so a theorem holds for every behaviour of it.  Not modelled: React
    views and wallet adapters, the decompression of account payloads (a parameter), the
    DBC launch flow, the V2 previews of the terminal, environment parsing of
    loadPythKeeperConfig, the operational scripts and tests; the Rust program and market maker are out of scope. *)

From Stdlib Require Export ZArith Lia.
From stdpp Require Export base option list gmap strings pretty numbers.

#[export] Set Default Goal Selector "!".
#[global] Open Scope Z_scope.

(** ** Exceptions

    A JavaScript computation either returns a value or throws an [Error] whose
    message we keep. *)

Inductive result (A : Type) : Type :=
  | Ok (a : A)
  | Throw (message : string).
Arguments Ok {A} _.
Arguments Throw {A} _.

#[export] Instance result_ret : MRet result := fun A a => Ok a.
#[export] Instance result_bind : MBind result := fun A B f r =>
  match r with Ok a => f a | Throw e => Throw e end.
#[export] Instance result_fmap : FMap result := fun A B f r =>
  match r with Ok a => Ok (f a) | Throw e => Throw e end.
#[export] Instance result_eq_dec `{EqDecision A} : EqDecision (result A).
Proof. solve_decision. Defined.

(** [if (c) throw new Error(e)] *)
Definition throw_if (c : bool) (e : string) : result unit :=
  if c then Throw e else Ok tt.

Definition is_ok {A} (r : result A) : bool :=
  match r with Ok _ => true | Throw _ => false end.

(** [list.map(f)] for a callback that may throw. *)
Fixpoint mapR {A B} (f : A -> result B) (l : list A) : result (list B) :=
  match l with
  | [] => Ok []
  | a :: l => b ← f a; bs ← mapR f l; Ok (b :: bs)
  end.

(** ** Stateful computations

    [eff S A] threads a store [S].  An exception keeps the writes that
    happened before it was thrown, as in the source. *)

Definition eff (S A : Type) : Type := S -> S * result A.

#[export] Instance eff_ret {S} : MRet (eff S) := fun A a s => (s, Ok a).
#[export] Instance eff_bind {S} : MBind (eff S) := fun A B f m s =>
  match m s with
  | (s', Ok a) => f a s'
  | (s', Throw e) => (s', Throw e)
  end.

Definition eff_throw {S A} (e : string) : eff S A := fun s => (s, Throw e).
Definition eff_get {S} : eff S S := fun s => (s, Ok s).
Definition eff_put {S} (s : S) : eff S unit := fun _ => (s, Ok tt).
Definition eff_gets {S A} (f : S -> A) : eff S A := fun s => (s, Ok (f s)).
Definition eff_modify {S} (f : S -> S) : eff S unit := fun s => (f s, Ok tt).
Definition eff_lift {S A} (r : result A) : eff S A := fun s => (s, r).

(** [try { m } catch (e) { h e }] *)
Definition eff_catch {S A} (m : eff S A) (h : string -> eff S A) : eff S A := fun s =>
  match m s with
  | (s', Ok a) => (s', Ok a)
  | (s', Throw e) => h e s'
  end.

(** [try { m } finally { f }]: the finaliser always runs; an exception it
    throws replaces the outcome of [m]. *)
Definition eff_finally {S A B} (m : eff S A) (f : eff S B) : eff S A := fun s =>
  let (s', r) := m s in
  match f s' with
  | (s'', Ok _) => (s'', r)
  | (s'', Throw e) => (s'', Throw e)
  end.

(** ** JavaScript numbers

    Numbers of the modelled code are integers (or the floor of a quotient of
    integers), so a finite double is represented by the integer it denotes and
    every operation rounds its exact result to 53 significant bits, ties to
    even.  The magnitudes of the code (64- and 128-bit integers, products with
    16-bit factors) stay far below the overflow threshold of doubles. *)

Definition MAX_SAFE_INTEGER : Z := 2 ^ 53 - 1.

Definition isSafeInteger (z : Z) : bool := Z.abs z <=? MAX_SAFE_INTEGER.

(** Nearest integer to [n / d], ties to even ([0 < d]). *)
Definition round_half_even (n d : Z) : Z :=
  let q := n / d in
  let r := n mod d in
  if 2 * r <? d then q
  else if d <? 2 * r then q + 1
  else if Z.even q then q else q + 1.

(** The double nearest to an integer: [Number(z)] for a bigint [z]. *)
Definition to_number (z : Z) : Z :=
  let e := Z.log2 (Z.abs z) - 52 in
  if e <=? 0 then z else round_half_even z (2 ^ e) * 2 ^ e.

Definition js_add (a b : Z) : Z := to_number (a + b).
Definition js_sub (a b : Z) : Z := to_number (a - b).
Definition js_mul (a b : Z) : Z := to_number (a * b).

(** [floor (log2 (n / d))] for positive [n] and [d]. *)
Definition ratio_log2 (n d : Z) : Z :=
  let l := Z.log2 n - Z.log2 d in
  let fits := if 0 <=? l then d * 2 ^ l <=? n else d <=? n * 2 ^ (- l) in
  if fits then l else l - 1.

(** [Math.floor(n / d)] for [0 <= n], [0 < d]: the quotient is rounded to a
    double [m * 2 ^ e] before the floor is taken. *)
Definition js_floor_div (n d : Z) : Z :=
  if n =? 0 then 0 else
  let e := ratio_log2 n d - 52 in
  if 0 <=? e then round_half_even n (d * 2 ^ e) * 2 ^ e
  else round_half_even (n * 2 ^ (- e)) d / 2 ^ (- e).

(** Conversion to a signed 32-bit integer, as every bitwise operator does. *)
Definition to_int32 (z : Z) : Z :=
  let m := z mod 2 ^ 32 in
  if 2 ^ 31 <=? m then m - 2 ^ 32 else m.

Definition to_uint32 (z : Z) : Z := z mod 2 ^ 32.

(** [a | b] and [a << n] on numbers. *)
Definition js_or (a b : Z) : Z := to_int32 (Z.lor (to_int32 a) (to_int32 b)).
Definition js_shl (a n : Z) : Z := to_int32 (Z.shiftl (to_int32 a) n).

(** ** Automation *)

Create HintDb equinox.
Create HintDb frame.

(** Splits every [if]/[match] of the goal and of the hypotheses, closing the
    contradictory branches. *)
Ltac split_matches :=
  repeat (case_match; simplify_eq/=; try done).

(** Turns boolean comparisons on [Z] into arithmetic facts. *)
Ltac zbool :=
  repeat match goal with
  | H : (_ <? _) = true |- _ => apply Z.ltb_lt in H
  | H : (_ <? _) = false |- _ => apply Z.ltb_ge in H
  | H : (_ <=? _) = true |- _ => apply Z.leb_le in H
  | H : (_ <=? _) = false |- _ => apply Z.leb_gt in H
  | H : (_ =? _) = true |- _ => apply Z.eqb_eq in H
  | H : (_ =? _) = false |- _ => apply Z.eqb_neq in H
  | H : (_ && _)%bool = true |- _ => apply andb_true_iff in H; destruct H
  | H : (_ || _)%bool = false |- _ => apply orb_false_iff in H; destruct H
  | H : negb _ = true |- _ => apply negb_true_iff in H
  | H : negb _ = false |- _ => apply negb_false_iff in H
  end.

(** Evaluates every closed [bool_decide] of the goal. *)
Ltac compute_decide :=
  repeat match goal with
  | |- context [bool_decide ?P] =>
      let b := eval vm_compute in (bool_decide P) in
      lazymatch b with
      | true => change (bool_decide P) with true
      | false => change (bool_decide P) with false
      end
  end; cbv iota.

(** Exposes the plumbing of [eff] and [result]. *)
Ltac run_eff :=
  cbv [mbind mret eff_bind eff_ret result_bind result_ret eff_throw eff_get eff_put
       eff_gets eff_modify eff_lift eff_catch eff_finally throw_if] in *.

(** ** Laws of the two monads *)

Lemma result_bind_Ok {A B} (f : A -> result B) (r : result A) (b : B) :
  r ≫= f = Ok b <-> exists a, r = Ok a /\ f a = Ok b.
Proof. destruct r; cbn; split; [eauto | naive_solver | done | naive_solver]. Qed.

Lemma mapR_Ok {A B} (f : A -> result B) (l : list A) (bs : list B) :
  mapR f l = Ok bs <-> Forall2 (fun a b => f a = Ok b) l bs.
Proof.
  revert bs. induction l as [|a l IH]; intros bs; cbn.
  - split; [by intros [= <-]|by inversion 1].
  - split.
    + intros (b & Hb & (bs' & Hbs & [= <-])%result_bind_Ok)%result_bind_Ok. constructor; [done|by apply IH].
    + inversion 1 as [|? b ? bs' Hb Hbs]; subst. rewrite Hb. cbn. apply IH in Hbs. by rewrite Hbs.
Qed.

Lemma mapR_pure {A B} (f : A -> result B) (g : A -> B) (l : list A) :
  (forall a, a ∈ l -> f a = Ok (g a)) -> mapR f l = Ok (g <$> l).
Proof.
  intros Hf. apply mapR_Ok. apply Forall2_fmap_r, Forall_Forall2_diag, list.Forall_forall. exact Hf.
Qed.

(** *** Same outcome

    Two computations have the same outcome when both return the same value or
    both throw, whatever the messages. *)

Definition outcome {A} (r : result A) : option A := match r with Ok a => Some a | Throw _ => None end.

Definition same_outcome {A} (r s : result A) : Prop := outcome r = outcome s.

Declare Scope outcome_scope.
Notation "r ≈ s" := (same_outcome r s) (at level 70) : outcome_scope.
#[global] Open Scope outcome_scope.

#[export] Instance same_outcome_equiv {A} : Equivalence (@same_outcome A).
Proof. split; unfold same_outcome; [done|by intros ?? ->|by intros ??? -> ->]. Qed.

#[export] Instance same_outcome_bind {A B} :
  Proper (pointwise_relation A (@same_outcome B) ==> @same_outcome A ==> @same_outcome B) mbind.
Proof.
  intros f g Hfg [a|] [b|]; unfold same_outcome; cbn; [intros [= ->]; apply Hfg|done..].
Qed.

(** Errors aside, independent steps commute. *)
Lemma bind_swap {A B C} (r : result A) (s : result B) (f : A -> B -> result C) :
  (a ← r; b ← s; f a b) ≈ (b ← s; a ← r; f a b).
Proof. by destruct r, s. Qed.

Lemma same_outcome_Ok {A} (r s : result A) a : r ≈ s -> r = Ok a <-> s = Ok a.
Proof. destruct r, s; unfold same_outcome; cbn; naive_solver. Qed.

Lemma throw_if_Ok c e : throw_if c e = Ok tt <-> c = false.
Proof. destruct c; cbn; naive_solver. Qed.

Lemma throw_if_Throw c e e' : throw_if c e = Throw e' <-> c = true /\ e = e'.
Proof. destruct c; cbn; naive_solver. Qed.

Lemma eff_bind_assoc {S A B C} (m : eff S A) (f : A -> eff S B) (g : B -> eff S C) s :
  ((m ≫= f) ≫= g) s = (m ≫= (fun a => f a ≫= g)) s.
Proof. run_eff. by destruct (m s) as [s' [a|e]]. Qed.

Lemma eff_bind_Ok {S A B} (m : eff S A) (f : A -> eff S B) s s' b :
  (m ≫= f) s = (s', Ok b) <-> exists s1 a, m s = (s1, Ok a) /\ f a s1 = (s', Ok b).
Proof. run_eff. destruct (m s) as [s1 [a|e]]; naive_solver. Qed.

(** ** Frames

    [preserves R m]: every run of [m], whether it returns or throws, relates the
    store before to the store after by the preorder [R].  The rules below
    derive it from the structure of [m]. *)

Definition preserves {S A} (R : S -> S -> Prop) (m : eff S A) : Prop := forall s, R s (fst (m s)).

Section Preserves.
Context {S : Type} (R : S -> S -> Prop) `{!PreOrder R}.

Lemma preserves_ret {A} (a : A) : preserves R (mret a : eff S A).
Proof. intros s. reflexivity. Qed.
Lemma preserves_lift {A} (r : result A) : preserves R (eff_lift r).
Proof. intros s. reflexivity. Qed.
Lemma preserves_throw {A} e : preserves R (eff_throw e : eff S A).
Proof. intros s. reflexivity. Qed.
Lemma preserves_get : preserves R eff_get.
Proof. intros s. reflexivity. Qed.
Lemma preserves_bind {A B} (m : eff S A) (f : A -> eff S B) :
  preserves R m -> (forall a, preserves R (f a)) -> preserves R (m ≫= f).
Proof.
  intros Hm Hf s. unfold mbind, eff_bind. specialize (Hm s). destruct (m s) as [s' [a|e]]; cbn in *; [|done].
  etransitivity; [exact Hm|apply Hf].
Qed.
Lemma preserves_catch {A} (m : eff S A) (h : string -> eff S A) :
  preserves R m -> (forall e, preserves R (h e)) -> preserves R (eff_catch m h).
Proof.
  intros Hm Hh s. unfold eff_catch. specialize (Hm s). destruct (m s) as [s' [a|e]]; cbn in *; [done|].
  etransitivity; [exact Hm|apply Hh].
Qed.
Lemma preserves_finally {A B} (m : eff S A) (f : eff S B) :
  preserves R m -> preserves R f -> preserves R (eff_finally m f).
Proof.
  intros Hm Hf s. unfold eff_finally. specialize (Hm s). destruct (m s) as [s' r]. specialize (Hf s').
  destruct (f s') as [s'' [b|e]]; cbn in *; (etransitivity; [exact Hm|exact Hf]).
Qed.
End Preserves.

#[export] Hint Extern 1 (preserves _ (mret _)) => apply preserves_ret; typeclasses eauto : frame.
#[export] Hint Extern 1 (preserves _ (eff_lift _)) => apply preserves_lift; typeclasses eauto : frame.
#[export] Hint Extern 1 (preserves _ (eff_throw _)) => apply preserves_throw; typeclasses eauto : frame.
#[export] Hint Extern 1 (preserves _ eff_get) => apply preserves_get; typeclasses eauto : frame.

(** Follows the structure of a computation; leaves go to the [frame] hints. *)
Ltac frame_tac :=
  repeat first
    [ solve [eauto with frame]
    | match goal with
      | |- preserves _ (mbind _ _) => apply preserves_bind; [typeclasses eauto| |intros]
      | |- preserves _ (eff_catch _ _) => apply preserves_catch; [typeclasses eauto| |intros]
      | |- preserves _ (eff_finally _ _) => apply preserves_finally; [typeclasses eauto| |]
      | |- preserves _ (match ?x with _ => _ end) => destruct x
      | |- preserves _ (let _ := _ in _) => cbv zeta
      end ].

(** ** Rounding *)

Lemma to_number_small z : Z.abs z < 2 ^ 53 -> to_number z = z.
Proof.
  intros Hz. unfold to_number.
  destruct (decide (z = 0)) as [->|Hnz]; [done|].
  assert (Z.log2 (Z.abs z) < 53) by (apply Z.log2_lt_pow2; lia).
  case_match; [done|zbool; lia].
Qed.

Lemma to_number_safe z : isSafeInteger z = true -> to_number z = z.
Proof. unfold isSafeInteger, MAX_SAFE_INTEGER. intros ?%Z.leb_le. apply to_number_small; lia. Qed.

Lemma round_half_even_bounds n d :
  0 < d -> d * (2 * round_half_even n d) <= 2 * n + d /\ 2 * n - d <= d * (2 * round_half_even n d).
Proof.
  intros Hd. pose proof (Z.div_mod n d ltac:(lia)). pose proof (Z.mod_pos_bound n d Hd).
  unfold round_half_even. repeat case_match; zbool; nia.
Qed.

Lemma round_half_even_exact k d : 0 < d -> round_half_even (k * d) d = k.
Proof.
  intros Hd. unfold round_half_even.
  rewrite Z.div_mul, Z.mod_mul by lia. case_match; [done|zbool; lia].
Qed.

Lemma round_half_even_mono a b d : 0 < d -> a <= b -> round_half_even a d <= round_half_even b d.
Proof.
  intros Hd Hab.
  pose proof (Z.div_mod a d ltac:(lia)). pose proof (Z.mod_pos_bound a d Hd).
  pose proof (Z.div_mod b d ltac:(lia)). pose proof (Z.mod_pos_bound b d Hd).
  pose proof (Z.div_le_mono a b d Hd Hab).
  destruct (decide (a / d = b / d)) as [E|E].
  - unfold round_half_even. rewrite E in *. repeat case_match; zbool; nia.
  - unfold round_half_even. repeat case_match; zbool; nia.
Qed.

Lemma ratio_log2_spec n d :
  0 < n -> 0 < d ->
  let l := ratio_log2 n d in
  (0 <= l -> d * 2 ^ l <= n) /\ (l < 0 -> d <= n * 2 ^ (- l)).
Proof.
  intros Hn Hd. cbn. unfold ratio_log2.
  set (l := Z.log2 n - Z.log2 d).
  pose proof (Z.log2_spec n Hn) as [Hn1 Hn2]. pose proof (Z.log2_spec d Hd) as [Hd1 Hd2].
  pose proof (Z.log2_nonneg n). pose proof (Z.log2_nonneg d).
  destruct (Z.leb_spec 0 l) as [Hl|Hl].
  - destruct (Z.leb_spec (d * 2 ^ l) n) as [Hf|Hf]; split; intros; try lia.
    + assert (2 ^ Z.succ (Z.log2 d) * 2 ^ (l - 1) = 2 ^ Z.log2 n) as E
        by (rewrite <- Z.pow_add_r by lia; f_equal; lia).
      assert (0 < 2 ^ (l - 1)) by (apply Z.pow_pos_nonneg; lia). nia.
    + assert (l = 0) as El by lia. rewrite El in *. replace (- (0 - 1)) with 1 by lia.
      replace (Z.log2 n) with (Z.log2 d) in * by lia. rewrite Z.pow_succ_r in * by lia. lia.
  - destruct (Z.leb_spec d (n * 2 ^ (- l))) as [Hf|Hf]; split; intros; try lia.
    assert (2 ^ Z.log2 n * 2 ^ (- (l - 1)) = 2 ^ Z.succ (Z.log2 d)) as E
      by (rewrite <- Z.pow_add_r by lia; f_equal; lia).
    assert (0 < 2 ^ (- (l - 1))) by (apply Z.pow_pos_nonneg; lia). nia.
Qed.

(** [Math.floor(n / d)] is exact integer division on safe integers. *)
Lemma js_floor_div_exact n d : 0 <= n < 2 ^ 53 -> 0 < d -> js_floor_div n d = n / d.
Proof.
  intros Hn Hd. unfold js_floor_div. destruct (Z.eqb_spec n 0) as [->|Hn0]; [by rewrite Z.div_0_l by lia|].
  pose proof (ratio_log2_spec n d ltac:(lia) Hd) as [Hl1 Hl2].
  set (l := ratio_log2 n d) in *.
  assert (l < 53) as Hl53.
  { destruct (Z.ltb_spec l 53); [done|]. specialize (Hl1 ltac:(lia)).
    assert (2 ^ 53 <= 2 ^ l) by (apply Z.pow_le_mono_r; lia). nia. }
  destruct (Z.leb_spec 0 (l - 52)) as [He|He].
  - assert (l = 52) as E by lia. rewrite E in *. replace (52 - 52) with 0 by lia.
    specialize (Hl1 ltac:(lia)).
    assert (d = 1) as -> by nia. cbn. rewrite Z.mul_1_r, Z.div_1_r.
    rewrite <- (Z.mul_1_r n) at 1. by apply round_half_even_exact.
  - replace (- (l - 52)) with (52 - l) by lia.
    set (k := 52 - l) in *. assert (0 < 2 ^ k) as Hk by (apply Z.pow_pos_nonneg; lia).
    pose proof (Z.div_mod n d ltac:(lia)) as Hqr. pose proof (Z.mod_pos_bound n d Hd) as Hr.
    pose proof (round_half_even_bounds (n * 2 ^ k) d Hd) as [Hub Hlb].
    set (m := round_half_even (n * 2 ^ k) d) in *.
    assert (n / d * 2 ^ k <= m) as Hlow.
    { unfold m. rewrite <- (round_half_even_exact (n / d * 2 ^ k) d Hd).
      apply round_half_even_mono; [done|nia]. }
    symmetry. apply Z.div_unique with (r := m - 2 ^ k * (n / d)); [left; split; [lia|]|lia].
    (* the rounded quotient stays below the next integer *)
    assert (d < 2 * 2 ^ k) as Hdk.
    { destruct (Z.ltb_spec l 0) as [Hneg|Hpos].
      - specialize (Hl2 ltac:(lia)).
        assert (2 * 2 ^ k = 2 ^ 53 * 2 ^ (- l)) as E.
        { unfold k. rewrite <- Z.pow_succ_r, <- Z.pow_add_r by lia. f_equal. lia. }
        assert (0 < 2 ^ (- l)) by (apply Z.pow_pos_nonneg; lia). nia.
      - specialize (Hl1 ltac:(lia)).
        assert (2 ^ l * (2 * 2 ^ k) = 2 ^ 53) as E.
        { unfold k. rewrite <- Z.pow_succ_r, <- Z.pow_add_r by lia. f_equal. lia. }
        assert (0 < 2 ^ l) by (apply Z.pow_pos_nonneg; lia). nia. }
    nia.
Qed.

Lemma to_int32_range z : - 2 ^ 31 <= to_int32 z < 2 ^ 31.
Proof. unfold to_int32. pose proof (Z.mod_pos_bound z (2 ^ 32)). case_match; zbool; lia. Qed.

Lemma to_int32_small z : - 2 ^ 31 <= z < 2 ^ 31 -> to_int32 z = z.
Proof.
  intros Hz. unfold to_int32. destruct (Z.ltb_spec z 0).
  - replace (z mod 2 ^ 32) with (z + 2 ^ 32); [case_match; zbool; lia|].
    apply Z.mod_unique_pos with (q := -1); lia.
  - rewrite Z.mod_small by lia. case_match; zbool; lia.
Qed.

#[export] Hint Resolve to_number_safe to_int32_range : equinox.

(** ** Strings *)

Lemma length_string_app a b : String.length (a +:+ b) = (String.length a + String.length b)%nat.
Proof. induction a as [|c a IH]; [done|]. exact (f_equal S IH). Qed.
