(* ===== verification/Json.v ===== *)
(** * JavaScript values and strings

    The values [JSON.parse] produces, property access on them, [String(...)],
    and the string methods the services use.  A string is a sequence of Latin-1
    code units.  Numbers are the integers of the Prelude; [JInfinity] is what an
    out-of-range literal parses to. *)

From S2P Require Import Prelude.

(** ** Values *)

#[warnings="-register-all"]
Inductive json :=
  | JNull
  | JBool (b : bool)
  | JNum (z : Z)
  | JInfinity
  | JStr (s : string)
  | JArr (items : list json)
  | JObj (fields : list (string * json)).

(** The first binding of a name in an association list. *)
Fixpoint assoc {A} (name : string) (fields : list (string * A)) : option A :=
  match fields with
  | [] => None
  | (f, v) :: rest => if bool_decide (f = name) then Some v else assoc name rest
  end.

(** [value[name]] for a name that is not an array index; [None] is [undefined]. *)
Definition prop (name : string) (v : json) : option json :=
  match v with JObj fields => assoc name fields | _ => None end.

(** [typeof value === "object" && value !== null] *)
Definition isRecord (v : json) : bool := match v with JObj _ | JArr _ => true | _ => false end.

(** [value === s] for a string literal [s]. *)
Definition is_str (s : string) (v : option json) : bool :=
  match v with Some (JStr t) => bool_decide (t = s) | _ => false end.

(** [value === b] for a boolean literal [b]. *)
Definition is_bool (b : bool) (v : option json) : bool :=
  match v with Some (JBool c) => bool_decide (c = b) | _ => false end.

(** [a ?? b] on an optional property: [null] and [undefined] fall through. *)
Definition nullish (v : option json) : option json :=
  match v with Some JNull => None | _ => v end.

(** Truthiness of an optional property. *)
Definition truthy (v : option json) : bool :=
  match v with
  | None | Some JNull => false
  | Some (JBool b) => b
  | Some (JNum z) => negb (z =? 0)
  | Some (JStr s) => negb (bool_decide (s = EmptyString))
  | Some _ => true
  end.

(** [String(value)]; array elements that are [null] print as nothing. *)
Fixpoint js_String (v : json) : string :=
  match v with
  | JNull => "null"
  | JBool b => if b then "true" else "false"
  | JNum z => pretty z
  | JInfinity => "Infinity"
  | JStr s => s
  | JArr items =>
      let fix join l :=
        match l with
        | [] => EmptyString
        | [x] => match x with JNull => EmptyString | _ => js_String x end
        | x :: rest => (match x with JNull => EmptyString | _ => js_String x end) +:+ "," +:+ join rest
        end in
      join items
  | JObj _ => "[object Object]"
  end.

(** ** Strings *)

Definition ascii_lower (c : Ascii.ascii) : Ascii.ascii :=
  let n := Ascii.nat_of_ascii c in
  if bool_decide (65 <= n <= 90)%nat then Ascii.ascii_of_nat (n + 32) else c.

(** [s.toLowerCase()] on the letters A to Z. *)
Fixpoint toLowerCase (s : string) : string :=
  match s with
  | EmptyString => EmptyString
  | String c rest => String (ascii_lower c) (toLowerCase rest)
  end.

(** [s.includes(needle)] *)
Fixpoint includes (needle s : string) : bool :=
  String.prefix needle s ||
  match s with
  | EmptyString => false
  | String _ rest => includes needle rest
  end.

Definition is_digit (c : Ascii.ascii) : bool :=
  let n := Ascii.nat_of_ascii c in bool_decide (48 <= n <= 57)%nat.

(** Decimal value of a digit string. *)
Fixpoint decimal_acc (acc : Z) (s : string) : Z :=
  match s with
  | EmptyString => acc
  | String c rest => decimal_acc (10 * acc + (Z.of_nat (Ascii.nat_of_ascii c) - 48)) rest
  end.
Definition decimal (s : string) : Z := decimal_acc 0 s.

Fixpoint all_digits (s : string) : bool :=
  match s with
  | EmptyString => true
  | String c rest => is_digit c && all_digits rest
  end.

(** [/^\d+$/.test(s)] *)
Definition digit_string (s : string) : bool := negb (bool_decide (s = EmptyString)) && all_digits s.

(** [s.split(c)] for a one-character separator. *)
Fixpoint split_char (c : Ascii.ascii) (s : string) : list string :=
  match s with
  | EmptyString => [EmptyString]
  | String d rest =>
      if bool_decide (d = c) then EmptyString :: split_char c rest
      else match split_char c rest with
           | [] => [String d EmptyString]
           | w :: ws => String d w :: ws
           end
  end.

Definition hex_value (c : Ascii.ascii) : option Z :=
  let n := Z.of_nat (Ascii.nat_of_ascii c) in
  if (48 <=? n) && (n <=? 57) then Some (n - 48)
  else if (97 <=? n) && (n <=? 102) then Some (n - 87)
  else if (65 <=? n) && (n <=? 70) then Some (n - 55)
  else None.

(** The longest hexadecimal prefix of a string, as [parseInt(s, 16)] reads it
    after the sign and the optional [0x]. *)
Fixpoint hex_prefix (acc : option Z) (s : string) : option Z :=
  match s with
  | EmptyString => acc
  | String c rest =>
      match hex_value c with
      | Some v => hex_prefix (Some (16 * default 0 acc + v)) rest
      | None => acc
      end
  end.

(** White space [parseInt] and [trim] skip. *)
Definition is_js_space (c : Ascii.ascii) : bool :=
  let n := Ascii.nat_of_ascii c in
  bool_decide (n = 32%nat) || (bool_decide (9 <= n)%nat && bool_decide (n <= 13)%nat) || bool_decide (n = 160%nat).

Fixpoint skip_spaces (s : string) : string :=
  match s with
  | String c rest => if is_js_space c then skip_spaces rest else s
  | EmptyString => EmptyString
  end.

Definition drop_0x (s : string) : string :=
  match s with
  | String a (String b rest) =>
      if bool_decide (a = Ascii.ascii_of_nat 48) && (bool_decide (b = Ascii.ascii_of_nat 120) || bool_decide (b = Ascii.ascii_of_nat 88)) then rest else s
  | _ => s
  end.

(** [Number.parseInt(s, 16)]; [None] is [NaN]. *)
Definition parseInt16 (s : string) : option Z :=
  match skip_spaces s with
  | String c rest =>
      if bool_decide (c = Ascii.ascii_of_nat 45) then Z.opp <$> hex_prefix None (drop_0x rest)
      else if bool_decide (c = Ascii.ascii_of_nat 43) then hex_prefix None (drop_0x rest)
      else hex_prefix None (drop_0x (String c rest))
  | EmptyString => None
  end.

(** Storing a number into a [Uint8Array]: [NaN] becomes 0, the rest wraps. *)
Definition to_uint8 (v : option Z) : Z := default 0 v mod 256.

(** Digits of [z.toString(16)], most significant first; [n] bounds their
    number. *)
Fixpoint hex_digits (n : nat) (z : Z) (acc : string) : string :=
  match n with
  | O => acc
  | S n =>
      let acc := String (default Ascii.zero (String.get (Z.to_nat (z mod 16)) "0123456789abcdef")) acc in
      if z / 16 =? 0 then acc else hex_digits n (z / 16) acc
  end.

(** [z.toString(16)] for an unsigned 32-bit [z]. *)
Definition toString16 (z : Z) : string := hex_digits 8 z EmptyString.

(** [out[i] = Number.parseInt(hex.slice(2i, 2i+2), 16)] for every pair. *)
Fixpoint hex_pairs (hex : string) : list Z :=
  match hex with
  | String a (String b rest) => to_uint8 (parseInt16 (String a (String b EmptyString))) :: hex_pairs rest
  | _ => []
  end.

(** ** Lemmas *)

Lemma list_ascii_of_string_app a b :
  String.list_ascii_of_string (a +:+ b) = String.list_ascii_of_string a ++ String.list_ascii_of_string b.
Proof.
  induction a as [|c a IH]; [done|].
  change (c :: String.list_ascii_of_string (a +:+ b) = c :: (String.list_ascii_of_string a ++ String.list_ascii_of_string b)).
  by rewrite IH.
Qed.

(** ** Decimal text *)

Lemma decimal_of_go x s : decimal_acc 0 (pretty.pretty_N_go x s) = decimal_acc (Z.of_N x) s.
Proof.
  revert s. induction (N.lt_wf_0 x) as [x _ IH]; intros s. destruct (decide (0 < x)%N) as [Hx|Hx].
  - rewrite pretty.pretty_N_go_step by done. rewrite IH by (apply N.div_lt; lia). cbn [decimal_acc]. f_equal.
    assert (Z.of_nat (Ascii.nat_of_ascii (pretty.pretty_N_char (x mod 10))) - 48 = Z.of_N (x mod 10)) as ->.
    { pose proof (N.mod_lt x 10 ltac:(lia)) as Hd. revert Hd. generalize (x mod 10)%N. clear. intros d Hd.
      destruct d as [|d]; [done|]. do 4 (destruct d as [d|d|]; [..|done]; try (exfalso; lia)). }
    pose proof (N.div_mod' x 10). lia.
  - assert (x = 0%N) as -> by lia. by rewrite pretty.pretty_N_go_0.
Qed.

Lemma digits_of_go x s : all_digits (pretty.pretty_N_go x s) = all_digits s.
Proof.
  revert s. induction (N.lt_wf_0 x) as [x _ IH]; intros s. destruct (decide (0 < x)%N) as [Hx|Hx].
  - rewrite pretty.pretty_N_go_step by done. rewrite IH by (apply N.div_lt; lia). cbn [all_digits].
    replace (is_digit _) with true; [done|]. unfold pretty.pretty_N_char. by repeat case_match.
  - assert (x = 0%N) as -> by lia. by rewrite pretty.pretty_N_go_0.
Qed.

Lemma pretty_pos p : digit_string (pretty (Npos p)) = true /\ decimal (pretty (Npos p)) = Z.pos p.
Proof.
  unfold decimal, digit_string. change (pretty (Npos p)) with (pretty.pretty_N_go (Npos p) ""). split; [|by rewrite decimal_of_go].
  rewrite digits_of_go. cbn [all_digits]. rewrite andb_true_r, negb_true_iff, bool_decide_eq_false. intros H.
  pose proof (decimal_of_go (Npos p) "") as Hd. rewrite H in Hd. done.
Qed.

Lemma decimal_acc_app acc a b : decimal_acc acc (a +:+ b) = decimal_acc (decimal_acc acc a) b.
Proof. revert acc. induction a as [|c a IH]; intros acc; [done|]. exact (IH _). Qed.

Lemma decimal_acc_shift acc s : decimal_acc acc s = acc * 10 ^ Z.of_nat (String.length s) + decimal s.
Proof.
  unfold decimal. revert acc. induction s as [|c s IH]; intros acc; cbn [decimal_acc String.length]; [lia|].
  rewrite IH, (IH (10 * 0 + _)), Nat2Z.inj_succ, Z.pow_succ_r by lia. ring.
Qed.

(** The text of a number below [10 ^ k] has at most [k] digits. *)
Lemma length_of_go k x s : (x < 10 ^ N.of_nat k)%N -> (String.length (pretty.pretty_N_go x s) <= k + String.length s)%nat.
Proof.
  revert x s. induction k as [|k IH]; intros x s Hx; [assert (x = 0%N) as -> by (cbn in Hx; lia); by rewrite pretty.pretty_N_go_0|].
  destruct (decide (0 < x)%N) as [H0|H0]; [|assert (x = 0%N) as -> by lia; rewrite pretty.pretty_N_go_0; lia].
  rewrite pretty.pretty_N_go_step by done. rewrite Nat2N.inj_succ, N.pow_succ_r' in Hx.
  specialize (IH (x `div` 10)%N (String (pretty.pretty_N_char (x mod 10)) s) ltac:(apply N.Div0.div_lt_upper_bound; lia)). cbn [String.length] in IH. lia.
Qed.

Lemma pretty_digits z : 0 <= z -> digit_string (pretty z) = true /\ decimal (pretty z) = z.
Proof. intros H. destruct z as [|p|p]; [done| |lia]. change (pretty (Z.pos p)) with (pretty (Npos p)). apply pretty_pos. Qed.

Lemma pretty_length k z : 0 <= z < 10 ^ Z.of_nat (S k) -> (String.length (pretty z) <= S k)%nat.
Proof.
  intros H. destruct z as [|p|p]; [cbn; lia| |lia]. change (pretty (Z.pos p)) with (pretty.pretty_N_go (Npos p) "").
  pose proof (length_of_go (S k) (Npos p) "") as Hl. cbn [String.length] in Hl. rewrite Nat.add_0_r in Hl. apply Hl. lia.
Qed.
