(* ===== verification/Doubles.v ===== *)
(** * JavaScript numbers with fractions

    The doubles the order ticket and the baskets compute with: a finite double is the
    rational it denotes, and every operation rounds its exact result to the nearest
    double, ties to even, with gradual underflow and overflow to infinity.  The two
    zeros are one.  With [Number(...)] on text, [parseInt], [toFixed], the [Math]
    functions and [BigInt(...)] of a number.

    The lemmas: a rounding errs by at most one part in 2^53, integers up to 2^53 are
    exact, and a decimal text that [toFixed] wrote is read back as the double nearest
    to it. *)

From Stdlib Require Export QArith Qround Qabs Qpower.
From Stdlib Require Import Lqa Ascii.
From S2P Require Import Prelude Json.

#[global] Open Scope Z_scope.
#[global] Arguments Qred : simpl never.

(** ** Rounding *)

(** [m * 2 ^ e] *)
Definition dyadic (m e : Z) : Q := if 0 <=? e then inject_Z (m * 2 ^ e) else m # Z.to_pos (2 ^ (- e)).

(** The double nearest to [n / d], for positive [n] and [d]: 53 significant bits, none
    below 2^-1074. *)
Definition round_ratio (n d : Z) : Q :=
  let e := Z.max (ratio_log2 n d - 52) (-1074) in
  dyadic (if 0 <=? e then round_half_even n (d * 2 ^ e) else round_half_even (n * 2 ^ (- e)) d) e.

Definition round_Q (x : Q) : Q :=
  let x := Qred x in
  match Qnum x with
  | 0 => 0%Q
  | Zpos n => round_ratio (Zpos n) (Zpos (Qden x))
  | Zneg n => Qopp (round_ratio (Zpos n) (Zpos (Qden x)))
  end.

(** ** Numbers *)

Inductive number := Fin (x : Q) | Inf (negative : bool) | NaN.

Definition Q_neg (x : Q) : bool := Qnum x <? 0.
Definition Q_zero (x : Q) : bool := Qnum x =? 0.

(** The result of an operation whose exact value is [x]. *)
Definition rounded (x : Q) : number :=
  let r := Qred (round_Q x) in if Qle_bool (inject_Z (2 ^ 1024)) (Qabs r) then Inf (Q_neg x) else Fin r.

Definition of_Z (z : Z) : number := rounded (inject_Z z).

Definition num_add (a b : number) : number :=
  match a, b with
  | NaN, _ | _, NaN => NaN
  | Fin x, Fin y => rounded (x + y)
  | Inf s, Inf t => if Bool.eqb s t then Inf s else NaN
  | Inf s, Fin _ | Fin _, Inf s => Inf s
  end.

Definition num_opp (a : number) : number := match a with Fin x => Fin (- x) | Inf s => Inf (negb s) | NaN => NaN end.
Definition num_sub (a b : number) : number := num_add a (num_opp b).

Definition num_mul (a b : number) : number :=
  match a, b with
  | NaN, _ | _, NaN => NaN
  | Fin x, Fin y => rounded (x * y)
  | Inf s, Inf t => Inf (xorb s t)
  | Inf s, Fin x | Fin x, Inf s => if Q_zero x then NaN else Inf (xorb s (Q_neg x))
  end.

Definition num_div (a b : number) : number :=
  match a, b with
  | NaN, _ | _, NaN | Inf _, Inf _ => NaN
  | Fin x, Fin y => if Q_zero y then (if Q_zero x then NaN else Inf (Q_neg x)) else rounded (x / y)
  | Inf s, Fin y => Inf (xorb s (Q_neg y))
  | Fin _, Inf _ => Fin 0
  end.

(** [a < b]; false as soon as one is not a number. *)
Definition num_lt (a b : number) : bool :=
  match a, b with
  | NaN, _ | _, NaN => false
  | Fin x, Fin y => negb (Qle_bool y x)
  | Inf s, Inf t => s && negb t
  | Inf s, Fin _ => s
  | Fin _, Inf t => negb t
  end.

Definition num_le (a b : number) : bool :=
  match a, b with
  | NaN, _ | _, NaN => false
  | Fin x, Fin y => Qle_bool x y
  | Inf s, Inf t => s || negb t
  | Inf s, Fin _ => s
  | Fin _, Inf t => negb t
  end.

Definition isFinite (a : number) : bool := match a with Fin _ => true | _ => false end.

(** [!a] *)
Definition num_falsy (a : number) : bool := match a with Fin x => Q_zero x | NaN => true | Inf _ => false end.

Definition Math_floor (a : number) : number := match a with Fin x => Fin (inject_Z (Qfloor x)) | _ => a end.
Definition Math_ceil (a : number) : number := match a with Fin x => Fin (inject_Z (Qceiling x)) | _ => a end.
(** The integer nearest to [a], a tie upwards. *)
Definition Math_round (a : number) : number := match a with Fin x => Fin (inject_Z (Qfloor (x + (1 # 2)))) | _ => a end.
Definition Math_max (a b : number) : number :=
  match a, b with NaN, _ | _, NaN => NaN | _, _ => if num_lt a b then b else a end.

(** [BigInt(a)]: a [RangeError] unless [a] is an integer. *)
Definition BigInt_of (a : number) : result Z :=
  match a with
  | Fin x => let z := Qfloor x in if Qeq_bool (inject_Z z) x then Ok z else Throw "The number cannot be converted to a BigInt because it is not an integer"
  | _ => Throw "The number cannot be converted to a BigInt because it is not an integer"
  end.

(** ** Text *)

Fixpoint take_digits (s : string) : string * string :=
  match s with
  | String c rest => if is_digit c then let '(d, r) := take_digits rest in (String c d, r) else (EmptyString, s)
  | EmptyString => (EmptyString, EmptyString)
  end.

(** The longest suffix of white space is dropped. *)
Fixpoint drop_trailing (s : string) : string :=
  match s with
  | EmptyString => EmptyString
  | String c rest => match drop_trailing rest with EmptyString => if is_js_space c then EmptyString else String c EmptyString | r => String c r end
  end.
Definition trim (s : string) : string := drop_trailing (skip_spaces s).

(** [m * 10 ^ k] *)
Definition scaled (m k : Z) : Q := if 0 <=? k then inject_Z (m * 10 ^ k) else m # Z.to_pos (10 ^ (- k)).

(** The exponent part: its value, when the whole text is one. *)
Definition exponent_part (s : string) : option Z :=
  match s with
  | EmptyString => Some 0
  | String c rest =>
      if bool_decide (c = "e"%char) || bool_decide (c = "E"%char)
      then match rest with
           | String sign digits =>
               if bool_decide (sign = "-"%char) then (if digit_string digits then Some (- decimal digits) else None)
               else if bool_decide (sign = "+"%char) then (if digit_string digits then Some (decimal digits) else None)
               else if digit_string rest then Some (decimal rest) else None
           | EmptyString => None
           end
      else None
  end.

(** An unsigned decimal literal. *)
Definition unsigned_decimal (s : string) : option Q :=
  let '(whole, rest) := take_digits s in
  let '(fraction, rest) := match rest with
    | String c r => if bool_decide (c = "."%char) then take_digits r else (EmptyString, rest)
    | EmptyString => (EmptyString, rest)
    end in
  if bool_decide (whole = EmptyString) && bool_decide (fraction = EmptyString) then None
  else e ← exponent_part rest; Some (scaled (decimal (whole +:+ fraction)) (e - Z.of_nat (String.length fraction))).

Definition unsigned_number (s : string) : option (number) :=
  if bool_decide (s = "Infinity") then Some (Inf false) else rounded <$> unsigned_decimal s.

(** The digits of a literal in base [base] after its prefix. *)
Fixpoint radix_digits (base acc : Z) (s : string) : option Z :=
  match s with
  | EmptyString => Some acc
  | String c rest => match hex_value c with Some v => if v <? base then radix_digits base (base * acc + v) rest else None | None => None end
  end.

Definition radix_of (c : Ascii.ascii) : option Z :=
  if bool_decide (c = "x"%char) || bool_decide (c = "X"%char) then Some 16
  else if bool_decide (c = "o"%char) || bool_decide (c = "O"%char) then Some 8
  else if bool_decide (c = "b"%char) || bool_decide (c = "B"%char) then Some 2 else None.

(** [Number(s)] *)
Definition Number (s : string) : number :=
  match trim s with
  | EmptyString => Fin 0
  | String c rest as t =>
      let radix := match rest with String x digits => if bool_decide (c = "0"%char) then (fun b => (b, digits)) <$> radix_of x else None | EmptyString => None end in
      match radix with
      | Some (_, EmptyString) => NaN
      | Some (b, digits) => match radix_digits b 0 digits with Some z => of_Z z | None => NaN end
      | None =>
          default NaN
            (if bool_decide (c = "-"%char) then num_opp <$> unsigned_number rest
             else if bool_decide (c = "+"%char) then unsigned_number rest
             else unsigned_number t)
      end
  end.

(** [Number.parseInt(s, 10)]; [None] is [NaN].  The digits are not rounded. *)
Definition parseInt10 (s : string) : option Z :=
  let digits t := let d := fst (take_digits t) in if bool_decide (d = EmptyString) then None else Some (decimal d) in
  match skip_spaces s with
  | String c rest as t => if bool_decide (c = "-"%char) then Z.opp <$> digits rest else if bool_decide (c = "+"%char) then digits rest else digits t
  | EmptyString => None
  end.

Fixpoint zeros (n : nat) : string := match n with O => EmptyString | S n => String "0"%char (zeros n) end.
Definition pad (n : nat) (s : string) : string := zeros (n - String.length s) +:+ s.

(** [n / 10 ^ f] with [f] fraction digits. *)
Definition fixed_text (n : Z) (f : nat) : string :=
  match f with
  | O => pretty n
  | _ => pretty (n / 10 ^ Z.of_nat f) +:+ "." +:+ pad f (pretty (n mod 10 ^ Z.of_nat f))
  end.

(** [x.toFixed(f)].  From 10^21 on JavaScript writes the shortest text that reads back as
    [x]; here it is the integer in full, which reads back alike. *)
Definition toFixed (f : nat) (a : number) : string :=
  let text x := if Qle_bool (inject_Z (10 ^ 21)) x then pretty (Qfloor x) else fixed_text (Qfloor (x * inject_Z (10 ^ Z.of_nat f) + (1 # 2))) f in
  match a with
  | NaN => "NaN"
  | Inf s => if s then "-Infinity" else "Infinity"
  | Fin x => if Q_neg x then "-" +:+ text (- x)%Q else text x
  end.

(** ** Rounding errors *)

#[export] Instance round_Q_proper : Proper (Qeq ==> eq) round_Q.
Proof. intros x y H. unfold round_Q. by rewrite (Qred_complete _ _ H). Qed.

Lemma Q_neg_iff x : Q_neg x = true <-> (x < 0)%Q.
Proof. unfold Q_neg, Qlt. cbn. rewrite Z.mul_1_r. apply Z.ltb_lt. Qed.

Lemma Q_zero_iff x : Q_zero x = true <-> (x == 0)%Q.
Proof. unfold Q_zero, Qeq. cbn. rewrite Z.mul_1_r. apply Z.eqb_eq. Qed.

#[export] Instance Q_neg_proper : Proper (Qeq ==> eq) Q_neg.
Proof. intros x y H. apply eq_true_iff_eq. rewrite !Q_neg_iff. by rewrite H. Qed.

#[export] Instance Q_zero_proper : Proper (Qeq ==> eq) Q_zero.
Proof. intros x y H. apply eq_true_iff_eq. rewrite !Q_zero_iff. by rewrite H. Qed.

#[export] Instance rounded_proper : Proper (Qeq ==> eq) rounded.
Proof. intros x y H. unfold rounded. by rewrite (round_Q_proper _ _ H), (Q_neg_proper _ _ H). Qed.

(** [r] is within one part in 2^53 of [x]. *)
Definition near (r x : Q) : Prop := (Qabs (r - x) <= Qabs x * (1 # 2 ^ 53))%Q.

(** The positive rationals that are not below the normal doubles. *)
Definition normal (x : Q) : Prop := ((1 # 2 ^ 1022) <= Qabs x)%Q.

Lemma near_ratio p q n d :
  0 < q -> 0 < d -> 0 < n -> Z.abs (p * d - n * q) * 2 ^ 53 <= n * q -> near (p # Z.to_pos q) (n # Z.to_pos d).
Proof.
  intros Hq Hd Hn H. unfold near, Qle, Qabs, Qminus, Qplus, Qopp, Qmult. cbn -[Z.mul Z.pow Z.abs Pos.mul]. rewrite !Pos2Z.inj_mul, !Z2Pos.id by lia.
  rewrite (Z.abs_eq n) by lia. replace (p * d + - n * q) with (p * d - n * q) by lia.
  change (Z.pos (2 ^ 53)) with (2 ^ 53). nia.
Qed.

Lemma ratio_log2_upper n d :
  0 < n -> 0 < d -> ratio_log2 n d < -1 -> n * 2 ^ (- (ratio_log2 n d + 1)) < d.
Proof.
  intros Hn Hd. unfold ratio_log2. set (l := Z.log2 n - Z.log2 d). pose proof (Z.log2_spec n Hn) as [Hn1 Hn2]. pose proof (Z.log2_spec d Hd) as [Hd1 Hd2].
  pose proof (Z.log2_nonneg n). pose proof (Z.log2_nonneg d). intros Hl.
  destruct (0 <=? l) eqn:E0; zbool; [destruct (_ <=? n); lia|]. destruct (d <=? n * 2 ^ (- l)) eqn:E; zbool.
  - assert (2 ^ Z.succ (Z.log2 n) * 2 ^ (- (l + 1)) = 2 ^ Z.log2 d) as Hp by (rewrite <- Z.pow_add_r by lia; f_equal; lia).
    assert (0 < 2 ^ (- (l + 1))) by (apply Z.pow_pos_nonneg; lia). nia.
  - by replace (- (l - 1 + 1)) with (- l) by lia.
Qed.

Lemma round_ratio_near n d : 0 < n -> 0 < d -> d <= n * 2 ^ 1022 -> near (round_ratio n d) (n # Z.to_pos d).
Proof.
  intros Hn Hd Hnorm. unfold round_ratio. pose proof (ratio_log2_spec n d Hn Hd) as [H1 H2]. pose proof (ratio_log2_upper n d Hn Hd) as H3.
  set (l := ratio_log2 n d) in *.
  assert (-1022 <= l) as Hl.
  { destruct (Z.le_gt_cases (-1022) l); [done|]. specialize (H3 ltac:(lia)).
    assert (2 ^ 1022 <= 2 ^ (- (l + 1))) by (apply Z.pow_le_mono_r; lia). nia. }
  clear H3 Hnorm. replace (Z.max (l - 52) (-1074)) with (l - 52) by lia. set (e := l - 52). unfold dyadic. destruct (0 <=? e) eqn:E; zbool.
  - assert (0 < 2 ^ e) by (apply Z.pow_pos_nonneg; lia). pose proof (round_half_even_bounds n (d * 2 ^ e) ltac:(lia)) as [Hu Hlo].
    assert (d * 2 ^ e * 2 ^ 52 <= n) as Hb by (rewrite <- Z.mul_assoc, <- Z.pow_add_r by lia; replace (e + 52) with l by lia; apply H1; lia).
    set (m := round_half_even n (d * 2 ^ e)) in *. change (inject_Z (m * 2 ^ e)) with (m * 2 ^ e # Z.to_pos 1). apply near_ratio; [lia|lia|lia|].
    replace (m * 2 ^ e * d - n * 1) with (d * 2 ^ e * m - n) by ring. lia.
  - assert (0 < 2 ^ (- e)) by (apply Z.pow_pos_nonneg; lia). pose proof (round_half_even_bounds (n * 2 ^ (- e)) d Hd) as [Hu Hlo].
    assert (d * 2 ^ 52 <= n * 2 ^ (- e)) as Hb.
    { destruct (Z.le_gt_cases 0 l).
      - specialize (H1 ltac:(lia)). assert (2 ^ 52 = 2 ^ l * 2 ^ (- e)) as -> by (rewrite <- Z.pow_add_r by lia; f_equal; lia). nia.
      - specialize (H2 ltac:(lia)). assert (2 ^ (- e) = 2 ^ (- l) * 2 ^ 52) as -> by (rewrite <- Z.pow_add_r by lia; f_equal; lia). nia. }
    set (m := round_half_even (n * 2 ^ (- e)) d) in *. apply near_ratio; [lia|lia|lia|].
    replace (m * d - n * 2 ^ (- e)) with (d * m - n * 2 ^ (- e)) by ring. lia.
Qed.

Lemma near_opp r x : near r x -> near (- r) (- x).
Proof.
  unfold near. intros H. rewrite Qabs_opp. assert (- r - - x == - (r - x))%Q as -> by ring. by rewrite Qabs_opp.
Qed.

#[export] Instance near_proper : Proper (Qeq ==> Qeq ==> iff) near.
Proof. intros r r' Hr x x' Hx. unfold near. by rewrite Hr, Hx. Qed.

(** A rounding errs by at most one part in 2^53. *)
Lemma round_Q_near x : normal x -> near (round_Q x) x.
Proof.
  intros Hx. assert (normal (Qred x)) as Hn by (unfold normal in *; by rewrite Qred_correct). rewrite <- (Qred_correct x) at 2. unfold round_Q.
  destruct (Qred x) as [n d]. cbn [Qnum Qden]. unfold normal, Qle in Hn. cbn -[Z.pow] in Hn.
  change (Z.pos (2 ^ 1022)) with (2 ^ 1022) in Hn. destruct n as [|n|n]; [lia| |].
  - replace (Zpos n # d) with (Zpos n # Z.to_pos (Zpos d)) by done. apply round_ratio_near; [lia|lia|]. cbn [Z.abs] in Hn. lia.
  - replace (Zneg n # d) with (- (Zpos n # Z.to_pos (Zpos d)))%Q by done. apply near_opp, round_ratio_near; [lia|lia|]. cbn [Z.abs] in Hn. lia.
Qed.

(** An integer of at most 53 bits is a double. *)
Lemma round_ratio_Z n : 0 < n <= 2 ^ 53 -> (round_ratio n 1 == inject_Z n)%Q.
Proof.
  intros Hn. unfold round_ratio. pose proof (ratio_log2_spec n 1 ltac:(lia) ltac:(lia)) as [H1 _].
  assert (0 <= ratio_log2 n 1 <= 53) as Hl.
  { split.
    { unfold ratio_log2. change (Z.log2 1) with 0. rewrite Z.sub_0_r. pose proof (Z.log2_nonneg n). pose proof (Z.log2_spec n ltac:(lia)) as [Hs _].
      rewrite (proj2 (Z.leb_le 0 (Z.log2 n))), (proj2 (Z.leb_le (1 * 2 ^ Z.log2 n) n)) by lia. lia. }
    destruct (Z.le_gt_cases (ratio_log2 n 1) 53); [done|]. specialize (H1 ltac:(lia)).
    assert (2 ^ 54 <= 2 ^ ratio_log2 n 1) by (apply Z.pow_le_mono_r; lia). lia. }
  specialize (H1 ltac:(lia)). rewrite Z.max_l by lia. unfold dyadic. destruct (0 <=? ratio_log2 n 1 - 52) eqn:E; zbool.
  - destruct (Z.eq_dec (ratio_log2 n 1) 53) as [E53|]; [|assert (ratio_log2 n 1 = 52) as -> by lia].
    + rewrite E53 in *. assert (n = 2 ^ 53) as -> by lia. vm_compute. done.
    + change (1 * 2 ^ (52 - 52)) with 1. change (2 ^ (52 - 52)) with 1. rewrite <- (Z.mul_1_r n) at 1. by rewrite round_half_even_exact, Z.mul_1_r by lia.
  - assert (0 < 2 ^ (- (ratio_log2 n 1 - 52))) by (apply Z.pow_pos_nonneg; lia). set (k := 2 ^ (- (ratio_log2 n 1 - 52))) in *.
    rewrite <- (Z.mul_1_r (n * k)), round_half_even_exact by lia. unfold Qeq. cbn [Qnum Qden inject_Z]. rewrite Z2Pos.id by lia. lia.
Qed.

Lemma Qred_inject_Z z : Qred (inject_Z z) = inject_Z z.
Proof.
  unfold Qred, inject_Z. pose proof (Z.ggcd_gcd z 1) as Hg. pose proof (Z.ggcd_correct_divisors z 1) as Hd.
  destruct (Z.ggcd z 1) as [g [a b]]. cbn [fst snd] in *. rewrite Z.gcd_1_r in Hg. subst g. destruct Hd as [-> Hb].
  rewrite Z.mul_1_l in *. by rewrite <- Hb.
Qed.

Lemma round_Q_Z z : Z.abs z <= 2 ^ 53 -> (round_Q (inject_Z z) == inject_Z z)%Q.
Proof.
  intros Hz. unfold round_Q. rewrite Qred_inject_Z. cbn [Qnum Qden inject_Z].
  destruct z as [|n|n]; [done|apply round_ratio_Z; lia|]. rewrite round_ratio_Z by lia. done.
Qed.

(** Values far from underflow and overflow. *)
Definition moderate (x : Q) : Prop := ((1 # 2 ^ 1000) <= Qabs x)%Q /\ (Qabs x <= inject_Z (2 ^ 1000))%Q.

#[export] Instance moderate_proper : Proper (Qeq ==> iff) moderate.
Proof. intros x y H. unfold moderate. by rewrite H. Qed.

Lemma moderate_normal x : moderate x -> normal x.
Proof. intros [H _]. unfold normal. eapply Qle_trans; [|exact H]. by vm_compute. Qed.

Lemma near_bound r x : near r x -> (Qabs r <= Qabs x * (1 + (1 # 2 ^ 53)))%Q.
Proof.
  unfold near. intros H. pose proof (Qabs_triangle (r - x) x) as Ht. assert (r - x + x == r)%Q as E by ring. rewrite E in Ht. lra.
Qed.

(** An operation on moderate values gives a double near the exact result. *)
Lemma rounded_near x : moderate x -> exists r, rounded x = Fin r /\ near r x.
Proof.
  intros Hm. assert (near (Qred (round_Q x)) x) as Hn by (rewrite Qred_correct; by apply round_Q_near, moderate_normal).
  exists (Qred (round_Q x)). split; [|done]. unfold rounded.
  destruct (Qle_bool _ _) eqn:E; [|done]. exfalso. apply Qle_bool_iff in E. pose proof (near_bound _ _ Hn) as Hb. destruct Hm as [_ Hm].
  assert (Qabs x * (1 + (1 # 2 ^ 53)) < inject_Z (2 ^ 1024))%Q as Hlt; [|eapply Qlt_not_le; [exact Hlt|by eapply Qle_trans]].
  eapply Qle_lt_trans; [apply Qmult_le_compat_r; [exact Hm|by vm_compute]|]. by vm_compute.
Qed.

Lemma of_Z_exact z : Z.abs z <= 2 ^ 53 -> of_Z z = Fin (inject_Z z).
Proof.
  intros Hz. unfold of_Z, rounded. rewrite (Qred_complete _ _ (round_Q_Z z Hz)), Qred_inject_Z.
  destruct (Qle_bool _ _) eqn:E; [|done]. exfalso. apply Qle_bool_iff in E. unfold Qabs, inject_Z, Qle in E. cbn -[Z.pow] in E. lia.
Qed.

Lemma BigInt_of_Z z : BigInt_of (Fin (inject_Z z)) = Ok z.
Proof. unfold BigInt_of. rewrite Qfloor_Z. by rewrite Qeq_bool_refl. Qed.

(** A positive double near a positive value. *)
Lemma near_pos r x : (0 < x)%Q -> near r x -> (x * (1 - (1 # 2 ^ 53)) <= r <= x * (1 + (1 # 2 ^ 53)))%Q.
Proof. unfold near. intros Hx H. rewrite (Qabs_pos x) in H by lra. apply Qabs_Qle_condition in H. split; lra. Qed.

Lemma near_half r x : (0 < x)%Q -> near r x -> (x * (1 # 2) <= r <= x * (3 # 2))%Q.
Proof.
  intros Hx H. pose proof (near_pos r x Hx H) as [H1 H2].
  assert (x * (1 # 2 ^ 53) <= x * (1 # 2))%Q by (rewrite !(Qmult_comm x); apply Qmult_le_compat_r; [by vm_compute|lra]). split; lra.
Qed.

Lemma positive_moderate x : ((1 # 2 ^ 1000) <= x)%Q -> (x <= inject_Z (2 ^ 1000))%Q -> moderate x.
Proof. intros H1 H2. assert (0 <= x)%Q by (eapply Qle_trans; [|exact H1]; by vm_compute). unfold moderate. by rewrite Qabs_pos. Qed.

(** ** Text read back *)

Fixpoint all_chars (p : ascii -> bool) (s : string) : bool := match s with EmptyString => true | String c rest => p c && all_chars p rest end.

Lemma all_chars_app p a b : all_chars p (a +:+ b) = all_chars p a && all_chars p b.
Proof. induction a as [|c a IH]; [done|]. change (p c && all_chars p (a +:+ b) = p c && all_chars p a && all_chars p b). rewrite IH. by rewrite andb_assoc. Qed.

Lemma all_digits_chars s : all_digits s = all_chars is_digit s.
Proof. induction s as [|c s IH]; [done|]. cbn. by rewrite IH. Qed.

(** A character of a written number: a digit or the point. *)
Definition plain_char (c : ascii) : bool := is_digit c || bool_decide (c = "."%char).

Lemma plain_not_space c : plain_char c = true -> is_js_space c = false.
Proof. destruct c as [[] [] [] [] [] [] [] []]; vm_compute; done. Qed.

Lemma drop_trailing_plain s : all_chars plain_char s = true -> drop_trailing s = s.
Proof.
  induction s as [|c s IH]; [done|]. cbn. rewrite andb_true_iff. intros [Hc Hs]. rewrite (IH Hs). destruct s; [by rewrite plain_not_space|done].
Qed.

Lemma trim_plain s : all_chars plain_char s = true -> trim s = s.
Proof.
  intros H. unfold trim. destruct s as [|c s]; [done|]. cbn [skip_spaces]. pose proof H as H'. cbn in H'. apply andb_true_iff in H' as [Hc _].
  rewrite (plain_not_space _ Hc). by apply drop_trailing_plain.
Qed.

Lemma take_digits_all a rest :
  all_digits a = true -> match rest with String c _ => is_digit c = false | EmptyString => True end -> take_digits (a +:+ rest) = (a, rest).
Proof.
  intros Ha Hr. induction a as [|c a IH].
  - destruct rest as [|c rest]; [done|]. change ("" +:+ String c rest) with (String c rest). cbn. by rewrite Hr.
  - cbn in Ha. apply andb_true_iff in Ha as [Hc Ha]. change (String c a +:+ rest) with (String c (a +:+ rest)). cbn. by rewrite Hc, (IH Ha).
Qed.

Lemma string_app_nil s : s +:+ "" = s.
Proof. induction s as [|c s IH]; [done|]. change (String c (s +:+ "") = String c s). by rewrite IH. Qed.

Lemma pad_spec f s :
  (String.length s <= f)%nat -> all_digits s = true ->
  String.length (pad f s) = f /\ all_digits (pad f s) = true /\ decimal (pad f s) = decimal s.
Proof.
  intros Hl Hs. unfold pad. rewrite length_string_app. generalize (eq_refl (f - String.length s)%nat). generalize (f - String.length s)%nat at 2 3 4 5. intros n Hn.
  assert (String.length (zeros n) = n) as -> by (clear; induction n; cbn; congruence). split_and!; [lia| |]; clear Hn.
  - induction n as [|n IH]; [done|]. exact IH.
  - induction n as [|n IH]; [done|]. exact IH.
Qed.

Lemma decimal_app a b : decimal (a +:+ b) = decimal a * 10 ^ Z.of_nat (String.length b) + decimal b.
Proof. unfold decimal at 1. rewrite decimal_acc_app. fold (decimal a). apply decimal_acc_shift. Qed.

(** The reading of [whole.fraction]. *)
Lemma Number_point w f :
  digit_string w = true -> all_digits f = true -> f ≠ EmptyString ->
  Number (w +:+ "." +:+ f) = rounded (decimal w * 10 ^ Z.of_nat (String.length f) + decimal f # Z.to_pos (10 ^ Z.of_nat (String.length f))).
Proof.
  unfold digit_string. intros [Hw0 Hw]%andb_true_iff Hf Hf0. apply negb_true_iff, bool_decide_eq_false in Hw0. unfold Number.
  assert (all_chars plain_char (w +:+ "." +:+ f) = true) as Hp.
  { assert (forall s, all_digits s = true -> all_chars plain_char s = true) as Hd.
    { induction s as [|c s IH]; [done|]. cbn. rewrite !andb_true_iff. intros [Hc Hs]. split; [unfold plain_char; by rewrite Hc|by apply IH]. }
    rewrite !all_chars_app, (Hd w Hw), (Hd f Hf). done. }
  rewrite trim_plain by done. clear Hp.
  assert (unsigned_number (w +:+ "." +:+ f)
    = Some (rounded (decimal w * 10 ^ Z.of_nat (String.length f) + decimal f # Z.to_pos (10 ^ Z.of_nat (String.length f))))) as Hu.
  { unfold unsigned_number. rewrite bool_decide_eq_false_2.
    2: { destruct w as [|c w]; [done|]. intros [= -> _]. done. }
    unfold unsigned_decimal. rewrite (take_digits_all w ("." +:+ f) Hw) by done. change ("." +:+ f) with (String "."%char f).
    cbv beta iota zeta. rewrite (bool_decide_eq_true_2 ("."%char = "."%char)) by done. pose proof (take_digits_all f "" Hf I) as Ht. rewrite string_app_nil in Ht. rewrite Ht.
    rewrite (bool_decide_eq_false_2 (w = EmptyString)) by done. cbn [andb exponent_part mbind option_bind fmap option_fmap option_map].
    do 2 f_equal. unfold scaled. rewrite Z.sub_0_l, decimal_app.
    destruct (String.length f) as [|n] eqn:El; [by destruct f|]. rewrite (proj2 (Z.leb_gt 0 (- Z.of_nat (S n)))) by lia. by rewrite Z.opp_involutive. }
  destruct w as [|c w]; [done|]. change (String c w +:+ "." +:+ f) with (String c (w +:+ "." +:+ f)) in *. cbn in Hw. apply andb_true_iff in Hw as [Hc Hw].
  assert (c ≠ "-"%char /\ c ≠ "+"%char) as [H1 H2] by (split; by intros ->).
  assert (match w +:+ "." +:+ f with String x digits => if bool_decide (c = "0"%char) then (fun b => (b, digits)) <$> radix_of x else None | EmptyString => None end = None) as ->.
  { destruct w as [|x w]; [change ("" +:+ "." +:+ f) with (String "."%char f); by case_bool_decide|]. change (String x w +:+ "." +:+ f) with (String x (w +:+ "." +:+ f)). case_bool_decide; [|done].
    cbn in Hw. apply andb_true_iff in Hw as [Hx _]. unfold radix_of. repeat (case_bool_decide; [subst x; done|]). done. }
  rewrite (bool_decide_eq_false_2 _ H1), (bool_decide_eq_false_2 _ H2), Hu. done.
Qed.

Lemma Number_fixed_text n k : 0 <= n -> Number (fixed_text n (S k)) = rounded (n # Z.to_pos (10 ^ Z.of_nat (S k))).
Proof.
  intros Hn. assert (0 < 10 ^ Z.of_nat (S k)) as Hp by (apply Z.pow_pos_nonneg; lia).
  pose proof (Z.mod_pos_bound n _ Hp) as Hm. pose proof (Z.div_mod n (10 ^ Z.of_nat (S k)) ltac:(lia)) as Hd.
  destruct (pretty_digits (n / 10 ^ Z.of_nat (S k))) as [Hw1 Hw2]; [apply Z.div_pos; lia|].
  destruct (pretty_digits (n mod 10 ^ Z.of_nat (S k))) as [Hf1 Hf2]; [lia|]. unfold digit_string in Hf1. apply andb_true_iff in Hf1 as [_ Hf1].
  destruct (pad_spec (S k) _ (pretty_length k _ Hm) Hf1) as (Hl & Hpd & Hpv). cbn [fixed_text]. rewrite Number_point; [|done|done|by intros E; rewrite E in Hl].
  rewrite Hl, Hpv, Hw2, Hf2. f_equal. f_equal. lia.
Qed.

Lemma toFixed_text x k :
  (0 <= x)%Q -> (x < inject_Z (10 ^ 21))%Q -> toFixed k (Fin x) = fixed_text (Qfloor (x * inject_Z (10 ^ Z.of_nat k) + (1 # 2))) k.
Proof.
  intros H0 H1. unfold toFixed. destruct (Q_neg x) eqn:E; [apply Q_neg_iff in E; exfalso; by apply (Qlt_not_le _ _ E)|].
  destruct (Qle_bool _ x) eqn:E'; [apply Qle_bool_iff in E'; exfalso; by apply (Qlt_not_le _ _ H1)|]. done.
Qed.

(** Rounding half up moves a value by at most a half. *)
Lemma floor_half y : (- (1 # 2) <= inject_Z (Qfloor (y + (1 # 2))) - y <= 1 # 2)%Q.
Proof.
  pose proof (Qfloor_le (y + (1 # 2))) as Ha. pose proof (Qlt_floor (y + (1 # 2))) as Hb. rewrite inject_Z_plus in Hb. change (inject_Z 1) with 1%Q in Hb. split; lra.
Qed.

(** [floor] of a value within a half of an integer, rounded half up. *)
Lemma nearest_integer y z : (Qabs (y - inject_Z z) < 1 # 2)%Q -> Qfloor (y + (1 # 2)) = z.
Proof.
  intros [H1 H2]%Qabs_Qlt_condition. pose proof (Qfloor_le (y + (1 # 2))) as Ha. pose proof (Qlt_floor (y + (1 # 2))) as Hb.
  assert (inject_Z (Qfloor (y + (1 # 2))) < inject_Z (z + 1))%Q as Hu by (rewrite inject_Z_plus; change (inject_Z 1) with 1%Q; lra).
  assert (inject_Z z < inject_Z (Qfloor (y + (1 # 2)) + 1))%Q as Hl by lra.
  rewrite <- Zlt_Qlt in Hu, Hl. lia.
Qed.

(** Two roundings in a row. *)
Lemma near_trans_bound r s x y : near r x -> near s (r * y) -> (Qabs (s - x * y) <= Qabs (x * y) * ((1 # 2 ^ 52) + (1 # 2 ^ 106)))%Q.
Proof.
  intros Hr Hs. unfold near in *. assert (s - x * y == (s - r * y) + (r - x) * y)%Q as -> by ring.
  eapply Qle_trans; [apply Qabs_triangle|]. rewrite Qabs_Qmult in Hs |- *. rewrite (Qabs_Qmult x y). pose proof (near_bound r x Hr) as Hb.
  pose proof (Qabs_nonneg y) as Hy. generalize dependent (Qabs y). intros ay Hs Hy. generalize dependent (Qabs (s - r * y)). intros d Hd.
  revert Hr Hb Hd. generalize (Qabs (r - x)), (Qabs r), (Qabs x). intros e ar ax He Har Hd.
  assert (ar * ay <= ax * (1 + (1 # 2 ^ 53)) * ay)%Q by (by apply Qmult_le_compat_r). assert (e * ay <= ax * (1 # 2 ^ 53) * ay)%Q by (by apply Qmult_le_compat_r).
  assert (ar * ay * (1 # 2 ^ 53) <= ax * (1 + (1 # 2 ^ 53)) * ay * (1 # 2 ^ 53))%Q by (apply Qmult_le_compat_r; [done|by vm_compute]).
  assert ((1 # 2 ^ 106) == (1 # 2 ^ 53) * (1 # 2 ^ 53))%Q as -> by (by vm_compute). assert ((1 # 2 ^ 52) == (1 # 2 ^ 53) + (1 # 2 ^ 53))%Q as -> by (by vm_compute).
  generalize dependent (1 # 2 ^ 53)%Q. intros u. intros. lra.
Qed.

(** The distance of a rounding, for a bound of the value. *)
Lemma near_within r x b : near r x -> (Qabs x <= b)%Q -> (x - b * (1 # 2 ^ 53) <= r <= x + b * (1 # 2 ^ 53))%Q.
Proof.
  unfold near. intros H Hb. assert (Qabs x * (1 # 2 ^ 53) <= b * (1 # 2 ^ 53))%Q as Hc by (apply Qmult_le_compat_r; [done|by vm_compute]).
  apply Qabs_Qle_condition in H. split; lra.
Qed.

(** ** Several roundings *)

(** [r] is within [j] parts in 2^53 of [x]. *)
Definition rel (j r x : Q) : Prop := (Qabs (r - x) <= Qabs x * (j * (1 # 2 ^ 53)))%Q.

#[export] Instance rel_proper : Proper (Qeq ==> Qeq ==> Qeq ==> iff) rel.
Proof. intros j j' Hj r r' Hr x x' Hx. unfold rel. by rewrite Hj, Hr, Hx. Qed.

Lemma near_rel r x : near r x -> rel 1 r x.
Proof. unfold near, rel. intros H. by rewrite Qmult_1_l. Qed.

(** One more multiplication costs at most two more parts. *)
Lemma rel_step j r s x y : (0 <= j <= 1000)%Q -> rel j r x -> near s (r * y) -> rel (j + 2) s (x * y).
Proof.
  intros [Hj0 Hj1] Hr Hs. unfold near, rel in *. assert (s - x * y == (s - r * y) + (r - x) * y)%Q as -> by ring.
  eapply Qle_trans; [apply Qabs_triangle|]. rewrite Qabs_Qmult in Hs |- *. rewrite (Qabs_Qmult x y).
  pose proof (Qabs_triangle (r - x) x) as Hb. assert (r - x + x == r)%Q as E by ring. rewrite E in Hb. clear E.
  pose proof (Qabs_nonneg y) as Hy. pose proof (Qabs_nonneg x) as Hx. revert Hr Hs Hb Hy Hx.
  generalize (Qabs (s - r * y)), (Qabs (r - x)), (Qabs r), (Qabs x), (Qabs y). intros d e ar ax ay He Hd Har Hay Hax.
  assert (0 < (1 # 2 ^ 53) <= 1 # 1000000)%Q as [Hu0 Hu1] by (split; by vm_compute). generalize dependent (1 # 2 ^ 53)%Q. intros u He Hd Hu0 Hu1.
  assert (0 <= ax * ay)%Q as Hz by (by apply Qmult_le_0_compat). assert (0 <= ax * ay * u)%Q as Hzu by (apply Qmult_le_0_compat; lra).
  assert (e * ay <= ax * (j * u) * ay)%Q as H1 by (by apply Qmult_le_compat_r).
  assert (ar * ay * u <= (e + ax) * ay * u)%Q as H2 by (do 2 (apply Qmult_le_compat_r; [|lra]); done).
  assert (e * ay * u <= ax * (j * u) * ay * u)%Q as H3 by (apply Qmult_le_compat_r; [done|lra]).
  assert (ax * ay * u * (j * u) <= ax * ay * u * 1)%Q as H4.
  { rewrite !(Qmult_comm (ax * ay * u)). apply Qmult_le_compat_r; [|done].
    assert (j * u <= 1000 * u)%Q by (apply Qmult_le_compat_r; lra). lra. }
  lra.
Qed.

Lemma rel_bounds j r x : (0 < x)%Q -> rel j r x -> (x * (1 - j * (1 # 2 ^ 53)) <= r <= x * (1 + j * (1 # 2 ^ 53)))%Q.
Proof. unfold rel. intros Hx H. rewrite (Qabs_pos x) in H by lra. apply Qabs_Qle_condition in H. split; lra. Qed.

(** The range of the prices, amounts and factors of the code. *)
Definition practical (x : Q) : Prop := ((1 # 2 ^ 100) <= x <= inject_Z (2 ^ 100))%Q.
