(* ===== verification/Bytes.v ===== *)
(** * Byte arrays and little-endian integers

    [Uint8Array] values are lists of integers in [0, 256).  The file models the
    readers of the account decoders ([DataView] getters and the hand-written
    shift loops), the [DataWriter] class of workers/src/transactions.ts and the
    offset writers of clients/equinox/src/abi/encoding.ts, and proves that the
    readers invert the writers. *)

From S2P Require Import Prelude.

Definition bytes := list Z.

Definition is_byte (b : Z) : Prop := 0 <= b < 256.

(** Every element of a [Uint8Array] is a byte. *)
Definition uint8array (bs : list Z) : Prop := Forall is_byte bs.

Definition blen (bs : list Z) : Z := Z.of_nat (length bs).

(** [bytes[i]]: [undefined] outside the array. *)
Definition byte_at (bs : list Z) (i : Z) : option Z :=
  if 0 <=? i then bs !! Z.to_nat i else None.

(** [bytes[i]] as an operand of a bitwise operator: [undefined] counts as 0. *)
Definition byte_or_0 (bs : list Z) (i : Z) : Z := default 0 (byte_at bs i).

(** [bytes[i] === b] *)
Definition byte_is (bs : list Z) (i b : Z) : bool := bool_decide (byte_at bs i = Some b).

(** [bytes.slice(from, to)] for [0 <= from]. *)
Definition slice (bs : list Z) (from to : Z) : list Z :=
  take (Z.to_nat (to - from)) (drop (Z.to_nat from) bs).

(** Little-endian value of a byte list, and the [n] low bytes of an integer. *)
Fixpoint le_combine (bs : list Z) : Z :=
  match bs with
  | [] => 0
  | b :: bs => b + 256 * le_combine bs
  end.

Fixpoint le_split (n : nat) (z : Z) : list Z :=
  match n with
  | O => []
  | S n => z mod 256 :: le_split n (z / 256)
  end.

(** Two's complement reading of a [w]-bit pattern. *)
Definition to_signed (w z : Z) : Z := if 2 ^ (w - 1) <=? z then z - 2 ^ w else z.

(** [DataView] getters with [littleEndian = true]; a read past the end throws a
    [RangeError]. *)
Definition view_unsigned (bs : list Z) (off : Z) (n : nat) : result Z :=
  if ((off <? 0) || (blen bs <? off + Z.of_nat n))%bool
  then Throw "Offset is outside the bounds of the DataView"
  else Ok (le_combine (slice bs off (off + Z.of_nat n))).

Definition getUint16 bs off := view_unsigned bs off 2.
Definition getUint32 bs off := view_unsigned bs off 4.
Definition getBigUint64 bs off := view_unsigned bs off 8.
Definition getInt32 bs off := to_signed 32 <$> view_unsigned bs off 4.
Definition getBigInt64 bs off := to_signed 64 <$> view_unsigned bs off 8.

(** The loop [for (i = n-1; i >= 0; i -= 1) value = (value << 8n) |
    BigInt(bytes[offset + i])]; [BigInt(undefined)] throws a [TypeError]. *)
Fixpoint read_loop (bs : list Z) (off : Z) (n : nat) (value : Z) : result Z :=
  match n with
  | O => Ok value
  | S i =>
      match byte_at bs (off + Z.of_nat i) with
      | Some b => read_loop bs off i (Z.lor (Z.shiftl value 8) b)
      | None => Throw "Cannot convert undefined to a BigInt"
      end
  end.

(** [readI128] of market-state.ts, private-sessions.ts, positions.ts and
    accounts.ts. *)
Definition readI128 (bs : list Z) (off : Z) : result Z :=
  value ← read_loop bs off 16 0;
  let signBit := Z.shiftl 1 127 in
  Ok (if signBit <=? value then value - Z.shiftl signBit 1 else value).

(** [signed128] of v3-market-state.ts: two 64-bit halves. *)
Definition signed128 (bs : list Z) (off : Z) : result Z :=
  lo ← getBigUint64 bs off;
  hi ← getBigUint64 bs (off + 8);
  let value := Z.lor lo (Z.shiftl hi 64) in
  Ok (if Z.shiftl 1 127 <=? value then value - Z.shiftl 1 128 else value).

(** ** Writers *)

(** The shift loop shared by [DataWriter.unsigned]/[signed] and
    [writeUnsigned]: pushes [remaining & 0xff] and shifts, [n] times. *)
Fixpoint push_loop (n : nat) (remaining : Z) : list Z :=
  match n with
  | O => []
  | S n => Z.land remaining 255 :: push_loop n (Z.shiftr remaining 8)
  end.

(** [DataWriter]: the byte buffer under construction; a method throws when its
    argument is out of range. *)
Module DataWriter.
Definition t := list Z.

Definition empty : t := [].

Definition u8 (value : Z) (w : t) : result t :=
if ((value <? 0) || (255 <? value))%bool then Throw ("u8 out of range: " +:+ pretty value)
else Ok (w ++ [value]).

Definition u16 (value : Z) (w : t) : result t :=
if ((value <? 0) || (65535 <? value))%bool then Throw ("u16 out of range: " +:+ pretty value)
else Ok (w ++ [Z.land value 255; Z.land (Z.shiftr value 8) 255]).

Definition u32 (value : Z) (w : t) : result t :=
if ((value <? 0) || (4294967295 <? value))%bool then Throw ("u32 out of range: " +:+ pretty value)
else Ok (w ++ [Z.land value 255; Z.land (Z.shiftr value 8) 255;
               Z.land (Z.shiftr value 16) 255; Z.land (Z.shiftr value 24) 255]).

Definition unsigned (value : Z) (n : nat) (w : t) : result t :=
let mask := Z.shiftl 1 (Z.of_nat n * 8) - 1 in
if ((value <? 0) || (mask <? value))%bool then Throw ("unsigned " +:+ pretty (Z.of_nat n * 8) +:+ "-bit out of range: " +:+ pretty value)
else Ok (w ++ push_loop n value).

Definition signed (value : Z) (n : nat) (w : t) : result t :=
let min := - Z.shiftl 1 (Z.of_nat n * 8 - 1) in
let max := Z.shiftl 1 (Z.of_nat n * 8 - 1) - 1 in
if ((value <? min) || (max <? value))%bool then Throw ("signed " +:+ pretty (Z.of_nat n * 8) +:+ "-bit out of range: " +:+ pretty value)
else
  let remaining := if value <? 0 then Z.shiftl 1 (Z.of_nat n * 8) + value else value in
  Ok (w ++ push_loop n remaining).

Definition u64 (value : Z) (w : t) := unsigned value 8 w.
Definition i64 (value : Z) (w : t) := signed value 8 w.
Definition i128 (value : Z) (w : t) := signed value 16 w.
Definition u128 (value : Z) (w : t) := unsigned value 16 w.

Definition raw (value : list Z) (w : t) : result t := Ok (w ++ value).

Definition pubkey (value : list Z) (w : t) : result t :=
if negb (blen value =? 32) then Throw ("pubkey must be 32 bytes, got " +:+ pretty (blen value)) else raw value w.
End DataWriter.

(** clients/equinox/src/abi/encoding.ts: range checks and in-place writers on a
    preallocated array (a store past the end of a [Uint8Array] is ignored).  An
    argument is a bigint, an integral number, or any other number ([NonInteger]:
    a fraction, an infinity or NaN). *)
Inductive numeric := BigInt (z : Z) | Num (z : Z) | NonInteger.

Definition checkedUnsigned (value : numeric) (bits : Z) (name : string) : result Z :=
  let result := match value with BigInt z => z | Num z => if isSafeInteger z then z else -1 | NonInteger => -1 end in
  if ((result <? 0) || (Z.shiftl 1 bits <=? result))%bool
  then Throw (name +:+ " is outside u" +:+ pretty bits) else Ok result.

Definition checkedSigned (value : numeric) (bits : Z) (name : string) : result Z :=
  let result := match value with BigInt z => z | Num z => if isSafeInteger z then z else 0 | NonInteger => 0 end in
  let min := - Z.shiftl 1 (bits - 1) in
  let max := Z.shiftl 1 (bits - 1) - 1 in
  if ((result <? min) || (max <? result))%bool
  then Throw (name +:+ " is outside i" +:+ pretty bits) else Ok result.

Definition store_byte (data : list Z) (i b : Z) : list Z :=
  if 0 <=? i then <[Z.to_nat i := b]> data else data.

Fixpoint writeUnsigned_loop (data : list Z) (off : Z) (current : Z) (i n : nat) : list Z :=
  match n with
  | O => data
  | S n =>
      writeUnsigned_loop (store_byte data (off + Z.of_nat i) (Z.land current 255))
        off (Z.shiftr current 8) (S i) n
  end.

Definition writeUnsigned (data : list Z) (off value : Z) (n : nat) : list Z :=
  writeUnsigned_loop data off value 0 n.

Definition writeSigned (data : list Z) (off value : Z) (n : nat) : list Z :=
  writeUnsigned data off
    (if value <? 0 then Z.shiftl 1 (Z.of_nat n * 8) + value else value) n.

(** ** Lemmas: little-endian lists *)

Lemma uint8array_check bs : forallb (fun b => (0 <=? b) && (b <? 256))%bool bs = true -> uint8array bs.
Proof.
  intros Hb. apply List.Forall_forall. intros b Hin. rewrite forallb_forall in Hb.
  specialize (Hb b Hin). unfold is_byte. zbool. lia.
Qed.

Lemma length_le_split n z : length (le_split n z) = n.
Proof. revert z. induction n as [|n IH]; intros z; cbn; [done|by rewrite IH]. Qed.

Lemma le_split_bytes n z : uint8array (le_split n z).
Proof.
  revert z. induction n as [|n IH]; intros z; cbn; constructor; [|apply IH].
  unfold is_byte. by pose proof (Z.mod_pos_bound z 256 ltac:(lia)).
Qed.

Lemma pow256_succ (n : nat) : 256 ^ Z.of_nat (S n) = 256 * 256 ^ Z.of_nat n.
Proof. rewrite Nat2Z.inj_succ, Z.pow_succ_r by lia. done. Qed.

Lemma pow256_pow2 (n : nat) : 256 ^ Z.of_nat n = 2 ^ (Z.of_nat n * 8).
Proof. change 256 with (2 ^ 8). rewrite <- Z.pow_mul_r by lia. f_equal. lia. Qed.

Lemma le_combine_split n z : 0 <= z < 256 ^ Z.of_nat n -> le_combine (le_split n z) = z.
Proof.
  revert z. induction n as [|n IH]; intros z Hz; [cbn in *; lia|].
  cbn [le_split le_combine]. rewrite pow256_succ in Hz.
  rewrite IH; [pose proof (Z.div_mod z 256); lia|].
  split; [apply Z.div_pos; lia|apply Z.div_lt_upper_bound; lia].
Qed.

Lemma le_combine_bound bs : uint8array bs -> 0 <= le_combine bs < 256 ^ Z.of_nat (length bs).
Proof.
  induction 1 as [|b bs Hb _ IH]; [cbn; lia|].
  cbn [le_combine length]. rewrite pow256_succ. unfold is_byte in Hb. lia.
Qed.

Lemma le_split_combine bs : uint8array bs -> le_split (length bs) (le_combine bs) = bs.
Proof.
  induction 1 as [|b bs Hb _ IH]; [done|]. unfold is_byte in Hb.
  cbn [le_combine length le_split]. f_equal.
  - symmetry. apply Z.mod_unique_pos with (q := le_combine bs); lia.
  - replace ((b + 256 * le_combine bs) / 256) with (le_combine bs); [done|].
    apply Z.div_unique_pos with (r := b); lia.
Qed.

Lemma push_loop_split n z : push_loop n z = le_split n z.
Proof.
  revert z. induction n as [|n IH]; intros z; cbn; [done|].
  rewrite IH. f_equal; [apply (Z.land_ones z 8); lia|].
  by rewrite Z.shiftr_div_pow2 by lia.
Qed.

Lemma shiftl_lor_byte v b : is_byte b -> 0 <= v -> Z.lor (Z.shiftl v 8) b = 256 * v + b.
Proof.
  intros Hb Hv. unfold is_byte in Hb. rewrite Z.lor_comm. apply Z.bits_inj'. intros i Hi.
  rewrite Z.lor_spec, Z.shiftl_spec by done.
  replace (256 * v + b) with (b + v * 2 ^ 8) by lia.
  destruct (Z.ltb_spec i 8).
  - rewrite (Z.testbit_neg_r v) by lia. rewrite orb_false_r.
    rewrite <- (Z.mod_pow2_bits_low (b + v * 2 ^ 8) 8) by lia.
    rewrite Z.mod_add, Z.mod_small by lia. done.
  - replace (Z.testbit b i) with false.
    + cbn. replace i with (i - 8 + 8) at 2 by lia.
      rewrite <- Z.div_pow2_bits by lia. rewrite Z.div_add, Z.div_small by lia. done.
    + symmetry. destruct (decide (b = 0)) as [->|]; [by rewrite Z.bits_0|].
      apply Z.bits_above_log2; [lia|]. assert (Z.log2 b < 8) by (apply Z.log2_lt_pow2; lia). lia.
Qed.

(** ** Lemmas: array access *)

Lemma byte_at_lookup bs i : 0 <= i -> byte_at bs i = bs !! Z.to_nat i.
Proof. intros. unfold byte_at. case_match; zbool; [done|lia]. Qed.

Lemma byte_at_is_byte bs i b : uint8array bs -> byte_at bs i = Some b -> is_byte b.
Proof. unfold byte_at. case_match; [|done]. intros Hu Hb. by eapply Forall_lookup_1. Qed.

Lemma byte_at_Some bs i : 0 <= i < blen bs -> is_Some (byte_at bs i).
Proof. intros Hi. rewrite byte_at_lookup by lia. apply lookup_lt_is_Some. unfold blen in Hi. lia. Qed.

Lemma byte_at_app_l bs cs i : i < blen bs -> byte_at (bs ++ cs) i = byte_at bs i.
Proof.
  unfold byte_at, blen. intros Hi. case_match; [|done]. zbool.
  apply lookup_app_l. lia.
Qed.

Lemma byte_at_app_r bs cs i : blen bs <= i -> byte_at (bs ++ cs) i = byte_at cs (i - blen bs).
Proof.
  unfold byte_at, blen. intros Hi. case_match; zbool; [|lia]. case_match; zbool; [|lia].
  rewrite lookup_app_r by lia. f_equal. lia.
Qed.

Lemma blen_app bs cs : blen (bs ++ cs) = blen bs + blen cs.
Proof. unfold blen. rewrite length_app. lia. Qed.

Lemma slice_app_mid a b c :
  slice (a ++ b ++ c) (blen a) (blen a + blen b) = b.
Proof.
  unfold slice, blen. rewrite Z.add_simpl_l, !Nat2Z.id.
  by rewrite drop_app_length, take_app_length.
Qed.

Lemma slice_length bs from to :
  0 <= from <= to -> to <= blen bs -> length (slice bs from to) = Z.to_nat (to - from).
Proof. unfold slice, blen. intros. rewrite length_take, length_drop. lia. Qed.

Lemma slice_uint8array bs from to : uint8array bs -> uint8array (slice bs from to).
Proof. intros. by apply Forall_take, Forall_drop. Qed.

Lemma view_unsigned_mid a b c n :
  length b = n -> view_unsigned (a ++ b ++ c) (blen a) n = Ok (le_combine b).
Proof.
  intros <-. unfold view_unsigned. rewrite !blen_app.
  destruct (_ || _)%bool eqn:E.
  - exfalso. apply orb_true_iff in E. unfold blen in E. rewrite !Z.ltb_lt in E. lia.
  - f_equal. f_equal. apply slice_app_mid.
Qed.

Lemma view_unsigned_bound bs off n v :
  uint8array bs -> view_unsigned bs off n = Ok v -> 0 <= v < 2 ^ (Z.of_nat n * 8).
Proof.
  unfold view_unsigned. intros Hu. case_match; [done|]. intros [= <-]. zbool.
  rewrite <- pow256_pow2.
  pose proof (le_combine_bound _ (slice_uint8array bs off (off + Z.of_nat n) Hu)) as Hb.
  rewrite slice_length in Hb by lia. by rewrite Z.add_simpl_l, Nat2Z.id in Hb.
Qed.

Lemma view_unsigned_in_range bs off n :
  0 <= off -> off + Z.of_nat n <= blen bs -> exists v, view_unsigned bs off n = Ok v.
Proof.
  intros. unfold view_unsigned. destruct (_ || _)%bool eqn:E; [|eauto].
  apply orb_true_iff in E. rewrite !Z.ltb_lt in E. lia.
Qed.

(** The shift loop and the [DataView] getter read the same value. *)
Lemma read_loop_acc bs off n value :
  uint8array bs -> 0 <= off -> 0 <= value -> off + Z.of_nat n <= blen bs ->
  read_loop bs off n value =
  Ok (value * 256 ^ Z.of_nat n + le_combine (slice bs off (off + Z.of_nat n))).
Proof.
  intros Hu Hoff. revert value. induction n as [|n IH]; intros value Hv Hlen.
  - cbn [read_loop]. unfold slice. rewrite Z.add_simpl_l.
    change (Z.to_nat (Z.of_nat 0)) with 0%nat. rewrite take_0, Z.pow_0_r. cbn. f_equal. lia.
  - cbn [read_loop].
    destruct (byte_at_Some bs (off + Z.of_nat n)) as [b Hb]; [lia|].
    rewrite Hb. pose proof (byte_at_is_byte _ _ _ Hu Hb) as Hbb.
    rewrite shiftl_lor_byte by done. unfold is_byte in Hbb. rewrite IH by lia. f_equal.
    rewrite pow256_succ.
    replace (slice bs off (off + Z.of_nat (S n)))
      with (slice bs off (off + Z.of_nat n) ++ [b]).
    + assert (forall l, le_combine (l ++ [b]) = le_combine l + 256 ^ Z.of_nat (length l) * b) as Happ.
      { induction l as [|x l IHl]; [cbn; lia|]. cbn [app le_combine length].
        rewrite IHl, pow256_succ. lia. }
      rewrite Happ, slice_length by lia. rewrite Z.add_simpl_l, Nat2Z.id. lia.
    + unfold slice. rewrite !Z.add_simpl_l, !Nat2Z.id. symmetry. apply take_S_r.
      rewrite lookup_drop. rewrite byte_at_lookup in Hb by lia. rewrite <- Hb. f_equal. lia.
Qed.

Lemma read_loop_view bs off n :
  uint8array bs -> 0 <= off -> off + Z.of_nat n <= blen bs ->
  read_loop bs off n 0 = view_unsigned bs off n.
Proof.
  intros. rewrite read_loop_acc by (done || lia). unfold view_unsigned.
  destruct (_ || _)%bool eqn:E; [|done].
  apply orb_true_iff in E. rewrite !Z.ltb_lt in E. lia.
Qed.

Lemma to_signed_range w z : 0 < w -> 0 <= z < 2 ^ w -> - 2 ^ (w - 1) <= to_signed w z < 2 ^ (w - 1).
Proof.
  intros Hw Hz. assert (2 ^ w = 2 * 2 ^ (w - 1)) as E
    by (rewrite <- Z.pow_succ_r by lia; f_equal; lia).
  unfold to_signed. case_match; zbool; lia.
Qed.

(** Two's complement: encoding then reading a signed value is the identity. *)
Lemma to_signed_wrap w v :
  0 < w -> - 2 ^ (w - 1) <= v < 2 ^ (w - 1) ->
  to_signed w (if v <? 0 then 2 ^ w + v else v) = v.
Proof.
  intros Hw Hv. assert (2 ^ w = 2 * 2 ^ (w - 1)) as E
    by (rewrite <- Z.pow_succ_r by lia; f_equal; lia).
  unfold to_signed. repeat case_match; zbool; lia.
Qed.

Lemma readI128_view bs off :
  uint8array bs -> 0 <= off -> off + 16 <= blen bs ->
  readI128 bs off = to_signed 128 <$> view_unsigned bs off 16.
Proof.
  intros. unfold readI128. rewrite (read_loop_view bs off 16) by (lia || done).
  by destruct (view_unsigned bs off 16).
Qed.

(** ** Writers *)

Lemma length_push_loop n z : length (push_loop n z) = n.
Proof. by rewrite push_loop_split, length_le_split. Qed.

Lemma push_loop_bytes n z : uint8array (push_loop n z).
Proof. rewrite push_loop_split. apply le_split_bytes. Qed.

Lemma shiftl_1_pow n : 0 <= n -> Z.shiftl 1 n = 2 ^ n.
Proof. intros. rewrite Z.shiftl_mul_pow2 by lia. lia. Qed.

Lemma unsigned_Ok v n w w' :
  DataWriter.unsigned v n w = Ok w' <-> 0 <= v < 2 ^ (Z.of_nat n * 8) /\ w' = w ++ le_split n v.
Proof.
  unfold DataWriter.unsigned. rewrite shiftl_1_pow, push_loop_split by lia. case_match eqn:E.
  - apply orb_true_iff in E. rewrite !Z.ltb_lt in E. split; [done|lia].
  - zbool. split; [intros [= <-]; split; [lia|done]|intros [_ ->]; done].
Qed.

(** The two's complement image of a signed value. *)
Definition wrap_signed (n : nat) (v : Z) : Z := if v <? 0 then 2 ^ (Z.of_nat n * 8) + v else v.

Lemma signed_Ok v n w w' : (0 < n)%nat ->
  DataWriter.signed v n w = Ok w' <->
  - 2 ^ (Z.of_nat n * 8 - 1) <= v < 2 ^ (Z.of_nat n * 8 - 1) /\ w' = w ++ le_split n (wrap_signed n v).
Proof.
  intros Hn. unfold DataWriter.signed, wrap_signed. rewrite !shiftl_1_pow, push_loop_split by lia. case_match eqn:E.
  - apply orb_true_iff in E. rewrite !Z.ltb_lt in E. split; [done|lia].
  - zbool. split; [intros [= <-]; split; [lia|done]|intros [_ ->]; done].
Qed.

Lemma wrap_signed_bound n v : (0 < n)%nat ->
  - 2 ^ (Z.of_nat n * 8 - 1) <= v < 2 ^ (Z.of_nat n * 8 - 1) -> 0 <= wrap_signed n v < 2 ^ (Z.of_nat n * 8).
Proof.
  intros Hn Hv. unfold wrap_signed. assert (2 ^ (Z.of_nat n * 8) = 2 * 2 ^ (Z.of_nat n * 8 - 1)) as E
    by (rewrite <- Z.pow_succ_r by lia; f_equal; lia).
  case_match; zbool; lia.
Qed.

(** Reading back a field a writer appended, whatever surrounds it. *)
Lemma view_split_mid a n v c :
  0 <= v < 2 ^ (Z.of_nat n * 8) -> view_unsigned (a ++ le_split n v ++ c) (blen a) n = Ok v.
Proof.
  intros Hv. rewrite view_unsigned_mid by apply length_le_split.
  by rewrite le_combine_split by by rewrite pow256_pow2.
Qed.

Lemma view_signed_mid a n v c : (0 < n)%nat ->
  - 2 ^ (Z.of_nat n * 8 - 1) <= v < 2 ^ (Z.of_nat n * 8 - 1) ->
  to_signed (Z.of_nat n * 8) <$> view_unsigned (a ++ le_split n (wrap_signed n v) ++ c) (blen a) n = Ok v.
Proof.
  intros Hn Hv. rewrite view_split_mid by by apply wrap_signed_bound.
  cbn. f_equal. apply to_signed_wrap; [lia|done].
Qed.

Lemma land_255 z : Z.land z 255 = z mod 256.
Proof. apply (Z.land_ones z 8). lia. Qed.

Lemma u16_Ok v w w' : DataWriter.u16 v w = Ok w' <-> 0 <= v < 2 ^ 16 /\ w' = w ++ le_split 2 v.
Proof.
  unfold DataWriter.u16. change ([Z.land v 255; Z.land (Z.shiftr v 8) 255]) with (push_loop 2 v).
  rewrite push_loop_split. case_match eqn:E.
  - apply orb_true_iff in E. rewrite !Z.ltb_lt in E. split; [done|lia].
  - zbool. split; [intros [= <-]; split; [lia|done]|intros [_ ->]; done].
Qed.

Lemma u32_Ok v w w' : DataWriter.u32 v w = Ok w' <-> 0 <= v < 2 ^ 32 /\ w' = w ++ le_split 4 v.
Proof.
  unfold DataWriter.u32.
  replace [Z.land v 255; Z.land (Z.shiftr v 8) 255; Z.land (Z.shiftr v 16) 255; Z.land (Z.shiftr v 24) 255]
    with (push_loop 4 v) by (cbn; by rewrite !Z.shiftr_shiftr by lia).
  rewrite push_loop_split. case_match eqn:E.
  - apply orb_true_iff in E. rewrite !Z.ltb_lt in E. split; [done|lia].
  - zbool. split; [intros [= <-]; split; [lia|done]|intros [_ ->]; done].
Qed.

(** Every integer the instruction writer accepts is read back unchanged by
    the account decoders, wherever it sits in the buffer: the fixed-width
    little-endian writers and the [DataView] getters (and the byte-wise i128
    reader) are inverse, and a writer that rejects its argument appends
    nothing. *)
Theorem datawriter_roundtrip w w' rest v :
  uint8array w -> uint8array rest ->
  (DataWriter.u16 v w = Ok w' -> getUint16 (w' ++ rest) (blen w) = Ok v)
  /\ (DataWriter.u32 v w = Ok w' -> getUint32 (w' ++ rest) (blen w) = Ok v)
  /\ (DataWriter.u64 v w = Ok w' -> getBigUint64 (w' ++ rest) (blen w) = Ok v)
  /\ (DataWriter.i64 v w = Ok w' -> getBigInt64 (w' ++ rest) (blen w) = Ok v)
  /\ (DataWriter.i128 v w = Ok w' -> readI128 (w' ++ rest) (blen w) = Ok v).
Proof.
  intros Hw Hrest. split_and!.
  - intros [Hv ->]%u16_Ok. rewrite <- app_assoc. by apply (view_split_mid w 2).
  - intros [Hv ->]%u32_Ok. rewrite <- app_assoc. by apply (view_split_mid w 4).
  - intros [Hv ->]%unsigned_Ok. rewrite <- app_assoc. by apply (view_split_mid w 8).
  - intros [Hv ->]%signed_Ok; [|lia]. rewrite <- app_assoc. by apply (view_signed_mid w 8 v rest); [lia|].
  - intros [Hv ->]%signed_Ok; [|lia]. rewrite <- app_assoc.
    rewrite readI128_view;
      [by apply (view_signed_mid w 16 v rest); [lia|]|
       by apply Forall_app_2, Forall_app_2; [|apply le_split_bytes|]|unfold blen; lia|].
    rewrite !blen_app. unfold blen. rewrite length_le_split. lia.
Qed.

Lemma datawriter_roundtrip_witness :
  readI128 (([7] ++ le_split 16 (2 ^ 128 - 12345)) ++ [1; 2]) 1 = Ok (-12345).
Proof.
  refine (proj2 (proj2 (proj2 (proj2 (datawriter_roundtrip [7] _ [1; 2] (-12345) _ _)))) _);
    [repeat constructor; cbn; lia|repeat constructor; cbn; lia|vm_compute; reflexivity].
Defined.
