(* ===== verification/ExecutionStatus.v ===== *)
(** * Execution-status reconciliation

    workers/src/execution-status.ts: the indexer's view of a market's
    delegation lifecycle between L1 and the ephemeral rollup (ER), driven by
    the fields read from the L1 account; and lib/execution-status.ts, the
    browser's display and order-routing view of it. *)

From S2P Require Import Prelude Bytes.

(** ** Data *)

Inductive MarketExecutionStatus :=
  | l1_only | delegating | er_active | er_accepted | commit_scheduled
  | commit_observed_on_l1 | commit_finalized | undelegating
  | restoration_pending | restored | reconciliation_error.

#[export] Instance status_eq_dec : EqDecision MarketExecutionStatus.
Proof. solve_decision. Defined.

Definition status_string (s : MarketExecutionStatus) : string :=
  match s with
  | l1_only => "l1_only" | delegating => "delegating" | er_active => "er_active"
  | er_accepted => "er_accepted" | commit_scheduled => "commit_scheduled"
  | commit_observed_on_l1 => "commit_observed_on_l1" | commit_finalized => "commit_finalized"
  | undelegating => "undelegating" | restoration_pending => "restoration_pending"
  | restored => "restored" | reconciliation_error => "reconciliation_error"
  end.

Record ExecutionSequences := mkSequences {
  erEventSequence : Z;
  erMarketStateSequence : Z;
  requestedCommitSequence : Z;
  l1ObservedCommitSequence : Z;
  l1FinalizedCommitSequence : Z;
  undelegationSequence : Z;
  restorationSequence : Z;
}.

#[export] Instance sequences_eq_dec : EqDecision ExecutionSequences.
Proof. solve_decision. Defined.

Record ExecutionState := mkState {
  status : MarketExecutionStatus;
  sequences : ExecutionSequences;
  error : option string;
}.

#[export] Instance state_eq_dec : EqDecision ExecutionState.
Proof. solve_decision. Defined.

Definition INITIAL_EXECUTION_STATE : ExecutionState :=
  mkState l1_only (mkSequences 0 0 0 0 0 0 0) None.

Definition errorState (s : ExecutionState) (message : string) : ExecutionState :=
  mkState reconciliation_error (sequences s) (Some message).

(** Field updates of the sequence record ([{ ...state.sequences, f: v }]). *)
Definition set_er (q : ExecutionSequences) (v : Z) : ExecutionSequences :=
  mkSequences v v (requestedCommitSequence q) (l1ObservedCommitSequence q)
    (l1FinalizedCommitSequence q) (undelegationSequence q) (restorationSequence q).
Definition set_requested (q : ExecutionSequences) (v : Z) : ExecutionSequences :=
  mkSequences (erEventSequence q) (erMarketStateSequence q) v (l1ObservedCommitSequence q)
    (l1FinalizedCommitSequence q) (undelegationSequence q) (restorationSequence q).
Definition set_observed (q : ExecutionSequences) (v : Z) : ExecutionSequences :=
  mkSequences (erEventSequence q) (erMarketStateSequence q) (requestedCommitSequence q) v
    (l1FinalizedCommitSequence q) (undelegationSequence q) (restorationSequence q).
Definition set_finalized (q : ExecutionSequences) (v : Z) : ExecutionSequences :=
  mkSequences (erEventSequence q) (erMarketStateSequence q) (requestedCommitSequence q)
    (l1ObservedCommitSequence q) v (undelegationSequence q) (restorationSequence q).
Definition set_undelegation (q : ExecutionSequences) (v : Z) : ExecutionSequences :=
  mkSequences (erEventSequence q) (erMarketStateSequence q) (requestedCommitSequence q)
    (l1ObservedCommitSequence q) (l1FinalizedCommitSequence q) v (restorationSequence q).
Definition set_restoration (q : ExecutionSequences) (v : Z) : ExecutionSequences :=
  mkSequences (erEventSequence q) (erMarketStateSequence q) (requestedCommitSequence q)
    (l1ObservedCommitSequence q) (l1FinalizedCommitSequence q) (undelegationSequence q) v.

(** ** Transitions *)

Definition beginDelegation (s : ExecutionState) : ExecutionState :=
  if bool_decide (status s ≠ l1_only /\ status s ≠ restored)
  then errorState s ("cannot delegate from " +:+ status_string (status s))
  else mkState delegating (sequences s) None.

Definition observeErActive (s : ExecutionState) : ExecutionState :=
  if bool_decide (status s ≠ delegating /\ status s ≠ er_active)
  then errorState s ("cannot observe ER active from " +:+ status_string (status s))
  else mkState er_active (sequences s) None.

(** [["er_active", "er_accepted", "commit_finalized"].includes(status)] *)
Definition er_trading (st : MarketExecutionStatus) : bool :=
  bool_decide (st ∈ [er_active; er_accepted; commit_finalized]).

Definition acceptErTrade (s : ExecutionState) (erSequence : Z) : ExecutionState :=
  if negb (er_trading (status s))
  then errorState s ("cannot accept an ER trade from " +:+ status_string (status s))
  else if erSequence <=? erEventSequence (sequences s)
  then errorState s ("ER sequence " +:+ pretty erSequence +:+ " did not advance past "
                     +:+ pretty (erEventSequence (sequences s)))
  else mkState er_accepted (set_er (sequences s) erSequence) None.

Definition scheduleCommit (s : ExecutionState) (commitSequence : Z) : ExecutionState :=
  if negb (er_trading (status s))
  then errorState s ("cannot schedule a commit from " +:+ status_string (status s))
  else if commitSequence <=? requestedCommitSequence (sequences s)
  then errorState s ("commit sequence " +:+ pretty commitSequence +:+ " did not advance past "
                     +:+ pretty (requestedCommitSequence (sequences s)))
  else mkState commit_scheduled (set_requested (sequences s) commitSequence) None.

Definition observeCommitOnL1 (s : ExecutionState) (observedSequence : Z) : ExecutionState :=
  if bool_decide (status s ≠ commit_scheduled /\ status s ≠ commit_observed_on_l1)
  then errorState s ("cannot observe a commit from " +:+ status_string (status s))
  else if negb (observedSequence =? requestedCommitSequence (sequences s))
  then errorState s ("observed commit " +:+ pretty observedSequence +:+ " does not match requested "
                     +:+ pretty (requestedCommitSequence (sequences s)) +:+ " (stale L1 read?)")
  else if ((observedSequence <=? l1ObservedCommitSequence (sequences s))
           && bool_decide (status s = commit_observed_on_l1))%bool
  then s
  else mkState commit_observed_on_l1 (set_observed (sequences s) observedSequence) None.

Definition finalizeCommit (s : ExecutionState) (finalizedSequence : Z) : ExecutionState :=
  if bool_decide (status s ≠ commit_observed_on_l1 /\ status s ≠ commit_finalized)
  then errorState s ("cannot finalize a commit from " +:+ status_string (status s))
  else if negb (finalizedSequence =? l1ObservedCommitSequence (sequences s))
  then errorState s ("finalized commit " +:+ pretty finalizedSequence +:+ " does not match observed "
                     +:+ pretty (l1ObservedCommitSequence (sequences s)))
  else mkState commit_finalized (set_finalized (sequences s) finalizedSequence) None.

Definition beginUndelegation (s : ExecutionState) (undelegationSeq : Z) : ExecutionState :=
  if bool_decide (status s ≠ commit_finalized)
  then errorState s ("cannot undelegate from " +:+ status_string (status s)
                     +:+ " (commit must be finalized first)")
  else if undelegationSeq <=? undelegationSequence (sequences s)
  then errorState s ("undelegation sequence " +:+ pretty undelegationSeq +:+ " did not advance")
  else mkState undelegating (set_undelegation (sequences s) undelegationSeq) None.

Definition beginRestoration (s : ExecutionState) : ExecutionState :=
  if bool_decide (status s ≠ undelegating /\ status s ≠ restoration_pending)
  then errorState s ("cannot begin restoration from " +:+ status_string (status s))
  else mkState restoration_pending (sequences s) None.

Definition completeRestoration (s : ExecutionState) (restorationSeq : Z) : ExecutionState :=
  if bool_decide (status s ≠ restoration_pending)
  then errorState s ("cannot complete restoration from " +:+ status_string (status s))
  else if restorationSeq <=? restorationSequence (sequences s)
  then errorState s ("restoration sequence " +:+ pretty restorationSeq +:+ " did not advance")
  else mkState restored (set_restoration (sequences s) restorationSeq) None.

(** The [to] parameter of the recovery has type ["l1_only" | "restored"]. *)
Inductive RecoveryTarget := to_l1_only | to_restored.

Definition recoverFromReconciliationError (s : ExecutionState) (to : RecoveryTarget) : ExecutionState :=
  if bool_decide (status s ≠ reconciliation_error)
  then errorState s ("not in an error state (" +:+ status_string (status s) +:+ ")")
  else mkState (match to with to_l1_only => l1_only | to_restored => restored end) (sequences s) None.

Definition isWithdrawalDisplaySafe (s : ExecutionState) : bool :=
  bool_decide (status s ∈ [l1_only; commit_finalized; restored]).

Definition isL1Committed (s : ExecutionState) : bool :=
  bool_decide (status s = l1_only \/ status s = commit_finalized \/ status s = restored).

(** ** Account fields *)

Record DelegationFields := mkFields {
  delegationStatus : Z;
  delegationSequence : Z;
  expectedCommitSequence : Z;
  lastCommittedSequence : Z;
  pendingUndelegation : bool;
  globalEventSequence : Z;
}.

(** Byte values of the ASCII discriminator ["STKMK003"]. *)
Definition V3_CORE_DISCRIMINATOR : list Z := [83; 84; 75; 77; 75; 48; 48; 51].

(** [Number(view.getBigUint64(offset, true))] *)
Definition number_u64 (bs : list Z) (off : Z) : result Z := to_number <$> getBigUint64 bs off.

(** A byte read that is used as a number; out of range it is [undefined], which
    no status comparison matches (represented by -1). *)
Definition status_byte (bs : list Z) (off : Z) : Z := default (-1) (byte_at bs off).

Definition decodeDelegationFields (bs : list Z) : result DelegationFields :=
  if ((214 <=? blen bs) && bool_decide (slice bs 0 8 = V3_CORE_DISCRIMINATOR))%bool then
    let st := status_byte bs 197 in
    lastCommitted ← number_u64 bs 206;
    expected ← number_u64 bs 198;
    global ← number_u64 bs 148;
    Ok (mkFields st lastCommitted expected lastCommitted (st =? 2) global)
  else
    seq ← number_u64 bs 428;
    expected ← number_u64 bs 330;
    lastCommitted ← number_u64 bs 338;
    global ← number_u64 bs 262;
    Ok (mkFields (status_byte bs 329) seq expected lastCommitted
          (negb (bool_decide (byte_at bs 448 = Some 0))) global).

(** ** Reconciliation *)

Definition reconcileCommitProgress (s : ExecutionState) (l1 : DelegationFields) : ExecutionState :=
  if lastCommittedSequence l1 <=? l1FinalizedCommitSequence (sequences s) then s
  else
    let next :=
      if requestedCommitSequence (sequences s) <? lastCommittedSequence l1
      then scheduleCommit s (lastCommittedSequence l1) else s in
    if bool_decide (status next = reconciliation_error) then next
    else
      let next := observeCommitOnL1 next (lastCommittedSequence l1) in
      if bool_decide (status next = reconciliation_error) then next
      else finalizeCommit next (lastCommittedSequence l1).

Definition bootstrapFromL1 (l1 : DelegationFields) (erGlobal : option Z) : ExecutionState :=
  let erSequence := default 0 erGlobal in
  let seqs := mkSequences erSequence erSequence
    (if 0 <? expectedCommitSequence l1 then expectedCommitSequence l1 - 1 else 0)
    (lastCommittedSequence l1) (lastCommittedSequence l1)
    (if (pendingUndelegation l1 || (delegationStatus l1 =? 2))%bool then delegationSequence l1 else 0)
    (if delegationStatus l1 =? 3 then delegationSequence l1 else 0) in
  let st :=
    if delegationStatus l1 =? 1 then (if 0 <? erSequence then er_accepted else er_active)
    else if delegationStatus l1 =? 2 then undelegating else restored in
  mkState st seqs None.

(** [case 1] of the switch: the account is delegated. *)
Definition reconcileDelegated (s : ExecutionState) (l1 : DelegationFields) (erGlobal : option Z)
    : ExecutionState :=
  let next := if bool_decide (status s = l1_only \/ status s = restored) then beginDelegation s else s in
  let next := if bool_decide (status next = delegating) then observeErActive next else next in
  if bool_decide (status next = reconciliation_error) then next
  else
    match erGlobal with
    | Some g =>
        if erEventSequence (sequences next) <? g then
          let next := acceptErTrade next g in
          if bool_decide (status next = reconciliation_error) then next
          else reconcileCommitProgress next l1
        else reconcileCommitProgress next l1
    | None => reconcileCommitProgress next l1
    end.

Definition reconcileUndelegating (s : ExecutionState) (l1 : DelegationFields) : ExecutionState :=
  if bool_decide (status s = commit_finalized) then beginUndelegation s (delegationSequence l1)
  else if bool_decide (status s = undelegating \/ status s = restoration_pending) then s
  else errorState s ("observed Undelegating on-chain from unexpected indexer status "
                     +:+ status_string (status s)).

(** [l1.delegationSequence || next.sequences.restorationSequence + 1] *)
Definition reconcileRestored (s : ExecutionState) (l1 : DelegationFields) : ExecutionState :=
  let next := if bool_decide (status s = undelegating) then beginRestoration s else s in
  if bool_decide (status next = restoration_pending)
  then completeRestoration next
         (if delegationSequence l1 =? 0 then restorationSequence (sequences next) + 1
          else delegationSequence l1)
  else next.

Definition reconcileFromL1 (s : ExecutionState) (l1 : DelegationFields) (erGlobal : option Z)
    (isFirstObservation : bool) : ExecutionState :=
  if (isFirstObservation && negb (delegationStatus l1 =? 0))%bool then bootstrapFromL1 l1 erGlobal
  else if delegationStatus l1 =? 0 then
    (if bool_decide (status s = l1_only) then s else mkState l1_only (sequences s) None)
  else if delegationStatus l1 =? 1 then reconcileDelegated s l1 erGlobal
  else if delegationStatus l1 =? 2 then reconcileUndelegating s l1
  else if delegationStatus l1 =? 3 then reconcileRestored s l1
  else errorState s ("unrecognized on-chain delegation status " +:+ pretty (delegationStatus l1)).

(** ** Durable reconciliation

    [reconcileMarketExecutionStatus] is written against two account readers and
    a repository with [get] and [set]; the class states what the repository
    promises. *)

Class StatusStore (R : Type) := {
  store_get : R -> string -> option ExecutionState;
  store_set : R -> string -> ExecutionState -> R;
  store_get_set : forall r k s, store_get (store_set r k s) k = Some s;
  store_get_set_ne : forall r k k' s, k ≠ k' -> store_get (store_set r k s) k' = store_get r k';
}.

(** An account reader: the decoded bytes of the account, [None] when the
    account or its data is missing, or an RPC failure. *)
Definition AccountReader := string -> result (option (list Z)).

Section Reconcile.
Context `{StatusStore R}.

Definition reconcileMarketExecutionStatus (marketPda : string) (l1 er : AccountReader) (r : R)
  : R * result (ExecutionState * bool) :=
let persisted := store_get r marketPda in
let s := default INITIAL_EXECUTION_STATE persisted in
match l1 marketPda with
| Throw e => (r, Throw e)
| Ok None => (r, Ok (s, false))
| Ok (Some l1Bytes) =>
    match decodeDelegationFields l1Bytes with
    | Throw e => (r, Throw e)
    | Ok l1Fields =>
        let erGlobal :=
          if ((delegationStatus l1Fields =? 1) || (delegationStatus l1Fields =? 2))%bool then
            erAccount ← er marketPda;
            match erAccount with
            | None => Ok None
            | Some erBytes => f ← decodeDelegationFields erBytes; Ok (Some (globalEventSequence f))
            end
          else Ok None in
        match erGlobal with
        | Throw e => (r, Throw e)
        | Ok g =>
            let first := bool_decide (persisted = None) in
            let next := reconcileFromL1 s l1Fields g first in
            let changed := (first || bool_decide (status next ≠ status s)
                            || bool_decide (sequences next ≠ sequences s))%bool in
            ((if changed then store_set r marketPda next else r), Ok (next, changed))
        end
    end
end.
End Reconcile.

(** ** Browser view: lib/execution-status.ts *)

Inductive Domain := L1 | ER.

#[export] Instance domain_eq_dec : EqDecision Domain.
Proof. solve_decision. Defined.
#[export] Instance domain_countable : Countable Domain.
Proof.
  refine (inj_countable' (fun d => match d with L1 => true | ER => false end)
                         (fun b : bool => if b then L1 else ER) _).
  by intros [].
Defined.

Definition ER_LIFECYCLE_STATUSES : list MarketExecutionStatus :=
  [delegating; er_active; er_accepted; commit_scheduled; commit_observed_on_l1;
   commit_finalized; undelegating].
Definition ER_ORDER_ROUTABLE_STATUSES : list MarketExecutionStatus :=
  [er_active; er_accepted; commit_scheduled; commit_observed_on_l1; commit_finalized].
Definition L1_ORDER_ROUTABLE_STATUSES : list MarketExecutionStatus := [l1_only; restored].

Definition orderRoutingDomain (st : MarketExecutionStatus) : option Domain :=
  if bool_decide (st ∈ L1_ORDER_ROUTABLE_STATUSES) then Some L1
  else if bool_decide (st ∈ ER_ORDER_ROUTABLE_STATUSES) then Some ER
  else None.

Record ExecutionDisplayState := mkDisplay {
  l1Connected : bool;
  erConnected : bool;
  marketDelegated : bool;
  commitPending : bool;
  display_restorationPending : bool;
  display_restored : bool;
  degraded : bool;
  lastErSequence : Z;
  lastCommittedL1Sequence : Z;
  withdrawalSafe : bool;
  display_orderRoutingDomain : option Domain;
}.

(** The response of GET /v1/markets/{symbol}/execution-status. *)
Record ExecutionStatusResponse := mkResponse {
  response_state : ExecutionState;
  withdrawalDisplaySafe : bool;
}.

Definition deriveExecutionDisplay (r : ExecutionStatusResponse) : ExecutionDisplayState :=
  let st := status (response_state r) in
  {| l1Connected := bool_decide (st ≠ reconciliation_error);
     erConnected := bool_decide (st ∈ ER_LIFECYCLE_STATUSES);
     marketDelegated := bool_decide (st ∈ ER_LIFECYCLE_STATUSES);
     commitPending := bool_decide (st = commit_scheduled \/ st = commit_observed_on_l1);
     display_restorationPending := bool_decide (st = restoration_pending);
     display_restored := bool_decide (st = restored);
     degraded := bool_decide (st = reconciliation_error);
     lastErSequence := erEventSequence (sequences (response_state r));
     lastCommittedL1Sequence := l1FinalizedCommitSequence (sequences (response_state r));
     withdrawalSafe := withdrawalDisplaySafe r;
     display_orderRoutingDomain := orderRoutingDomain st |}.

Definition describeExecutionStatus (display : option ExecutionDisplayState) : string :=
  match display with
  | None => "unavailable"
  | Some d =>
      if degraded d then "reconciliation error"
      else if display_restorationPending d then "restoring"
      else if commitPending d then "commit pending"
      else if marketDelegated d then "ER active (seq " +:+ pretty (lastErSequence d) +:+ ")"
      else "not delegated"
  end.

(** [fetchExecutionStatus]: [None] on any non-2xx answer or network failure;
    the HTTP exchange is a parameter. *)
Definition fetchExecutionStatus (answer : result (bool * ExecutionStatusResponse))
    : option ExecutionStatusResponse :=
  match answer with
  | Ok (true, body) => Some body
  | Ok (false, _) => None
  | Throw _ => None
  end.

(** ** Runs of the machine *)

(** One call of a transition function, or one reconciliation tick of a market
    that is already tracked. *)
Inductive exec_step : ExecutionState -> ExecutionState -> Prop :=
  | step_beginDelegation s : exec_step s (beginDelegation s)
  | step_observeErActive s : exec_step s (observeErActive s)
  | step_acceptErTrade s n : exec_step s (acceptErTrade s n)
  | step_scheduleCommit s n : exec_step s (scheduleCommit s n)
  | step_observeCommitOnL1 s n : exec_step s (observeCommitOnL1 s n)
  | step_finalizeCommit s n : exec_step s (finalizeCommit s n)
  | step_beginUndelegation s n : exec_step s (beginUndelegation s n)
  | step_beginRestoration s : exec_step s (beginRestoration s)
  | step_completeRestoration s n : exec_step s (completeRestoration s n)
  | step_recover s to : exec_step s (recoverFromReconciliationError s to)
  | step_reconcile s l1 g : exec_step s (reconcileFromL1 s l1 g false).

Inductive exec_run : ExecutionState -> ExecutionState -> Prop :=
  | run_refl s : exec_run s s
  | run_step s t u : exec_run s t -> exec_step t u -> exec_run s u.

(** The commit pipeline of a state: what was requested, seen and finalized, and
    how far each status says it has got. *)
Definition commit_ordered (s : ExecutionState) : Prop :=
  let q := sequences s in
  l1FinalizedCommitSequence q <= l1ObservedCommitSequence q <= requestedCommitSequence q
  /\ erMarketStateSequence q = erEventSequence q.

Definition commit_settled (s : ExecutionState) : Prop :=
  let q := sequences s in
  match status s with
  | commit_observed_on_l1 => l1ObservedCommitSequence q = requestedCommitSequence q
  | commit_finalized | undelegating | restoration_pending =>
      l1FinalizedCommitSequence q = l1ObservedCommitSequence q
      /\ l1ObservedCommitSequence q = requestedCommitSequence q
  | _ => True
  end.

Definition exec_inv (s : ExecutionState) : Prop := commit_ordered s /\ commit_settled s.

(** Pointwise order on the seven counters. *)
Definition sequences_le (p q : ExecutionSequences) : Prop :=
  erEventSequence p <= erEventSequence q
  /\ erMarketStateSequence p <= erMarketStateSequence q
  /\ requestedCommitSequence p <= requestedCommitSequence q
  /\ l1ObservedCommitSequence p <= l1ObservedCommitSequence q
  /\ l1FinalizedCommitSequence p <= l1FinalizedCommitSequence q
  /\ undelegationSequence p <= undelegationSequence q
  /\ restorationSequence p <= restorationSequence q.

#[export] Instance sequences_le_preorder : PreOrder sequences_le.
Proof. split; [intros q|intros p q r]; unfold sequences_le; lia. Qed.

(** A move of the machine that keeps the invariant and loses no counter. *)
Definition safe_move (s t : ExecutionState) : Prop :=
  exec_inv s -> exec_inv t /\ sequences_le (sequences s) (sequences t).

#[export] Instance safe_move_preorder : PreOrder safe_move.
Proof.
  split.
  - intros s Hs. split; [done|reflexivity].
  - intros s t u Hst Htu Hs. destruct (Hst Hs) as [Ht Hle]. destruct (Htu Ht).
    split; [done|by etransitivity].
Qed.

(** Reduces a transition applied to a known status; error messages stay folded. *)
Ltac exec_simpl :=
  repeat (progress (cbn -[Z.leb Z.ltb Z.eqb Z.add bool_decide String.append pretty]; compute_decide)).

(** Unfolds a transition and settles each of its branches arithmetically. *)
Ltac exec_cases :=
  intros [st [] er];
  unfold safe_move, exec_inv, commit_ordered, commit_settled, sequences_le, errorState, er_trading;
  destruct st; exec_simpl; repeat case_match; zbool; simplify_eq/=; lia.

Lemma errorState_safe s e : safe_move s (errorState s e).
Proof. revert s. exec_cases. Qed.
Lemma beginDelegation_safe s : safe_move s (beginDelegation s).
Proof. unfold beginDelegation. revert s. exec_cases. Qed.
Lemma observeErActive_safe s : safe_move s (observeErActive s).
Proof. unfold observeErActive. revert s. exec_cases. Qed.
Lemma acceptErTrade_safe s n : safe_move s (acceptErTrade s n).
Proof. unfold acceptErTrade. revert s. exec_cases. Qed.
Lemma scheduleCommit_safe s n : safe_move s (scheduleCommit s n).
Proof. unfold scheduleCommit. revert s. exec_cases. Qed.
Lemma observeCommitOnL1_safe s n : safe_move s (observeCommitOnL1 s n).
Proof. unfold observeCommitOnL1. revert s. exec_cases. Qed.
Lemma finalizeCommit_safe s n : safe_move s (finalizeCommit s n).
Proof. unfold finalizeCommit. revert s. exec_cases. Qed.
Lemma beginUndelegation_safe s n : safe_move s (beginUndelegation s n).
Proof. unfold beginUndelegation. revert s. exec_cases. Qed.
Lemma beginRestoration_safe s : safe_move s (beginRestoration s).
Proof. unfold beginRestoration. revert s. exec_cases. Qed.
Lemma completeRestoration_safe s n : safe_move s (completeRestoration s n).
Proof. unfold completeRestoration. revert s. exec_cases. Qed.
Lemma recover_safe s to : safe_move s (recoverFromReconciliationError s to).
Proof. unfold recoverFromReconciliationError. revert s. destruct to; exec_cases. Qed.
Lemma notDelegated_safe s : safe_move s (mkState l1_only (sequences s) None).
Proof. revert s. exec_cases. Qed.

#[export] Hint Resolve errorState_safe beginDelegation_safe observeErActive_safe acceptErTrade_safe
  scheduleCommit_safe observeCommitOnL1_safe finalizeCommit_safe beginUndelegation_safe
  beginRestoration_safe completeRestoration_safe recover_safe notDelegated_safe : equinox.

Lemma reconcileCommitProgress_safe s l1 : safe_move s (reconcileCommitProgress s l1).
Proof.
  unfold reconcileCommitProgress. case_match; [reflexivity|].
  assert (safe_move s (if requestedCommitSequence (sequences s) <? lastCommittedSequence l1
                       then scheduleCommit s (lastCommittedSequence l1) else s)) as H1
    by (case_match; [auto with equinox|reflexivity]).
  repeat case_bool_decide; [done| |];
    (etransitivity; [exact H1|]); [auto with equinox|].
  etransitivity; [apply observeCommitOnL1_safe|auto with equinox].
Qed.

Lemma reconcileDelegated_safe s l1 g : safe_move s (reconcileDelegated s l1 g).
Proof.
  unfold reconcileDelegated.
  set (a := if bool_decide (status s = l1_only \/ _) then _ else _).
  set (b := if bool_decide (status a = delegating) then _ else _).
  assert (safe_move s b) as Hb.
  { transitivity a; [unfold a|unfold b]; case_match; auto with equinox; reflexivity. }
  case_bool_decide; [done|]. etransitivity; [exact Hb|].
  destruct g as [g|]; [|apply reconcileCommitProgress_safe].
  case_match; [|apply reconcileCommitProgress_safe].
  case_bool_decide; [auto with equinox|].
  etransitivity; [|apply reconcileCommitProgress_safe]. auto with equinox.
Qed.

Lemma reconcileFromL1_safe s l1 g : safe_move s (reconcileFromL1 s l1 g false).
Proof.
  unfold reconcileFromL1, reconcileUndelegating, reconcileRestored. cbn [andb].
  repeat case_match; auto using reconcileDelegated_safe with equinox; try reflexivity;
    (etransitivity; [apply beginRestoration_safe|auto with equinox]).
Qed.

Lemma exec_step_safe s t : exec_step s t -> safe_move s t.
Proof. destruct 1; auto using reconcileFromL1_safe with equinox. Qed.

Lemma exec_run_safe s t : exec_run s t -> safe_move s t.
Proof. induction 1; [reflexivity|etransitivity; eauto using exec_step_safe]. Qed.

Lemma initial_inv : exec_inv INITIAL_EXECUTION_STATE.
Proof. by repeat split. Qed.

(** A first observation seeded from an account whose next expected commit is the
    successor of its last one starts in the invariant. *)
Lemma bootstrap_inv l1 g :
  expectedCommitSequence l1 = lastCommittedSequence l1 + 1 -> 0 <= lastCommittedSequence l1 ->
  exec_inv (bootstrapFromL1 l1 g).
Proof.
  intros He Hl. unfold exec_inv, commit_ordered, commit_settled, bootstrapFromL1. cbn.
  destruct (Z.ltb_spec 0 (expectedCommitSequence l1)); [|lia].
  repeat case_match; cbn; lia.
Qed.

(** Where the tracking of a market starts: untouched, or seeded from the first
    account read, whose next expected commit is the successor of its last one. *)
Inductive exec_start : ExecutionState -> Prop :=
  | start_initial : exec_start INITIAL_EXECUTION_STATE
  | start_bootstrap l1 g :
      expectedCommitSequence l1 = lastCommittedSequence l1 + 1 -> 0 <= lastCommittedSequence l1 ->
      exec_start (bootstrapFromL1 l1 g).

Lemma exec_start_inv s : exec_start s -> exec_inv s.
Proof. destruct 1; [apply initial_inv|by apply bootstrap_inv]. Qed.

(** ** Properties *)


Definition delegated_fields (n : Z) : DelegationFields := mkFields 1 1 (n + 1) n false 9.


(** No run of the machine ever moves a counter backwards: each of the seven
    sequences of a later state is at least what it was in an earlier one. *)
Theorem execution_sequences_monotone s0 s t :
  exec_start s0 -> exec_run s0 s -> exec_run s t ->
  sequences_le (sequences s) (sequences t).
Proof.
  intros H0 Hs Ht. destruct (exec_run_safe _ _ Hs (exec_start_inv _ H0)) as [Hi _].
  by destruct (exec_run_safe _ _ Ht Hi).
Qed.

Lemma execution_sequences_monotone_witness :
  sequences_le (sequences (bootstrapFromL1 (delegated_fields 4) (Some 9)))
    (sequences (reconcileFromL1 (bootstrapFromL1 (delegated_fields 4) (Some 9))
                  (delegated_fields 7) (Some 12) false)).
Proof.
  apply (execution_sequences_monotone (bootstrapFromL1 (delegated_fields 4) (Some 9)));
    [apply start_bootstrap; [reflexivity|vm_compute; discriminate]|apply run_refl|].
  eapply run_step; [apply run_refl|apply step_reconcile].
Defined.

(** Statuses the reconciliation of a delegated account settles in. *)
Definition past_delegation (st : MarketExecutionStatus) : Prop :=
  st ≠ l1_only /\ st ≠ restored /\ st ≠ delegating.

(** What [reconcileCommitProgress] returns when it raises no error: the state
    itself when L1 shows nothing new, otherwise a finalized commit at L1's own
    sequence. *)
Lemma commitProgress_cases s l1 :
  let t := reconcileCommitProgress s l1 in
  status t = reconciliation_error \/
  (t = s /\ lastCommittedSequence l1 <= l1FinalizedCommitSequence (sequences s)) \/
  (status t = commit_finalized
   /\ l1FinalizedCommitSequence (sequences t) = lastCommittedSequence l1
   /\ erEventSequence (sequences t) = erEventSequence (sequences s)).
Proof.
  cbn. unfold reconcileCommitProgress. destruct (Z.leb_spec (lastCommittedSequence l1)
    (l1FinalizedCommitSequence (sequences s))) as [Hle|Hgt]; [by right; left|].
  set (a := if _ <? _ then _ else _). case_bool_decide as Ea; [by left|].
  assert (erEventSequence (sequences a) = erEventSequence (sequences s)) as Hera
    by (unfold a, scheduleCommit; repeat case_match; done).
  set (b := observeCommitOnL1 a _). case_bool_decide as Eb; [by left|].
  assert (erEventSequence (sequences b) = erEventSequence (sequences a)) as Herb
    by (unfold b, observeCommitOnL1; repeat case_match; done).
  unfold finalizeCommit. case_bool_decide; [by left|]. case_match; [by left|].
  right; right. cbn. by rewrite Herb.
Qed.

Lemma scheduleCommit_finalized s n :
  l1FinalizedCommitSequence (sequences (scheduleCommit s n)) = l1FinalizedCommitSequence (sequences s).
Proof. unfold scheduleCommit. by repeat case_match. Qed.

Lemma observeCommitOnL1_finalized s n :
  l1FinalizedCommitSequence (sequences (observeCommitOnL1 s n)) = l1FinalizedCommitSequence (sequences s).
Proof. unfold observeCommitOnL1. by repeat case_match. Qed.

Lemma finalizeCommit_finalized s n :
  l1FinalizedCommitSequence (sequences (finalizeCommit s n)) = l1FinalizedCommitSequence (sequences s)
  \/ l1FinalizedCommitSequence (sequences (finalizeCommit s n)) = n.
Proof. unfold finalizeCommit. repeat case_match; cbn; auto. Qed.

Lemma commitProgress_finalized s l1 :
  l1FinalizedCommitSequence (sequences (reconcileCommitProgress s l1)) =
    l1FinalizedCommitSequence (sequences s)
  \/ l1FinalizedCommitSequence (sequences (reconcileCommitProgress s l1)) = lastCommittedSequence l1.
Proof.
  unfold reconcileCommitProgress. case_match; [by left|].
  set (a := if _ <? _ then _ else _).
  assert (l1FinalizedCommitSequence (sequences a) = l1FinalizedCommitSequence (sequences s)) as Ha
    by (unfold a; case_match; [apply scheduleCommit_finalized|done]).
  case_match; [by left|]. case_match; [left; by rewrite observeCommitOnL1_finalized|].
  rewrite <- Ha, <- (observeCommitOnL1_finalized a (lastCommittedSequence l1)).
  apply finalizeCommit_finalized.
Qed.

(** The ER sequence a tick read is already recorded in the state. *)
Definition er_caught_up (g : option Z) (s : ExecutionState) : Prop :=
  match g with Some g => g <= erEventSequence (sequences s) | None => True end.

Lemma reconcileDelegated_cases s l1 g :
  let t := reconcileDelegated s l1 g in
  status t = reconciliation_error \/
  (past_delegation (status t) /\ er_caught_up g t
   /\ lastCommittedSequence l1 <= l1FinalizedCommitSequence (sequences t)).
Proof.
  cbn. unfold reconcileDelegated.
  set (a := if bool_decide (status s = l1_only \/ _) then _ else _).
  set (b := if bool_decide (status a = delegating) then _ else _).
  case_bool_decide as Eb; [by left|].
  assert (past_delegation (status b)) as Hb.
  { revert Eb. unfold b, a, observeErActive, beginDelegation, past_delegation.
    destruct s as [[] q e]; exec_simpl; naive_solver. }
  assert (forall n, past_delegation (status n) -> er_caught_up g n ->
    let t := reconcileCommitProgress n l1 in
    status t = reconciliation_error \/
    (past_delegation (status t) /\ er_caught_up g t
     /\ lastCommittedSequence l1 <= l1FinalizedCommitSequence (sequences t))) as Hprog.
  { intros n Hn Hg. cbn. destruct (commitProgress_cases n l1) as [?|[[-> ?]|(E & Ef & Er)]];
      [by left|by right|]. right. unfold past_delegation, er_caught_up in *.
    rewrite E, Ef, Er. split_and!; done. }
  destruct g as [g|]; [|by apply Hprog].
  case_match; zbool; [|by apply Hprog; [|cbn; lia]].
  case_bool_decide as Ea; [by left|]. revert Ea.
  unfold acceptErTrade. case_match; [done|]. case_match; [done|].
  intros _. apply Hprog; [done|cbn; lia].
Qed.

Lemma reconcileDelegated_stable t l1 g :
  past_delegation (status t) -> status t ≠ reconciliation_error -> er_caught_up g t ->
  lastCommittedSequence l1 <= l1FinalizedCommitSequence (sequences t) ->
  reconcileDelegated t l1 g = t.
Proof.
  intros (H1 & H2 & H3) He Hg Hl. unfold reconcileDelegated, reconcileCommitProgress.
  rewrite (bool_decide_eq_false_2 (status t = l1_only \/ _)) by naive_solver.
  rewrite (bool_decide_eq_false_2 (status t = delegating)) by done.
  rewrite bool_decide_eq_false_2 by done.
  rewrite (proj2 (Z.leb_le _ _)) by done. destruct g as [g|]; [|done].
  cbn in Hg. by rewrite (proj2 (Z.ltb_ge _ _)) by lia.
Qed.

Lemma reconcileUndelegating_stable s l1 :
  let t := reconcileUndelegating s l1 in
  status t ≠ reconciliation_error -> reconcileUndelegating t l1 = t.
Proof.
  unfold reconcileUndelegating, beginUndelegation. destruct s as [[] q e]; exec_simpl; try done.
  case_match; exec_simpl; done.
Qed.

Lemma reconcileRestored_settles s l1 :
  status (reconcileRestored s l1) ≠ undelegating /\ status (reconcileRestored s l1) ≠ restoration_pending.
Proof.
  unfold reconcileRestored, beginRestoration, completeRestoration.
  destruct s as [[] q e]; exec_simpl; try (split; discriminate); case_match; split; discriminate.
Qed.

Lemma reconcileRestored_stable s l1 :
  reconcileRestored (reconcileRestored s l1) l1 = reconcileRestored s l1.
Proof.
  destruct (reconcileRestored_settles s l1) as [H1 H2].
  set (t := reconcileRestored s l1) in *. unfold reconcileRestored.
  rewrite (bool_decide_eq_false_2 (status t = undelegating)) by done. by rewrite bool_decide_eq_false_2.
Qed.

(** Reconciliation is idempotent: a tick that does not end in the error
    status has absorbed everything its account reads say, so that repeating it
    with the same reads changes nothing; and a market seeded by its first
    observation (with a recognised delegation status) is stable on the next
    tick. *)
Theorem reconcile_idempotent s l1 g :
  (status (reconcileFromL1 s l1 g false) ≠ reconciliation_error ->
   reconcileFromL1 (reconcileFromL1 s l1 g false) l1 g false = reconcileFromL1 s l1 g false)
  /\ (1 <= delegationStatus l1 <= 3 ->
      reconcileFromL1 (reconcileFromL1 s l1 g true) l1 g false = reconcileFromL1 s l1 g true).
Proof.
  split.
  - unfold reconcileFromL1. cbn [andb].
    destruct (delegationStatus l1 =? 0); [by repeat case_bool_decide|].
    destruct (delegationStatus l1 =? 1).
    { intros He. destruct (reconcileDelegated_cases s l1 g) as [?|(?&?&?)]; [done|].
      by apply reconcileDelegated_stable. }
    destruct (delegationStatus l1 =? 2); [apply reconcileUndelegating_stable|].
    destruct (delegationStatus l1 =? 3); [by rewrite reconcileRestored_stable|done].
  - intros Hd. unfold reconcileFromL1, bootstrapFromL1.
    assert (delegationStatus l1 = 1 \/ delegationStatus l1 = 2 \/ delegationStatus l1 = 3)
      as [->|[->| ->]] by lia; cbn -[Z.ltb]; [|done..].
    apply reconcileDelegated_stable; cbn; unfold past_delegation; [by repeat case_match..| |lia].
    destruct g; cbn; lia.
Qed.

Lemma reconcile_idempotent_witness :
  reconcileFromL1 (reconcileFromL1 INITIAL_EXECUTION_STATE (delegated_fields 4) (Some 9) false)
    (delegated_fields 4) (Some 9) false
  = mkState commit_finalized (mkSequences 9 9 4 4 4 0 0) None.
Proof.
  rewrite (proj1 (reconcile_idempotent INITIAL_EXECUTION_STATE (delegated_fields 4) (Some 9)));
    [reflexivity|vm_compute; discriminate].
Defined.

(** ** Abstract lifecycle

    Where a market's authoritative state lives, forgetting counters and
    commit progress. *)

Inductive Phase := OnL1 | InRollup | Leaving | Faulted.

Definition phase_of (st : MarketExecutionStatus) : Phase :=
  match st with
  | l1_only | restored => OnL1
  | delegating | er_active | er_accepted | commit_scheduled | commit_observed_on_l1
  | commit_finalized => InRollup
  | undelegating | restoration_pending => Leaving
  | reconciliation_error => Faulted
  end.

(** The abstract machine: a market enters the rollup only from L1 and leaves it
    through an undelegation; a fault can strike anywhere and is left only
    towards L1; L1 can always reclaim a market by reporting it undelegated. *)
Inductive phase_step : Phase -> Phase -> Prop :=
  | phase_stay p : phase_step p p
  | phase_enter : phase_step OnL1 InRollup
  | phase_leave : phase_step InRollup Leaving
  | phase_home p : phase_step p OnL1
  | phase_fault p : phase_step p Faulted.

#[export] Hint Constructors phase_step : equinox.

Lemma commitProgress_phase s l1 :
  phase_of (status (reconcileCommitProgress s l1)) = phase_of (status s) \/
  status (reconcileCommitProgress s l1) = reconciliation_error \/
  (phase_of (status s) = InRollup /\ status (reconcileCommitProgress s l1) = commit_finalized).
Proof.
  unfold reconcileCommitProgress. case_match; [by left|].
  set (a := if _ <? _ then _ else _).
  assert (status a = status s \/ status a = reconciliation_error
          \/ phase_of (status s) = InRollup) as Ha.
  { unfold a, scheduleCommit. case_match; [|by left].
    destruct s as [[] q e]; unfold er_trading; exec_simpl; try case_match; auto. }
  case_bool_decide as Ea; [by right; left|].
  case_bool_decide as Eb; [by right; left|].
  unfold finalizeCommit. case_bool_decide; [by right; left|]. case_match; [by right; left|].
  right; right. split; [|done]. revert Eb. unfold observeCommitOnL1.
  case_bool_decide as Hc; [done|]. intros _. destruct Ha as [<-|[?|?]]; [|done..].
  by destruct (status a); try (exfalso; naive_solver).
Qed.

Lemma reconcileDelegated_phase s l1 g :
  phase_step (phase_of (status s)) (phase_of (status (reconcileDelegated s l1 g))).
Proof.
  unfold reconcileDelegated.
  set (a := if bool_decide (status s = l1_only \/ _) then _ else _).
  set (b := if bool_decide (status a = delegating) then _ else _).
  assert (phase_of (status b) = phase_of (status s) \/
          (phase_of (status s) = OnL1 /\ phase_of (status b) = InRollup)) as Hb.
  { unfold b, a, observeErActive, beginDelegation.
    destruct s as [[] q e]; exec_simpl; auto. }
  assert (forall n, phase_of (status n) = phase_of (status b) ->
    phase_step (phase_of (status s)) (phase_of (status (reconcileCommitProgress n l1)))) as Hn.
  { intros n En. destruct (commitProgress_phase n l1) as [->|[->|[E ->]]]; rewrite ?En in *;
      [destruct Hb as [->|[-> ->]]|cbn|destruct Hb as [<-|[-> ?]]; rewrite ?E]; auto with equinox. }
  case_bool_decide as Eb; [rewrite Eb; auto with equinox|].
  destruct g as [g|]; [|by apply Hn]. case_match; [|by apply Hn].
  case_bool_decide as Ea; [rewrite Ea; auto with equinox|]. apply Hn. revert Ea.
  unfold acceptErTrade. destruct (er_trading (status b)) eqn:Et; [|done]. cbn. case_match; [done|].
  intros _. revert Et. unfold er_trading. by destruct (status b).
Qed.

Ltac phase_cases :=
  match goal with |- context [status ?s] => destruct s as [[] ? ?] end;
  unfold er_trading; exec_simpl; repeat case_match; exec_simpl; auto with equinox.



(** ** The durable tick *)

Section Durable.
Context `{StatusStore R}.

Definition store_inv (r : R) : Prop := forall k s, store_get r k = Some s -> exec_inv s.

(** What the program guarantees of an L1 account: the next expected commit is
  the successor of the last one. *)
Definition account_consistent (l1 : AccountReader) (m : string) : Prop :=
forall bs f, l1 m = Ok (Some bs) -> decodeDelegationFields bs = Ok f ->
  expectedCommitSequence f = lastCommittedSequence f + 1 /\ 0 <= lastCommittedSequence f.

Lemma reconcileFromL1_inv s l1 g first :
exec_inv s ->
(expectedCommitSequence l1 = lastCommittedSequence l1 + 1 /\ 0 <= lastCommittedSequence l1) ->
exec_inv (reconcileFromL1 s l1 g first).
Proof.
intros Hs [? ?]. destruct first; [|by apply (reconcileFromL1_safe s l1 g)].
destruct (Z.eqb_spec (delegationStatus l1) 0) as [E|E].
- replace (reconcileFromL1 s l1 g true) with (reconcileFromL1 s l1 g false)
    by (unfold reconcileFromL1; by rewrite E).
  by apply reconcileFromL1_safe.
- unfold reconcileFromL1. rewrite (proj2 (Z.eqb_neq _ _)) by done. by apply bootstrap_inv.
Qed.

(** The possible outcomes of a tick. *)
Lemma reconcileMarket_cases m l1 er r :
let '(r', out) := reconcileMarketExecutionStatus m l1 er r in
let s := default INITIAL_EXECUTION_STATE (store_get r m) in
(exists e, r' = r /\ out = Throw e)
\/ (r' = r /\ out = Ok (s, false))
\/ (exists bs f g first, l1 m = Ok (Some bs) /\ decodeDelegationFields bs = Ok f /\
    r' = store_set r m (reconcileFromL1 s f g first) /\
    out = Ok (reconcileFromL1 s f g first, true))
\/ (exists f g, r' = r /\ out = Ok (reconcileFromL1 s f g false, false) /\
    status (reconcileFromL1 s f g false) = status s /\
    sequences (reconcileFromL1 s f g false) = sequences s).
Proof.
unfold reconcileMarketExecutionStatus.
destruct (l1 m) as [[bs|]|e]; [|cbv zeta; by eauto 6..].
destruct (decodeDelegationFields bs) as [f|e] eqn:Ef; [|by eauto].
cbv zeta. destruct (if (_ || _)%bool then _ else _) as [g|e]; [|by eauto].
case_match eqn:Ec; [right; right; left; by eauto 10|]. right; right; right. zbool.
repeat match goal with Hb : bool_decide _ = false |- _ => apply bool_decide_eq_false in Hb end.
exists f, g. rewrite (bool_decide_eq_false_2 (store_get r m = None)) in * by done.
split_and!; [done|done|by apply dec_stable|by apply dec_stable].
Qed.

End Durable.

(** A store given by a finite map. *)
#[export] Instance map_store : StatusStore (gmap string ExecutionState).
Proof.
  refine {| store_get r k := r !! k; store_set r k s := <[k := s]> r |}.
  - intros. apply lookup_insert_eq.
  - intros. by apply lookup_insert_ne.
Defined.

(** A 214-byte V3 market core whose fields are zero except for the delegation
    status and the two commit sequences. *)
Definition sample_core (st lastCommitted : Z) : list Z :=
  V3_CORE_DISCRIMINATOR ++ replicate 189 0 ++ [st]
  ++ le_split 8 (lastCommitted + 1) ++ le_split 8 lastCommitted.


(** When the indexer never saw the on-chain Undelegating status, a tick that
    reads Restored leaves a rollup-phase state exactly as it was, so that order
    routing keeps pointing at the rollup although L1 says the market is back. *)
Theorem restored_without_undelegating_is_ignored s l1 g :
  delegationStatus l1 = 3 -> orderRoutingDomain (status s) = Some ER ->
  reconcileFromL1 s l1 g false = s
  /\ orderRoutingDomain (status (reconcileFromL1 s l1 g false)) = Some ER.
Proof.
  intros Hd Hr.
  assert (reconcileFromL1 s l1 g false = s) as ->; [|done].
  unfold reconcileFromL1, reconcileRestored. rewrite Hd. cbn [andb Z.eqb Pos.eqb].
  destruct s as [[] q e]; try discriminate Hr; exec_simpl; reflexivity.
Qed.

Lemma restored_without_undelegating_is_ignored_witness :
  status (reconcileFromL1 (mkState er_accepted (mkSequences 9 9 4 4 4 0 0) None)
            (mkFields 3 5 5 4 false 9) None false) = er_accepted.
Proof.
  rewrite (proj1 (restored_without_undelegating_is_ignored
    (mkState er_accepted (mkSequences 9 9 4 4 4 0 0) None) (mkFields 3 5 5 4 false 9) None
    eq_refl eq_refl)). reflexivity.
Defined.
