(* ===== verification/Repositories.v ===== *)
(** * Durable repositories

    workers/src/repositories.ts and workers/src/backoff.ts over the D1 tables
    of workers/migrations.  A table is a finite map from its primary key to its
    row; every SQL statement is the map operation its text describes, with the
    [WHERE] of an [UPDATE], the [ON CONFLICT] clause of an [INSERT] and the
    number of changed rows written out.  A column that the code fills with
    [JSON.stringify] and reads back with [JSON.parse] holds the value itself. *)

From stdpp Require Import sorting.
From S2P Require Import Prelude Json Bytes ExecutionStatus.

(** ** Values and rows *)

Record LeaseRow := mkLeaseRow {
  lr_holder : string; lr_expires_at : Z; lr_updated_at : Z; lr_fence : Z }.

Inductive OperationStatus := op_pending | op_succeeded | op_failed.

#[export] Instance operation_status_eq_dec : EqDecision OperationStatus.
Proof. solve_decision. Defined.

Record OperationRow := mkOperationRow {
  or_owner : string; or_request_hash : string; or_status : OperationStatus;
  or_result : option json; or_created_at : Z; or_expires_at : Z }.

Record RateRow := mkRateRow { rr_window_start : Z; rr_count : Z; rr_expires_at : Z }.

Record EventRow := mkEventRow {
  er_market : string; er_domain : Domain; er_sequence : Z; er_event : json; er_observed_at : Z }.

Record CursorRow := mkCursorRow { cr_sequence : Z; cr_slot : Z; cr_updated_at : Z }.

Record SnapshotRow := mkSnapshotRow { sr_sequence : Z; sr_snapshot : json; sr_observed_at : Z }.

Record DeadLetterRow := mkDeadLetterRow {
  dl_operation : string; dl_payload : json; dl_error : string; dl_attempts : Z;
  dl_next_attempt_at : Z; dl_created_at : Z }.

Inductive TxAttemptStatus := tx_submitted | tx_confirmed | tx_finalized | tx_failed | tx_expired | tx_timeout.

#[export] Instance tx_status_eq_dec : EqDecision TxAttemptStatus.
Proof. solve_decision. Defined.

Record TxAttemptRow := mkTxAttemptRow {
  ta_keeper : string; ta_market : string; ta_domain : Domain; ta_signature : option string;
  ta_status : TxAttemptStatus; ta_error : option string; ta_submitted_at : Z; ta_resolved_at : option Z }.

Inductive OracleUpdateStatus := ou_submitted | ou_confirmed | ou_rejected.

Record OracleUpdateRow := mkOracleUpdateRow {
  ou_feed_id : string; ou_payload_hash : string; ou_status : OracleUpdateStatus; ou_observed_at : Z }.

Inductive CommitRecordStatus := cm_requested | cm_confirmed | cm_finalized | cm_failed.

Record CommitRecordRow := mkCommitRecordRow {
  cm_domain : Domain; cm_status : CommitRecordStatus; cm_signature : option string; cm_observed_at : Z }.

Record StatusRow := mkStatusRow {
  st_status : MarketExecutionStatus; st_sequences : ExecutionSequences; st_error : option string;
  st_updated_at : Z }.

Record KeeperCursorRow := mkKeeperCursorRow { kc_cursor : json; kc_updated_at : Z }.

Record PrivateSessionRow := mkPrivateSessionRow {
  ps_wallet : string; ps_market : string; ps_seat_index : Z; ps_created_at : Z; ps_expires_at : Z;
  ps_revoked_at : option Z }.

(** The database: one finite map per table, keyed by the primary key of its
    migration.  [application_sessions] is written by another service; the
    cleanup only looks at its [expires_at]. *)
Record Db := mkDb {
  keeper_leases : gmap string LeaseRow;
  operation_keys : gmap string OperationRow;
  rate_limits : gmap string RateRow;
  application_sessions : gmap string Z;
  indexed_events : gmap string EventRow;
  indexer_cursors : gmap (string * Domain) CursorRow;
  market_snapshots : gmap (string * Domain) SnapshotRow;
  dead_letters : gmap string DeadLetterRow;
  tx_attempts : gmap string TxAttemptRow;
  oracle_updates : gmap (string * Z) OracleUpdateRow;
  commit_records : gmap (string * Z) CommitRecordRow;
  execution_status : gmap string StatusRow;
  keeper_cursors : gmap (string * string) KeeperCursorRow;
  private_sessions : gmap string PrivateSessionRow;
}.

Definition empty_db : Db := mkDb ∅ ∅ ∅ ∅ ∅ ∅ ∅ ∅ ∅ ∅ ∅ ∅ ∅ ∅.

(** Replacement of one table. *)
Definition on_keeper_leases f (d : Db) : Db :=
  mkDb (f (keeper_leases d)) (operation_keys d) (rate_limits d) (application_sessions d) (indexed_events d) (indexer_cursors d) (market_snapshots d) (dead_letters d) (tx_attempts d) (oracle_updates d) (commit_records d) (execution_status d) (keeper_cursors d) (private_sessions d).
Definition on_operation_keys f (d : Db) : Db :=
  mkDb (keeper_leases d) (f (operation_keys d)) (rate_limits d) (application_sessions d) (indexed_events d) (indexer_cursors d) (market_snapshots d) (dead_letters d) (tx_attempts d) (oracle_updates d) (commit_records d) (execution_status d) (keeper_cursors d) (private_sessions d).
Definition on_rate_limits f (d : Db) : Db :=
  mkDb (keeper_leases d) (operation_keys d) (f (rate_limits d)) (application_sessions d) (indexed_events d) (indexer_cursors d) (market_snapshots d) (dead_letters d) (tx_attempts d) (oracle_updates d) (commit_records d) (execution_status d) (keeper_cursors d) (private_sessions d).
Definition on_application_sessions f (d : Db) : Db :=
  mkDb (keeper_leases d) (operation_keys d) (rate_limits d) (f (application_sessions d)) (indexed_events d) (indexer_cursors d) (market_snapshots d) (dead_letters d) (tx_attempts d) (oracle_updates d) (commit_records d) (execution_status d) (keeper_cursors d) (private_sessions d).
Definition on_indexed_events f (d : Db) : Db :=
  mkDb (keeper_leases d) (operation_keys d) (rate_limits d) (application_sessions d) (f (indexed_events d)) (indexer_cursors d) (market_snapshots d) (dead_letters d) (tx_attempts d) (oracle_updates d) (commit_records d) (execution_status d) (keeper_cursors d) (private_sessions d).
Definition on_indexer_cursors f (d : Db) : Db :=
  mkDb (keeper_leases d) (operation_keys d) (rate_limits d) (application_sessions d) (indexed_events d) (f (indexer_cursors d)) (market_snapshots d) (dead_letters d) (tx_attempts d) (oracle_updates d) (commit_records d) (execution_status d) (keeper_cursors d) (private_sessions d).
Definition on_market_snapshots f (d : Db) : Db :=
  mkDb (keeper_leases d) (operation_keys d) (rate_limits d) (application_sessions d) (indexed_events d) (indexer_cursors d) (f (market_snapshots d)) (dead_letters d) (tx_attempts d) (oracle_updates d) (commit_records d) (execution_status d) (keeper_cursors d) (private_sessions d).
Definition on_dead_letters f (d : Db) : Db :=
  mkDb (keeper_leases d) (operation_keys d) (rate_limits d) (application_sessions d) (indexed_events d) (indexer_cursors d) (market_snapshots d) (f (dead_letters d)) (tx_attempts d) (oracle_updates d) (commit_records d) (execution_status d) (keeper_cursors d) (private_sessions d).
Definition on_tx_attempts f (d : Db) : Db :=
  mkDb (keeper_leases d) (operation_keys d) (rate_limits d) (application_sessions d) (indexed_events d) (indexer_cursors d) (market_snapshots d) (dead_letters d) (f (tx_attempts d)) (oracle_updates d) (commit_records d) (execution_status d) (keeper_cursors d) (private_sessions d).
Definition on_oracle_updates f (d : Db) : Db :=
  mkDb (keeper_leases d) (operation_keys d) (rate_limits d) (application_sessions d) (indexed_events d) (indexer_cursors d) (market_snapshots d) (dead_letters d) (tx_attempts d) (f (oracle_updates d)) (commit_records d) (execution_status d) (keeper_cursors d) (private_sessions d).
Definition on_commit_records f (d : Db) : Db :=
  mkDb (keeper_leases d) (operation_keys d) (rate_limits d) (application_sessions d) (indexed_events d) (indexer_cursors d) (market_snapshots d) (dead_letters d) (tx_attempts d) (oracle_updates d) (f (commit_records d)) (execution_status d) (keeper_cursors d) (private_sessions d).
Definition on_execution_status f (d : Db) : Db :=
  mkDb (keeper_leases d) (operation_keys d) (rate_limits d) (application_sessions d) (indexed_events d) (indexer_cursors d) (market_snapshots d) (dead_letters d) (tx_attempts d) (oracle_updates d) (commit_records d) (f (execution_status d)) (keeper_cursors d) (private_sessions d).
Definition on_keeper_cursors f (d : Db) : Db :=
  mkDb (keeper_leases d) (operation_keys d) (rate_limits d) (application_sessions d) (indexed_events d) (indexer_cursors d) (market_snapshots d) (dead_letters d) (tx_attempts d) (oracle_updates d) (commit_records d) (execution_status d) (f (keeper_cursors d)) (private_sessions d).
Definition on_private_sessions f (d : Db) : Db :=
  mkDb (keeper_leases d) (operation_keys d) (rate_limits d) (application_sessions d) (indexed_events d) (indexer_cursors d) (market_snapshots d) (dead_letters d) (tx_attempts d) (oracle_updates d) (commit_records d) (execution_status d) (keeper_cursors d) (f (private_sessions d)).

(** ** Argument checks *)

Definition integer (value : Z) : result unit :=
  throw_if (negb (isSafeInteger value) || (value <? 0)) "Invalid integer".

Definition expiry (now ttl : Z) : result Z :=
  _ ← integer now;
  _ ← integer ttl;
  _ ← throw_if (ttl =? 0) "TTL must be positive";
  _ ← integer (js_add now ttl);
  Ok (js_add now ttl).

(** Identifiers of the services are ASCII, so that the length of the string is
    its number of UTF-16 units. *)
Definition identifier (value : string) : result unit :=
  throw_if (bool_decide (value = "") || (512 <? Z.of_nat (String.length value))) "Invalid identifier".

Definition retryDelay (attempt baseMs maxMs : Z) : Z :=
  Z.min maxMs (baseMs * 2 ^ Z.max 0 (attempt - 1)).

(** [retryDelay(attempt)] with its default arguments. *)
Definition retryDelay_default (attempt : Z) : Z := retryDelay attempt 250 30000.

(** ** Leases, idempotency keys and rate limits *)

Record Lease := mkLease { lease_key : string; lease_holder : string; lease_fence : Z; lease_expiresAt : Z }.

Module ProtocolRepository.
Definition acquire (key holder : string) (ttl now : Z) : eff Db (option Lease) :=
_ ← eff_lift (identifier key);
_ ← eff_lift (identifier holder);
until ← eff_lift (expiry now ttl);
rows ← eff_gets keeper_leases;
match rows !! key with
| None =>
    _ ← eff_modify (on_keeper_leases (insert key (mkLeaseRow holder until now 1)));
    mret (Some (mkLease key holder 1 until))
| Some row =>
    if lr_expires_at row <=? now then
      let fence := lr_fence row + 1 in
      _ ← eff_modify (on_keeper_leases (insert key (mkLeaseRow holder until now fence)));
      mret (Some (mkLease key holder fence until))
    else mret None
end.

(** [lease_key=? AND holder=? AND fence=?] *)
Definition lease_matches (row : LeaseRow) (lease : Lease) : bool :=
bool_decide (lr_holder row = lease_holder lease) && (lr_fence row =? lease_fence lease).

Definition renew (lease : Lease) (ttl now : Z) : eff Db (option Lease) :=
until ← eff_lift (expiry now ttl);
rows ← eff_gets keeper_leases;
match rows !! lease_key lease with
| Some row =>
    if lease_matches row lease && (now <? lr_expires_at row) then
      _ ← eff_modify (on_keeper_leases
            (insert (lease_key lease) (mkLeaseRow (lr_holder row) until now (lr_fence row))));
      mret (Some (mkLease (lease_key lease) (lr_holder row) (lr_fence row) until))
    else mret None
| None => mret None
end.

Definition release (lease : Lease) : eff Db bool :=
rows ← eff_gets keeper_leases;
match rows !! lease_key lease with
| Some row =>
    if lease_matches row lease then
      _ ← eff_modify (on_keeper_leases
            (insert (lease_key lease) (mkLeaseRow (lr_holder row) 0 (lr_updated_at row) (lr_fence row))));
      mret true
    else mret false
| None => mret false
end.

Definition reserve (key owner requestHash : string) (ttl now : Z) : eff Db bool :=
_ ← eff_lift (identifier key);
_ ← eff_lift (identifier owner);
_ ← eff_lift (identifier requestHash);
until ← eff_lift (expiry now ttl);
rows ← eff_gets operation_keys;
match rows !! key with
| Some _ => mret false
| None =>
    _ ← eff_modify (on_operation_keys
          (insert key (mkOperationRow owner requestHash op_pending None now until)));
    mret true
end.

Definition operation (key : string) : eff Db (option OperationRow) :=
rows ← eff_gets operation_keys; mret (rows !! key).

(** [EXISTS (SELECT 1 FROM keeper_leases WHERE ... AND expires_at>?)] *)
Definition lease_live (d : Db) (lease : Lease) (now : Z) : bool :=
match keeper_leases d !! lease_key lease with
| Some row => lease_matches row lease && (now <? lr_expires_at row)
| None => false
end.

(** [status] is ["succeeded" | "failed"]: [true] stands for succeeded. *)
Definition finish (key owner : string) (succeeded : bool) (value : json) (lease : Lease) (now : Z)
  : eff Db unit :=
_ ← eff_lift (integer now);
d ← eff_get;
match operation_keys d !! key with
| Some row =>
    if bool_decide (or_owner row = owner) && bool_decide (or_status row = op_pending)
       && lease_live d lease now
    then eff_modify (on_operation_keys (insert key
           (mkOperationRow (or_owner row) (or_request_hash row)
              (if succeeded then op_succeeded else op_failed) (Some value)
              (or_created_at row) (or_expires_at row))))
    else eff_throw "Operation ownership or lease lost"
| None => eff_throw "Operation ownership or lease lost"
end.

Definition allow (key : string) (limit windowMs now : Z) : eff Db bool :=
_ ← eff_lift (identifier key);
_ ← eff_lift (integer limit);
until ← eff_lift (expiry now windowMs);
if limit =? 0 then mret false else
rows ← eff_gets rate_limits;
match rows !! key with
| None =>
    _ ← eff_modify (on_rate_limits (insert key (mkRateRow now 1 until)));
    mret true
| Some row =>
    let expired := rr_expires_at row <=? now in
    if expired || (rr_count row <? limit) then
      _ ← eff_modify (on_rate_limits (insert key (mkRateRow
            (if expired then now else rr_window_start row)
            (if expired then 1 else rr_count row + 1)
            (if expired then until else rr_expires_at row))));
      mret true
    else mret false
end.

Definition cleanup (now : Z) : eff Db unit :=
_ ← eff_lift (integer now);
eff_modify (fun d =>
  on_operation_keys (filter (fun '(_, row) =>
      ~ (or_expires_at row <= now /\ or_status row ≠ op_pending)))
    (on_rate_limits (filter (fun '(_, row) => ~ rr_expires_at row <= now))
      (on_application_sessions (filter (fun '(_, expires) => ~ expires <= now)) d))).
End ProtocolRepository.

(** ** The indexer's event log, cursors and snapshots *)

Inductive IndexedWrite := iw_applied | iw_duplicate | iw_gap (expected : Z).

Module IndexerRepository.
Definition cursor (marketPda : string) (domain : Domain) : eff Db (option CursorRow) :=
rows ← eff_gets indexer_cursors; mret (rows !! (marketPda, domain)).

(** What the reads of [append] decide: an answer, or the cursor the batch
  will be conditioned on. *)
Definition append_read (marketPda : string) (domain : Domain) (sequence slot : Z) (id : string) (now : Z)
  : eff Db (IndexedWrite + option CursorRow) :=
_ ← eff_lift (identifier marketPda);
_ ← eff_lift (identifier id);
_ ← eff_lift (integer sequence);
_ ← eff_lift (integer slot);
_ ← eff_lift (integer now);
_ ← eff_lift (throw_if (sequence =? 0) "Sequence must be positive");
d ← eff_get;
if bool_decide (is_Some (indexed_events d !! id)) then mret (inl iw_duplicate) else
current ← cursor marketPda domain;
let expected := match current with Some row => cr_sequence row | None => 0 end + 1 in
if negb (sequence =? expected) then mret (inl (iw_gap expected)) else mret (inr current).

(** The batch of [append]: one transaction, rolled back when a constraint
  fails.  An [UPDATE] that matches no row is not a failure, so the event row
  stays although the method then throws. *)
Definition append_write (marketPda : string) (domain : Domain) (sequence slot : Z) (id : string)
  (event : json) (now : Z) (current : option CursorRow) : eff Db IndexedWrite :=
d ← eff_get;
if bool_decide (is_Some (indexed_events d !! id))
then eff_throw "UNIQUE constraint failed: indexed_events.event_id" else
let withEvent := on_indexed_events (insert id (mkEventRow marketPda domain sequence event now)) d in
match current with
| Some row =>
    match indexer_cursors d !! (marketPda, domain) with
    | Some row' =>
        if cr_sequence row' =? cr_sequence row then
          _ ← eff_put (on_indexer_cursors
                (insert (marketPda, domain) (mkCursorRow sequence slot now)) withEvent);
          mret iw_applied
        else
          _ ← eff_put withEvent;
          eff_throw "Indexer cursor contention; resnapshot required"
    | None =>
        _ ← eff_put withEvent;
        eff_throw "Indexer cursor contention; resnapshot required"
    end
| None =>
    if bool_decide (is_Some (indexer_cursors d !! (marketPda, domain)))
    then eff_throw "UNIQUE constraint failed: indexer_cursors.market_pda, indexer_cursors.domain"
    else
      _ ← eff_put (on_indexer_cursors
            (insert (marketPda, domain) (mkCursorRow sequence slot now)) withEvent);
      mret iw_applied
end.

Definition append (marketPda : string) (domain : Domain) (sequence slot : Z) (id : string)
  (event : json) (now : Z) : eff Db IndexedWrite :=
r ← append_read marketPda domain sequence slot id now;
match r with
| inl w => mret w
| inr current => append_write marketPda domain sequence slot id event now current
end.

Definition replaceSnapshot (marketPda : string) (domain : Domain) (sequence slot : Z) (snapshot : json)
  (now : Z) : eff Db unit :=
_ ← eff_lift (identifier marketPda);
_ ← eff_lift (integer sequence);
_ ← eff_lift (integer slot);
_ ← eff_lift (integer now);
eff_modify (fun d =>
  on_indexer_cursors (insert (marketPda, domain) (mkCursorRow sequence slot now))
    (on_market_snapshots (insert (marketPda, domain) (mkSnapshotRow sequence snapshot now)) d)).

Definition snapshot (marketPda : string) (domain : Domain) : eff Db (option (Z * json)) :=
rows ← eff_gets market_snapshots;
mret ((fun row => (sr_sequence row, sr_snapshot row)) <$> rows !! (marketPda, domain)).
End IndexerRepository.

(** ** Retry queue *)

Module DeadLetterRepository.
Definition record (id operation : string) (payload : json) (error : string) (now : Z)
  : eff Db (Z * Z) :=
_ ← eff_lift (identifier id);
_ ← eff_lift (identifier operation);
rows ← eff_gets dead_letters;
let attempts := match rows !! id with Some row => dl_attempts row | None => 0 end + 1 in
let nextAttemptAt := now + retryDelay_default attempts in
let created := match rows !! id with Some row => dl_created_at row | None => now end in
_ ← eff_modify (on_dead_letters
      (insert id (mkDeadLetterRow operation payload error attempts nextAttemptAt created)));
mret (attempts, nextAttemptAt).

Definition next_attempt_le (a b : string * DeadLetterRow) : Prop :=
dl_next_attempt_at (snd a) <= dl_next_attempt_at (snd b).
#[export] Instance next_attempt_le_dec a b : Decision (next_attempt_le a b).
Proof. unfold next_attempt_le. apply _. Defined.

(** [WHERE next_attempt_at <= ? ORDER BY next_attempt_at ASC LIMIT ?]; rows
  with equal times come in an order SQLite does not specify. *)
Definition due (now limit : Z) : eff Db (list (string * DeadLetterRow)) :=
rows ← eff_gets dead_letters;
mret (take (Z.to_nat limit) (merge_sort next_attempt_le
  (filter (fun '(_, row) => dl_next_attempt_at row <= now) (map_to_list rows)))).

Definition resolve (id : string) : eff Db unit := eff_modify (on_dead_letters (delete id)).

Definition giveUp (id : string) (until : Z) : eff Db unit :=
eff_modify (on_dead_letters (alter (fun row =>
  mkDeadLetterRow (dl_operation row) (dl_payload row) (dl_error row) (dl_attempts row) until
    (dl_created_at row)) id)).
End DeadLetterRepository.

(** ** Audit trails *)

Module TxAttemptRepository.
Definition submitted (id keeper marketPda : string) (domain : Domain) (signature : string) (now : Z)
  : eff Db unit :=
rows ← eff_gets tx_attempts;
if bool_decide (is_Some (rows !! id)) then eff_throw "UNIQUE constraint failed: tx_attempts.id"
else eff_modify (on_tx_attempts (insert id
       (mkTxAttemptRow keeper marketPda domain (Some signature) tx_submitted None now None))).

Definition resolved (id : string) (status : TxAttemptStatus) (error : option string) (now : Z)
  : eff Db unit :=
eff_modify (on_tx_attempts (alter (fun row =>
  mkTxAttemptRow (ta_keeper row) (ta_market row) (ta_domain row) (ta_signature row) status error
    (ta_submitted_at row) (Some now)) id)).

Definition submitted_after (a b : string * TxAttemptRow) : Prop :=
ta_submitted_at (snd b) <= ta_submitted_at (snd a).
#[export] Instance submitted_after_dec a b : Decision (submitted_after a b).
Proof. unfold submitted_after. apply _. Defined.

Definition recentForMarket (marketPda keeper : string) (limit : Z) : eff Db (list (string * TxAttemptRow)) :=
rows ← eff_gets tx_attempts;
mret (take (Z.to_nat limit) (merge_sort submitted_after
  (filter (fun '(_, row) => ta_market row = marketPda /\ ta_keeper row = keeper) (map_to_list rows)))).
End TxAttemptRepository.

Module OracleUpdateRepository.
Definition alreadyApplied (marketPda : string) (timestamp : Z) (payloadHash : string) : eff Db bool :=
rows ← eff_gets oracle_updates;
mret (match rows !! (marketPda, timestamp) with
      | Some row => bool_decide (ou_payload_hash row = payloadHash)
      | None => false
      end).

(** On conflict only the status and the observation time change. *)
Definition record (marketPda feedId : string) (timestamp : Z) (payloadHash : string)
  (status : OracleUpdateStatus) (now : Z) : eff Db unit :=
eff_modify (on_oracle_updates (fun rows =>
  <[(marketPda, timestamp) :=
      match rows !! (marketPda, timestamp) with
      | Some row => mkOracleUpdateRow (ou_feed_id row) (ou_payload_hash row) status now
      | None => mkOracleUpdateRow feedId payloadHash status now
      end]> rows)).
End OracleUpdateRepository.

Module CommitRecordRepository.
(** [MAX(sequence)], [0] when the market has no record. *)
Definition max_sequence (marketPda : string) (rows : gmap (string * Z) CommitRecordRow) : option Z :=
map_fold (fun '(m, n) _ acc =>
  if bool_decide (m = marketPda)
  then Some (match acc with Some k => Z.max k n | None => n end) else acc) None rows.

Definition lastRequestedSequence (marketPda : string) : eff Db Z :=
rows ← eff_gets commit_records; mret (default 0 (max_sequence marketPda rows)).

Definition record (marketPda : string) (sequence : Z) (domain : Domain) (status : CommitRecordStatus)
  (signature : option string) (now : Z) : eff Db unit :=
eff_modify (on_commit_records (fun rows =>
  <[(marketPda, sequence) :=
      match rows !! (marketPda, sequence) with
      | Some row => mkCommitRecordRow (cm_domain row) status signature now
      | None => mkCommitRecordRow domain status signature now
      end]> rows)).
End CommitRecordRepository.

Module ExecutionStatusRepository.
Definition get (marketPda : string) : eff Db (option ExecutionState) :=
rows ← eff_gets execution_status;
mret ((fun row => mkState (st_status row) (st_sequences row) (st_error row)) <$> rows !! marketPda).

Definition set (marketPda : string) (status : MarketExecutionStatus) (sequences : ExecutionSequences)
  (error : option string) (now : Z) : eff Db unit :=
eff_modify (on_execution_status (insert marketPda (mkStatusRow status sequences error now))).
End ExecutionStatusRepository.

Module KeeperCursorRepository.
Definition get (keeper marketPda : string) : eff Db (option json) :=
rows ← eff_gets keeper_cursors; mret (kc_cursor <$> rows !! (keeper, marketPda)).

Definition set (keeper marketPda : string) (cursor : json) (now : Z) : eff Db unit :=
eff_modify (on_keeper_cursors (insert (keeper, marketPda) (mkKeeperCursorRow cursor now))).
End KeeperCursorRepository.

(** The execution-status repository at a clock reading is a status store. *)
Definition status_store (now : Z) : StatusStore Db.
Proof.
  refine {| store_get d k := match ExecutionStatusRepository.get k d with
                             | (_, Ok s) => s | (_, Throw _) => None end;
            store_set d k s := fst (ExecutionStatusRepository.set k (status s) (sequences s) (error s) now d) |}.
  - intros r k [st q e]. cbv [ExecutionStatusRepository.get]. run_eff. cbn. by rewrite lookup_insert_eq.
  - intros r k k' s Hk. cbv [ExecutionStatusRepository.get]. run_eff. cbn. by rewrite lookup_insert_ne.
Defined.

(** ** Argument checks *)

Lemma integer_Ok z : integer z = Ok tt <-> 0 <= z <= MAX_SAFE_INTEGER.
Proof.
  unfold integer, isSafeInteger. rewrite throw_if_Ok, orb_false_iff, negb_false_iff, Z.leb_le, Z.ltb_ge. lia.
Qed.

Lemma integer_cases z : integer z = Ok tt \/ integer z = Throw "Invalid integer".
Proof. unfold integer, throw_if. case_match; auto. Qed.

Lemma expiry_Ok now ttl u :
  expiry now ttl = Ok u <-> 0 <= now /\ 0 < ttl /\ u = now + ttl /\ u <= MAX_SAFE_INTEGER.
Proof.
  unfold expiry. rewrite result_bind_Ok. split.
  - intros ([] & Hn%integer_Ok & H). apply result_bind_Ok in H as ([] & Ht%integer_Ok & H).
    apply result_bind_Ok in H as ([] & H0%throw_if_Ok & H). apply result_bind_Ok in H as ([] & Hs%integer_Ok & [= <-]).
    zbool. assert (js_add now ttl = now + ttl) as E; [|rewrite E in *; lia].
    unfold js_add in *. destruct (Z.leb_spec (now + ttl) MAX_SAFE_INTEGER) as [Hle|Hgt].
    + apply to_number_small. unfold MAX_SAFE_INTEGER in *. lia.
    + exfalso. unfold MAX_SAFE_INTEGER in *.
      destruct (Z.eq_dec (now + ttl) (2 ^ 54 - 1)) as [E|E]; [rewrite E in Hs; vm_compute in Hs; naive_solver|].
      unfold to_number in Hs. rewrite (Z.abs_eq (now + ttl)) in Hs by lia.
      assert (Z.log2 (now + ttl) = 53) as El by (apply Z.log2_unique; lia). rewrite El in Hs.
      change (53 - 52) with 1 in Hs. change (1 <=? 0) with false in Hs. cbv iota in Hs. change (2 ^ 1) with 2 in Hs.
      pose proof (round_half_even_bounds (now + ttl) 2 ltac:(lia)). lia.
  - intros (Hn & Ht & -> & Hs).
    assert (js_add now ttl = now + ttl) as E
      by (unfold js_add; apply to_number_small; unfold MAX_SAFE_INTEGER in *; lia).
    rewrite E. exists tt. split; [apply integer_Ok; lia|].
    rewrite (proj2 (integer_Ok ttl)) by lia. cbn. rewrite (proj2 (Z.eqb_neq ttl 0)) by lia. cbn.
    by rewrite (proj2 (integer_Ok (now + ttl))) by lia.
Qed.

(** ** Runs of the protocol repository *)

(** A call of one of the methods, with its arguments and the clock it reads. *)
Inductive protocol_op :=
  | OpAcquire (key holder : string) (ttl now : Z)
  | OpRenew (lease : Lease) (ttl now : Z)
  | OpRelease (lease : Lease)
  | OpReserve (key owner requestHash : string) (ttl now : Z)
  | OpFinish (key owner : string) (succeeded : bool) (value : json) (lease : Lease) (now : Z)
  | OpAllow (key : string) (limit windowMs now : Z)
  | OpCleanup (now : Z).

Definition protocol_step (d : Db) (op : protocol_op) : Db :=
  match op with
  | OpAcquire k h ttl now => fst (ProtocolRepository.acquire k h ttl now d)
  | OpRenew l ttl now => fst (ProtocolRepository.renew l ttl now d)
  | OpRelease l => fst (ProtocolRepository.release l d)
  | OpReserve k o rh ttl now => fst (ProtocolRepository.reserve k o rh ttl now d)
  | OpFinish k o b v l now => fst (ProtocolRepository.finish k o b v l now d)
  | OpAllow k limit w now => fst (ProtocolRepository.allow k limit w now d)
  | OpCleanup now => fst (ProtocolRepository.cleanup now d)
  end.

(** Any interleaving of calls by any number of workers. *)
Definition protocol_run (d : Db) (ops : list protocol_op) : Db := foldl protocol_step d ops.

(** A property of the database kept by every step is kept by every run. *)
Lemma protocol_run_ind (R : Db -> Db -> Prop) `{!PreOrder R} (P : protocol_op -> Prop) ops d :
  (forall d op, P op -> R d (protocol_step d op)) -> Forall P ops -> R d (protocol_run d ops).
Proof.
  intros Hstep Hall. revert d. induction Hall as [|op ops Hop _ IH]; intros d; [reflexivity|].
  cbn. etransitivity; [by apply Hstep|apply IH].
Qed.

(** Peels one monadic check off a method: the checks either fail, leaving the
    database as it was, or let the rest run. *)
Ltac peel :=
  match goal with
  | |- context [eff_lift ?r] => destruct r as [?|?] eqn:?
  end; cbn.

Ltac open_method m := unfold m, mbind, eff_bind, mret, eff_ret; cbn.

Section Leases.
Import ProtocolRepository.

(** What an operation may do to the lease row of a key. *)
Definition lease_evolves (k : string) (d d' : Db) : Prop :=
forall a, keeper_leases d !! k = Some a ->
exists b, keeper_leases d' !! k = Some b /\ lr_fence a <= lr_fence b
          /\ (lr_fence a = lr_fence b -> lr_holder b = lr_holder a).

#[export] Instance lease_evolves_preorder k : PreOrder (lease_evolves k).
Proof.
split; [intros d a Ha; by exists a|].
intros d1 d2 d3 H12 H23 a Ha. destruct (H12 a Ha) as (b & Hb & Hf & Hh).
destruct (H23 b Hb) as (c & Hc & Hf' & Hh'). exists c. split; [done|]. split; [lia|].
intros E. rewrite Hh' by lia. apply Hh. lia.
Qed.

Lemma lease_matches_spec row l :
lease_matches row l = true <-> lr_holder row = lease_holder l /\ lr_fence row = lease_fence l.
Proof. unfold lease_matches. by rewrite andb_true_iff, bool_decide_eq_true, Z.eqb_eq. Qed.

(** The outcomes of [acquire]. *)
Lemma acquire_cases k h ttl now d :
(exists e, acquire k h ttl now d = (d, Throw e))
\/ (acquire k h ttl now d = (d, Ok None)
    /\ exists a, keeper_leases d !! k = Some a /\ now < lr_expires_at a)
\/ (exists fence, acquire k h ttl now d =
      (on_keeper_leases (insert k (mkLeaseRow h (now + ttl) now fence)) d,
       Ok (Some (mkLease k h fence (now + ttl))))
    /\ 0 < ttl
    /\ match keeper_leases d !! k with
       | None => fence = 1
       | Some a => fence = lr_fence a + 1 /\ lr_expires_at a <= now
       end).
Proof.
unfold acquire. run_eff.
destruct (identifier k) as [[]|e]; [|by eauto]. destruct (identifier h) as [[]|e]; [|by eauto].
destruct (expiry now ttl) as [u|e] eqn:Eu; [|by eauto]. apply expiry_Ok in Eu as (_ & Ht & -> & _).
destruct (keeper_leases d !! k) as [a|] eqn:Ea; [|by eauto 7].
destruct (Z.leb_spec (lr_expires_at a) now); [by eauto 7|]. by eauto 7.
Qed.

Lemma renew_cases l ttl now d :
(fst (renew l ttl now d) = d /\ forall l', snd (renew l ttl now d) ≠ Ok (Some l'))
\/ (exists a, keeper_leases d !! lease_key l = Some a /\ lease_matches a l = true
    /\ now < lr_expires_at a
    /\ renew l ttl now d =
       (on_keeper_leases (insert (lease_key l) (mkLeaseRow (lr_holder a) (now + ttl) now (lr_fence a))) d,
        Ok (Some (mkLease (lease_key l) (lr_holder a) (lr_fence a) (now + ttl))))).
Proof.
unfold renew. run_eff. destruct (expiry now ttl) as [u|e] eqn:Eu; [|by left].
apply expiry_Ok in Eu as (_ & _ & -> & _).
destruct (keeper_leases d !! lease_key l) as [a|]; [|by left].
destruct (lease_matches a l) eqn:Em; cbn; [|by left].
destruct (Z.ltb_spec now (lr_expires_at a)); [|by left]. right. by exists a.
Qed.

Lemma release_cases l d :
release l d = (d, Ok false)
\/ (exists a, keeper_leases d !! lease_key l = Some a /\ lease_matches a l = true
    /\ release l d = (on_keeper_leases (insert (lease_key l)
         (mkLeaseRow (lr_holder a) 0 (lr_updated_at a) (lr_fence a))) d, Ok true)).
Proof.
unfold release. run_eff. destruct (keeper_leases d !! lease_key l) as [a|]; [|by left].
destruct (lease_matches a l) eqn:Em; [|by left]. right. by exists a.
Qed.

(** The operations that never touch the lease table. *)
Lemma lease_frame op d :
match op with OpAcquire _ _ _ _ | OpRenew _ _ _ | OpRelease _ => True
| _ => keeper_leases (protocol_step d op) = keeper_leases d end.
Proof.
destruct op; [done..| | | |]; cbn; [unfold reserve|unfold finish|unfold allow|unfold cleanup];
  run_eff; repeat case_match; simplify_eq/=; reflexivity.
Qed.

Lemma lease_step_evolves k d op : lease_evolves k d (protocol_step d op).
Proof.
intros a Ha. pose proof (lease_frame op d) as Hf.
destruct op as [k' h ttl now|l ttl now|l| | | |]; cbn -[acquire renew release];
  [| | |cbn in Hf; rewrite Hf; by exists a..].
- destruct (acquire_cases k' h ttl now d) as [[e ->]|[[-> _]|(f & -> & _ & Hc)]]; [by exists a..|].
  cbn. destruct (decide (k' = k)) as [->|]; [rewrite lookup_insert_eq|rewrite lookup_insert_ne by done; by exists a].
  rewrite Ha in Hc. destruct Hc as [-> _]. eexists. split; [done|]. cbn. lia.
- destruct (renew_cases l ttl now d) as [[-> _]|(b & Hb & _ & _ & ->)]; [by exists a|].
  cbn. destruct (decide (lease_key l = k)) as [<-|]; [rewrite lookup_insert_eq|rewrite lookup_insert_ne by done; by exists a].
  simplify_eq. eexists. split; [done|]. cbn. split; [lia|done].
- destruct (release_cases l d) as [->|(b & Hb & _ & ->)]; [by exists a|].
  cbn. destruct (decide (lease_key l = k)) as [<-|]; [rewrite lookup_insert_eq|rewrite lookup_insert_ne by done; by exists a].
  simplify_eq. eexists. split; [done|]. cbn. split; [lia|done].
Qed.

Lemma lease_run_evolves k d ops : lease_evolves k d (protocol_run d ops).
Proof.
apply (protocol_run_ind _ (fun _ => True)); [|by apply Forall_true].
intros. apply lease_step_evolves.
Qed.

(** A lease whose fence is behind its row is dead. *)
Lemma fenced_out l a d :
keeper_leases d !! lease_key l = Some a -> lease_fence l < lr_fence a ->
(forall ttl now, fst (renew l ttl now d) = d /\ forall l', snd (renew l ttl now d) ≠ Ok (Some l'))
/\ release l d = (d, Ok false)
/\ (forall k o b v now, fst (finish k o b v l now d) = d /\ is_ok (snd (finish k o b v l now d)) = false).
Proof.
intros Ha Hf.
assert (lease_matches a l = false) as Hm.
{ destruct (lease_matches a l) eqn:E; [|done]. apply lease_matches_spec in E. lia. }
split_and!.
- intros ttl now. destruct (renew_cases l ttl now d) as [?|(b & Hb & E & _)]; [done|]. simplify_eq. congruence.
- destruct (release_cases l d) as [?|(b & Hb & E & _)]; [done|]. simplify_eq. congruence.
- intros k o b v now. unfold finish, lease_live. run_eff.
  destruct (integer now); [|done]. cbn. destruct (operation_keys d !! k) as [row|]; [|done].
  rewrite Ha, Hm. cbn. by rewrite andb_false_r.
Qed.

(** C2. Fencing: when a key is acquired again, however many calls by however
  many workers happened in between, the new lease carries a strictly larger
  fence, and from then on, whatever else happens, the earlier lease can
  neither be renewed nor released nor used to finish an operation. *)
Theorem lease_fencing k h ttl now d d1 l ops h' ttl' now' d2 l' ops' :
acquire k h ttl now d = (d1, Ok (Some l)) ->
acquire k h' ttl' now' (protocol_run d1 ops) = (d2, Ok (Some l')) ->
let d3 := protocol_run d2 ops' in
lease_fence l < lease_fence l'
/\ (forall ttl now, fst (renew l ttl now d3) = d3 /\ forall m, snd (renew l ttl now d3) ≠ Ok (Some m))
/\ release l d3 = (d3, Ok false)
/\ (forall o w b v now, fst (finish o w b v l now d3) = d3
                       /\ is_ok (snd (finish o w b v l now d3)) = false).
Proof.
intros H1 H2 d3.
destruct (acquire_cases k h ttl now d) as [[e E]|[[E _]|(f & E & _)]]; rewrite E in H1; simplify_eq.
set (d1 := on_keeper_leases _ d) in *.
destruct (lease_run_evolves k d1 ops _ (lookup_insert_eq _ _ _)) as (a & Ha & Hf & _). cbn in Hf.
destruct (acquire_cases k h' ttl' now' (protocol_run d1 ops)) as [[e E']|[[E' _]|(f' & E' & _ & Hc)]];
  rewrite E' in H2; simplify_eq. rewrite Ha in Hc. destruct Hc as [-> _].
set (d2 := on_keeper_leases _ (protocol_run d1 ops)) in *.
destruct (lease_run_evolves k d2 ops' _ (lookup_insert_eq _ _ _)) as (b & Hb & Hf' & _). cbn in Hf'.
split; [cbn; lia|]. apply (fenced_out (mkLease k h f (now + ttl)) b); cbn; [done|lia].
Qed.

(** The row of a lease that has not been given up yet. *)
Definition lease_held (l : Lease) (d : Db) : Prop :=
exists u, keeper_leases d !! lease_key l
  = Some (mkLeaseRow (lease_holder l) (lease_expiresAt l) u (lease_fence l)).

(** A call that happens before the expiry of [l] and is not made by its
  holder to renew or release that very lease. *)
Definition bystander (l : Lease) (op : protocol_op) : Prop :=
match op with
| OpAcquire _ _ _ now => now < lease_expiresAt l
| OpRenew m _ _ | OpRelease m =>
    ~ (lease_key m = lease_key l /\ lease_holder m = lease_holder l /\ lease_fence m = lease_fence l)
| _ => True
end.

Lemma held_blocks l k h ttl now d :
lease_key l = k -> lease_held l d -> now < lease_expiresAt l ->
fst (acquire k h ttl now d) = d /\ forall m, snd (acquire k h ttl now d) ≠ Ok (Some m).
Proof.
intros <- [u Hu] Hnow.
destruct (acquire_cases (lease_key l) h ttl now d) as [[e ->]|[[-> _]|(f & _ & _ & Hc)]]; [done..|].
rewrite Hu in Hc. cbn in Hc. lia.
Qed.

Lemma held_step l d op : bystander l op -> lease_held l d -> lease_held l (protocol_step d op).
Proof.
intros Hb Hl. pose proof (lease_frame op d) as Hf. unfold lease_held in *.
destruct op as [k' h ttl now|m ttl now|m| | | |]; cbn -[acquire renew release] in *;
  [| | |by rewrite Hf..].
- destruct (decide (lease_key l = k')) as [E|Hne];
    [by rewrite (proj1 (held_blocks l k' h ttl now d E Hl Hb))|].
  destruct (acquire_cases k' h ttl now d) as [[e ->]|[[-> _]|(f & -> & _)]]; [done..|].
  cbn. by rewrite lookup_insert_ne.
- destruct (renew_cases m ttl now d) as [[-> _]|(a & Ha & Hm & _ & ->)]; [done|].
  cbn. destruct (decide (lease_key m = lease_key l)) as [E|]; [|by rewrite lookup_insert_ne].
  destruct Hl as [u Hu]. rewrite E, Hu in Ha. simplify_eq. apply lease_matches_spec in Hm. cbn in Hm. naive_solver.
- destruct (release_cases m d) as [->|(a & Ha & Hm & ->)]; [done|].
  cbn. destruct (decide (lease_key m = lease_key l)) as [E|]; [|by rewrite lookup_insert_ne].
  destruct Hl as [u Hu]. rewrite E, Hu in Ha. simplify_eq. apply lease_matches_spec in Hm. cbn in Hm. naive_solver.
Qed.

(** C1. Mutual exclusion: a lease that was granted stays the current one
  through every interleaving of calls that read the clock before its expiry
  and that are not its own renewal or release, and until then every attempt
  to acquire its key is refused without a write. *)
Theorem lease_exclusive k h ttl now d d1 l ops h' ttl' now' :
acquire k h ttl now d = (d1, Ok (Some l)) -> Forall (bystander l) ops -> now' < lease_expiresAt l ->
let d2 := protocol_run d1 ops in
lease_expiresAt l = now + ttl
/\ fst (acquire k h' ttl' now' d2) = d2
/\ (forall m, snd (acquire k h' ttl' now' d2) ≠ Ok (Some m))
/\ (now' < now + ttl -> lease_live d2 l now' = true).
Proof.
intros H1 Hops Hnow d2.
destruct (acquire_cases k h ttl now d) as [[e E]|[[E _]|(f & E & _)]]; rewrite E in H1; simplify_eq.
set (l := mkLease k h f (now + ttl)) in *.
assert (lease_held l d2) as Hl.
{ unfold d2. assert (lease_held l (on_keeper_leases (insert k (mkLeaseRow h (now + ttl) now f)) d)) as H0
    by (exists now; cbn; apply lookup_insert_eq).
  revert H0. generalize (on_keeper_leases (insert k (mkLeaseRow h (now + ttl) now f)) d). clear -Hops.
  induction Hops as [|op ops Hop _ IH]; intros d0 H0; [done|]. cbn. apply IH. by apply held_step. }
split; [done|]. split; [|split].
- by apply (held_blocks l).
- by apply (held_blocks l).
- intros ?. unfold lease_live. destruct Hl as [u ->]. cbn.
  unfold lease_matches. cbn. rewrite bool_decide_eq_true_2, Z.eqb_refl by done. cbn. by apply Z.ltb_lt.
Qed.
End Leases.

Definition sample_d1 : Db := fst (ProtocolRepository.acquire "k" "a" 10 0 empty_db).
Definition sample_l1 : Lease := mkLease "k" "a" 1 10.
Definition sample_d2 : Db :=
  fst (ProtocolRepository.acquire "k" "b" 10 20 (protocol_run sample_d1 [OpRenew sample_l1 5 3])).

Lemma lease_fencing_witness :
  ProtocolRepository.release sample_l1 sample_d2 = (sample_d2, Ok false).
Proof.
  refine (proj1 (proj2 (proj2 (lease_fencing "k" "a" 10 0 empty_db sample_d1 sample_l1
    [OpRenew sample_l1 5 3] "b" 10 20 sample_d2 (mkLease "k" "b" 2 30) [] _ _)))); vm_compute; reflexivity.
Defined.

Lemma lease_exclusive_witness :
  fst (ProtocolRepository.acquire "k" "c" 10 9 (protocol_run sample_d1 [OpAcquire "k" "b" 10 5; OpCleanup 7]))
    = protocol_run sample_d1 [OpAcquire "k" "b" 10 5; OpCleanup 7].
Proof.
  refine (proj1 (proj2 (lease_exclusive "k" "a" 10 0 empty_db sample_d1 sample_l1
    [OpAcquire "k" "b" 10 5; OpCleanup 7] "c" 10 9 _ _ _))); [vm_compute; reflexivity| |reflexivity].
  constructor; [reflexivity|]. constructor; [exact I|constructor].
Defined.

(** ** Idempotency keys *)

Section Operations.
Import ProtocolRepository.

(** A key is taken: its row exists and cannot be cleaned up because its
  outcome is still unknown. *)
Definition reserved (k : string) (d : Db) : Prop :=
exists row, operation_keys d !! k = Some row /\ or_status row = op_pending.

(** The call does not finish [k]. *)
Definition leaves_pending (k : string) (op : protocol_op) : Prop :=
match op with OpFinish k' _ _ _ _ _ => k' ≠ k | _ => True end.

Lemma reserved_step k d op : leaves_pending k op -> reserved k d -> reserved k (protocol_step d op).
Proof.
intros Hop (row & Hrow & Hst). unfold reserved.
destruct op as [k' h ttl now|l ttl now|l|k' o rh ttl now|k' o b v l now|k' lim w now|now]; cbn;
  [unfold acquire|unfold renew|unfold release|unfold reserve|unfold finish|unfold allow|unfold cleanup];
  run_eff; cbn in Hop; repeat case_match; simplify_eq/=; eauto;
  rewrite ?lookup_insert_ne by congruence; eauto.
exists row. split; [|done]. apply map_lookup_filter_Some_2; [done|naive_solver].
Qed.

Lemma reserved_run k d ops : Forall (leaves_pending k) ops -> reserved k d -> reserved k (protocol_run d ops).
Proof.
intros Hops. revert d. induction Hops as [|op ops Hop _ IH]; intros d Hd; [done|].
cbn. by apply IH, reserved_step.
Qed.

(** C3. An idempotency key is granted once: after a successful reservation,
  through any interleaving of calls that does not finish it (expiry and
  cleanup included, at any clock reading), nobody is granted the same key
  again, because a pending outcome is never deleted. *)
Theorem reserve_at_most_once k o rh ttl now d d1 ops o' rh' ttl' now' :
reserve k o rh ttl now d = (d1, Ok true) -> Forall (leaves_pending k) ops ->
let d2 := protocol_run d1 ops in
fst (reserve k o' rh' ttl' now' d2) = d2 /\ snd (reserve k o' rh' ttl' now' d2) ≠ Ok true.
Proof.
intros H1 Hops d2.
assert (reserved k d1) as H0.
{ revert H1. unfold reserve. run_eff. repeat case_match; intros; simplify_eq/=.
  eexists. cbn. by rewrite lookup_insert_eq. }
destruct (reserved_run k d1 ops Hops H0) as (row & Hrow & _). fold d2 in Hrow.
unfold reserve. run_eff. repeat case_match; simplify_eq/=; naive_solver.
Qed.
End Operations.

Lemma reserve_at_most_once_witness :
  snd (ProtocolRepository.reserve "op" "w2" "h" 5 100
    (protocol_run (fst (ProtocolRepository.reserve "op" "w1" "h" 5 0 empty_db)) [OpCleanup 50])) ≠ Ok true.
Proof.
  refine (proj2 (reserve_at_most_once "op" "w1" "h" 5 0 empty_db _ [OpCleanup 50] "w2" "h" 5 100 _ _));
    [vm_compute; reflexivity|].
  constructor; [exact I|constructor].
Defined.

(** ** Rate limits *)

Section RateLimit.
Import ProtocolRepository.

(** The calls of one window: every call names its key and its clock. *)
Fixpoint allow_calls (limit windowMs : Z) (calls : list (string * Z)) (d : Db) : Db * list (string * bool) :=
match calls with
| [] => (d, [])
| (k, now) :: rest =>
    let (d', r) := allow k limit windowMs now d in
    let (d'', out) := allow_calls limit windowMs rest d' in
    (d'', (k, match r with Ok b => b | Throw _ => false end) :: out)
end.

(** How many of the answers for [k] were positive. *)
Definition granted (k : string) (out : list (string * bool)) : Z :=
Z.of_nat (length (filter (fun '(k', b) => k' = k /\ b = true) out)).

(** How many of the calls are for [k]. *)
Definition asked (k : string) (calls : list (string * Z)) : Z :=
Z.of_nat (length (filter (fun '(k', _) => k' = k) calls)).

Lemma allow_other k k' limit w now d : k ≠ k' ->
rate_limits (fst (allow k' limit w now d)) !! k = rate_limits d !! k.
Proof.
intros Hk. unfold allow. run_eff. repeat case_match; simplify_eq/=; try done; by rewrite lookup_insert_ne.
Qed.

(** Arguments every call of the window passes its checks with. *)
Definition valid_call (limit windowMs endsAt : Z) (call : string * Z) : Prop :=
0 <= snd call < endsAt /\ snd call + windowMs <= MAX_SAFE_INTEGER.

(** One call in a live window is granted exactly while there is room. *)
Lemma allow_live k limit w now d row :
rate_limits d !! k = Some row -> identifier k = Ok tt -> integer limit = Ok tt -> limit ≠ 0 -> 0 < w ->
valid_call limit w (rr_expires_at row) (k, now) ->
exists d', allow k limit w now d = (d', Ok (rr_count row <? limit))
  /\ rate_limits d' !! k = Some (if rr_count row <? limit
       then mkRateRow (rr_window_start row) (rr_count row + 1) (rr_expires_at row) else row).
Proof.
intros Hrow Hk Hi H0 Hw [[? ?] ?]. cbn in *. unfold allow. run_eff.
rewrite Hk, Hi, (proj2 (expiry_Ok now w (now + w))) by lia.
rewrite (proj2 (Z.eqb_neq _ _)), Hrow, (proj2 (Z.leb_gt _ _)) by lia. cbn.
destruct (rr_count row <? limit); cbn; [|by eauto].
eexists. split; [done|]. apply lookup_insert_eq.
Qed.

Lemma granted_cons k k' b out :
granted k ((k', b) :: out) = (if bool_decide (k' = k) && b then 1 else 0) + granted k out.
Proof.
unfold granted. rewrite filter_cons.
destruct (decide (k' = k /\ b = true)) as [[-> ->]|Hn].
- rewrite bool_decide_eq_true_2 by done. cbn [length andb]. lia.
- destruct (bool_decide (k' = k)) eqn:E; cbn [andb]; [|lia].
  apply bool_decide_eq_true in E. destruct b; [naive_solver|lia].
Qed.

Lemma asked_cons k k' now calls :
asked k ((k', now) :: calls) = (if bool_decide (k' = k) then 1 else 0) + asked k calls.
Proof.
unfold asked. rewrite filter_cons. case_bool_decide as E; case_decide; try done; cbn [length]; lia.
Qed.

Lemma allow_window k limit w calls d row :
identifier k = Ok tt -> integer limit = Ok tt -> limit ≠ 0 -> 0 < w ->
rate_limits d !! k = Some row -> rr_count row <= limit ->
Forall (valid_call limit w (rr_expires_at row)) calls ->
granted k (snd (allow_calls limit w calls d)) = Z.min (limit - rr_count row) (asked k calls).
Proof.
intros Hk Hi H0 Hw. revert d row. induction calls as [|[k' now] calls IH]; intros d row Hrow Hc Hall;
  [change (0 = Z.min (limit - rr_count row) 0); lia|].
apply Forall_cons_1 in Hall as [Hnow Hall]. cbn -[allow asked]. rewrite asked_cons.
case_bool_decide as Ek.
- subst k'. destruct (allow_live k limit w now d row Hrow Hk Hi H0 Hw Hnow) as (d' & -> & Hd').
  destruct (allow_calls limit w calls d') as [d'' out] eqn:Eo. cbn [snd].
  rewrite granted_cons, bool_decide_eq_true_2 by done. cbn [andb].
  specialize (IH d'). rewrite Eo in IH. cbn [snd] in IH.
  destruct (Z.ltb_spec (rr_count row) limit) as [Hlt|Hge]; rewrite (IH _ Hd'); cbn [rr_count rr_expires_at];
    try done; try lia. unfold asked. lia.
- pose proof (allow_other k k' limit w now d ltac:(done)) as Ho.
  destruct (allow k' limit w now d) as [d' r]. cbn [fst] in Ho. rewrite <- Ho in Hrow.
  specialize (IH d' row Hrow Hc Hall). destruct (allow_calls limit w calls d') as [d'' out].
  cbn [snd] in *. rewrite granted_cons, bool_decide_eq_false_2 by done. cbn [andb]. lia.
Qed.

(** The limiter is exact: when a call opens a window for a key whose
  previous window is over, any sequence of later calls (mixed with calls on
  other keys) whose clock stays inside that window has exactly
  [min (limit - 1) n] of its [n] calls for the key admitted: never one more
  than the limit, and none refused while there is room. *)
Theorem rate_limit_exact k limit windowMs now d d1 calls :
(forall row, rate_limits d !! k = Some row -> rr_expires_at row <= now) ->
allow k limit windowMs now d = (d1, Ok true) ->
Forall (valid_call limit windowMs (now + windowMs)) calls ->
granted k (snd (allow_calls limit windowMs calls d1)) = Z.min (limit - 1) (asked k calls).
Proof.
intros Hexp Ha Hall. unfold allow in Ha. run_eff. revert Ha.
destruct (identifier k) as [[]|] eqn:Ek; [|done]. destruct (integer limit) as [[]|] eqn:El; [|done].
destruct (expiry now windowMs) as [u|] eqn:Eu; [|done]. apply expiry_Ok in Eu as (? & ? & -> & ?).
destruct (Z.eqb_spec limit 0) as [|Hl0]; [done|]. pose proof (proj1 (integer_Ok limit) El).
assert (forall d2, rate_limits d2 !! k = Some (mkRateRow now 1 (now + windowMs)) -> d1 = d2 ->
  granted k (snd (allow_calls limit windowMs calls d1)) = Z.min (limit - 1) (asked k calls)) as Hgo.
{ intros d2 Hd2 ->. rewrite (allow_window k limit windowMs calls d2 _ Ek El Hl0 ltac:(lia) Hd2); cbn; done || lia. }
destruct (rate_limits d !! k) as [row|] eqn:Er.
- rewrite (proj2 (Z.leb_le _ _)) by by apply Hexp. cbn. intros [= <-]. eapply Hgo; [|done].
  apply lookup_insert_eq.
- intros [= <-]. eapply Hgo; [|done]. apply lookup_insert_eq.
Qed.
End RateLimit.

Lemma rate_limit_exact_witness :
  granted "ip" (snd (allow_calls 2 100 [("ip", 10); ("other", 11); ("ip", 99)]
    (fst (ProtocolRepository.allow "ip" 2 100 5 empty_db)))) = 1.
Proof.
  rewrite (rate_limit_exact "ip" 2 100 5 empty_db);
    [reflexivity|intros row Hrow; discriminate Hrow|vm_compute; reflexivity|].
  repeat constructor; cbn; unfold MAX_SAFE_INTEGER; lia.
Defined.

(** ** The event log *)

Section Append.
Import IndexerRepository.

Definition cursor_sequence (d : Db) (m : string) (dom : Domain) : Z :=
match indexer_cursors d !! (m, dom) with Some row => cr_sequence row | None => 0 end.

(** What the reads of [append] establish when they let the batch go ahead. *)
Lemma append_read_go m dom sequence slot id now d d' c :
append_read m dom sequence slot id now d = (d', Ok (inr c)) ->
d' = d /\ indexed_events d !! id = None /\ c = indexer_cursors d !! (m, dom)
/\ sequence = cursor_sequence d m dom + 1 /\ 0 < sequence.
Proof.
unfold append_read, cursor, cursor_sequence. run_eff.
destruct (identifier m); [|done]. destruct (identifier id); [|done].
destruct (integer sequence) as [[]|] eqn:Ei; [|done]. destruct (integer slot); [|done].
destruct (integer now); [|done]. destruct (Z.eqb_spec sequence 0); [done|].
apply integer_Ok in Ei. case_bool_decide as Hn; [done|]. rewrite <- eq_None_not_Some in Hn.
destruct (Z.eqb_spec sequence
  (match indexer_cursors d !! (m, dom) with Some row => cr_sequence row | None => 0 end + 1)); cbn; [|done].
intros [= <- <-]. split_and!; [done..|lia].
Qed.

Lemma append_read_pure m dom sequence slot id now d : fst (append_read m dom sequence slot id now d) = d.
Proof. unfold append_read, cursor. run_eff. repeat case_match; simplify_eq/=; done. Qed.

(** The database after a batch that went through. *)
Definition appended (m : string) (dom : Domain) (sequence slot : Z) (id : string) (ev : json) (now : Z)
  (d : Db) : Db :=
on_indexer_cursors (insert (m, dom) (mkCursorRow sequence slot now))
  (on_indexed_events (insert id (mkEventRow m dom sequence ev now)) d).

Lemma append_outcome m dom sequence slot id ev now d :
let '(d', r) := append m dom sequence slot id ev now d in
match r with
| Ok iw_applied => indexed_events d !! id = None
    /\ sequence = cursor_sequence d m dom + 1 /\ d' = appended m dom sequence slot id ev now d
| Ok iw_duplicate => d' = d /\ is_Some (indexed_events d !! id)
| Ok (iw_gap expected) => d' = d /\ expected = cursor_sequence d m dom + 1 /\ sequence ≠ expected
| Throw _ => d' = d
end.
Proof.
unfold append. unfold mbind at 1, eff_bind at 1.
pose proof (append_read_pure m dom sequence slot id now d) as Hp.
destruct (append_read m dom sequence slot id now d) as [d1 [[w|c]|e]] eqn:Er; cbn in Hp; subst d1; [| |done].
- revert Er. unfold append_read, cursor, cursor_sequence. run_eff.
  repeat case_match; intros; simplify_eq/=; zbool; auto;
    match goal with Hb : bool_decide _ = true |- _ => by apply bool_decide_eq_true in Hb end.
- apply append_read_go in Er as (_ & Hn & -> & -> & _).
  unfold append_write, appended, cursor_sequence. run_eff.
  rewrite bool_decide_eq_false_2 by (rewrite Hn; by intros []).
  destruct (indexer_cursors d !! (m, dom)) as [row|] eqn:Ec.
  + rewrite Z.eqb_refl. done.
  + rewrite bool_decide_eq_false_2 by (by intros []). done.
Qed.

Lemma append_cursor m dom sequence slot id ev now d k :
k ≠ (m, dom) -> indexer_cursors (fst (append m dom sequence slot id ev now d)) !! k = indexer_cursors d !! k.
Proof.
intros Hk. pose proof (append_outcome m dom sequence slot id ev now d) as H.
destruct (append m dom sequence slot id ev now d) as [d' [[| |e]|e]]; cbn.
- destruct H as (_ & _ & ->). unfold appended. cbn. by rewrite lookup_insert_ne.
- by destruct H as [-> _].
- by destruct H as [-> _].
- by subst.
Qed.

(** An event is applied exactly when it is new and is the direct successor
  of its market's cursor; then the log holds it and the cursor moves to it.
  In every other case (duplicate, gap, invalid argument) nothing is written,
  and a reported gap names the sequence that was expected. *)
Theorem append_spec m dom sequence slot id ev now d :
let '(d', r) := append m dom sequence slot id ev now d in
match r with
| Ok iw_applied => indexed_events d !! id = None
    /\ sequence = cursor_sequence d m dom + 1 /\ d' = appended m dom sequence slot id ev now d
| Ok iw_duplicate => d' = d /\ is_Some (indexed_events d !! id)
| Ok (iw_gap expected) => d' = d /\ expected = cursor_sequence d m dom + 1 /\ sequence ≠ expected
| Throw _ => d' = d
end.
Proof. apply append_outcome. Qed.

(** Two workers that both read the same cursor cannot both apply: once
  one batch is in, the other one throws.  When the cursor row already
  existed, the loser's event row is nevertheless kept, so that delivering
  that event again is answered as a duplicate. *)
Theorem append_race m dom s1 slot1 id1 ev1 now1 s2 slot2 id2 ev2 now2 d c1 c2 d1 :
append_read m dom s1 slot1 id1 now1 d = (d, Ok (inr c1)) ->
append_read m dom s2 slot2 id2 now2 d = (d, Ok (inr c2)) ->
append_write m dom s1 slot1 id1 ev1 now1 c1 d = (d1, Ok iw_applied) ->
s1 = s2
/\ is_ok (snd (append_write m dom s2 slot2 id2 ev2 now2 c2 d1)) = false
/\ cursor_sequence (fst (append_write m dom s2 slot2 id2 ev2 now2 c2 d1)) m dom = s1
/\ (id1 ≠ id2 -> is_Some c2 ->
    let d2 := fst (append_write m dom s2 slot2 id2 ev2 now2 c2 d1) in
    append m dom s2 slot2 id2 ev2 now2 d2 = (d2, Ok iw_duplicate)).
Proof.
intros H1 H2 Hw. pose proof H2 as H2'.
apply append_read_go in H1 as (_ & Hn1 & -> & E1 & _). apply append_read_go in H2 as (_ & Hn2 & -> & E2 & _).
assert (d1 = appended m dom s1 slot1 id1 ev1 now1 d) as ->.
{ revert Hw. unfold append_write, appended. run_eff. repeat case_match; intros; simplify_eq/=; done. }
split; [congruence|].
assert (indexer_cursors (appended m dom s1 slot1 id1 ev1 now1 d) !! (m, dom) = Some (mkCursorRow s1 slot1 now1))
  as Hc by (cbn; apply lookup_insert_eq).
set (d1 := appended m dom s1 slot1 id1 ev1 now1 d) in *.
unfold append_write. run_eff. unfold cursor_sequence in *.
destruct (decide (is_Some (indexed_events d1 !! id2))) as [Hd|Hd].
{ rewrite bool_decide_eq_true_2 by done. cbn [fst snd is_ok]. rewrite Hc. split_and!; [done..|].
  intros Hid. exfalso. revert Hd. cbn. rewrite lookup_insert_ne by done. rewrite Hn2. by intros []. }
rewrite bool_decide_eq_false_2 by done. rewrite Hc.
destruct (indexer_cursors d !! (m, dom)) as [row|] eqn:Ec; cbn [cr_sequence].
- rewrite (proj2 (Z.eqb_neq s1 (cr_sequence row))) by lia. cbn [fst snd is_ok].
  split; [done|]. split; [by cbn in Hc |- *; rewrite Hc|]. intros _ _.
  unfold append, append_read in *. run_eff. revert H2'. cbn.
  destruct (identifier m); [|done]. destruct (identifier id2); [|done]. destruct (integer s2); [|done].
  destruct (integer slot2); [|done]. destruct (integer now2); [|done]. destruct (s2 =? 0); [done|]. intros _.
  rewrite bool_decide_eq_true_2; [done|]. cbn. by rewrite lookup_insert_eq.
- rewrite bool_decide_eq_true_2 by done. cbn [fst snd is_ok]. rewrite Hc. split_and!; [done..|].
  intros _ []. done.
Qed.
End Append.

Definition sample_log : Db :=
  fst (IndexerRepository.append "m" ER 1 7 "e1" JNull 100 empty_db).

Lemma append_race_witness :
  is_ok (snd (IndexerRepository.append_write "m" ER 2 9 "e3" JNull 100 (Some (mkCursorRow 1 7 100))
    (fst (IndexerRepository.append_write "m" ER 2 8 "e2" JNull 100 (Some (mkCursorRow 1 7 100)) sample_log)))) = false.
Proof.
  refine (proj1 (proj2 (append_race "m" ER 2 8 "e2" JNull 100 2 9 "e3" JNull 100 sample_log
    (Some (mkCursorRow 1 7 100)) (Some (mkCursorRow 1 7 100)) _ _ _ _))); vm_compute; reflexivity.
Defined.

(** ** The retry queue *)

Lemma retryDelay_bounds attempt :
  250 <= retryDelay_default attempt <= 30000.
Proof.
  unfold retryDelay_default, retryDelay.
  assert (2 ^ 0 <= 2 ^ Z.max 0 (attempt - 1)) by (apply Z.pow_le_mono_r; lia). lia.
Qed.

Lemma retryDelay_mono a b : a <= b -> retryDelay_default a <= retryDelay_default b.
Proof.
  intros. unfold retryDelay_default, retryDelay.
  assert (2 ^ Z.max 0 (a - 1) <= 2 ^ Z.max 0 (b - 1)) by (apply Z.pow_le_mono_r; lia). lia.
Qed.

Section DeadLetters.
Import DeadLetterRepository.

Lemma due_spec now limit d :
exists out, due now limit d = (d, Ok out)
/\ (forall id row, (id, row) ∈ out -> dead_letters d !! id = Some row /\ dl_next_attempt_at row <= now)
/\ (Z.of_nat (size (dead_letters d)) <= limit -> forall id row,
      dead_letters d !! id = Some row -> dl_next_attempt_at row <= now -> (id, row) ∈ out).
Proof.
unfold due. run_eff. eexists. split; [done|].
set (l := filter _ (map_to_list (dead_letters d))).
assert (forall id row, (id, row) ∈ merge_sort next_attempt_le l <->
  dead_letters d !! id = Some row /\ dl_next_attempt_at row <= now) as Hin.
{ intros id row. rewrite merge_sort_Permutation. unfold l. rewrite list_elem_of_filter, elem_of_map_to_list. tauto. }
split.
- intros id row Hi. apply Hin. eapply elem_of_sublist; [exact Hi|apply sublist_take].
- intros Hlim id row H1 H2. rewrite take_ge; [by apply Hin|].
  rewrite merge_sort_Permutation. unfold l.
  etransitivity; [apply length_filter|]. rewrite length_map_to_list. lia.
Qed.
Definition is_due (id : string) (now limit : Z) (d : Db) : Prop :=
exists out row, due now limit d = (d, Ok out) /\ (id, row) ∈ out.

Lemma is_due_sound id now limit d row :
dead_letters d !! id = Some row -> now < dl_next_attempt_at row -> ~ is_due id now limit d.
Proof.
intros Hrow Hlt (out & row' & Hdue & Hin). destruct (due_spec now limit d) as (out' & E & Hs & _).
rewrite E in Hdue. injection Hdue as ->. destruct (Hs id row' Hin). simplify_eq. lia.
Qed.

(** The retry queue: each recorded failure raises the attempt count by
  one and schedules the next attempt between 250 ms and 30 s later; the
  entry is offered by [due] from that moment on (when the limit covers the
  table) and never before; giving up hides it until the given time, and
  resolving it removes it for good. *)
Theorem dead_letter_schedule id op payload err now d d1 attempts next until :
record id op payload err now d = (d1, Ok (attempts, next)) ->
attempts = match dead_letters d !! id with Some row => dl_attempts row | None => 0 end + 1
/\ now + 250 <= next <= now + 30000
/\ (forall now' limit, now' < next -> ~ is_due id now' limit d1)
/\ (forall now' limit, next <= now' -> Z.of_nat (size (dead_letters d1)) <= limit -> is_due id now' limit d1)
/\ (forall now' limit, now' < until -> ~ is_due id now' limit (fst (giveUp id until d1)))
/\ (forall now' limit, ~ is_due id now' limit (fst (resolve id d1))).
Proof.
unfold record. run_eff. destruct (identifier id); [|done]. destruct (identifier op); [|done].
set (n := match dead_letters d !! id with Some row => dl_attempts row | None => 0 end + 1).
set (row1 := mkDeadLetterRow op payload err n (now + retryDelay_default n) _).
intros [= <- <- <-]. set (d1 := on_dead_letters (insert id row1) d).
assert (dead_letters d1 !! id = Some row1) as Hrow by apply lookup_insert_eq.
split; [done|]. split; [pose proof (retryDelay_bounds n); lia|]. split_and!.
- intros now' limit Hlt. by eapply is_due_sound.
- intros now' limit Hle Hsize. destruct (due_spec now' limit d1) as (out & E & _ & Hc).
  exists out, row1. split; [done|]. by apply Hc.
- intros now' limit Hlt. eapply is_due_sound; [cbn; rewrite lookup_alter_eq, lookup_insert_eq; done|done].
- intros now' limit (out & row' & Hdue & Hin).
  destruct (due_spec now' limit (fst (resolve id d1))) as (out' & E & Hs & _).
  rewrite E in Hdue. injection Hdue as ->. destruct (Hs id row' Hin) as [Hl _]. cbn in Hl.
  by rewrite lookup_delete_eq in Hl.
Qed.
End DeadLetters.

Lemma dead_letter_schedule_witness :
  ~ is_due "job" 1200 50 (fst (DeadLetterRepository.record "job" "commit" JNull "boom" 1000 empty_db)).
Proof.
  refine (proj1 (proj2 (proj2 (dead_letter_schedule "job" "commit" JNull "boom" 1000 empty_db _ 1 1250 0 _)))
    1200 50 _); [vm_compute; reflexivity|reflexivity].
Defined.
