(* ===== verification/V3Market.v ===== *)
(** * V3 market accounts

    workers/src/v3-market-state.ts: decoders of the sharded market (core, book
    pages, seat shards, event shards), the labelling of the two Patricia trees
    of each book side, the deterministic mark, and the aggregation of the 27
    accounts of a market into one view. *)

From stdpp Require Import sorting.
From S2P Require Import Prelude Bytes.

(** ** Layout *)

Definition V3_LAYOUT_VERSION : Z := 3.
Definition V3_CORE_SIZE : Z := 4096.
Definition V3_BOOK_PAGE_SIZE : Z := 10184.
Definition V3_SEAT_SHARD_SIZE : Z := 8236.
Definition V3_EVENT_RECORD_SIZE : Z := 100.
Definition V3_EVENT_SHARD_SIZE : Z := 3244.
Definition V3_BOOK_NODES_PER_PAGE : Z := 115.
Definition V3_BOOK_PAGES_PER_SIDE : Z := 9.
Definition V3_BOOK_SLOTS_PER_SIDE : Z := 1024.
Definition V3_SEATS_PER_SHARD : Z := 32.
Definition V3_EVENTS_PER_SHARD : Z := 32.
Definition V3_NODE_SIZE : Z := 88.
Definition V3_SEAT_SIZE : Z := 256.
Definition NONE_HANDLE : Z := 4294967295.

(** [DataView] reads at offsets the size check has put in range (see
    [uint_at_view]). *)
Definition uint_at (n : nat) (bs : list Z) (off : Z) : Z := le_combine (slice bs off (off + Z.of_nat n)).
Definition u16_at := uint_at 2.
Definition u32_at := uint_at 4.
Definition u64_at := uint_at 8.
Definition i32_at (bs : list Z) (off : Z) : Z := to_signed 32 (u32_at bs off).
Definition i64_at (bs : list Z) (off : Z) : Z := to_signed 64 (u64_at bs off).
Definition i128_at (bs : list Z) (off : Z) : Z :=
  let value := Z.lor (u64_at bs off) (Z.shiftl (u64_at bs (off + 8)) 64) in
  if Z.shiftl 1 127 <=? value then value - Z.shiftl 1 128 else value.

(** The 8 ASCII bytes of a discriminator.  A UTF-8 decoding of 8 bytes equals 8
    ASCII characters exactly when the bytes are those characters. *)
Definition STKMK003 : list Z := [83; 84; 75; 77; 75; 48; 48; 51].
Definition STKBK003 : list Z := [83; 84; 75; 66; 75; 48; 48; 51].
Definition STKST003 : list Z := [83; 84; 75; 83; 84; 48; 48; 51].
Definition STKEV003 : list Z := [83; 84; 75; 69; 86; 48; 48; 51].

Definition validVersion (bs : list Z) (discriminator : list Z) (size : Z) : bool :=
  (blen bs =? size) && bool_decide (slice bs 0 8 = discriminator)
  && (u16_at bs 8 =? V3_LAYOUT_VERSION).

(** ** Decoded data *)

Record V3CoreState := mkCore {
  instrument : string; marketAuthority : string; mode : Z; oracleValid : bool;
  lastVerifiedOraclePrice : Z; lastVerifiedOracleTimestamp : Z;
  oracleFeedId : Z; oracleChannel : Z; oracleExponent : Z;
  core_delegationStatus : Z; core_expectedCommitSequence : Z; core_lastCommittedSequence : Z;
  validator : string;
}.

Inductive Tree := tree_fixed | tree_pegged.

#[export] Instance tree_eq_dec : EqDecision Tree.
Proof. solve_decision. Defined.

(** The fields only a leaf has ([undefined] on an inner node). *)
Record V3Leaf := mkLeaf {
  side : Z; owner : Z; quantity : Z; expiresAt : Z; pegLimit : Z; clientOrderId : Z;
  priceOrOffset : Z; sequence : Z; timeInForce : Z; postOnly : bool; reduceOnly : bool;
}.

Record V3BookNodeState := mkNode {
  handle : Z; tag : Z; key : Z; leaf : option V3Leaf; tree : option Tree;
}.

Record V3BookPageState := mkPage {
  page_side : Z; page : Z; page_core : string; fixedRoot : Z; peggedRoot : Z;
  freeHead : Z; freeCount : Z; nodeCount : Z; nodeBytes : list Z; nodes : list V3BookNodeState;
}.

Record V3SeatPositionState := mkSeat {
  seat_shard : Z; slot : Z; trader : string; availableCollateral : Z; reservedMargin : Z;
  basePosition : Z; quoteEntryValue : Z; realizedPnl : Z; lastFundingAccumulator : Z;
  openBidExposure : Z; openAskExposure : Z; openOrderCount : Z; liquidationState : Z; seat_sequence : Z;
}.

Record V3SeatShardState := mkSeatShard {
  ss_shard : Z; ss_core : string; ss_seats : list Z; ss_positions : list V3SeatPositionState }.

Record V3EventRecord := mkEvent {
  ev_kind : Z; ev_sequence : Z; ev_timestamp : Z; ev_payload : list Z }.

Record V3EventShardState := mkEventShard {
  es_shard : Z; es_core : string; es_events : list Z; es_records : list (option V3EventRecord) }.

Inductive MarkSource := Index | BookMid | BookOneSided.
Record V3MarkQuote := mkQuote { price : Z; source : MarkSource }.

Record V3MarketAggregate := mkAggregate {
  asOfSlot : option Z; core : V3CoreState; bookPages : list V3BookPageState;
  seatShards : list V3SeatShardState; eventShards : list V3EventShardState;
  completeBook : bool; completeExecutionState : bool; withdrawalReady : bool;
  bids : list V3BookNodeState; asks : list V3BookNodeState;
  positions : list V3SeatPositionState; mark : option V3MarkQuote;
}.

(** [Array.from({ length: n }, (_, index) => f(index))] *)
Definition tabulate {A} (n : Z) (f : Z -> A) : list A := (fun i => f (Z.of_nat i)) <$> seq 0 (Z.to_nat n).

(** [.filter((x) => x !== null)] *)
Definition present {A} (l : list (option A)) : list A := omap id l.

Section Decoders.
(** Base58 rendering of a 32-byte key (@solana/kit). *)
Context (base58 : list Z -> string).

Definition address (bs : list Z) (off : Z) : string := base58 (slice bs off (off + 32)).

Definition decodeV3Core (bs : list Z) : option V3CoreState :=
if negb (validVersion bs STKMK003 V3_CORE_SIZE) || negb (byte_is bs 10 1) || negb (byte_is bs 371 2)
then None
else Some {|
  instrument := address bs 12; marketAuthority := address bs 44; mode := byte_or_0 bs 11;
  oracleValid := byte_is bs 180 1;
  lastVerifiedOraclePrice := i64_at bs 181; lastVerifiedOracleTimestamp := u64_at bs 189;
  oracleFeedId := u32_at bs 246; oracleChannel := byte_or_0 bs 250; oracleExponent := i32_at bs 251;
  core_delegationStatus := byte_or_0 bs 197; core_expectedCommitSequence := u64_at bs 198;
  core_lastCommittedSequence := u64_at bs 206; validator := address bs 214 |}.

Definition nodeKey (bs : list Z) : Z := Z.lor (Z.shiftl (u64_at bs 16) 64) (u64_at bs 8).

Definition decodeBookNode (bs : list Z) (h : Z) : option V3BookNodeState :=
if negb (blen bs =? V3_NODE_SIZE) then None else
let t := byte_or_0 bs 0 in
if negb (t =? 1) && negb (t =? 2) then None
else if t =? 1 then Some (mkNode h t (nodeKey bs) None None)
else Some (mkNode h t (nodeKey bs)
  (Some {| side := byte_or_0 bs 1; owner := u32_at bs 4; quantity := u64_at bs 24;
           expiresAt := u64_at bs 32; pegLimit := i64_at bs 40; clientOrderId := u64_at bs 48;
           priceOrOffset := i64_at bs 56; sequence := u64_at bs 64; timeInForce := byte_or_0 bs 2;
           postOnly := negb (Z.land (byte_or_0 bs 72) 1 =? 0);
           reduceOnly := negb (Z.land (byte_or_0 bs 72) 2 =? 0) |}) None).

Definition decodeV3BookPage (bs : list Z) : option V3BookPageState :=
if negb (validVersion bs STKBK003 V3_BOOK_PAGE_SIZE) || (1 <? byte_or_0 bs 10)
   || (V3_BOOK_PAGES_PER_SIDE <=? byte_or_0 bs 11)
then None else
let nodeCount := u32_at bs 60 in
let freeCount := u32_at bs 56 in
let limit := if byte_or_0 bs 11 =? 0 then V3_BOOK_SLOTS_PER_SIDE else V3_BOOK_NODES_PER_PAGE in
if (limit <? nodeCount) || (limit <? freeCount) then None else
let nodeBytes := slice bs 64 (blen bs) in
let nodes := present (tabulate V3_BOOK_NODES_PER_PAGE (fun index =>
  decodeBookNode (slice nodeBytes (index * V3_NODE_SIZE) ((index + 1) * V3_NODE_SIZE))
    (byte_or_0 bs 11 * V3_BOOK_NODES_PER_PAGE + index))) in
Some {| page_side := byte_or_0 bs 10; page := byte_or_0 bs 11; page_core := address bs 12;
        fixedRoot := u32_at bs 44; peggedRoot := u32_at bs 48; freeHead := u32_at bs 52;
        freeCount := freeCount; nodeCount := nodeCount; nodeBytes := nodeBytes; nodes := nodes |}.

Definition decodeSeat (bs : list Z) (shard index : Z) : option V3SeatPositionState :=
if negb (blen bs =? V3_SEAT_SIZE) || byte_is bs 0 0 then None
else Some {|
  seat_shard := shard; slot := index; trader := address bs 1;
  availableCollateral := i128_at bs 40; reservedMargin := i128_at bs 56; basePosition := i128_at bs 72;
  quoteEntryValue := i128_at bs 88; realizedPnl := i128_at bs 104; lastFundingAccumulator := i128_at bs 120;
  openBidExposure := i128_at bs 136; openAskExposure := i128_at bs 152; openOrderCount := u32_at bs 168;
  liquidationState := byte_or_0 bs 172; seat_sequence := u64_at bs 176 |}.

Definition decodeV3SeatShard (bs : list Z) : option V3SeatShardState :=
if negb (validVersion bs STKST003 V3_SEAT_SHARD_SIZE) || (4 <=? byte_or_0 bs 10) || negb (byte_is bs 11 0)
then None else
let seats := slice bs 44 (blen bs) in
let positions := present (tabulate V3_SEATS_PER_SHARD (fun index =>
  decodeSeat (slice seats (index * V3_SEAT_SIZE) ((index + 1) * V3_SEAT_SIZE)) (byte_or_0 bs 10) index)) in
Some {| ss_shard := byte_or_0 bs 10; ss_core := address bs 12; ss_seats := seats; ss_positions := positions |}.

Definition decodeV3EventRecord (bs : list Z) : option V3EventRecord :=
if negb (blen bs =? V3_EVENT_RECORD_SIZE) then None else
let kind := u16_at bs 0 in
if kind =? 0 then None
else Some (mkEvent kind (u64_at bs 4) (u64_at bs 44) (slice bs 52 (blen bs))).

Definition decodeV3EventShard (bs : list Z) : option V3EventShardState :=
if negb (validVersion bs STKEV003 V3_EVENT_SHARD_SIZE) || (4 <=? byte_or_0 bs 10) || negb (byte_is bs 11 0)
then None else
let events := slice bs 44 (blen bs) in
let records := tabulate V3_EVENTS_PER_SHARD (fun index =>
  decodeV3EventRecord (slice events (index * V3_EVENT_RECORD_SIZE) ((index + 1) * V3_EVENT_RECORD_SIZE))) in
Some {| es_shard := byte_or_0 bs 10; es_core := address bs 12; es_events := events; es_records := records |}.
End Decoders.

(** ** Labelling the trees

    The nodes are objects shared by the pages and by the handle index; the
    walk writes their [tree] field.  The store is the list of all nodes of all
    pages in order, an object is its position, and the index maps a handle to
    the object inserted last. *)

Abbreviation heap := (list V3BookNodeState).

Definition heap_of (pages : list V3BookPageState) : heap := pages ≫= nodes.

(** The positions of the nodes of one side, with their page's side. *)
Definition node_sides (pages : list V3BookPageState) : list Z :=
  pages ≫= (fun p => (fun _ => page_side p) <$> nodes p).

(** [for page of sidePages, for node of page.nodes: byHandle.set(node.handle, node)] *)
Definition byHandle (pages : list V3BookPageState) (s : Z) : gmap Z nat :=
  foldl (fun m '(ref, (sd, node)) => if sd =? s then <[handle node := ref]> m else m) ∅
    (zip (seq 0 (length (heap_of pages))) (zip (node_sides pages) (heap_of pages))).

Definition with_tree (t : Tree) (n : V3BookNodeState) : V3BookNodeState :=
  mkNode (handle n) (tag n) (key n) (leaf n) (Some t).

(** The raw bytes of an inner node, found through the page that holds it. *)
Definition node_source (sidePages : list V3BookPageState) (h : Z) : option (list Z) :=
  p ← list_find (fun candidate => page candidate = h / V3_BOOK_NODES_PER_PAGE) sidePages;
  let slot := h mod V3_BOOK_NODES_PER_PAGE in
  let raw := slice (nodeBytes (snd p)) (slot * V3_NODE_SIZE) ((slot + 1) * V3_NODE_SIZE) in
  if blen raw =? V3_NODE_SIZE then Some raw else None.

Record Walk := mkWalk { valid : bool; seen : gset Z; store : heap }.

Definition invalidate (w : Walk) : Walk := mkWalk false (seen w) (store w).

(** [node.tree && node.tree !== tree] *)
Definition label_conflict (t : Tree) (node : V3BookNodeState) : bool :=
  match tree node with Some t' => negb (bool_decide (t' = t)) | None => false end.

Section Walk.
Context (sidePages : list V3BookPageState) (index : gmap Z nat) (t : Tree).

(** [walk(handle)], with the recursion depth as fuel ([None]: out of fuel). *)
Fixpoint walk (fuel : nat) (h : Z) (w : Walk) : option Walk :=
match fuel with
| O => None
| S fuel =>
    if negb (valid w) || (h =? NONE_HANDLE) then Some w
    else if bool_decide (h ∈ seen w) then Some (invalidate w)
    else
      let w := mkWalk (valid w) ({[ h ]} ∪ seen w) (store w) in
      match index !! h ≫= (fun ref => pair ref <$> store w !! ref) with
      | None => Some (invalidate w)
      | Some (ref, node) =>
          if label_conflict t node then Some (invalidate w)
          else
            let w := mkWalk (valid w) (seen w) (<[ref := with_tree t node]> (store w)) in
            if negb (tag node =? 1) then Some w
            else
              match node_source sidePages h with
              | None => Some (invalidate w)
              | Some raw =>
                  w ← walk fuel (u32_at raw 24) w;
                  walk fuel (u32_at raw 28) w
              end
      end
end.
End Walk.

(** Enough fuel: a level of recursion that goes deeper has met a new handle of
    the index (see [walk_terminates]). *)
Definition walk_fuel (index : gmap Z nat) : nat := S (S (size index)).

(** One root of one side: [(ok, store)]. *)
Definition annotate_root (sidePages : list V3BookPageState) (index : gmap Z nat) (t : Tree) (root : Z)
    (st : heap) : bool * heap :=
  if negb (root =? NONE_HANDLE) && bool_decide (index !! root = None) then (false, st)
  else match walk sidePages index t (walk_fuel index) root (mkWalk true ∅ st) with
       | Some w => (valid w, store w)
       | None => (false, st)
       end.

Definition page_zero (sidePages : list V3BookPageState) : option V3BookPageState :=
  snd <$> list_find (fun p => page p = 0) sidePages.

Definition annotate_side (pages : list V3BookPageState) (s : Z) (st : heap) : bool * heap :=
  let sidePages := filter (fun p => page_side p = s) pages in
  let index := byHandle pages s in
  let rootFixed := match page_zero sidePages with Some p => fixedRoot p | None => NONE_HANDLE end in
  let rootPegged := match page_zero sidePages with Some p => peggedRoot p | None => NONE_HANDLE end in
  if negb (rootFixed =? NONE_HANDLE) && (rootFixed =? rootPegged) then (false, st)
  else
    let (ok, st) := annotate_root sidePages index tree_fixed rootFixed st in
    if negb ok then (false, st) else annotate_root sidePages index tree_pegged rootPegged st.

(** The labelled store is the effect of the call on the shared nodes. *)
Definition annotateBookTrees (pages : list V3BookPageState) : bool * heap :=
  let (ok, st) := annotate_side pages 0 (heap_of pages) in
  if negb ok then (false, st) else annotate_side pages 1 st.

(** ** The mark *)

Definition V3_DEFAULT_MAX_MARK_DEVIATION_BPS : Z := 500.

(** The price at which a leaf of a tree executes, [None] when it is skipped. *)
Definition leaf_price (oraclePrice : Z) (bid : bool) (t : Tree) (l : V3Leaf) : option Z :=
  match t with
  | tree_fixed => Some (priceOrOffset l)
  | tree_pegged =>
      if pegLimit l <=? 0 then None
      else
        let evaluated := oraclePrice + priceOrOffset l in
        if bid then (if evaluated <=? pegLimit l then Some evaluated else None)
        else (if pegLimit l <=? evaluated then Some evaluated else None)
  end.

Definition executable_price (oraclePrice : Z) (bid : bool) (now : Z) (n : V3BookNodeState) : option Z :=
  match leaf n, tree n with
  | Some l, Some t =>
      if negb (tag n =? 2) then None
      else if negb (eqb (side l =? 0) bid) || (quantity l =? 0) || (expiresAt l <=? now) then None
      else
        p ← leaf_price oraclePrice bid t l;
        if (p <=? 0) || (MAX_SAFE_INTEGER <? p) then None else Some (to_number p)
  | _, _ => None
  end.

Definition bestSide (oraclePrice : Z) (nodes : list V3BookNodeState) (now : Z) (bid : bool) : option Z :=
  foldl (fun best n =>
    match executable_price oraclePrice bid now n with
    | None => best
    | Some p => Some (match best with
                      | None => p
                      | Some b => if bid then Z.max b p else Z.min b p
                      end)
    end) None nodes.

(** [Math.min(Math.max(value, Math.max(1, oracle - deviation)), oracle + deviation)] *)
Definition clamp_mark (value oracle bps : Z) : Z :=
  let deviation := js_floor_div (js_mul oracle bps) 10000 in
  Z.min (Z.max value (Z.max 1 (js_sub oracle deviation))) (js_add oracle deviation).

Definition executableV3Mark (c : V3CoreState) (bids asks : list V3BookNodeState) (now : Z)
    : option V3MarkQuote :=
  if negb (mode c =? 1) && negb (mode c =? 2) && negb (mode c =? 3) then None
  else if negb (oracleValid c) || (lastVerifiedOraclePrice c <=? 0) then None
  else
    let oracle := to_number (lastVerifiedOraclePrice c) in
    let bid := bestSide (lastVerifiedOraclePrice c) (bids ++ asks) now true in
    let ask := bestSide (lastVerifiedOraclePrice c) (bids ++ asks) now false in
    let clamp v := clamp_mark v oracle V3_DEFAULT_MAX_MARK_DEVIATION_BPS in
    match bid, ask with
    | None, None => Some (mkQuote oracle Index)
    | Some b, Some a =>
        if b <? a then Some (mkQuote (clamp (js_floor_div (js_add b a) 2)) BookMid)
        else Some (mkQuote oracle Index)
    | Some v, None | None, Some v => Some (mkQuote (clamp v) BookOneSided)
    end.

(** ** Aggregation *)

(** [new Set(values).size === values.length] *)
Definition unique {A} `{Countable A} (values : list A) : bool :=
  Nat.eqb (size (list_to_set values : gset A)) (length values).

(** [Array.prototype.sort] with the key comparison: stable insertion sort. *)
Fixpoint insert_by_key (n : V3BookNodeState) (l : list V3BookNodeState) : list V3BookNodeState :=
  match l with
  | [] => [n]
  | m :: l' => if key n <=? key m then n :: l else m :: insert_by_key n l'
  end.
Definition sort_by_key (l : list V3BookNodeState) : list V3BookNodeState := foldr insert_by_key [] l.

Definition page_index (p : V3BookPageState) : Z := page_side p * V3_BOOK_PAGES_PER_SIDE + page p.

Definition leaf_side_is (s : Z) (n : V3BookNodeState) : Prop :=
  match leaf n with Some l => side l = s | None => False end.
#[export] Instance leaf_side_is_dec s n : Decision (leaf_side_is s n).
Proof. unfold leaf_side_is. destruct (leaf n); apply _. Defined.

(** The pages with their nodes replaced by the labelled objects. *)
Fixpoint relabel (pages : list V3BookPageState) (st : heap) : list V3BookPageState :=
  match pages with
  | [] => []
  | p :: rest =>
      mkPage (page_side p) (page p) (page_core p) (fixedRoot p) (peggedRoot p) (freeHead p) (freeCount p)
        (nodeCount p) (nodeBytes p) (take (length (nodes p)) st)
      :: relabel rest (drop (length (nodes p)) st)
  end.

Section Aggregate.
Context (base58 : list Z -> string).

Definition aggregateV3Market (coreBytes : list Z) (bookBytes seatBytes eventBytes : list (list Z))
  (coreAddress : string) (asOfSlot : option Z) (now : Z) : option V3MarketAggregate :=
core ← decodeV3Core base58 coreBytes;
bookPages ← mapM (decodeV3BookPage base58) bookBytes;
seatShards ← mapM (decodeV3SeatShard base58) seatBytes;
eventShards ← mapM (decodeV3EventShard base58) eventBytes;
if negb (forallb (fun p => bool_decide (page_core p = coreAddress)) bookPages
         && forallb (fun p => bool_decide (ss_core p = coreAddress)) seatShards
         && forallb (fun p => bool_decide (es_core p = coreAddress)) eventShards)
then None else
let uniqueBook := unique (page_index <$> bookPages) in
let uniqueSeats := unique (ss_shard <$> seatShards) in
let uniqueEvents := unique (es_shard <$> eventShards) in
let completeBook := (Z.of_nat (length bookPages) =? 2 * V3_BOOK_PAGES_PER_SIDE) && uniqueBook in
let completeExecutionState := completeBook && Nat.eqb (length seatShards) 4
  && Nat.eqb (length eventShards) 4 && uniqueSeats && uniqueEvents in
if negb uniqueBook || negb uniqueSeats || negb uniqueEvents then None else
let (ok, labelled) := annotateBookTrees bookPages in
if negb ok then None else
let leaves := filter (fun n => tag n = 2) labelled in
let bids := sort_by_key (filter (leaf_side_is 0) leaves) in
let asks := sort_by_key (filter (leaf_side_is 1) leaves) in
Some {| asOfSlot := asOfSlot; core := core; bookPages := relabel bookPages labelled;
        seatShards := seatShards; eventShards := eventShards;
        completeBook := completeBook; completeExecutionState := completeExecutionState;
        withdrawalReady := completeExecutionState && (core_delegationStatus core =? 3);
        bids := bids; asks := asks; positions := seatShards ≫= ss_positions;
        mark := executableV3Mark core bids asks now |}.

Record V3ShardAddresses := mkAddresses {
a_core : string; a_bookPages : list string; a_seatShards : list string; a_eventShards : list string }.

(** An account of an RPC answer: its owner and its decoded data. *)
Record RpcAccount := mkAccount { account_owner : string; account_data : option (list Z) }.

(** [multipleAccounts]: the context slot and one entry per requested key. *)
Definition MultipleAccounts := list string -> result (Z * list (option RpcAccount)).

Definition owned_data (programId : string) (a : option RpcAccount) : option (list Z) :=
match a with
| Some acc => if bool_decide (account_owner acc = programId) then account_data acc else None
| None => None
end.

Definition fetchAuthoritativeV3Market (programId : string) (multipleAccounts : MultipleAccounts)
  (a : V3ShardAddresses) (now : Z) : result (option V3MarketAggregate) :=
let bookPageCount := 2 * V3_BOOK_PAGES_PER_SIDE in
let requested := a_core a :: a_bookPages a ++ a_seatShards a ++ a_eventShards a in
if negb (Z.of_nat (length (a_bookPages a)) =? bookPageCount) || negb (Nat.eqb (length (a_seatShards a)) 4)
   || negb (Nat.eqb (length (a_eventShards a)) 4)
   || negb (Z.of_nat (size (list_to_set requested : gset string)) =? 1 + bookPageCount + 8)
then Ok None else
response ← multipleAccounts requested;
let '(slot, accounts) := response in
if negb (Nat.eqb (length accounts) (length requested)) then Ok None else
match mapM (owned_data programId) accounts with
| None => Ok None
| Some values =>
    Ok (aggregateV3Market (hd [] values) (take 18 (drop 1 values)) (take 4 (drop 19 values))
          (take 4 (drop 23 values)) (a_core a) (Some slot) now)
end.
End Aggregate.

(** ** Reads in range *)

Lemma uint_at_view n bs off :
  0 <= off -> off + Z.of_nat n <= blen bs -> view_unsigned bs off n = Ok (uint_at n bs off).
Proof.
  intros. unfold view_unsigned, uint_at. destruct (_ || _)%bool eqn:E; [|done].
  apply orb_true_iff in E. rewrite !Z.ltb_lt in E. lia.
Qed.

Lemma uint_at_bound n bs off : uint8array bs -> 0 <= uint_at n bs off < 2 ^ (Z.of_nat n * 8).
Proof.
  intros Hu. unfold uint_at. rewrite <- pow256_pow2.
  pose proof (le_combine_bound _ (slice_uint8array bs off (off + Z.of_nat n) Hu)) as Hb.
  assert (length (slice bs off (off + Z.of_nat n)) <= n)%nat
    by (unfold slice; rewrite length_take; lia).
  assert (256 ^ Z.of_nat (length (slice bs off (off + Z.of_nat n))) <= 256 ^ Z.of_nat n)
    by (apply Z.pow_le_mono_r; lia). lia.
Qed.

(** ** The walk *)

Section WalkProofs.
Context (sidePages : list V3BookPageState) (index : gmap Z nat) (t : Tree).

Abbreviation walk := (walk sidePages index t).

(** Handles the walk has not met yet. *)
Definition unmet (w : Walk) : nat := size (dom index ∖ seen w).

Lemma unmet_mono w w' : seen w ⊆ seen w' -> (unmet w' <= unmet w)%nat.
Proof. intros. unfold unmet. apply subseteq_size. set_solver. Qed.

Lemma unmet_visit w h : h ∈ dom index -> h ∉ seen w ->
(unmet (mkWalk (valid w) ({[h]} ∪ seen w) (store w)) < unmet w)%nat.
Proof. intros. unfold unmet. apply subset_size. cbn. set_solver. Qed.

Lemma walk_terminates fuel h w :
(unmet w < fuel)%nat -> exists w', walk fuel h w = Some w' /\ seen w ⊆ seen w'.
Proof.
revert h w. induction fuel as [|fuel IH]; intros h w Hf; [lia|]. cbn.
case_match; [by eauto|]. case_bool_decide as Hs; [by eauto|].
destruct (index !! h) as [ref|] eqn:Ei; cbn; [|eexists; split; [done|cbn; set_solver]].
destruct (store w !! ref) as [node|]; cbn; [|eexists; split; [done|cbn; set_solver]].
case_match; [eexists; split; [done|cbn; set_solver]|].
case_match; [eexists; split; [done|cbn; set_solver]|].
destruct (node_source sidePages h) as [raw|]; [|eexists; split; [done|cbn; set_solver]].
pose proof (unmet_visit w h (elem_of_dom_2 _ _ _ Ei) Hs) as Hu.
set (w1 := mkWalk _ _ _). assert (unmet w1 < fuel)%nat as Hu1 by (unfold unmet in *; cbn in *; lia).
destruct (IH (u32_at raw 24) w1 Hu1) as (w2 & -> & H12). cbn.
destruct (IH (u32_at raw 28) w2) as (w3 & -> & H23); [pose proof (unmet_mono _ _ H12); lia|].
exists w3. split; [done|]. cbn in *. set_solver.
Qed.

(** The children a stored node has in the raw bytes; [st] only matters up to
  labels. *)
Definition child (st : heap) (h c : Z) : Prop :=
exists ref node raw, index !! h = Some ref /\ st !! ref = Some node /\ tag node = 1
  /\ node_source sidePages h = Some raw /\ (c = u32_at raw 24 \/ c = u32_at raw 28) /\ c ≠ NONE_HANDLE.

(** Reachability from a handle (no handle is reachable from [NONE]). *)
Definition reachable (st : heap) (root h : Z) : Prop := root ≠ NONE_HANDLE /\ rtc (child st) root h.

Definition touched (w w' : Walk) (r : nat) : Prop :=
exists x, x ∈ seen w' ∖ seen w /\ index !! x = Some r.

(** The object [r], not owned by the other tree, got the label. *)
Definition relabelled (st st' : heap) (r : nat) : Prop :=
exists n, st !! r = Some n /\ (tree n = None \/ tree n = Some t) /\ st' !! r = Some (with_tree t n).

Definition same_shape (st st' : heap) : Prop := forall r, st' !! r = st !! r \/ relabelled st st' r.

Lemma relabelled_trans a b c r :
(b !! r = a !! r \/ relabelled a b r) -> (c !! r = b !! r \/ relabelled b c r) ->
relabelled a b r \/ relabelled b c r -> relabelled a c r.
Proof.
unfold relabelled. intros [E1|(n & E1 & H1 & E1')] [E2|(m & E2 & H2 & E2')] H; rewrite ?E1, ?E2 in *;
  [naive_solver|by eauto|by eauto|]. exists n. rewrite E1' in E2. simplify_eq. by eauto.
Qed.

Lemma same_shape_trans a b c : same_shape a b -> same_shape b c -> same_shape a c.
Proof.
intros Hab Hbc r. destruct (Hab r) as [E|Hr]; [|right; by eapply relabelled_trans; eauto].
destruct (Hbc r) as [E'|Hr]; [left; by rewrite E'|]. right. by eapply relabelled_trans; eauto.
Qed.

Lemma relabelled_insert st r n :
st !! r = Some n -> (tree n = None \/ tree n = Some t) -> relabelled st (<[r := with_tree t n]> st) r.
Proof. intros Hr Hn. exists n. by rewrite list_lookup_insert_eq by by eapply lookup_lt_Some. Qed.

Lemma child_shape st st' h c : same_shape st st' -> child st h c <-> child st' h c.
Proof.
intros Hs. split; intros (ref & n & raw & Hi & Hn & Ht & Hrest).
- destruct (Hs ref) as [E|(m & E & _ & E')]; [exists ref, n, raw; by rewrite E|].
  simplify_eq. exists ref, (with_tree t n), raw. by rewrite E'.
- destruct (Hs ref) as [E|(m & E & _ & E')]; [exists ref, n, raw; by rewrite <- E|].
  simplify_eq. exists ref, m, raw. done.
Qed.

(** What a walk that ends valid has done: it met [h] for the first time, every
  newly met handle is in the index and reachable from [h], all their children
  are met too, and exactly the objects of the newly met handles got the
  label. *)
Definition walk_post (h : Z) (w w' : Walk) : Prop :=
seen w ⊆ seen w'
/\ (h ≠ NONE_HANDLE -> h ∈ seen w' ∖ seen w)
/\ (forall x, x ∈ seen w' ∖ seen w -> x ∈ dom index /\ h ≠ NONE_HANDLE /\ rtc (child (store w)) h x
      /\ forall c, child (store w) x c -> c ∈ seen w')
/\ same_shape (store w) (store w')
/\ (forall r, touched w w' r -> relabelled (store w) (store w') r)
/\ (forall r, ~ touched w w' r -> store w' !! r = store w !! r).

Lemma walk_post_none w : walk_post NONE_HANDLE w w.
Proof.
split_and!; [done|done|set_solver|by left| |done].
intros r (x & Hx & _). set_solver.
Qed.

Lemma walk_valid fuel h w w' : walk fuel h w = Some w' -> valid w' = true -> valid w = true.
Proof.
destruct fuel as [|fuel]; [done|]. cbn. destruct (valid w) eqn:Ev; [done|]. cbn. intros [= <-]. by rewrite Ev.
Qed.
Lemma label_ok n : label_conflict t n = false -> tree n = None \/ tree n = Some t.
Proof. unfold label_conflict. case_match; [|auto]. case_bool_decide; subst; [auto|done]. Qed.

(** The node itself is met, before its children. *)
Lemma walk_post_visit h w ref node :
h ∉ seen w -> index !! h = Some ref -> store w !! ref = Some node -> label_conflict t node = false ->
let w1 := mkWalk (valid w) ({[ h ]} ∪ seen w) (<[ref := with_tree t node]> (store w)) in
(forall r, touched w w1 r -> relabelled (store w) (store w1) r)
/\ (forall r, ~ touched w w1 r -> store w1 !! r = store w !! r)
/\ same_shape (store w) (store w1).
Proof.
intros Hs Hi Hr Hl w1.
assert (forall r, touched w w1 r <-> r = ref) as Ht.
{ intros r. unfold touched. cbn. split.
  - intros (x & Hx & Hxr). assert (x = h) as -> by set_solver. congruence.
  - intros ->. exists h. split; [set_solver|done]. }
assert (relabelled (store w) (store w1) ref) as Hrel by (apply relabelled_insert; [done|by apply label_ok]).
assert (forall r, r ≠ ref -> store w1 !! r = store w !! r) as Hne
  by (intros r Hne; cbn; by rewrite list_lookup_insert_ne).
split_and!; [by intros r ->%Ht|intros r Hnt; apply Hne; by rewrite Ht in Hnt|].
intros r. destruct (decide (r = ref)) as [->|]; auto.
Qed.

Lemma walk_post_leaf h w ref node :
h ∉ seen w -> h ≠ NONE_HANDLE -> index !! h = Some ref -> store w !! ref = Some node ->
label_conflict t node = false -> tag node ≠ 1 ->
walk_post h w (mkWalk (valid w) ({[ h ]} ∪ seen w) (<[ref := with_tree t node]> (store w))).
Proof.
intros Hs Hn Hi Hr Hl Ht. destruct (walk_post_visit h w ref node Hs Hi Hr Hl) as (A1 & A2 & A3).
split_and!; [cbn; set_solver|cbn; set_solver| |done..].
intros x Hx. assert (x = h) as -> by (cbn in Hx; set_solver).
split_and!; [by eapply elem_of_dom_2|done|apply rtc_refl|].
intros c (r & n & raw & E1 & E2 & E3 & _). simplify_eq.
Qed.

Lemma walk_post_inner h w ref node raw w2 w3 :
h ∉ seen w -> h ≠ NONE_HANDLE -> index !! h = Some ref -> store w !! ref = Some node ->
label_conflict t node = false -> tag node = 1 -> node_source sidePages h = Some raw ->
walk_post (u32_at raw 24) (mkWalk (valid w) ({[ h ]} ∪ seen w) (<[ref := with_tree t node]> (store w))) w2 ->
walk_post (u32_at raw 28) w2 w3 -> walk_post h w w3.
Proof.
intros Hs Hn Hi Hr Hl Ht Hraw H2 H3.
destruct (walk_post_visit h w ref node Hs Hi Hr Hl) as (A1 & A2 & A3).
set (w1 := mkWalk _ _ _) in *.
assert (seen w1 = {[ h ]} ∪ seen w) as Es by done. clearbody w1.
destruct H2 as (B1 & B2 & B3 & B4 & B5 & B6). destruct H3 as (C1 & C2 & C3 & C4 & C5 & C6).
pose proof (same_shape_trans _ _ _ A3 B4) as AB.
assert (forall c, (c = u32_at raw 24 \/ c = u32_at raw 28) -> c ≠ NONE_HANDLE -> child (store w) h c) as Hch
  by (intros c Hc Hcn; exists ref, node, raw; done).
assert (forall b c x, same_shape (store w) b -> rtc (child b) c x -> rtc (child (store w)) c x) as Hrtc.
{ intros b c x Hab Hx. eapply rtc_subrel; [|exact Hx]. intros y z Hyz. by apply (child_shape (store w) b). }
assert (forall x, x ∈ seen w3 ∖ seen w -> x = h \/ x ∈ seen w2 ∖ seen w1 \/ x ∈ seen w3 ∖ seen w2) as Hsplit.
{ intros x Hx. destruct (decide (x ∈ seen w2)); [|set_solver]. destruct (decide (x ∈ seen w1)); set_solver. }
split_and!.
- set_solver.
- intros _. set_solver.
- intros x Hx. destruct (Hsplit x Hx) as [->|[Hx2|Hx3]].
  + split_and!; [by eapply elem_of_dom_2|done|apply rtc_refl|].
    intros c (r' & n' & raw' & E1 & E2 & E3 & E4 & Hc & Hcn). simplify_eq.
    destruct Hc as [->| ->]; [specialize (B2 Hcn)|specialize (C2 Hcn)]; set_solver.
  + destruct (B3 x Hx2) as (D1 & D2 & D3 & D4). split_and!; [done..| |].
    * eapply rtc_l; [apply Hch; [by left|done]|]. by apply (Hrtc (store w1)).
    * intros c Hc. apply (child_shape _ _ _ _ A3) in Hc. specialize (D4 c Hc). set_solver.
  + destruct (C3 x Hx3) as (D1 & D2 & D3 & D4). split_and!; [done..| |].
    * eapply rtc_l; [apply Hch; [by right|done]|]. by apply (Hrtc (store w2)).
    * intros c Hc. apply (child_shape _ _ _ _ AB) in Hc. by apply D4.
- by eapply same_shape_trans.
- intros r (x & Hx & Hxr). destruct (Hsplit x Hx) as [->|[Hx2|Hx3]].
  + eapply relabelled_trans; [apply AB|apply C4|]. left.
    eapply relabelled_trans; [apply A3|apply B4|]. left. apply A1. exists h. split; [set_solver|done].
  + eapply relabelled_trans; [apply AB|apply C4|]. left.
    eapply relabelled_trans; [apply A3|apply B4|]. right. apply B5. by exists x.
  + eapply relabelled_trans; [apply AB|apply C4|]. right. apply C5. by exists x.
- intros r Hnt. rewrite C6, B6, A2; [done|..]; intros (x & Hx & Hxr); apply Hnt; exists x; (split; [set_solver|done]).
Qed.

Lemma walk_correct fuel h w w' : walk fuel h w = Some w' -> valid w' = true -> walk_post h w w'.
Proof.
revert h w w'. induction fuel as [|fuel IH]; intros h w w' Hw Hv; [done|].
pose proof (walk_valid _ _ _ _ Hw Hv) as Hv0. cbn in Hw. rewrite Hv0 in Hw. cbn in Hw.
destruct (Z.eqb_spec h NONE_HANDLE) as [->|Hn]; [simplify_eq; apply walk_post_none|].
case_bool_decide as Hs; [by simplify_eq|].
destruct (index !! h) as [ref|] eqn:Ei; cbn in Hw; [|by simplify_eq].
destruct (store w !! ref) as [node|] eqn:En; cbn in Hw; [|by simplify_eq].
destruct (label_conflict t node) eqn:El; [by simplify_eq|].
destruct (Z.eqb_spec (tag node) 1) as [Et|Et]; cbn in Hw.
- destruct (node_source sidePages h) as [raw|] eqn:Er; [|by simplify_eq].
  apply bind_Some in Hw as (w2 & H2 & H3).
  pose proof (walk_valid _ _ _ _ H3 Hv) as Hv2.
  eapply walk_post_inner; [done..| |by apply (IH _ _ _ H3)].
  rewrite Hv0. by apply (IH _ _ _ H2).
- simplify_eq. rewrite <- Hv0 at 1. by eapply walk_post_leaf.
Qed.
End WalkProofs.

(** The recursive walk over untrusted book pages always terminates: for any
    pages, any index and any starting state, the fuel that [annotate_root] gives
    it (one more level than there are handles, plus one) is enough, because a
    cycle is refused at its second visit. *)
Theorem walk_total sidePages index t h w :
  exists w', walk sidePages index t (walk_fuel index) h w = Some w'.
Proof.
  destruct (walk_terminates sidePages index t (walk_fuel index) h w) as (w' & Hw & _); [|by exists w'].
  unfold walk_fuel, unmet. rewrite <- size_dom.
  assert (size (dom index ∖ seen w) <= size (dom index))%nat by (apply subseteq_size; set_solver). lia.
Qed.

Lemma annotate_root_spec sidePages index t root st st' :
  annotate_root sidePages index t root st = (true, st') ->
  exists S : gset Z,
    (forall x, x ∈ S <-> reachable sidePages index st root x)
    /\ (forall x r, x ∈ S -> index !! x = Some r -> relabelled t st st' r)
    /\ (forall r, ~ (exists x, x ∈ S /\ index !! x = Some r) -> st' !! r = st !! r)
    /\ same_shape t st st'.
Proof.
  unfold annotate_root. case_match; [done|].
  destruct (walk sidePages index t (walk_fuel index) root (mkWalk true ∅ st)) as [w|] eqn:Ew; [|done].
  intros [= Hv <-]. destruct (walk_correct _ _ _ _ _ _ _ Ew Hv) as (_ & A2 & A3 & A4 & A5 & A6).
  cbn in *. exists (seen w).
  assert (forall x, x ∈ seen w -> x ∈ seen w ∖ ∅) as Hd by set_solver.
  split_and!.
  - intros x. split.
    + intros (_ & Hr & Hx & _)%Hd%A3. done.
    + intros [Hn Hr]. assert (root ∈ seen w) as H0 by (specialize (A2 Hn); set_solver).
      assert (forall y c, y ∈ seen w -> child sidePages index st y c -> c ∈ seen w) as Hcl.
      { intros y c Hy. destruct (A3 y (Hd y Hy)) as (_ & _ & _ & Hc). apply Hc. }
      clear -Hr H0 Hcl. revert H0. induction Hr as [|x y z Hxy _ IH]; eauto.
  - intros x r Hx Hr. apply A5. exists x. split; [by apply Hd|done].
  - intros r Hr. apply A6. intros (x & Hx & Hxr). apply Hr. exists x. split; [set_solver|done].
  - done.
Qed.

Lemma reachable_shape sidePages index t st st' root h :
  same_shape t st st' -> reachable sidePages index st root h <-> reachable sidePages index st' root h.
Proof.
  intros Hs. unfold reachable. split; intros [Hn Hr]; (split; [done|]);
    (eapply rtc_subrel; [|exact Hr]); intros x y Hxy; by apply (child_shape sidePages index t st st' x y Hs).
Qed.

(** The root of a tree of a side. *)
Definition side_pages (pages : list V3BookPageState) (s : Z) : list V3BookPageState :=
  filter (fun p => page_side p = s) pages.
Definition side_root (pages : list V3BookPageState) (s : Z) (t : Tree) : Z :=
  match page_zero (side_pages pages s) with
  | Some p => match t with tree_fixed => fixedRoot p | tree_pegged => peggedRoot p end
  | None => NONE_HANDLE
  end.

(** A handle belongs to a tree of a side. *)
Definition in_tree (pages : list V3BookPageState) (s : Z) (t : Tree) (h : Z) : Prop :=
  reachable (side_pages pages s) (byHandle pages s) (heap_of pages) (side_root pages s t) h.

Definition side_reach (pages : list V3BookPageState) (s : Z) (st : heap) (t : Tree) : Z -> Prop :=
  reachable (side_pages pages s) (byHandle pages s) st (side_root pages s t).

Section Side.
Context (pages : list V3BookPageState) (s : Z).
Context (Hinj : forall x y r, byHandle pages s !! x = Some r -> byHandle pages s !! y = Some r -> x = y).

Lemma annotate_side_spec st st' :
(forall h r, byHandle pages s !! h = Some r -> exists n, st !! r = Some n /\ tree n = None) ->
annotate_side pages s st = (true, st') ->
(forall h r, byHandle pages s !! h = Some r -> exists n, st !! r = Some n /\
   ((side_reach pages s st tree_fixed h /\ ~ side_reach pages s st tree_pegged h /\ st' !! r = Some (with_tree tree_fixed n))
    \/ (side_reach pages s st tree_pegged h /\ ~ side_reach pages s st tree_fixed h /\ st' !! r = Some (with_tree tree_pegged n))
    \/ (~ side_reach pages s st tree_fixed h /\ ~ side_reach pages s st tree_pegged h /\ st' !! r = Some n)))
/\ (forall r, ~ (exists h, byHandle pages s !! h = Some r) -> st' !! r = st !! r).
Proof.
intros Hun. unfold annotate_side. fold (side_pages pages s).
change (match page_zero (side_pages pages s) with Some p => fixedRoot p | None => NONE_HANDLE end)
  with (side_root pages s tree_fixed).
change (match page_zero (side_pages pages s) with Some p => peggedRoot p | None => NONE_HANDLE end)
  with (side_root pages s tree_pegged).
case_match; [done|].
destruct (annotate_root (side_pages pages s) (byHandle pages s) tree_fixed (side_root pages s tree_fixed) st)
  as [[] st1] eqn:E1; [|done]. cbn [negb]. intros E2.
apply annotate_root_spec in E1 as (S1 & A1 & A2 & A3 & A4).
change (forall x, x ∈ S1 <-> side_reach pages s st tree_fixed x) in A1.
apply annotate_root_spec in E2 as (S2 & B1 & B2 & B3 & _).
assert (forall x, x ∈ S2 <-> side_reach pages s st tree_pegged x) as B1'.
{ intros x. rewrite B1. symmetry. by apply (reachable_shape _ _ tree_fixed). }
assert (forall (S : gset Z) h r, byHandle pages s !! h = Some r -> h ∉ S ->
          ~ exists x, x ∈ S /\ byHandle pages s !! x = Some r) as Hout.
{ intros S h r Hr Hh (x & Hx & Hxr). by rewrite (Hinj _ _ _ Hxr Hr) in Hx. }
split.
- intros h r Hr. destruct (Hun h r Hr) as (n & Hn & Ht). exists n. split; [done|].
  destruct (decide (h ∈ S1)) as [H1|H1], (decide (h ∈ S2)) as [H2|H2].
  + exfalso. destruct (A2 h r H1 Hr) as (m & _ & _ & Hm). destruct (B2 h r H2 Hr) as (m' & Hm' & Hl & _).
    rewrite Hm in Hm'. simplify_eq. cbn in Hl. naive_solver.
  + left. rewrite <- B1', <- A1. destruct (A2 h r H1 Hr) as (m & Hm & _ & E). simplify_eq.
    by rewrite (B3 r) by by eapply Hout.
  + right; left. rewrite <- B1', <- A1.
    destruct (B2 h r H2 Hr) as (m & Hm & _ & E). rewrite A3 in Hm by by eapply Hout. by simplify_eq.
  + right; right. rewrite <- A1, <- B1'.
    by rewrite (B3 r), (A3 r) by by eapply Hout.
- intros r Hr. rewrite B3, A3; [done|..]; intros (x & _ & Hx); apply Hr; by exists x.
Qed.
End Side.

(** What the handle index knows of an object. *)
Lemma byHandle_Some pages s h r :
  byHandle pages s !! h = Some r ->
  node_sides pages !! r = Some s /\ exists n, heap_of pages !! r = Some n /\ handle n = h.
Proof.
  unfold byHandle. set (l := zip (seq 0 _) _).
  assert (forall r sd n, (r, (sd, n)) ∈ l -> node_sides pages !! r = Some sd /\ heap_of pages !! r = Some n) as Hl.
  { intros r' sd n (i & Hi)%list_elem_of_lookup. unfold l in Hi.
    apply lookup_zip_with_Some in Hi as (a & b & [= <- <-] & Ha & Hb).
    apply lookup_zip_with_Some in Hb as (c & d & [= <- <-] & Hc & Hd).
    apply lookup_seq in Ha as [-> _]. done. }
  clearbody l. assert (forall m, (forall h r, m !! h = Some r ->
      node_sides pages !! r = Some s /\ exists n, heap_of pages !! r = Some n /\ handle n = h) ->
    foldl (fun (m : gmap Z nat) '(ref, (sd, node)) => if sd =? s then <[handle node := ref]> m else m) m l !! h = Some r ->
    node_sides pages !! r = Some s /\ exists n, heap_of pages !! r = Some n /\ handle n = h) as Hf.
  { induction l as [|[r' [sd n]] l IH]; intros m Hm; [by apply Hm|]. cbn. apply IH.
    { intros. apply Hl. by right. }
    intros h' r''. destruct (Z.eqb_spec sd s) as [->|]; [|by apply Hm].
    destruct (decide (handle n = h')) as [<-|]; [rewrite lookup_insert_eq; intros [= <-]|
      rewrite lookup_insert_ne by done; by apply Hm].
    destruct (Hl r' s n) as [? ?]; [by left|]. by eauto. }
  by apply Hf.
Qed.

Lemma byHandle_inj pages s x y r :
  byHandle pages s !! x = Some r -> byHandle pages s !! y = Some r -> x = y.
Proof. intros (_ & n & Hn & <-)%byHandle_Some (_ & m & Hm & <-)%byHandle_Some. by simplify_eq. Qed.

(** The outcome for one side, given that the store still holds that side's
    nodes unlabelled. *)
Lemma annotate_side_labels pages s st st' :
  (forall h r, byHandle pages s !! h = Some r -> exists n, heap_of pages !! r = Some n /\ st !! r = Some n /\ tree n = None) ->
  (forall h c, child (side_pages pages s) (byHandle pages s) st h c <->
               child (side_pages pages s) (byHandle pages s) (heap_of pages) h c) ->
  annotate_side pages s st = (true, st') ->
  forall h r, byHandle pages s !! h = Some r -> exists n, st' !! r = Some n /\ handle n = h
    /\ (forall t, tree n = Some t <-> in_tree pages s t h)
    /\ ~ (in_tree pages s tree_fixed h /\ in_tree pages s tree_pegged h).
Proof.
  intros Hst Hchild Ha h r Hr.
  assert (forall t h, side_reach pages s st t h <-> in_tree pages s t h) as Hin.
  { intros t h'. unfold in_tree, side_reach, reachable. split; intros [Hn Hc]; (split; [done|]);
      (eapply rtc_subrel; [|exact Hc]); intros ? ?; apply Hchild. }
  destruct (annotate_side_spec pages s (byHandle_inj pages s) st st') as [Hs _]; [|done|].
  { intros h' r' Hr'. destruct (Hst h' r' Hr') as (n & _ & ? & ?). by eauto. }
  destruct (Hs h r Hr) as (n & Hn & Hcases). destruct (Hst h r Hr) as (n' & Hn' & Hn'' & Ht). simplify_eq.
  destruct (byHandle_Some _ _ _ _ Hr) as (_ & m & Hm & Hh). simplify_eq.
  rewrite !Hin in Hcases.
  destruct Hcases as [(H1 & H2 & ->)|[(H1 & H2 & ->)|(H1 & H2 & ->)]]; eexists; (split; [done|]); (split; [done|]);
    (split; [|tauto]); intros []; cbn; rewrite ?Ht; naive_solver.
Qed.

(** C20. When the labelling of a market's book accepts its pages, every indexed
    node of either side carries the label of exactly the tree it is reachable
    in from that tree's root on page zero: labelled fixed (pegged) if and only
    if it is reachable from the fixed (pegged) root, unlabelled if and only if
    neither tree reaches it; and no node belongs to both trees. *)
Theorem annotate_labels_reachability pages st :
  Forall (fun n => tree n = None) (heap_of pages) ->
  annotateBookTrees pages = (true, st) ->
  forall s h r, (s = 0 \/ s = 1) -> byHandle pages s !! h = Some r ->
  exists n, st !! r = Some n /\ handle n = h
    /\ (forall t, tree n = Some t <-> in_tree pages s t h)
    /\ ~ (in_tree pages s tree_fixed h /\ in_tree pages s tree_pegged h).
Proof.
  intros Hun Ha s h r Hs Hr. unfold annotateBookTrees in Ha.
  destruct (annotate_side pages 0 (heap_of pages)) as [[] st1] eqn:E0; [|done]. cbn in Ha.
  assert (forall s h r, byHandle pages s !! h = Some r ->
    exists n, heap_of pages !! r = Some n /\ heap_of pages !! r = Some n /\ tree n = None) as Hheap.
  { intros s' h' r' (_ & n & Hn & _)%byHandle_Some. exists n. split_and!; [done..|].
    by eapply (Forall_lookup_1 _ _ _ _ Hun). }
  assert (forall x a b, byHandle pages 0 !! a = Some x -> byHandle pages 1 !! b = Some x -> False) as Hdisj.
  { intros x a b (E & _)%byHandle_Some (E' & _)%byHandle_Some. by simplify_eq. }
  destruct (annotate_side_spec pages 0 (byHandle_inj pages 0) _ _ ltac:(intros ? ? (n & ? & ? & ?)%Hheap; by eauto) E0)
    as [_ Hkeep0].
  assert (forall x a, byHandle pages 1 !! a = Some x -> st1 !! x = heap_of pages !! x) as Hst1.
  { intros x a Hx. apply Hkeep0. intros [b Hb]. by eapply Hdisj. }
  destruct Hs as [-> | ->].
  - destruct (annotate_side_labels pages 0 _ _ (Hheap 0) ltac:(done) E0 h r Hr) as (n & Hn & Hrest).
    exists n. split; [|done].
    destruct (annotate_side_spec pages 1 (byHandle_inj pages 1) st1 st) as [_ Hkeep]; [|done|].
    { intros h' r' Hr'. rewrite (Hst1 _ _ Hr'). destruct (Hheap _ _ _ Hr') as (m & ? & _ & ?). by eauto. }
    rewrite Hkeep; [done|]. intros [b Hb]. by eapply Hdisj.
  - eapply annotate_side_labels; [| |exact Ha|exact Hr].
    + intros h' r' Hr'. rewrite (Hst1 _ _ Hr'). by destruct (Hheap _ _ _ Hr') as (m & ? & _ & ?); eauto.
    + intros x c. unfold child. split; intros (ref & n & raw & Hi & Hn & Hx); exists ref, n, raw;
        rewrite (Hst1 _ _ Hi) in *; done.
Qed.

(** A bid side with a two-leaf fixed tree under an inner root and a one-leaf
    pegged tree. *)
Definition sample_leaf (q p peg : Z) : V3Leaf := mkLeaf 0 1 q 100 peg 0 p 0 0 false false.
Definition sample_pages : list V3BookPageState :=
  [mkPage 0 0 "core" 0 3 0 0 4 (replicate 24 0 ++ le_split 4 1 ++ le_split 4 2 ++ replicate 56 0)
     [mkNode 0 1 0 None None; mkNode 1 2 7 (Some (sample_leaf 5 990 0)) None;
      mkNode 2 2 8 (Some (sample_leaf 5 980 0)) None; mkNode 3 2 9 (Some (sample_leaf 5 (-5) 1000)) None]].

Lemma annotate_labels_reachability_witness :
  in_tree sample_pages 0 tree_fixed 2 /\ ~ in_tree sample_pages 0 tree_pegged 2.
Proof.
  destruct (annotate_labels_reachability sample_pages (snd (annotateBookTrees sample_pages))
    ltac:(repeat constructor) ltac:(vm_compute; reflexivity) 0 2 2 ltac:(left; reflexivity)
    ltac:(vm_compute; reflexivity)) as (n & Hn & _ & Hl & _).
  vm_compute in Hn. injection Hn as <-.
  split; [apply Hl; reflexivity|]. intros Hp. apply Hl in Hp. discriminate Hp.
Defined.

(** ** The mark *)

Definition executable_prices (o : Z) (nodes : list V3BookNodeState) (now : Z) (bid : bool) : list Z :=
  omap (executable_price o bid now) nodes.

(** [p] is the best price of a side: the highest bid or the lowest ask. *)
Definition best_price (bid : bool) (prices : list Z) (p : Z) : Prop :=
  p ∈ prices /\ forall p', p' ∈ prices -> if bid then p' <= p else p <= p'.

Lemma bestSide_spec o nodes now bid :
  match bestSide o nodes now bid with
  | Some p => best_price bid (executable_prices o nodes now bid) p
  | None => executable_prices o nodes now bid = []
  end.
Proof.
  unfold bestSide, executable_prices.
  assert (forall l acc prices,
    match acc with Some p => best_price bid prices p | None => prices = [] end ->
    match foldl (fun best n => match executable_price o bid now n with None => best
      | Some p => Some (match best with None => p | Some b => if bid then Z.max b p else Z.min b p end) end) acc l with
    | Some p => best_price bid (prices ++ omap (executable_price o bid now) l) p
    | None => prices ++ omap (executable_price o bid now) l = []
    end) as Hgen; [|by apply (Hgen nodes None [])].
  clear nodes. induction l as [|n l IH]; intros acc prices Hacc; cbn.
  { rewrite app_nil_r. by destruct acc. }
  destruct (executable_price o bid now n) as [p|]; [|by apply IH].
  rewrite (cons_middle p prices), app_assoc. apply IH. unfold best_price in *.
  destruct acc as [b|]; [|subst prices; cbn; split; [set_solver|]; intros p' Hp';
    apply list_elem_of_singleton in Hp'; subst; by destruct bid; lia].
  destruct Hacc as [Hb Hall]. destruct bid; (split;
    [rewrite elem_of_app, list_elem_of_singleton; (destruct (Z.max_spec b p) as [[? ->]|[? ->]] ||
       destruct (Z.min_spec b p) as [[? ->]|[? ->]]); auto|];
     intros p' [Hp'|Hp'%list_elem_of_singleton]%elem_of_app; [specialize (Hall p' Hp'); lia|subst; lia]).
Qed.

(** The clamp in exact arithmetic. *)
Lemma clamp_mark_exact v o bps :
  1 <= o -> 0 <= bps -> o * bps < 2 ^ 53 -> o + o * bps / 10000 < 2 ^ 53 ->
  clamp_mark v o bps = Z.min (Z.max v (Z.max 1 (o - o * bps / 10000))) (o + o * bps / 10000).
Proof.
  intros Ho Hb Hm Hs. unfold clamp_mark, js_mul, js_sub, js_add.
  assert (0 <= o * bps / 10000) by (apply Z.div_pos; nia).
  rewrite (to_number_small (o * bps)) by nia.
  rewrite js_floor_div_exact by nia. rewrite !to_number_small by nia. done.
Qed.

Lemma clamp_mark_bounds v o bps :
  1 <= o -> 0 <= bps -> o * bps < 2 ^ 53 -> o + o * bps / 10000 < 2 ^ 53 ->
  Z.max 1 (o - o * bps / 10000) <= clamp_mark v o bps <= o + o * bps / 10000.
Proof.
  intros Ho Hb Hm Hs. rewrite clamp_mark_exact by done.
  assert (0 <= o * bps / 10000) by (apply Z.div_pos; nia). lia.
Qed.

(** C22. The mark of a V3 market: whenever one is quoted, it is a positive price
    within five percent of the verified oracle price (exactly: at most
    floor(oracle * 500 / 10000) away); an index quote is the oracle price
    itself and happens only when no side is executable or the book is crossed;
    otherwise the quote is the clamp of the midpoint of the best executable bid
    and ask, or of the best price of the only executable side. *)
Theorem v3_mark_spec c bids asks now q :
  executableV3Mark c bids asks now = Some q ->
  lastVerifiedOraclePrice c * 500 < 2 ^ 53 ->
  let o := lastVerifiedOraclePrice c in
  let d := o * 500 / 10000 in
  let prices := executable_prices o (bids ++ asks) now in
  oracleValid c = true /\ Z.max 1 (o - d) <= price q <= o + d /\
  match source q with
  | Index => price q = o /\ ((prices true = [] /\ prices false = [])
      \/ exists b a, best_price true (prices true) b /\ best_price false (prices false) a /\ a <= b)
  | BookMid => exists b a, best_price true (prices true) b /\ best_price false (prices false) a /\ b < a
      /\ price q = Z.min (Z.max (js_floor_div (js_add b a) 2) (Z.max 1 (o - d))) (o + d)
  | BookOneSided => exists bid v, best_price bid (prices bid) v /\ prices (negb bid) = []
      /\ price q = Z.min (Z.max v (Z.max 1 (o - d))) (o + d)
  end.
Proof.
  intros Hq Hsmall. cbv zeta. revert Hq. unfold executableV3Mark. case_match; [done|]. case_match; [done|]. zbool.
  set (o := lastVerifiedOraclePrice c) in *. rewrite to_number_small by lia.
  assert (0 <= o * 500 / 10000 <= o) by (split; [apply Z.div_pos; lia|apply Z.div_le_upper_bound; lia]).
  assert (forall v, clamp_mark v o V3_DEFAULT_MAX_MARK_DEVIATION_BPS =
    Z.min (Z.max v (Z.max 1 (o - o * 500 / 10000))) (o + o * 500 / 10000)) as Hc
    by (intros v; apply clamp_mark_exact; unfold V3_DEFAULT_MAX_MARK_DEVIATION_BPS; lia).
  pose proof (bestSide_spec o (bids ++ asks) now true) as Hb.
  pose proof (bestSide_spec o (bids ++ asks) now false) as Ha.
  destruct (bestSide o (bids ++ asks) now true) as [b|], (bestSide o (bids ++ asks) now false) as [a|].
  - destruct (Z.ltb_spec b a); intros [= <-]; cbn; rewrite ?Hc; (split; [done|]); (split; [lia|]); eauto 8.
  - intros [= <-]. cbn. rewrite Hc. split; [done|]. split; [lia|]. exists true, b. done.
  - intros [= <-]. cbn. rewrite Hc. split; [done|]. split; [lia|]. exists false, a. done.
  - intros [= <-]. cbn. split; [done|]. split; [lia|]. auto.
Qed.

Definition sample_core_state : V3CoreState := mkCore "i" "a" 1 true 1000 0 1 1 (-8) 0 1 0 "v".

Lemma v3_mark_spec_witness :
  exists q, executableV3Mark sample_core_state (snd (annotateBookTrees sample_pages)) [] 50 = Some q
  /\ source q = BookOneSided /\ price q = 995 /\ Z.max 1 (1000 - 50) <= price q <= 1000 + 50.
Proof.
  exists (mkQuote 995 BookOneSided). split; [vm_compute; reflexivity|]. split; [reflexivity|].
  split; [reflexivity|].
  refine (proj1 (proj2 (v3_mark_spec sample_core_state (snd (annotateBookTrees sample_pages)) [] 50
    (mkQuote 995 BookOneSided) _ _))); vm_compute; reflexivity.
Defined.

(** ** Aggregation *)

Lemma unique_NoDup {A} `{Countable A} (l : list A) : unique l = true -> NoDup l.
Proof.
  unfold unique. rewrite Nat.eqb_eq.
  assert (forall l : list A, size (list_to_set l : gset A) <= length l)%nat as Hle.
  { induction l0 as [|x l0 IH]; cbn; [by rewrite size_empty|].
    rewrite size_union_alt, size_singleton.
    assert (size ((list_to_set l0 : gset A) ∖ {[x]}) <= size (list_to_set l0 : gset A))%nat
      by (apply subseteq_size; set_solver). lia. }
  induction l as [|x l IH]; cbn; [constructor|]. intros Hs.
  destruct (decide (x ∈ (list_to_set l : gset A))) as [Hx|Hx].
  - exfalso. rewrite subseteq_union_1_L in Hs by set_solver. pose proof (Hle l). lia.
  - rewrite size_union in Hs by set_solver. rewrite size_singleton in Hs.
    constructor; [by rewrite <- (elem_of_list_to_set (C := gset A))|apply IH; lia].
Qed.

(** Pigeonhole: distinct indices below their number are all of them. *)
Lemma NoDup_covers (l : list Z) (n : nat) :
  NoDup l -> length l = n -> (forall x, x ∈ l -> 0 <= x < Z.of_nat n) -> forall i, 0 <= i < Z.of_nat n -> i ∈ l.
Proof.
  intros Hnd Hlen Hin i Hi.
  assert (l ≡ₚ Z.of_nat <$> seq 0 n) as ->.
  - apply submseteq_length_Permutation; [|by rewrite length_fmap, length_seq, Hlen].
    apply NoDup_submseteq; [done|]. intros x Hx. specialize (Hin x Hx).
    apply list_elem_of_fmap. exists (Z.to_nat x). split; [lia|]. apply elem_of_seq. lia.
  - apply list_elem_of_fmap. exists (Z.to_nat i). split; [lia|]. apply elem_of_seq. lia.
Qed.

Lemma byte_or_0_bound bs i : uint8array bs -> 0 <= byte_or_0 bs i < 256.
Proof.
  intros Hu. unfold byte_or_0. destruct (byte_at bs i) as [b|] eqn:E; cbn; [|lia]. by apply (byte_at_is_byte bs i).
Qed.

Lemma decodeV3BookPage_range base58 bs p :
  uint8array bs -> decodeV3BookPage base58 bs = Some p ->
  (page_side p = 0 \/ page_side p = 1) /\ 0 <= page p < 9.
Proof.
  intros Hu. unfold decodeV3BookPage, V3_BOOK_PAGES_PER_SIDE. case_match eqn:E; [done|]. case_match; [done|].
  intros <-%(inj Some). cbn [page_side page]. zbool.
  pose proof (byte_or_0_bound bs 10 Hu). pose proof (byte_or_0_bound bs 11 Hu). lia.
Qed.

Lemma decodeBookNode_unlabelled bs h n : decodeBookNode bs h = Some n -> tree n = None.
Proof. unfold decodeBookNode. repeat case_match; intros; simplify_eq; done. Qed.

Lemma decodeV3BookPage_unlabelled base58 bs p :
  decodeV3BookPage base58 bs = Some p -> Forall (fun n => tree n = None) (nodes p).
Proof.
  unfold decodeV3BookPage. case_match; [done|]. case_match; [done|]. intros <-%(inj Some). cbn [nodes].
  apply list.Forall_forall. intros n (o & Ho & Hn)%list_elem_of_omap. cbn in Hn. subst o.
  unfold tabulate in Ho. apply list_elem_of_fmap in Ho as (i & Hi & _). by eapply decodeBookNode_unlabelled.
Qed.

Lemma insert_by_key_perm n l : insert_by_key n l ≡ₚ n :: l.
Proof.
  induction l as [|m l IH]; cbn; [done|]. case_match; [done|]. rewrite IH. apply Permutation_swap.
Qed.

Lemma sort_by_key_perm l : sort_by_key l ≡ₚ l.
Proof. induction l as [|n l IH]; cbn; [done|]. by rewrite insert_by_key_perm, IH. Qed.

Definition key_le (a b : V3BookNodeState) : Prop := key a <= key b.

Lemma insert_by_key_sorted n l : StronglySorted key_le l -> StronglySorted key_le (insert_by_key n l).
Proof.
  induction 1 as [|m l Hl IH Hm]; cbn; [repeat constructor|].
  destruct (Z.leb_spec (key n) (key m)); constructor; try done.
  - constructor; done.
  - constructor; [done|]. eapply Forall_impl; [|exact Hm]. unfold key_le in *. intros; lia.
  - rewrite insert_by_key_perm. constructor; [unfold key_le; lia|done].
Qed.

Lemma sort_by_key_sorted l : StronglySorted key_le (sort_by_key l).
Proof. induction l as [|n l IH]; cbn; [constructor|]. by apply insert_by_key_sorted. Qed.


(** An open core with a verified oracle price of 1000, and an empty first bid
    page. *)
Definition sample_core_bytes : list Z :=
  STKMK003 ++ [3; 0; 1; 1] ++ replicate 168 0 ++ [1] ++ le_split 8 1000 ++ replicate 182 0 ++ [2]
  ++ replicate 3724 0.
Definition sample_page_bytes : list Z :=
  STKBK003 ++ [3; 0; 0; 0] ++ replicate 32 0 ++ le_split 4 NONE_HANDLE ++ le_split 4 NONE_HANDLE
  ++ le_split 4 0 ++ le_split 4 115 ++ le_split 4 0 ++ replicate (Z.to_nat 10120) 0.

Definition sample_aggregate : option V3MarketAggregate :=
  aggregateV3Market (fun _ => "core") sample_core_bytes [sample_page_bytes] [] [] "core" (Some 7) 50.

