(* ===== verification/MarkPrice.v ===== *)
(** * The V2 market header and its executable mark

    workers/src/market-state.ts (the header decoder and the account reads every
    keeper defers to) and workers/src/mark-price.ts (the port of the program's
    mark price to raw account bytes). *)

From S2P Require Import Prelude Bytes V3Market.

(** ** market-state.ts *)

(** ["STKMRK01"] *)
Definition MARKET_DISCRIMINATOR : list Z := [83; 84; 75; 77; 82; 75; 48; 49].
Definition MARKET_VERSION : Z := 2.
Definition MARKET_HEADER_SIZE : Z := 512.
Definition MARKET_ACCOUNT_SIZE : Z := 512 + 90640 + 90640 + 128 * 256 + 64 * 128.

Module MarketMode.
Definition Paused : Z := 0.
Definition Open : Z := 1.
Definition CloseOnly : Z := 2.
Definition Emergency : Z := 3.
End MarketMode.

Record MarketState := mkMarketState {
  ms_mode : Z; ms_marketAuthority : string; ms_emergencyAuthority : string;
  ms_maintenanceMarginBps : Z; ms_makerFeeBps : Z; ms_takerFeeBps : Z; ms_maximumLeverage : Z;
  ms_currentOpenInterest : Z; ms_globalOrderSequence : Z; ms_globalEventSequence : Z;
  ms_fundingAccumulator : Z; ms_lastFundingTimestamp : Z; ms_oracleValid : bool;
  ms_lastVerifiedOraclePrice : Z; ms_lastVerifiedOracleTimestamp : Z;
}.

(** [view.getUint8(offset)] *)
Definition getUint8 (bs : list Z) (off : Z) : result Z := view_unsigned bs off 1.

Definition decodeMarketHeader (base58 : list Z -> string) (bs : list Z) : result (option MarketState) :=
  if blen bs <? MARKET_HEADER_SIZE then Ok None else
  version ← getUint16 bs 8;
  if negb (bool_decide (slice bs 0 8 = MARKET_DISCRIMINATOR)) || negb (version =? MARKET_VERSION)
  then Ok None else
  initialized ← getUint8 bs 10;
  if negb (initialized =? 1) then Ok None else
  mode ← getUint8 bs 11;
  maintenanceMarginBps ← getUint16 bs 194;
  makerFeeBps ← getUint16 bs 198;
  takerFeeBps ← getUint16 bs 200;
  maximumLeverage ← getUint32 bs 202;
  currentOpenInterest ← readI128 bs 238;
  globalOrderSequence ← getBigUint64 bs 254;
  globalEventSequence ← getBigUint64 bs 262;
  fundingAccumulator ← readI128 bs 270;
  lastFundingTimestamp ← getBigUint64 bs 286;
  oracleFlag ← getUint8 bs 294;
  lastVerifiedOraclePrice ← getBigInt64 bs 295;
  lastVerifiedOracleTimestamp ← getBigUint64 bs 303;
  Ok (Some {|
    ms_mode := mode;
    ms_marketAuthority := base58 (slice bs 12 44);
    ms_emergencyAuthority := base58 (slice bs 76 108);
    ms_maintenanceMarginBps := maintenanceMarginBps; ms_makerFeeBps := makerFeeBps;
    ms_takerFeeBps := takerFeeBps; ms_maximumLeverage := maximumLeverage;
    ms_currentOpenInterest := currentOpenInterest; ms_globalOrderSequence := globalOrderSequence;
    ms_globalEventSequence := globalEventSequence; ms_fundingAccumulator := fundingAccumulator;
    ms_lastFundingTimestamp := lastFundingTimestamp; ms_oracleValid := oracleFlag =? 1;
    ms_lastVerifiedOraclePrice := lastVerifiedOraclePrice;
    ms_lastVerifiedOracleTimestamp := lastVerifiedOracleTimestamp |}).

(** The RPC answer carries decoded account data (see [RpcAccount]). *)
Definition fetchAuthoritativeMarketAccountBytes (multipleAccounts : MultipleAccounts) (marketPda : string)
    : result (option (list Z)) :=
  answer ← multipleAccounts [marketPda];
  Ok (match snd answer with
      | Some account :: _ => account_data account
      | _ => None
      end).

Definition fetchAuthoritativeMarketState (base58 : list Z -> string) (multipleAccounts : MultipleAccounts)
    (marketPda : string) : result (option MarketState) :=
  bytes ← fetchAuthoritativeMarketAccountBytes multipleAccounts marketPda;
  match bytes with
  | Some bs => decodeMarketHeader base58 bs
  | None => Ok None
  end.

(** ** mark-price.ts *)

Definition DEFAULT_MAX_MARK_DEVIATION_BPS : Z := 500.
Definition BID_ARENA_OFFSET : Z := 512.
Definition ASK_ARENA_OFFSET : Z := BID_ARENA_OFFSET + 90640.
Definition ARENA_ROOTS_OFFSET : Z := 4.
Definition ARENA_NODES_OFFSET : Z := 528.
Definition ANY_NODE_SIZE : Z := 88.
Definition TAG_INNER : Z := 1.
Definition TAG_LEAF : Z := 2.
Definition NONE : Z := 4294967295.
Definition RESERVED_MAX_MARK_DEVIATION_BPS : Z := 327 + 156.

(** The operators [<<] and [|] work on signed 32-bit integers, and a byte past
    the end ([undefined]) counts as zero. *)
Definition readU32 (bs : list Z) (off : Z) : Z :=
  js_or (js_or (js_or (byte_or_0 bs off) (js_shl (byte_or_0 bs (off + 1)) 8))
               (js_shl (byte_or_0 bs (off + 2)) 16))
        (js_shl (byte_or_0 bs (off + 3)) 24).

Definition readI64 (bs : list Z) (off : Z) : result Z :=
  value ← read_loop bs off 8 0;
  let signBit := Z.shiftl 1 63 in
  Ok (to_number (if signBit <=? value then value - Z.shiftl signBit 1 else value)).

Definition readU64 (bs : list Z) (off : Z) : result Z := read_loop bs off 8 0.

Definition maxMarkDeviationBps (bs : list Z) : Z :=
  let raw := js_or (byte_or_0 bs RESERVED_MAX_MARK_DEVIATION_BPS)
                   (js_shl (byte_or_0 bs (RESERVED_MAX_MARK_DEVIATION_BPS + 1)) 8) in
  let signed := if 32768 <=? raw then raw - 65536 else raw in
  if signed <=? 0 then DEFAULT_MAX_MARK_DEVIATION_BPS else signed.

Record MarkLeaf := mkMarkLeaf {
  ml_side : option Z; ml_quantity : Z; ml_expiresAt : Z; ml_pegLimit : Z; ml_priceOrOffset : Z }.

(** The descent [while (handle !== NONE && depth < 2048)]; the depth bound is
    the loop's own. *)
Fixpoint bestLeaf_loop (depthLeft : nat) (bs : list Z) (nodes handle : Z) : result (option MarkLeaf) :=
  match depthLeft with
  | O => Ok None
  | S depthLeft =>
      if handle =? NONE then Ok None else
      let nodeBase := nodes + handle * ANY_NODE_SIZE in
      if byte_is bs nodeBase TAG_LEAF then
        quantity ← readU64 bs (nodeBase + 24);
        expiresAt ← readU64 bs (nodeBase + 32);
        pegLimit ← readI64 bs (nodeBase + 40);
        priceOrOffset ← readI64 bs (nodeBase + 56);
        Ok (Some (mkMarkLeaf (byte_at bs (nodeBase + 1)) (to_number quantity) expiresAt pegLimit priceOrOffset))
      else if byte_is bs nodeBase TAG_INNER then
        bestLeaf_loop depthLeft bs nodes (readU32 bs (nodeBase + 24))
      else Ok None
  end.

Definition bestLeaf (bs : list Z) (arenaOffset treeIndex : Z) : result (option MarkLeaf) :=
  bestLeaf_loop 2048 bs (arenaOffset + ARENA_NODES_OFFSET)
    (readU32 bs (arenaOffset + ARENA_ROOTS_OFFSET + treeIndex * 4)).

(** The executable price of one leaf of tree [treeIndex], [None] when skipped. *)
Definition mark_leaf_price (leaf : MarkLeaf) (treeIndex : Z) (sideBid : bool) (oracle now : Z) : option Z :=
  if (ml_quantity leaf =? 0) || (ml_expiresAt leaf <=? now) then None
  else if negb (eqb (bool_decide (ml_side leaf = Some 0)) sideBid) then None
  else
    let price :=
      if treeIndex =? 0 then Some (ml_priceOrOffset leaf)
      else
        let priceBig := js_add oracle (ml_priceOrOffset leaf) in
        if ml_pegLimit leaf <=? 0 then None
        else
          let permitted := if sideBid then priceBig <=? ml_pegLimit leaf else ml_pegLimit leaf <=? priceBig in
          if permitted then Some priceBig else None in
    match price with
    | Some p => if p <=? 0 then None else Some p
    | None => None
    end.

(** [best === null ? price : sideBid ? Math.max(best, price) : Math.min(best, price)] *)
Definition better (sideBid : bool) (best : option Z) (price : option Z) : option Z :=
  match price with
  | None => best
  | Some p => Some (match best with None => p | Some b => if sideBid then Z.max b p else Z.min b p end)
  end.

Definition TREES : list (Z * Z) :=
  [(BID_ARENA_OFFSET, 0); (BID_ARENA_OFFSET, 1); (ASK_ARENA_OFFSET, 0); (ASK_ARENA_OFFSET, 1)].

Fixpoint best_over (bs : list Z) (trees : list (Z * Z)) (sideBid : bool) (oracle now : Z) (best : option Z)
    : result (option Z) :=
  match trees with
  | [] => Ok best
  | (arenaOffset, treeIndex) :: rest =>
      leaf ← bestLeaf bs arenaOffset treeIndex;
      best_over bs rest sideBid oracle now
        (better sideBid best (l ← leaf; mark_leaf_price l treeIndex sideBid oracle now))
  end.

Definition bestExecutableSide (bs : list Z) (sideBid : bool) (oracle now : Z) : result (option Z) :=
  best_over bs TREES sideBid oracle now None.

Definition clampToIndex (mark index maxDeviationBps : Z) : Z :=
  let deviation := js_floor_div (js_mul index maxDeviationBps) 10000 in
  let lower := Z.max 1 (js_sub index deviation) in
  let upper := js_add index deviation in
  Z.min (Z.max mark lower) upper.

(** The quote once the best prices are known. *)
Definition quote_of (index maxDeviation : Z) (bestBid bestAsk : option Z) : V3MarkQuote :=
  match bestBid, bestAsk with
  | None, None => mkQuote index Index
  | Some b, Some a =>
      if b <? a then mkQuote (clampToIndex (js_floor_div (js_add b a) 2) index maxDeviation) BookMid
      else mkQuote index Index
  | Some v, None | None, Some v => mkQuote (clampToIndex v index maxDeviation) BookOneSided
  end.

Definition executableMark (bs : list Z) : result (option V3MarkQuote) :=
  if blen bs <? 512 then Ok None else
  version ← getUint16 bs 8;
  if negb (bool_decide (slice bs 0 8 = MARKET_DISCRIMINATOR)) || negb (version =? MARKET_VERSION)
  then Ok None else
  initialized ← getUint8 bs 10;
  if negb (initialized =? 1) then Ok None else
  let mode := byte_or_0 bs 11 in
  if negb (mode =? MarketMode.Open) && negb (mode =? MarketMode.CloseOnly) && negb (mode =? MarketMode.Emergency)
  then Ok None
  else if negb (byte_is bs 294 1) then Ok None else
  index ← readI64 bs 295;
  if index <=? 0 then Ok None else
  now ← readU64 bs 303;
  bestBid ← bestExecutableSide bs true index now;
  bestAsk ← bestExecutableSide bs false index now;
  Ok (Some (quote_of index (maxMarkDeviationBps bs) bestBid bestAsk)).

(** ** The header decoder *)

Lemma readI128_total bs off : 0 <= off -> off + 16 <= blen bs -> uint8array bs ->
  exists v, readI128 bs off = Ok v /\ - 2 ^ 127 <= v < 2 ^ 127.
Proof.
  intros H1 H2 Hu. rewrite readI128_view by done. rewrite (uint_at_view 16) by lia. cbn [fmap result_fmap].
  eexists. split; [done|]. apply (to_signed_range 128); [lia|]. by apply (uint_at_bound 16).
Qed.

(** Evaluates the in-range reads of a decoder one after the other. *)
Ltac read_fields :=
  repeat match goal with
  | |- context [view_unsigned ?bs ?off ?n] => rewrite (uint_at_view n bs off) by lia; cbn [mbind result_bind fmap result_fmap]
  end.

(** The header decoder is total on byte arrays: it never throws, whatever
    the account holds; and what it accepts is an initialized account of the
    right discriminator and version whose 16-, 32-, 64- and 128-bit fields are
    in range. *)
Theorem header_decoder_total base58 bs :
  uint8array bs ->
  exists r, decodeMarketHeader base58 bs = Ok r /\
  forall m, r = Some m ->
    512 <= blen bs /\ slice bs 0 8 = MARKET_DISCRIMINATOR
    /\ 0 <= ms_maintenanceMarginBps m < 2 ^ 16 /\ 0 <= ms_makerFeeBps m < 2 ^ 16
    /\ 0 <= ms_takerFeeBps m < 2 ^ 16 /\ 0 <= ms_maximumLeverage m < 2 ^ 32
    /\ - 2 ^ 127 <= ms_currentOpenInterest m < 2 ^ 127 /\ - 2 ^ 127 <= ms_fundingAccumulator m < 2 ^ 127
    /\ 0 <= ms_lastFundingTimestamp m < 2 ^ 64 /\ - 2 ^ 63 <= ms_lastVerifiedOraclePrice m < 2 ^ 63
    /\ (ms_oracleValid m = true <-> byte_at bs 294 = Some 1).
Proof.
  intros Hu. unfold decodeMarketHeader, getUint8, getUint16, getUint32, getBigUint64, getBigInt64, MARKET_HEADER_SIZE.
  destruct (Z.ltb_spec (blen bs) 512) as [|Hlen]; [by eexists|].
  destruct (readI128_total bs 238) as (oi & -> & Hoi); [lia..|done|].
  destruct (readI128_total bs 270) as (fa & -> & Hfa); [lia..|done|].
  read_fields. case_match eqn:Ed; [by eexists|]. case_match; [by eexists|].
  apply orb_false_iff in Ed as [Ed _]. apply negb_false_iff, bool_decide_eq_true in Ed.
  eexists. split; [done|]. intros m [= <-]. cbn -[Z.pow byte_at uint_at].
  pose proof (fun off => uint_at_bound 2 bs off Hu) as H16. pose proof (fun off => uint_at_bound 4 bs off Hu) as H32.
  pose proof (fun off => uint_at_bound 8 bs off Hu) as H64. cbn -[Z.pow uint_at] in H16, H32, H64.
  split; [done|]. split; [done|]. do 3 (split; [apply H16|]). split; [apply H32|].
  split; [done|]. split; [done|]. split; [apply H64|].
  split; [apply (to_signed_range 64); [lia|apply H64]|].
  rewrite Z.eqb_eq. unfold uint_at. rewrite byte_at_lookup by lia.
  destruct (lookup_lt_is_Some_2 bs (Z.to_nat 294)) as [b Hb]; [unfold blen in Hlen; lia|].
  assert (slice bs 294 (294 + Z.of_nat 1) = [b]) as ->.
  { unfold slice. change (Z.to_nat (294 + Z.of_nat 1 - 294)) with 1%nat.
    rewrite (drop_S _ _ _ Hb). done. }
  rewrite Hb. cbn. split; [intros; f_equal; lia|intros [= ->]; lia].
Qed.

Definition sample_header : list Z :=
  MARKET_DISCRIMINATOR ++ [2; 0; 1; 1] ++ replicate 282 0 ++ [1] ++ le_split 8 1000 ++ le_split 8 50 ++ replicate 201 0.

Lemma header_decoder_total_witness :
  exists m, decodeMarketHeader (fun _ => "a") sample_header = Ok (Some m) /\ 0 <= ms_makerFeeBps m < 2 ^ 16.
Proof.
  destruct (header_decoder_total (fun _ => "a") sample_header) as (r & Hr & Hm);
    [apply uint8array_check; vm_compute; reflexivity|].
  destruct r as [m|]; [|vm_compute in Hr; discriminate Hr].
  exists m. split; [exact Hr|]. exact (proj1 (proj2 (proj2 (proj2 (Hm m eq_refl))))).
Defined.

(** ** The mark *)

Lemma maxMarkDeviationBps_range bs : uint8array bs -> 1 <= maxMarkDeviationBps bs < 32768.
Proof.
  intros Hu. unfold maxMarkDeviationBps, DEFAULT_MAX_MARK_DEVIATION_BPS.
  pose proof (byte_or_0_bound bs RESERVED_MAX_MARK_DEVIATION_BPS Hu) as Ha.
  pose proof (byte_or_0_bound bs (RESERVED_MAX_MARK_DEVIATION_BPS + 1) Hu) as Hb.
  set (a := byte_or_0 bs RESERVED_MAX_MARK_DEVIATION_BPS) in *.
  set (b := byte_or_0 bs (RESERVED_MAX_MARK_DEVIATION_BPS + 1)) in *. clearbody a b.
  assert (js_or a (js_shl b 8) = 256 * b + a) as ->.
  { unfold js_or, js_shl. rewrite (to_int32_small b), (to_int32_small a) by lia.
    assert (Z.shiftl b 8 = 256 * b) as Es by (rewrite Z.shiftl_mul_pow2 by lia; lia).
    rewrite Es, !(to_int32_small (256 * b)) by lia.
    rewrite <- (shiftl_lor_byte b a) by (unfold is_byte; lia). rewrite Es, Z.lor_comm.
    rewrite <- Es, shiftl_lor_byte by (unfold is_byte; lia). apply to_int32_small. lia. }
  repeat case_match; zbool; lia.
Qed.

Lemma clampToIndex_clamp m i b : clampToIndex m i b = clamp_mark m i b.
Proof. done. Qed.

(** A quoted V2 mark is positive and at most floor(index * bps / 10000) away
    from the verified index price, where bps is the market's own limit (500 when
    the header leaves it unset); and a mark is quoted only for an initialized
    market of the right version whose mode is Open, CloseOnly or Emergency and
    whose oracle flag is set. *)
Theorem v2_mark_bounded bs q :
  uint8array bs -> executableMark bs = Ok (Some q) ->
  exists index, readI64 bs 295 = Ok index /\ 1 <= index
    /\ slice bs 0 8 = MARKET_DISCRIMINATOR /\ byte_at bs 294 = Some 1
    /\ 1 <= byte_or_0 bs 11 <= 3 /\ 1 <= maxMarkDeviationBps bs < 32768
    /\ (index * maxMarkDeviationBps bs < 2 ^ 52 ->
        let d := index * maxMarkDeviationBps bs / 10000 in
        Z.max 1 (index - d) <= price q <= index + d).
Proof.
  intros Hu. unfold executableMark. case_match eqn:El; [done|]. zbool.
  unfold getUint16, getUint8. read_fields. case_match eqn:Ed; [done|]. case_match; [done|].
  case_match eqn:Em; [done|]. case_match eqn:Eo; [done|].
  intros (index & Hi & H2)%result_bind_Ok. destruct (Z.leb_spec index 0); [done|].
  apply result_bind_Ok in H2 as (now & _ & H2). apply result_bind_Ok in H2 as (b & _ & H2).
  apply result_bind_Ok in H2 as (a & _ & [= <-]).
  apply orb_false_iff in Ed as [Ed _]. apply negb_false_iff, bool_decide_eq_true in Ed.
  apply negb_false_iff in Eo. unfold byte_is in Eo. apply bool_decide_eq_true in Eo.
  pose proof (maxMarkDeviationBps_range bs Hu) as Hbps. set (bps := maxMarkDeviationBps bs) in *.
  exists index. split; [done|]. split; [lia|]. split; [done|]. split; [done|].
  split. { unfold MarketMode.Open, MarketMode.CloseOnly, MarketMode.Emergency in Em.
    rewrite !andb_false_iff, !negb_false_iff, !Z.eqb_eq in Em. lia. }
  split; [done|]. intros Hsmall. set (d := index * bps / 10000).
  assert (0 <= d <= index * bps) by (unfold d; split; [apply Z.div_pos; nia|apply Z.div_le_upper_bound; nia]).
  assert (index < 2 ^ 52) by nia.
  assert (forall v, Z.max 1 (index - d) <= clampToIndex v index bps <= index + d) as Hc
    by (intros v; rewrite clampToIndex_clamp; apply clamp_mark_bounds; unfold d in *; lia).
  unfold quote_of. destruct a as [a|], b as [b|]; [case_match|..]; cbn; try apply Hc; lia.
Qed.

(** An account with a one-leaf fixed bid tree at 980, next to an index of 1000;
    the other three roots point at a node with no tag. *)
Definition sample_account : list Z :=
  sample_header ++ [0; 0; 0; 0] ++ le_split 4 0 ++ le_split 4 1 ++ replicate 516 0
  ++ [2; 0; 0; 0; 0; 0; 0; 0] ++ replicate 16 0 ++ le_split 8 5 ++ le_split 8 100 ++ le_split 8 0
  ++ le_split 8 0 ++ le_split 8 980 ++ le_split 8 0 ++ replicate 16 0.

Lemma v2_mark_bounded_witness :
  executableMark sample_account = Ok (Some (mkQuote 980 BookOneSided))
  /\ exists index, readI64 sample_account 295 = Ok index /\ 1 <= index.
Proof.
  assert (executableMark sample_account = Ok (Some (mkQuote 980 BookOneSided))) as E by (vm_compute; reflexivity).
  split; [exact E|].
  destruct (v2_mark_bounded sample_account (mkQuote 980 BookOneSided)) as (index & H1 & H2 & _);
    [apply uint8array_check; vm_compute; reflexivity|exact E|].
  exists index. split; [exact H1|exact H2].
Defined.

(** The descent stops at a leaf. *)
Lemma bestLeaf_loop_leaf n bs nodes h :
  uint8array bs -> h ≠ NONE -> byte_is bs (nodes + h * 88) TAG_LEAF = true ->
  0 <= nodes + h * 88 -> nodes + h * 88 + 64 <= blen bs ->
  exists leaf, bestLeaf_loop (S n) bs nodes h = Ok (Some leaf).
Proof.
  intros Hu Hh Hl H0 H1. cbn [bestLeaf_loop]. rewrite (proj2 (Z.eqb_neq _ _)) by done.
  unfold ANY_NODE_SIZE. rewrite Hl. unfold readU64, readI64.
  repeat match goal with
  | |- context [read_loop bs ?o 8 0] =>
      rewrite (read_loop_view bs o 8) by (done || lia); rewrite (uint_at_view 8 bs o) by lia;
      cbn [mbind result_bind fmap result_fmap]
  end. by eexists.
Qed.

(** An empty tree is not recognised as empty: the root written as the four
    bytes of [NONE] is read as the signed number -1, which differs from [NONE],
    so the descent starts at the 88 bytes before the node array; when these
    bytes begin with the leaf tag, the empty tree yields a leaf. *)
Theorem empty_root_reads_node_minus_one bs arena treeIndex :
  uint8array bs -> (treeIndex = 0 \/ treeIndex = 1) -> 88 <= arena -> arena + 640 <= blen bs ->
  slice bs (arena + 4 + treeIndex * 4) (arena + 4 + treeIndex * 4 + 4) = le_split 4 NONE ->
  bestLeaf bs arena treeIndex = bestLeaf_loop 2048 bs (arena + 528) (-1)
  /\ (byte_is bs (arena + 440) TAG_LEAF = true -> exists leaf, bestLeaf bs arena treeIndex = Ok (Some leaf)).
Proof.
  intros Hu Ht Ha Hlen Hroot. set (off := arena + 4 + treeIndex * 4) in *.
  assert (forall i, 0 <= i < 4 -> byte_or_0 bs (off + i) = 255) as Hbyte.
  { intros i Hi. unfold byte_or_0. rewrite byte_at_lookup by lia.
    assert (slice bs off (off + 4) !! Z.to_nat i = Some 255) as E.
    { rewrite Hroot. assert (i = 0 \/ i = 1 \/ i = 2 \/ i = 3) as [->|[->|[->| ->]]] by lia; reflexivity. }
    unfold slice in E. apply lookup_take_Some in E as [E _]. rewrite lookup_drop in E.
    replace (Z.to_nat (off + i)) with (Z.to_nat off + Z.to_nat i)%nat by lia. by rewrite E. }
  assert (readU32 bs off = -1) as E1.
  { unfold readU32. rewrite <- (Z.add_0_r off) at 1. by rewrite !Hbyte by lia. }
  assert (bestLeaf bs arena treeIndex = bestLeaf_loop 2048 bs (arena + 528) (-1)) as E
    by (unfold bestLeaf, ARENA_ROOTS_OFFSET; fold off; by rewrite E1).
  split; [done|]. intros Hleaf. rewrite E.
  apply (bestLeaf_loop_leaf 2047); [done|done|..]; replace (arena + 528 + -1 * 88) with (arena + 440) by lia;
    [done|lia|lia].
Qed.

(** Both roots of the bid arena are [NONE], and the free region before its
    nodes happens to start with byte 2. *)
Definition empty_book_account : list Z :=
  sample_header ++ [0; 0; 0; 0] ++ le_split 4 NONE ++ le_split 4 NONE ++ replicate 428 0
  ++ [2; 0; 0; 0; 0; 0; 0; 0] ++ replicate 16 0 ++ le_split 8 5 ++ le_split 8 100 ++ le_split 8 0
  ++ le_split 8 0 ++ le_split 8 980 ++ le_split 8 0 ++ replicate 128 0.

Lemma empty_root_reads_node_minus_one_witness :
  exists leaf, bestLeaf empty_book_account BID_ARENA_OFFSET 0 = Ok (Some leaf).
Proof.
  refine (proj2 (empty_root_reads_node_minus_one empty_book_account BID_ARENA_OFFSET 0 _ _ _ _ _) _).
  - apply uint8array_check. vm_compute. reflexivity.
  - left. reflexivity.
  - vm_compute. discriminate.
  - vm_compute. discriminate.
  - vm_compute. reflexivity.
  - vm_compute. reflexivity.
Defined.
