(* ===== verification/PrivateSessions.v ===== *)
(** * Private projections

    workers/src/private-sessions.ts: decoding a trader's seat out of a market
    account, checking who owns it, and the tokens that give a wallet access to
    its own projection. *)

From stdpp Require Import sorting.
From S2P Require Import Prelude Json Bytes ExecutionStatus Repositories V3Market.

Definition TRADER_SEAT_OFFSET : Z := 181792.
Definition TRADER_SEAT_SIZE : Z := 256.
Definition MAX_TRADER_SEATS : Z := 128.

Record TraderSeatProjection := mkProjection {
  tp_seatIndex : Z; tp_owner : string; tp_availableCollateral : Z; tp_reservedMargin : Z;
  tp_basePosition : Z; tp_quoteEntryValue : Z; tp_realizedPnl : Z; tp_lastFundingAccumulator : Z;
  tp_openBidExposure : Z; tp_openAskExposure : Z; tp_openOrderCount : Z; tp_liquidationState : Z;
  tp_sequence : Z;
}.

(** ** Base58 *)

(** ["123456789ABCDEFGHJKLMNPQRSTUVWXYZabcdefghijkmnopqrstuvwxyz"] *)
Definition BASE58_ALPHABET : string := "123456789ABCDEFGHJKLMNPQRSTUVWXYZabcdefghijkmnopqrstuvwxyz".

Definition alphabet_at (i : Z) : Ascii.ascii := default Ascii.zero (String.get (Z.to_nat i) BASE58_ALPHABET).

Fixpoint leading_zeros (bs : list Z) : nat :=
  match bs with
  | [] => 0
  | b :: rest => if b =? 0 then S (leading_zeros rest) else 0
  end.

(** [for (const byte of bytes) value = (value << 8n) | BigInt(byte)] *)
Definition be_value (bs : list Z) : Z := foldl (fun v b => Z.lor (Z.shiftl v 8) b) 0 bs.

(** [while (value > 0n)]: a division by 58 removes more than five bits, so that
    eight iterations per five bytes are enough; two per byte are given. *)
Fixpoint base58_digits (fuel : nat) (value : Z) (out : string) : string :=
  match fuel with
  | O => out
  | S fuel => if value <=? 0 then out
              else base58_digits fuel (value / 58) (String (alphabet_at (value mod 58)) out)
  end.

Fixpoint string_repeat (c : Ascii.ascii) (n : nat) : string :=
  match n with O => EmptyString | S n => String c (string_repeat c n) end.

Definition base58Encode (bs : list Z) : string :=
  string_repeat (alphabet_at 0) (leading_zeros bs) +:+ base58_digits (2 * length bs) (be_value bs) "".

(** ** Seats *)

(** A seat of a V2 market account, already known to be in range. *)
Definition decode_v2_seat (bs : list Z) (start seatIndex : Z) : result TraderSeatProjection :=
  availableCollateral ← readI128 bs (start + 40);
  reservedMargin ← readI128 bs (start + 56);
  basePosition ← readI128 bs (start + 72);
  quoteEntryValue ← readI128 bs (start + 88);
  realizedPnl ← readI128 bs (start + 104);
  lastFundingAccumulator ← readI128 bs (start + 120);
  openBidExposure ← readI128 bs (start + 136);
  openAskExposure ← readI128 bs (start + 152);
  openOrderCount ← getUint32 bs (start + 168);
  sequence ← getBigUint64 bs (start + 176);
  Ok {| tp_seatIndex := seatIndex; tp_owner := base58Encode (slice bs (start + 1) (start + 33));
        tp_availableCollateral := availableCollateral; tp_reservedMargin := reservedMargin;
        tp_basePosition := basePosition; tp_quoteEntryValue := quoteEntryValue; tp_realizedPnl := realizedPnl;
        tp_lastFundingAccumulator := lastFundingAccumulator; tp_openBidExposure := openBidExposure;
        tp_openAskExposure := openAskExposure; tp_openOrderCount := openOrderCount;
        tp_liquidationState := byte_or_0 bs (start + 172); tp_sequence := sequence |}.

(** [positions.find((position) => position.slot === seatIndex % 32)] *)
Definition find_slot (positions : list V3SeatPositionState) (seatIndex : Z) : option V3SeatPositionState :=
  snd <$> list_find (fun p => slot p = seatIndex mod 32) positions.

Section Seats.
(** @solana/kit's Base58 rendering of a key, used by the V3 decoders. *)
Context (base58 : list Z -> string).

Definition decodeTraderSeatProjection (marketBytes : list Z) (seatIndex : Z) : result (option TraderSeatProjection) :=
if (seatIndex <? 0) || (MAX_TRADER_SEATS <=? seatIndex) then Ok None
else if blen marketBytes =? 8236 then
  match decodeV3SeatShard base58 marketBytes with
  | None => Ok None
  | Some shard =>
      if negb (ss_shard shard =? seatIndex / 32) then Ok None
      else match find_slot (ss_positions shard) seatIndex with
           | None => Ok None
           | Some seat => Ok (Some {|
               tp_seatIndex := seatIndex; tp_owner := trader seat;
               tp_availableCollateral := availableCollateral seat; tp_reservedMargin := reservedMargin seat;
               tp_basePosition := basePosition seat; tp_quoteEntryValue := quoteEntryValue seat;
               tp_realizedPnl := realizedPnl seat; tp_lastFundingAccumulator := lastFundingAccumulator seat;
               tp_openBidExposure := openBidExposure seat; tp_openAskExposure := openAskExposure seat;
               tp_openOrderCount := openOrderCount seat; tp_liquidationState := liquidationState seat;
               tp_sequence := seat_sequence seat |})
           end
  end
else
  let start := TRADER_SEAT_OFFSET + seatIndex * TRADER_SEAT_SIZE in
  if blen marketBytes <? start + TRADER_SEAT_SIZE then Ok None
  else if negb (byte_is marketBytes start 1) then Ok None
  else Some <$> decode_v2_seat marketBytes start seatIndex.

(** [deriveSeatShardV3], a program address derived from the market and the
  shard number. *)
Context (deriveSeatShardV3 : string -> Z -> string).

Definition seatOwner (account : AccountReader) (marketPda : string) (seatIndex : Z) : result (option string) :=
if (seatIndex <? 0) || (MAX_TRADER_SEATS <=? seatIndex) then Ok None else
answer ← account marketPda;
match answer with
| None => Ok None
| Some bs =>
    match decodeV3Core base58 bs with
    | Some _ =>
        shardAnswer ← account (deriveSeatShardV3 marketPda (seatIndex / 32));
        Ok (shardBytes ← shardAnswer;
            shard ← decodeV3SeatShard base58 shardBytes;
            trader <$> find_slot (ss_positions shard) seatIndex)
    | None =>
        let start := TRADER_SEAT_OFFSET + seatIndex * TRADER_SEAT_SIZE in
        if blen bs <? start + TRADER_SEAT_SIZE then Ok None
        else if negb (byte_is bs start 1) then Ok None
        else Ok (Some (base58Encode (slice bs (start + 1) (start + 33))))
    end
end.
End Seats.

(** ** Tokens *)

Record PrivateSession := mkPrivateSession { session_wallet : string; session_market : string; session_seat : Z }.

Module PrivateSessionRepository.
Section Sessions.
(** [sha256Hex] of a token; the random token itself is an argument of [issue]. *)
Context (sha256Hex : string -> string).

Definition issue (token wallet marketPda : string) (seatIndex ttlMs now : Z) : eff Db (string * Z) :=
rows ← eff_gets private_sessions;
if bool_decide (is_Some (rows !! sha256Hex token))
then eff_throw "UNIQUE constraint failed: private_sessions.token_hash"
else
_ ← eff_modify (on_private_sessions (insert (sha256Hex token)
      (mkPrivateSessionRow wallet marketPda seatIndex now (now + ttlMs) None)));
mret (token, now + ttlMs).

Definition verify (token marketPda : string) (now : Z) : eff Db (option PrivateSession) :=
rows ← eff_gets private_sessions;
mret (match rows !! sha256Hex token with
    | None => None
    | Some row =>
        if bool_decide (ps_revoked_at row ≠ None) || (ps_expires_at row <=? now)
           || bool_decide (ps_market row ≠ marketPda)
        then None
        else Some (mkPrivateSession (ps_wallet row) (ps_market row) (ps_seat_index row))
    end).

Definition revoke (token : string) (now : Z) : eff Db unit :=
eff_modify (on_private_sessions (alter (fun row =>
if bool_decide (ps_revoked_at row = None)
then mkPrivateSessionRow (ps_wallet row) (ps_market row) (ps_seat_index row) (ps_created_at row)
       (ps_expires_at row) (Some now)
else row) (sha256Hex token))).
End Sessions.

Definition created_after (a b : string * PrivateSessionRow) : Prop :=
ps_created_at (snd b) <= ps_created_at (snd a).
#[export] Instance created_after_dec a b : Decision (created_after a b).
Proof. unfold created_after. apply _. Defined.

(** A live session for a seat. *)
Definition live_for (marketPda : string) (seatIndex now : Z) (row : PrivateSessionRow) : Prop :=
ps_market row = marketPda /\ ps_seat_index row = seatIndex /\ ps_revoked_at row = None /\ now < ps_expires_at row.
#[export] Instance live_for_dec m s n row : Decision (live_for m s n row).
Proof. unfold live_for. apply _. Defined.

Definition walletForSeat (marketPda : string) (seatIndex now : Z) : eff Db (option string) :=
rows ← eff_gets private_sessions;
mret ((fun r => ps_wallet (snd r)) <$> head (merge_sort created_after
  (filter (fun r => live_for marketPda seatIndex now (snd r)) (map_to_list rows)))).
End PrivateSessionRepository.

(** ** Events and projections *)

Definition SINGLE_SEAT_AT_OFFSET_ZERO : list Z :=
  [200; 201; 202; 205; 206; 207; 208; 209; 300; 301; 302; 303; 304; 305; 401; 402; 403; 404; 405; 406;
   700; 701; 702; 703; 704].
Definition FILL_DISCRIMINATORS : list Z := [203; 204].

(** The payload after base64 decoding. *)
Definition seatsAffectedByEvent (discriminator : Z) (payload : list Z) : result (list Z) :=
  if blen payload <? 8 then Ok [] else
  if bool_decide (discriminator ∈ FILL_DISCRIMINATORS) then
    maker ← getUint32 payload 0;
    taker ← getUint32 payload 4;
    Ok (filter (fun seat => seat ≠ 4294967295) [maker; taker])
  else if bool_decide (discriminator ∈ SINGLE_SEAT_AT_OFFSET_ZERO) then
    seat ← getUint16 payload 0;
    Ok (if seat =? 65535 then [] else [seat])
  else Ok [].

(** [publishSeatProjection]: the answer, and what the sink is told. *)
Definition publishSeatProjection (base58 : list Z -> string) (account : AccountReader) (marketPda : string)
    (seatIndex now : Z) : eff Db (bool * list (string * Z * TraderSeatProjection)) :=
  wallet ← PrivateSessionRepository.walletForSeat marketPda seatIndex now;
  match wallet with
  | None => mret (false, [])
  | Some w =>
      if bool_decide (w = "") then mret (false, []) else
      answer ← eff_lift (account marketPda);
      match answer with
      | None => mret (false, [])
      | Some bs =>
          projection ← eff_lift (decodeTraderSeatProjection base58 bs seatIndex);
          match projection with
          | None => mret (false, [])
          | Some p => mret (true, [(w, seatIndex, p)])
          end
      end
  end.

Definition issuePrivateProjectionToken (sha256Hex : string -> string) (base58 : list Z -> string)
    (deriveSeatShardV3 : string -> Z -> string) (account : AccountReader)
    (token wallet marketPda : string) (seatIndex ttlMs now : Z) : eff Db (string * Z) :=
  owner ← eff_lift (seatOwner base58 deriveSeatShardV3 account marketPda seatIndex);
  if bool_decide (owner = Some wallet)
  then PrivateSessionRepository.issue sha256Hex token wallet marketPda seatIndex ttlMs now
  else eff_throw "wallet does not own the requested trader seat".

(** ** Base58 is injective on keys of one length *)

Fixpoint alphabet_search (n : nat) (c : Ascii.ascii) : Z :=
  match n with
  | O => 0
  | S n => if bool_decide (alphabet_at (Z.of_nat n) = c) then Z.of_nat n else alphabet_search n c
  end.
Definition alphabet_index (c : Ascii.ascii) : Z := alphabet_search 58 c.

Fixpoint base58_decode (value : Z) (s : string) : Z :=
  match s with
  | EmptyString => value
  | String c s => base58_decode (value * 58 + alphabet_index c) s
  end.

Lemma alphabet_index_at i : 0 <= i < 58 -> alphabet_index (alphabet_at i) = i.
Proof.
  intros Hi. assert (forallb (fun n => alphabet_index (alphabet_at (Z.of_nat n)) =? Z.of_nat n) (seq 0 58) = true) as H
    by (vm_compute; reflexivity).
  rewrite forallb_forall in H. specialize (H (Z.to_nat i)).
  rewrite Z2Nat.id in H by lia. apply Z.eqb_eq, H, in_seq. lia.
Qed.

Lemma base58_digits_decode fuel value out :
  0 <= value < 58 ^ Z.of_nat fuel -> base58_decode 0 (base58_digits fuel value out) = base58_decode value out.
Proof.
  revert value out. induction fuel as [|fuel IH]; intros value out Hv.
  { cbn in *. by replace value with 0 by lia. }
  rewrite Nat2Z.inj_succ, Z.pow_succ_r in Hv by lia. cbn [base58_digits].
  destruct (Z.leb_spec value 0); [by replace value with 0 by lia|].
  rewrite IH by (split; [apply Z.div_pos; lia|apply Z.div_lt_upper_bound; lia]).
  cbn [base58_decode]. rewrite alphabet_index_at by (apply Z.mod_pos_bound; lia).
  f_equal. pose proof (Z.div_mod value 58 ltac:(lia)). lia.
Qed.

Lemma string_repeat_decode n s : base58_decode 0 (string_repeat (alphabet_at 0) n +:+ s) = base58_decode 0 s.
Proof.
  induction n as [|n IH]; [done|].
  change (base58_decode (0 * 58 + alphabet_index (alphabet_at 0)) (string_repeat (alphabet_at 0) n +:+ s)
          = base58_decode 0 s).
  by rewrite alphabet_index_at by lia.
Qed.

Lemma uint8array_reverse bs : uint8array bs -> uint8array (reverse bs).
Proof. unfold uint8array. by rewrite list.Forall_reverse. Qed.

Lemma be_value_le bs : uint8array bs -> be_value bs = le_combine (reverse bs).
Proof.
  induction bs as [|b bs IH] using rev_ind; [done|].
  intros [Hbs Hb]%Forall_app. apply Forall_cons_1 in Hb as [Hb _].
  unfold be_value. rewrite foldl_app. cbn [foldl]. fold (be_value bs). rewrite IH by done.
  rewrite reverse_app. change (reverse [b] ++ reverse bs) with (b :: reverse bs). cbn [le_combine].
  rewrite shiftl_lor_byte; [lia|done|]. by apply le_combine_bound, uint8array_reverse.
Qed.

(** The fuel of the digit loop covers the number. *)
Lemma base58_bound bs : uint8array bs -> 0 <= be_value bs < 58 ^ Z.of_nat (2 * length bs).
Proof.
  intros Hu. rewrite be_value_le by done.
  pose proof (uint8array_reverse _ Hu) as Hr.
  pose proof (le_combine_bound _ Hr) as [H1 H2]. rewrite length_reverse in H2. split; [done|].
  eapply Z.lt_le_trans; [exact H2|]. rewrite Nat2Z.inj_mul, Z.pow_mul_r by lia.
  apply Z.pow_le_mono_l. lia.
Qed.

Lemma base58Encode_decode bs : uint8array bs -> base58_decode 0 (base58Encode bs) = be_value bs.
Proof.
  intros Hu. unfold base58Encode. rewrite string_repeat_decode, base58_digits_decode; [done|].
  by apply base58_bound.
Qed.

Lemma base58Encode_inj a b :
  uint8array a -> uint8array b -> length a = length b -> base58Encode a = base58Encode b -> a = b.
Proof.
  intros Ha Hb Hl E. apply (f_equal (base58_decode 0)) in E. rewrite !base58Encode_decode in E by done.
  rewrite !be_value_le in E by done.
  pose proof (uint8array_reverse _ Ha) as Ha'.
  pose proof (uint8array_reverse _ Hb) as Hb'.
  apply (inj reverse). rewrite <- (le_split_combine _ Ha'), <- (le_split_combine _ Hb'), E.
  by rewrite !length_reverse, Hl.
Qed.

(** ** Token safety *)

Section Tokens.
Context (sha256Hex : string -> string) (base58 : list Z -> string) (deriveSeatShardV3 : string -> Z -> string).
Import PrivateSessionRepository.

(** A request that reaches the repository; an issuance carries the account
  reads it was answered with. *)
Inductive session_op :=
| OpIssue (account : AccountReader) (token wallet marketPda : string) (seatIndex ttlMs now : Z)
| OpRevoke (token : string) (now : Z).

Definition session_step (d : Db) (op : session_op) : Db :=
match op with
| OpIssue account token wallet m seat ttl now =>
    fst (issuePrivateProjectionToken sha256Hex base58 deriveSeatShardV3 account token wallet m seat ttl now d)
| OpRevoke token now => fst (revoke sha256Hex token now d)
end.

Definition session_run (d : Db) (ops : list session_op) : Db := foldl session_step d ops.

(** The issuance a stored row comes from: the seat's owner was read on chain and
  is the row's wallet. *)
Definition issued_by (h : string) (row : PrivateSessionRow) (op : session_op) : Prop :=
match op with
| OpIssue account token wallet m seat ttl now =>
    sha256Hex token = h /\ seatOwner base58 deriveSeatShardV3 account m seat = Ok (Some wallet)
    /\ ps_wallet row = wallet /\ ps_market row = m /\ ps_seat_index row = seat
    /\ ps_expires_at row = now + ttl
| OpRevoke _ _ => False
end.

Lemma issue_cases account token wallet m seat ttl now d :
fst (issuePrivateProjectionToken sha256Hex base58 deriveSeatShardV3 account token wallet m seat ttl now d) = d
\/ (private_sessions d !! sha256Hex token = None
    /\ seatOwner base58 deriveSeatShardV3 account m seat = Ok (Some wallet)
    /\ fst (issuePrivateProjectionToken sha256Hex base58 deriveSeatShardV3 account token wallet m seat ttl now d)
       = on_private_sessions (insert (sha256Hex token)
           (mkPrivateSessionRow wallet m seat now (now + ttl) None)) d).
Proof.
unfold issuePrivateProjectionToken, issue. run_eff.
destruct (seatOwner base58 deriveSeatShardV3 account m seat) as [owner|e]; [|by left].
case_bool_decide as Ho; [|by left]. subst owner. case_bool_decide as Hn; [by left|].
right. split; [by apply eq_None_not_Some|done].
Qed.

Lemma issued_by_revoked h row op now :
issued_by h row op -> issued_by h (mkPrivateSessionRow (ps_wallet row) (ps_market row) (ps_seat_index row)
  (ps_created_at row) (ps_expires_at row) (Some now)) op.
Proof. by destruct op. Qed.

(** Provenance of every row after a run that starts with no sessions. *)
Lemma provenance_run ops d :
private_sessions d = ∅ ->
forall h row, private_sessions (session_run d ops) !! h = Some row -> Exists (issued_by h row) ops.
Proof.
intros H0. induction ops as [|op ops IH] using rev_ind; intros h row.
{ unfold session_run. cbn. by rewrite H0, lookup_empty. }
unfold session_run. rewrite foldl_app. fold (session_run d ops). cbn [foldl session_step]. rewrite Exists_app.
destruct op as [account token wallet m seat ttl now|token now]; cbn [session_step].
- destruct (issue_cases account token wallet m seat ttl now (session_run d ops)) as [->|(Hn & Ho & ->)];
    [by left; apply IH|]. cbn.
  destruct (decide (sha256Hex token = h)) as [<-|]; [rewrite lookup_insert_eq|rewrite lookup_insert_ne by done; by left; apply IH].
  intros [= <-]. right. left. cbn. by rewrite Ho.
- cbn. destruct (decide (sha256Hex token = h)) as [<-|];
    [rewrite lookup_alter_eq|rewrite lookup_alter_ne by done; by left; apply IH].
  intros (row0 & Hrow0 & ->)%fmap_Some. left. specialize (IH _ _ Hrow0).
  case_bool_decide; [|done]. eapply Exists_impl; [|exact IH]. intros op. by apply issued_by_revoked.
Qed.

(** A row that is revoked stays revoked and present. *)
Lemma revoked_run h ops d :
(exists row, private_sessions d !! h = Some row /\ ps_revoked_at row ≠ None) ->
exists row, private_sessions (session_run d ops) !! h = Some row /\ ps_revoked_at row ≠ None.
Proof.
revert d. induction ops as [|op ops IH]; intros d (row & Hrow & Hr); [by exists row|]. cbn. apply IH.
destruct op as [account token wallet m seat ttl now|token now]; cbn [session_step].
- destruct (issue_cases account token wallet m seat ttl now d) as [->|(Hn & _ & ->)]; [by exists row|]. cbn.
  exists row. split; [|done]. rewrite lookup_insert_ne; [done|]. intros <-. congruence.
- cbn. destruct (decide (sha256Hex token = h)) as [<-|]; [|rewrite lookup_alter_ne by done; by exists row].
  rewrite lookup_alter_eq, Hrow. cbn. case_bool_decide; [done|]. by exists row.
Qed.

Lemma revoke_marks token now d row :
private_sessions d !! sha256Hex token = Some row ->
exists row', private_sessions (fst (revoke sha256Hex token now d)) !! sha256Hex token = Some row'
  /\ ps_revoked_at row' ≠ None.
Proof.
intros Hrow. change (private_sessions (fst (revoke sha256Hex token now d)))
  with (alter (fun row => if bool_decide (ps_revoked_at row = None)
    then mkPrivateSessionRow (ps_wallet row) (ps_market row) (ps_seat_index row) (ps_created_at row)
         (ps_expires_at row) (Some now)
    else row) (sha256Hex token) (private_sessions d)).
rewrite lookup_alter_eq, Hrow. cbn [fmap option_fmap option_map]. eexists. split; [done|].
case_bool_decide; done.
Qed.

(** What [verify] answers from the stored row. *)
Definition verdict (row : option PrivateSessionRow) (m : string) (now : Z) : option PrivateSession :=
match row with
| None => None
| Some row =>
    if bool_decide (ps_revoked_at row ≠ None) || (ps_expires_at row <=? now)
       || bool_decide (ps_market row ≠ m)
    then None else Some (mkPrivateSession (ps_wallet row) (ps_market row) (ps_seat_index row))
end.

Lemma verify_eq token m now d :
verify sha256Hex token m now d = (d, Ok (verdict (private_sessions d !! sha256Hex token) m now)).
Proof. reflexivity. Qed.

(** C23. A private-projection token is only as good as its issuance: from an
  empty table, after any sequence of issuances and revocations, a token that
  verifies for a market was issued for that very market, to a wallet that the
  chain named as the owner of the session's seat at that time, and has not
  expired; and a token that was stored when it was revoked never verifies
  again, whatever is issued afterwards. *)
Theorem private_token_safety d ops token m now s d' :
private_sessions d = ∅ -> verify sha256Hex token m now (session_run d ops) = (d', Ok (Some s)) ->
(session_market s = m /\ exists account t seat ttl at_,
   OpIssue account t (session_wallet s) m seat ttl at_ ∈ ops
   /\ sha256Hex t = sha256Hex token /\ seat = session_seat s /\ now < at_ + ttl
   /\ seatOwner base58 deriveSeatShardV3 account m seat = Ok (Some (session_wallet s)))
/\ (forall revokedAt later m' now', verify sha256Hex token m' now'
      (session_run (fst (revoke sha256Hex token revokedAt (session_run d ops))) later)
    = (session_run (fst (revoke sha256Hex token revokedAt (session_run d ops))) later, Ok None)).
Proof.
intros H0. rewrite verify_eq. set (d1 := session_run d ops). unfold verdict.
destruct (private_sessions d1 !! sha256Hex token) as [row|] eqn:Erow; [|done].
case_match eqn:Ec; [done|]. intros [= _ <-]. cbn [session_wallet session_market session_seat].
apply orb_false_iff in Ec as [[Hrev Hexp]%orb_false_iff Hm]. zbool.
apply bool_decide_eq_false, dec_stable in Hm. subst m. split.
- split; [done|]. pose proof (provenance_run ops d H0 _ _ Erow) as Hex. apply Exists_exists in Hex as (op & Hop & Hi).
  destruct op as [account t wallet m seat ttl at_|]; [|done].
  destruct Hi as (Hh & Ho & -> & -> & -> & Hx). exists account, t, seat, ttl, at_.
  rewrite Hx in Hexp. rewrite <- list_elem_of_In in Hop. split_and!; done.
- intros revokedAt later m' now'. set (d2 := fst (revoke sha256Hex token revokedAt d1)).
  rewrite verify_eq. destruct (revoked_run (sha256Hex token) later d2) as (row' & -> & Hr').
  { by eapply revoke_marks. }
  unfold verdict. by rewrite bool_decide_eq_true_2.
Qed.
End Tokens.

(** A V2 account whose seat 0 belongs to the key made of 32 bytes 7. *)
Definition sample_key : list Z := replicate 32 7.
Definition sample_market : list Z :=
  replicate (Z.to_nat TRADER_SEAT_OFFSET) 0 ++ [1] ++ sample_key ++ replicate 223 0.
Definition sample_reader : AccountReader := fun _ => Ok (Some sample_market).
Definition sample_wallet : string := base58Encode sample_key.
Definition sample_issue : session_op :=
  OpIssue sample_reader "tok" sample_wallet "m" 0 60000 1000.

Lemma private_token_safety_witness :
  snd (PrivateSessionRepository.verify (fun t => t) "tok" "m" 2000
    (session_run (fun t => t) (fun _ => "k") (fun m _ => m)
       (fst (PrivateSessionRepository.revoke (fun t => t) "tok" 1500
          (session_run (fun t => t) (fun _ => "k") (fun m _ => m) empty_db [sample_issue]))) [])) = Ok None.
Proof.
  pose proof (private_token_safety (fun t => t) (fun _ => "k") (fun m _ => m) empty_db [sample_issue]
    "tok" "m" 1400 (mkPrivateSession sample_wallet "m" 0)
    (session_run (fun t => t) (fun _ => "k") (fun m _ => m) empty_db [sample_issue]) eq_refl
    ltac:(vm_compute; reflexivity)) as [_ Hr].
  rewrite (Hr 1500 [] "m" 2000). reflexivity.
Defined.

(** A token for a seat of a V2 market is issued only when the 32 bytes of the
    seat's trader field are the caller's own key: for a wallet written as the
    Base58 form of a key, a successful issuance implies that very key is in the
    account, since the encoder maps distinct 32-byte keys to distinct strings. *)
Theorem issue_requires_owner_key sha base58 derive account token key m seat ttl now d d' out bs :
  account m = Ok (Some bs) -> decodeV3Core base58 bs = None -> uint8array bs ->
  uint8array key -> length key = 32%nat ->
  issuePrivateProjectionToken sha base58 derive account token (base58Encode key) m seat ttl now d = (d', Ok out) ->
  0 <= seat < 128
  /\ byte_at bs (TRADER_SEAT_OFFSET + seat * 256) = Some 1
  /\ slice bs (TRADER_SEAT_OFFSET + seat * 256 + 1) (TRADER_SEAT_OFFSET + seat * 256 + 33) = key.
Proof.
  intros Hacc Hcore Hu Hkey Hlen. unfold issuePrivateProjectionToken, seatOwner, MAX_TRADER_SEATS, TRADER_SEAT_SIZE. run_eff.
  rewrite Hacc. destruct ((seat <? 0) || (128 <=? seat)) eqn:Er; [done|]. cbn. rewrite Hcore. zbool.
  set (start := TRADER_SEAT_OFFSET + seat * 256).
  assert (0 <= start) by (unfold start, TRADER_SEAT_OFFSET; lia).
  destruct (Z.ltb_spec (blen bs) (start + 256)); [done|].
  destruct (byte_is bs start 1) eqn:Eb; [|done]. cbn. case_bool_decide as Ho; [|done]. injection Ho as Ho. intros _.
  split; [lia|]. split; [by apply bool_decide_eq_true in Eb|].
  apply base58Encode_inj; [by apply slice_uint8array|done| |done].
  rewrite slice_length by lia. lia.
Qed.

Lemma issue_requires_owner_key_witness :
  slice sample_market (TRADER_SEAT_OFFSET + 0 * 256 + 1) (TRADER_SEAT_OFFSET + 0 * 256 + 33) = sample_key.
Proof.
  refine (proj2 (proj2 (issue_requires_owner_key (fun t => t) (fun _ => "k") (fun m _ => m) sample_reader "tok" sample_key
    "m" 0 60000 1000 empty_db
    (fst (issuePrivateProjectionToken (fun t => t) (fun _ => "k") (fun m _ => m) sample_reader "tok" sample_wallet
       "m" 0 60000 1000 empty_db)) ("tok", 61000) sample_market eq_refl _ _ _ eq_refl _))).
  - vm_compute. reflexivity.
  - apply uint8array_check. vm_compute. reflexivity.
  - apply uint8array_check. reflexivity.
  - vm_compute. reflexivity.
Defined.

(** No projection is ever published for a V3 market: the account read under
    the market's address is the 4,096-byte core, which is neither a seat shard
    nor long enough for the V2 seat region, so that the update is dropped even
    when a live session and an occupied seat exist. *)
Theorem v3_projection_never_published base58 account m seat now d core_bytes c :
  account m = Ok (Some core_bytes) -> decodeV3Core base58 core_bytes = Some c ->
  publishSeatProjection base58 account m seat now d = (d, Ok (false, [])).
Proof.
  intros Hacc Hcore.
  assert (blen core_bytes = 4096) as Hlen.
  { revert Hcore. unfold decodeV3Core, validVersion, V3_CORE_SIZE. destruct (Z.eqb_spec (blen core_bytes) 4096); done. }
  unfold publishSeatProjection, PrivateSessionRepository.walletForSeat. run_eff.
  destruct (_ <$> _) as [w|]; [|done]. cbn. case_bool_decide; [done|]. rewrite Hacc.
  unfold decodeTraderSeatProjection, TRADER_SEAT_OFFSET, TRADER_SEAT_SIZE. rewrite Hlen.
  destruct ((seat <? 0) || (MAX_TRADER_SEATS <=? seat)) eqn:Er; [done|]. zbool.
  change (4096 =? 8236) with false. cbv iota.
  by rewrite (proj2 (Z.ltb_lt _ _)) by lia.
Qed.

Lemma v3_projection_never_published_witness :
  publishSeatProjection (fun _ => "k") (fun _ => Ok (Some sample_core_bytes)) "m" 3 2000
    (on_private_sessions (insert "h" (mkPrivateSessionRow "w" "m" 3 0 90000 None)) empty_db)
  = (on_private_sessions (insert "h" (mkPrivateSessionRow "w" "m" 3 0 90000 None)) empty_db, Ok (false, [])).
Proof.
  destruct (decodeV3Core (fun _ => "k") sample_core_bytes) as [c|] eqn:E;
    [|exfalso; assert (is_Some (decodeV3Core (fun _ => "k") sample_core_bytes)) as [? H]
        by (vm_compute; eexists; reflexivity); rewrite E in H; discriminate H].
  exact (v3_projection_never_published (fun _ => "k") (fun _ => Ok (Some sample_core_bytes)) "m" 3 2000 _
    sample_core_bytes c eq_refl E).
Defined.
