(* ===== verification/Risk.v ===== *)
(** * Liquidation health, funding and liquidation discovery

    workers/src/risk-model.ts, funding-source.ts, liquidation-discovery.ts and
    liquidation-scanner.ts.  All amounts are bigints: unbounded integers whose
    division truncates toward zero ([Z.quot]). *)

From S2P Require Import Prelude Bytes V3Market MarkPrice PrivateSessions.

(** ** risk-model.ts *)

Definition BPS_DENOMINATOR : Z := 10000.

Definition notional (quantity price : Z) : result Z :=
  if (price <=? 0) || (quantity <? 0) then Throw "invalid price/quantity for notional" else Ok (quantity * price).

Definition feeBps (notionalValue bps : Z) : Z := Z.quot (notionalValue * bps) BPS_DENOMINATOR.

Definition unrealizedPnl (seat : TraderSeatProjection) (markPrice : Z) : result Z :=
  if markPrice <=? 0 then Throw "invalid mark price"
  else
    let current := tp_basePosition seat * markPrice in
    let entry := if tp_basePosition seat =? 0 then 0 else tp_quoteEntryValue seat in
    Ok (current - entry).

Definition equity (seat : TraderSeatProjection) (markPrice : Z) : result Z :=
  pnl ← unrealizedPnl seat markPrice;
  Ok (tp_availableCollateral seat + tp_realizedPnl seat + pnl).

Definition isLiquidatable (seat : TraderSeatProjection) (markPrice maintenanceBps : Z) : result bool :=
  positionNotional ← notional (if tp_basePosition seat <? 0 then - tp_basePosition seat else tp_basePosition seat) markPrice;
  let requirement := feeBps positionNotional maintenanceBps in
  e ← equity seat markPrice;
  Ok (e <? requirement).

Definition partialLiquidationQuantity (seat : TraderSeatProjection) : Z :=
  let abs := if tp_basePosition seat <? 0 then - tp_basePosition seat else tp_basePosition seat in
  let half := Z.quot abs 2 in
  if 1 <? half then half else 1.

(** ** funding-source.ts *)

Record FundingPolicy := mkFundingPolicy { intervalMs : Z; capBps : Z; scale : Z }.

Definition computeCappedFundingDelta (indexPrice markPrice : Z) (policy : FundingPolicy) : Z :=
  if indexPrice <=? 0 then 0
  else
    let premiumBps := Z.quot ((markPrice - indexPrice) * 10000) indexPrice in
    let cap := capBps policy in
    let clamped := if cap <? premiumBps then cap else if premiumBps <? - cap then - cap else premiumBps in
    Z.quot (clamped * scale policy) 10000.

Inductive FundingMode := funding_open | funding_close_only | funding_paused.

#[export] Instance funding_mode_eq_dec : EqDecision FundingMode.
Proof. solve_decision. Defined.

(** The input of a funding tick; the accumulator thunk is the value it computes. *)
Record FundingTickInput := mkFundingInput {
  fi_oracleValid : bool; fi_oracleTimestamp : Z; fi_lastFundingTimestamp : Z; fi_fundingIntervalMs : Z;
  fi_nextAccumulator : Z; fi_now : Z }.

Record FundingTickDecision := mkFundingDecision {
  fd_eligible : bool; fd_reason : string; fd_input : option FundingTickInput }.

Definition fundingTickDecision (market : MarketState) (mode : FundingMode) (policy : FundingPolicy) (now : Z)
    (markPrice : Z) : FundingTickDecision :=
  if bool_decide (mode = funding_paused)
  then mkFundingDecision false "market mode does not permit funding settlement (paused/emergency)" None
  else if negb (ms_oracleValid market)
  then mkFundingDecision false "oracle not verified; refusing to settle funding on stale/invalid state" None
  else
    let elapsedMs := js_sub now (js_mul (to_number (ms_lastFundingTimestamp market)) 1000) in
    if elapsedMs <? intervalMs policy
    then mkFundingDecision false ("funding interval not yet elapsed (" +:+ pretty elapsedMs +:+ "ms < "
           +:+ pretty (intervalMs policy) +:+ "ms)") None
    else mkFundingDecision true "funding interval elapsed with a fresh oracle" (Some {|
      fi_oracleValid := ms_oracleValid market;
      fi_oracleTimestamp := to_number (ms_lastVerifiedOracleTimestamp market);
      fi_lastFundingTimestamp := to_number (ms_lastFundingTimestamp market);
      fi_fundingIntervalMs := intervalMs policy;
      fi_nextAccumulator := ms_fundingAccumulator market
        + computeCappedFundingDelta (ms_lastVerifiedOraclePrice market) markPrice policy;
      fi_now := now |}).

(** ** liquidation-discovery.ts *)

Record LiquidationProjectionCandidate := mkCandidate { lc_seatIndex : Z; lc_projectedSequence : Z }.

Section Liquidation.
Context (base58 : list Z -> string).

(** One seat of a sweep. *)
Definition scan_seat (accountBytes : list Z) (header : MarketState) (seatIndex : Z)
  : result (option LiquidationProjectionCandidate) :=
seat ← decodeTraderSeatProjection base58 accountBytes seatIndex;
match seat with
| None => Ok None
| Some seat =>
    if ms_oracleValid header then
      liq ← isLiquidatable seat (ms_lastVerifiedOraclePrice header) (ms_maintenanceMarginBps header);
      Ok (if liq : bool then Some (mkCandidate seatIndex (tp_sequence seat)) else None)
    else Ok None
end.

Fixpoint scan_loop (accountBytes : list Z) (header : MarketState) (seats : list Z)
  : result (list LiquidationProjectionCandidate) :=
match seats with
| [] => Ok []
| s :: rest =>
    c ← scan_seat accountBytes header s;
    cs ← scan_loop accountBytes header rest;
    Ok (match c with Some c => c :: cs | None => cs end)
end.

Definition sweep_start (cursor : Z) : Z := Z.rem (Z.rem cursor MAX_TRADER_SEATS + MAX_TRADER_SEATS) MAX_TRADER_SEATS.

(** The seats one sweep looks at, in order. *)
Definition sweep_seats (cursor batchSize : Z) : list Z :=
(fun i => Z.rem (sweep_start cursor + Z.of_nat i) MAX_TRADER_SEATS)
<$> seq 0 (Z.to_nat (Z.min batchSize MAX_TRADER_SEATS)).

Definition next_cursor (cursor batchSize : Z) : Z :=
Z.rem (sweep_start cursor + Z.min batchSize MAX_TRADER_SEATS) MAX_TRADER_SEATS.

Definition scanLiquidationCandidates (accountBytes : list Z) (header : MarketState) (cursor batchSize : Z)
  : result (list LiquidationProjectionCandidate * Z) :=
candidates ← scan_loop accountBytes header (sweep_seats cursor batchSize);
Ok (candidates, next_cursor cursor batchSize).

(** ** liquidation-scanner.ts *)

Inductive ReReadOutcome :=
| liquidatable (quantity : Z)
| healthy | already_progressed | stale_oracle | market_halted | not_found.

Definition reReadLiquidationCandidate (multipleAccounts : MultipleAccounts) (marketPda : string)
  (candidate : LiquidationProjectionCandidate) : result ReReadOutcome :=
bytes ← fetchAuthoritativeMarketAccountBytes multipleAccounts marketPda;
match bytes with
| None => Ok not_found
| Some bs =>
    header ← decodeMarketHeader base58 bs;
    match header with
    | None => Ok not_found
    | Some header =>
        if ms_mode header =? 3 then Ok market_halted else
        seat ← decodeTraderSeatProjection base58 bs (lc_seatIndex candidate);
        match seat with
        | None => Ok not_found
        | Some seat =>
            if negb (tp_sequence seat =? lc_projectedSequence candidate) then Ok already_progressed
            else if negb (ms_oracleValid header) then Ok stale_oracle
            else
              liq ← isLiquidatable seat (ms_lastVerifiedOraclePrice header) (ms_maintenanceMarginBps header);
              Ok (if liq : bool then liquidatable (partialLiquidationQuantity seat) else healthy)
        end
    end
end.
End Liquidation.

(** [Map.set] keeps the position of the first insertion and the last value. *)
Fixpoint map_set (c : LiquidationProjectionCandidate) (l : list LiquidationProjectionCandidate)
    : list LiquidationProjectionCandidate :=
  match l with
  | [] => [c]
  | x :: rest => if lc_seatIndex x =? lc_seatIndex c then c :: rest else x :: map_set c rest
  end.

Definition dedupeCandidates (candidates : list LiquidationProjectionCandidate) : list LiquidationProjectionCandidate :=
  foldl (fun m c => map_set c m) [] candidates.

Definition toKeeperCandidate (candidate : LiquidationProjectionCandidate) : Z := lc_seatIndex candidate.

(** ** Health *)

(** The requirement a position has to cover, and its equity, in closed form. *)
Definition requirement (seat : TraderSeatProjection) (price bps : Z) : Z :=
  Z.abs (tp_basePosition seat) * price * bps / 10000.

Definition equity_at (seat : TraderSeatProjection) (price : Z) : Z :=
  tp_availableCollateral seat + tp_realizedPnl seat + tp_basePosition seat * price
  - (if tp_basePosition seat =? 0 then 0 else tp_quoteEntryValue seat).

Lemma isLiquidatable_eq seat price bps :
  0 < price -> 0 <= bps ->
  isLiquidatable seat price bps = Ok (equity_at seat price <? requirement seat price bps).
Proof.
  intros Hp Hb. unfold isLiquidatable, notional, equity, unrealizedPnl, feeBps, equity_at, requirement, BPS_DENOMINATOR.
  assert ((if tp_basePosition seat <? 0 then - tp_basePosition seat else tp_basePosition seat)
          = Z.abs (tp_basePosition seat)) as -> by (case_match; zbool; lia).
  rewrite (proj2 (Z.leb_gt price 0)), (proj2 (Z.ltb_ge (Z.abs _) 0)) by lia. cbn.
  rewrite Z.quot_div_nonneg by nia. f_equal. f_equal. lia.
Qed.

(** A margin of at most 100 percent grows no faster than the notional. *)
Lemma margin_slope x y bps : 0 <= x <= y -> 0 <= bps <= 10000 ->
  0 <= y * bps / 10000 - x * bps / 10000 <= y - x.
Proof.
  intros Hxy Hb.
  pose proof (Z.div_le_mono (x * bps) (y * bps) 10000 ltac:(lia) ltac:(nia)).
  pose proof (Z.div_le_mono (y * bps) (x * bps + (y - x) * 10000) 10000 ltac:(lia) ltac:(nia)) as H1.
  rewrite Z.div_add in H1 by lia. lia.
Qed.

(** Liquidation health is monotone in the price: for a maintenance margin of
    at most 100 percent, a long position that is liquidatable at some price is
    liquidatable at every lower one, and a short position at every higher one;
    a flat seat is liquidatable exactly when its collateral and realized profit
    are negative together, at any price. *)
Theorem liquidation_monotone seat price price' bps :
  0 <= bps <= 10000 -> 0 < price -> 0 < price' ->
  isLiquidatable seat price bps = Ok true ->
  (0 < tp_basePosition seat /\ price' <= price) \/ (tp_basePosition seat < 0 /\ price <= price')
    \/ tp_basePosition seat = 0 ->
  isLiquidatable seat price' bps = Ok true
  /\ (tp_basePosition seat = 0 -> tp_availableCollateral seat + tp_realizedPnl seat < 0).
Proof.
  intros Hb Hp Hp' Hliq Hcase. rewrite isLiquidatable_eq in Hliq |- * by lia. injection Hliq as Hliq%Z.ltb_lt.
  unfold equity_at, requirement in *.
  destruct Hcase as [[H0 Hle]|[[H0 Hle]|H0]].
  - rewrite (proj2 (Z.eqb_neq _ _)) in * by lia. rewrite (Z.abs_eq (tp_basePosition seat)) in * by lia.
    assert (0 <= tp_basePosition seat * price' <= tp_basePosition seat * price) as Hx by nia.
    pose proof (margin_slope _ _ bps Hx Hb). split; [f_equal; apply Z.ltb_lt; lia|intros; lia].
  - rewrite (proj2 (Z.eqb_neq _ _)) in * by lia. rewrite (Z.abs_neq (tp_basePosition seat)) in * by lia.
    assert (0 <= - tp_basePosition seat * price <= - tp_basePosition seat * price') as Hx by nia.
    pose proof (margin_slope _ _ bps Hx Hb). split; [f_equal; apply Z.ltb_lt; lia|intros; lia].
  - rewrite H0 in Hliq |- *. cbn [Z.abs] in *. rewrite !Z.mul_0_l in *.
    change (0 / 10000) with 0 in *. change (0 =? 0) with true in *. cbv iota in *.
    split; [f_equal; apply Z.ltb_lt; lia|intros _; lia].
Qed.

Definition sample_seat : TraderSeatProjection := mkProjection 3 "w" 10 0 5 500 0 0 0 0 0 0 42.

Lemma liquidation_monotone_witness : isLiquidatable sample_seat 90 500 = Ok true.
Proof.
  refine (proj1 (liquidation_monotone sample_seat 98 90 500 _ _ _ _ _)); try lia.
  - vm_compute. reflexivity.
  - left. cbn. lia.
Defined.

(** A partial liquidation never exceeds the position: it closes at least one
    unit and at most the whole of a non-empty position, and at most half of it
    (rounded down) when the position is larger than three units. *)
Theorem partial_liquidation_bounds seat :
  let q := partialLiquidationQuantity seat in
  1 <= q /\ (tp_basePosition seat ≠ 0 -> q <= Z.abs (tp_basePosition seat))
  /\ (4 <= Z.abs (tp_basePosition seat) -> 2 * q <= Z.abs (tp_basePosition seat)).
Proof.
  cbn. unfold partialLiquidationQuantity.
  assert ((if tp_basePosition seat <? 0 then - tp_basePosition seat else tp_basePosition seat)
          = Z.abs (tp_basePosition seat)) as -> by (case_match; zbool; lia).
  rewrite Z.quot_div_nonneg by lia.
  pose proof (Z.div_mod (Z.abs (tp_basePosition seat)) 2 ltac:(lia)).
  pose proof (Z.mod_pos_bound (Z.abs (tp_basePosition seat)) 2 ltac:(lia)).
  case_match; zbool; lia.
Qed.

(** ** Funding *)

Lemma quot_sign a d : 0 < d -> (0 <= a -> 0 <= Z.quot a d) /\ (a <= 0 -> Z.quot a d <= 0).
Proof.
  intros Hd. split; intros Ha; [by apply Z.quot_pos|].
  pose proof (Z.quot_pos (- a) d ltac:(lia) Hd). rewrite Z.quot_opp_l in * by lia. lia.
Qed.

(** Division toward zero is monotone. *)
Lemma quot_mono a b d : 0 < d -> a <= b -> Z.quot a d <= Z.quot b d.
Proof. intros. by apply Z.quot_le_mono. Qed.

(** Funding is bounded: the settled delta of one interval never exceeds
    capBps of the scale in either direction, has the sign of the premium (zero
    when mark and index agree) and grows with the mark price; and a tick is
    eligible only with a verified oracle, outside the paused mode and after the
    interval, in which case the next accumulator differs from the current one by
    exactly that delta. *)
Theorem funding_delta_capped market mode policy now markPrice markPrice' :
  0 <= capBps policy -> 0 <= scale policy -> markPrice <= markPrice' ->
  let index := ms_lastVerifiedOraclePrice market in
  let delta m := computeCappedFundingDelta index m policy in
  (Z.abs (delta markPrice) <= capBps policy * scale policy / 10000)
  /\ (index <= markPrice -> 0 <= delta markPrice) /\ (markPrice <= index -> delta markPrice <= 0)
  /\ delta markPrice <= delta markPrice'
  /\ (forall reason input,
        fundingTickDecision market mode policy now markPrice = mkFundingDecision true reason (Some input) ->
        mode ≠ funding_paused /\ ms_oracleValid market = true
        /\ intervalMs policy <= js_sub now (js_mul (to_number (ms_lastFundingTimestamp market)) 1000)
        /\ fi_nextAccumulator input - ms_fundingAccumulator market = delta markPrice).
Proof.
  intros Hc Hs Hm index delta.
  assert (forall m, exists c, delta m = Z.quot (c * scale policy) 10000 /\ - capBps policy <= c <= capBps policy
            /\ (index <= m -> 0 <= c) /\ (m <= index -> c <= 0)) as Hd.
  { intros m. unfold delta, computeCappedFundingDelta. destruct (Z.leb_spec index 0) as [|Hi].
    { exists 0. split; [reflexivity|]. split_and!; intros; lia. }
    pose proof (quot_sign ((m - index) * 10000) index Hi) as [H1 H2].
    set (p := Z.quot ((m - index) * 10000) index) in *.
    eexists. split; [reflexivity|]. repeat case_match; zbool; split_and!; intros; lia. }
  split_and!.
  - destruct (Hd markPrice) as (c & -> & Hcb & _). rewrite <- Z.quot_abs by lia. change (Z.abs 10000) with 10000.
    rewrite Z.quot_div_nonneg by lia. apply Z.div_le_mono; [lia|]. nia.
  - intros Hge. destruct (Hd markPrice) as (c & -> & _ & Hc0 & _). apply quot_sign; [lia|]. specialize (Hc0 Hge). nia.
  - intros Hle. destruct (Hd markPrice) as (c & -> & _ & _ & Hc0). apply quot_sign; [lia|]. specialize (Hc0 Hle). nia.
  - unfold delta, computeCappedFundingDelta. destruct (Z.leb_spec index 0) as [|Hi]; [lia|].
    apply quot_mono; [lia|].
    pose proof (quot_mono ((markPrice - index) * 10000) ((markPrice' - index) * 10000) index Hi ltac:(lia)).
    apply Z.mul_le_mono_nonneg_r; [done|]. repeat case_match; zbool; lia.
  - intros reason input. unfold fundingTickDecision. case_bool_decide; [done|].
    destruct (ms_oracleValid market) eqn:Eo; [|done]. cbn [negb]. case_match; [done|]. zbool.
    intros [= <- <-]. cbn. split_and!; [done|done|lia|]. unfold delta, index. lia.
Qed.

Definition sample_market_state : MarketState :=
  mkMarketState 1 "a" "e" 500 0 0 10 0 0 0 7 1000 true 100 0.
Definition sample_policy : FundingPolicy := mkFundingPolicy 60000 75 1000000.

Lemma funding_delta_capped_witness :
  Z.abs (computeCappedFundingDelta 100 103 sample_policy) <= 75 * 1000000 / 10000.
Proof.
  refine (proj1 (funding_delta_capped sample_market_state funding_open sample_policy 0 103 103 _ _ _));
    cbn; lia.
Defined.

(** ** Liquidation *)

(** A liquidation is only ever built from authoritative state: the re-read
    answers "liquidatable" only when the account read just now decodes to a
    market that is not halted and has a verified oracle, the seat is occupied
    and has not moved since the projection, and it fails the health check at
    that oracle price; the quantity is the seat's own partial quantity. *)
Theorem reread_liquidatable_sound base58 rpc m c q :
  reReadLiquidationCandidate base58 rpc m c = Ok (liquidatable q) ->
  exists bs header seat,
    fetchAuthoritativeMarketAccountBytes rpc m = Ok (Some bs)
    /\ decodeMarketHeader base58 bs = Ok (Some header)
    /\ decodeTraderSeatProjection base58 bs (lc_seatIndex c) = Ok (Some seat)
    /\ ms_mode header ≠ 3 /\ ms_oracleValid header = true
    /\ tp_sequence seat = lc_projectedSequence c
    /\ isLiquidatable seat (ms_lastVerifiedOraclePrice header) (ms_maintenanceMarginBps header) = Ok true
    /\ q = partialLiquidationQuantity seat.
Proof.
  unfold reReadLiquidationCandidate. intros (bytes & Hb & H)%result_bind_Ok. destruct bytes as [bs|]; [|done].
  apply result_bind_Ok in H as (header & Hh & H). destruct header as [header|]; [|done].
  destruct (Z.eqb_spec (ms_mode header) 3) as [|Hm]; [done|].
  apply result_bind_Ok in H as (seat & Hs & H). destruct seat as [seat|]; [|done].
  destruct (Z.eqb_spec (tp_sequence seat) (lc_projectedSequence c)); [|done].
  destruct (ms_oracleValid header) eqn:Eo; [|done]. cbn in H.
  apply result_bind_Ok in H as ([] & Hl & H); [|done]. injection H as <-.
  by exists bs, header, seat.
Qed.

(** Seat 0 is long one unit bought at 2000 while the oracle says 1000. *)
Definition underwater_seat : list Z :=
  [1] ++ replicate 39 7 ++ le_split 16 0 ++ le_split 16 0 ++ le_split 16 1 ++ le_split 16 2000
  ++ replicate 72 0 ++ le_split 8 42 ++ replicate 72 0.
Definition underwater_account : list Z :=
  sample_header ++ replicate (Z.to_nat 181280) 0 ++ underwater_seat.
Definition underwater_rpc : MultipleAccounts := fun _ => Ok (7, [Some (mkAccount "p" (Some underwater_account))]).

Lemma reread_liquidatable_sound_witness :
  exists seat, decodeTraderSeatProjection (fun _ => "k") underwater_account 0 = Ok (Some seat)
  /\ isLiquidatable seat 1000 0 = Ok true.
Proof.
  destruct (reread_liquidatable_sound (fun _ => "k") underwater_rpc "m" (mkCandidate 0 42) 1)
    as (bs & header & seat & H1 & H2 & H3 & _ & _ & _ & H4 & _); [vm_compute; reflexivity|].
  injection H1 as <-. exists seat. split; [exact H3|].
  assert (header = mkMarketState 1 "k" "k" 0 0 0 0 0 0 0 0 0 true 1000 50) as ->
    by (vm_compute in H2; injection H2 as <-; reflexivity).
  exact H4.
Defined.

(** ** Sweeps *)

Lemma sweep_start_mod cursor : sweep_start cursor = cursor mod 128.
Proof.
  unfold sweep_start, MAX_TRADER_SEATS.
  pose proof (Z.rem_bound_abs cursor 128 ltac:(lia)).
  rewrite Z.rem_mod_nonneg by lia.
  rewrite <- (Z.mod_add (Z.rem cursor 128 + 128) (Z.quot cursor 128 - 1)) by lia. f_equal.
  pose proof (Z.quot_rem cursor 128 ltac:(lia)). lia.
Qed.

Lemma sweep_seats_elem cursor b i :
  0 <= i < Z.min b 128 -> (cursor + i) mod 128 ∈ sweep_seats cursor b.
Proof.
  intros Hi. unfold sweep_seats. apply list_elem_of_fmap. exists (Z.to_nat i). split.
  - rewrite sweep_start_mod. unfold MAX_TRADER_SEATS. rewrite Z2Nat.id by lia.
    pose proof (Z.mod_pos_bound cursor 128 ltac:(lia)). rewrite Z.rem_mod_nonneg by lia.
    by rewrite Zplus_mod_idemp_l.
  - apply elem_of_seq. unfold MAX_TRADER_SEATS. lia.
Qed.

Lemma iterated_cursor cursor b k : 1 <= b ->
  Nat.iter k (fun c => next_cursor c b) cursor mod 128 = (cursor + Z.of_nat k * Z.min b 128) mod 128.
Proof.
  intros Hb. induction k as [|k IH]; [f_equal; cbn; lia|]. cbn [Nat.iter nat_rect].
  unfold next_cursor at 1. rewrite sweep_start_mod. unfold MAX_TRADER_SEATS.
  fold (Nat.iter k (fun c => next_cursor c b) cursor).
  pose proof (Z.mod_pos_bound (Nat.iter k (fun c => next_cursor c b) cursor) 128 ltac:(lia)).
  rewrite Z.rem_mod_nonneg, Zmod_mod, IH, Zplus_mod_idemp_l by lia. f_equal. lia.
Qed.

Section SweepCover.
Context (base58 : list Z -> string) (bs : list Z) (header : MarketState).

Lemma scan_loop_complete seats s c cs :
s ∈ seats -> scan_seat base58 bs header s = Ok (Some c) -> scan_loop base58 bs header seats = Ok cs -> c ∈ cs.
Proof.
intros Hs Hc. revert cs. induction Hs as [seats|s t seats _ IH]; intros cs Hl; cbn in Hl.
- rewrite Hc in Hl. apply result_bind_Ok in Hl as (x & [= <-] & Hl).
  apply result_bind_Ok in Hl as (rest & _ & [= <-]). left.
- apply result_bind_Ok in Hl as (x & _ & Hl). apply result_bind_Ok in Hl as (rest & Hr & [= <-]).
  specialize (IH Hc rest Hr). destruct x; [by right|done].
Qed.

(** C27. Sweeps reach every seat: whatever the cursor and a batch of at least
  one, following the returned cursor brings a sweep over any given seat within
  one lap of the 128 seats; if that seat fails the health check in the scanned
  bytes, the sweep that covers it reports it. *)
Theorem sweep_reports_every_seat cursor b s c :
1 <= b -> 0 <= s < 128 -> scan_seat base58 bs header s = Ok (Some c) ->
exists k, Z.of_nat k * Z.min b 128 < 128 /\
forall cs next,
  scanLiquidationCandidates base58 bs header (Nat.iter k (fun x => next_cursor x b) cursor) b = Ok (cs, next) ->
  c ∈ cs.
Proof.
intros Hb Hs Hc. set (n := Z.min b 128). set (d := (s - cursor) mod 128).
assert (0 <= d < 128) as Hd by (apply Z.mod_pos_bound; lia).
assert (1 <= n) as Hn by (unfold n; lia).
pose proof (Z.div_mod d n ltac:(lia)) as Hdm. pose proof (Z.mod_pos_bound d n ltac:(lia)) as Hmod.
assert (0 <= d / n) by (apply Z.div_pos; lia).
exists (Z.to_nat (d / n)). rewrite Z2Nat.id by done. split; [nia|].
intros cs next (cands & Hl & [= <- _])%result_bind_Ok.
eapply scan_loop_complete; [|exact Hc|exact Hl].
replace s with ((Nat.iter (Z.to_nat (d / n)) (fun x => next_cursor x b) cursor + d mod n) mod 128);
  [by apply sweep_seats_elem|].
rewrite <- Zplus_mod_idemp_l, iterated_cursor, Zplus_mod_idemp_l by done. rewrite Z2Nat.id by done. fold n.
replace (cursor + d / n * n + d mod n) with (cursor + d) by lia. unfold d.
rewrite Zplus_mod_idemp_r. replace (cursor + (s - cursor)) with s by lia. by apply Z.mod_small.
Qed.
End SweepCover.

Lemma sweep_reports_every_seat_witness :
  exists k, Z.of_nat k * Z.min 50 128 < 128 /\
  forall cs next,
    scanLiquidationCandidates (fun _ => "k") underwater_account sample_market_state
      (Nat.iter k (fun x => next_cursor x 50) 5) 50 = Ok (cs, next) ->
    mkCandidate 0 42 ∈ cs.
Proof.
  apply (sweep_reports_every_seat (fun _ => "k") underwater_account sample_market_state 5 50 0);
    [lia|lia|vm_compute; reflexivity].
Defined.
