(* ===== verification/Keepers.v ===== *)
(** * Durable keeper jobs

    workers/src/keepers.ts (leases, idempotency and dead letters around a unit
    of work) and workers/src/keeper-jobs.ts (the six keeper ticks).  A job runs
    in a world made of the database, the reads of the clock made so far and the
    transactions sent so far; the chain's answers are functions of that
    history. *)

From Stdlib Require Sorted.
From S2P Require Import Prelude Json Bytes ExecutionStatus Repositories V3Market MarkPrice PrivateSessions Risk.

(** ** The world of a job *)

(** How a submitted transaction ended (chain-transports.ts). *)
Inductive ConfirmationOutcome :=
  | confirmed | finalized | failed (err : string) | blockhash_expired | timeout.

Record World := mkWorld {
  db : Db;
  reads : nat;  (** clock reads made so far *)
  sent : list (Domain * string);  (** transactions handed to a transport *)
}.

(** Clock and transports. *)
Record Env := mkEnv {
  clock : nat -> Z;
  latestBlockhash : World -> Domain -> result (string * Z);
  sendTransaction : World -> Domain -> string -> result string;
  confirmTransaction : World -> Domain -> string -> Z -> result ConfirmationOutcome;
}.

Definition on_db {A} (m : eff Db A) : eff World A := fun w =>
  let (d, r) := m (db w) in (mkWorld d (reads w) (sent w), r).

(** ** keepers.ts *)

(** The two small store interfaces of the file. *)
Class LeaseStore (S : Type) := {
  ls_acquire : string -> string -> Z -> Z -> eff S bool;
  ls_release : string -> string -> eff S unit;
}.

Class IdempotencyStore (S T : Type) := {
  is_get : string -> eff S (option T);
  is_put : string -> T -> eff S unit;
}.

Definition withLease {S T} `{LeaseStore S} (key holder : string) (ttlMs now : Z) (work : eff S T) : eff S T :=
  ok ← ls_acquire key holder ttlMs now;
  if negb ok then eff_throw "keeper lease unavailable"
  else eff_finally work (ls_release key holder).

Definition idempotent {S T} `{IdempotencyStore S T} (key : string) (work : eff S T) : eff S T :=
  existing ← is_get key;
  match existing with
  | Some v => mret v
  | None => result ← work; _ ← is_put key result; mret result
  end.

(** Values that survive [JSON.stringify] and [JSON.parse]. *)
Class Json (T : Type) := {
  to_json : T -> json;
  of_json : json -> T;
  of_to_json : forall v, of_json (to_json v) = v;
}.

Record DurableKeeperRequest (T : Type) := mkRequest {
  leaseKey : string; holder : string; idempotencyKey : string; requestHash : string; now : Z;
  leaseTtlMs : Z; idempotencyTtlMs : Z; work : eff World T }.
Arguments mkRequest {T}. Arguments leaseKey {T}. Arguments holder {T}. Arguments idempotencyKey {T}.
Arguments requestHash {T}. Arguments now {T}. Arguments leaseTtlMs {T}. Arguments idempotencyTtlMs {T}.
Arguments work {T}.

Section DurableKeeper.
Context `{Json T}.
Import ProtocolRepository.

(** The inner [try]: the reserved work and the record of its outcome. *)
Definition run_reserved (request : DurableKeeperRequest T) (lease : Lease) : eff World T :=
  eff_catch
    (value ← work request;
     _ ← on_db (finish (idempotencyKey request) (holder request) true (to_json value) lease (now request));
     mret value)
    (fun error =>
      _ ← on_db (finish (idempotencyKey request) (holder request) false (JObj [("error", JStr error)]) lease (now request));
      eff_throw error).

(** The outer [try]: reserve the key, or answer from the recorded operation. *)
Definition reserve_and_run (request : DurableKeeperRequest T) (lease : Lease) : eff World T :=
  reserved ← on_db (reserve (idempotencyKey request) (holder request) (requestHash request)
                      (idempotencyTtlMs request) (now request));
  if negb reserved then
    existing ← on_db (operation (idempotencyKey request));
    match existing with
    | Some row =>
        match or_status row, or_result row with
        | op_succeeded, Some v => mret (of_json v)
        | _, _ => eff_throw "keeper operation already pending or failed"
        end
    | None => eff_throw "keeper operation already pending or failed"
    end
  else run_reserved request lease.

Definition runDurableKeeper (request : DurableKeeperRequest T) : eff World T :=
  acquired ← on_db (acquire (leaseKey request) (holder request) (leaseTtlMs request) (now request));
  match acquired with
  | None => eff_throw "keeper lease unavailable"
  | Some lease => eff_finally (reserve_and_run request lease) (on_db (release lease))
  end.

(** The [catch] of the dead-letter wrapper. *)
Definition record_failure (deadLetterId : string) (maxAttempts : Z) (request : DurableKeeperRequest T)
    (message : string) : eff World T :=
  r ← on_db (DeadLetterRepository.record deadLetterId (leaseKey request)
               (JObj [("idempotencyKey", JStr (idempotencyKey request))]) message (now request));
  _ ← (if maxAttempts <=? fst r
       then on_db (DeadLetterRepository.giveUp deadLetterId (now request + 365 * 24 * 60 * 60 * 1000))
       else mret tt);
  eff_throw message.

(** [maxAttempts ?? 10] is an argument. *)
Definition runDurableKeeperWithDeadLetter (deadLetterId : string) (maxAttempts : Z)
    (request : DurableKeeperRequest T) : eff World T :=
  eff_catch
    (value ← runDurableKeeper request;
     _ ← on_db (DeadLetterRepository.resolve deadLetterId);
     mret value)
    (record_failure deadLetterId maxAttempts request).
End DurableKeeper.

Inductive LeaseKind := lk_cleanup | lk_pyth | lk_commit | lk_funding | lk_expiry | lk_ingestion | lk_session | lk_liquidation.

Definition lease_kind_string (k : LeaseKind) : string :=
  match k with
  | lk_cleanup => "cleanup" | lk_pyth => "pyth" | lk_commit => "commit" | lk_funding => "funding"
  | lk_expiry => "expiry" | lk_ingestion => "ingestion" | lk_session => "session" | lk_liquidation => "liquidation"
  end.

(** [market ? a : b]: the empty string is falsy. *)
Definition keeperLeaseKey (kind : LeaseKind) (market : option string) : string :=
  match market with
  | Some m => if bool_decide (m = "") then "keeper:" +:+ lease_kind_string kind
              else "keeper:" +:+ lease_kind_string kind +:+ ":" +:+ m
  | None => "keeper:" +:+ lease_kind_string kind
  end.

(** ** keeper-jobs.ts *)

Record KeeperOutcome := mkOutcome { ran : bool; reason : string; outcome_signature : option string }.

(** A confirmed outcome carries its signature and the status ["confirmed"]. *)
#[export] Instance outcome_json : Json KeeperOutcome.
Proof.
  refine {|
    to_json o := JObj ([("ran", JBool (ran o)); ("reason", JStr (reason o))]
      ++ match outcome_signature o with Some s => [("signature", JStr s); ("status", JStr "confirmed")] | None => [] end);
    of_json j := match j with
      | JObj (("ran", JBool r) :: ("reason", JStr e) :: rest) =>
          mkOutcome r e (match rest with ("signature", JStr s) :: _ => Some s | _ => None end)
      | _ => mkOutcome false "" None
      end |}.
  intros [r e [s|]]; reflexivity.
Defined.

Record KeeperDeps := mkDeps { deps_holder : string; deps_leaseTtlMs : Z; deps_idempotencyTtlMs : Z }.

(** [leaseTtlMs ?? 30_000], [idempotencyTtlMs ?? 60_000] *)
Definition default_deps (holder : string) : KeeperDeps := mkDeps holder 30000 60000.

Definition outcomeError (outcome : ConfirmationOutcome) : option string :=
  match outcome with
  | confirmed | finalized => None
  | failed err => Some ("transaction failed on-chain: " +:+ err)
  | blockhash_expired => Some "blockhash not found: transaction expired before confirmation"
  | timeout => Some "confirmation timed out"
  end.

Definition resolvedStatus (outcome : ConfirmationOutcome) : TxAttemptStatus :=
  match outcome with
  | confirmed => tx_confirmed | finalized => tx_finalized | failed _ => tx_failed
  | blockhash_expired => tx_expired | timeout => tx_timeout
  end.

Definition domain_string (d : Domain) : string := match d with L1 => "l1" | ER => "er" end.

Section Jobs.
Context (env : Env) (deps : KeeperDeps).

(** [deps.now()] and [Date.now()]: one read of the clock. *)
Definition read_clock : eff World Z := fun w =>
  (mkWorld (db w) (S (reads w)) (sent w), Ok (clock env (reads w))).

Definition get_blockhash (d : Domain) : eff World (string * Z) := fun w => (w, latestBlockhash env w d).

(** Handing the transaction over is recorded whether or not the transport
    answers with an error: it may have been broadcast. *)
Definition send (d : Domain) (tx : string) : eff World string := fun w =>
  (mkWorld (db w) (reads w) (sent w ++ [(d, tx)]), sendTransaction env w d tx).

Definition confirm (d : Domain) (signature : string) (lastValidBlockHeight : Z) : eff World ConfirmationOutcome :=
  fun w => (w, confirmTransaction env w d signature lastValidBlockHeight).

Definition submitAndConfirm (attemptId keeper marketPda : string) (d : Domain) (tx : string)
    (lastValidBlockHeight now : Z) : eff World string :=
  signature ← send d tx;
  _ ← on_db (TxAttemptRepository.submitted attemptId keeper marketPda d signature now);
  outcome ← confirm d signature lastValidBlockHeight;
  at_ ← read_clock;
  _ ← on_db (TxAttemptRepository.resolved attemptId (resolvedStatus outcome) (outcomeError outcome) at_);
  match outcomeError outcome with
  | Some e => eff_throw e
  | None => mret signature
  end.

Definition runKeeperAction (kind : LeaseKind) (marketPda suffix requestHash : string)
    (work : eff World KeeperOutcome) : eff World KeeperOutcome :=
  now ← read_clock;
  let id := lease_kind_string kind +:+ ":" +:+ marketPda +:+ ":" +:+ suffix in
  runDurableKeeperWithDeadLetter id 10
    (mkRequest (keeperLeaseKey kind (Some marketPda)) (deps_holder deps) id requestHash now
       (deps_leaseTtlMs deps) (deps_idempotencyTtlMs deps) work).

Definition ran_outcome (reason signature : string) : KeeperOutcome := mkOutcome true reason (Some signature).
Definition idle (reason : string) : KeeperOutcome := mkOutcome false reason None.

(** Builders turn the input of a job and a blockhash into a signed transaction. *)
Definition Builder (I : Type) := I -> string -> result string.

(** *** Pyth oracle keeper *)

Record PythUpdate := mkPythUpdate {
  pu_message : list Z; pu_timestamp : Z; pu_payloadHash : string; pu_feedId : string }.

(** [fetchSignedUpdate(previousTimestamp, previousPayloadHash)] *)
Definition PythUpdateSource := World -> Z -> string -> result (option PythUpdate).

Definition pyth_work (build : Builder (list Z * string)) (marketPda : string) (u : PythUpdate)
    : eff World KeeperOutcome :=
  now ← read_clock;
  _ ← on_db (OracleUpdateRepository.record marketPda (pu_feedId u) (pu_timestamp u) (pu_payloadHash u) ou_submitted now);
  blockhash ← get_blockhash L1;
  tx ← eff_lift (build (pu_message u, pu_feedId u) (fst blockhash));
  eff_catch
    (signature ← submitAndConfirm ("pyth:" +:+ marketPda +:+ ":" +:+ pretty (pu_timestamp u)) "pyth" marketPda L1 tx
                   (snd blockhash) now;
     at_ ← read_clock;
     _ ← on_db (OracleUpdateRepository.record marketPda (pu_feedId u) (pu_timestamp u) (pu_payloadHash u) ou_confirmed at_);
     mret (ran_outcome "oracle update confirmed" signature))
    (fun error =>
      at_ ← read_clock;
      _ ← on_db (OracleUpdateRepository.record marketPda (pu_feedId u) (pu_timestamp u) (pu_payloadHash u) ou_rejected at_);
      eff_throw error).

Definition runPythKeeperTick (build : Builder (list Z * string)) (source : PythUpdateSource) (marketPda : string)
    : eff World KeeperOutcome :=
  w ← eff_get;
  update ← eff_lift (source w 0 "");
  match update with
  | None => mret (idle "no newer Pyth update available")
  | Some u =>
      applied ← on_db (OracleUpdateRepository.alreadyApplied marketPda (pu_timestamp u) (pu_payloadHash u));
      if applied : bool then mret (idle "update already applied (durable dedup)")
      else runKeeperAction lk_pyth marketPda (pretty (pu_timestamp u) +:+ ":" +:+ pu_payloadHash u) (pu_payloadHash u)
             (pyth_work build marketPda u)
  end.

(** *** MagicBlock commit keeper *)

Definition MIN_COMMIT_TICK_MS : Z := 30000.

Definition commit_work (build : Builder (Z * bool)) (marketPda : string) (sequence : Z) : eff World KeeperOutcome :=
  now ← read_clock;
  _ ← on_db (CommitRecordRepository.record marketPda sequence ER cm_requested None now);
  blockhash ← get_blockhash ER;
  tx ← eff_lift (build (sequence, false) (fst blockhash));
  signature ← submitAndConfirm ("commit:" +:+ marketPda +:+ ":" +:+ pretty sequence) "commit" marketPda ER tx
                (snd blockhash) now;
  at_ ← read_clock;
  _ ← on_db (CommitRecordRepository.record marketPda sequence L1 cm_confirmed (Some signature) at_);
  mret (ran_outcome ("committed ER sequence " +:+ pretty sequence) signature).

Definition runMagicBlockCommitKeeperTick (build : Builder (Z * bool)) (marketPda : string)
    (currentErSequence lastCommitTickAt : Z) : eff World KeeperOutcome :=
  now ← read_clock;
  if now - lastCommitTickAt <? MIN_COMMIT_TICK_MS
  then mret (idle ("commit interval not yet elapsed (target " +:+ pretty MIN_COMMIT_TICK_MS +:+ "ms)"))
  else
    lastRequested ← on_db (CommitRecordRepository.lastRequestedSequence marketPda);
    if currentErSequence <=? lastRequested
    then mret (idle ("no new ER sequence to commit (current " +:+ pretty currentErSequence +:+ ", last requested "
                     +:+ pretty lastRequested +:+ ")"))
    else
      let sequence := lastRequested + 1 in
      runKeeperAction lk_commit marketPda ("seq-" +:+ pretty sequence) (pretty sequence)
        (commit_work build marketPda sequence).

(** *** Funding keeper *)

Definition funding_work (build : Builder (Z * Z)) (marketPda : string) (accumulator timestamp : Z)
    : eff World KeeperOutcome :=
  now ← read_clock;
  blockhash ← get_blockhash L1;
  tx ← eff_lift (build (accumulator, timestamp) (fst blockhash));
  signature ← submitAndConfirm ("funding:" +:+ marketPda +:+ ":" +:+ pretty timestamp) "funding" marketPda L1 tx
                (snd blockhash) now;
  mret (ran_outcome ("funding settled at accumulator " +:+ pretty accumulator) signature).

Definition runFundingKeeperTick (build : Builder (Z * Z)) (marketPda : string) (input : FundingTickInput)
    : eff World KeeperOutcome :=
  if negb (fi_oracleValid input)
  then mret (idle "oracle not verified; refusing to settle funding on stale/invalid state")
  else
    let elapsedMs := js_sub (fi_now input) (js_mul (fi_lastFundingTimestamp input) 1000) in
    if elapsedMs <? fi_fundingIntervalMs input
    then mret (idle ("funding interval not yet elapsed (" +:+ pretty elapsedMs +:+ "ms < "
                     +:+ pretty (fi_fundingIntervalMs input) +:+ "ms)"))
    else
      let accumulator := fi_nextAccumulator input in
      let timestamp := fi_oracleTimestamp input in
      runKeeperAction lk_funding marketPda ("ts-" +:+ pretty timestamp) (pretty accumulator +:+ ":" +:+ pretty timestamp)
        (funding_work build marketPda accumulator timestamp).

(** *** Market session keeper *)

Inductive SessionCalendarStatus := cal_regular | cal_extended | cal_closed | cal_holiday.

#[export] Instance calendar_status_eq_dec : EqDecision SessionCalendarStatus.
Proof. solve_decision. Defined.

Definition calendar_string (s : SessionCalendarStatus) : string :=
  match s with cal_regular => "regular" | cal_extended => "extended" | cal_closed => "closed" | cal_holiday => "holiday" end.

(** A string between double quotes. *)
Definition quoted (s : string) : string :=
  let q := String (Ascii.ascii_of_nat 34) EmptyString in q +:+ s +:+ q.

Definition mode_string (m : FundingMode) : string :=
  match m with funding_open => "open" | funding_close_only => "close-only" | funding_paused => "paused" end.

Definition sessionTransitionFor (calendarStatus : SessionCalendarStatus) (currentMode : FundingMode)
    : option FundingMode :=
  let targetMode := match calendarStatus with
    | cal_regular | cal_extended => funding_open
    | cal_closed => funding_close_only
    | cal_holiday => funding_paused
    end in
  if bool_decide (targetMode = currentMode) then None else Some targetMode.

Definition session_work (build : Builder FundingMode) (marketPda : string) (target : FundingMode)
    : eff World KeeperOutcome :=
  now ← read_clock;
  blockhash ← get_blockhash L1;
  tx ← eff_lift (build target (fst blockhash));
  signature ← submitAndConfirm ("session:" +:+ marketPda +:+ ":" +:+ pretty now) "session" marketPda L1 tx
                (snd blockhash) now;
  mret (ran_outcome ("transitioned market to " +:+ mode_string target) signature).

Definition runMarketSessionKeeperTick (build : Builder FundingMode) (marketPda : string)
    (calendarStatus : SessionCalendarStatus) (currentMode : FundingMode) : eff World KeeperOutcome :=
  match sessionTransitionFor calendarStatus currentMode with
  | None => mret (idle ("market mode already matches configured calendar status " +:+ quoted (calendar_string calendarStatus)))
  | Some target =>
      at_ ← read_clock;
      runKeeperAction lk_session marketPda (mode_string target +:+ ":" +:+ pretty at_) (mode_string target)
        (session_work build marketPda target)
  end.

(** *** Cleanup keeper *)

Definition CLEANUP_SWEEP_SIZE : Z := 32.

(** The stored cursor [{ offset }]; a missing cursor starts at zero. *)
Definition cursor_field (name : string) (stored : option json) : option Z :=
  match stored with
  | Some (JObj [(f, JNum z)]) => if bool_decide (f = name) then Some z else None
  | _ => None
  end.

Definition cleanup_work (build : Builder Z) (marketPda : string) (offset sweepEnd bookSize : Z)
    : eff World KeeperOutcome :=
  now ← read_clock;
  blockhash ← get_blockhash L1;
  tx ← eff_lift (build (sweepEnd - offset) (fst blockhash));
  signature ← submitAndConfirm ("cleanup:" +:+ marketPda +:+ ":" +:+ pretty offset) "cleanup" marketPda L1 tx
                (snd blockhash) now;
  let nextOffset := if bookSize <=? sweepEnd then 0 else sweepEnd in
  at_ ← read_clock;
  _ ← on_db (KeeperCursorRepository.set "cleanup" marketPda (JObj [("offset", JNum nextOffset)]) at_);
  mret (ran_outcome ("swept [" +:+ pretty offset +:+ ", " +:+ pretty sweepEnd +:+ ")") signature).

Definition runCleanupKeeperTick (build : Builder Z) (marketPda : string) (bookSize : Z) : eff World KeeperOutcome :=
  stored ← on_db (KeeperCursorRepository.get "cleanup" marketPda);
  let offset := default 0 (cursor_field "offset" stored) in
  if bookSize =? 0 then mret (idle "book is empty; nothing to sweep")
  else
    let sweepEnd := Z.min (offset + CLEANUP_SWEEP_SIZE) bookSize in
    at_ ← read_clock;
    runKeeperAction lk_cleanup marketPda (pretty offset +:+ "-" +:+ pretty sweepEnd +:+ ":" +:+ pretty at_)
      (pretty offset +:+ "-" +:+ pretty sweepEnd)
      (cleanup_work build marketPda offset sweepEnd bookSize).

(** *** Liquidation keeper *)

Record ReReadResult := mkReRead { rr_isLiquidatable : bool; rr_oracleValid : bool; rr_quantity : Z }.

Definition liquidation_work (build : Builder (Z * Z)) (marketPda : string) (seatIndex quantity : Z)
    : eff World KeeperOutcome :=
  now ← read_clock;
  blockhash ← get_blockhash L1;
  tx ← eff_lift (build (seatIndex, quantity) (fst blockhash));
  signature ← submitAndConfirm ("liquidation:" +:+ marketPda +:+ ":" +:+ pretty seatIndex +:+ ":" +:+ pretty now)
                "liquidation" marketPda L1 tx (snd blockhash) now;
  mret (ran_outcome ("liquidated seat " +:+ pretty seatIndex) signature).

Definition runLiquidationKeeperTick (build : Builder (Z * Z)) (marketPda : string) (seatIndex : Z)
    (reReadSeat : result ReReadResult) : eff World KeeperOutcome :=
  authoritative ← eff_lift reReadSeat;
  if negb (rr_oracleValid authoritative)
  then mret (idle "oracle not verified on re-read; refusing to liquidate on stale state")
  else if negb (rr_isLiquidatable authoritative)
  then mret (idle "seat is no longer liquidatable on authoritative re-read (projection was stale)")
  else
    at_ ← read_clock;
    runKeeperAction lk_liquidation marketPda ("seat-" +:+ pretty seatIndex +:+ ":" +:+ pretty at_) (pretty seatIndex)
      (liquidation_work build marketPda seatIndex (rr_quantity authoritative)).
End Jobs.

(** ** What a job can change *)

(** Two worlds that agree on everything but leases, idempotency keys and dead
    letters (the tables only the wrappers write). *)
Record same_core (w w' : World) : Prop := mkSameCore {
  sc_sent : sent w' = sent w;
  sc_reads : reads w' = reads w;
  sc_attempts : tx_attempts (db w') = tx_attempts (db w);
  sc_commits : commit_records (db w') = commit_records (db w);
  sc_cursors : keeper_cursors (db w') = keeper_cursors (db w);
  sc_oracle : oracle_updates (db w') = oracle_updates (db w);
}.

#[export] Instance same_core_equiv : Equivalence same_core.
Proof.
  split.
  - by intros w.
  - intros w w' []. by constructor.
  - intros w1 w2 w3 [] []. constructor; congruence.
Qed.

Lemma world_eta w : mkWorld (db w) (reads w) (sent w) = w.
Proof. by destruct w. Qed.

(** A step that only touches the wrappers' tables. *)
Definition bookkeeping {A} (m : eff World A) : Prop := forall w, same_core w (fst (m w)).

Lemma on_db_bookkeeping {A} (m : eff Db A) :
  (forall d, let d' := fst (m d) in tx_attempts d' = tx_attempts d /\ commit_records d' = commit_records d
     /\ keeper_cursors d' = keeper_cursors d /\ oracle_updates d' = oracle_updates d) ->
  bookkeeping (on_db m).
Proof.
  intros Hm w. unfold on_db. specialize (Hm (db w)). destruct (m (db w)) as [d r]. cbn in *.
  destruct Hm as (?&?&?&?). by constructor.
Qed.

Ltac bookkeeping_tac :=
  apply on_db_bookkeeping; intros d; run_eff; repeat case_match; simplify_eq/=; done.

Lemma acquire_bk k h ttl now : bookkeeping (on_db (ProtocolRepository.acquire k h ttl now)).
Proof. unfold ProtocolRepository.acquire. bookkeeping_tac. Qed.
Lemma release_bk l : bookkeeping (on_db (ProtocolRepository.release l)).
Proof. unfold ProtocolRepository.release. bookkeeping_tac. Qed.
Lemma reserve_bk k o h ttl now : bookkeeping (on_db (ProtocolRepository.reserve k o h ttl now)).
Proof. unfold ProtocolRepository.reserve. bookkeeping_tac. Qed.
Lemma operation_bk k : bookkeeping (on_db (ProtocolRepository.operation k)).
Proof. unfold ProtocolRepository.operation. bookkeeping_tac. Qed.
Lemma finish_bk k o b v l now : bookkeeping (on_db (ProtocolRepository.finish k o b v l now)).
Proof. unfold ProtocolRepository.finish. bookkeeping_tac. Qed.
Lemma dl_record_bk i o p e now : bookkeeping (on_db (DeadLetterRepository.record i o p e now)).
Proof. unfold DeadLetterRepository.record. bookkeeping_tac. Qed.
Lemma dl_resolve_bk i : bookkeeping (on_db (DeadLetterRepository.resolve i)).
Proof. unfold DeadLetterRepository.resolve. bookkeeping_tac. Qed.
Lemma dl_giveUp_bk i u : bookkeeping (on_db (DeadLetterRepository.giveUp i u)).
Proof. unfold DeadLetterRepository.giveUp. bookkeeping_tac. Qed.

#[export] Hint Resolve acquire_bk release_bk reserve_bk operation_bk finish_bk dl_record_bk dl_resolve_bk
  dl_giveUp_bk : equinox.

(** Either the wrapper stopped before the work, or the work ran once and the
    wrapper only did its bookkeeping around it. *)
Definition ran_once {T} (work : eff World T) (w w' : World) (r : result T) : Prop :=
  same_core w w' \/
  exists w1, same_core w w1 /\ same_core (fst (work w1)) w' /\ (forall v, r = Ok v -> snd (work w1) = Ok v).

Section WrapperProofs.
Context `{Json T}.

Lemma run_reserved_once (req : DurableKeeperRequest T) l w :
  let '(w', r) := run_reserved req l w in
  same_core (fst (work req w)) w' /\ (forall v, r = Ok v -> snd (work req w) = Ok v).
Proof.
  unfold run_reserved, eff_catch, mbind, eff_bind, mret, eff_ret.
  destruct (work req w) as [w1 [v|e]] eqn:Ew; cbn [fst snd].
  - pose proof (finish_bk (idempotencyKey req) (holder req) true (to_json v) l (now req) w1) as Hf.
    destruct (on_db _ w1) as [w2 [[]|e]]; cbn [fst] in Hf; [split; [done|congruence]|].
    pose proof (finish_bk (idempotencyKey req) (holder req) false (JObj [("error", JStr e)]) l (now req) w2) as Hf2.
    destruct (on_db (ProtocolRepository.finish _ _ false _ _ _) w2) as [w3 [[]|e']]; cbn [fst] in Hf2;
      (split; [by etransitivity|done]).
  - pose proof (finish_bk (idempotencyKey req) (holder req) false (JObj [("error", JStr e)]) l (now req) w1) as Hf2.
    destruct (on_db (ProtocolRepository.finish _ _ false _ _ _) w1) as [w3 [[]|e']]; cbn [fst] in Hf2; done.
Qed.

Lemma finally_bookkeeping {A} (m : eff World T) (f : eff World A) w w' r :
  bookkeeping f -> eff_finally m f w = (w', r) ->
  same_core (fst (m w)) w' /\ (forall v, r = Ok v -> snd (m w) = Ok v).
Proof.
  intros Hf. unfold eff_finally. destruct (m w) as [w1 r1]. specialize (Hf w1).
  destruct (f w1) as [w2 [a|e]]; intros [= <- <-]; cbn in *; [done|by split].
Qed.

Lemma runDurableKeeper_once (req : DurableKeeperRequest T) w w' r :
  runDurableKeeper req w = (w', r) ->
  ran_once (work req) w w' r \/ (same_core w w' /\ exists row v, or_status row = op_succeeded
    /\ or_result row = Some v /\ r = Ok (of_json v)).
Proof.
  unfold runDurableKeeper. unfold mbind at 1, eff_bind at 1.
  pose proof (acquire_bk (leaseKey req) (holder req) (leaseTtlMs req) (now req) w) as Ha.
  destruct (on_db (ProtocolRepository.acquire _ _ _ _) w) as [w1 [[lease|]|e]]; cbn [fst] in Ha;
    [|intros [= <- <-]; by left; left..].
  intros [Hs Hok]%finally_bookkeeping; [|auto with equinox].
  unfold reserve_and_run, mbind, eff_bind, mret, eff_ret in Hs, Hok.
  pose proof (reserve_bk (idempotencyKey req) (holder req) (requestHash req) (idempotencyTtlMs req) (now req) w1) as Hr.
  destruct (on_db (ProtocolRepository.reserve _ _ _ _ _) w1) as [w2 [[]|e]]; cbn [fst snd negb] in *.
  - left; right. exists w2. pose proof (run_reserved_once req lease w2) as Hw.
    destruct (run_reserved req lease w2) as [w3 r3]. destruct Hw as [Hw Hv]. cbn in *.
    split_and!; [by etransitivity|by etransitivity|]. intros v ->. by apply Hv, Hok.
  - pose proof (operation_bk (idempotencyKey req) w2) as Ho.
    assert (same_core w w') as Hsame.
    { etransitivity; [exact Ha|]. etransitivity; [exact Hr|]. revert Hs.
      destruct (on_db _ w2) as [w3 [[row|]|e]]; cbn in *; intros Hs; [|by etransitivity..].
      etransitivity; [exact Ho|]. by repeat case_match. }
    destruct (on_db (ProtocolRepository.operation _) w2) as [w3 [[row|]|e]]; cbn in *.
    + destruct r as [v|e]; [|by left; left]. specialize (Hok v eq_refl).
      destruct (or_status row) eqn:Es; [done| |done]. destruct (or_result row) as [j|] eqn:Ej; [|done].
      cbn in Hok. injection Hok as <-. right. split; [done|]. by exists row, j.
    + left; left. done.
    + left; left. done.
  - left; left. etransitivity; [exact Ha|]. by etransitivity.
Qed.

Lemma record_failure_bk id n (req : DurableKeeperRequest T) m w :
  same_core w (fst (record_failure id n req m w)) /\ forall v, snd (record_failure id n req m w) ≠ Ok v.
Proof.
  unfold record_failure, mbind, eff_bind, mret, eff_ret.
  pose proof (dl_record_bk id (leaseKey req) (JObj [("idempotencyKey", JStr (idempotencyKey req))]) m (now req) w) as Hb.
  destruct (on_db _ w) as [wb [a|e]]; [|done]. cbn in Hb. destruct (n <=? fst a); [|done].
  pose proof (dl_giveUp_bk id (now req + 365 * 24 * 60 * 60 * 1000) wb) as Hg.
  destruct (on_db (DeadLetterRepository.giveUp _ _) wb) as [wc [b|e]]; cbn in *; (split; [by transitivity wb|done]).
Qed.

(** The dead-letter wrapper adds bookkeeping only. *)
Lemma withDeadLetter_once id n (req : DurableKeeperRequest T) w w' r :
  runDurableKeeperWithDeadLetter id n req w = (w', r) -> ran_once (work req) w w' r \/ same_core w w'.
Proof.
  unfold runDurableKeeperWithDeadLetter, eff_catch, mbind, eff_bind, mret, eff_ret.
  destruct (runDurableKeeper req w) as [w1 r1] eqn:Ew.
  pose proof (runDurableKeeper_once req w w1 r1 Ew) as Hw.
  assert (forall w2 r2, same_core w1 w2 -> (forall v, r2 = Ok v -> r1 = Ok v) ->
    ran_once (work req) w w2 r2 \/ same_core w w2) as Hgo.
  { intros w2 r2 H12 Hr. destruct Hw as [[Hs|(w0 & H0 & H1 & Hv)]|[Hs _]];
      [right; by etransitivity| |right; by etransitivity].
    left; right. exists w0. split_and!; [done|by etransitivity|]. intros v Hv'. by apply Hv, Hr. }
  assert (forall m wa, same_core w1 wa -> record_failure id n req m wa = (w', r) ->
    ran_once (work req) w w' r \/ same_core w w') as Hfail.
  { intros m wa Hwa Hf. destruct (record_failure_bk id n req m wa) as [Hb Hn]. rewrite Hf in Hb, Hn. cbn in *.
    apply Hgo; [by transitivity wa|]. intros v Hv. by destruct (Hn v). }
  destruct r1 as [v|e]; [|by apply Hfail].
  pose proof (dl_resolve_bk id w1) as Hres.
  destruct (on_db (DeadLetterRepository.resolve id) w1) as [w2 [[]|e]]; cbn [fst] in Hres;
    [intros [= <- <-]; by apply Hgo|by apply Hfail].
Qed.
End WrapperProofs.

(** ** Exactly-once execution *)

Section ExactlyOnce.
Context `{Json T}.
Import ProtocolRepository.

(** The work itself writes neither leases nor idempotency keys. *)
Definition work_frame (m : eff World T) : Prop :=
  forall w, keeper_leases (db (fst (m w))) = keeper_leases (db w)
         /\ operation_keys (db (fst (m w))) = operation_keys (db w).

Lemma reserve_cases k o rh ttl now d :
  (exists e, reserve k o rh ttl now d = (d, Throw e))
  \/ (is_Some (operation_keys d !! k) /\ reserve k o rh ttl now d = (d, Ok false))
  \/ (operation_keys d !! k = None /\ reserve k o rh ttl now d =
       (on_operation_keys (insert k (mkOperationRow o rh op_pending None now (now + ttl))) d, Ok true)).
Proof.
  unfold reserve. run_eff. destruct (identifier k); [|by eauto]. destruct (identifier o); [|by eauto].
  destruct (identifier rh); [|by eauto]. destruct (expiry now ttl) as [u|] eqn:Eu; [|by eauto].
  apply expiry_Ok in Eu as (_ & _ & -> & _). destruct (operation_keys d !! k); by eauto.
Qed.

Lemma release_keeps_operations l d : operation_keys (fst (release l d)) = operation_keys d.
Proof. destruct (release_cases l d) as [->|(a & _ & _ & ->)]; done. Qed.

Lemma release_total l d : exists b, snd (release l d) = Ok b.
Proof. destruct (release_cases l d) as [->|(a & _ & _ & ->)]; by eexists. Qed.

(** [finally release] changes neither the outcome nor the idempotency keys. *)
Lemma finally_release (m : eff World T) l w :
  exists w', eff_finally m (on_db (release l)) w = (w', snd (m w))
    /\ same_core (fst (m w)) w' /\ operation_keys (db w') = operation_keys (db (fst (m w))).
Proof.
  unfold eff_finally. destruct (m w) as [w1 r1]. pose proof (release_bk l w1) as Hb.
  destruct (release_total l (db w1)) as [b Hr]. pose proof (release_keeps_operations l (db w1)) as Ho.
  unfold on_db in *. destruct (release l (db w1)) as [d r]. cbn in *. subst r. by eexists.
Qed.

(** What a reserved-or-replayed body does: answer from the record, or run. *)
Lemma reserve_and_run_taken (req : DurableKeeperRequest T) lease w row :
  operation_keys (db w) !! idempotencyKey req = Some row ->
  fst (reserve_and_run req lease w) = w
  /\ (forall v, snd (reserve_and_run req lease w) = Ok v ->
        or_status row = op_succeeded /\ exists j, or_result row = Some j /\ v = of_json j).
Proof.
  intros Hrow. unfold reserve_and_run, mbind, eff_bind, mret, eff_ret. unfold on_db at 1 3.
  destruct (reserve_cases (idempotencyKey req) (holder req) (requestHash req) (idempotencyTtlMs req) (now req) (db w))
    as [[e ->]|[[_ ->]|[Hn _]]]; [by rewrite world_eta| |congruence].
  cbn [negb]. rewrite !world_eta. unfold on_db, operation. run_eff. cbn. rewrite Hrow, !world_eta.
  destruct (or_status row); [done| |done]. destruct (or_result row); [|done].
  split; [done|]. intros v [= <-]. by eauto.
Qed.

(** A key that is already taken: the work does not run. *)
Lemma taken_key (req : DurableKeeperRequest T) w w' r row :
  operation_keys (db w) !! idempotencyKey req = Some row -> runDurableKeeper req w = (w', r) ->
  same_core w w' /\ operation_keys (db w') = operation_keys (db w)
  /\ (forall v, r = Ok v -> or_status row = op_succeeded /\ exists j, or_result row = Some j /\ v = of_json j).
Proof.
  intros Hrow. unfold runDurableKeeper. unfold mbind at 1, eff_bind at 1.
  pose proof (acquire_bk (leaseKey req) (holder req) (leaseTtlMs req) (now req) w) as Hbk.
  assert (operation_keys (db (fst (on_db (acquire (leaseKey req) (holder req) (leaseTtlMs req) (now req)) w)))
          = operation_keys (db w)) as Ha.
  { unfold on_db. destruct (acquire_cases (leaseKey req) (holder req) (leaseTtlMs req) (now req) (db w))
      as [[e ->]|[[-> _]|(f & -> & _)]]; done. }
  destruct (on_db (acquire _ _ _ _) w) as [w1 [[lease|]|e]]; cbn [fst] in *; [|intros [= <- <-]; by split..].
  destruct (finally_release (reserve_and_run req lease) lease w1) as (w2 & -> & Hs & Ho). intros [= <- <-].
  rewrite <- Ha in Hrow. destruct (reserve_and_run_taken req lease w1 row Hrow) as [E Hv]. rewrite E in Hs, Ho.
  split; [by transitivity w1|]. split; [congruence|done].
Qed.

Lemma acquire_valid k h ttl n d d' l : acquire k h ttl n d = (d', Ok (Some l)) -> integer n = Ok tt.
Proof.
  unfold acquire. run_eff. destruct (identifier k); [|done]. destruct (identifier h); [|done].
  destruct (expiry n ttl) as [u|] eqn:Eu; [|done]. intros _.
  apply expiry_Ok in Eu as (? & ? & -> & ?). apply integer_Ok. lia.
Qed.

(** The lease a worker just acquired lets it record its outcome. *)
Lemma finish_after_acquire k key (h : string) ttl n fence row b v w :
  0 < ttl -> keeper_leases (db w) !! k = Some (mkLeaseRow h (n + ttl) n fence) ->
  operation_keys (db w) !! key = Some row -> or_owner row = h -> or_status row = op_pending ->
  integer n = Ok tt ->
  on_db (finish key h b v (mkLease k h fence (n + ttl)) n) w =
    (mkWorld (on_operation_keys (insert key (mkOperationRow (or_owner row) (or_request_hash row)
        (if b then op_succeeded else op_failed) (Some v) (or_created_at row) (or_expires_at row))) (db w))
      (reads w) (sent w), Ok tt).
Proof.
  intros Ht Hl Hrow Hown Hst Hi. unfold on_db, finish, lease_live. run_eff. rewrite Hi. cbn. rewrite Hrow, Hl.
  rewrite Hown, Hst, !bool_decide_eq_true_2 by done. unfold lease_matches. cbn.
  rewrite bool_decide_eq_true_2, Z.eqb_refl by done. cbn. by rewrite (proj2 (Z.ltb_lt _ _)) by lia.
Qed.

(** The work of a freshly reserved key, and the record of its outcome. *)
Lemma run_reserved_outcome (req : DurableKeeperRequest T) fence row w :
  work_frame (work req) -> 0 < leaseTtlMs req -> integer (now req) = Ok tt ->
  keeper_leases (db w) !! leaseKey req = Some (mkLeaseRow (holder req) (now req + leaseTtlMs req) (now req) fence) ->
  operation_keys (db w) !! idempotencyKey req = Some row -> or_owner row = holder req -> or_status row = op_pending ->
  exists w3 row', run_reserved req (mkLease (leaseKey req) (holder req) fence (now req + leaseTtlMs req)) w
      = (w3, snd (work req w))
    /\ same_core (fst (work req w)) w3
    /\ operation_keys (db w3) !! idempotencyKey req = Some row'
    /\ or_status row' = match snd (work req w) with Ok _ => op_succeeded | Throw _ => op_failed end
    /\ forall v, snd (work req w) = Ok v -> or_result row' = Some (to_json v).
Proof.
  intros Hframe Ht Hi Hl Hrow Hown Hst. destruct (Hframe w) as [F1 F2]. rewrite <- F1 in Hl. rewrite <- F2 in Hrow.
  unfold run_reserved, eff_catch, mbind, eff_bind, mret, eff_ret.
  destruct (work req w) as [w1 [v|e]]; cbn [fst snd] in *.
  - rewrite (finish_after_acquire _ _ _ _ _ _ row) by done. eexists _, _. split; [done|]. split; [done|].
    cbn. rewrite lookup_insert_eq. split; [done|]. split; [done|]. by intros ? [= <-].
  - rewrite (finish_after_acquire _ _ _ _ _ _ row) by done. eexists _, _. split; [done|]. split; [done|].
    cbn. rewrite lookup_insert_eq. split; [done|]. split; done.
Qed.

End ExactlyOnce.

(** ** Commit ticks *)

Section CommitSequences.
Import CommitRecordRepository.

Lemma max_sequence_spec m rows :
  match max_sequence m rows with
  | Some k => is_Some (rows !! (m, k)) /\ forall n, is_Some (rows !! (m, n)) -> n <= k
  | None => forall n, rows !! (m, n) = None
  end.
Proof.
  unfold max_sequence. apply (map_fold_weak_ind (fun acc rows => match acc with
    | Some k => is_Some (rows !! (m, k)) /\ forall n, is_Some (rows !! (m, n)) -> n <= k
    | None => forall n, rows !! (m, n) = None end)); [intros n; apply lookup_empty|].
  intros [m' n'] row rows' acc Hnew IH. case_bool_decide as Hm; [subst m'|].
  - destruct acc as [k|].
    + destruct IH as [Hk IH]. split.
      * destruct (Z.max_spec k n') as [[_ ->]|[Hle ->]]; [by rewrite lookup_insert_eq|].
        destruct (decide (n' = k)) as [->|]; [by rewrite lookup_insert_eq|by rewrite lookup_insert_ne by congruence].
      * intros n Hn. destruct (decide (n = n')) as [->|]; [lia|].
        rewrite lookup_insert_ne in Hn by congruence. specialize (IH n Hn). lia.
    + split; [by rewrite lookup_insert_eq|]. intros n Hn. destruct (decide (n = n')) as [->|]; [lia|].
      rewrite lookup_insert_ne, IH in Hn by congruence. by destruct Hn.
  - destruct acc as [k|]; [destruct IH as [Hk IH]; split|]; intros; rewrite lookup_insert_ne in * by congruence; auto.
Qed.

Definition last_requested (m : string) (d : Db) : Z := default 0 (max_sequence m (commit_records d)).

(** The next sequence has no record yet, and recording it makes it the last. *)
Lemma last_requested_next m d d' :
  (forall n, is_Some (commit_records d' !! (m, n)) <-> n = last_requested m d + 1 \/ is_Some (commit_records d !! (m, n))) ->
  last_requested m d' = last_requested m d + 1.
Proof.
  intros Hd. unfold last_requested in *.
  pose proof (max_sequence_spec m (commit_records d)) as H1. pose proof (max_sequence_spec m (commit_records d')) as H2.
  set (l := default 0 (max_sequence m (commit_records d))) in *.
  assert (is_Some (commit_records d' !! (m, l + 1))) as Hn by (apply Hd; by left).
  destruct (max_sequence m (commit_records d')) as [k'|]; cbn; [|rewrite H2 in Hn; by destruct Hn].
  destruct H2 as [Hk' H2]. specialize (H2 _ Hn). apply Hd in Hk' as [->|Hk']; [done|].
  destruct (max_sequence m (commit_records d)) as [k|]; subst l; cbn in *;
    [destruct H1 as [_ H1]; specialize (H1 _ Hk'); lia|rewrite H1 in Hk'; by destruct Hk'].
Qed.
End CommitSequences.

Section SubmitProofs.
Context (env : Env) (deps : KeeperDeps).

(** Submitting sends exactly once and writes nothing but the attempt. *)
Lemma submit_frame id keeper m d tx h now w :
  let w' := fst (submitAndConfirm env id keeper m d tx h now w) in
  sent w' = sent w ++ [(d, tx)] /\ commit_records (db w') = commit_records (db w)
  /\ keeper_cursors (db w') = keeper_cursors (db w) /\ oracle_updates (db w') = oracle_updates (db w)
  /\ keeper_leases (db w') = keeper_leases (db w) /\ operation_keys (db w') = operation_keys (db w).
Proof.
  cbv zeta. unfold submitAndConfirm, send, confirm, read_clock, on_db, TxAttemptRepository.submitted,
    TxAttemptRepository.resolved. run_eff.
  repeat (case_match; simplify_eq/=); done.
Qed.

(** An attempt id that is already taken: the transaction is sent, then the
    insert fails. *)
Lemma submit_taken id keeper m d tx h now w :
  is_Some (tx_attempts (db w) !! id) ->
  let w' := fst (submitAndConfirm env id keeper m d tx h now w) in
  db w' = db w /\ exists e, snd (submitAndConfirm env id keeper m d tx h now w) = Throw e.
Proof.
  intros Hid. cbv zeta. unfold submitAndConfirm, send, on_db, TxAttemptRepository.submitted. run_eff.
  destruct (sendTransaction env w d tx); cbn; [|by eauto]. rewrite bool_decide_eq_true_2 by done. cbn. by eauto.
Qed.

(** Recording a commit adds its key to the table and does nothing else. *)
Lemma commit_record_effect m s dom st sig t w :
  exists w', on_db (CommitRecordRepository.record m s dom st sig t) w = (w', Ok tt)
    /\ sent w' = sent w /\ keeper_leases (db w') = keeper_leases (db w) /\ operation_keys (db w') = operation_keys (db w)
    /\ forall k, is_Some (commit_records (db w') !! k) <-> k = (m, s) \/ is_Some (commit_records (db w) !! k).
Proof.
  unfold on_db, CommitRecordRepository.record. run_eff. eexists. split; [reflexivity|]. cbn. split_and!; [done..|].
  intros k. destruct (decide ((m, s) = k)) as [<-|]; [rewrite lookup_insert_eq; naive_solver|].
  rewrite lookup_insert_ne by done. naive_solver.
Qed.

(** The body of a commit: one record for its sequence, at most one send. *)
Lemma commit_work_effect build m s w :
  let w' := fst (commit_work env build m s w) in
  (forall k, is_Some (commit_records (db w') !! k) <-> k = (m, s) \/ is_Some (commit_records (db w) !! k))
  /\ (sent w' = sent w \/ exists tx bh, build (s, false) bh = Ok tx /\ sent w' = sent w ++ [(ER, tx)]).
Proof.
  cbv zeta. destruct (commit_work env build m s w) as [w' r] eqn:E. cbn [fst]. revert E.
  unfold commit_work, mbind, eff_bind, mret, eff_ret, eff_lift. unfold read_clock at 1.
  destruct (commit_record_effect m s ER cm_requested None (clock env (reads w)) (mkWorld (db w) (S (reads w)) (sent w)))
    as (w1 & -> & Hs1 & _ & _ & Hrows). cbn in Hs1, Hrows. unfold get_blockhash.
  destruct (latestBlockhash env w1 ER) as [[bh h]|e]; cbn [fst snd]; [|intros [= <- _]; split; [exact Hrows|by left]].
  destruct (build (s, false) bh) as [tx|e] eqn:Eb; cbn [fst snd]; [|intros [= <- _]; split; [exact Hrows|by left]].
  match goal with |- context [submitAndConfirm ?a ?b ?c ?d ?e ?f ?g ?h ?w1] =>
    pose proof (submit_frame b c d e f g h w1) as Hs; destruct (submitAndConfirm a b c d e f g h w1) as [w2 [sig|er]] end;
    cbn in Hs; destruct Hs as (Hsent & Hcr & _); rewrite Hs1 in Hsent.
  - unfold read_clock. match goal with |- context [on_db (CommitRecordRepository.record ?a ?b ?c ?d ?e ?f) ?w0] =>
      destruct (commit_record_effect a b c d e f w0) as (w3 & -> & Hs3 & _ & _ & Hr3) end. cbn in Hs3, Hr3 |- *.
    intros [= <- _]. rewrite Hs3. split; [|right; by exists tx, bh]. intros k. rewrite Hr3, Hcr, Hrows. naive_solver.
  - intros [= <- _]. rewrite Hcr. split; [exact Hrows|right; by exists tx, bh].
Qed.

Lemma same_core_last_requested m w w' : same_core w w' -> last_requested m (db w') = last_requested m (db w).
Proof. intros []. unfold last_requested. by f_equal; f_equal. Qed.

(** One commit tick: it only reads, or it advances the last requested sequence
    by one, within the rollup's sequence, and sends at most the transaction of
    that sequence. *)
Lemma commit_tick_effect build m er last w :
  let w' := fst (runMagicBlockCommitKeeperTick env deps build m er last w) in
  let l := last_requested m (db w) in
  (sent w' = sent w /\ last_requested m (db w') = l)
  \/ (MIN_COMMIT_TICK_MS <= clock env (reads w) - last /\ l + 1 <= er /\ last_requested m (db w') = l + 1
      /\ (sent w' = sent w \/ exists tx bh, build (l + 1, false) bh = Ok tx /\ sent w' = sent w ++ [(ER, tx)])).
Proof.
  cbv zeta. destruct (runMagicBlockCommitKeeperTick env deps build m er last w) as [w' r] eqn:E. cbn [fst]. revert E.
  unfold runMagicBlockCommitKeeperTick, mbind, eff_bind, mret, eff_ret. unfold read_clock at 1.
  destruct (Z.ltb_spec (clock env (reads w) - last) MIN_COMMIT_TICK_MS) as [|Ht]; [intros [= <- _]; by left|].
  change (on_db (CommitRecordRepository.lastRequestedSequence m) ?w)
    with (mkWorld (db w) (reads w) (sent w), Ok (last_requested m (db w))). cbn [db reads sent].
  set (l := last_requested m (db w)). destruct (Z.leb_spec er l) as [|Hl]; [intros [= <- _]; by left|].
  unfold runKeeperAction, mbind, eff_bind. unfold read_clock at 1. cbn [db reads sent].
  intros [[Hs|(w1 & Hs & Hw & _)]|Hs]%withDeadLetter_once.
  - left. pose proof (same_core_last_requested m _ _ Hs). by destruct Hs.
  - right. cbn [work] in Hw. pose proof (commit_work_effect build m (l + 1) w1) as [Hrec Hsend].
    pose proof (same_core_last_requested m _ _ Hw) as ->. pose proof (same_core_last_requested m _ _ Hs) as El.
    cbn in El. destruct Hs as [Hs0 _ _ Hc _ _], Hw as [Hw0 _ _ _ _ _]. cbn in *. split_and!; [lia|lia| |].
    + transitivity (last_requested m (db w1) + 1); [|by rewrite El].
      apply last_requested_next. intros n. rewrite Hrec, El. naive_solver.
    + rewrite Hw0. destruct Hsend as [->|(tx & bh & Hb & ->)]; [by left|]. right. exists tx, bh. by rewrite Hs0.
  - left. pose proof (same_core_last_requested m _ _ Hs). by destruct Hs.
Qed.

(** A sequence of commit ticks of one market: the rollup sequence and the time
    of the previous tick each time. *)
Fixpoint commit_ticks (build : Builder (Z * bool)) (m : string) (ticks : list (Z * Z)) (w : World) : World :=
  match ticks with
  | [] => w
  | (er, last) :: rest => commit_ticks build m rest (fst (runMagicBlockCommitKeeperTick env deps build m er last w))
  end.

(** C5. Each rollup sequence is requested at most once.  Over any run of commit
    ticks of a market, whatever the transports answer, the transactions sent
    are commit transactions for strictly increasing sequences, all after the
    last sequence requested before the run, never beyond the rollup's own; a
    sequence whose submission failed is not among the later ones, because its
    request was recorded before it was sent. *)
Theorem commit_sequence_requested_once build m ticks w bound :
  Forall (fun '(er, _) => er <= bound) ticks -> last_requested m (db w) <= bound ->
  exists seqs txs, sent (commit_ticks build m ticks w) = sent w ++ txs
    /\ Sorted.StronglySorted Z.lt seqs
    /\ Forall2 (fun s '(d, tx) => d = ER /\ exists bh, build (s, false) bh = Ok tx) seqs txs
    /\ Forall (fun s => last_requested m (db w) < s <= last_requested m (db (commit_ticks build m ticks w))) seqs
    /\ last_requested m (db w) <= last_requested m (db (commit_ticks build m ticks w)) <= bound.
Proof.
  revert w. induction ticks as [|[er last] rest IH]; intros w Ht Hb.
  { exists [], []. rewrite app_nil_r. split_and!; [done|constructor|constructor|constructor|done|done]. }
  cbn [commit_ticks]. apply Forall_cons_1 in Ht as [He Ht].
  pose proof (commit_tick_effect build m er last w) as Hw. cbv zeta in Hw.
  set (w1 := fst _) in *. destruct Hw as [[Hs Hl]|(_ & Hle & Hl & Hs)].
  - destruct (IH w1 Ht ltac:(lia)) as (seqs & txs & E & H1 & H2 & H3 & H4). rewrite Hl in H3, H4.
    exists seqs, txs. by rewrite E, Hs.
  - destruct (IH w1 Ht ltac:(lia)) as (seqs & txs & E & H1 & H2 & H3 & H4). rewrite Hl in H3, H4.
    assert (Forall (fun s => last_requested m (db w) < s <= last_requested m (db (commit_ticks build m rest w1))) seqs) as H3'
      by (eapply Forall_impl; [|exact H3]; cbn; lia).
    destruct Hs as [Hs|(tx & bh & Hbd & Hs)].
    + exists seqs, txs. rewrite E, Hs. split_and!; [done..|lia|lia].
    + exists (last_requested m (db w) + 1 :: seqs), ((ER, tx) :: txs). rewrite E, Hs, <- app_assoc.
      split_and!; [done|constructor; [done|]|constructor; [by eauto|done]|constructor; [lia|done]|lia|lia].
      eapply Forall_impl; [|exact H3]. cbn. lia.
Qed.
(** ** Cleanup ticks *)

(** The attempt id of the next sweep is already in the audit table. *)
Definition cleanup_offset (m : string) (d : Db) : Z :=
  default 0 (cursor_field "offset" (kc_cursor <$> keeper_cursors d !! ("cleanup", m))).

Definition sweep_recorded (m : string) (d : Db) : Prop :=
  is_Some (tx_attempts d !! ("cleanup:" +:+ m +:+ ":" +:+ pretty (cleanup_offset m d))).

Lemma cleanup_work_stuck build m offset sweepEnd bookSize w :
  is_Some (tx_attempts (db w) !! ("cleanup:" +:+ m +:+ ":" +:+ pretty offset)) ->
  db (fst (cleanup_work env build m offset sweepEnd bookSize w)) = db w.
Proof.
  intros Hid. destruct (cleanup_work env build m offset sweepEnd bookSize w) as [w' r] eqn:E. cbn [fst]. revert E.
  unfold cleanup_work, mbind, eff_bind, mret, eff_ret, eff_lift. unfold read_clock at 1. unfold get_blockhash.
  destruct (latestBlockhash env _ L1) as [[bh h]|e]; cbn [fst snd]; [|by intros [= <- _]].
  destruct (build _ bh) as [tx|e]; cbn [fst snd]; [|by intros [= <- _]].
  match goal with |- context [submitAndConfirm _ ?b ?c ?d ?e ?f ?g ?h ?w1] =>
    destruct (submit_taken b c d e f g h w1 Hid) as [Hdb [er He]];
    destruct (submitAndConfirm env b c d e f g h w1) as [w2 r2] end.
  cbn [fst snd] in Hdb, He. subst r2. by intros [= <- _].
Qed.

Lemma cleanup_tick_stuck build m bookSize w :
  sweep_recorded m (db w) ->
  let w' := fst (runCleanupKeeperTick env deps build m bookSize w) in
  tx_attempts (db w') = tx_attempts (db w) /\ keeper_cursors (db w') = keeper_cursors (db w).
Proof.
  intros Hid. cbv zeta. destruct (runCleanupKeeperTick env deps build m bookSize w) as [w' r] eqn:E. cbn [fst]. revert E.
  unfold runCleanupKeeperTick, mbind, eff_bind, mret, eff_ret.
  change (on_db (KeeperCursorRepository.get "cleanup" m) w)
    with (mkWorld (db w) (reads w) (sent w), Ok (kc_cursor <$> keeper_cursors (db w) !! ("cleanup", m))).
  change (default 0 (cursor_field "offset" (kc_cursor <$> keeper_cursors (db w) !! ("cleanup", m))))
    with (cleanup_offset m (db w)).
  destruct (bookSize =? 0); [by intros [= <- _]|].
  unfold read_clock at 1. unfold runKeeperAction, mbind, eff_bind. unfold read_clock at 1. cbn [db reads sent].
  intros [[Hs|(w1 & Hs & Hw & _)]|Hs]%withDeadLetter_once; [by destruct Hs| |by destruct Hs].
  cbn [work] in Hw. pose proof (cleanup_work_stuck build m (cleanup_offset m (db w))
    (Z.min (cleanup_offset m (db w) + CLEANUP_SWEEP_SIZE) bookSize) bookSize w1) as Hd.
  destruct Hs as [_ _ Ha _ Hc _], Hw as [_ _ Ha' _ Hc' _]. unfold cleanup_offset in Hd. cbn in Ha, Hc, Ha', Hc'.
  rewrite Hd in Ha', Hc' by (rewrite Ha; exact Hid). split; congruence.
Qed.

Fixpoint cleanup_ticks (build : Builder Z) (m : string) (books : list Z) (w : World) : World :=
  match books with
  | [] => w
  | b :: rest => cleanup_ticks build m rest (fst (runCleanupKeeperTick env deps build m b w))
  end.

(** The cleanup keeper sweeps every offset at most once per market, ever.
    The audit row of a sweep is keyed by its offset alone, so once the offset
    the cursor points to has been swept, every further tick, for any book and
    any answer of the transports, fails: no audit row is added and the cursor
    never moves again. *)
Theorem cleanup_never_resweeps build m books w :
  sweep_recorded m (db w) ->
  tx_attempts (db (cleanup_ticks build m books w)) = tx_attempts (db w)
  /\ keeper_cursors (db (cleanup_ticks build m books w)) = keeper_cursors (db w).
Proof.
  revert w. induction books as [|b rest IH]; intros w Hw; [done|]. cbn [cleanup_ticks].
  destruct (cleanup_tick_stuck build m b w Hw) as [Ht Hc]. set (w1 := fst _) in *.
  destruct (IH w1) as [-> ->]; [|done]. unfold sweep_recorded, cleanup_offset in *. by rewrite Ht, Hc.
Qed.
End SubmitProofs.

(** ** Witnesses *)

(** A clock that advances by a minute per read and transports that confirm. *)
Definition sample_env : Env := mkEnv (fun n => 60000 * (Z.of_nat n + 1)) (fun _ _ => Ok ("bh", 100))
  (fun _ _ tx => Ok ("sig-" +:+ tx)) (fun _ _ _ _ => Ok confirmed).
Definition sample_deps : KeeperDeps := default_deps "worker-1".
Definition sample_world : World := mkWorld empty_db 0 [].
Definition sample_build : Builder (Z * bool) := fun '(s, _) _ => Ok ("commit-" +:+ pretty s).

Lemma commit_sequence_requested_once_witness :
  exists seqs, Sorted.StronglySorted Z.lt seqs
    /\ sent (commit_ticks sample_env sample_deps sample_build "m" [(2, 0); (2, 0); (2, 0)] sample_world)
       = [(ER, "commit-1"); (ER, "commit-2")].
Proof.
  destruct (commit_sequence_requested_once sample_env sample_deps sample_build "m" [(2, 0); (2, 0); (2, 0)] sample_world 2)
    as (seqs & txs & _ & Hs & _); [repeat constructor; done|vm_compute; done|].
  exists seqs. split; [exact Hs|]. vm_compute. reflexivity.
Defined.

(** Its first sweep of a small book succeeds, the next ones fail. *)
Definition sample_swept : World :=
  fst (runCleanupKeeperTick sample_env sample_deps (fun n _ => Ok ("sweep-" +:+ pretty n)) "m" 20 sample_world).

Lemma cleanup_never_resweeps_witness :
  keeper_cursors (db sample_swept) !! ("cleanup", "m") = Some (mkKeeperCursorRow (JObj [("offset", JNum 0)]) 300000)
  /\ keeper_cursors (db (cleanup_ticks sample_env sample_deps (fun n _ => Ok ("sweep-" +:+ pretty n)) "m" [20; 50; 9]
       sample_swept)) = keeper_cursors (db sample_swept).
Proof.
  split; [vm_compute; reflexivity|]. apply cleanup_never_resweeps. vm_compute. by eexists.
Defined.

Definition sample_request : DurableKeeperRequest KeeperOutcome :=
  mkRequest "keeper:session:m" "worker-1" "session:m:open" "open" 1000 30000 60000
    (session_work sample_env (fun _ _ => Ok "tx") "m" funding_open).

Lemma session_work_frame env build m target : work_frame (session_work env build m target).
Proof.
  intros w. destruct (session_work env build m target w) as [w' r] eqn:E. cbn [fst]. revert E.
  unfold session_work, mbind, eff_bind, mret, eff_ret, eff_lift. unfold read_clock at 1. unfold get_blockhash.
  destruct (latestBlockhash env _ L1) as [[bh h]|e]; cbn [fst snd]; [|by intros [= <- _]].
  destruct (build _ bh) as [tx|e]; cbn [fst snd]; [|by intros [= <- _]].
  match goal with |- context [submitAndConfirm ?a ?b ?c ?d ?e ?f ?g ?h ?w1] =>
    pose proof (submit_frame a b c d e f g h w1) as Hs; destruct (submitAndConfirm a b c d e f g h w1) as [w2 [sig|er]] end;
    cbn in Hs; destruct Hs as (_ & _ & _ & _ & Hl & Ho); by intros [= <- _].
Qed.

