(* ===== verification/Orchestrator.v ===== *)
(** * The scheduled keeper run

    workers/src/commit-policy.ts, session-calendar.ts, active-markets.ts and
    keeper-orchestrator.ts: the policies that decide what a tick should do, the
    discovery of markets, and the scheduled run that composes the six ticks of
    Keepers.v under one scheduler lease. *)

From stdpp Require Import sorting.
From S2P Require Import Prelude Json Bytes ExecutionStatus Repositories V3Market MarkPrice PrivateSessions Risk Keepers.

(** ** commit-policy.ts *)

Inductive CommitAction := act_skip | act_observe_only | act_explicit_commit | act_commit_and_undelegate.

Record CommitPolicyInputs := mkCommitInputs {
  ci_isDelegated : bool; ci_currentErSequence : Z; ci_lastRequestedSequence : Z; ci_lastConfirmedSequence : Z;
  ci_openInterestChangedMaterially : bool; ci_fundingJustUpdated : bool; ci_liquidationJustHappened : bool;
  ci_marketJustHaltedOrCorpAction : bool; ci_withdrawalPending : bool; ci_undelegationPlanned : bool }.

Record CommitDecision := mkCommitDecision { cd_action : CommitAction; cd_reason : string }.

Definition explicitTriggerReason (i : CommitPolicyInputs) : option string :=
  if ci_marketJustHaltedOrCorpAction i then Some "market halt/corporate action"
  else if ci_withdrawalPending i then Some "pending withdrawal preparation"
  else if ci_liquidationJustHappened i then Some "liquidation occurred"
  else if ci_fundingJustUpdated i then Some "funding update occurred"
  else if ci_openInterestChangedMaterially i then Some "material open-interest change"
  else None.

Definition decideCommitAction (i : CommitPolicyInputs) : CommitDecision :=
  if negb (ci_isDelegated i) then mkCommitDecision act_skip "market is not delegated to an ephemeral rollup"
  else if ci_currentErSequence i <=? ci_lastRequestedSequence i
  then mkCommitDecision act_skip "no new ER sequence beyond what has already been requested"
  else if ci_undelegationPlanned i then mkCommitDecision act_commit_and_undelegate "planned undelegation"
  else match explicitTriggerReason i with
  | Some reason => mkCommitDecision act_explicit_commit reason
  | None =>
      if ci_currentErSequence i <=? ci_lastConfirmedSequence i
      then mkCommitDecision act_observe_only
             "sequence already covered by the automatic commit cadence; avoiding a duplicate explicit commit"
      else mkCommitDecision act_skip "no explicit trigger; waiting for the automatic commit cadence"
  end.

(** ** session-calendar.ts *)

Record CalendarConfig := mkCalendar {
  timeZone : string; preMarketOpen : string; regularOpen : string; regularClose : string; postMarketClose : string;
  holidays : list string; earlyCloses : gmap string string }.

Inductive PythTradingStatus := pts_open | pts_halted | pts_corp_action | pts_closed.

#[export] Instance pyth_status_eq_dec : EqDecision PythTradingStatus.
Proof. solve_decision. Defined.

(** The fields [Intl.DateTimeFormat] gives for an instant in a time zone. *)
Record DateParts := mkDateParts {
  dp_year : string; dp_month : string; dp_day : string; dp_weekday : string; dp_hour : Z; dp_minute : Z }.

(** [Number(s)] of the decimal fields of a time; [None] is [NaN]. *)
Fixpoint digits_value (acc : Z) (s : string) : option Z :=
  match s with
  | EmptyString => Some acc
  | String c rest =>
      let d := Z.of_nat (Ascii.nat_of_ascii c) - 48 in
      if (0 <=? d) && (d <=? 9) then digits_value (10 * acc + d) rest else None
  end.

(** [s.split(":")] *)
Fixpoint split_colon (s : string) : list string :=
  match s with
  | EmptyString => [EmptyString]
  | String c rest =>
      if bool_decide (c = Ascii.ascii_of_nat 58) then EmptyString :: split_colon rest
      else match split_colon rest with
           | f :: fs => String c f :: fs
           | [] => [String c EmptyString]
           end
  end.

Definition minutesOf (hhmm : string) : option Z :=
  match split_colon hhmm with
  | h :: m :: _ =>
      match digits_value 0 h, digits_value 0 m with
      | Some h, Some m => Some (h * 60 + m)
      | _, _ => None
      end
  | _ => None
  end.

(** [a >= b] and [a < b] against a number that may be [NaN]. *)
Definition ge_nan (a : Z) (b : option Z) : bool := match b with Some b => b <=? a | None => false end.
Definition lt_nan (a : Z) (b : option Z) : bool := match b with Some b => a <? b | None => false end.

Section Calendar.
(** [formatToParts]: the time-zone database of the platform. *)
Context (formatToParts : string -> Z -> DateParts).

Definition partsFor (config : CalendarConfig) (nowMs : Z) : string * string * Z :=
  let parts := formatToParts (timeZone config) nowMs in
  let date := dp_year parts +:+ "-" +:+ dp_month parts +:+ "-" +:+ dp_day parts in
  let hour := Z.rem (dp_hour parts) 24 in
  (date, dp_weekday parts, hour * 60 + dp_minute parts).

Definition sessionCalendarStatus (config : CalendarConfig) (nowMs : Z) : SessionCalendarStatus :=
  let '(date, weekday, minutesOfDay) := partsFor config nowMs in
  if bool_decide (weekday = "Sat") || bool_decide (weekday = "Sun") then cal_closed
  else if bool_decide (date ∈ holidays config) then cal_holiday
  else
    let close := minutesOf (default (regularClose config) (earlyCloses config !! date)) in
    let preOpen := minutesOf (preMarketOpen config) in
    let open := minutesOf (regularOpen config) in
    let postClose := minutesOf (postMarketClose config) in
    if ge_nan minutesOfDay open && lt_nan minutesOfDay close then cal_regular
    else if (ge_nan minutesOfDay preOpen && lt_nan minutesOfDay open)
         || (ge_nan minutesOfDay close && lt_nan minutesOfDay postClose) then cal_extended
    else cal_closed.

Definition deriveTargetSessionStatus (config : CalendarConfig) (nowMs : Z)
    (pythTradingStatus : option PythTradingStatus) (administratorOverride : option SessionCalendarStatus)
    : SessionCalendarStatus :=
  match administratorOverride with
  | Some s => s
  | None =>
      if bool_decide (pythTradingStatus = Some pts_halted) || bool_decide (pythTradingStatus = Some pts_corp_action)
      then cal_holiday
      else sessionCalendarStatus config nowMs
  end.
End Calendar.

Definition currentModeFor (marketMode : Z) : FundingMode :=
  if marketMode =? 1 then funding_open else if marketMode =? 2 then funding_close_only else funding_paused.

(** ** active-markets.ts *)

Inductive RegistryStatus := reg_active | reg_paused | reg_restricted.

#[export] Instance registry_status_eq_dec : EqDecision RegistryStatus.
Proof. solve_decision. Defined.

Record MarketRegistryRow := mkRegistryRow {
  mr_symbol : string; mr_instrumentId : string; mr_marketIndex : Z; mr_marketPda : string; mr_vaultPda : string;
  mr_status : RegistryStatus; mr_oracleFeedId : string; mr_sessionPolicy : string }.

Record ActiveMarket := mkActiveMarket { am_registry : MarketRegistryRow; am_state : MarketState }.

Record MarketDiscoveryError := mkDiscoveryError { de_symbol : string; de_marketPda : string; de_reason : string }.

(** [ORDER BY market_index] *)
Definition index_le (a b : MarketRegistryRow) : Prop := mr_marketIndex a <= mr_marketIndex b.
#[export] Instance index_le_dec a b : Decision (index_le a b).
Proof. unfold index_le. apply _. Defined.

Definition loadMarketRegistry (markets : list MarketRegistryRow) : list MarketRegistryRow :=
  merge_sort index_le markets.

Section Discovery.
Context (base58 : list Z -> string) (transport : MultipleAccounts).

(** One row: skipped, a market, or an error. *)
Definition discover_row (row : MarketRegistryRow) : option (ActiveMarket + MarketDiscoveryError) :=
  if bool_decide (mr_status row = reg_restricted) then None
  else Some (match fetchAuthoritativeMarketState base58 transport (mr_marketPda row) with
  | Throw e => inr (mkDiscoveryError (mr_symbol row) (mr_marketPda row) e)
  | Ok None => inr (mkDiscoveryError (mr_symbol row) (mr_marketPda row) "market account missing or failed to decode")
  | Ok (Some state) => inl (mkActiveMarket row state)
  end).

Fixpoint discover_loop (rows : list MarketRegistryRow) : list ActiveMarket * list MarketDiscoveryError :=
  match rows with
  | [] => ([], [])
  | row :: rest =>
      let '(markets, errors) := discover_loop rest in
      match discover_row row with
      | None => (markets, errors)
      | Some (inl m) => (m :: markets, errors)
      | Some (inr e) => (markets, e :: errors)
      end
  end.

Definition discoverActiveMarkets (table : list MarketRegistryRow) (maxMarkets : Z)
    : list ActiveMarket * list MarketDiscoveryError :=
  discover_loop (take (Z.to_nat maxMarkets) (loadMarketRegistry table)).
End Discovery.

(** ** keeper-orchestrator.ts *)

Record OrchestratorBuilders := mkBuilders {
  ob_pyth : Builder (list Z * string); ob_commit : Builder (Z * bool); ob_funding : Builder (Z * Z);
  ob_session : Builder FundingMode; ob_cleanup : Builder Z; ob_liquidation : Builder (Z * Z) }.

Record OrchestratorLimits := mkLimits {
  maxMarkets : Z; maxLiquidationCandidatesPerMarket : Z; cleanupSweepBudget : Z }.

Definition DEFAULT_LIMITS : OrchestratorLimits := mkLimits 50 8 128.

(** The deployment: its registry table, the L1 account reads (a function of the
    history, like every answer of the chain), whether a signer is configured,
    and the builders, which may refuse to be built. *)
Record OrchestratorDeps := mkOrchestratorDeps {
  od_env : Env;
  od_registry : list MarketRegistryRow;
  od_l1 : World -> MultipleAccounts;
  od_base58 : list Z -> string;
  od_formatToParts : string -> Z -> DateParts;
  od_signer : bool;
  od_buildersFor : string -> result OrchestratorBuilders;
  od_pythSource : option PythUpdateSource;
  od_calendars : gmap string CalendarConfig;
  od_pythTradingStatus : gmap string PythTradingStatus;
  od_fundingPolicy : FundingPolicy;
  od_holder : string;
  od_limits : OrchestratorLimits }.

Record MarketRunResult := mkMarketRun {
  rr_marketPda : string; rr_symbol : string; rr_pyth : option KeeperOutcome; rr_session : option KeeperOutcome;
  rr_funding : option KeeperOutcome; rr_liquidations : list KeeperOutcome; rr_cleanup : option KeeperOutcome;
  rr_commit : option KeeperOutcome; rr_error : option string }.

Record OrchestratorRunSummary := mkRunSummary {
  rs_runId : string; rs_leaseAcquired : bool; rs_marketsDiscovered : Z;
  rs_discoveryErrors : list MarketDiscoveryError; rs_results : list MarketRunResult }.

Definition SCHEDULER_LEASE_KEY : string := "scheduler:keepers".

Definition observation_only : KeeperOutcome := idle "no keeper signer configured; observation only".

Section Orchestrator.
Context (deps : OrchestratorDeps).

Definition keeperDeps : KeeperDeps := default_deps (od_holder deps).
Definition env : Env := od_env deps.
Definition builders (marketPda : string) : eff World OrchestratorBuilders := eff_lift (od_buildersFor deps marketPda).

Definition pyth_step (marketPda : string) : eff World KeeperOutcome :=
  match od_pythSource deps with
  | None => mret (idle "configuration_blocked: no PYTH_PRO_API_KEY configured")
  | Some source =>
      if negb (od_signer deps) then mret observation_only
      else b ← builders marketPda; runPythKeeperTick env keeperDeps (ob_pyth b) source marketPda
  end.

Definition session_transition_step (market : ActiveMarket) (now : Z) : eff World KeeperOutcome :=
  let marketPda := mr_marketPda (am_registry market) in
  match od_calendars deps !! marketPda with
  | None => mret (idle "no session calendar configured for this market")
  | Some calendar =>
      if negb (od_signer deps) then mret observation_only
      else
        let targetStatus := deriveTargetSessionStatus (od_formatToParts deps) calendar now
                              (od_pythTradingStatus deps !! marketPda) None in
        let currentMode := currentModeFor (ms_mode (am_state market)) in
        b ← builders marketPda;
        runMarketSessionKeeperTick env keeperDeps (ob_session b) marketPda targetStatus currentMode
  end.

Definition funding_step (market : ActiveMarket) (now : Z) : eff World KeeperOutcome :=
  let marketPda := mr_marketPda (am_registry market) in
  let state := am_state market in
  let decision := fundingTickDecision state (currentModeFor (ms_mode state)) (od_fundingPolicy deps) now
                    (ms_lastVerifiedOraclePrice state) in
  match fd_eligible decision, fd_input decision with
  | true, Some input =>
      if negb (od_signer deps) then mret observation_only
      else b ← builders marketPda; runFundingKeeperTick env keeperDeps (ob_funding b) marketPda input
  | _, _ => mret (idle (fd_reason decision))
  end.

(** The authoritative re-read the liquidation tick is given. *)
Definition reReadSeat (marketPda : string) (candidate : LiquidationProjectionCandidate) (w : World)
    : result ReReadResult :=
  reread ← reReadLiquidationCandidate (od_base58 deps) (od_l1 deps w) marketPda candidate;
  Ok (match reread with
      | liquidatable quantity => mkReRead true true quantity
      | stale_oracle => mkReRead false false 0
      | _ => mkReRead false true 0
      end).

Fixpoint liquidate_candidates (marketPda : string) (candidates : list LiquidationProjectionCandidate)
    : eff World (list KeeperOutcome) :=
  match candidates with
  | [] => mret []
  | candidate :: rest =>
      b ← builders marketPda;
      w ← eff_get;
      outcome ← runLiquidationKeeperTick env keeperDeps (ob_liquidation b) marketPda (toKeeperCandidate candidate)
                  (reReadSeat marketPda candidate w);
      outcomes ← liquidate_candidates marketPda rest;
      mret (outcome :: outcomes)
  end.

Definition liquidation_step (market : ActiveMarket) : eff World (list KeeperOutcome) :=
  let marketPda := mr_marketPda (am_registry market) in
  w ← eff_get;
  accountBytes ← eff_lift (fetchAuthoritativeMarketAccountBytes (od_l1 deps w) marketPda);
  if negb (od_signer deps) then mret [observation_only]
  else match accountBytes with
  | None => mret []
  | Some accountBytes =>
      decoded ← eff_lift (decodeMarketHeader (od_base58 deps) accountBytes);
      let header := default (am_state market) decoded in
      stored ← on_db (KeeperCursorRepository.get "liquidation" marketPda);
      scan ← eff_lift (scanLiquidationCandidates (od_base58 deps) accountBytes header
                         (default 0 (cursor_field "seatIndex" stored))
                         (maxLiquidationCandidatesPerMarket (od_limits deps)));
      at_ ← read_clock env;
      _ ← on_db (KeeperCursorRepository.set "liquidation" marketPda (JObj [("seatIndex", JNum (snd scan))]) at_);
      liquidate_candidates marketPda (fst scan)
  end.

Definition cleanup_step (marketPda : string) : eff World KeeperOutcome :=
  if negb (od_signer deps) then mret observation_only
  else b ← builders marketPda;
       runCleanupKeeperTick env keeperDeps (ob_cleanup b) marketPda (cleanupSweepBudget (od_limits deps)).

Definition outcome_ran (o : option KeeperOutcome) : bool :=
  match o with Some o => ran o | None => false end.

Definition runCommit (marketPda : string) (marketResult : MarketRunResult) (b : OrchestratorBuilders)
    : eff World KeeperOutcome :=
  now ← read_clock env;
  stored ← on_db (KeeperCursorRepository.get "commit" marketPda);
  let lastCommitTickAt := default 0 (cursor_field "lastTickAt" stored) in
  _ ← on_db (KeeperCursorRepository.set "commit" marketPda (JObj [("lastTickAt", JNum now)]) now);
  persisted ← on_db (ExecutionStatusRepository.get marketPda);
  let st := default l1_only (status <$> persisted) in
  let isDelegated := negb (bool_decide (st = l1_only)) && negb (bool_decide (st = restored))
                     && negb (bool_decide (st = reconciliation_error)) in
  if negb isDelegated then mret (idle "market is not delegated to an ephemeral rollup")
  else
    let erEventSequence := default 0 ((fun s => erEventSequence (sequences s)) <$> persisted) in
    let l1Finalized := default 0 ((fun s => l1FinalizedCommitSequence (sequences s)) <$> persisted) in
    lastRequestedSequence ← on_db (CommitRecordRepository.lastRequestedSequence marketPda);
    let decision := decideCommitAction (mkCommitInputs isDelegated erEventSequence lastRequestedSequence l1Finalized
      false (outcome_ran (rr_funding marketResult)) (existsb ran (rr_liquidations marketResult))
      (outcome_ran (rr_session marketResult)) false false) in
    match cd_action decision with
    | act_skip | act_observe_only => mret (idle (cd_reason decision))
    | _ => runMagicBlockCommitKeeperTick env keeperDeps (ob_commit b) marketPda erEventSequence lastCommitTickAt
    end.

Definition commit_step (marketPda : string) (marketResult : MarketRunResult) : eff World KeeperOutcome :=
  if negb (od_signer deps) then mret observation_only
  else b ← builders marketPda; runCommit marketPda marketResult b.

Definition runMarket (market : ActiveMarket) : eff World MarketRunResult :=
  let marketPda := mr_marketPda (am_registry market) in
  let symbol := mr_symbol (am_registry market) in
  now ← read_clock env;
  pyth ← pyth_step marketPda;
  session ← session_transition_step market now;
  funding ← funding_step market now;
  liquidations ← liquidation_step market;
  cleanup ← cleanup_step marketPda;
  let partial := mkMarketRun marketPda symbol (Some pyth) (Some session) (Some funding) liquidations (Some cleanup)
                   None None in
  commit ← commit_step marketPda partial;
  mret (mkMarketRun marketPda symbol (Some pyth) (Some session) (Some funding) liquidations (Some cleanup)
          (Some commit) None).

(** [this.runMarket(market).catch(...)]: what the market had done so far is
    dropped from the summary. *)
Definition run_market_caught (market : ActiveMarket) : eff World MarketRunResult :=
  eff_catch (runMarket market) (fun message =>
    mret (mkMarketRun (mr_marketPda (am_registry market)) (mr_symbol (am_registry market)) None None None [] None None
            (Some message))).

Fixpoint run_markets (markets : list ActiveMarket) : eff World (list MarketRunResult) :=
  match markets with
  | [] => mret []
  | market :: rest =>
      r ← run_market_caught market;
      rs ← run_markets rest;
      mret (r :: rs)
  end.

(** The body of the [try]. *)
Definition run_all (runId : string) : eff World OrchestratorRunSummary :=
  w ← eff_get;
  let '(markets, errors) := discoverActiveMarkets (od_base58 deps) (od_l1 deps w) (od_registry deps)
                              (maxMarkets (od_limits deps)) in
  results ← run_markets markets;
  mret (mkRunSummary runId true (Z.of_nat (length markets)) errors results).

Definition run (runId : string) : eff World OrchestratorRunSummary :=
  now ← read_clock env;
  lease ← on_db (ProtocolRepository.acquire SCHEDULER_LEASE_KEY (od_holder deps) 55000 now);
  match lease with
  | None => mret (mkRunSummary runId false 0 [] [])
  | Some lease => eff_finally (run_all runId) (on_db (ProtocolRepository.release lease))
  end.
End Orchestrator.

(** ** Discovery *)

(** What a row contributes to the markets and to the errors. *)
Definition row_market base58 rpc (row : MarketRegistryRow) : option ActiveMarket :=
  match discover_row base58 rpc row with Some (inl m) => Some m | _ => None end.
Definition row_error base58 rpc (row : MarketRegistryRow) : option MarketDiscoveryError :=
  match discover_row base58 rpc row with Some (inr e) => Some e | _ => None end.

Lemma discover_loop_omap base58 rpc rows :
  discover_loop base58 rpc rows = (omap (row_market base58 rpc) rows, omap (row_error base58 rpc) rows).
Proof.
  induction rows as [|row rest IH]; [done|]. cbn. rewrite IH. unfold row_market, row_error.
  by destruct (discover_row base58 rpc row) as [[m|e]|].
Qed.

(** Discovery over a registry: only the first [maxMarkets] rows in index
    order are ever looked at, so a row past the bound is visited by no
    invocation; among those every row that is not restricted is reported
    exactly once and in order, as a market with the state decoded from its own
    account or as an error with its reason, and a failing row never hides
    another one. *)
Theorem discovery_spec base58 rpc table n :
  let visited := take (Z.to_nat n) (loadMarketRegistry table) in
  let '(markets, errors) := discoverActiveMarkets base58 rpc table n in
  loadMarketRegistry table ≡ₚ table
  /\ markets = omap (row_market base58 rpc) visited /\ errors = omap (row_error base58 rpc) visited
  /\ (forall row, row ∈ visited -> mr_status row ≠ reg_restricted ->
        (exists m, row_market base58 rpc row = Some m /\ row_error base58 rpc row = None
           /\ am_registry m = row /\ fetchAuthoritativeMarketState base58 rpc (mr_marketPda row) = Ok (Some (am_state m)))
        \/ (exists e, row_error base58 rpc row = Some e /\ row_market base58 rpc row = None
           /\ forall s, fetchAuthoritativeMarketState base58 rpc (mr_marketPda row) ≠ Ok (Some s)))
  /\ Z.of_nat (length markets + length errors) <= Z.max 0 n.
Proof.
  cbv zeta. unfold discoverActiveMarkets. rewrite discover_loop_omap. set (visited := take _ _).
  split_and!; [apply merge_sort_Permutation|done|done| |].
  - intros row _ Hr. unfold row_market, row_error, discover_row. rewrite bool_decide_eq_false_2 by done.
    destruct (fetchAuthoritativeMarketState _ _ _) as [[s|]|e]; [left|right|right]; eexists; cbn; by eauto.
  - assert (length visited <= Z.to_nat n)%nat by (subst visited; rewrite length_take; lia).
    assert (length (omap (row_market base58 rpc) visited) + length (omap (row_error base58 rpc) visited) <= length visited)%nat.
    { clearbody visited. clear. induction visited as [|row rest IH]; [done|]. cbn. unfold row_market at 1, row_error at 1.
      destruct (discover_row base58 rpc row) as [[?|?]|]; cbn; lia. }
    lia.
Qed.

(** ** Session policy *)

Lemma shut_never_opens s m : s = cal_closed \/ s = cal_holiday -> sessionTransitionFor s m ≠ Some funding_open.
Proof. unfold sessionTransitionFor. intros [->| ->]; by case_bool_decide. Qed.

(** The session policy.  Without an administrator override a signed halt or
    corporate action, a weekend and a configured holiday never make the keeper
    open a market; on every other day, with hours in order, the calendar is
    regular exactly within the (possibly early) regular hours, extended exactly
    in the two windows around them, and closed otherwise.  But an emergency
    market is mapped to the paused mode, so during regular hours the keeper
    asks to open it. *)
Theorem session_policy parts config now pyth mode :
  let '(date, weekday, t) := partsFor parts config now in
  let close := default (regularClose config) (earlyCloses config !! date) in
  let calendar := sessionCalendarStatus parts config now in
  let transition := sessionTransitionFor (deriveTargetSessionStatus parts config now pyth None) in
  (pyth = Some pts_halted \/ pyth = Some pts_corp_action \/ weekday = "Sat" \/ weekday = "Sun" \/ date ∈ holidays config ->
     transition (currentModeFor mode) ≠ Some funding_open)
  /\ (forall p o c q, minutesOf (preMarketOpen config) = Some p -> minutesOf (regularOpen config) = Some o ->
        minutesOf close = Some c -> minutesOf (postMarketClose config) = Some q -> p <= o <= c -> c <= q ->
        weekday ≠ "Sat" -> weekday ≠ "Sun" -> date ∉ holidays config ->
        (calendar = cal_regular <-> o <= t < c) /\ (calendar = cal_extended <-> p <= t < o \/ c <= t < q)
        /\ (calendar = cal_closed <-> ~ (p <= t < q)))
  /\ (calendar = cal_regular -> pyth = None -> transition (currentModeFor MarketMode.Emergency) = Some funding_open).
Proof.
  unfold deriveTargetSessionStatus, sessionCalendarStatus.
  destruct (partsFor parts config now) as [[date weekday] t]. cbv zeta. split_and!.
  - intros Hcase. destruct (bool_decide (pyth = Some pts_halted)) eqn:E1; cbn [orb];
      [by apply shut_never_opens; right|].
    destruct (bool_decide (pyth = Some pts_corp_action)) eqn:E2; cbn [orb];
      [by apply shut_never_opens; right|].
    apply bool_decide_eq_false in E1, E2.
    destruct (bool_decide (weekday = "Sat") || bool_decide (weekday = "Sun")) eqn:E3;
      [by apply shut_never_opens; left|].
    apply orb_false_iff in E3 as [?%bool_decide_eq_false ?%bool_decide_eq_false].
    rewrite bool_decide_eq_true_2 by naive_solver. by apply shut_never_opens; right.
  - intros p o c q -> -> -> -> Hpoc Hcq Hsat Hsun Hhol. rewrite !bool_decide_eq_false_2 by done. cbn [orb ge_nan lt_nan].
    destruct (Z.leb_spec o t), (Z.ltb_spec t c), (Z.leb_spec p t), (Z.leb_spec c t), (Z.ltb_spec t q), (Z.ltb_spec t o);
      cbn; (split_and!; split; intros; try done; lia).
  - intros -> ->. done.
Qed.

(** New York hours, on a Friday at 10:00. *)
Definition sample_calendar : CalendarConfig :=
  mkCalendar "America/New_York" "04:00" "09:30" "16:00" "20:00" ["2026-12-25"] ∅.
Definition sample_parts : string -> Z -> DateParts := fun _ _ => mkDateParts "2026" "11" "20" "Fri" 10 0.

Lemma session_policy_witness :
  sessionTransitionFor (deriveTargetSessionStatus sample_parts sample_calendar 0 (Some pts_halted) None) funding_paused
    ≠ Some funding_open
  /\ sessionCalendarStatus sample_parts sample_calendar 0 = cal_regular.
Proof.
  pose proof (session_policy sample_parts sample_calendar 0 (Some pts_halted) 0) as H.
  change (partsFor sample_parts sample_calendar 0) with ("2026-11-20", "Fri", 600) in H. cbv iota in H.
  destruct H as (H1 & H2 & _). split; [apply H1; by left|].
  apply (H2 240 570 960 1200); try done; try lia. vm_compute. set_solver.
Defined.

(** ** Observation without a signer *)

(** Nothing sent and nothing written. *)
Definition observed (w w' : World) : Prop := db w' = db w /\ sent w' = sent w.

#[export] Instance observed_preorder : PreOrder observed.
Proof. split; [by intros w|]. intros w1 w2 w3 [] []. split; congruence. Qed.

Lemma read_clock_observed e : preserves observed (read_clock e).
Proof. by intros w. Qed.
#[export] Hint Resolve read_clock_observed : frame.

Lemma runMarket_observed deps market : od_signer deps = false -> preserves observed (runMarket deps market).
Proof.
  intros Hs. unfold runMarket, pyth_step, session_transition_step, funding_step, liquidation_step, cleanup_step,
    commit_step. rewrite Hs. cbn [negb]. frame_tac.
Qed.

Lemma run_markets_observed deps markets : od_signer deps = false -> preserves observed (run_markets deps markets).
Proof.
  intros Hs. induction markets as [|market rest IH]; cbn [run_markets]; [frame_tac|].
  pose proof (runMarket_observed deps market Hs). unfold run_market_caught. frame_tac.
Qed.

(** ** The scheduler lease *)

Definition lease_untouched (k : string) (w w' : World) : Prop :=
  keeper_leases (db w') !! k = keeper_leases (db w) !! k.

#[export] Instance lease_untouched_preorder k : PreOrder (lease_untouched k).
Proof. unfold lease_untouched. split; [by intros w|]. intros w1 w2 w3. congruence. Qed.

Lemma on_db_untouched {A} k (m : eff Db A) :
  (forall d, keeper_leases (fst (m d)) = keeper_leases d) -> preserves (lease_untouched k) (on_db m).
Proof. intros Hm w. unfold lease_untouched, on_db. specialize (Hm (db w)). destruct (m (db w)). cbn in *. congruence. Qed.

Ltac untouched_tac :=
  apply on_db_untouched; intros ?; run_eff; repeat case_match; simplify_eq/=; done.

Section Untouched.
Context (k : string).
Abbreviation untouched := (preserves (lease_untouched k)).

Lemma reserve_untouched a b c t n : untouched (on_db (ProtocolRepository.reserve a b c t n)).
Proof. unfold ProtocolRepository.reserve. untouched_tac. Qed.
Lemma operation_untouched a : untouched (on_db (ProtocolRepository.operation a)).
Proof. unfold ProtocolRepository.operation. untouched_tac. Qed.
Lemma finish_untouched a o b v l n : untouched (on_db (ProtocolRepository.finish a o b v l n)).
Proof. unfold ProtocolRepository.finish. untouched_tac. Qed.
Lemma dl_record_untouched i o p e n : untouched (on_db (DeadLetterRepository.record i o p e n)).
Proof. unfold DeadLetterRepository.record. untouched_tac. Qed.
Lemma dl_resolve_untouched i : untouched (on_db (DeadLetterRepository.resolve i)).
Proof. unfold DeadLetterRepository.resolve. untouched_tac. Qed.
Lemma dl_giveUp_untouched i u : untouched (on_db (DeadLetterRepository.giveUp i u)).
Proof. unfold DeadLetterRepository.giveUp. untouched_tac. Qed.
Lemma submitted_untouched a b c d e f : untouched (on_db (TxAttemptRepository.submitted a b c d e f)).
Proof. unfold TxAttemptRepository.submitted. untouched_tac. Qed.
Lemma resolved_untouched a b c d : untouched (on_db (TxAttemptRepository.resolved a b c d)).
Proof. unfold TxAttemptRepository.resolved. untouched_tac. Qed.
Lemma applied_untouched a b c : untouched (on_db (OracleUpdateRepository.alreadyApplied a b c)).
Proof. unfold OracleUpdateRepository.alreadyApplied. untouched_tac. Qed.
Lemma oracle_record_untouched a b c d e f : untouched (on_db (OracleUpdateRepository.record a b c d e f)).
Proof. unfold OracleUpdateRepository.record. untouched_tac. Qed.
Lemma last_untouched a : untouched (on_db (CommitRecordRepository.lastRequestedSequence a)).
Proof. unfold CommitRecordRepository.lastRequestedSequence. untouched_tac. Qed.
Lemma commit_record_untouched a b c d e f : untouched (on_db (CommitRecordRepository.record a b c d e f)).
Proof. unfold CommitRecordRepository.record. untouched_tac. Qed.
Lemma status_get_untouched a : untouched (on_db (ExecutionStatusRepository.get a)).
Proof. unfold ExecutionStatusRepository.get. untouched_tac. Qed.
Lemma cursor_get_untouched a b : untouched (on_db (KeeperCursorRepository.get a b)).
Proof. unfold KeeperCursorRepository.get. untouched_tac. Qed.
Lemma cursor_set_untouched a b c d : untouched (on_db (KeeperCursorRepository.set a b c d)).
Proof. unfold KeeperCursorRepository.set. untouched_tac. Qed.
Lemma read_clock_untouched e : untouched (read_clock e).
Proof. by intros w. Qed.
Lemma get_blockhash_untouched e d : untouched (get_blockhash e d).
Proof. by intros w. Qed.
Lemma send_untouched e d tx : untouched (send e d tx).
Proof. by intros w. Qed.
Lemma confirm_untouched e d s h : untouched (confirm e d s h).
Proof. by intros w. Qed.
End Untouched.

#[export] Hint Resolve reserve_untouched operation_untouched finish_untouched dl_record_untouched dl_resolve_untouched
  dl_giveUp_untouched submitted_untouched resolved_untouched applied_untouched oracle_record_untouched last_untouched
  commit_record_untouched status_get_untouched cursor_get_untouched cursor_set_untouched read_clock_untouched
  get_blockhash_untouched send_untouched confirm_untouched : frame.

Section Ticks.
Context (k : string).
Abbreviation untouched := (preserves (lease_untouched k)).

Lemma submit_untouched e a b c d tx h n : untouched (submitAndConfirm e a b c d tx h n).
Proof. unfold submitAndConfirm. frame_tac. Qed.

(** A durable request touches only its own lease. *)
Lemma runDurableKeeper_untouched {T} `{Json T} (req : DurableKeeperRequest T) :
  leaseKey req ≠ k -> untouched (work req) -> untouched (runDurableKeeper req).
Proof.
  intros Hk Hw w. unfold runDurableKeeper. unfold mbind at 1, eff_bind at 1. unfold on_db at 1.
  assert (forall lease, untouched (reserve_and_run req lease)) as Hr
    by (intros lease; unfold reserve_and_run, run_reserved; frame_tac).
  destruct (acquire_cases (leaseKey req) (holder req) (leaseTtlMs req) (now req) (db w))
    as [[e ->]|[[-> _]|(fence & -> & _)]]; [by destruct w..|].
  set (w1 := mkWorld _ _ _). set (lease := mkLease _ _ _ _).
  destruct (finally_release (reserve_and_run req lease) lease w1) as (w2 & E & _ & _).
  unfold lease_untouched, eff_finally. specialize (Hr lease w1). destruct (reserve_and_run req lease w1) as [w3 r].
  cbn [fst] in Hr. unfold lease_untouched in Hr. unfold on_db.
  assert (keeper_leases (fst (ProtocolRepository.release lease (db w3))) !! k = keeper_leases (db w3) !! k) as Hrel.
  { destruct (release_cases lease (db w3)) as [->|(a & _ & _ & ->)]; [done|]. cbn. by rewrite lookup_insert_ne. }
  destruct (ProtocolRepository.release lease (db w3)) as [d' [b|e]]; cbn [fst] in *;
    (cbn [db]; rewrite Hrel, Hr; cbn; by rewrite lookup_insert_ne).
Qed.

Lemma runKeeperAction_untouched e deps kind m s h (wk : eff World KeeperOutcome) :
  keeperLeaseKey kind (Some m) ≠ k -> untouched wk -> untouched (runKeeperAction e deps kind m s h wk).
Proof.
  intros Hk Hw. unfold runKeeperAction. apply preserves_bind; [typeclasses eauto|frame_tac|intros n].
  unfold runDurableKeeperWithDeadLetter, record_failure.
  match goal with |- context [runDurableKeeper ?q] => pose proof (runDurableKeeper_untouched q Hk Hw) end.
  frame_tac.
Qed.
End Ticks.
#[export] Hint Resolve submit_untouched : frame.

Lemma keeper_key_not_scheduler kind m : keeperLeaseKey kind (Some m) ≠ SCHEDULER_LEASE_KEY.
Proof. unfold keeperLeaseKey. case_bool_decide; by destruct kind. Qed.

(** Every step of a market leaves the scheduler lease alone. *)
Lemma runMarket_untouched deps market : preserves (lease_untouched SCHEDULER_LEASE_KEY) (runMarket deps market).
Proof.
  pose proof keeper_key_not_scheduler as Hkey.
  assert (forall e d kind m s h wk, preserves (lease_untouched SCHEDULER_LEASE_KEY) wk ->
    preserves (lease_untouched SCHEDULER_LEASE_KEY) (runKeeperAction e d kind m s h wk)) as Hact
    by (intros; by apply runKeeperAction_untouched).
  assert (forall m cs, preserves (lease_untouched SCHEDULER_LEASE_KEY) (liquidate_candidates deps m cs)) as Hliq.
  { intros m cs. induction cs; cbn [liquidate_candidates]; [frame_tac|].
    unfold builders, runLiquidationKeeperTick, liquidation_work. frame_tac; apply Hact; frame_tac. }
  unfold runMarket, pyth_step, session_transition_step, funding_step, liquidation_step, cleanup_step, commit_step,
    builders, runCommit.
  unfold runPythKeeperTick, runMarketSessionKeeperTick, runFundingKeeperTick, runCleanupKeeperTick,
    runMagicBlockCommitKeeperTick, pyth_work, session_work, funding_work, cleanup_work, commit_work.
  frame_tac; apply Hact; frame_tac.
Qed.

(** ** A scheduled run *)

Lemma run_markets_untouched deps markets :
  preserves (lease_untouched SCHEDULER_LEASE_KEY) (run_markets deps markets).
Proof.
  induction markets as [|market rest IH]; cbn [run_markets]; [frame_tac|].
  pose proof (runMarket_untouched deps market). unfold run_market_caught. frame_tac.
Qed.

(** A market's failure is a result, so the loop always completes. *)
Lemma run_markets_total deps markets w :
  exists rs, snd (run_markets deps markets w) = Ok rs
    /\ (rr_marketPda <$> rs) = (fun m => mr_marketPda (am_registry m)) <$> markets.
Proof.
  revert w. induction markets as [|market rest IH]; intros w; [by exists []|].
  cbn [run_markets]. unfold mbind, eff_bind, mret, eff_ret.
  assert (exists w1 r, run_market_caught deps market w = (w1, Ok r) /\ rr_marketPda r = mr_marketPda (am_registry market))
    as (w1 & r & -> & Hr).
  { unfold run_market_caught, eff_catch. destruct (runMarket deps market w) as [w1 [r|e]] eqn:E; [|by eexists _, _].
    exists w1, r. split; [done|]. revert E. unfold runMarket.
    intros (? & ? & _ & E)%eff_bind_Ok. do 6 (apply eff_bind_Ok in E as (? & ? & _ & E)). by injection E as _ <-. }
  destruct (IH w1) as (rs & Hrs & Hp). destruct (run_markets deps rest w1) as [w2 r2]. cbn in *. subst r2.
  exists (r :: rs). cbn. by rewrite Hr, Hp.
Qed.

Lemma run_all_total deps runId w :
  let '(markets, errors) := discoverActiveMarkets (od_base58 deps) (od_l1 deps w) (od_registry deps)
                              (maxMarkets (od_limits deps)) in
  exists rs, snd (run_all deps runId w) = Ok (mkRunSummary runId true (Z.of_nat (length markets)) errors rs)
    /\ (rr_marketPda <$> rs) = (fun m => mr_marketPda (am_registry m)) <$> markets.
Proof.
  unfold run_all, mbind, eff_bind, mret, eff_ret, eff_get. destruct (discoverActiveMarkets _ _ _ _) as [markets errors].
  destruct (run_markets_total deps markets w) as (rs & Hrs & Hp).
  destruct (run_markets deps markets w) as [w1 r1]. cbn in Hrs. subst r1. by exists rs.
Qed.

Lemma run_all_untouched deps runId : preserves (lease_untouched SCHEDULER_LEASE_KEY) (run_all deps runId).
Proof. pose proof (run_markets_untouched deps). unfold run_all. frame_tac. Qed.

Lemma run_all_observed deps runId : od_signer deps = false -> preserves observed (run_all deps runId).
Proof. intros Hs. pose proof (fun ms => run_markets_observed deps ms Hs). unfold run_all. frame_tac. Qed.

(** C6. A scheduled run, whatever the chain and the transports answer.  Either its
    parameters are refused before anything happened, or another holder's
    scheduler lease is live and the run does nothing at all, or it takes the
    lease, always completes with exactly one result per discovered market, in
    order (a market whose steps threw is reported as its error), and gives the
    scheduler lease back, so the next run can take it at any later time. *)
Theorem scheduled_run_spec deps runId w w' r :
  run deps runId w = (w', r) ->
  let now := clock (od_env deps) (reads w) in
  (db w' = db w /\ sent w' = sent w
     /\ ((exists e, r = Throw e)
         \/ (r = Ok (mkRunSummary runId false 0 [] [])
             /\ exists a, keeper_leases (db w) !! SCHEDULER_LEASE_KEY = Some a /\ now < lr_expires_at a)))
  \/ (exists w0 markets errors rs,
        discoverActiveMarkets (od_base58 deps) (od_l1 deps w0) (od_registry deps) (maxMarkets (od_limits deps))
          = (markets, errors)
        /\ sent w0 = sent w
        /\ r = Ok (mkRunSummary runId true (Z.of_nat (length markets)) errors rs)
        /\ (rr_marketPda <$> rs) = (fun m => mr_marketPda (am_registry m)) <$> markets
        /\ exists a, keeper_leases (db w') !! SCHEDULER_LEASE_KEY = Some a /\ lr_expires_at a = 0).
Proof.
  intros Hrun. cbv zeta. revert Hrun. unfold run, mbind, eff_bind, mret, eff_ret. unfold read_clock at 1, on_db at 1.
  cbn [db reads sent]. unfold env. set (now := clock (od_env deps) (reads w)).
  destruct (acquire_cases SCHEDULER_LEASE_KEY (od_holder deps) 55000 now (db w))
    as [[e ->]|[[-> Ha]|(fence & -> & _)]]; [intros [= <- <-]; left; by eauto 6..|].
  set (w0 := mkWorld _ _ _). set (lease := mkLease _ _ _ _). intros Hrun. right.
  pose proof (run_all_total deps runId w0) as Hall. pose proof (run_all_untouched deps runId w0) as Hlease.
  destruct (discoverActiveMarkets _ _ _ _) as [markets errors] eqn:Ed. destruct Hall as (rs & Hr & Hp).
  exists w0, markets, errors, rs. split; [done|]. split; [done|]. revert Hrun. unfold eff_finally.
  destruct (run_all deps runId w0) as [w1 r1]. cbn in Hr, Hlease. subst r1.
  unfold lease_untouched in Hlease. cbn in Hlease. rewrite lookup_insert_eq in Hlease. unfold on_db, ProtocolRepository.release. run_eff.
  change (lease_key lease) with SCHEDULER_LEASE_KEY. rewrite Hlease. unfold ProtocolRepository.lease_matches. cbn.
  rewrite bool_decide_eq_true_2, Z.eqb_refl by done. cbn. intros [= <- <-].
  split; [done|]. split; [done|]. eexists. cbn. rewrite lookup_insert_eq. by split.
Qed.

(** What a run without a keeper signer leaves behind: no transaction was handed to
    any transport and, apart from the scheduler lease, the database is exactly
    as before. *)
Definition observed_run (w w' : World) : Prop :=
  sent w' = sent w /\ db w' = on_keeper_leases (fun _ => keeper_leases (db w')) (db w).

Lemma unsigned_run_observes deps runId w : od_signer deps = false -> observed_run w (fst (run deps runId w)).
Proof.
  intros Hs. unfold observed_run. destruct (run deps runId w) as [w' r] eqn:Hrun. cbn [fst]. revert Hrun.
  unfold run. unfold mbind, eff_bind, mret, eff_ret. unfold read_clock at 1, on_db at 1.
  cbn [db reads sent]. set (now := clock (env deps) (reads w)).
  destruct (acquire_cases SCHEDULER_LEASE_KEY (od_holder deps) 55000 now (db w))
    as [[e ->]|[[-> Ha]|(fence & -> & _)]]; [intros [= <- _]; by destruct (db w)..|].
  set (w0 := mkWorld _ _ _). set (lease := mkLease _ _ _ _). unfold eff_finally.
  pose proof (run_all_observed deps runId Hs w0) as [Hd Hsent]. destruct (run_all deps runId w0) as [w1 r1].
  cbn in Hd, Hsent. unfold on_db, ProtocolRepository.release. run_eff. rewrite Hd.
  repeat case_match; simplify_eq/=; intros [= <- _]; cbn; (split; [done|]); by destruct (db w).
Qed.

(** ** A small deployment *)

(** One delegated market whose rollup is at sequence 10, an L1 that always
    answers with its header, transports that confirm everything and a clock
    that advances by a minute per read. *)
Definition sample_row : MarketRegistryRow := mkRegistryRow "TSLA" "i" 0 "m" "v" reg_active "f" "regular".
Definition sample_builders : OrchestratorBuilders := mkBuilders (fun _ _ => Ok "pyth")
  (fun '(s, _) _ => Ok ("commit-" +:+ pretty s)) (fun _ _ => Ok "funding") (fun _ _ => Ok "session")
  (fun n _ => Ok ("sweep-" +:+ pretty n)) (fun _ _ => Ok "liquidation").

Definition sample_orchestrator (signer : bool) : OrchestratorDeps := mkOrchestratorDeps sample_env [sample_row]
  (fun _ _ => Ok (7, [Some (mkAccount "p" (Some sample_header))])) (fun _ => "a") sample_parts signer
  (fun _ => Ok sample_builders) None ∅ ∅ sample_policy "worker-1" DEFAULT_LIMITS.

Definition sample_delegated : World :=
  mkWorld (on_execution_status (insert "m" (mkStatusRow er_active (mkSequences 10 0 0 0 0 0 0) None 0)) empty_db) 0 [].

Fixpoint runs (deps : OrchestratorDeps) (n : nat) (w : World) : World * list (result OrchestratorRunSummary) :=
  match n with
  | O => (w, [])
  | S n => let (w1, r) := run deps "run" w in let (w2, rs) := runs deps n w1 in (w2, r :: rs)
  end.

(** What became of the commit step of every market of a run. *)
Definition commit_reports (r : result OrchestratorRunSummary) : list (option string * option string) :=
  match r with
  | Ok s => (fun m => (reason <$> rr_commit m, rr_error m)) <$> rs_results s
  | Throw _ => []
  end.

Lemma scheduled_run_spec_witness :
  exists rs, snd (run (sample_orchestrator true) "run" sample_delegated) = Ok (mkRunSummary "run" true 1 [] rs).
Proof.
  destruct (run (sample_orchestrator true) "run" sample_delegated) as [w' r] eqn:E.
  destruct (scheduled_run_spec (sample_orchestrator true) "run" sample_delegated w' r E)
    as [(_ & _ & [[e He]|(He & a & Ha & _)])|(w0 & markets & errors & rs & Hd & _ & Hr & _)].
  - exfalso. assert (snd (w', r) = Throw e) as H by exact He. rewrite <- E in H. revert H. vm_compute. discriminate.
  - exfalso. revert Ha. vm_compute. discriminate.
  - exists rs. cbn [snd]. rewrite Hr. vm_compute in Hd. injection Hd as <- <-. reflexivity.
Defined.

(** A cleanup failure starves the commit step.  In this deployment, where
    every transaction confirms, the first four scheduled runs sweep the whole
    budget and each commits one rollup sequence; from the fifth run on the
    cleanup tick sends its transaction and then fails on the duplicate audit
    id, the market is reported as failed, and no commit is sent although the
    rollup is ahead. *)
Theorem cleanup_failure_starves_commit :
  let '(w, rs) := runs (sample_orchestrator true) 7 sample_delegated in
  commit_reports <$> rs =
    [[(Some "committed ER sequence 1", None)]; [(Some "committed ER sequence 2", None)];
     [(Some "committed ER sequence 3", None)]; [(Some "committed ER sequence 4", None)];
     [(None, Some "UNIQUE constraint failed: tx_attempts.id")];
     [(None, Some "UNIQUE constraint failed: tx_attempts.id")];
     [(None, Some "UNIQUE constraint failed: tx_attempts.id")]]
  /\ length (filter (fun '(d, _) => d = ER) (sent w)) = 4%nat
  /\ length (filter (fun '(_, tx) => tx = "sweep-32") (sent w)) = 7%nat.
Proof. vm_compute. done. Qed.
