(* ===== verification/EventDecoder.v ===== *)
(** * Program log decoding

    workers/src/event-decoder.ts: every event of the program is one
    ["Program data: <base64>"] log line of exactly 100 bytes.  The file models
    [atob]/[btoa], the header decoder, the kind taxonomy and the two entry
    points, and proves that the decoder inverts the wire layout. *)

From S2P Require Import Prelude Json Bytes ExecutionStatus Repositories.

(** ** Base64 *)

Definition BASE64_ALPHABET : string := "ABCDEFGHIJKLMNOPQRSTUVWXYZabcdefghijklmnopqrstuvwxyz0123456789+/".

Definition b64_char (v : Z) : Ascii.ascii := default Ascii.zero (String.get (Z.to_nat v) BASE64_ALPHABET).

Definition b64_value (c : Ascii.ascii) : option Z :=
  let n := Z.of_nat (Ascii.nat_of_ascii c) in
  if (65 <=? n) && (n <=? 90) then Some (n - 65)
  else if (97 <=? n) && (n <=? 122) then Some (n - 71)
  else if (48 <=? n) && (n <=? 57) then Some (n + 4)
  else if n =? 43 then Some 62
  else if n =? 47 then Some 63
  else None.

Definition PAD : Ascii.ascii := Ascii.ascii_of_nat 61.

(** The 6-bit groups of a byte string, and back. *)
Fixpoint sextets (bs : list Z) : list Z :=
  match bs with
  | a :: b :: c :: rest =>
      a / 4 :: (a mod 4) * 16 + b / 16 :: (b mod 16) * 4 + c / 64 :: c mod 64 :: sextets rest
  | [a; b] => [a / 4; (a mod 4) * 16 + b / 16; (b mod 16) * 4]
  | [a] => [a / 4; (a mod 4) * 16]
  | [] => []
  end.

Fixpoint octets (ss : list Z) : list Z :=
  match ss with
  | a :: b :: c :: d :: rest =>
      a * 4 + b / 16 :: (b mod 16) * 16 + c / 4 :: (c mod 4) * 64 + d :: octets rest
  | [a; b; c] => [a * 4 + b / 16; (b mod 16) * 16 + c / 4]
  | [a; b] => [a * 4 + b / 16]
  | _ => []
  end.

Definition padding (bs : list Z) : list Ascii.ascii :=
  match Z.of_nat (length bs) mod 3 with 1 => [PAD; PAD] | 2 => [PAD] | _ => [] end.

Definition btoa (bs : list Z) : string :=
  String.string_of_list_ascii ((b64_char <$> sextets bs) ++ padding bs).

Definition is_space (c : Ascii.ascii) : bool :=
  let n := Ascii.nat_of_ascii c in
  bool_decide (n = 32%nat) || (bool_decide (9 <= n)%nat && bool_decide (n <= 13)%nat).

(** [atob] skips tab, line feed, form feed, carriage return and space. *)
Definition is_atob_space (c : Ascii.ascii) : bool :=
  is_space c && negb (bool_decide (Ascii.nat_of_ascii c = 11%nat)).

(** At most two padding characters are removed, when the length is a multiple
    of four. *)
Definition drop_pad (l : list Ascii.ascii) : list Ascii.ascii :=
  match l with c :: rest => if bool_decide (c = PAD) then rest else l | [] => [] end.

Definition strip_padding (l : list Ascii.ascii) : list Ascii.ascii :=
  if (length l `mod` 4 =? 0)%nat then reverse (drop_pad (drop_pad (reverse l))) else l.

(** [None]: [atob] throws. *)
Definition atob (s : string) : option (list Z) :=
  let data := strip_padding (filter (fun c => is_atob_space c = false) (String.list_ascii_of_string s)) in
  ss ← mapM b64_value data;
  if (length ss `mod` 4 =? 1)%nat then None else Some (octets ss).

(** ** Strings *)

Fixpoint drop_spaces (l : list Ascii.ascii) : list Ascii.ascii :=
  match l with c :: rest => if is_space c then drop_spaces rest else l | [] => [] end.

Definition trim (s : string) : string :=
  String.string_of_list_ascii (reverse (drop_spaces (reverse (drop_spaces (String.list_ascii_of_string s))))).

(** [line.startsWith(prefix)], and the rest of the line when it does. *)
Definition after_prefix (prefix line : string) : option string :=
  if String.prefix prefix line
  then Some (String.substring (String.length prefix) (String.length line - String.length prefix) line)
  else None.

Definition hex_digit (v : Z) : Ascii.ascii := default Ascii.zero (String.get (Z.to_nat v) "0123456789abcdef").

(** [b.toString(16).padStart(2, "0")], joined. *)
Fixpoint bytesToHex (bs : list Z) : string :=
  match bs with
  | [] => EmptyString
  | b :: rest => String (hex_digit (b / 16)) (String (hex_digit (b mod 16)) (bytesToHex rest))
  end.

(** ** types.ts *)

Inductive MarketEventKind := kind_book | kind_fill | kind_funding | kind_health | kind_oracle | kind_custody.

Definition kind_string (k : MarketEventKind) : string :=
  match k with
  | kind_book => "book" | kind_fill => "fill" | kind_funding => "funding"
  | kind_health => "health" | kind_oracle => "oracle" | kind_custody => "custody"
  end.

Record MarketEvent := mkMarketEvent {
  me_id : string; me_symbol : string; me_kind : MarketEventKind; me_slot : option Z; me_payload : json;
  me_observedAt : Z; me_sequence : option Z; me_domain : option Domain }.

(** ** event-decoder.ts *)

Definition EVENT_DATA_PREFIX : string := "Program data: ".
Definition EVENT_HEADER_SIZE : Z := 52.
Definition EVENT_PAYLOAD_SIZE : Z := 48.
Definition EVENT_SIZE : Z := EVENT_HEADER_SIZE + EVENT_PAYLOAD_SIZE.

Definition EVENT_KIND_NAMES : list (Z * string) := [
  (100, "ExchangeInitialized"); (101, "ExchangeConfigUpdated"); (102, "StockInstrumentRegistered");
  (103, "StockInstrumentUpdated"); (104, "StockInstrumentSuspended"); (105, "PerpMarketCreated");
  (106, "MarketRiskUpdated"); (107, "MarketPaused"); (108, "MarketResumed"); (109, "MarketCloseOnly");
  (110, "CorporateActionEntered"); (111, "CorporateActionResolved"); (112, "MarketClosed");
  (200, "TraderSeatCreated"); (201, "TraderSeatClosed"); (202, "OrderPlaced"); (203, "OrderPartiallyFilled");
  (204, "OrderFilled"); (205, "OrderCancelled"); (206, "CancelAllProgress"); (207, "OrderReplaced");
  (208, "OrderExpired"); (209, "InvalidOrderRemoved"); (210, "SelfTradePrevented");
  (300, "PositionChanged"); (301, "MarginChanged"); (302, "FundingAccumulatorUpdated"); (303, "FundingSettled");
  (304, "LiquidationStarted"); (305, "PositionLiquidated"); (306, "BankruptcyRecorded"); (307, "InsuranceApplied");
  (400, "VaultInitialized"); (401, "CollateralDeposited"); (402, "CollateralWithdrawn"); (403, "ProtocolFeesChanged");
  (404, "InsuranceFundChanged"); (405, "BadDebtRecorded"); (406, "BadDebtResolved"); (407, "VaultSurplusDetected");
  (408, "VaultDeficitDetected"); (409, "VaultReconciled");
  (500, "OracleUpdated"); (501, "OracleRejected"); (502, "MarketSessionChanged"); (503, "TradingStatusChanged");
  (504, "OracleStale"); (505, "OracleRecovered");
  (600, "DelegationRequested"); (601, "MarketDelegated"); (602, "CommitRequested"); (603, "CommitSequenceChanged");
  (604, "UndelegationRequested"); (605, "RestorationPending"); (606, "MarketRestored"); (607, "DelegationErrorState");
  (700, "TradingSessionAuthorized"); (701, "TradingSessionLimitsUpdated"); (702, "TradingSessionActionConsumed");
  (703, "TradingSessionRevoked"); (704, "TradingSessionClosed") ].

Definition kind_name (discriminator : Z) : string :=
  match list_find (fun '(d, _) => d = discriminator) EVENT_KIND_NAMES with
  | Some (_, (_, name)) => name
  | None => "Unknown(" +:+ pretty discriminator +:+ ")"
  end.

Definition bucketKind (d : Z) : MarketEventKind :=
  if (d =? 204) || (d =? 203) then kind_fill
  else if (200 <=? d) && (d <=? 210) then kind_book
  else if (d =? 302) || (d =? 303) then kind_funding
  else if (400 <=? d) && (d <=? 409) then kind_custody
  else if (500 <=? d) && (d <=? 505) then kind_oracle
  else kind_health.

Record DecodedEquinoxEvent := mkDecoded {
  dec_discriminator : Z; dec_kind : string; dec_abiVersion : Z; dec_sequence : Z; dec_market : string;
  dec_timestamp : Z; dec_payload : string }.

(** The fields of a 100-byte record. *)
Definition decode_event_bytes (bs : list Z) : result (option DecodedEquinoxEvent) :=
  discriminator ← getUint16 bs 0;
  sequenceBig ← getBigUint64 bs 4;
  if MAX_SAFE_INTEGER <? sequenceBig then Ok None
  else
    timestamp ← getBigUint64 bs 44;
    Ok (Some (mkDecoded discriminator (kind_name discriminator) (byte_or_0 bs 2) (to_number sequenceBig)
                (bytesToHex (slice bs 12 44)) (to_number timestamp)
                (btoa (slice bs EVENT_HEADER_SIZE EVENT_SIZE)))).

Definition decodeEventLogLine (line : string) : result (option DecodedEquinoxEvent) :=
  match after_prefix EVENT_DATA_PREFIX line with
  | None => Ok None
  | Some rest =>
      match atob (trim rest) with
      | None => Ok None
      | Some bs => if negb (blen bs =? EVENT_SIZE) then Ok None else decode_event_bytes bs
      end
  end.

(** [signature ? ... : ...]: an empty signature is falsy. *)
Definition event_id (signature : option string) (domain : Domain) (d : DecodedEquinoxEvent) : string :=
  let domain_str := match domain with L1 => "l1" | ER => "er" end in
  let by_market := domain_str +:+ ":" +:+ dec_market d +:+ ":" +:+ pretty (dec_sequence d) in
  match signature with
  | Some s => if bool_decide (s = "") then by_market else s +:+ ":" +:+ pretty (dec_sequence d)
  | None => by_market
  end.

Definition event_of (domain : Domain) (slot : option Z) (signature : option string) (observedAt : Z)
    (d : DecodedEquinoxEvent) : MarketEvent :=
  mkMarketEvent (event_id signature domain d) (dec_market d) (bucketKind (dec_discriminator d)) slot
    (JObj ([("kind", JStr (dec_kind d)); ("discriminator", JNum (dec_discriminator d));
            ("abiVersion", JNum (dec_abiVersion d)); ("market", JStr (dec_market d));
            ("timestamp", JNum (dec_timestamp d)); ("payload", JStr (dec_payload d))]
           ++ match signature with Some s => [("signature", JStr s)] | None => [] end))
    observedAt (Some (dec_sequence d)) (Some domain).

Fixpoint decodeCustodyLogMessages (logMessages : list string) (domain : Domain) (slot : option Z)
    (signature : option string) (observedAt : Z) : result (list MarketEvent) :=
  match logMessages with
  | [] => Ok []
  | line :: rest =>
      decoded ← decodeEventLogLine line;
      events ← decodeCustodyLogMessages rest domain slot signature observedAt;
      Ok (match decoded with Some d => event_of domain slot signature observedAt d :: events | None => events end)
  end.

(** The parts of a [getTransaction] result the decoder reads; [tx_err] is the
    truthiness of [meta.err]. *)
Record RawTransactionResult := mkRawTransaction {
  tx_slot : option Z; tx_err : bool; tx_logMessages : option (list string); tx_signatures : option (list string) }.

Definition decodeCustodyEvents (transaction : RawTransactionResult) (domain : Domain) (observedAt : Z)
    : result (list MarketEvent) :=
  if tx_err transaction then Ok []
  else decodeCustodyLogMessages (default [] (tx_logMessages transaction)) domain (tx_slot transaction)
         (tx_signatures transaction ≫= head) observedAt.

(** ** Base64 round trip *)

Lemma b64_value_char v : 0 <= v < 64 -> b64_value (b64_char v) = Some v /\ b64_char v ≠ PAD /\ is_space (b64_char v) = false.
Proof.
  intros Hv. assert (forallb (fun v => bool_decide (b64_value (b64_char v) = Some v) && negb (bool_decide (b64_char v = PAD))
    && negb (is_space (b64_char v))) (seqZ 0 64) = true) as Hall by (vm_compute; reflexivity).
  rewrite forallb_forall in Hall. specialize (Hall v). rewrite <- list_elem_of_In, elem_of_seqZ in Hall.
  specialize (Hall Hv). zbool. repeat match goal with H : bool_decide _ = _ |- _ => revert H end.
  rewrite bool_decide_eq_true, bool_decide_eq_false. tauto.
Qed.

(** Induction on byte lists, three at a time. *)
Lemma list_ind3 {A} (P : list A -> Prop) :
  P [] -> (forall a, P [a]) -> (forall a b, P [a; b]) -> (forall a b c l, P l -> P (a :: b :: c :: l)) -> forall l, P l.
Proof.
  intros H0 H1 H2 H3. enough (forall l, P l /\ (forall a, P (a :: l)) /\ forall a b, P (a :: b :: l)) as H by apply H.
  induction l as [|c l (IH0 & IH1 & IH2)]; [by split_and!|]. split_and!; [apply IH1|intros b; apply IH2|].
  intros a b. by apply H3.
Qed.

Lemma sextets_bound bs : uint8array bs -> Forall (fun v => 0 <= v < 64) (sextets bs).
Proof.
  pattern bs. apply list_ind3; clear bs; unfold uint8array, is_byte.
  - intros _. constructor.
  - intros a Ha. inv Ha. repeat constructor; cbn; Z.to_euclidean_division_equations; lia.
  - intros a b Ha. inv Ha. inv H2. repeat constructor; cbn; Z.to_euclidean_division_equations; lia.
  - intros a b c l IH Ha. inv Ha. inv H2. inv H4. cbn [sextets].
    repeat (constructor; [Z.to_euclidean_division_equations; lia|]). by apply IH.
Qed.

Lemma octets_sextets bs : uint8array bs -> octets (sextets bs) = bs.
Proof.
  pattern bs. apply list_ind3; clear bs; unfold uint8array, is_byte.
  - done.
  - intros a Ha. inv Ha. cbn. f_equal. Z.to_euclidean_division_equations; lia.
  - intros a b Ha. inv Ha. inv H2. cbn. repeat f_equal; Z.to_euclidean_division_equations; lia.
  - intros a b c l IH Ha. inv Ha. inv H2. inv H4. cbn [sextets octets]. rewrite IH by done.
    repeat f_equal; Z.to_euclidean_division_equations; lia.
Qed.

(** The number of digits, and the padding that completes it to fours. *)
Lemma sextets_length bs :
  (length (sextets bs) `mod` 4 ≠ 1)%nat /\ ((length (sextets bs) + length (padding bs)) `mod` 4 = 0)%nat
  /\ (padding bs = [] \/ padding bs = [PAD] \/ padding bs = [PAD; PAD]).
Proof.
  pattern bs. apply list_ind3; clear bs; [by intros; split_and!; [done|done|auto]..|].
  intros a b c l (H1 & H2 & H3).
  assert (padding (a :: b :: c :: l) = padding l) as E.
  { unfold padding. cbn [length]. replace (Z.of_nat (S (S (S (length l))))) with (Z.of_nat (length l) + 1 * 3) by lia.
    by rewrite Z.mod_add by lia. }
  rewrite E. split_and!; [| |done].
  - cbn [sextets length]. replace (S (S (S (S (length (sextets l))))))%nat with (length (sextets l) + 1 * 4)%nat by lia.
    by rewrite Nat.Div0.mod_add.
  - cbn [sextets length]. replace (S (S (S (S (length (sextets l)))) ) + length (padding l))%nat
      with (length (sextets l) + length (padding l) + 1 * 4)%nat by lia.
    by rewrite Nat.Div0.mod_add.
Qed.

Lemma strip_padding_app l p :
  Forall (fun c => c ≠ PAD) l -> p = [] \/ p = [PAD] \/ p = [PAD; PAD] -> ((length l + length p) `mod` 4 = 0)%nat ->
  strip_padding (l ++ p) = l.
Proof.
  intros Hl Hp Hlen. unfold strip_padding. rewrite length_app, Hlen, Nat.eqb_refl.
  assert (drop_pad (reverse l) = reverse l) as Hd.
  { destruct (reverse l) as [|c rest] eqn:E; [done|]. cbn. rewrite bool_decide_eq_false_2; [done|].
    rewrite List.Forall_forall in Hl. apply Hl, list_elem_of_In, elem_of_reverse. rewrite E. constructor. }
  rewrite reverse_app. destruct Hp as [->|[->| ->]].
  - change (reverse []) with (@nil Ascii.ascii). cbn [app]. by rewrite !Hd, reverse_involutive.
  - change (reverse [PAD]) with [PAD]. cbn [app]. change (drop_pad (PAD :: reverse l)) with (reverse l). by rewrite Hd, reverse_involutive.
  - change (reverse [PAD; PAD]) with [PAD; PAD]. change (drop_pad (drop_pad ([PAD; PAD] ++ reverse l))) with (reverse l).
    by rewrite reverse_involutive.
Qed.

Lemma mapM_b64 ss : Forall (fun v => 0 <= v < 64) ss -> mapM b64_value (b64_char <$> ss) = Some ss.
Proof.
  intros Hs. apply mapM_Some, Forall2_fmap_l. induction Hs as [|v ss Hv _ IH]; constructor; [|done].
  by apply b64_value_char.
Qed.

Lemma filter_all {A} (f : A -> bool) l : Forall (fun c => f c = false) l -> filter (fun c => f c = false) l = l.
Proof. induction 1 as [|c l Hc _ IH]; [done|]. rewrite filter_cons_True by done. by rewrite IH. Qed.

Lemma atob_btoa bs : uint8array bs -> atob (btoa bs) = Some bs.
Proof.
  intros Hb. unfold atob, btoa. rewrite String.list_ascii_of_string_of_list_ascii.
  pose proof (sextets_bound bs Hb) as Hs. destruct (sextets_length bs) as (H1 & H2 & H3).
  rewrite filter_all.
  - rewrite strip_padding_app, mapM_b64; [|done| |done|by rewrite length_fmap].
    + unfold mbind, option_bind. rewrite (proj2 (Nat.eqb_neq _ _) H1). by rewrite octets_sextets.
    + rewrite Forall_fmap. eapply List.Forall_impl; [|exact Hs]. intros v Hv. by destruct (b64_value_char v Hv) as (_ & ? & _).
  - apply Forall_app_2.
    + rewrite Forall_fmap. eapply List.Forall_impl; [|exact Hs]. intros v Hv.
      destruct (b64_value_char v Hv) as (_ & _ & Hsp). change (is_atob_space (b64_char v) = false). unfold is_atob_space. by rewrite Hsp.
    + destruct H3 as [->|[->| ->]]; repeat constructor.
Qed.

(** ** The wire layout *)

(** The 100 bytes of an event: discriminator, ABI version, one reserved byte,
    sequence, market key, timestamp and the 48-byte payload. *)
Definition event_bytes (discriminator version reserved sequence : Z) (market : list Z) (timestamp : Z)
    (payload : list Z) : list Z :=
  le_split 2 discriminator ++ [version; reserved] ++ le_split 8 sequence ++ market ++ le_split 8 timestamp ++ payload.

Lemma drop_spaces_id l : Forall (fun c => is_space c = false) l -> drop_spaces l = l.
Proof. destruct 1 as [|c l Hc _]; [done|]. cbn. by rewrite Hc. Qed.

Lemma trim_btoa bs : uint8array bs -> trim (btoa bs) = btoa bs.
Proof.
  intros Hb. unfold trim, btoa. rewrite String.list_ascii_of_string_of_list_ascii. set (l := _ ++ _).
  assert (Forall (fun c => is_space c = false) l) as Hl.
  { subst l. apply Forall_app_2.
    - rewrite Forall_fmap. eapply List.Forall_impl; [|exact (sextets_bound bs Hb)]. intros v Hv.
      by destruct (b64_value_char v Hv) as (_ & _ & ?).
    - destruct (sextets_length bs) as (_ & _ & [->|[->| ->]]); repeat constructor. }
  rewrite (drop_spaces_id l Hl), drop_spaces_id by by apply Forall_reverse. by rewrite reverse_involutive.
Qed.

Lemma after_prefix_app p s : after_prefix p (p +:+ s) = Some s.
Proof.
  unfold after_prefix.
  assert (String.prefix p (p +:+ s) = true) as ->.
  { apply String.prefix_correct. induction p as [|c p IH]; [by destruct s|]. change (String c (String.substring 0 (String.length p) (p +:+ s)) = String c p). by rewrite IH. }
  f_equal. induction p as [|c p IH]; [|exact IH]. change ("" +:+ s) with s. cbn [String.length].
  rewrite Nat.sub_0_r. induction s as [|c s IH]; [done|]. cbn [String.length String.substring]. by rewrite IH.
Qed.

Lemma decodeEventLogLine_btoa bs :
  uint8array bs ->
  decodeEventLogLine (EVENT_DATA_PREFIX +:+ btoa bs) = if blen bs =? EVENT_SIZE then decode_event_bytes bs else Ok None.
Proof.
  intros Hb. unfold decodeEventLogLine. rewrite after_prefix_app, trim_btoa, atob_btoa by done. by destruct (_ =? _).
Qed.

Lemma decode_event_bytes_total bs : blen bs = EVENT_SIZE -> exists r, decode_event_bytes bs = Ok r.
Proof.
  intros Hl. unfold decode_event_bytes, getUint16, getBigUint64.
  destruct (view_unsigned_in_range bs 0 2) as [d ->]; [lia|rewrite Hl; done|].
  destruct (view_unsigned_in_range bs 4 8) as [q ->]; [lia|rewrite Hl; done|].
  destruct (view_unsigned_in_range bs 44 8) as [t ->]; [lia|rewrite Hl; done|].
  cbn. case_match; by eexists.
Qed.

Lemma decodeEventLogLine_total line : exists r, decodeEventLogLine line = Ok r.
Proof.
  unfold decodeEventLogLine. destruct (after_prefix _ _); [|by eexists]. destruct (atob _) as [bs|]; [|by eexists].
  destruct (Z.eqb_spec (blen bs) EVENT_SIZE); [|by eexists]. by apply decode_event_bytes_total.
Qed.

(** C28. The log decoder.  No line makes it throw; a line that is a program event
    in the wire layout decodes to exactly the fields that were encoded, its
    payload again in Base64, unless its sequence is not a safe integer, in
    which case it is skipped; every other length is skipped. *)
Theorem event_decoder_roundtrip d v r q market t payload :
  0 <= d < 2 ^ 16 -> is_byte v -> is_byte r -> 0 <= q < 2 ^ 64 -> uint8array market -> length market = 32%nat ->
  0 <= t < 2 ^ 64 -> uint8array payload ->
  (forall line, exists e, decodeEventLogLine line = Ok e)
  /\ decodeEventLogLine (EVENT_DATA_PREFIX +:+ btoa (event_bytes d v r q market t payload)) =
     Ok (if negb (length payload =? 48)%nat || (MAX_SAFE_INTEGER <? q) then None
         else Some (mkDecoded d (kind_name d) v q (bytesToHex market) (to_number t) (btoa payload))).
Proof.
  intros Hd Hv Hr Hq Hm Hml Ht Hp. split; [apply decodeEventLogLine_total|].
  set (bs := event_bytes d v r q market t payload).
  assert (uint8array bs) as Hb.
  { apply Forall_app_2; [apply le_split_bytes|]. apply Forall_app_2; [by apply Forall_cons_2, Forall_cons_2, Forall_nil_2|].
    apply Forall_app_2; [apply le_split_bytes|]. apply Forall_app_2; [done|].
    apply Forall_app_2; [apply le_split_bytes|done]. }
  assert (blen bs = 52 + Z.of_nat (length payload)) as Hlen.
  { subst bs. unfold event_bytes. rewrite !blen_app. unfold blen. rewrite !length_le_split, Hml. cbn [length]. lia. }
  rewrite decodeEventLogLine_btoa by done. rewrite Hlen. unfold EVENT_SIZE, EVENT_HEADER_SIZE, EVENT_PAYLOAD_SIZE.
  destruct (Nat.eqb_spec (length payload) 48) as [Hpl|Hpl];
    destruct (Z.eqb_spec (52 + Z.of_nat (length payload)) (52 + 48)) as [|]; try lia; [|done]. cbn [negb orb].
  unfold decode_event_bytes, getUint16, getBigUint64.
  assert (view_unsigned bs 0 2 = Ok d) as ->
    by exact (view_split_mid [] 2 d ([v; r] ++ le_split 8 q ++ market ++ le_split 8 t ++ payload) Hd).
  assert (view_unsigned bs 4 8 = Ok q) as ->
    by exact (view_split_mid (le_split 2 d ++ [v; r]) 8 q (market ++ le_split 8 t ++ payload) Hq).
  cbn [mbind result_bind]. case_match; [done|]. zbool.
  pose proof (view_split_mid (le_split 2 d ++ [v; r] ++ le_split 8 q ++ market) 8 t payload Ht) as Et.
  pose proof (slice_app_mid (le_split 2 d ++ [v; r] ++ le_split 8 q) market (le_split 8 t ++ payload)) as Em.
  pose proof (slice_app_mid (le_split 2 d ++ [v; r] ++ le_split 8 q ++ market ++ le_split 8 t) payload []) as Ep.
  rewrite app_nil_r in Ep. unfold blen in Et, Em, Ep.
  repeat rewrite length_app in Et. repeat rewrite length_app in Em. repeat rewrite length_app in Ep.
  repeat rewrite <- app_assoc in Et. repeat rewrite <- app_assoc in Em. repeat rewrite <- app_assoc in Ep.
  rewrite !length_le_split, Hml in Et, Em, Ep. rewrite Hpl in Ep.
  cbn [length] in Et, Em, Ep. change (view_unsigned bs 44 8 = Ok t) in Et. change (slice bs 12 44 = market) in Em.
  change (slice bs 52 100 = payload) in Ep. rewrite Et. cbn [mbind result_bind]. 
  change (slice bs EVENT_HEADER_SIZE EVENT_SIZE) with (slice bs 52 100). rewrite Em, Ep, (to_number_safe q); [done|]. unfold isSafeInteger. apply Z.leb_le. lia.
Qed.

Lemma event_decoder_roundtrip_witness :
  decodeEventLogLine (EVENT_DATA_PREFIX +:+ btoa (event_bytes 203 1 0 42 (replicate 32 171) 1700000000 (replicate 48 7)))
  = Ok (Some (mkDecoded 203 "OrderPartiallyFilled" 1 42
      "abababababababababababababababababababababababababababababababab" 1700000000 (btoa (replicate 48 7)))).
Proof.
  refine (proj2 (event_decoder_roundtrip 203 1 0 42 (replicate 32 171) 1700000000 (replicate 48 7) _ _ _ _ _ _ _ _));
    try (apply uint8array_check; vm_compute; reflexivity); unfold is_byte; try lia; reflexivity.
Defined.
