(* ===== verification/Indexer.v ===== *)
(** * Ordered ingestion and the public stream

    workers/src/indexer.ts (in-memory projection), market-stream.ts (the
    durable object that fans a market out to its sockets), indexer-service.ts
    (the durable indexer that repairs gaps from an authoritative snapshot) and
    ingestion-pipeline.ts (log notifications and the account snapshot
    fetcher). *)

From stdpp Require Import sorting.
From S2P Require Import Prelude Json Bytes ExecutionStatus Repositories PrivateSessions EventDecoder.

(** ** types.ts *)

Inductive MarketStatus := ms_active | ms_paused | ms_restricted.

Definition market_status_string (s : MarketStatus) : string :=
  match s with ms_active => "active" | ms_paused => "paused" | ms_restricted => "restricted" end.

Record MarketDefinition := mkDefinition {
  md_symbol : string; md_instrumentId : string; md_marketIndex : Z; md_marketPda : string; md_vaultPda : string;
  md_status : MarketStatus; md_oracleFeedId : string; md_sessionPolicy : string }.

Record MarketSnapshot := mkSnapshot {
  sn_symbol : string; sn_sequence : Z; sn_domain : Domain; sn_market : MarketDefinition;
  sn_events : list MarketEvent; sn_capturedAt : Z }.

Record IndexedCursor := mkIndexedCursor { ic_market : string; ic_domain : Domain; ic_sequence : Z; ic_slot : Z }.

(** ** indexer.ts *)

Definition nextCursor (cursor : IndexedCursor) (event : MarketEvent) : option IndexedCursor :=
  if bool_decide (is_Some (me_domain event) /\ me_domain event ≠ Some (ic_domain cursor)) then None
  else match me_sequence event with
  | None => None
  | Some sequence =>
      if sequence <=? ic_sequence cursor then Some cursor
      else if negb (sequence =? ic_sequence cursor + 1) then None
      else Some (mkIndexedCursor (ic_market cursor) (ic_domain cursor) sequence (default (ic_slot cursor) (me_slot event)))
  end.

(** [list.slice(-n)] *)
Definition last_n {A} (n : nat) (l : list A) : list A := drop (length l - n) l.

Definition applyEvent (snapshot : MarketSnapshot) (event : MarketEvent) : MarketSnapshot :=
  mkSnapshot (sn_symbol snapshot) (default (sn_sequence snapshot + 1) (me_sequence event))
    (default (sn_domain snapshot) (me_domain event)) (sn_market snapshot)
    (last_n 256 (filter (fun item => me_id item ≠ me_id event) (sn_events snapshot) ++ [event]))
    (me_observedAt event).

Inductive BatchResult := batch_gap (snapshot : MarketSnapshot) (event : MarketEvent) | batch_applied (snapshot : MarketSnapshot).

Fixpoint reconcileBatch (current : MarketSnapshot) (events : list MarketEvent) : BatchResult :=
  match events with
  | [] => batch_applied current
  | event :: rest =>
      let cursor := mkIndexedCursor (md_marketPda (sn_market current)) (sn_domain current) (sn_sequence current) 0 in
      match nextCursor cursor event with
      | None => batch_gap current event
      | Some next =>
          if ic_sequence next =? ic_sequence cursor then reconcileBatch current rest
          else reconcileBatch (applyEvent current event) rest
      end
  end.

(** ** market-stream.ts *)

Record StreamRow := mkStreamRow { ss_sequence : Z; ss_resynchronizing : bool; ss_snapshot : option MarketSnapshot }.

(** One domain of the snapshot envelope. *)
Record DomainView := mkDomainView {
  dv_domain : Domain; dv_sequence : Z; dv_resynchronizing : bool; dv_snapshot : option MarketSnapshot;
  dv_events : list MarketEvent }.

Inductive StreamMessage :=
  | sm_delta (event : MarketEvent)
  | sm_resynchronizing (domain : Domain) (sequence : Z)
  | sm_snapshot (domains : list DomainView)
  | sm_execution_status (status : string) (withdrawalDisplaySafe : bool)
  | sm_private (payload : json).

(** A hibernatable socket: its attachment (backpressure count and verified
    private context), whether the peer still accepts bytes, the code it was
    closed with, and what was sent on it. *)
Record Socket := mkSocket {
  so_pending : Z; so_private : option (string * Z); so_broken : bool; so_closed : option Z;
  so_sent : list StreamMessage }.

(** [socket.send]: [None] when it throws. *)
Definition socket_send (m : StreamMessage) (s : Socket) : option Socket :=
  if so_broken s || bool_decide (is_Some (so_closed s)) then None
  else Some (mkSocket (so_pending s) (so_private s) (so_broken s) (so_closed s) (so_sent s ++ [m])).

Definition socket_close (code : Z) (s : Socket) : Socket :=
  mkSocket (so_pending s) (so_private s) (so_broken s)
    (match so_closed s with Some c => Some c | None => Some code end) (so_sent s).

Definition with_pending (n : Z) (s : Socket) : Socket :=
  mkSocket n (so_private s) (so_broken s) (so_closed s) (so_sent s).

Module MarketStream.
Record t := mkStream {
  stream_state : gmap Domain StreamRow;
  stream_events : gmap (Domain * Z) MarketEvent;
  sockets : list Socket }.

Definition empty : t := mkStream ∅ ∅ [].

Definition state (domain : Domain) (s : t) : StreamRow :=
  default (mkStreamRow 0 false None) (stream_state s !! domain).

(** The public path, per socket. *)
Definition deliver (message : StreamMessage) (s : Socket) : Socket :=
  if 64 <=? so_pending s then socket_close 1013 s
  else match socket_send message s with
  | Some s' => with_pending (so_pending s + 1) s'
  | None => socket_close 1011 s
  end.

Definition broadcast (message : StreamMessage) (s : t) : t :=
  mkStream (stream_state s) (stream_events s) (deliver message <$> sockets s).

(** The private path, per socket. *)
Definition deliver_private (wallet : string) (seatIndex : Z) (payload : json) (s : Socket) : Socket :=
  if bool_decide (so_private s = Some (wallet, seatIndex))
  then match socket_send (sm_private payload) s with
       | Some s' => s'
       | None => socket_close 1011 s
       end
  else s.

Definition publishPrivate (wallet : string) (seatIndex : Z) (payload : json) : eff t unit :=
  eff_modify (fun s => mkStream (stream_state s) (stream_events s) (deliver_private wallet seatIndex payload <$> sockets s)).

Definition publishExecutionStatus (status : string) (withdrawalDisplaySafe : bool) : eff t unit :=
  eff_modify (broadcast (sm_execution_status status withdrawalDisplaySafe)).

Inductive Publication := pub_applied | pub_duplicate | pub_gap.

(** [UNIQUE(domain, id)] and the primary key of the event table. *)
Definition event_conflict (domain : Domain) (sequence : Z) (id : string) (s : t) : bool :=
  bool_decide (is_Some (stream_events s !! (domain, sequence)))
  || bool_decide (Exists (fun '((d, _), e) => d = domain /\ me_id e = id) (map_to_list (stream_events s))).

Definition publish (event : MarketEvent) : eff t Publication :=
  match me_domain event, me_sequence event with
  | Some domain, Some sequence =>
      if negb (isSafeInteger sequence) || (sequence <=? 0) || bool_decide (me_id event = "")
      then eff_throw "Invalid sequenced event"
      else
        s ← eff_get;
        let row := state domain s in
        if sequence <=? ss_sequence row then mret pub_duplicate
        else if ss_resynchronizing row || negb (sequence =? ss_sequence row + 1) then
          _ ← eff_put (broadcast (sm_resynchronizing domain (ss_sequence row))
                (mkStream (<[domain := mkStreamRow (ss_sequence row) true (ss_snapshot row)]> (stream_state s))
                   (stream_events s) (sockets s)));
          mret pub_gap
        else if event_conflict domain sequence (me_id event) s
        then eff_throw "UNIQUE constraint failed: stream_events"
        else
          _ ← eff_put (broadcast (sm_delta event)
                (mkStream (<[domain := mkStreamRow sequence (ss_resynchronizing row) (ss_snapshot row)]> (stream_state s))
                   (<[(domain, sequence) := event]> (stream_events s)) (sockets s)));
          mret pub_applied
  | _, _ => eff_throw "Invalid sequenced event"
  end.

(** [ORDER BY sequence] *)
Definition sequence_le (a b : Z * MarketEvent) : Prop := fst a <= fst b.
#[export] Instance sequence_le_dec a b : Decision (sequence_le a b).
Proof. unfold sequence_le. apply _. Defined.

Definition domain_events (domain : Domain) (s : t) : list (Z * MarketEvent) :=
  merge_sort sequence_le (omap (fun '((d, n), e) => if bool_decide (d = domain) then Some (n, e) else None)
    (map_to_list (stream_events s))).

Definition snapshotEnvelope (s : t) : list DomainView :=
  (fun domain => mkDomainView domain (ss_sequence (state domain s)) (ss_resynchronizing (state domain s))
                   (ss_snapshot (state domain s)) (snd <$> domain_events domain s)) <$> [L1; ER].

Inductive Acceptance := accepted | rejected (reason : string).

Definition replaceSnapshot (snapshot : MarketSnapshot) : eff t Acceptance :=
  s ← eff_get;
  if negb (isSafeInteger (sn_sequence snapshot)) || (sn_sequence snapshot <? 0) then mret (rejected "invalid_snapshot")
  else if sn_sequence snapshot <? ss_sequence (state (sn_domain snapshot) s) then mret (rejected "stale_snapshot")
  else
    let s1 := mkStream
      (<[sn_domain snapshot := mkStreamRow (sn_sequence snapshot) false (Some snapshot)]> (stream_state s))
      (filter (fun '((d, n), _) => ~ (d = sn_domain snapshot /\ n <= sn_sequence snapshot)) (stream_events s))
      (sockets s) in
    _ ← eff_put (broadcast (sm_snapshot (snapshotEnvelope s1)) s1);
    mret accepted.

(** The upgrade branch of [fetch]: a presented token must verify, and the new
    socket first receives the snapshot.  The answer is the HTTP status. *)
Definition connect (verify : string -> string -> option PrivateSession) (token market : option string) (broken : bool)
    : eff t Z :=
  let accept private :=
    s ← eff_get;
    let socket := mkSocket 0 private broken None [] in
    match socket_send (sm_snapshot (snapshotEnvelope s)) socket with
    | Some socket => _ ← eff_put (mkStream (stream_state s) (stream_events s) (sockets s ++ [socket])); mret 101
    | None => _ ← eff_put (mkStream (stream_state s) (stream_events s) (sockets s ++ [socket]));
              eff_throw "Can't call WebSocket send()"
    end in
  match token with
  | None => accept None
  | Some token =>
      if bool_decide (token = "") then accept None
      else match market with
      | None => mret 400
      | Some market =>
          if bool_decide (market = "") then mret 400
          else match verify token market with
          | None => mret 401
          | Some session => accept (Some (session_wallet session, session_seat session))
          end
      end
  end.

(** A message from the peer of socket [i]. *)
Definition webSocketMessage (i : nat) (message : string) : eff t unit :=
  eff_modify (fun s =>
    let on f := mkStream (stream_state s) (stream_events s) (alter f i (sockets s)) in
    if bool_decide (message = "ack") then on (with_pending 0)
    else if bool_decide (message = "snapshot")
    then on (fun so => default so (socket_send (sm_snapshot (snapshotEnvelope s)) so))
    else on (socket_close 1008)).

Definition webSocketClose (i : nat) : eff t unit :=
  eff_modify (fun s => mkStream (stream_state s) (stream_events s) (alter (socket_close 1005) i (sockets s))).
Definition webSocketError (i : nat) : eff t unit :=
  eff_modify (fun s => mkStream (stream_state s) (stream_events s) (alter (socket_close 1011) i (sockets s))).
End MarketStream.

(** ** indexer-service.ts *)

(** The indexer's database and the durable stream of every market. *)
Record Store := mkStore { st_db : Db; st_streams : gmap string MarketStream.t }.

Definition in_db {A} (m : eff Db A) : eff Store A := fun st =>
  let (d, r) := m (st_db st) in (mkStore d (st_streams st), r).

Definition stream_of (marketPda : string) (st : Store) : MarketStream.t :=
  default MarketStream.empty (st_streams st !! marketPda).

(** [publisherForMarket(marketPda)]: the market's stream object. *)
Definition on_stream {A} (marketPda : string) (m : eff MarketStream.t A) : eff Store A := fun st =>
  let (s, r) := m (stream_of marketPda st) in (mkStore (st_db st) (<[marketPda := s]> (st_streams st)), r).

Definition optional_num (name : string) (v : option Z) : list (string * json) :=
  match v with Some z => [(name, JNum z)] | None => [] end.

Definition domain_json (d : Domain) : json := JStr (match d with L1 => "l1" | ER => "er" end).

Definition event_json (e : MarketEvent) : json :=
  JObj ([("id", JStr (me_id e)); ("symbol", JStr (me_symbol e)); ("kind", JStr (kind_string (me_kind e)))]
        ++ optional_num "slot" (me_slot e) ++ [("payload", me_payload e); ("observedAt", JNum (me_observedAt e))]
        ++ optional_num "sequence" (me_sequence e)
        ++ match me_domain e with Some d => [("domain", domain_json d)] | None => [] end).

Definition definition_json (m : MarketDefinition) : json :=
  JObj [("symbol", JStr (md_symbol m)); ("instrumentId", JStr (md_instrumentId m)); ("marketIndex", JNum (md_marketIndex m));
        ("marketPda", JStr (md_marketPda m)); ("vaultPda", JStr (md_vaultPda m));
        ("status", JStr (market_status_string (md_status m))); ("oracleFeedId", JStr (md_oracleFeedId m));
        ("sessionPolicy", JStr (md_sessionPolicy m))].

(** An array in the snapshot. *)
Definition array_json (l : list json) : json := JArr l.

Definition snapshot_json (s : MarketSnapshot) : json :=
  JObj [("symbol", JStr (sn_symbol s)); ("sequence", JNum (sn_sequence s)); ("domain", domain_json (sn_domain s));
        ("market", definition_json (sn_market s)); ("events", array_json (event_json <$> sn_events s));
        ("capturedAt", JNum (sn_capturedAt s))].

Record Replacement := mkReplacement { rep_sequence : Z; rep_slot : Z; rep_snapshot : MarketSnapshot }.

Inductive IndexResult := ix_applied | ix_duplicate | ix_resnapshotted.

Section MarketIndexer.
(** [snapshots.snapshot(marketPda, domain)] *)
Context (snapshots : string -> Domain -> result Replacement).

Definition resnapshot (marketPda : string) (domain : Domain) : eff Store IndexResult :=
  replacement ← eff_lift (snapshots marketPda domain);
  let snapshot := rep_snapshot replacement in
  _ ← eff_lift (throw_if (negb (bool_decide (md_marketPda (sn_market snapshot) = marketPda))
                          || negb (bool_decide (sn_domain snapshot = domain))
                          || negb (sn_sequence snapshot =? rep_sequence replacement))
                 "authoritative snapshot identity mismatch");
  _ ← in_db (IndexerRepository.replaceSnapshot marketPda domain (rep_sequence replacement) (rep_slot replacement)
               (snapshot_json snapshot) (sn_capturedAt snapshot));
  acceptance ← on_stream marketPda (MarketStream.replaceSnapshot snapshot);
  match acceptance with
  | MarketStream.accepted => mret ix_resnapshotted
  | MarketStream.rejected reason => eff_throw reason
  end.

Definition ingest (marketPda : string) (event : MarketEvent) : eff Store IndexResult :=
  match me_domain event, me_sequence event with
  | Some domain, Some sequence =>
      result ← in_db (IndexerRepository.append marketPda domain sequence (default 0 (me_slot event)) (me_id event)
                        (event_json event) (me_observedAt event));
      match result with
      | iw_duplicate => mret ix_duplicate
      | iw_applied =>
          publication ← on_stream marketPda (MarketStream.publish event);
          match publication with
          | MarketStream.pub_gap => resnapshot marketPda domain
          | _ => mret ix_applied
          end
      | iw_gap _ => resnapshot marketPda domain
      end
  | _, _ => eff_throw "sequenced domain event required"
  end.

(** ** ingestion-pipeline.ts *)

(** [ln_err] is the truthiness of [notification.err]. *)
Record LogsNotification := mkLogs {
  ln_err : bool; ln_logs : list string; ln_source : Domain; ln_slot : Z; ln_signature : string; ln_receivedAt : Z }.

Fixpoint ingest_all (marketPda : string) (events : list MarketEvent) : eff Store (list IndexResult) :=
  match events with
  | [] => mret []
  | event :: rest =>
      r ← ingest marketPda event;
      rs ← ingest_all marketPda rest;
      mret (r :: rs)
  end.

Definition ingestLogsNotification (marketPda : string) (notification : LogsNotification) : eff Store (list IndexResult) :=
  if ln_err notification then mret []
  else
    events ← eff_lift (decodeCustodyLogMessages (ln_logs notification) (ln_source notification)
                         (Some (ln_slot notification)) (Some (ln_signature notification)) (ln_receivedAt notification));
    ingest_all marketPda events.
End MarketIndexer.

Definition MARKET_MODE_OFFSET : Z := 11.
Definition GLOBAL_EVENT_SEQUENCE_OFFSET : Z := 262.
Definition MARKET_HEADER_MIN_LEN : Z := 270.

Definition decodeMode (mode : Z) : MarketStatus :=
  if mode =? 0 then ms_paused else if mode =? 3 then ms_restricted else ms_active.

(** [AccountSnapshotFetcher.snapshot]; an account read answers its slot and,
    when the account exists, its bytes. *)
Definition account_snapshot (account : Domain -> string -> result (Z * option (list Z)))
    (marketDefinition : string -> MarketDefinition) (now : Z) (marketPda : string) (domain : Domain)
    : result Replacement :=
  answer ← account domain marketPda;
  match snd answer with
  | None => Throw ("market account not found: " +:+ marketPda +:+ " (" +:+ (match domain with L1 => "l1" | ER => "er" end)
                   +:+ ")")
  | Some bs =>
      if blen bs <? MARKET_HEADER_MIN_LEN then Throw "market account too short to decode"
      else
        big ← getBigUint64 bs GLOBAL_EVENT_SEQUENCE_OFFSET;
        let sequence := to_number big in
        let d := marketDefinition marketPda in
        let definition := mkDefinition (md_symbol d) (md_instrumentId d) (md_marketIndex d) (md_marketPda d)
          (md_vaultPda d) (decodeMode (byte_or_0 bs MARKET_MODE_OFFSET)) (md_oracleFeedId d) (md_sessionPolicy d) in
        Ok (mkReplacement sequence (fst answer) (mkSnapshot (md_symbol definition) sequence domain definition [] now))
  end.

(** ** Projection batches *)

Lemma nextCursor_cases c e c' :
  nextCursor c e = Some c' ->
  (me_domain e = None \/ me_domain e = Some (ic_domain c)) /\ exists q, me_sequence e = Some q
    /\ ((q <= ic_sequence c /\ c' = c) \/ (q = ic_sequence c + 1 /\ ic_sequence c' = q)).
Proof.
  unfold nextCursor. case_bool_decide as Hd; [done|]. destruct (me_sequence e) as [q|]; [|done]. intros H.
  split; [destruct (me_domain e) as [d|]; [|by left]; right; destruct (decide (d = ic_domain c)) as [->|];
    [done|destruct Hd; split; [done|congruence]]|].
  exists q. split; [done|]. destruct (Z.leb_spec q (ic_sequence c)); [left; by simplify_eq|].
  destruct (Z.eqb_spec q (ic_sequence c + 1)); cbn in H; [|done]. right. by simplify_eq.
Qed.

Lemma applyEvent_domain s e :
  (me_domain e = None \/ me_domain e = Some (sn_domain s)) -> sn_domain (applyEvent s e) = sn_domain s.
Proof. intros [H|H]; cbn; by rewrite H. Qed.

(** What an applied batch establishes about its events. *)
Lemma reconcileBatch_applied s es s' :
  reconcileBatch s es = batch_applied s' ->
  sn_domain s' = sn_domain s /\ sn_market s' = sn_market s /\ sn_sequence s <= sn_sequence s'
  /\ Forall (fun e => (me_domain e = None \/ me_domain e = Some (sn_domain s))
       /\ exists q, me_sequence e = Some q /\ q <= sn_sequence s') es
  /\ (forall q, sn_sequence s < q <= sn_sequence s' -> exists e, e ∈ es /\ me_sequence e = Some q).
Proof.
  revert s. induction es as [|e es IH]; intros s; cbn [reconcileBatch].
  { intros [= <-]. split_and!; [done..|constructor|lia]. }
  destruct (nextCursor _ e) as [c|] eqn:Ec; [|done].
  apply nextCursor_cases in Ec as (Hd & q & Hq & Hc). cbn in Hd, Hc.
  destruct Hc as [[Hle ->]|[Hq1 Hc]].
  - cbn. rewrite Z.eqb_refl. intros (? & ? & Hs & Hf & Hall)%IH.
    split_and!; [done..|constructor; [split; [done|exists q; split; [done|lia]]|done]|].
    intros q' Hq'. destruct (Hall q' Hq') as (e' & ? & ?). exists e'. split; [by right|done].
  - rewrite Hc. cbn [ic_sequence]. destruct (Z.eqb_spec q (sn_sequence s)); [lia|].
    pose proof (applyEvent_domain s e Hd) as Ed. intros (Hd' & Hm & Hs & Hf & Hall)%IH. rewrite Ed in *.
    cbn in Hs, Hm, Hall. rewrite Hq in Hs, Hall. cbn in Hs, Hall.
    split_and!; [done|done|lia|constructor; [split; [done|by exists q]|done]|].
    intros q' Hq'. destruct (decide (q' = q)) as [->|]; [exists e; split; [by left|done]|].
    destruct (Hall q') as (e' & ? & ?); [lia|]. exists e'. split; [by right|done].
Qed.

Lemma reconcileBatch_covered s es :
  Forall (fun e => (me_domain e = None \/ me_domain e = Some (sn_domain s))
       /\ exists q, me_sequence e = Some q /\ q <= sn_sequence s) es -> reconcileBatch s es = batch_applied s.
Proof.
  induction 1 as [|e es (Hd & q & Hq & Hle) _ IH]; [done|]. cbn [reconcileBatch]. unfold nextCursor. cbn.
  rewrite bool_decide_eq_false_2; [|intros [[d Hs] Hn]; destruct Hd; congruence].
  rewrite Hq, (proj2 (Z.leb_le _ _)) by done. cbn. by rewrite Z.eqb_refl.
Qed.

(** Reconciling a batch into a projection: an applied batch never moves the
    sequence back, keeps the market and the domain, brings an event for every
    sequence it advanced over (no gap is skipped), and is idempotent:
    reconciling the same batch again changes nothing. *)
Theorem reconcile_batch_contiguous s es s' :
  reconcileBatch s es = batch_applied s' ->
  sn_sequence s <= sn_sequence s' /\ sn_domain s' = sn_domain s /\ sn_market s' = sn_market s
  /\ (forall q, sn_sequence s < q <= sn_sequence s' -> exists e, e ∈ es /\ me_sequence e = Some q)
  /\ reconcileBatch s' es = batch_applied s'.
Proof.
  intros (Hd & Hm & Hs & Hf & Hall)%reconcileBatch_applied. split_and!; [done..|].
  apply reconcileBatch_covered. by rewrite Hd.
Qed.

(** ** The stream *)

Inductive stream_op :=
  | OpPublish (event : MarketEvent)
  | OpReplace (snapshot : MarketSnapshot)
  | OpPrivate (wallet : string) (seatIndex : Z) (payload : json)
  | OpStatus (status : string) (safe : bool)
  | OpConnect (verify : string -> string -> option PrivateSession) (token market : option string) (broken : bool)
  | OpMessage (i : nat) (message : string)
  | OpClose (i : nat)
  | OpError (i : nat).

Definition stream_step (s : MarketStream.t) (op : stream_op) : MarketStream.t :=
  match op with
  | OpPublish e => fst (MarketStream.publish e s)
  | OpReplace sn => fst (MarketStream.replaceSnapshot sn s)
  | OpPrivate w i p => fst (MarketStream.publishPrivate w i p s)
  | OpStatus st b => fst (MarketStream.publishExecutionStatus st b s)
  | OpConnect v t m b => fst (MarketStream.connect v t m b s)
  | OpMessage i m => fst (MarketStream.webSocketMessage i m s)
  | OpClose i => fst (MarketStream.webSocketClose i s)
  | OpError i => fst (MarketStream.webSocketError i s)
  end.

Definition stream_run (ops : list stream_op) : MarketStream.t := foldl stream_step MarketStream.empty ops.

Import MarketStream.

(** The sequence of the snapshot a domain was last reset to. *)
Definition base (row : StreamRow) : Z := match ss_snapshot row with Some sn => sn_sequence sn | None => 0 end.

(** Snapshot plus stored events are a complete prefix of the domain. *)
Definition contiguous (s : t) : Prop := forall domain,
  let row := state domain s in
  base row <= ss_sequence row
  /\ (forall sn, ss_snapshot row = Some sn -> sn_domain sn = domain)
  /\ (forall n, is_Some (stream_events s !! (domain, n)) <-> base row < n <= ss_sequence row)
  /\ (forall n e, stream_events s !! (domain, n) = Some e -> me_sequence e = Some n /\ me_domain e = Some domain).

Lemma contiguous_sockets s so :
  contiguous s -> contiguous (mkStream (stream_state s) (stream_events s) so).
Proof. done. Qed.

Lemma contiguous_row s domain row :
  contiguous s -> ss_sequence row = ss_sequence (state domain s) -> ss_snapshot row = ss_snapshot (state domain s) ->
  contiguous (mkStream (<[domain := row]> (stream_state s)) (stream_events s) (sockets s)).
Proof.
  intros Hc Hq Hsn d. specialize (Hc d). unfold state, base in *. cbn.
  destruct (decide (d = domain)) as [->|]; [rewrite lookup_insert_eq|by rewrite lookup_insert_ne].
  cbn. by rewrite Hq, Hsn.
Qed.

Lemma contiguous_applied s domain sequence e row :
  contiguous s -> row = state domain s -> sequence = ss_sequence row + 1 ->
  me_sequence e = Some sequence -> me_domain e = Some domain ->
  contiguous (mkStream (<[domain := mkStreamRow sequence (ss_resynchronizing row) (ss_snapshot row)]> (stream_state s))
    (<[(domain, sequence) := e]> (stream_events s)) (sockets s)).
Proof.
  intros Hc -> -> Hs He d. specialize (Hc d). set (row := state domain s) in *.
  unfold state, base in Hc |- *. cbn. destruct (decide (d = domain)) as [->|Hd].
  - rewrite lookup_insert_eq. cbn. fold (state domain s) in Hc. fold row in Hc. destruct Hc as (Hb & Hsn & Hk & Hv).
    split_and!; [lia|done| |].
    + intros n. destruct (decide (n = ss_sequence row + 1)) as [->|Hn]; [rewrite lookup_insert_eq; split; [lia|by eauto]|].
      rewrite lookup_insert_ne by congruence. rewrite Hk. lia.
    + intros n e'. destruct (decide (n = ss_sequence row + 1)) as [->|Hn]; [rewrite lookup_insert_eq; by intros [= <-]|].
      rewrite lookup_insert_ne by congruence. apply Hv.
  - rewrite lookup_insert_ne by done. destruct Hc as (Hb & Hsn & Hk & Hv). split_and!; [done|done| |].
    + intros n. rewrite lookup_insert_ne by congruence. apply Hk.
    + intros n e'. rewrite lookup_insert_ne by congruence. apply Hv.
Qed.

Lemma contiguous_replaced s sn :
  contiguous s -> ss_sequence (state (sn_domain sn) s) <= sn_sequence sn ->
  contiguous (mkStream (<[sn_domain sn := mkStreamRow (sn_sequence sn) false (Some sn)]> (stream_state s))
    (filter (fun '((d, n), _) => ~ (d = sn_domain sn /\ n <= sn_sequence sn)) (stream_events s)) (sockets s)).
Proof.
  intros Hc Hle d. specialize (Hc d). destruct Hc as (Hb & Hsn & Hk & Hv).
  assert (forall n e, filter (fun '((d, n), _) => ~ (d = sn_domain sn /\ n <= sn_sequence sn)) (stream_events s) !! (d, n) = Some e
    <-> stream_events s !! (d, n) = Some e /\ ~ (d = sn_domain sn /\ n <= sn_sequence sn)) as Hf
    by (intros n e; by rewrite map_lookup_filter_Some).
  unfold state, base in *. cbn in *. destruct (decide (d = sn_domain sn)) as [->|Hd].
  - rewrite lookup_insert_eq. cbn. split_and!; [lia|by intros ? [= <-]| |].
    + intros n. split; [|lia]. intros [e [He Hn]%Hf]. assert (is_Some (stream_events s !! (sn_domain sn, n))) as Hin by eauto.
      apply Hk in Hin. destruct Hn. split; [done|lia].
    + intros n e [He _]%Hf. by apply Hv.
  - rewrite lookup_insert_ne by done. split_and!; [done|done| |].
    + intros n. rewrite <- Hk. unfold is_Some. setoid_rewrite Hf. naive_solver.
    + intros n e [He _]%Hf. by apply Hv.
Qed.

Lemma contiguous_step s op : contiguous s -> contiguous (stream_step s op).
Proof.
  intros Hc. destruct op; cbn [stream_step]; [| | | | |try by apply contiguous_sockets..].
  - unfold publish. destruct (me_domain event) as [domain|] eqn:Ed; [|done].
    destruct (me_sequence event) as [sequence|] eqn:Es; [|done]. destruct (_ || _ || _)%bool; [done|]. run_eff.
    destruct (Z.leb_spec sequence (ss_sequence (state domain s))); [done|].
    destruct (ss_resynchronizing (state domain s) || _)%bool eqn:Er.
    + apply contiguous_sockets. by apply contiguous_row.
    + apply orb_false_iff in Er as [Er Eq]. zbool. destruct (event_conflict _ _ _ _); [done|].
      apply contiguous_sockets. by apply contiguous_applied.
  - unfold replaceSnapshot. run_eff. destruct (_ || _)%bool; [done|].
    destruct (Z.ltb_spec (sn_sequence snapshot) (ss_sequence (state (sn_domain snapshot) s))); [done|].
    apply contiguous_sockets. by apply contiguous_replaced.
  - by apply contiguous_sockets.
  - by apply contiguous_sockets.
  - unfold connect. run_eff. repeat case_match; simplify_eq/=; try done; by apply contiguous_sockets.
  - unfold webSocketMessage. run_eff. cbn. repeat case_match; by apply contiguous_sockets.
Qed.

(** What may be on a socket after the operations [ops]: the backpressure count
    is bounded, its private context was granted by a verified session, and
    every private payload on it was published for exactly that context. *)
Record socket_ok (ops : list stream_op) (so : Socket) : Prop := mkSocketOk {
  ok_pending : 0 <= so_pending so <= 64;
  ok_granted : forall wallet seat, so_private so = Some (wallet, seat) ->
    exists verify token market broken session, OpConnect verify (Some token) (Some market) broken ∈ ops
      /\ verify token market = Some session /\ session_wallet session = wallet /\ session_seat session = seat;
  ok_private : forall payload, sm_private payload ∈ so_sent so ->
    exists wallet seat, so_private so = Some (wallet, seat) /\ OpPrivate wallet seat payload ∈ ops;
}.

Lemma socket_ok_mono ops op so : socket_ok ops so -> socket_ok (ops ++ [op]) so.
Proof.
  intros [Hp Hg Hv]. split; [done| |].
  - intros w i Hw. destruct (Hg w i Hw) as (v & t & m & b & se & Hin & ?). exists v, t, m, b, se.
    split; [apply elem_of_app; by left|done].
  - intros p Hin. destruct (Hv p Hin) as (w & i & ? & ?). exists w, i. split; [done|]. apply elem_of_app. by left.
Qed.

(** Changes that neither send anything private nor touch the context. *)
Lemma socket_ok_update ops so so' :
  socket_ok ops so -> 0 <= so_pending so' <= 64 -> so_private so' = so_private so ->
  (so_sent so' = so_sent so \/ exists m, so_sent so' = so_sent so ++ [m] /\ forall p, m ≠ sm_private p) ->
  socket_ok ops so'.
Proof.
  intros [Hp Hg Hv] Hpend Hpr Hs. split; [done|by rewrite Hpr|]. intros p Hin. rewrite Hpr. apply Hv.
  destruct Hs as [E|(m & E & Hm)]; rewrite E in Hin; [done|]. apply elem_of_app in Hin as [?|Hin]; [done|].
  apply list_elem_of_singleton in Hin. by destruct (Hm p).
Qed.

Lemma socket_send_cases m so so' :
  socket_send m so = Some so' -> so_pending so' = so_pending so /\ so_private so' = so_private so
    /\ so_sent so' = so_sent so ++ [m].
Proof. unfold socket_send. destruct (_ || _)%bool; [done|]. by intros [= <-]. Qed.

Lemma deliver_ok ops m so : socket_ok ops so -> (forall p, m ≠ sm_private p) -> socket_ok ops (deliver m so).
Proof.
  intros Hok Hm. pose proof (ok_pending _ _ Hok). unfold deliver. destruct (Z.leb_spec 64 (so_pending so)).
  - apply (socket_ok_update _ so); [done|done|done|by left].
  - destruct (socket_send m so) as [so'|] eqn:E; [|apply (socket_ok_update _ so); [done|done|done|by left]].
    apply socket_send_cases in E as (E1 & E2 & E3).
    apply (socket_ok_update _ so); cbn; [done|lia|done|right; by exists m].
Qed.

Lemma deliver_private_ok ops w i p so :
  socket_ok ops so -> OpPrivate w i p ∈ ops -> socket_ok ops (deliver_private w i p so).
Proof.
  intros Hok Hin. unfold deliver_private. case_bool_decide as Hc; [|done].
  destruct (socket_send (sm_private p) so) as [so'|] eqn:E; [|apply (socket_ok_update _ so); [done|apply Hok|done|by left]].
  apply socket_send_cases in E as (E1 & E2 & E3). destruct Hok as [Hp Hg Hv]. split; [by rewrite E1|by rewrite E2|].
  intros p'. rewrite E3, E2. intros [?|Hp']%elem_of_app; [by apply Hv|]. apply list_elem_of_singleton in Hp' as [= ->]. by eauto.
Qed.

Lemma broadcast_ok ops m s :
  Forall (socket_ok ops) (sockets s) -> (forall p, m ≠ sm_private p) -> Forall (socket_ok ops) (sockets (broadcast m s)).
Proof. intros Hs Hm. cbn. apply Forall_fmap. eapply List.Forall_impl; [|exact Hs]. intros so Hok. by apply deliver_ok. Qed.

Lemma alter_ok ops f i s :
  Forall (socket_ok ops) s -> (forall so, socket_ok ops so -> socket_ok ops (f so)) -> Forall (socket_ok ops) (alter f i s).
Proof. intros Hs Hf. apply Forall_alter; [done|]. intros so _ Hok. by apply Hf. Qed.

Lemma close_ok ops code so : socket_ok ops so -> socket_ok ops (socket_close code so).
Proof. intros Hok. apply (socket_ok_update _ so); [done|apply Hok|done|by left]. Qed.

(** A new socket carries only the context its verified token gave it. *)
Lemma connect_ok ops verify token market broken s :
  Forall (socket_ok ops) (sockets s) -> OpConnect verify token market broken ∈ ops ->
  Forall (socket_ok ops) (sockets (fst (connect verify token market broken s))).
Proof.
  intros Hs Hin.
  assert (forall private m (r : result Z), (forall w i, private = Some (w, i) -> exists t mk se,
      token = Some t /\ market = Some mk /\ verify t mk = Some se /\ session_wallet se = w /\ session_seat se = i) ->
    Forall (socket_ok ops) (sockets (fst (match socket_send (sm_snapshot m) (mkSocket 0 private broken None []) with
      | Some so => (mkStream (stream_state s) (stream_events s) (sockets s ++ [so]), r)
      | None => (mkStream (stream_state s) (stream_events s) (sockets s ++ [mkSocket 0 private broken None []]), r)
      end)))) as Hnew.
  { intros private m r Hg.
    assert (socket_ok ops (mkSocket 0 private broken None [])) as H0.
    { split; [cbn; lia| |cbn; intros p Hp; by apply not_elem_of_nil in Hp]. cbn. intros w i Hw.
      destruct (Hg w i Hw) as (t & mk & se & -> & -> & Hv & <- & <-). by exists verify, t, mk, broken, se. }
    destruct (socket_send _ _) as [so|] eqn:E; cbn; (apply Forall_app_2; [done|]); apply Forall_cons_2; try apply Forall_nil_2; [|done].
    apply socket_send_cases in E as (E1 & E2 & E3). apply (socket_ok_update _ _ so H0); [by rewrite E1|done|].
    right. by exists (sm_snapshot m). }
  unfold connect. run_eff. destruct token as [t|].
  - case_bool_decide; [|destruct market as [mk|]; [|done]; case_bool_decide; [done|]; destruct (verify t mk) as [se|] eqn:Ev; [|done]].
    + specialize (Hnew None (snapshotEnvelope s) (Ok 101)). destruct (socket_send _ _); by apply Hnew.
    + specialize (Hnew (Some (session_wallet se, session_seat se)) (snapshotEnvelope s) (Ok 101)).
      destruct (socket_send _ _); apply Hnew; intros w i [= <- <-]; by exists t, mk, se.
  - specialize (Hnew None (snapshotEnvelope s) (Ok 101)). destruct (socket_send _ _); by apply Hnew.
Qed.

Lemma sockets_step ops op s :
  Forall (socket_ok ops) (sockets s) -> Forall (socket_ok (ops ++ [op])) (sockets (stream_step s op)).
Proof.
  intros Hs0. assert (Forall (socket_ok (ops ++ [op])) (sockets s)) as Hs
    by (eapply List.Forall_impl; [|exact Hs0]; intros; by apply socket_ok_mono).
  assert (op ∈ ops ++ [op]) as Hop by (apply elem_of_app; right; by constructor).
  destruct op; cbn [stream_step].
  - unfold publish. run_eff. repeat case_match; simplify_eq/=; try done; by apply broadcast_ok.
  - unfold replaceSnapshot. run_eff. repeat case_match; simplify_eq/=; try done; by apply broadcast_ok.
  - cbn. apply Forall_fmap. eapply List.Forall_impl; [|exact Hs]. intros so Hok. by apply deliver_private_ok.
  - by apply broadcast_ok.
  - by apply connect_ok.
  - unfold webSocketMessage. run_eff. cbn. repeat case_bool_decide; cbn; (apply alter_ok; [done|]); intros so Hok.
    + apply (socket_ok_update _ so); [done|cbn; lia|done|by left].
    + destruct (socket_send _ so) as [so'|] eqn:E; [|done]. cbn. apply socket_send_cases in E as (E1 & E2 & E3).
      apply (socket_ok_update _ so); [done|rewrite E1; apply Hok|done|right; by eexists].
    + by apply close_ok.
  - cbn. apply alter_ok; [done|]. intros. by apply close_ok.
  - cbn. apply alter_ok; [done|]. intros. by apply close_ok.
Qed.

Lemma stream_run_snoc ops op : stream_run (ops ++ [op]) = stream_step (stream_run ops) op.
Proof. unfold stream_run. by rewrite foldl_app. Qed.

(** C18. The stream object, over any sequence of publications, snapshot
    replacements, connections, client messages and disconnects.  For each
    domain the stored snapshot and the stored events form a complete prefix:
    there is exactly one event, with its own sequence and domain, for every
    sequence after the snapshot up to the current one.  And on every socket
    the backpressure count stays within 64, a private context is the one a
    verified session gave it, and every private payload was published for
    exactly that wallet and seat. *)
Theorem stream_safe ops : contiguous (stream_run ops) /\ Forall (socket_ok ops) (sockets (stream_run ops)).
Proof.
  induction ops as [|op ops [IH1 IH2]] using rev_ind.
  - split; [|constructor]. intros d. unfold state, base. cbn. rewrite lookup_empty. cbn. split_and!; [lia|done| |].
    + intros n. rewrite lookup_empty. split; [by intros []|lia].
    + intros n e. by rewrite lookup_empty.
  - rewrite stream_run_snoc. split; [by apply contiguous_step|by apply sockets_step].
Qed.

(** ** Durable ingestion *)

Definition stream_sequence (m : string) (dom : Domain) (st : Store) : Z := ss_sequence (state dom (stream_of m st)).

(** Everything that belongs to other markets is untouched. *)
Definition only_market (m : string) (st st' : Store) : Prop :=
  (forall m', m' ≠ m -> st_streams st' !! m' = st_streams st !! m')
  /\ (forall m' dom, m' ≠ m -> indexer_cursors (st_db st') !! (m', dom) = indexer_cursors (st_db st) !! (m', dom)).

#[export] Instance only_market_preorder m : PreOrder (only_market m).
Proof.
  split; [by intros st|]. intros s1 s2 s3 [H1 H2] [H3 H4]. split; intros.
  - by rewrite H3, H1.
  - by rewrite H4, H2.
Qed.

Lemma on_stream_only {A} m (f : eff MarketStream.t A) : preserves (only_market m) (on_stream m f).
Proof.
  intros st. unfold on_stream. destruct (f (stream_of m st)) as [s r]. split; cbn; [|done].
  intros m' Hm. by rewrite lookup_insert_ne.
Qed.

Lemma append_only m dom q slot id ev now : preserves (only_market m) (in_db (IndexerRepository.append m dom q slot id ev now)).
Proof.
  intros st. unfold in_db.
  pose proof (append_cursor m dom q slot id ev now (st_db st)) as H.
  destruct (IndexerRepository.append m dom q slot id ev now (st_db st)) as [d r]. cbn in *. split; cbn; [done|].
  intros m' dom' Hm. apply H. congruence.
Qed.

Lemma replace_only m dom q slot sn now :
  preserves (only_market m) (in_db (IndexerRepository.replaceSnapshot m dom q slot sn now)).
Proof.
  intros st. unfold in_db, IndexerRepository.replaceSnapshot. run_eff. repeat case_match; simplify_eq/=; split; cbn; try done.
  intros m' dom' Hm. by rewrite lookup_insert_ne by congruence.
Qed.
#[local] Hint Resolve on_stream_only append_only replace_only : frame.

Lemma ingest_only snapshots m e : preserves (only_market m) (ingest snapshots m e).
Proof. unfold ingest, resnapshot. frame_tac. Qed.

(** A repaired market: the cursor and the stream are both at the snapshot. *)
Lemma resnapshot_spec snapshots m dom st st' r :
  resnapshot snapshots m dom st = (st', Ok r) ->
  exists rep, snapshots m dom = Ok rep /\ r = ix_resnapshotted
    /\ cursor_sequence (st_db st') m dom = rep_sequence rep
    /\ state dom (stream_of m st') = mkStreamRow (rep_sequence rep) false (Some (rep_snapshot rep)).
Proof.
  unfold resnapshot. intros (s1 & rep & E & H)%eff_bind_Ok. unfold eff_lift in E. injection E as <- Erep.
  exists rep. split; [done|]. apply eff_bind_Ok in H as (s2 & [] & E & H). unfold eff_lift in E. injection E as <- Et.
  apply throw_if_Ok in Et. apply orb_false_iff in Et as [Et Hq]. apply orb_false_iff in Et as [_ Hd].
  apply negb_false_iff in Hq, Hd. apply Z.eqb_eq in Hq. apply bool_decide_eq_true in Hd.
  apply eff_bind_Ok in H as (s3 & [] & E & H). unfold in_db, IndexerRepository.replaceSnapshot in E. run_eff.
  destruct (identifier m); [|done]. destruct (integer (rep_sequence rep)); [|done]. destruct (integer (rep_slot rep)); [|done].
  destruct (integer (sn_capturedAt (rep_snapshot rep))); [|done]. injection E as <-.
  unfold on_stream, replaceSnapshot in H. run_eff. revert H. destruct (_ || _)%bool; [done|].
  destruct (_ <? _); [done|]. intros [= <- <-]. split; [done|]. unfold cursor_sequence, stream_of, state. cbn.
  rewrite !lookup_insert_eq. cbn. rewrite Hd, lookup_insert_eq, Hq. done.
Qed.


(** ** Witnesses *)

Definition sample_event (n : Z) : MarketEvent :=
  mkMarketEvent ("sig:" +:+ pretty n) "TSLA" kind_book (Some 9) JNull 1000 (Some n) (Some ER).
Definition sample_definition : MarketDefinition := mkDefinition "TSLA" "i" 0 "m" "v" ms_active "f" "regular".
Definition sample_projection (n : Z) : MarketSnapshot := mkSnapshot "TSLA" n ER sample_definition [] 500.

Lemma reconcile_batch_contiguous_witness :
  exists s', reconcileBatch (sample_projection 3) [sample_event 3; sample_event 4; sample_event 5] = batch_applied s'
    /\ reconcileBatch s' [sample_event 3; sample_event 4; sample_event 5] = batch_applied s'.
Proof.
  destruct (reconcileBatch (sample_projection 3) [sample_event 3; sample_event 4; sample_event 5]) as [s' e|s'] eqn:E.
  - exfalso. revert E. vm_compute. discriminate.
  - exists s'. split; [reflexivity|]. apply (reconcile_batch_contiguous _ _ _ E).
Defined.

Definition sample_fetcher : string -> Domain -> result Replacement :=
  fun _ _ => Ok (mkReplacement 7 12 (sample_projection 7)).

(** The first event is applied; skipping to the third is repaired to 7. *)
Definition sample_store : Store := fst (ingest sample_fetcher "m" (sample_event 1) (mkStore empty_db ∅)).

