(* ===== verification/Transactions.v ===== *)
(** * Instruction encoders and transaction builders

    workers/src/transactions.ts: every program instruction the services build,
    with its opcode, account list and little-endian payload, the compute-budget
    prefix, and the builders the keeper ticks are given.  Compilation and
    signing (the kit library and the signer) are a parameter. *)

From S2P Require Import Prelude Bytes Risk Keepers.

Inductive AccountRole := role_readonly | role_writable | role_readonly_signer | role_writable_signer.

#[export] Instance account_role_eq_dec : EqDecision AccountRole.
Proof. solve_decision. Defined.

Record AccountMeta := mkMeta { acc_address : string; acc_role : AccountRole }.

#[export] Instance account_meta_eq_dec : EqDecision AccountMeta.
Proof. solve_decision. Defined.

Record Instruction := mkInstruction { ix_program : string; ix_accounts : list AccountMeta; ix_data : list Z }.

Module OPCODE.
Definition placeOrder : Z := 3.
Definition cancelOrder : Z := 4.
Definition cancelAll : Z := 5.
Definition updateFunding : Z := 6.
Definition liquidate : Z := 7.
Definition initializeVault : Z := 9.
Definition depositCollateral : Z := 10.
Definition withdrawCollateral : Z := 11.
Definition consumeOracleUpdate : Z := 12.
Definition delegateMarket : Z := 13.
Definition commitMarket : Z := 14.
Definition commitAndUndelegate : Z := 15.
Definition authorizeTradingSession : Z := 17.
Definition revokeTradingSession : Z := 18.
Definition pauseMarket : Z := 25.
Definition resumeMarket : Z := 26.
Definition setCloseOnly : Z := 27.
Definition updateTradingSessionLimits : Z := 31.
Definition closeTradingSession : Z := 32.
Definition replaceOrder : Z := 33.
Definition transferToInsuranceFund : Z := 34.
Definition withdrawProtocolFees : Z := 35.
Definition withdrawInsuranceFunds : Z := 36.
Definition recordBadDebt : Z := 37.
Definition resolveBadDebt : Z := 38.
Definition reconcileVault : Z := 39.
Definition depositCollateralV3 : Z := 53.
Definition withdrawCollateralV3 : Z := 54.
Definition reconcileVaultV3 : Z := 55.
End OPCODE.

Module ORDER_FLAGS.
Definition postOnly : Z := 1.
Definition immediateOrCancel : Z := 2.
Definition reduceOnly : Z := 4.
End ORDER_FLAGS.

Inductive Side := side_bid | side_ask.
Inductive OrderTree := tree_fixed | tree_pegged.

#[export] Instance side_eq_dec : EqDecision Side.
Proof. solve_decision. Defined.
#[export] Instance order_tree_eq_dec : EqDecision OrderTree.
Proof. solve_decision. Defined.

(** Optional fields carry the default the encoder substitutes. *)
Record PlaceOrderFields := mkOrderFields {
  pf_side : Side; pf_postOnly : bool; pf_immediateOrCancel : bool; pf_reduceOnly : bool; pf_tree : OrderTree;
  pf_seatIndex : Z; pf_quantity : Z; pf_priceOrOffset : Z; pf_expiresAt : Z; pf_pegLimit : Z;
  pf_clientOrderId : Z; pf_actionNonce : Z }.

Record V3ExecutionAccountMetas := mkV3Metas {
  va_core : AccountMeta; va_bookPages : list AccountMeta; va_seatShards : list AccountMeta;
  va_eventShards : list AccountMeta; va_authority : AccountMeta; va_session : option AccountMeta }.

Definition len_is {A} (n : nat) (l : list A) : bool := bool_decide (length l = n).

Definition v3ExecutionMetas (accounts : V3ExecutionAccountMetas) (requireSession : bool) : result (list AccountMeta) :=
  _ ← throw_if (negb (len_is 18 (va_bookPages accounts)) || negb (len_is 4 (va_seatShards accounts))
                || negb (len_is 4 (va_eventShards accounts)))
        "V3 execution requires 18 book pages, 4 seat shards and 4 event shards";
  _ ← throw_if (requireSession && bool_decide (va_session accounts = None)) "V3 session write requires a session PDA";
  Ok (va_core accounts :: va_bookPages accounts ++ va_seatShards accounts ++ va_eventShards accounts
      ++ [va_authority accounts] ++ match va_session accounts with Some s => [s] | None => [] end).

Definition assertV3ActionNonce (accounts : V3ExecutionAccountMetas) (actionNonce : Z) : result unit :=
  throw_if (bool_decide (va_session accounts = None) && negb (actionNonce =? 0))
    "Main-wallet V3 actions must use actionNonce zero".

Record V3DepositAccountMetas := mkV3Deposit {
  vd_core : AccountMeta; vd_seatShard : AccountMeta; vd_eventShards : list AccountMeta; vd_authority : AccountMeta;
  vd_source : AccountMeta; vd_vault : AccountMeta; vd_mint : AccountMeta; vd_tokenProgram : AccountMeta }.

Record V3WithdrawAccountMetas := mkV3Withdraw {
  vw_execution : V3ExecutionAccountMetas; vw_destination : AccountMeta; vw_mint : AccountMeta; vw_vault : AccountMeta;
  vw_vaultAuthority : AccountMeta; vw_tokenProgram : AccountMeta }.

Record V3ReconcileAccountMetas := mkV3Reconcile {
  vr_core : AccountMeta; vr_bookPages : list AccountMeta; vr_seatShards : list AccountMeta;
  vr_eventShards : list AccountMeta; vr_vault : AccountMeta; vr_mint : AccountMeta; vr_tokenProgram : AccountMeta }.

Section Encoders.
Import DataWriter.

Definition order_flags (fields : PlaceOrderFields) : Z :=
  Z.lor (Z.lor (if pf_postOnly fields then ORDER_FLAGS.postOnly else 0)
               (if pf_immediateOrCancel fields then ORDER_FLAGS.immediateOrCancel else 0))
        (if pf_reduceOnly fields then ORDER_FLAGS.reduceOnly else 0).

Definition placeOrderData (fields : PlaceOrderFields) : result t :=
  let side := if bool_decide (pf_side fields = side_bid) then 0 else 1 in
  let tree := if bool_decide (pf_tree fields = tree_fixed) then 0 else 1 in
  w ← u8 OPCODE.placeOrder empty; w ← u8 side w; w ← u8 tree w; w ← u8 (order_flags fields) w;
  w ← u16 (pf_seatIndex fields) w; w ← u64 (pf_quantity fields) w; w ← i64 (pf_priceOrOffset fields) w;
  w ← u64 (pf_expiresAt fields) w; w ← i64 (pf_pegLimit fields) w; w ← u64 (pf_clientOrderId fields) w;
  u64 (pf_actionNonce fields) w.

Definition instruction (programAddress : string) (accounts : list AccountMeta) (data : result t) : result Instruction :=
  d ← data; Ok (mkInstruction programAddress accounts d).

Definition placeOrderInstruction (program : string) (accounts : list AccountMeta) (fields : PlaceOrderFields) :=
  instruction program accounts (placeOrderData fields).

Definition cancelOrderInstruction (program : string) (accounts : list AccountMeta) (seatIndex orderKey actionNonce : Z) :=
  instruction program accounts
    (w ← u8 OPCODE.cancelOrder empty; w ← u16 seatIndex w; w ← u128 orderKey w; u64 actionNonce w).

Definition cancelAllInstruction (program : string) (accounts : list AccountMeta)
    (seatIndex maxCancellations actionNonce : Z) :=
  instruction program accounts
    (w ← u8 OPCODE.cancelAll empty; w ← u16 seatIndex w; w ← u8 maxCancellations w; u64 actionNonce w).

Definition replaceOrderInstruction (program : string) (accounts : list AccountMeta) (oldOrderKey : Z)
    (fields : PlaceOrderFields) : result Instruction :=
  place ← placeOrderData fields;
  instruction program accounts (w ← u8 OPCODE.replaceOrder empty; w ← u128 oldOrderKey w; raw (drop 1 place) w).

Definition updateFundingInstruction (program : string) (accounts : list AccountMeta) (accumulator timestamp : Z) :=
  instruction program accounts (w ← u8 OPCODE.updateFunding empty; w ← i128 accumulator w; u64 timestamp w).

Definition liquidateInstruction (program : string) (accounts : list AccountMeta) (seatIndex maxQuantity : Z) :=
  instruction program accounts (w ← u8 OPCODE.liquidate empty; w ← u16 seatIndex w; u64 maxQuantity w).

Definition initializeVaultInstruction (program : string) (accounts : list AccountMeta) :=
  instruction program accounts (Ok [OPCODE.initializeVault]).

(** The encoders that write an opcode, a seat index and an amount. *)
Definition seat_amount_data (opcode seatIndex amount : Z) : result t :=
  w ← u8 opcode empty; w ← u16 seatIndex w; u64 amount w.

Definition depositCollateralInstruction (program : string) (accounts : list AccountMeta) (seatIndex amount : Z) :=
  instruction program accounts (seat_amount_data OPCODE.depositCollateral seatIndex amount).

Definition withdrawCollateralInstruction (program : string) (accounts : list AccountMeta) (seatIndex amount : Z) :=
  instruction program accounts (seat_amount_data OPCODE.withdrawCollateral seatIndex amount).

Definition placeOrderV3Instruction (program : string) (accounts : V3ExecutionAccountMetas) (fields : PlaceOrderFields)
    : result Instruction :=
  _ ← assertV3ActionNonce accounts (pf_actionNonce fields);
  metas ← v3ExecutionMetas accounts false;
  placeOrderInstruction program metas fields.

Definition cancelOrderV3Instruction (program : string) (accounts : V3ExecutionAccountMetas)
    (seatIndex orderKey actionNonce : Z) : result Instruction :=
  _ ← assertV3ActionNonce accounts actionNonce;
  metas ← v3ExecutionMetas accounts false;
  cancelOrderInstruction program metas seatIndex orderKey actionNonce.

Definition cancelAllV3Instruction (program : string) (accounts : V3ExecutionAccountMetas)
    (seatIndex maxCancellations actionNonce : Z) : result Instruction :=
  _ ← assertV3ActionNonce accounts actionNonce;
  metas ← v3ExecutionMetas accounts false;
  cancelAllInstruction program metas seatIndex maxCancellations actionNonce.

Definition replaceOrderV3Instruction (program : string) (accounts : V3ExecutionAccountMetas) (oldOrderKey : Z)
    (fields : PlaceOrderFields) : result Instruction :=
  _ ← assertV3ActionNonce accounts (pf_actionNonce fields);
  metas ← v3ExecutionMetas accounts false;
  replaceOrderInstruction program metas oldOrderKey fields.

Definition depositCollateralV3Instruction (program : string) (a : V3DepositAccountMetas) (seatIndex amount : Z)
    : result Instruction :=
  _ ← throw_if (negb (len_is 4 (vd_eventShards a))) "V3 deposit requires four event shards";
  instruction program
    ([vd_core a; vd_seatShard a] ++ vd_eventShards a
     ++ [vd_authority a; vd_source a; vd_vault a; vd_mint a; vd_tokenProgram a])
    (seat_amount_data OPCODE.depositCollateralV3 seatIndex amount).

Definition withdrawCollateralV3Instruction (program : string) (a : V3WithdrawAccountMetas) (seatIndex amount : Z)
    : result Instruction :=
  _ ← throw_if (bool_decide (va_session (vw_execution a) ≠ None)) "V3 withdrawal cannot include a session PDA";
  data ← seat_amount_data OPCODE.withdrawCollateralV3 seatIndex amount;
  metas ← v3ExecutionMetas (vw_execution a) false;
  instruction program
    (metas ++ [vw_destination a; vw_mint a; vw_vault a; vw_vaultAuthority a; vw_tokenProgram a]) (Ok data).

Definition reconcileVaultV3Instruction (program : string) (a : V3ReconcileAccountMetas) : result Instruction :=
  _ ← throw_if (negb (len_is 18 (vr_bookPages a)) || negb (len_is 4 (vr_seatShards a))
                || negb (len_is 4 (vr_eventShards a)))
        "V3 reconciliation requires 18 book pages, 4 seat shards and 4 event shards";
  instruction program
    (vr_core a :: vr_bookPages a ++ vr_seatShards a ++ vr_eventShards a ++ [vr_vault a; vr_mint a; vr_tokenProgram a])
    (Ok [OPCODE.reconcileVaultV3]).

Definition delegateMarketInstruction (program : string) (accounts : list AccountMeta) (validator : list Z)
    : result Instruction :=
  _ ← throw_if (negb (blen validator =? 32)) "validator must be 32 bytes";
  instruction program accounts (w ← u8 OPCODE.delegateMarket empty; pubkey validator w).

Definition commitMarketInstruction (program : string) (accounts : list AccountMeta) (sequence : Z) (undelegate : bool) :=
  instruction program accounts
    (w ← u8 (if undelegate then OPCODE.commitAndUndelegate else OPCODE.commitMarket) empty; u64 sequence w).

Record SessionLimits := mkSessionLimits {
  sl_seatIndex : Z; sl_expiresAt : Z; sl_actions : Z; sl_maxOrderNotional : Z; sl_maxCumulativeNotional : Z;
  sl_maximumExposure : Z; sl_maximumOpenOrders : Z }.

(** The body shared by the two session-limit encoders. *)
Definition session_limits_data (opcode : Z) (f : SessionLimits) : result t :=
  w ← u8 opcode empty; w ← u16 (sl_seatIndex f) w; w ← u64 (sl_expiresAt f) w; w ← u8 (sl_actions f) w;
  w ← u64 (sl_maxOrderNotional f) w; w ← u64 (sl_maxCumulativeNotional f) w; w ← i128 (sl_maximumExposure f) w;
  u16 (sl_maximumOpenOrders f) w.

Definition authorizeTradingSessionInstruction (program : string) (accounts : list AccountMeta) (f : SessionLimits) :=
  instruction program accounts (session_limits_data OPCODE.authorizeTradingSession f).

Definition updateTradingSessionLimitsInstruction (program : string) (accounts : list AccountMeta) (f : SessionLimits) :=
  instruction program accounts (session_limits_data OPCODE.updateTradingSessionLimits f).

Definition revokeTradingSessionInstruction (program : string) (accounts : list AccountMeta) (seatIndex : Z) :=
  instruction program accounts (w ← u8 OPCODE.revokeTradingSession empty; u16 seatIndex w).

Definition closeTradingSessionInstruction (program : string) (accounts : list AccountMeta) (seatIndex : Z) :=
  instruction program accounts (w ← u8 OPCODE.closeTradingSession empty; u16 seatIndex w).

Inductive MarketTransition := transition_pause | transition_resume | transition_close_only.

Definition transitionMarketInstruction (program : string) (accounts : list AccountMeta) (mode : MarketTransition) :=
  instruction program accounts (Ok [match mode with
    | transition_pause => OPCODE.pauseMarket
    | transition_resume => OPCODE.resumeMarket
    | transition_close_only => OPCODE.setCloseOnly
    end]).

Definition transferToInsuranceFundInstruction (program : string) (accounts : list AccountMeta) (amount : Z) :=
  instruction program accounts (w ← u8 OPCODE.transferToInsuranceFund empty; u64 amount w).
Definition withdrawProtocolFeesInstruction (program : string) (accounts : list AccountMeta) (amount : Z) :=
  instruction program accounts (w ← u8 OPCODE.withdrawProtocolFees empty; u64 amount w).
Definition withdrawInsuranceFundsInstruction (program : string) (accounts : list AccountMeta) (amount : Z) :=
  instruction program accounts (w ← u8 OPCODE.withdrawInsuranceFunds empty; u64 amount w).
Definition recordBadDebtInstruction (program : string) (accounts : list AccountMeta) (seatIndex amount : Z) :=
  instruction program accounts (seat_amount_data OPCODE.recordBadDebt seatIndex amount).
Definition resolveBadDebtInstruction (program : string) (accounts : list AccountMeta) (amount : Z) :=
  instruction program accounts (w ← u8 OPCODE.resolveBadDebt empty; u64 amount w).
Definition reconcileVaultInstruction (program : string) (accounts : list AccountMeta) :=
  instruction program accounts (Ok [OPCODE.reconcileVault]).

Definition consumeOracleUpdateInstruction (program : string) (accounts : list AccountMeta)
    (ed25519InstructionIndex signatureIndex : Z) (message : list Z) : result Instruction :=
  _ ← throw_if ((blen message =? 0) || (512 <? blen message))
        ("pyth message must be 1..=512 bytes, got " +:+ pretty (blen message));
  instruction program accounts
    (w ← u8 OPCODE.consumeOracleUpdate empty; w ← u16 ed25519InstructionIndex w; w ← u8 signatureIndex w; raw message w).

Definition COMPUTE_BUDGET_PROGRAM_ID : string := "ComputeBudget111111111111111111111111111111".

Definition setComputeUnitLimitInstruction (units : Z) : result Instruction :=
  instruction COMPUTE_BUDGET_PROGRAM_ID [] (w ← u8 2 empty; u32 units w).
Definition setComputeUnitPriceInstruction (microLamports : Z) : result Instruction :=
  instruction COMPUTE_BUDGET_PROGRAM_ID [] (w ← u8 3 empty; u64 microLamports w).
End Encoders.

Definition DEFAULT_COMPUTE_UNIT_LIMIT : Z := 60000.

(** ** Signing and the keeper builders *)

(** [computeUnitLimit] is [null], left out, or a number. *)
Inductive UnitLimit := limit_null | limit_default | limit_units (units : Z).

(** The instructions of the message, in order. *)
Definition message_instructions (instructions : list Instruction) (computeUnitLimit : UnitLimit)
    (computeUnitPrice : option Z) : result (list Instruction) :=
  limit ← match computeUnitLimit with
          | limit_null => Ok []
          | limit_default => i ← setComputeUnitLimitInstruction DEFAULT_COMPUTE_UNIT_LIMIT; Ok [i]
          | limit_units u => i ← setComputeUnitLimitInstruction u; Ok [i]
          end;
  price ← match computeUnitPrice with
          | None => Ok []
          | Some p => i ← setComputeUnitPriceInstruction p; Ok [i]
          end;
  Ok (limit ++ price ++ instructions).

Record KeeperTransactionContext := mkContext { kx_programAddress : string; kx_market : string; kx_authority : string }.

Definition marketAndAuthority (context : KeeperTransactionContext) : list AccountMeta :=
  [mkMeta (kx_market context) role_writable; mkMeta (kx_authority context) role_readonly_signer].

Definition marketTransitionFor (targetMode : FundingMode) : MarketTransition :=
  match targetMode with
  | funding_open => transition_resume
  | funding_paused => transition_pause
  | funding_close_only => transition_close_only
  end.

Section Builders.
(** [compile_and_sign]: compiles a v0 message with the signer as fee payer over
    these instructions and this blockhash, signs it and encodes it. *)
Context (compile_and_sign : list Instruction -> string -> result string).

Definition signAndSerializeTransaction (instructions : list Instruction) (recentBlockhash : string)
    (computeUnitLimit : UnitLimit) (computeUnitPrice : option Z) : result string :=
  message ← message_instructions instructions computeUnitLimit computeUnitPrice;
  compile_and_sign message recentBlockhash.

Definition build (recentBlockhash : string) (instructions : result (list Instruction)) : result string :=
  list ← instructions; signAndSerializeTransaction list recentBlockhash limit_default None.

Definition single (i : result Instruction) : result (list Instruction) := i ← i; Ok [i].

Definition fundingKeeperBuilder (context : KeeperTransactionContext) : Builder (Z * Z) :=
  fun '(accumulator, timestamp) recentBlockhash => build recentBlockhash
    (single (updateFundingInstruction (kx_programAddress context) (marketAndAuthority context) accumulator timestamp)).

Definition sessionKeeperBuilder (context : KeeperTransactionContext) : Builder FundingMode :=
  fun targetMode recentBlockhash => build recentBlockhash
    (single (transitionMarketInstruction (kx_programAddress context) (marketAndAuthority context)
               (marketTransitionFor targetMode))).

Definition liquidationKeeperBuilder (context : KeeperTransactionContext) : Builder (Z * Z) :=
  fun '(seatIndex, maxQuantity) recentBlockhash => build recentBlockhash
    (single (liquidateInstruction (kx_programAddress context) (marketAndAuthority context) seatIndex maxQuantity)).

Definition cleanupKeeperBuilder (context : KeeperTransactionContext) (seatIndex : Z) : Builder Z :=
  fun maxRemovals recentBlockhash => build recentBlockhash
    (single (cancelAllInstruction (kx_programAddress context) (marketAndAuthority context) seatIndex maxRemovals 0)).

(** The Ed25519 instruction, then the consumer that refers to index 0. *)
Definition pyth_instructions (context : KeeperTransactionContext) (oracleAccounts : list AccountMeta)
    (ed25519Instruction : Instruction) (message : list Z) : result (list Instruction) :=
  consume ← consumeOracleUpdateInstruction (kx_programAddress context) oracleAccounts 0 0 message;
  Ok [ed25519Instruction; consume].

Definition pythKeeperBuilder (context : KeeperTransactionContext) (oracleAccounts : list AccountMeta)
    (ed25519Instruction : Instruction) : Builder (list Z * string) :=
  fun '(message, _) recentBlockhash => build recentBlockhash
    (pyth_instructions context oracleAccounts ed25519Instruction message).

Definition magicBlockCommitKeeperBuilder (context : KeeperTransactionContext) : Builder (Z * bool) :=
  fun '(sequence, undelegate) recentBlockhash => build recentBlockhash
    (single (commitMarketInstruction (kx_programAddress context) (marketAndAuthority context) sequence undelegate)).
End Builders.

(** ** The Pyth builder *)

(** The oracle consumer refers to instruction 0 of its transaction, where the
    program looks for the Ed25519 verification.  The shared [build] puts the
    compute-budget instruction there: in every transaction the Pyth builder
    hands to the signer, index 0 is the compute-budget instruction and the
    Ed25519 instruction is at index 1. *)
Theorem pyth_builder_index_mismatch context oracleAccounts ed message is_ :
  (l ← pyth_instructions context oracleAccounts ed message; message_instructions l limit_default None) = Ok is_ ->
  exists limit consume, is_ = [limit; ed; consume] /\ ix_program limit = COMPUTE_BUDGET_PROGRAM_ID
    /\ getUint16 (ix_data consume) 1 = Ok 0.
Proof.
  intros (l & Hl & H)%result_bind_Ok. unfold pyth_instructions in Hl.
  apply result_bind_Ok in Hl as (consume & Hc & [= <-]).
  unfold consumeOracleUpdateInstruction in Hc. apply result_bind_Ok in Hc as (? & _ & [= <-]).
  vm_compute in H. injection H as <-. eexists _, _. split; [reflexivity|]. split; [reflexivity|].
  unfold getUint16. pose proof (view_split_mid [12] 2 0 (0 :: message) ltac:(lia)) as E. exact E.
Qed.

Definition sample_context : KeeperTransactionContext := mkContext "program" "market" "keeper".

Lemma pyth_builder_index_mismatch_witness :
  exists limit consume, (l ← pyth_instructions sample_context [] (mkInstruction "Ed25519" [] [1]) [5; 6];
                         message_instructions l limit_default None) = Ok [limit; mkInstruction "Ed25519" [] [1]; consume].
Proof.
  destruct (l ← pyth_instructions sample_context [] (mkInstruction "Ed25519" [] [1]) [5; 6];
            message_instructions l limit_default None) as [is_|e] eqn:E; [|exfalso; revert E; vm_compute; discriminate].
  destruct (pyth_builder_index_mismatch sample_context [] (mkInstruction "Ed25519" [] [1]) [5; 6] is_ E)
    as (limit & consume & -> & _). by exists limit, consume.
Defined.
