(* ===== verification/Relay.v ===== *)
(** * Session-key relaying

    workers/src/session-relayer.ts (what a partially signed transaction must
    look like before the worker adds its fee-payer signature) and
    workers/src/relay-auth.ts (the on-chain checks of the session behind it).
    Transaction decoding, Ed25519, address derivation and submission belong to
    the kit library, the platform and the chain, and are parameters. *)

From S2P Require Import Prelude Bytes ExecutionStatus V3Market Transactions.

(** ** session-relayer.ts: reading an instruction *)

Definition SESSION_ALLOWED_OPCODES : list Z :=
  [OPCODE.placeOrder; OPCODE.cancelOrder; OPCODE.cancelAll; OPCODE.replaceOrder].

Definition SEAT_INDEX_OFFSET (opcode : Z) : option Z :=
  if opcode =? OPCODE.placeOrder then Some 4
  else if opcode =? OPCODE.cancelOrder then Some 1
  else if opcode =? OPCODE.cancelAll then Some 1
  else if opcode =? OPCODE.replaceOrder then Some 20
  else None.

Definition FLAGS_OFFSET (opcode : Z) : option Z :=
  if opcode =? OPCODE.placeOrder then Some 3 else if opcode =? OPCODE.replaceOrder then Some 19 else None.

Record RelayOrderIntent := mkIntent {
  oi_quantity : Z; oi_priceOrOffset : Z; oi_side : Z; oi_tree : Z; oi_reduceOnly : bool; oi_replace : bool }.

Definition extractActionNonce (data : list Z) : result (option Z) :=
  if blen data <? 8 then Ok None else Some <$> getBigUint64 data (blen data - 8).

Definition readSigned64 (data : list Z) (offset : Z) : result (option Z) :=
  if (offset <? 0) || (blen data <? offset + 8) then Ok None else Some <$> getBigInt64 data offset.

Definition readUnsigned64 (data : list Z) (offset : Z) : result (option Z) :=
  if (offset <? 0) || (blen data <? offset + 8) then Ok None else Some <$> getBigUint64 data offset.

Definition extractOrderIntent (opcode : Z) (data : list Z) : result (option RelayOrderIntent) :=
  if negb (opcode =? OPCODE.placeOrder) && negb (opcode =? OPCODE.replaceOrder) then Ok None
  else
    let base := if opcode =? OPCODE.replaceOrder then 17 else 1 in
    if blen data <? base + 45 + 8 then Ok None
    else
      let side := byte_or_0 data base in
      let tree := byte_or_0 data (base + 1) in
      if (negb (side =? 0) && negb (side =? 1)) || (negb (tree =? 0) && negb (tree =? 1)) then Ok None
      else
        quantity ← readUnsigned64 data (base + 5);
        priceOrOffset ← readSigned64 data (base + 13);
        match quantity, priceOrOffset with
        | Some q, Some p =>
            if q =? 0 then Ok None
            else Ok (Some (mkIntent q p side tree (negb (Z.land (byte_or_0 data (base + 2)) 4 =? 0))
                             (opcode =? OPCODE.replaceOrder)))
        | _, _ => Ok None
        end.

(** What the relayer learns from the instruction's own bytes. *)
Record RelayFields := mkRelayFields {
  rf_opcode : Z; rf_seatIndex : Z; rf_actionNonce : Z; rf_placeOrderFlags : Z; rf_orderIntent : option RelayOrderIntent }.

Definition instruction_fields (data : list Z) : result (string + RelayFields) :=
  match data with
  | [] => Ok (inl "instruction carries no data")
  | opcode :: _ =>
      if negb (bool_decide (opcode ∈ SESSION_ALLOWED_OPCODES))
      then Ok (inl ("opcode " +:+ pretty opcode +:+ " is not allowed for a session-signed transaction"))
      else match SEAT_INDEX_OFFSET opcode with
      | None => Ok (inl "instruction data too short to contain a seat index")
      | Some off =>
          if blen data <? off + 2 then Ok (inl "instruction data too short to contain a seat index")
          else
            let seatIndex := js_or (byte_or_0 data off) (js_shl (byte_or_0 data (off + 1)) 8) in
            nonce ← extractActionNonce data;
            match nonce with
            | None => Ok (inl "instruction data too short to contain an action nonce")
            | Some actionNonce =>
                let placeOrderFlags := match FLAGS_OFFSET opcode with
                  | Some f => if f <? blen data then byte_or_0 data f else 0
                  | None => 0
                  end in
                intent ← extractOrderIntent opcode data;
                if ((opcode =? OPCODE.placeOrder) || (opcode =? OPCODE.replaceOrder)) && match intent with Some _ => false | None => true end
                then Ok (inl "malformed_order_fields")
                else Ok (inr (mkRelayFields opcode seatIndex actionNonce placeOrderFlags intent))
            end
      end
  end.

(** ** session-relayer.ts: the transaction around it *)

Record MessageHeader := mkHeader {
  numSignerAccounts : Z; numReadonlySignerAccounts : Z; numReadonlyNonSignerAccounts : Z }.

Definition nth_account (staticAccounts : list string) (i : Z) : option string :=
  if 0 <=? i then staticAccounts !! Z.to_nat i else None.

(** The privileges of account [i] of a compiled message. *)
Definition account_signer (h : MessageHeader) (i : Z) : bool := i <? numSignerAccounts h.
Definition account_writable (h : MessageHeader) (total i : Z) : bool :=
  if account_signer h i then i <? numSignerAccounts h - numReadonlySignerAccounts h
  else i <? total - numReadonlyNonSignerAccounts h.

Fixpoint check_accounts (h : MessageHeader) (staticAccounts : list string) (indices : list Z) (expected : list string)
    (index : Z) : option string :=
  match indices, expected with
  | i :: indices', e :: expected' =>
      if negb (bool_decide (nth_account staticAccounts i = Some e))
      then Some ("v3_account_order_mismatch:" +:+ pretty index)
      else
        let expectedSigner := index =? 27 in
        let expectedWritable := (index <? 27) || (index =? 28) in
        if negb (bool_decide (account_signer h i = expectedSigner))
           || negb (bool_decide (account_writable h (Z.of_nat (length staticAccounts)) i = expectedWritable))
        then Some ("v3_account_privilege_mismatch:" +:+ pretty index)
        else check_accounts h staticAccounts indices' expected' (index + 1)
  | _, _ => None
  end.

(** [None]: accepted. *)
Definition validateCanonicalV3Accounts (h : MessageHeader) (staticAccounts : list string) (accountIndices : list Z)
    (expectedAccounts : list string) : option string :=
  if negb (bool_decide (length accountIndices = 29%nat)) then Some "v3_execution_bundle_wrong_length"
  else if negb (bool_decide (length expectedAccounts = 29%nat)) then Some "v3_expected_bundle_wrong_length"
  else
    let actual := nth_account staticAccounts <$> accountIndices in
    if bool_decide (None ∈ actual) then Some "v3_account_index_out_of_bounds"
    else if negb (bool_decide (NoDup actual)) then Some "v3_duplicate_account"
    else check_accounts h staticAccounts accountIndices expectedAccounts 0.

Record CompiledInstruction := mkCompiledIx {
  ci_programAddressIndex : Z; ci_accountIndices : list Z; ci_data : list Z }.

Record CompiledMessage := mkCompiled {
  cm_version0 : bool; cm_staticAccounts : list string; cm_header : MessageHeader;
  cm_instructions : list CompiledInstruction; cm_lifetimeToken : option string; cm_addressTableLookups : bool }.

(** A decoded wire transaction: an empty signature slot is [None]. *)
Record WireTransaction := mkWire { wt_messageBytes : list Z; wt_signatures : gmap string (option (list Z)) }.

Record RelayRequest := mkRelayRequest {
  rq_transactionBase64 : string; rq_expectedProgramAddress : string; rq_sessionSignerAddress : string;
  rq_expectedMarket : option string; rq_ownerWallet : option string;
  rq_recentBlockhashValid : option (string -> result bool) }.

(** Everything outside the repository's own code. *)
Record RelayPlatform := mkPlatform {
  decodeTransaction : string -> option WireTransaction;
  decodeMessage : list Z -> option CompiledMessage;
  verifyEd25519 : string -> list Z -> list Z -> bool;
  base58Bytes : string -> result (list Z);
  deriveBookPageV3 : string -> Z -> Z -> result string;
  deriveSeatShardV3 : string -> Z -> result string;
  deriveEventShardV3 : string -> Z -> result string;
  deriveTradingSessionAddress : string -> string -> Z -> string -> string -> result string }.

Section Relayer.
Context (pf : RelayPlatform).

(** A non-empty optional string. *)
Definition truthy (s : option string) : option string :=
  match s with Some s => if bool_decide (s = "") then None else Some s | None => None end.

Definition expected_bundle (request : RelayRequest) (market owner : string) (seatIndex : Z) : result (list string) :=
  pages ← mapR (fun flat => deriveBookPageV3 pf market (flat / 9) (flat mod 9)) (seqZ 0 18);
  seats ← mapR (deriveSeatShardV3 pf market) (seqZ 0 4);
  events ← mapR (deriveEventShardV3 pf market) (seqZ 0 4);
  session ← deriveTradingSessionAddress pf owner market seatIndex (rq_sessionSignerAddress request)
              (rq_expectedProgramAddress request);
  Ok (market :: pages ++ seats ++ events ++ [rq_sessionSignerAddress request; session]).

(** The checks of the production path, when [expectedMarket] is given.  [Some]
    is the reason of a refusal. *)
Definition validate_v3 (request : RelayRequest) (compiled : CompiledMessage) (i : CompiledInstruction) (market : string)
    (seatIndex : Z) : result (option string) :=
  match truthy (rq_ownerWallet request) with
  | None => Ok (Some "v3_owner_wallet_required")
  | Some owner =>
      if negb (cm_version0 compiled) then Ok (Some "v3_transaction_version_unsupported")
      else if cm_addressTableLookups compiled then Ok (Some "v3_address_lookup_tables_not_supported")
      else match truthy (cm_lifetimeToken compiled) with
      | None => Ok (Some "v3_recent_blockhash_missing")
      | Some token =>
          bytes ← base58Bytes pf token;
          if negb (blen bytes =? 32) || forallb (fun b => b =? 0) bytes then Ok (Some "v3_recent_blockhash_missing")
          else
            let refused := match rq_recentBlockhashValid request with
              | None => None
              | Some valid => match valid token with
                | Ok true => None
                | Ok false => Some "v3_recent_blockhash_expired"
                | Throw _ => Some "v3_recent_blockhash_unverifiable"
                end
              end in
            match refused with
            | Some reason => Ok (Some reason)
            | None =>
                expected ← expected_bundle request market owner seatIndex;
                Ok (validateCanonicalV3Accounts (cm_header compiled) (cm_staticAccounts compiled)
                      (ci_accountIndices i) expected)
            end
      end
  end.

Definition trading_instructions (compiled : CompiledMessage) : list CompiledInstruction :=
  filter (fun i => nth_account (cm_staticAccounts compiled) (ci_programAddressIndex i) ≠ Some COMPUTE_BUDGET_PROGRAM_ID)
    (cm_instructions compiled).

Definition validateSessionTransaction (request : RelayRequest) (relayerAddress : string)
    : result (string + (WireTransaction * RelayFields)) :=
  match decodeTransaction pf (rq_transactionBase64 request) with
  | None => Ok (inl "malformed transaction")
  | Some transaction =>
  match decodeMessage pf (wt_messageBytes transaction) with
  | None => Ok (inl "malformed transaction message")
  | Some compiled =>
  if negb (bool_decide (head (cm_staticAccounts compiled) = Some relayerAddress))
  then Ok (inl "fee payer must be this relayer's own address")
  else if bool_decide (is_Some (wt_signatures transaction !! relayerAddress ≫= id))
  then Ok (inl "fee-payer signature slot must still be empty")
  else match wt_signatures transaction !! rq_sessionSignerAddress request ≫= id with
  | None => Ok (inl "session signer has not signed this transaction")
  | Some signature =>
  if negb (verifyEd25519 pf (rq_sessionSignerAddress request) signature (wt_messageBytes transaction))
  then Ok (inl "session signer's signature does not verify against this message")
  else match trading_instructions compiled with
  | [i] =>
      let program := nth_account (cm_staticAccounts compiled) (ci_programAddressIndex i) in
      if negb (bool_decide (program = Some (rq_expectedProgramAddress request)))
      then Ok (inl ("instruction targets an unexpected program: " +:+ default "undefined" program))
      else
        fields ← instruction_fields (ci_data i);
        match fields with
        | inl reason => Ok (inl reason)
        | inr fields =>
            match rq_expectedMarket request with
            | None => Ok (inr (transaction, fields))
            | Some market =>
                refused ← validate_v3 request compiled i market (rf_seatIndex fields);
                Ok (match refused with
                    | Some reason => inl reason
                    | None => inr (transaction, fields)
                    end)
            end
        end
  | is_ => Ok (inl ("expected exactly one trading instruction, found " +:+ pretty (Z.of_nat (length is_))))
  end
  end
  end
  end.

(** The signer's address and its signature of a message. *)
Definition coSignSessionTransaction (sign : list Z -> result (list Z)) (encode : WireTransaction -> string)
    (request : RelayRequest) (relayerAddress : string) : result (string + string) :=
  validation ← validateSessionTransaction request relayerAddress;
  match validation with
  | inl reason => Ok (inl reason)
  | inr (transaction, _) =>
      signature ← sign (wt_messageBytes transaction);
      Ok (inr (encode (mkWire (wt_messageBytes transaction)
                         (<[relayerAddress := Some signature]> (wt_signatures transaction)))))
  end.

(** [inl]: an error answer; [inr]: the signature of the submitted transaction. *)
Definition relaySessionTransaction (sign : list Z -> result (list Z)) (encode : WireTransaction -> string)
    (sendTransaction : string -> result string) (request : RelayRequest) (relayerAddress : string)
    : result (string + string) :=
  r ← coSignSessionTransaction sign encode request relayerAddress;
  match r with
  | inl e => Ok (inl e)
  | inr base64 => signature ← sendTransaction base64; Ok (inr signature)
  end.
End Relayer.

(** ** relay-auth.ts *)

Record PrivyClaims := mkClaims { pc_user_id : string; pc_app_id : option string; pc_solanaWallets : list string }.

(** [inl]: the error; [inr]: the user. *)
Definition verifyPrivyToken (verify : string -> result PrivyClaims) (token appId expectedWallet : string) : string + string :=
  match verify token with
  | Throw _ => inl "privy_verification_failed"
  | Ok verified =>
      if bool_decide (pc_user_id verified = "") then inl "privy_no_user_id"
      else if match truthy (pc_app_id verified) with Some a => negb (bool_decide (a = appId)) | None => false end
      then inl "privy_wrong_audience"
      else if negb (bool_decide (expectedWallet ∈ pc_solanaWallets verified)) then inl "privy_wallet_not_linked"
      else inr (pc_user_id verified)
  end.

Definition MARKET_ACCOUNT_SIZE : Z := 222752.
Definition TRADER_SEAT_OFFSET : Z := 181792.
Definition TRADER_SEAT_SIZE : Z := 256.
Definition TRADING_SESSION_SIZE : Z := 256.

Module SESSION_ACTION.
Definition place : Z := 1.
Definition cancel : Z := 2.
Definition cancelAll : Z := 4.
Definition replace : Z := 8.
Definition reduceOnlyClose : Z := 16.
End SESSION_ACTION.

Definition requiredSessionActions (opcode placeOrderFlags : Z) : Z :=
  if opcode =? 3 then
    (if negb (Z.land placeOrderFlags 4 =? 0) then Z.lor SESSION_ACTION.place SESSION_ACTION.reduceOnlyClose
     else SESSION_ACTION.place)
  else if opcode =? 4 then SESSION_ACTION.cancel
  else if opcode =? 5 then SESSION_ACTION.cancelAll
  else if opcode =? 33 then SESSION_ACTION.replace
  else 0.

Record VerifyTradingSessionInput := mkVerifyInput {
  vi_marketBytes : list Z; vi_sessionBytes : option (list Z); vi_sessionAccountOwner : option string;
  vi_ownerWallet : string; vi_sessionSignerAddress : string; vi_seatIndex : Z; vi_marketPda : string;
  vi_programId : string; vi_actionNonce : Z; vi_opcode : Z; vi_placeOrderFlags : Z; vi_now : Z;
  vi_v3 : option (V3CoreState * option V3SeatPositionState); vi_domain : option Domain;
  vi_orderIntent : option RelayOrderIntent }.

Inductive Verdict := session_ok | session_denied (reason : string).

Definition STKSES02 : list Z := [83; 84; 75; 83; 69; 83; 48; 50].

Section Verify.
Context (base58 : list Z -> string).

(** Market, oracle and seat; [Some] is a refusal. *)
Definition check_market (i : VerifyTradingSessionInput) : option string :=
  let market := vi_marketBytes i in
  match vi_v3 i with
  | Some (core, seat) =>
      if negb (blen market =? 4096) then Some "v3_core_wrong_size"
      else if negb (mode core =? 1) && negb (mode core =? 2) && negb (mode core =? 3) then Some "market_not_open"
      else if negb (oracleValid core) then Some "oracle_not_valid"
      else match seat with
      | None => Some "seat_not_occupied"
      | Some seat =>
          if negb (slot seat =? vi_seatIndex i) || negb (bool_decide (trader seat = vi_ownerWallet i))
          then Some "seat_owner_mismatch"
          else if vi_seatIndex i <? 0 then Some "seat_index_invalid"
          else None
      end
  | None =>
      if blen market =? 4096 then Some "v3_context_required"
      else if negb (blen market =? MARKET_ACCOUNT_SIZE) then Some "market_wrong_size"
      else if negb (byte_is market 10 1) then Some "market_not_initialized"
      else if negb (byte_is market 11 1) then Some "market_not_open"
      else if negb (byte_is market 294 1) then Some "oracle_not_valid"
      else if vi_seatIndex i <? 0 then Some "seat_index_invalid"
      else
        let seatBase := TRADER_SEAT_OFFSET + vi_seatIndex i * TRADER_SEAT_SIZE in
        if blen market <? seatBase + TRADER_SEAT_SIZE then Some "seat_out_of_bounds"
        else if negb (byte_is market seatBase 1) then Some "seat_not_occupied"
        else if negb (bool_decide (base58 (slice market (seatBase + 1) (seatBase + 33)) = vi_ownerWallet i))
        then Some "seat_owner_mismatch"
        else None
  end.

(** Identity, revocation, expiry, allowlist and nonce of the session account. *)
Definition check_session (i : VerifyTradingSessionInput) (session : list Z) : result (option string) :=
  if negb (blen session =? TRADING_SESSION_SIZE) then Ok (Some "session_wrong_size") else
  version ← getUint16 session 8;
  if negb (bool_decide (slice session 0 8 = STKSES02)) || negb (version =? 1) then Ok (Some "session_bad_discriminator")
  else if negb (byte_is session 10 1) then Ok (Some "session_not_initialized")
  else if negb (byte_is session 11 0) then Ok (Some "session_revoked")
  else if negb (bool_decide (base58 (slice session 12 44) = vi_ownerWallet i)) then Ok (Some "session_owner_mismatch")
  else if negb (bool_decide (base58 (slice session 44 76) = vi_sessionSignerAddress i))
  then Ok (Some "session_signer_mismatch")
  else if negb (bool_decide (base58 (slice session 76 108) = vi_programId i)) then Ok (Some "session_wrong_program")
  else if negb (bool_decide (base58 (slice session 108 140) = vi_marketPda i)) then Ok (Some "session_wrong_market")
  else
    sessionSeat ← getUint16 session 140;
    if negb (sessionSeat =? vi_seatIndex i) then Ok (Some "session_wrong_seat") else
    expiresAt ← getBigUint64 session 150;
    if expiresAt <=? vi_now i / 1000 then Ok (Some "session_expired") else
    let required := requiredSessionActions (vi_opcode i) (vi_placeOrderFlags i) in
    if required =? 0 then Ok (Some "opcode_not_session_relayable")
    else if Z.land (byte_or_0 session 158) required =? 0 then Ok (Some "session_action_not_allowed")
    else
      nextExpectedNonce ← getBigUint64 session 201;
      if negb (nextExpectedNonce =? vi_actionNonce i) then Ok (Some "session_nonce_mismatch") else Ok None.

(** The limits of the session against the decoded order. *)
Definition check_limits (core : V3CoreState) (seat : V3SeatPositionState) (session : list Z) (o : RelayOrderIntent)
    : result (option string) :=
  let effectivePrice := if oi_tree o =? 0 then oi_priceOrOffset o else lastVerifiedOraclePrice core + oi_priceOrOffset o in
  if effectivePrice <=? 0 then Ok (Some "order_price_invalid") else
  let notional := oi_quantity o * effectivePrice in
  if (notional <=? 0) || (MAX_SAFE_INTEGER <? notional) then Ok (Some "order_notional_invalid") else
  let signedQuantity := if oi_side o =? 0 then oi_quantity o else - oi_quantity o in
  let resultingPosition := basePosition seat + signedQuantity in
  let resultingExposure := if resultingPosition <? 0 then - resultingPosition else resultingPosition in
  if oi_reduceOnly o && ((basePosition seat =? 0)
       || ((if basePosition seat <? 0 then - basePosition seat else basePosition seat) <=? resultingExposure))
  then Ok (Some "reduce_only_would_not_reduce") else
  maxOrderNotional ← getBigUint64 session 159;
  maxCumulativeNotional ← getBigUint64 session 167;
  consumedCumulativeNotional ← getBigUint64 session 175;
  maxExposure ← signed128 session 183;
  maxOpenOrders ← getUint16 session 199;
  if (maxOrderNotional <? notional) || (maxCumulativeNotional <? notional + consumedCumulativeNotional)
  then Ok (Some "session_notional_limit")
  else if (maxExposure <? 0) || (maxExposure <? resultingExposure) then Ok (Some "session_exposure_limit")
  else
    let projectedOpenOrders := openOrderCount seat - (if oi_replace o && (0 <? openOrderCount seat) then 1 else 0) in
    if maxOpenOrders <=? projectedOpenOrders then Ok (Some "session_open_order_limit") else Ok None.

Definition check_order (i : VerifyTradingSessionInput) (session : list Z) : result (option string) :=
  match vi_v3 i, vi_orderIntent i with
  | Some (core, seat), Some o =>
      match seat with
      | None => Ok (Some "seat_not_occupied")
      | Some seat => check_limits core seat session o
      end
  | _, _ => Ok None
  end.

Definition check_domain (i : VerifyTradingSessionInput) : option string :=
  match vi_v3 i, vi_domain i with
  | Some (core, _), Some domain =>
      let delegated := (core_delegationStatus core =? 1) || (core_delegationStatus core =? 2) in
      if negb (bool_decide (bool_decide (domain = ER) = delegated)) then Some "relay_domain_mismatch" else None
  | _, _ => None
  end.

Definition verifyTradingSession (i : VerifyTradingSessionInput) : result Verdict :=
  match check_market i with
  | Some reason => Ok (session_denied reason)
  | None =>
      match vi_sessionBytes i with
      | None => Ok (session_denied "session_not_found")
      | Some session =>
          if negb (bool_decide (vi_sessionAccountOwner i = Some (vi_programId i)))
          then Ok (session_denied "session_not_found")
          else
            refused ← check_session i session;
            match refused with
            | Some reason => Ok (session_denied reason)
            | None =>
                refused ← check_order i session;
                match refused with
                | Some reason => Ok (session_denied reason)
                | None => Ok (match check_domain i with Some reason => session_denied reason | None => session_ok end)
                end
            end
      end
  end.
End Verify.

(** The seat the relay route passes on: the slot within the seat's own shard. *)
Definition relay_seat (seatShard : option V3SeatShardState) (seatIndex : Z) : option V3SeatPositionState :=
  shard ← seatShard; snd <$> list_find (fun p => slot p = Z.rem seatIndex 32) (ss_positions shard).

(** ** Reading instructions back *)

Lemma u8_Ok v w w' : DataWriter.u8 v w = Ok w' <-> 0 <= v < 2 ^ 8 /\ w' = w ++ [v].
Proof.
  unfold DataWriter.u8. case_match eqn:E.
  - apply orb_true_iff in E. rewrite !Z.ltb_lt in E. split; [done|lia].
  - zbool. split; [intros [= <-]; split; [lia|done]|intros [_ ->]; done].
Qed.

(** Peels one writer off a chain. *)
Ltac writer_ok W :=
  lazymatch type of W with
  | DataWriter.u8 _ _ = Ok _ => apply u8_Ok in W as [? ->]
  | DataWriter.u16 _ _ = Ok _ => apply u16_Ok in W as [? ->]
  | DataWriter.u64 _ _ = Ok _ => unfold DataWriter.u64 in W; apply unsigned_Ok in W as [? ->]
  | DataWriter.u128 _ _ = Ok _ => unfold DataWriter.u128 in W; apply unsigned_Ok in W as [? ->]
  | DataWriter.i64 _ _ = Ok _ => unfold DataWriter.i64 in W; apply signed_Ok in W as [? ->]; [|lia]
  end.

Ltac peel_writer H :=
  let W := fresh "W" in apply result_bind_Ok in H as (? & W & H); writer_ok W.

Definition side_code (f : PlaceOrderFields) : Z := if bool_decide (pf_side f = side_bid) then 0 else 1.
Definition tree_code (f : PlaceOrderFields) : Z := if bool_decide (pf_tree f = Transactions.tree_fixed) then 0 else 1.

(** The payload of an order after its seat index. *)
Definition order_tail (f : PlaceOrderFields) : list Z :=
  le_split 8 (pf_quantity f) ++ le_split 8 (wrap_signed 8 (pf_priceOrOffset f)) ++ le_split 8 (pf_expiresAt f)
  ++ le_split 8 (wrap_signed 8 (pf_pegLimit f)) ++ le_split 8 (pf_clientOrderId f) ++ le_split 8 (pf_actionNonce f).

Definition order_ranges (f : PlaceOrderFields) : Prop :=
  0 <= pf_seatIndex f < 2 ^ 16 /\ 0 <= pf_quantity f < 2 ^ 64 /\ - 2 ^ 63 <= pf_priceOrOffset f < 2 ^ 63
  /\ 0 <= pf_actionNonce f < 2 ^ 64.

Lemma placeOrderData_bytes f data :
  placeOrderData f = Ok data ->
  data = [3; side_code f; tree_code f; order_flags f; pf_seatIndex f mod 256; pf_seatIndex f / 256 mod 256] ++ order_tail f
  /\ order_ranges f.
Proof.
  unfold placeOrderData. fold (side_code f). fold (tree_code f). intros H. do 10 peel_writer H.
  writer_ok H. split; [|done].
  unfold order_tail, DataWriter.empty. repeat rewrite <- app_assoc. reflexivity.
Qed.

Lemma js_seat_index v : 0 <= v < 2 ^ 16 -> js_or (v mod 256) (js_shl (v / 256 mod 256) 8) = v.
Proof.
  intros Hv. unfold js_or, js_shl.
  assert (forall z, 0 <= z < 2 ^ 31 -> to_int32 z = z) as Hid.
  { intros z Hz. unfold to_int32. rewrite Z.mod_small by lia. case_match; zbool; lia. }
  assert (0 <= v mod 256 < 256) by (apply Z.mod_pos_bound; lia).
  assert (v / 256 mod 256 = v / 256) as -> by (apply Z.mod_small; Z.to_euclidean_division_equations; lia).
  assert (0 <= v / 256 < 256) by (Z.to_euclidean_division_equations; lia).
  rewrite (Hid (v / 256)) by lia.
  assert (0 <= Z.shiftl (v / 256) 8 < 2 ^ 16) by (rewrite Z.shiftl_mul_pow2; lia).
  rewrite (Hid (Z.shiftl _ 8)), (Hid (v mod 256)), (Hid (Z.shiftl _ 8)) by lia.
  rewrite Z.lor_comm, shiftl_lor_byte by (unfold is_byte; lia).
  rewrite Hid; Z.to_euclidean_division_equations; lia.
Qed.

(** A nonce written last is read back from the last eight bytes. *)
Lemma extractActionNonce_app l n :
  0 <= n < 2 ^ 64 -> extractActionNonce (l ++ le_split 8 n) = Ok (Some n).
Proof.
  intros Hn. unfold extractActionNonce.
  assert (blen (l ++ le_split 8 n) = blen l + 8) as -> by (rewrite blen_app; unfold blen; by rewrite length_le_split).
  destruct (Z.ltb_spec (blen l + 8) 8); [unfold blen in *; lia|].
  replace (blen l + 8 - 8) with (blen l) by lia. unfold getBigUint64.
  pose proof (view_split_mid l 8 n [] Hn) as E. rewrite app_nil_r in E. by rewrite E.
Qed.

Definition reduce_only_flag (f : PlaceOrderFields) : bool := negb (Z.land (order_flags f) 4 =? 0).

Lemma reduce_only_flag_spec f : reduce_only_flag f = pf_reduceOnly f.
Proof.
  unfold reduce_only_flag, order_flags. by destruct (pf_postOnly f), (pf_immediateOrCancel f), (pf_reduceOnly f).
Qed.

Lemma codes_binary f :
  ((negb (side_code f =? 0) && negb (side_code f =? 1)) || (negb (tree_code f =? 0) && negb (tree_code f =? 1)))%bool = false.
Proof. unfold side_code, tree_code. repeat case_bool_decide; done. Qed.

(** The order body sits at the same place behind any prefix. *)
Lemma order_body_fields pre f :
  order_ranges f ->
  let body := pre ++ [side_code f; tree_code f; order_flags f; pf_seatIndex f mod 256; pf_seatIndex f / 256 mod 256]
              ++ order_tail f in
  let base := blen pre in
  blen body = base + 53
  /\ byte_or_0 body base = side_code f /\ byte_or_0 body (base + 1) = tree_code f
  /\ byte_or_0 body (base + 2) = order_flags f
  /\ js_or (byte_or_0 body (base + 3)) (js_shl (byte_or_0 body (base + 4)) 8) = pf_seatIndex f
  /\ readUnsigned64 body (base + 5) = Ok (Some (pf_quantity f))
  /\ readSigned64 body (base + 13) = Ok (Some (pf_priceOrOffset f))
  /\ extractActionNonce body = Ok (Some (pf_actionNonce f)).
Proof.
  intros (Hseat & Hq & Hp & Hn). cbv zeta.
  set (hd := [side_code f; tree_code f; order_flags f; pf_seatIndex f mod 256; pf_seatIndex f / 256 mod 256]).
  assert (blen (pre ++ hd ++ order_tail f) = blen pre + 53) as Hlen.
  { rewrite !blen_app. unfold order_tail. rewrite !blen_app. unfold blen. rewrite !length_le_split. cbn [length hd]. lia. }
  assert (0 <= blen pre) as Hpre by (unfold blen; lia).
  assert (forall k, 0 <= k < 5 -> byte_or_0 (pre ++ hd ++ order_tail f) (blen pre + k) = default 0 (hd !! Z.to_nat k)) as Hhd.
  { intros k Hk. unfold byte_or_0. rewrite byte_at_app_r, byte_at_app_l by (unfold blen; cbn [length hd]; lia).
    rewrite byte_at_lookup by lia. do 2 f_equal. lia. }
  assert (forall off n l r, hd ++ order_tail f = l ++ le_split 8 n ++ r -> off = blen l -> 0 <= n < 2 ^ 64 ->
    getBigUint64 (pre ++ hd ++ order_tail f) (blen pre + off) = Ok n) as Hget.
  { intros off n l r E -> Hr. rewrite E, app_assoc. replace (blen pre + blen l) with (blen (pre ++ l)) by apply blen_app.
    by apply (view_split_mid (pre ++ l) 8 n r). }
  split_and!; [done| | | | | | |].
  - rewrite <- (Z.add_0_r (blen pre)) at 1. by rewrite Hhd.
  - by rewrite Hhd.
  - by rewrite Hhd.
  - rewrite !Hhd by lia. by apply js_seat_index.
  - unfold readUnsigned64. rewrite Hlen. rewrite (proj2 (Z.ltb_ge _ _)), (proj2 (Z.ltb_ge _ _)) by lia. cbn [orb].
    rewrite (Hget 5 (pf_quantity f) hd (drop 8 (order_tail f))); [done|reflexivity|reflexivity|done].
  - unfold readSigned64. rewrite Hlen. rewrite (proj2 (Z.ltb_ge _ _)), (proj2 (Z.ltb_ge _ _)) by lia. cbn [orb].
    unfold getBigInt64. change (view_unsigned ?b ?o 8) with (getBigUint64 b o).
    rewrite (Hget 13 (wrap_signed 8 (pf_priceOrOffset f)) (hd ++ le_split 8 (pf_quantity f)) (drop 16 (order_tail f)));
      [|reflexivity|reflexivity|by apply (wrap_signed_bound 8); [lia|]].
    cbn [fmap result_fmap]. do 2 f_equal. by apply (to_signed_wrap 64).
  - unfold order_tail. repeat rewrite app_assoc. by apply extractActionNonce_app.
Qed.

Definition intent_of (f : PlaceOrderFields) (replace : bool) : RelayOrderIntent :=
  mkIntent (pf_quantity f) (pf_priceOrOffset f) (side_code f) (tree_code f) (pf_reduceOnly f) replace.

Lemma order_intent_read (opcode : Z) pre f data :
  order_ranges f -> pf_quantity f ≠ 0 ->
  data = pre ++ [side_code f; tree_code f; order_flags f; pf_seatIndex f mod 256; pf_seatIndex f / 256 mod 256]
         ++ order_tail f ->
  opcode = OPCODE.placeOrder /\ blen pre = 1 \/ opcode = OPCODE.replaceOrder /\ blen pre = 17 ->
  extractOrderIntent opcode data = Ok (Some (intent_of f (opcode =? OPCODE.replaceOrder))).
Proof.
  intros Hr Hq -> Hop. destruct (order_body_fields pre f Hr) as (Hlen & Hs & Ht & Hf & _ & HQ & HP & _).
  set (body := pre ++ _) in *. unfold extractOrderIntent, intent_of.
  rewrite <- (reduce_only_flag_spec f). unfold reduce_only_flag.
  destruct Hop as [[-> Hpre]|[-> Hpre]]; rewrite Hpre in *; cbn [Z.eqb Pos.eqb negb andb OPCODE.placeOrder OPCODE.replaceOrder];
    rewrite Hlen; cbn [Z.add Pos.add Pos.succ] in *; rewrite Hs, Ht, Hf, (codes_binary f), HQ, HP;
    cbn [mbind result_bind Z.ltb Z.compare Pos.compare Pos.compare_cont]; by rewrite (proj2 (Z.eqb_neq _ _) Hq).
Qed.

Lemma bind_Ok {A B} (r : result A) (f : A -> result B) a : r = Ok a -> r ≫= f = f a.
Proof. by intros ->. Qed.

Lemma relay_fields_eq op s s' n fl fl' it :
  s = s' -> fl = fl' ->
  @Ok (string + RelayFields) (inr (mkRelayFields op s n fl it)) = Ok (inr (mkRelayFields op s' n fl' it)).
Proof. by intros -> ->. Qed.

(** Reading an order instruction, with the opcode at the head of [pre]. *)
Lemma order_read (opcode : Z) rest f :
  let pre := opcode :: rest in
  order_ranges f -> pf_quantity f ≠ 0 ->
  opcode = OPCODE.placeOrder /\ blen pre = 1 \/ opcode = OPCODE.replaceOrder /\ blen pre = 17 ->
  instruction_fields (pre ++ [side_code f; tree_code f; order_flags f; pf_seatIndex f mod 256; pf_seatIndex f / 256 mod 256]
      ++ order_tail f)
  = Ok (inr (mkRelayFields opcode (pf_seatIndex f) (pf_actionNonce f) (order_flags f)
               (Some (intent_of f (opcode =? OPCODE.replaceOrder))))).
Proof.
  intros pre Hr Hq Hop. destruct (order_body_fields pre f Hr) as (Hlen & _ & _ & Hf & Hseat & _ & _ & Hn).
  pose proof (order_intent_read opcode pre f _ Hr Hq eq_refl Hop) as Hi. set (data := pre ++ _) in *.
  change (instruction_fields data) with (
    if negb (bool_decide (opcode ∈ SESSION_ALLOWED_OPCODES))
      then Ok (inl ("opcode " +:+ pretty opcode +:+ " is not allowed for a session-signed transaction"))
      else match SEAT_INDEX_OFFSET opcode with
      | None => Ok (inl "instruction data too short to contain a seat index")
      | Some off =>
          if blen data <? off + 2 then Ok (inl "instruction data too short to contain a seat index")
          else
            nonce ← extractActionNonce data;
            match nonce with
            | None => Ok (inl "instruction data too short to contain an action nonce")
            | Some actionNonce =>
                intent ← extractOrderIntent opcode data;
                if ((opcode =? OPCODE.placeOrder) || (opcode =? OPCODE.replaceOrder))
                   && match intent with Some _ => false | None => true end
                then Ok (inl "malformed_order_fields")
                else Ok (inr (mkRelayFields opcode (js_or (byte_or_0 data off) (js_shl (byte_or_0 data (off + 1)) 8))
                  actionNonce (match FLAGS_OFFSET opcode with
                    | Some f => if f <? blen data then byte_or_0 data f else 0 | None => 0 end) intent))
            end
      end).
  rewrite Hlen. destruct Hop as [[-> Hpre]|[-> Hpre]]; rewrite Hpre in *; clearbody data;
    (rewrite bool_decide_eq_true_2 by (vm_compute; set_solver));
    cbn [negb SEAT_INDEX_OFFSET Z.eqb Pos.eqb OPCODE.placeOrder OPCODE.cancelOrder OPCODE.cancelAll OPCODE.replaceOrder
         FLAGS_OFFSET orb andb Z.add Pos.add Pos.succ Z.ltb Z.compare Pos.compare Pos.compare_cont] in *;
    rewrite (bind_Ok _ _ _ Hn), (bind_Ok _ _ _ Hi); exact (relay_fields_eq _ _ _ _ _ _ _ Hseat Hf).
Qed.

(** Reading a cancel instruction. *)
Lemma cancel_read op mid seat nonce :
  op = OPCODE.cancelOrder \/ op = OPCODE.cancelAll -> 0 <= seat < 2 ^ 16 -> 0 <= nonce < 2 ^ 64 ->
  instruction_fields (op :: seat mod 256 :: seat / 256 mod 256 :: mid ++ le_split 8 nonce)
  = Ok (inr (mkRelayFields op seat nonce 0 None)).
Proof.
  intros Hop Hs Hn. pose proof (extractActionNonce_app ([op; seat mod 256; seat / 256 mod 256] ++ mid) nonce Hn) as En.
  pose proof (js_seat_index seat Hs) as Es.
  set (tl := seat mod 256 :: seat / 256 mod 256 :: mid ++ le_split 8 nonce).
  assert (3 <= blen (op :: tl)) as Hlen by (subst tl; unfold blen; cbn [length]; lia).
  assert (extractActionNonce (op :: tl) = Ok (Some nonce)) as En'
    by (rewrite <- app_assoc in En; exact En). clear En.
  assert (js_or (byte_or_0 (op :: tl) 1) (js_shl (byte_or_0 (op :: tl) (1 + 1)) 8) = seat) as Es' by exact Es. clear Es.
  clearbody tl. unfold instruction_fields. cbv iota beta.
  assert (SEAT_INDEX_OFFSET op = Some 1 /\ FLAGS_OFFSET op = None /\ op ∈ SESSION_ALLOWED_OPCODES
    /\ extractOrderIntent op (op :: tl) = Ok None /\ ((op =? OPCODE.placeOrder) || (op =? OPCODE.replaceOrder))%bool = false)
    as (E1 & E2 & E3 & E4 & E5) by (destruct Hop as [->| ->]; split_and!; try done; vm_compute; set_solver).
  rewrite (bool_decide_eq_true_2 _ E3), E1. cbn [negb]. rewrite (proj2 (Z.ltb_ge _ _)) by lia.
  rewrite (bind_Ok _ _ _ En'), E2, (bind_Ok _ _ _ E4), E5. cbn [andb]. by rewrite Es'.
Qed.

(** C9. The relayer reads back exactly what the encoders wrote.  From the bytes
    of a place, replace, cancel or cancel-all instruction it recovers the
    opcode, the seat index, the action nonce, the flags and, for orders, the
    quantity, the price, the side, the tree and the reduce-only bit; and it
    refuses the instruction bytes of a deposit or a withdrawal. *)
Theorem relay_reads_back f key program accounts seat nonce maxc :
  (forall i, placeOrderInstruction program accounts f = Ok i -> pf_quantity f ≠ 0 ->
     instruction_fields (ix_data i) = Ok (inr (mkRelayFields 3 (pf_seatIndex f) (pf_actionNonce f) (order_flags f)
       (Some (intent_of f false)))))
  /\ (forall i, replaceOrderInstruction program accounts key f = Ok i -> pf_quantity f ≠ 0 ->
     instruction_fields (ix_data i) = Ok (inr (mkRelayFields 33 (pf_seatIndex f) (pf_actionNonce f) (order_flags f)
       (Some (intent_of f true)))))
  /\ (forall i, cancelOrderInstruction program accounts seat key nonce = Ok i ->
     instruction_fields (ix_data i) = Ok (inr (mkRelayFields 4 seat nonce 0 None)))
  /\ (forall i, cancelAllInstruction program accounts seat maxc nonce = Ok i ->
     instruction_fields (ix_data i) = Ok (inr (mkRelayFields 5 seat nonce 0 None)))
  /\ (forall i amount, depositCollateralInstruction program accounts seat amount = Ok i
       \/ withdrawCollateralInstruction program accounts seat amount = Ok i ->
     exists reason, instruction_fields (ix_data i) = Ok (inl reason)).
Proof.
  split_and!.
  - intros i Hi Hq. apply result_bind_Ok in Hi as (data & [-> Hr]%placeOrderData_bytes & [= <-]).
    apply (order_read 3 [] f Hr Hq). by left.
  - intros i Hi Hq. apply result_bind_Ok in Hi as (place & [-> Hr]%placeOrderData_bytes & Hi).
    apply result_bind_Ok in Hi as (data & Hi & [= <-]). do 2 peel_writer Hi. injection Hi as <-. cbn [ix_data].
    apply (order_read 33 (le_split 16 key) f Hr Hq). by right.
  - intros i Hi. apply result_bind_Ok in Hi as (data & Hi & [= <-]). do 3 peel_writer Hi. writer_ok Hi. cbn [ix_data].
    apply (cancel_read 4 (le_split 16 key) seat nonce); [by left|done|done].
  - intros i Hi. apply result_bind_Ok in Hi as (data & Hi & [= <-]). do 3 peel_writer Hi. writer_ok Hi. cbn [ix_data].
    apply (cancel_read 5 [maxc] seat nonce); [by right|done|done].
  - intros i amount [Hi|Hi]; apply result_bind_Ok in Hi as (data & Hi & [= <-]); do 2 peel_writer Hi; writer_ok Hi;
      by eexists.
Qed.

Definition sample_order : PlaceOrderFields :=
  mkOrderFields side_ask false true true Transactions.tree_pegged 40 25 (-3) 0 0 77 9.

Lemma relay_reads_back_witness :
  exists i, placeOrderInstruction "p" [] sample_order = Ok i
    /\ instruction_fields (ix_data i) = Ok (inr (mkRelayFields 3 40 9 6 (Some (mkIntent 25 (-3) 1 1 true false)))).
Proof.
  destruct (placeOrderInstruction "p" [] sample_order) as [i|e] eqn:E; [|exfalso; revert E; vm_compute; discriminate].
  exists i. split; [reflexivity|].
  exact (proj1 (relay_reads_back sample_order 0 "p" [] 0 0 0) i E ltac:(discriminate)).
Defined.

(** ** What a positive verdict means *)

(** Peels the guards of a decision that accepted. *)
Ltac peel_guards :=
  repeat match goal with
  | H : (if ?c then _ else _) = _ |- _ => destruct c eqn:?; [first [discriminate H|done]|]
  | H : (_ ≫= _) = Ok _ |- _ => apply result_bind_Ok in H as (? & ? & H)
  end.

Ltac guard_facts :=
  repeat match goal with
  | H : negb _ = false |- _ => apply negb_false_iff in H
  | H : (_ || _)%bool = false |- _ => apply orb_false_iff in H as [? ?]
  | H : bool_decide _ = true |- _ => apply bool_decide_eq_true in H
  | H : byte_is _ _ _ = true |- _ => unfold byte_is in H
  end; zbool.

Section Sound.
Context (base58 : list Z -> string).

(** The seat of the request belongs to the claimed wallet. *)
Definition seat_owned (i : VerifyTradingSessionInput) : Prop :=
  match vi_v3 i with
  | Some (core, Some seat) => trader seat = vi_ownerWallet i /\ slot seat = vi_seatIndex i /\ oracleValid core = true
  | Some (_, None) => False
  | None =>
      let seatBase := TRADER_SEAT_OFFSET + vi_seatIndex i * TRADER_SEAT_SIZE in
      byte_at (vi_marketBytes i) seatBase = Some 1 /\ byte_at (vi_marketBytes i) 294 = Some 1
      /\ base58 (slice (vi_marketBytes i) (seatBase + 1) (seatBase + 33)) = vi_ownerWallet i
  end.

Lemma check_market_None i : check_market base58 i = None -> seat_owned i /\ 0 <= vi_seatIndex i.
Proof.
  unfold check_market, seat_owned. destruct (vi_v3 i) as [[core [seat|]]|]; intros H; peel_guards; guard_facts; try done.
Qed.

(** The session account is the live session of exactly this request. *)
Record session_live (i : VerifyTradingSessionInput) (session : list Z) : Prop := mkSessionLive {
  live_size : blen session = 256;
  live_not_revoked : byte_at session 11 = Some 0;
  live_owner : base58 (slice session 12 44) = vi_ownerWallet i;
  live_signer : base58 (slice session 44 76) = vi_sessionSignerAddress i;
  live_program : base58 (slice session 76 108) = vi_programId i;
  live_market : base58 (slice session 108 140) = vi_marketPda i;
  live_seat : getUint16 session 140 = Ok (vi_seatIndex i);
  live_expiry : exists expiresAt, getBigUint64 session 150 = Ok expiresAt /\ vi_now i / 1000 < expiresAt;
  live_action : Z.land (byte_or_0 session 158) (requiredSessionActions (vi_opcode i) (vi_placeOrderFlags i)) ≠ 0;
  live_nonce : getBigUint64 session 201 = Ok (vi_actionNonce i);
}.

Lemma check_session_None i session : check_session base58 i session = Ok None -> session_live i session.
Proof.
  unfold check_session. intros H. peel_guards. guard_facts.
  split; try done; try congruence; by eauto.
Qed.

(** The order stays within the limits stored in the session account. *)
Record within_limits (core : V3CoreState) (seat : V3SeatPositionState) (session : list Z) (o : RelayOrderIntent) : Prop :=
  mkWithinLimits {
  lim_notional : exists price limit cumulative consumed,
    price = (if oi_tree o =? 0 then oi_priceOrOffset o else lastVerifiedOraclePrice core + oi_priceOrOffset o)
    /\ 0 < price /\ 0 < oi_quantity o * price
    /\ getBigUint64 session 159 = Ok limit /\ oi_quantity o * price <= limit
    /\ getBigUint64 session 167 = Ok cumulative /\ getBigUint64 session 175 = Ok consumed
    /\ oi_quantity o * price + consumed <= cumulative;
  lim_exposure : exists maxExposure, signed128 session 183 = Ok maxExposure
    /\ Z.abs (basePosition seat + (if oi_side o =? 0 then oi_quantity o else - oi_quantity o)) <= maxExposure;
  lim_reduce : oi_reduceOnly o = true ->
    Z.abs (basePosition seat + (if oi_side o =? 0 then oi_quantity o else - oi_quantity o)) < Z.abs (basePosition seat);
}.

Lemma abs_if z : (if z <? 0 then - z else z) = Z.abs z.
Proof. case_match; zbool; lia. Qed.

Lemma check_limits_None core seat session o : check_limits core seat session o = Ok None -> within_limits core seat session o.
Proof.
  unfold check_limits. rewrite !abs_if. set (price := if oi_tree o =? 0 then _ else _).
  set (next := basePosition seat + _). intros H. peel_guards. guard_facts. split.
  - exists price. eexists _, _, _. split_and!; try done; lia.
  - eexists. split; [done|]. fold next. lia.
  - intros Hro. fold next. rewrite Hro in *. cbn [andb] in *. guard_facts. lia.
Qed.

(** What an accepted session transaction is known to satisfy. *)
Definition session_facts (i : VerifyTradingSessionInput) : Prop :=
  seat_owned i
  /\ (exists session, vi_sessionBytes i = Some session /\ vi_sessionAccountOwner i = Some (vi_programId i)
        /\ session_live i session
        /\ (forall core seat o, vi_v3 i = Some (core, Some seat) -> vi_orderIntent i = Some o ->
              within_limits core seat session o))
  /\ (forall core seat domain, vi_v3 i = Some (core, seat) -> vi_domain i = Some domain ->
        domain = ER <-> core_delegationStatus core = 1 \/ core_delegationStatus core = 2).

Lemma verify_session_facts i : verifyTradingSession base58 i = Ok session_ok -> session_facts i.
Proof.
  unfold verifyTradingSession, session_facts. destruct (check_market base58 i) eqn:Em; [done|].
  apply check_market_None in Em as [Hseat _]. destruct (vi_sessionBytes i) as [session|]; [|done].
  destruct (negb _) eqn:Eo; [done|]. guard_facts. intros H.
  apply result_bind_Ok in H as ([r|] & Hs & H); [done|]. apply result_bind_Ok in H as ([r|] & Ho & H); [done|].
  destruct (check_domain i) eqn:Ed; [done|]. split_and!; [done| |].
  - exists session. split_and!; [done|done|by apply check_session_None|].
    intros core seat o Hv Hi. unfold check_order in Ho. rewrite Hv, Hi in Ho. by apply check_limits_None.
  - intros core seat domain Hv Hd. unfold check_domain in Ed. rewrite Hv, Hd in Ed.
    destruct (negb _) eqn:Eb in Ed; [done|]. guard_facts.
    rewrite <- (bool_decide_eq_true (domain = ER)), Eb, orb_true_iff, !Z.eqb_eq. done.
Qed.

End Sound.

(** A session of seat 5 that may do everything until second 2000. *)
Definition sample_session : list Z :=
  STKSES02 ++ le_split 2 1 ++ [1; 0] ++ replicate 32 1 ++ replicate 32 2 ++ replicate 32 3 ++ replicate 32 4
  ++ le_split 2 5 ++ replicate 8 0 ++ le_split 8 2000 ++ [31] ++ le_split 8 1000000 ++ le_split 8 5000000
  ++ le_split 8 0 ++ le_split 16 1000 ++ le_split 2 10 ++ le_split 8 9 ++ replicate 47 0.

Definition sample_base58 : list Z -> string := fun bs => pretty (default 0 (head bs)).

Definition sample_core : V3CoreState := mkCore "i" "a" 1 true 100 0 0 0 0 1 0 0 "v".
Definition sample_seat_state : V3SeatPositionState := mkSeat 0 5 "1" 0 0 50 0 0 0 0 0 2 0 0.

Definition sample_input : VerifyTradingSessionInput :=
  mkVerifyInput (replicate 4096 0) (Some sample_session) (Some "3") "1" "2" 5 "4" "3" 9 3 4 1000000
    (Some (sample_core, Some sample_seat_state)) (Some ER) (Some (mkIntent 25 (-3) 1 1 true false)).


(** Sessions of most V3 seats can never be relayed.  The route looks a seat up
    by its slot within its own shard of 32, but the authorisation compares that
    slot with the global seat index, so every seat from 32 on is refused,
    whatever the accounts hold. *)
Theorem v3_seat_beyond_first_shard_refused base58 shard i core :
  vi_v3 i = Some (core, relay_seat shard (vi_seatIndex i)) -> 32 <= vi_seatIndex i ->
  verifyTradingSession base58 i ≠ Ok session_ok.
Proof.
  intros Hv Hi. unfold verifyTradingSession. destruct (check_market base58 i) eqn:Em; [done|].
  apply check_market_None in Em as [Hseat _]. unfold seat_owned in Hseat. rewrite Hv in Hseat.
  unfold relay_seat in Hseat. destruct shard as [sh|]; cbn in Hseat; [|done].
  destruct (list_find _ _) as [[n p]|] eqn:Ef; cbn in Hseat; [|done]. apply list_find_Some in Ef as (_ & Hslot & _).
  destruct Hseat as (_ & Hs & _). pose proof (Z.rem_bound_pos (vi_seatIndex i) 32 ltac:(lia) ltac:(lia)). lia.
Qed.

Definition sample_far_input : VerifyTradingSessionInput :=
  mkVerifyInput (replicate 4096 0) (Some sample_session) (Some "3") "1" "2" 37 "4" "3" 9 3 4 1000000
    (Some (sample_core, relay_seat (Some (mkSeatShard 1 "4" [] [sample_seat_state])) 37)) (Some ER) None.

Lemma v3_seat_beyond_first_shard_refused_witness :
  verifyTradingSession sample_base58 sample_far_input = Ok (session_denied "seat_owner_mismatch")
  /\ verifyTradingSession sample_base58 sample_far_input ≠ Ok session_ok.
Proof.
  split; [vm_compute; reflexivity|].
  apply (v3_seat_beyond_first_shard_refused sample_base58 (Some (mkSeatShard 1 "4" [] [sample_seat_state]))
           sample_far_input sample_core); [reflexivity|cbn; lia].
Defined.

(** ** The account vector *)

(** What position [k] of the bundle must be. *)
Definition position_signer (k : Z) : bool := k =? 27.
Definition position_writable (k : Z) : bool := (k <? 27) || (k =? 28).

Lemma check_accounts_None h statics indices expected k :
  length indices = length expected -> check_accounts h statics indices expected k = None ->
  forall n i e, indices !! n = Some i -> expected !! n = Some e ->
    nth_account statics i = Some e /\ account_signer h i = position_signer (k + Z.of_nat n)
    /\ account_writable h (Z.of_nat (length statics)) i = position_writable (k + Z.of_nat n).
Proof.
  revert expected k. induction indices as [|i0 indices IH]; intros [|e0 expected] k Hlen H n i e Hi He; try done.
  cbn [check_accounts] in H. destruct (negb _) eqn:E1 in H; [done|]. destruct (_ || _)%bool eqn:E2 in H; [done|]. guard_facts.
  destruct n as [|n].
  - cbn in Hi, He. injection Hi as ->. injection He as ->. rewrite Z.add_0_r. done.
  - cbn in Hi, He. replace (k + Z.of_nat (S n)) with (k + 1 + Z.of_nat n) by lia.
    injection Hlen as Hlen. by apply (IH expected (k + 1) Hlen H n i e).
Qed.

(** C10. The account check of the relayer is exact: when it passes, the
    instruction's 29 accounts are the 29 derived addresses in order, pairwise
    distinct, only the session signer at position 27 signs, and every account
    but that one is writable. *)
Theorem canonical_accounts_sound h statics indices expected :
  validateCanonicalV3Accounts h statics indices expected = None ->
  (nth_account statics <$> indices) = Some <$> expected /\ length expected = 29%nat /\ NoDup expected
  /\ forall n i, indices !! n = Some i ->
       (account_signer h i = true <-> n = 27%nat)
       /\ (account_writable h (Z.of_nat (length statics)) i = true <-> n ≠ 27%nat).
Proof.
  unfold validateCanonicalV3Accounts. destruct (negb _) eqn:E1; [done|]. destruct (negb _) eqn:E2 in |- *; [done|].
  destruct (bool_decide (None ∈ _)) eqn:E3; [done|]. destruct (negb _) eqn:E4 in |- *; [done|]. guard_facts.
  intros H. assert (length indices = length expected) as Hlen by congruence.
  pose proof (check_accounts_None h statics indices expected 0 Hlen H) as Hall.
  assert ((nth_account statics <$> indices) = Some <$> expected) as Heq.
  { apply list_eq. intros n. rewrite !list_lookup_fmap.
    destruct (indices !! n) as [i|] eqn:Ei, (expected !! n) as [e|] eqn:Ee; cbn; [|exfalso..|done].
    - f_equal. by destruct (Hall n i e Ei Ee) as (-> & _ & _).
    - apply lookup_lt_Some in Ei. apply lookup_ge_None in Ee. lia.
    - apply lookup_lt_Some in Ee. apply lookup_ge_None in Ei. lia. }
  split_and!; [done|done|rewrite Heq in E4; by apply NoDup_fmap_1 in E4|].
  intros n i Hi. pose proof (lookup_lt_Some _ _ _ Hi). destruct (lookup_lt_is_Some_2 expected n) as [e He]; [lia|].
  destruct (Hall n i e Hi He) as (_ & -> & ->). unfold position_signer, position_writable.
  rewrite orb_true_iff, !Z.eqb_eq, Z.ltb_lt. lia.
Qed.

(** A message that lists the fee payer, the session signer (read-only), the 28
    writable accounts and the program. *)
Definition sample_statics : list string :=
  ["payer"; "signer"] ++ ((fun n => "acc" +:+ pretty n) <$> seqZ 0 28) ++ ["program"].
Definition sample_indices : list Z := seqZ 2 27 ++ [1; 29].
Definition sample_expected : list string :=
  ((fun n => "acc" +:+ pretty n) <$> seqZ 0 27) ++ ["signer"; "acc27"].

Lemma canonical_accounts_sound_witness :
  validateCanonicalV3Accounts (mkHeader 2 1 1) sample_statics sample_indices sample_expected = None
  /\ NoDup sample_expected.
Proof.
  assert (validateCanonicalV3Accounts (mkHeader 2 1 1) sample_statics sample_indices sample_expected = None) as H
    by (vm_compute; reflexivity).
  split; [exact H|]. apply (canonical_accounts_sound (mkHeader 2 1 1) sample_statics sample_indices sample_expected H).
Defined.
