(* ===== verification/PythStream.v ===== *)
(** * The Pyth Pro stream

    workers/src/pyth-lazer-client.ts: the authenticated stream endpoint (its
    connection, reconnect and idle timers, the protocol messages, the buffer of
    the latest signed update) and the pool of endpoints; and
    workers/src/pyth-source.ts: health, agreement between endpoints and the
    update sources the oracle keeper polls.

    An endpoint is a state machine driven by events: calls of [start] and
    [close], socket events and timers.  Every socket the factory made stays in
    the model with its [readyState], so a socket the endpoint forgot can still
    deliver messages, as it can in the source. *)

From S2P Require Import Prelude Json Bytes ExecutionStatus Repositories V3Market MarkPrice PrivateSessions Risk Keepers EventDecoder.

(** ** Signed updates *)

Record PythSignedUpdate := mkSigned {
  su_feedId : string; su_timestamp : Z; su_payloadHash : string; su_message : list Z; su_endpoint : string }.

#[export] Instance signed_eq_dec : EqDecision PythSignedUpdate.
Proof. solve_decision. Defined.

Definition hexToBytes (hex : string) : result (list Z) :=
  if Nat.odd (String.length hex) then Throw "odd hex length" else Ok (hex_pairs hex).

(** FNV-1a.  [Math.imul] and the shift by zero keep the product modulo 2^32. *)
Definition fnv_step (hash byte : Z) : Z := to_uint32 (Z.lxor hash byte * 0x01000193).
Definition hashBytes (bs : list Z) : string := toString16 (fold_left fnv_step bs 0x811c9dc5).

Definition SOLANA_FORMAT_MAGIC : Z := 2182742457.

(** The little-endian magic, assembled with 32-bit operators. *)
Definition message_magic (message : list Z) : Z :=
  to_uint32 (js_or (js_or (js_or (byte_or_0 message 0) (js_shl (byte_or_0 message 1) 8))
                          (js_shl (byte_or_0 message 2) 16)) (js_shl (byte_or_0 message 3) 24)).

(** The first record of [parsed.priceFeeds], with its numeric id and its finite
    non-negative timestamp. *)
Definition parsed_feed (envelope : json) : option (Z * Z) :=
  parsed ← prop "parsed" envelope;
  match isRecord parsed, prop "timestampUs" parsed, prop "priceFeeds" parsed with
  | true, Some (JStr _), Some (JArr feeds) =>
      feed ← snd <$> list_find (fun v => isRecord v = true) feeds;
      match prop "priceFeedId" feed, prop "feedUpdateTimestamp" feed with
      | Some (JNum id), Some (JNum ts) => if ts <? 0 then None else Some (id, ts)
      | _, _ => None
      end
  | _, _, _ => None
  end.

Definition extractSolanaUpdate (envelope : json) (endpointName : string) : option PythSignedUpdate :=
  solana ← prop "solana" envelope;
  match isRecord solana, prop "encoding" solana, prop "data" solana with
  | true, Some (JStr encoding), Some (JStr data) =>
      if negb (bool_decide (encoding = "hex")) then None else
      match hexToBytes data with
      | Throw _ => None
      | Ok message =>
          if blen message <? 8 then None
          else if negb (message_magic message =? SOLANA_FORMAT_MAGIC) then None
          else
            '(id, ts) ← parsed_feed envelope;
            Some (mkSigned (pretty id) (js_floor_div ts 1000000) (hashBytes message) message endpointName)
      end
  | _, _, _ => None
  end.

(** ** The endpoint *)

Inductive PythEndpointState := st_idle | st_connecting | st_subscribed | st_reconnecting | st_closed.

Inductive PythEndpointFatalReason := unauthorized | forbidden | subscription_error | rate_limited.

Definition any_includes (needles : list string) (s : string) : bool := existsb (fun n => includes n s) needles.

(** [None] is ["transient"]. *)
Definition classifyProtocolError (message : string) : option PythEndpointFatalReason :=
  let lower := toLowerCase message in
  if any_includes ["unauthorized"; "401"; "invalid token"; "authentication"] lower then Some unauthorized
  else if any_includes ["forbidden"; "403"; "entitlement"; "not allowed"; "access denied"] lower then Some forbidden
  else if any_includes ["rate"; "429"; "too many"] lower then Some rate_limited
  else None.

Record Metrics := mkMetrics {
  connects : Z; reconnects : Z; messages : Z; droppedOversized : Z; schemaRejected : Z;
  lastMessageAt : Z; lastError : option string; lastFatal : option PythEndpointFatalReason }.

Inductive TimerKind := timer_reconnect | timer_idle.

(** The options of the constructor, defaults applied. *)
Record PythLazerEndpointOptions := mkEndpointOptions {
  eo_name : string; baseBackoffMs : Z; maxBackoffMs : Z; idleTimeoutMs : Z; maxMessageBytes : Z }.

Definition DEFAULTS (name : string) : PythLazerEndpointOptions := mkEndpointOptions name 200 20000 5000 65536.

(** [sockets] holds the [readyState] of every socket the factory returned, in
    order; [timers] the pending timers with their delays, in units of 2^-53 ms
    as the jittered product of the source is not an integer. *)
Record PythLazerEndpoint := mkEndpoint {
  options : PythLazerEndpointOptions;
  sockets : list Z; subscribed_on : list nat; socket : option nat;
  state : PythEndpointState; reconnectAttempt : Z; reconnectTimer : option nat; closed : bool;
  latestUpdate : option PythSignedUpdate; metrics : Metrics;
  idleProbeTimer : option nat; lastActivityAt : Z;
  timers : gmap nat (TimerKind * Z); next_timer : nat;
  onError_calls : list string; onFatal_calls : list (PythEndpointFatalReason * string) }.

Definition new_endpoint (o : PythLazerEndpointOptions) : PythLazerEndpoint :=
  mkEndpoint o [] [] None st_idle 0 None false None (mkMetrics 0 0 0 0 0 0 None None) None 0 ∅ 0 [] [].

(** Field updates. *)
Definition set_conn (sk : option nat) (st : PythEndpointState) (e : PythLazerEndpoint) : PythLazerEndpoint :=
  mkEndpoint (options e) (sockets e) (subscribed_on e) sk st (reconnectAttempt e) (reconnectTimer e) (closed e)
    (latestUpdate e) (metrics e) (idleProbeTimer e) (lastActivityAt e) (timers e) (next_timer e)
    (onError_calls e) (onFatal_calls e).
Definition set_sockets (l : list Z) (e : PythLazerEndpoint) : PythLazerEndpoint :=
  mkEndpoint (options e) l (subscribed_on e) (socket e) (state e) (reconnectAttempt e) (reconnectTimer e) (closed e)
    (latestUpdate e) (metrics e) (idleProbeTimer e) (lastActivityAt e) (timers e) (next_timer e)
    (onError_calls e) (onFatal_calls e).
Definition add_subscribed (id : nat) (e : PythLazerEndpoint) : PythLazerEndpoint :=
  mkEndpoint (options e) (sockets e) (subscribed_on e ++ [id]) (socket e) (state e) (reconnectAttempt e)
    (reconnectTimer e) (closed e) (latestUpdate e) (metrics e) (idleProbeTimer e) (lastActivityAt e) (timers e)
    (next_timer e) (onError_calls e) (onFatal_calls e).
Definition set_attempt (n : Z) (e : PythLazerEndpoint) : PythLazerEndpoint :=
  mkEndpoint (options e) (sockets e) (subscribed_on e) (socket e) (state e) n (reconnectTimer e) (closed e)
    (latestUpdate e) (metrics e) (idleProbeTimer e) (lastActivityAt e) (timers e) (next_timer e)
    (onError_calls e) (onFatal_calls e).
Definition set_closed (e : PythLazerEndpoint) : PythLazerEndpoint :=
  mkEndpoint (options e) (sockets e) (subscribed_on e) (socket e) (state e) (reconnectAttempt e) (reconnectTimer e) true
    (latestUpdate e) (metrics e) (idleProbeTimer e) (lastActivityAt e) (timers e) (next_timer e)
    (onError_calls e) (onFatal_calls e).
Definition set_latest (u : option PythSignedUpdate) (e : PythLazerEndpoint) : PythLazerEndpoint :=
  mkEndpoint (options e) (sockets e) (subscribed_on e) (socket e) (state e) (reconnectAttempt e) (reconnectTimer e)
    (closed e) u (metrics e) (idleProbeTimer e) (lastActivityAt e) (timers e) (next_timer e)
    (onError_calls e) (onFatal_calls e).
Definition on_metrics (f : Metrics -> Metrics) (e : PythLazerEndpoint) : PythLazerEndpoint :=
  mkEndpoint (options e) (sockets e) (subscribed_on e) (socket e) (state e) (reconnectAttempt e) (reconnectTimer e)
    (closed e) (latestUpdate e) (f (metrics e)) (idleProbeTimer e) (lastActivityAt e) (timers e) (next_timer e)
    (onError_calls e) (onFatal_calls e).
Definition set_activity (now : Z) (e : PythLazerEndpoint) : PythLazerEndpoint :=
  mkEndpoint (options e) (sockets e) (subscribed_on e) (socket e) (state e) (reconnectAttempt e) (reconnectTimer e)
    (closed e) (latestUpdate e) (metrics e) (idleProbeTimer e) now (timers e) (next_timer e)
    (onError_calls e) (onFatal_calls e).
Definition set_timers (rt it : option nat) (ts : gmap nat (TimerKind * Z)) (next : nat) (e : PythLazerEndpoint)
    : PythLazerEndpoint :=
  mkEndpoint (options e) (sockets e) (subscribed_on e) (socket e) (state e) (reconnectAttempt e) rt (closed e)
    (latestUpdate e) (metrics e) it (lastActivityAt e) ts next (onError_calls e) (onFatal_calls e).
Definition add_error (m : string) (e : PythLazerEndpoint) : PythLazerEndpoint :=
  mkEndpoint (options e) (sockets e) (subscribed_on e) (socket e) (state e) (reconnectAttempt e) (reconnectTimer e)
    (closed e) (latestUpdate e) (metrics e) (idleProbeTimer e) (lastActivityAt e) (timers e) (next_timer e)
    (onError_calls e ++ [m]) (onFatal_calls e).
Definition add_fatal (r : PythEndpointFatalReason) (m : string) (e : PythLazerEndpoint) : PythLazerEndpoint :=
  mkEndpoint (options e) (sockets e) (subscribed_on e) (socket e) (state e) (reconnectAttempt e) (reconnectTimer e)
    (closed e) (latestUpdate e) (metrics e) (idleProbeTimer e) (lastActivityAt e) (timers e) (next_timer e)
    (onError_calls e) (onFatal_calls e ++ [(r, m)]).

Definition count_connect (m : Metrics) := mkMetrics (connects m + 1) (reconnects m) (messages m) (droppedOversized m)
  (schemaRejected m) (lastMessageAt m) (lastError m) (lastFatal m).
Definition count_reconnect (cause : string) (m : Metrics) := mkMetrics (connects m) (reconnects m + 1) (messages m)
  (droppedOversized m) (schemaRejected m) (lastMessageAt m) (Some cause) (lastFatal m).
Definition count_message (m : Metrics) := mkMetrics (connects m) (reconnects m) (messages m + 1) (droppedOversized m)
  (schemaRejected m) (lastMessageAt m) (lastError m) (lastFatal m).
Definition count_oversized (m : Metrics) := mkMetrics (connects m) (reconnects m) (messages m) (droppedOversized m + 1)
  (schemaRejected m) (lastMessageAt m) (lastError m) (lastFatal m).
Definition count_rejected (m : Metrics) := mkMetrics (connects m) (reconnects m) (messages m) (droppedOversized m)
  (schemaRejected m + 1) (lastMessageAt m) (lastError m) (lastFatal m).
Definition note_message_at (now : Z) (m : Metrics) := mkMetrics (connects m) (reconnects m) (messages m)
  (droppedOversized m) (schemaRejected m) now (lastError m) (lastFatal m).
Definition note_error (err : string) (m : Metrics) := mkMetrics (connects m) (reconnects m) (messages m)
  (droppedOversized m) (schemaRejected m) (lastMessageAt m) (Some err) (lastFatal m).
Definition note_fatal (r : PythEndpointFatalReason) (err : string) (m : Metrics) := mkMetrics (connects m) (reconnects m)
  (messages m) (droppedOversized m) (schemaRejected m) (lastMessageAt m) (Some err) (Some r).

Definition readyState (e : PythLazerEndpoint) (id : nat) : Z := default 3 (sockets e !! id).

(** [get connected] *)
Definition connected (e : PythLazerEndpoint) : bool :=
  match socket e with Some id => readyState e id =? 1 | None => false end.

(** What a handler reads from outside: the clock, the jitter (a double of
    [0, 1), in units of 2^-53), whether the factory throws. *)
Record Inputs := mkInputs { in_now : Z; in_jitter : Z; in_factory : result unit }.

(** [setTimeout] and [clearTimeout]. *)
Definition setTimeout (k : TimerKind) (delay : Z) (e : PythLazerEndpoint) : nat * gmap nat (TimerKind * Z) :=
  (next_timer e, <[next_timer e := (k, delay)]> (timers e)).
Definition clearTimeout (t : option nat) (ts : gmap nat (TimerKind * Z)) : gmap nat (TimerKind * Z) :=
  match t with Some id => delete id ts | None => ts end.

(** [Math.min(max, base * 2 ** Math.min(attempt, 20) * (0.5 + jitter))], in
    units of 2^-53 ms. *)
Definition backoff (o : PythLazerEndpointOptions) (attempt jitter : Z) : Z :=
  Z.min (maxBackoffMs o * 2 ^ 53)
        (js_mul (js_mul (baseBackoffMs o) (2 ^ Z.min attempt 20)) (js_add (2 ^ 52) jitter)).

Definition scheduleReconnect (i : Inputs) (cause : string) (e : PythLazerEndpoint) : PythLazerEndpoint :=
  if closed e then e else
  let attempt := reconnectAttempt e in
  let e := set_attempt (Z.min (reconnectAttempt e + 1) 30) e in
  let e := on_metrics (count_reconnect cause) (set_conn (socket e) st_reconnecting e) in
  let '(id, ts) := setTimeout timer_reconnect (backoff (options e) attempt (in_jitter i)) e in
  set_timers (Some id) (idleProbeTimer e) ts (S id) e.

Definition connect (i : Inputs) (e : PythLazerEndpoint) : PythLazerEndpoint :=
  if closed e then e else
  match in_factory i with
  | Throw m => scheduleReconnect i ("websocket factory threw: " +:+ m) e
  | Ok _ => set_conn (Some (length (sockets e))) (state e) (set_sockets (sockets e ++ [0]) e)
  end.

Definition start (i : Inputs) (e : PythLazerEndpoint) : PythLazerEndpoint :=
  if closed e then e else connect i (set_conn (socket e) st_connecting e).

(** [socket.close(...)]: the socket is closing until its close event. *)
Definition close_socket (id : nat) (e : PythLazerEndpoint) : PythLazerEndpoint :=
  set_sockets (<[id := 2]> (sockets e)) e.

Definition close (e : PythLazerEndpoint) : PythLazerEndpoint :=
  let e := set_closed e in
  let e := match reconnectTimer e with
           | Some t => set_timers None (idleProbeTimer e) (delete t (timers e)) (next_timer e) e
           | None => e
           end in
  let sk := socket e in
  let e := set_conn None st_closed e in
  match sk with
  | Some id => if readyState e id <=? 1 then close_socket id e else e
  | None => e
  end.

Definition handleFatal (reason : PythEndpointFatalReason) (message : string) (e : PythLazerEndpoint) : PythLazerEndpoint :=
  add_fatal reason message (on_metrics (note_fatal reason message) (set_conn None st_closed e)).

(** The [data] of a message event. *)
Inductive MessageData := data_text (s : string) | data_value (v : json) | data_undefined.

Section Endpoint.
(** [JSON.parse] ([None]: it throws) and [JSON.stringify]. *)
Context (JSON_parse : string -> option json) (JSON_stringify : json -> string).

(** The switch over [parsed.type]. *)
Definition handle_parsed (i : Inputs) (parsed : json) (e : PythLazerEndpoint) : PythLazerEndpoint :=
  let error_text (fallback : string) :=
    match nullish (prop "error" parsed) with Some v => js_String v | None => fallback end in
  match prop "type" parsed with
  | Some (JStr type) =>
      if bool_decide (type = "subscribed") then set_conn (socket e) st_subscribed (set_attempt 0 e)
      else if bool_decide (type = "subscribedWithInvalidFeedIdsIgnored") then
        on_metrics (note_error ("feeds ignored: " +:+
          JSON_stringify (default (JObj []) (nullish (prop "ignoredInvalidFeedIds" parsed)))))
          (set_conn (socket e) st_subscribed (set_attempt 0 e))
      else if bool_decide (type = "error") then
        let message := error_text "unknown error" in
        match classifyProtocolError message with
        | Some reason => handleFatal reason message e
        | None => scheduleReconnect i message e
        end
      else if bool_decide (type = "subscriptionError") then
        handleFatal subscription_error (error_text "subscription rejected") e
      else if bool_decide (type = "streamUpdated") then
        let e := on_metrics (note_message_at (in_now i)) e in
        match extractSolanaUpdate parsed (eo_name (options e)) with
        | Some u => set_latest (Some u) e
        | None => on_metrics count_rejected e
        end
      else if bool_decide (type = "unsubscribed") then set_conn (socket e) st_idle e
      else on_metrics count_rejected e
  | _ => on_metrics count_rejected e
  end.

Definition handleEvent (i : Inputs) (data : MessageData) (e : PythLazerEndpoint) : PythLazerEndpoint :=
  match data with
  | data_text s =>
      if maxMessageBytes (options e) <? Z.of_nat (String.length s) * 2 then on_metrics count_oversized e
      else match JSON_parse s with
           | None => on_metrics count_rejected e
           | Some parsed => if isRecord parsed then handle_parsed i parsed e else on_metrics count_rejected e
           end
  | data_value parsed => if isRecord parsed then handle_parsed i parsed e else on_metrics count_rejected e
  | data_undefined => on_metrics count_rejected e
  end.

Definition handleMessage (i : Inputs) (data : MessageData) (e : PythLazerEndpoint) : PythLazerEndpoint :=
  if closed e then e else
  let e := handleEvent i data (on_metrics count_message (set_activity (in_now i) e)) in
  let e := set_timers (reconnectTimer e) None (clearTimeout (idleProbeTimer e) (timers e)) (next_timer e) e in
  let '(id, ts) := setTimeout timer_idle ((idleTimeoutMs (options e) + 250) * 2 ^ 53) e in
  set_timers (reconnectTimer e) (Some id) ts (S id) e.

(** The callback of the idle timer. *)
Definition idle_probe (i : Inputs) (e : PythLazerEndpoint) : PythLazerEndpoint :=
  let e := set_timers (reconnectTimer e) None (timers e) (next_timer e) e in
  match closed e, socket e with
  | false, Some id =>
      if idleTimeoutMs (options e) <? in_now i - lastActivityAt e
      then scheduleReconnect i ("no messages within " +:+ pretty (idleTimeoutMs (options e)) +:+ "ms")
             (set_conn None (state e) (close_socket id e))
      else e
  | _, _ => e
  end.

(** ** Events *)

Inductive event :=
  | EvStart
  | EvClose
  | EvOpen (id : nat)
  | EvMessage (id : nat) (data : MessageData)
  | EvSocketClosed (id : nat)
  | EvSocketError (id : nat)
  | EvTimer (id : nat).

Definition is_current (id : nat) (e : PythLazerEndpoint) : bool := bool_decide (socket e = Some id).

Definition step (e : PythLazerEndpoint) (ev : event * Inputs) : PythLazerEndpoint :=
  let '(ev, i) := ev in
  match ev with
  | EvStart => start i e
  | EvClose => close e
  | EvOpen id =>
      let e := set_sockets (<[id := 1]> (sockets e)) e in
      if closed e || negb (is_current id e) then e else add_subscribed id (on_metrics count_connect e)
  | EvMessage id data => if bool_decide (id < length (sockets e))%nat then handleMessage i data e else e
  | EvSocketClosed id =>
      let e := set_sockets (<[id := 3]> (sockets e)) e in
      if closed e || negb (is_current id e) then e
      else scheduleReconnect i "connection closed" (set_conn None (state e) e)
  | EvSocketError id => add_error ("endpoint " +:+ eo_name (options e) +:+ " socket error") e
  | EvTimer id =>
      match timers e !! id with
      | None => e
      | Some (k, _) =>
          let e := set_timers (reconnectTimer e) (idleProbeTimer e) (delete id (timers e)) (next_timer e) e in
          match k with
          | timer_reconnect => connect i (set_timers None (idleProbeTimer e) (timers e) (next_timer e) e)
          | timer_idle => idle_probe i e
          end
      end
  end.

Definition run (evs : list (event * Inputs)) (e : PythLazerEndpoint) : PythLazerEndpoint := fold_left step evs e.
End Endpoint.

(** ** The pool *)

(** The pool's endpoints, named by their position. *)
Definition PythLazerPool := list PythLazerEndpoint.

Definition new_pool (o : string -> PythLazerEndpointOptions) (urls : list string) : PythLazerPool :=
  imap (fun index _ => new_endpoint (o ("pyth-lazer-" +:+ pretty (Z.of_nat index)))) urls.

Definition redundancyHealthy (pool : PythLazerPool) : bool :=
  (2 <=? length (filter (fun e => connected e = true) pool))%nat.

Definition fetchSignedUpdates (pool : PythLazerPool) : list PythSignedUpdate := omap latestUpdate pool.

Definition pool_start (i : Inputs) (pool : PythLazerPool) : PythLazerPool := start i <$> pool.
Definition pool_close (pool : PythLazerPool) : PythLazerPool := close <$> pool.

Record PythLazerEndpointHealth := mkEndpointHealth {
  eh_name : string; eh_state : PythEndpointState; eh_metrics : Metrics }.

Definition pool_health (pool : PythLazerPool) : list PythLazerEndpointHealth :=
  (fun e => mkEndpointHealth (eo_name (options e)) (state e) (metrics e)) <$> pool.

(** ** pyth-source.ts *)

Record PythProClientConfig := mkPythConfig {
  pc_apiKey : option string; pc_endpoints : list string; pc_feedId : string; pc_minChannel : string }.

(** [true] is ["ready"]. *)
Definition pythSourceHealth (config : PythProClientConfig) : bool :=
  negb (match pc_apiKey config with None => true | Some k => bool_decide (k = EmptyString) end
        || (length (pc_endpoints config) <? 3)%nat
        || negb (digit_string (pc_feedId config))
        || (to_number (decimal (pc_feedId config)) <=? 0)).

Record Reconciliation := mkReconciliation {
  accepted : option PythSignedUpdate; quarantined : list PythSignedUpdate; rec_reason : string }.

Definition max_timestamp (updates : list PythSignedUpdate) : Z :=
  match updates with
  | [] => 0
  | u :: rest => fold_left (fun m v => Z.max m (su_timestamp v)) rest (su_timestamp u)
  end.

Definition reconcileEndpointUpdates (updates : list PythSignedUpdate) (lastAcceptedTimestamp : Z) : Reconciliation :=
  let fresh := filter (fun u => lastAcceptedTimestamp < su_timestamp u) updates in
  match fresh with
  | [] => mkReconciliation None [] "no update newer than the last accepted timestamp"
  | _ =>
      let newestTimestamp := max_timestamp fresh in
      let atNewest := filter (fun u => su_timestamp u = newestTimestamp) fresh in
      let distinctHashes := remove_dups (su_payloadHash <$> atNewest) in
      if (1 <? length distinctHashes)%nat
      then mkReconciliation None atNewest
             ("conflicting payloads from " +:+ pretty (Z.of_nat (length atNewest)) +:+
              " endpoints for the same feed/timestamp; submitting nothing until resolved")
      else mkReconciliation (head atNewest) [] "endpoints agree; accepted"
  end.

Definition to_update (u : PythSignedUpdate) : PythUpdate :=
  mkPythUpdate (su_message u) (su_timestamp u) (su_payloadHash u) (su_feedId u).

(** The source around a caller-supplied poll. *)
Definition createPythUpdateSource (config : PythProClientConfig)
    (pollEndpoints : World -> result (list PythSignedUpdate)) : PythUpdateSource :=
  fun w previousTimestamp _ =>
    if negb (pythSourceHealth config) then Ok None else
    updates ← pollEndpoints w;
    Ok (to_update <$> accepted (reconcileEndpointUpdates updates previousTimestamp)).

(** The production source over the live pool. *)
Definition createLivePythUpdateSource (config : PythProClientConfig) (pool : PythLazerPool) : PythUpdateSource :=
  fun _ previousTimestamp previousPayloadHash =>
    if negb (pythSourceHealth config) then Ok None
    else if negb (redundancyHealthy pool) then Ok None
    else
      match accepted (reconcileEndpointUpdates (fetchSignedUpdates pool) previousTimestamp) with
      | None => Ok None
      | Some u => if bool_decide (su_payloadHash u = previousPayloadHash) then Ok None else Ok (Some (to_update u))
      end.

(** ** Agreement between endpoints *)

Lemma max_timestamp_spec u updates :
  u ∈ updates ->
  su_timestamp u <= max_timestamp updates /\ exists v, v ∈ updates /\ su_timestamp v = max_timestamp updates.
Proof.
  destruct updates as [|w rest]; [by rewrite elem_of_nil|]. cbn.
  assert (forall l m, (forall v, v ∈ l -> su_timestamp v <= fold_left (fun m v => Z.max m (su_timestamp v)) l m)
            /\ m <= fold_left (fun m v => Z.max m (su_timestamp v)) l m
            /\ (fold_left (fun m v => Z.max m (su_timestamp v)) l m = m
                \/ exists v, v ∈ l /\ su_timestamp v = fold_left (fun m v => Z.max m (su_timestamp v)) l m)) as H.
  { induction l as [|v l IH]; intros m; cbn.
    - split_and!; [intros v Hv; by apply elem_of_nil in Hv|lia|by left].
    - destruct (IH (Z.max m (su_timestamp v))) as (H1 & H2 & H3). split_and!; [|lia|].
      + intros x [->|Hx]%elem_of_cons; [lia|by apply H1].
      + destruct H3 as [E|(x & Hx & E)]; [|right; exists x; set_solver].
        destruct (Z.max_spec m (su_timestamp v)) as [[_ E']|[_ E']]; [right; exists v; set_solver by lia|left; lia]. }
  destruct (H rest (su_timestamp w)) as (H1 & H2 & H3). intros [->|Hu]%elem_of_cons.
  - split; [done|]. destruct H3 as [E|(x & Hx & E)]; [exists w; set_solver|exists x; set_solver].
  - split; [by apply H1|]. destruct H3 as [E|(x & Hx & E)]; [exists w; set_solver|exists x; set_solver].
Qed.

(** At most one distinct value: all elements are equal. *)
Lemma remove_dups_single {A} `{EqDecision A} (l : list A) x y :
  (1 <? length (remove_dups l))%nat = false -> x ∈ l -> y ∈ l -> x = y.
Proof.
  intros Hl%Nat.ltb_ge Hx Hy. rewrite <- elem_of_remove_dups in Hx, Hy.
  destruct (remove_dups l) as [|a [|b r]]; cbn in *; [by apply elem_of_nil in Hx|set_solver|lia].
Qed.

Lemma remove_dups_two {A} `{EqDecision A} (l : list A) :
  (1 <? length (remove_dups l))%nat = true -> exists x y, x ∈ l /\ y ∈ l /\ x ≠ y.
Proof.
  intros Hl%Nat.ltb_lt. pose proof (NoDup_remove_dups l) as Hn.
  assert (forall x, x ∈ remove_dups l -> x ∈ l) as Hin by (intros x; by rewrite elem_of_remove_dups).
  destruct (remove_dups l) as [|a [|b r]]; cbn in *; [lia|lia|].
  exists a, b. inversion_clear Hn. set_solver.
Qed.

(** The reports of the newest timestamp, when some report is fresh. *)
Lemma newest_reports updates last :
  let fresh := filter (fun u => last < su_timestamp u) updates in
  let t := max_timestamp fresh in
  fresh ≠ [] ->
  last < t /\ (forall v, v ∈ updates -> su_timestamp v <= t)
  /\ (forall v, v ∈ filter (fun u => su_timestamp u = t) fresh <-> v ∈ updates /\ su_timestamp v = t)
  /\ filter (fun u => su_timestamp u = t) fresh ≠ [].
Proof.
  intros fresh t Hne.
  assert (forall v, v ∈ fresh <-> last < su_timestamp v /\ v ∈ updates) as Hfresh
    by (intros v; unfold fresh; by rewrite list_elem_of_filter).
  assert (exists m, m ∈ fresh /\ su_timestamp m = t) as (m & Hm & Et).
  { assert (exists w, w ∈ fresh) as [w Hw] by (destruct fresh as [|w ?]; [done|exists w; set_solver]).
    by apply max_timestamp_spec in Hw as [_ ?]. }
  apply Hfresh in Hm as Hm2. split_and!; [lia| | |].
  - intros v Hv. destruct (Z.le_gt_cases (su_timestamp v) last); [lia|]. apply max_timestamp_spec, Hfresh. done.
  - intros v. rewrite list_elem_of_filter, Hfresh. intuition lia.
  - intros Hnil. apply (not_elem_of_nil m). rewrite <- Hnil. by apply list_elem_of_filter.
Qed.

Lemma reconcile_accepted updates last u :
  accepted (reconcileEndpointUpdates updates last) = Some u ->
  u ∈ updates /\ last < su_timestamp u /\ quarantined (reconcileEndpointUpdates updates last) = []
  /\ (forall v, v ∈ updates -> su_timestamp v <= su_timestamp u)
  /\ (forall v, v ∈ updates -> su_timestamp v = su_timestamp u -> su_payloadHash v = su_payloadHash u).
Proof.
  unfold reconcileEndpointUpdates. pose proof (newest_reports updates last) as Hn. cbv zeta in Hn.
  set (fresh := filter _ updates) in *. destruct fresh as [|w rest] eqn:Ef; [done|]. rewrite <- Ef in *.
  destruct Hn as (Hlt & Hmax & Hat & _); [by rewrite Ef|]. set (at_ := filter _ fresh) in *.
  destruct (1 <? _)%nat eqn:Ed; cbn [accepted quarantined]; [done|]. intros Hu.
  assert (u ∈ at_) as Hin by (by apply head_Some_elem_of). apply Hat in Hin as Hu2.
  split_and!; [tauto|lia|done|intros v Hv; rewrite (proj2 Hu2); by apply Hmax|].
  intros v Hv E. apply (remove_dups_single _ _ _ Ed); apply list_elem_of_fmap_2; [|done].
  apply Hat. split; [done|lia].
Qed.

(** Agreement (docs/pyth-ops.md, multi-endpoint rules): an update is
    accepted only when some endpoint reported it, it is newer than the last
    accepted timestamp, no endpoint reported a newer one, and every endpoint
    that reported its timestamp reported the same payload hash; otherwise
    nothing is accepted, and either no report was newer, or two endpoints
    contradict each other at the newest timestamp and exactly the reports of
    that timestamp are quarantined. *)
Theorem pyth_agreement updates last :
  let r := reconcileEndpointUpdates updates last in
  match accepted r with
  | Some u =>
      u ∈ updates /\ last < su_timestamp u /\ quarantined r = []
      /\ (forall v, v ∈ updates -> su_timestamp v <= su_timestamp u)
      /\ (forall v, v ∈ updates -> su_timestamp v = su_timestamp u -> su_payloadHash v = su_payloadHash u)
  | None =>
      (quarantined r = [] /\ forall v, v ∈ updates -> su_timestamp v <= last)
      \/ exists t, last < t
         /\ (forall v, v ∈ updates -> su_timestamp v <= t)
         /\ (forall v, v ∈ quarantined r <-> v ∈ updates /\ su_timestamp v = t)
         /\ exists a b, a ∈ quarantined r /\ b ∈ quarantined r /\ su_payloadHash a ≠ su_payloadHash b
  end.
Proof.
  intros r. destruct (accepted r) as [u|] eqn:Hu; [by apply reconcile_accepted|]. revert Hu. unfold r.
  unfold reconcileEndpointUpdates. pose proof (newest_reports updates last) as Hn. cbv zeta in Hn.
  destruct (decide (filter (fun u => last < su_timestamp u) updates = [])) as [E|Hne].
  { rewrite E. left. split; [done|]. intros v Hv. destruct (Z.le_gt_cases (su_timestamp v) last); [done|].
    exfalso. apply (not_elem_of_nil v). rewrite <- E. by apply list_elem_of_filter. }
  set (fresh := filter _ updates) in *. destruct (Hn Hne) as (Hlt & Hmax & Hat & Hsome).
  destruct fresh as [|w rest] eqn:Ef; [done|]. rewrite <- Ef in *. set (at_ := filter _ fresh) in *.
  destruct (1 <? _)%nat eqn:Ed; cbn [accepted quarantined]; [|by destruct at_].
  intros _. right. exists (max_timestamp fresh). split_and!; [done..|].
  apply remove_dups_two in Ed as (x & y & Hx & Hy & Hxy).
  apply list_elem_of_fmap in Hx as (a & -> & Ha), Hy as (b & -> & Hb). eauto.
Qed.

Definition sample_signed (t : Z) (h name : string) (m : list Z) : PythSignedUpdate := mkSigned "922" t h m name.

(** Endpoints agree, contradict each other, or report nothing newer. *)
Example agreement_cases :
  let a := sample_signed 10 "aa" "pyth-lazer-0" [1] in
  let b := sample_signed 10 "bb" "pyth-lazer-1" [2] in
  accepted (reconcileEndpointUpdates [a; sample_signed 9 "cc" "pyth-lazer-2" [3]; a] 8) = Some a
  /\ quarantined (reconcileEndpointUpdates [a; b] 8) = [a; b]
  /\ accepted (reconcileEndpointUpdates [a; b] 10) = None.
Proof. vm_compute. auto. Qed.

(** Agreement compares 32-bit FNV-1a digests, not payloads: two different
    messages that both carry the Solana magic collide, and the pair is accepted
    as if the endpoints agreed. *)
Theorem fnv_collision_accepted :
  let m1 := [185; 1; 26; 130; 106; 161; 136; 187] in
  let m2 := [185; 1; 26; 130; 82; 63; 192; 181] in
  m1 ≠ m2 /\ message_magic m1 = SOLANA_FORMAT_MAGIC /\ message_magic m2 = SOLANA_FORMAT_MAGIC
  /\ accepted (reconcileEndpointUpdates
       [sample_signed 10 (hashBytes m1) "pyth-lazer-0" m1; sample_signed 10 (hashBytes m2) "pyth-lazer-1" m2] 8)
     = Some (sample_signed 10 (hashBytes m1) "pyth-lazer-0" m1).
Proof. cbv zeta. split; [done|]. vm_compute. auto. Qed.

(** ** Invariants of an endpoint *)

(** A buffered update is well formed: its bytes carry the Solana magic and its
    hash is the hash of these bytes. *)
Definition signed_wf (u : PythSignedUpdate) : Prop :=
  8 <= blen (su_message u) /\ message_magic (su_message u) = SOLANA_FORMAT_MAGIC
  /\ su_payloadHash u = hashBytes (su_message u) /\ 0 <= su_timestamp u.

Lemma js_floor_div_nonneg n d : 0 <= n -> 0 < d -> 0 <= js_floor_div n d.
Proof.
  intros Hn Hd. unfold js_floor_div. destruct (Z.eqb_spec n 0); [lia|].
  assert (forall a b, 0 <= a -> 0 < b -> 0 <= round_half_even a b) as Hr.
  { intros a b Ha Hb. rewrite <- (round_half_even_exact 0 b Hb). by apply round_half_even_mono. }
  case_match; zbool.
  - apply Z.mul_nonneg_nonneg; [apply Hr; [lia|]|apply Z.pow_nonneg; lia].
    apply Z.mul_pos_pos; [done|apply Z.pow_pos_nonneg; lia].
  - apply Z.div_pos; [apply Hr; [|done]|apply Z.pow_pos_nonneg; lia].
    apply Z.mul_nonneg_nonneg; [lia|apply Z.pow_nonneg; lia].
Qed.

Lemma extractSolanaUpdate_wf envelope name u :
  extractSolanaUpdate envelope name = Some u -> signed_wf u /\ su_endpoint u = name.
Proof.
  unfold extractSolanaUpdate. intros H. destruct (prop "solana" envelope) as [solana|]; [|done].
  unfold mbind, option_bind in H. repeat (case_match; try discriminate). injection H as <-.
  match goal with Hf : parsed_feed envelope = Some (?i, ?t) |- _ => rename Hf into Hfeed; rename t into ts end.
  assert (0 <= ts) as Hts.
  { unfold parsed_feed, mbind, option_bind in Hfeed. repeat (case_match; try discriminate). simplify_eq. by zbool. }
  zbool. unfold signed_wf. cbn [su_message su_payloadHash su_timestamp su_endpoint].
  split_and!; [done|done|done|by apply js_floor_div_nonneg|done].
Qed.

Lemma to_number_pos z : 0 < z -> 0 < to_number z.
Proof.
  intros Hz. unfold to_number. case_match; zbool; [done|].
  assert (0 < 2 ^ (Z.log2 (Z.abs z) - 52)) as Hp by (apply Z.pow_pos_nonneg; lia).
  apply Z.mul_pos_pos; [|done]. apply Z.lt_le_trans with 1; [lia|].
  rewrite <- (round_half_even_exact 1 _ Hp). apply round_half_even_mono; [done|].
  rewrite Z.abs_eq by lia. pose proof (Z.log2_spec z Hz).
  apply Z.le_trans with (2 ^ Z.log2 z); [|lia]. rewrite Z.mul_1_l, Z.abs_eq in * by lia. apply Z.pow_le_mono_r; lia.
Qed.

Definition options_ok (o : PythLazerEndpointOptions) : Prop := 0 < baseBackoffMs o /\ 0 < maxBackoffMs o.
Definition inputs_ok (i : Inputs) : Prop := 0 <= in_jitter i < 2 ^ 53.

Lemma backoff_bounds o attempt jitter :
  options_ok o -> 0 <= attempt -> 0 <= jitter -> 0 < backoff o attempt jitter <= maxBackoffMs o * 2 ^ 53.
Proof.
  intros [Hb Hm] Ha Hj. unfold backoff, js_mul, js_add. split; [|apply Z.le_min_l].
  apply Z.min_glb_lt; [lia|]. apply to_number_pos, Z.mul_pos_pos; apply to_number_pos; [|lia].
  apply Z.mul_pos_pos; [done|]. apply Z.pow_pos_nonneg; lia.
Qed.

(** Timers: identifiers are fresh, the idle timer is never a reconnect timer,
    and every pending reconnect has a positive delay below the cap. *)
Record endpoint_inv (e : PythLazerEndpoint) : Prop := mkEndpointInv {
  inv_options : options_ok (options e);
  inv_fresh : forall t, is_Some (timers e !! t) -> (t < next_timer e)%nat;
  inv_idle : forall t d, idleProbeTimer e = Some t -> timers e !! t ≠ Some (timer_reconnect, d);
  inv_idle_fresh : forall t, idleProbeTimer e = Some t -> (t < next_timer e)%nat;
  inv_attempt : 0 <= reconnectAttempt e <= 30;
  inv_delays : forall t d, timers e !! t = Some (timer_reconnect, d) -> 0 < d <= maxBackoffMs (options e) * 2 ^ 53;
  inv_buffer : forall u, latestUpdate e = Some u -> signed_wf u /\ su_endpoint u = eo_name (options e) }.

(** The endpoint is not stranded: it was closed, met a fatal error, holds a
    socket, or will reconnect. *)
Definition alive (e : PythLazerEndpoint) : Prop :=
  closed e = true \/ lastFatal (metrics e) ≠ None \/ socket e ≠ None
  \/ exists t d, timers e !! t = Some (timer_reconnect, d).

Definition ok (e : PythLazerEndpoint) : Prop := endpoint_inv e /\ alive e.

Create HintDb endpoint.
Ltac inv_fields := destruct 1; constructor; cbn in *; eauto; lia.

Lemma inv_new o : options_ok o -> endpoint_inv (new_endpoint o).
Proof. intros Ho. constructor; cbn; [done|intros t [? H]; set_solver|done|done|lia|set_solver|done]. Qed.

Lemma inv_set_conn sk st e : endpoint_inv e -> endpoint_inv (set_conn sk st e).
Proof. inv_fields. Qed.
Lemma inv_set_sockets l e : endpoint_inv e -> endpoint_inv (set_sockets l e).
Proof. inv_fields. Qed.
Lemma inv_set_attempt n e : 0 <= n <= 30 -> endpoint_inv e -> endpoint_inv (set_attempt n e).
Proof. intros ?. inv_fields. Qed.
Lemma inv_on_metrics f e : endpoint_inv e -> endpoint_inv (on_metrics f e).
Proof. inv_fields. Qed.
Lemma inv_set_closed e : endpoint_inv e -> endpoint_inv (set_closed e).
Proof. inv_fields. Qed.
Lemma inv_add_subscribed id e : endpoint_inv e -> endpoint_inv (add_subscribed id e).
Proof. inv_fields. Qed.
Lemma inv_add_error m e : endpoint_inv e -> endpoint_inv (add_error m e).
Proof. inv_fields. Qed.
Lemma inv_add_fatal r m e : endpoint_inv e -> endpoint_inv (add_fatal r m e).
Proof. inv_fields. Qed.
Lemma inv_set_activity n e : endpoint_inv e -> endpoint_inv (set_activity n e).
Proof. inv_fields. Qed.
#[local] Hint Resolve inv_set_conn inv_set_sockets inv_set_attempt inv_on_metrics inv_set_closed inv_add_subscribed
  inv_add_error inv_add_fatal inv_set_activity : endpoint.

(** Dropping a timer, and forgetting the idle timer. *)
Lemma inv_delete_timer rt t e :
  endpoint_inv e -> endpoint_inv (set_timers rt (idleProbeTimer e) (delete t (timers e)) (next_timer e) e).
Proof.
  destruct 1; constructor; cbn in *; [done| | |done|done| |done].
  - intros t' [x Hx]. apply lookup_delete_Some in Hx as [_ Hx]. eauto.
  - intros t' d H Hx. apply lookup_delete_Some in Hx as [_ Hx]. by eapply inv_idle0.
  - intros t' d Hx. apply lookup_delete_Some in Hx as [_ Hx]. eauto.
Qed.

Lemma inv_forget_idle rt e : endpoint_inv e -> endpoint_inv (set_timers rt None (timers e) (next_timer e) e).
Proof. destruct 1; constructor; cbn in *; done. Qed.

Lemma scheduleReconnect_ok i cause e :
  inputs_ok i -> endpoint_inv e ->
  endpoint_inv (scheduleReconnect i cause e) /\ alive (scheduleReconnect i cause e).
Proof.
  intros [Hi _] He. unfold scheduleReconnect. destruct (closed e) eqn:Hc; [split; [done|by left]|].
  cbn. destruct He as [Ho Hfresh Hidle Hidlef Hatt Hdel Hbuf]. split.
  - constructor; cbn; [done| | | |lia| |done].
    + intros t [x [[-> _]|[_ Hx]]%lookup_insert_Some]; [lia|]. specialize (Hfresh t ltac:(eauto)). lia.
    + intros t d Ht [[<- _]|[_ Hx]]%lookup_insert_Some; [apply Hidlef in Ht; lia|by eapply Hidle].
    + intros t Ht. specialize (Hidlef t Ht). lia.
    + intros t d [[<- [= <-]]|[_ Hx]]%lookup_insert_Some; [by apply backoff_bounds; [|lia|]|eauto].
  - right. right. right. eexists (next_timer e), _. cbn. by rewrite lookup_insert_eq.
Qed.

Lemma endpoint_connect_ok i e :
  inputs_ok i -> endpoint_inv e -> endpoint_inv (connect i e) /\ alive (connect i e).
Proof.
  intros Hi He. unfold connect. destruct (closed e) eqn:Hc; [split; [done|by left]|].
  destruct (in_factory i); [|by apply scheduleReconnect_ok].
  split; [auto with endpoint|]. right. right. left. done.
Qed.

Lemma handleFatal_ok r m e : endpoint_inv e -> endpoint_inv (handleFatal r m e) /\ alive (handleFatal r m e).
Proof. intros He. unfold handleFatal. split; [auto with endpoint|]. right. left. done. Qed.

(** [alive] only depends on four fields. *)
Lemma alive_frame e e' :
  closed e' = closed e -> lastFatal (metrics e') = lastFatal (metrics e) -> socket e' = socket e ->
  timers e' = timers e -> alive e -> alive e'.
Proof. unfold alive. intros -> -> -> ->. done. Qed.

Section EndpointProofs.
Context (JSON_parse : string -> option json) (JSON_stringify : json -> string).
#[local] Abbreviation step := (step JSON_parse JSON_stringify).
#[local] Abbreviation run := (run JSON_parse JSON_stringify).

Lemma handle_parsed_ok i parsed e : inputs_ok i -> ok e -> ok (handle_parsed JSON_stringify i parsed e).
Proof.
  intros Hi [He Ha]. unfold handle_parsed.
  repeat case_match; try (by apply scheduleReconnect_ok); try (by apply handleFatal_ok);
    (split; [|by apply (alive_frame e)]);
    try (eauto 6 with endpoint lia); try (apply inv_on_metrics); try (apply inv_set_conn, inv_set_attempt; [lia|done]).
  destruct He; constructor; cbn in *; try done. intros ? [= <-]. by eapply extractSolanaUpdate_wf.
Qed.

Lemma handleEvent_ok i data e : inputs_ok i -> ok e -> ok (handleEvent JSON_parse JSON_stringify i data e).
Proof.
  intros Hi He. assert (forall f, (forall m, lastFatal (f m) = lastFatal m) -> ok (on_metrics f e)) as Hm.
  { intros f Hf. destruct He. split; [auto with endpoint|]. apply (alive_frame e); try done. apply Hf. }
  unfold handleEvent. repeat case_match; try (by apply Hm); by apply handle_parsed_ok.
Qed.

(** Replacing the idle timer leaves reconnect timers alone. *)
Lemma reset_idle_ok delay e :
  ok e ->
  ok (set_timers (reconnectTimer e) (Some (next_timer e))
        (<[next_timer e := (timer_idle, delay)]> (clearTimeout (idleProbeTimer e) (timers e))) (S (next_timer e)) e).
Proof.
  intros [[Ho Hfresh Hidle Hidlef Hatt Hdel Hbuf] Ha].
  assert (forall t x, clearTimeout (idleProbeTimer e) (timers e) !! t = Some x -> timers e !! t = Some x) as Hsub.
  { unfold clearTimeout. destruct (idleProbeTimer e); [|done]. intros t x. by intros [_ Hx]%lookup_delete_Some. }
  split.
  - constructor; cbn; [done| | | |lia| |done].
    + intros t [x [[-> _]|[_ Hx]]%lookup_insert_Some]; [lia|]. specialize (Hfresh t ltac:(eauto)). lia.
    + intros t d [= <-]. by rewrite lookup_insert_eq.
    + intros t [= <-]. lia.
    + intros t d [[_ ?]|[_ Hx]]%lookup_insert_Some; [done|eauto].
  - destruct Ha as [?|[?|[?|(t & d & Ht)]]]; [by left|by right; left|by right; right; left|].
    right. right. right. exists t, d. cbn. assert (t < next_timer e)%nat by eauto.
    rewrite lookup_insert_ne by lia. unfold clearTimeout. destruct (idleProbeTimer e) as [t'|] eqn:Ei; [|done].
    rewrite lookup_delete_ne; [done|]. intros ->. by eapply Hidle.
Qed.

Lemma handleMessage_ok i data e : inputs_ok i -> ok e -> ok (handleMessage JSON_parse JSON_stringify i data e).
Proof.
  intros Hi He. unfold handleMessage. destruct (closed e); [done|].
  assert (ok (on_metrics count_message (set_activity (in_now i) e))) as He1.
  { destruct He. split; [auto with endpoint|]. by apply (alive_frame e). }
  apply (handleEvent_ok i data) in He1; [|done]. cbn.
  set (e1 := handleEvent _ _ _ _ _) in *. clearbody e1. exact (reset_idle_ok _ e1 He1).
Qed.

Lemma idle_probe_ok i e : inputs_ok i -> ok e -> ok (idle_probe i e).
Proof.
  intros Hi [He Ha]. unfold idle_probe. cbn.
  destruct (closed e) eqn:Hc; [|destruct (socket e) as [id|] eqn:Hs; [case_match|]].
  - split; [by apply inv_forget_idle|by left].
  - apply scheduleReconnect_ok; [done|]. by apply inv_set_conn, inv_set_sockets, inv_forget_idle.
  - split; [by apply inv_forget_idle|]. by right; right; left; cbn; rewrite Hs.
  - split; [by apply inv_forget_idle|]. by apply (alive_frame e).
Qed.

Lemma endpoint_close_ok e : endpoint_inv e -> ok (close e).
Proof.
  intros He. unfold close. cbn. split; [|repeat case_match; by left].
  destruct (reconnectTimer e) as [t|]; cbn; destruct (socket e); cbn; try case_match;
    repeat first [apply inv_set_sockets|apply inv_set_conn]; try (by apply inv_set_closed).
  all: change (endpoint_inv (set_timers None (idleProbeTimer (set_closed e)) (delete t (timers (set_closed e)))
         (next_timer (set_closed e)) (set_closed e))); apply inv_delete_timer; auto with endpoint.
Qed.

Lemma step_ok ev e : inputs_ok ev.2 -> ok e -> ok (step e ev).
Proof.
  destruct ev as [ev i]. cbn [snd]. intros Hi [He Ha]. destruct ev as [| |id|id data|id|id|id]; cbn.
  - unfold start. destruct (closed e) eqn:Hc; [done|]. apply endpoint_connect_ok; auto with endpoint.
  - by apply endpoint_close_ok.
  - case_match; (split; [auto with endpoint|]; by apply (alive_frame e)).
  - case_bool_decide; [by apply handleMessage_ok|done].
  - case_match eqn:E; [split; [auto with endpoint|]; by apply (alive_frame e)|].
    apply scheduleReconnect_ok; auto with endpoint.
  - split; [auto with endpoint|]. by apply (alive_frame e).
  - destruct (timers e !! id) as [[k d]|] eqn:Et; [|done].
    pose proof (inv_delete_timer (reconnectTimer e) id e He) as Hdel. destruct k.
    + apply endpoint_connect_ok; [done|]. exact (inv_delete_timer None id e He).
    + apply idle_probe_ok; [done|]. split; [done|].
      destruct Ha as [?|[?|[?|(t & d' & Ht)]]]; [by left|by right; left|by right; right; left|].
      right. right. right. exists t, d'. cbn. rewrite lookup_delete_ne; [done|congruence].
Qed.

Lemma run_ok evs e : Forall (fun ev => inputs_ok ev.2) evs -> ok e -> ok (run evs e).
Proof.
  intros Hevs. revert e. induction Hevs as [|ev evs Hev _ IH]; intros e He; [done|].
  apply IH. by apply step_ok.
Qed.

(** Endpoints of a pool after any history that began with [start]. *)
Definition reachable (o : PythLazerEndpointOptions) (e : PythLazerEndpoint) : Prop :=
  exists i evs, inputs_ok i /\ Forall (fun ev => inputs_ok ev.2) evs /\ e = run evs (start i (new_endpoint o)).

Lemma reachable_ok o e : options_ok o -> reachable o e -> ok e.
Proof.
  intros Ho (i & evs & Hi & Hevs & ->). apply run_ok; [done|].
  unfold start. apply endpoint_connect_ok; [done|]. by apply inv_set_conn, inv_new.
Qed.

(** A started endpoint is never stranded: after any sequence of socket
    events, protocol messages, timer callbacks and factory failures it has been
    closed, has reported a fatal error, holds a socket, or has a reconnect
    scheduled with a positive delay of at most the configured cap; the attempt
    counter stays within 0..30. *)
Theorem endpoint_keeps_trying o i evs :
  options_ok o -> inputs_ok i -> Forall (fun ev => inputs_ok ev.2) evs ->
  let e := run evs (start i (new_endpoint o)) in
  0 <= reconnectAttempt e <= 30
  /\ (closed e = true \/ lastFatal (metrics e) ≠ None \/ socket e ≠ None
      \/ exists t d, timers e !! t = Some (timer_reconnect, d) /\ 0 < d <= maxBackoffMs (options e) * 2 ^ 53).
Proof.
  intros Ho Hi Hevs e. assert (ok e) as [He Ha] by (apply (reachable_ok o); [done|by exists i, evs]).
  split; [by apply inv_attempt|].
  destruct Ha as [?|[?|[?|(t & d & Ht)]]]; [by left|by right; left|by right; right; left|].
  right. right. right. exists t, d. split; [done|]. by apply (inv_delays e He t).
Qed.

(** ** Shutdown *)

(** What a closed endpoint keeps forever. *)
Definition shut (e e' : PythLazerEndpoint) : Prop :=
  closed e' = true /\ state e' = st_closed /\ socket e' = None /\ length (sockets e') = length (sockets e)
  /\ subscribed_on e' = subscribed_on e /\ latestUpdate e' = latestUpdate e /\ metrics e' = metrics e.

Lemma shut_step e e' ev : shut e e' -> shut e (step e' ev).
Proof.
  intros (Hc & Hst & Hs & Hl & Hsub & Hu & Hm). destruct ev as [ev i].
  destruct ev as [| |id|id data|id|id|id]; cbn.
  - unfold start. by rewrite Hc.
  - unfold close. cbn. destruct (reconnectTimer e'); cbn; by rewrite Hs.
  - rewrite Hc. cbn. unfold shut. cbn. rewrite length_insert. done.
  - unfold handleMessage. rewrite Hc. by case_match.
  - rewrite Hc. cbn. unfold shut. cbn. rewrite length_insert. done.
  - done.
  - case_match; [|done]. case_match. case_match; subst; cbn.
    + unfold connect. cbn. by rewrite Hc.
    + unfold idle_probe. cbn. by rewrite Hc.
Qed.

(** Shutdown is final: once [close] was called, no socket event, message,
    late timer or second [start] opens a connection, sends a subscription,
    changes the buffered update or moves a counter; the endpoint stays in the
    closed state without a socket. *)
Theorem endpoint_close_is_final e evs :
  let e' := run evs (close e) in
  closed e' = true /\ state e' = st_closed /\ socket e' = None /\ connected e' = false
  /\ length (sockets e') = length (sockets e) /\ subscribed_on e' = subscribed_on e
  /\ latestUpdate e' = latestUpdate e /\ metrics e' = metrics e.
Proof.
  assert (shut e (close e)) as H.
  { unfold close, shut. cbn. destruct (reconnectTimer e); cbn; (destruct (socket e); cbn; [|done]);
      (case_match; cbn; [|done]); by rewrite length_insert. }
  cbv zeta. assert (forall e1, shut e e1 -> shut e (run evs e1)) as Hrun.
  { induction evs as [|ev evs IH]; intros e1 H1; [done|]. apply IH. by apply shut_step. }
  destruct (Hrun _ H) as (? & ? & Hs & ?). unfold connected. rewrite Hs. tauto.
Qed.

(** ** The live source *)

(** What the production source hands to the oracle keeper: an update comes
    out only when a credential, three endpoints and a numeric feed are
    configured and at least two endpoints are connected; it is newer than the
    previous one with another hash, it is well formed (magic, length, hash of
    exactly these bytes), it sits in the buffer of one of the pool's endpoints,
    and no endpoint of the pool buffers a newer update or a different payload
    for its timestamp. *)
Theorem live_source_sound (o : string -> PythLazerEndpointOptions) config pool w previousTimestamp previousPayloadHash u :
  (forall name, options_ok (o name)) ->
  (forall e, e ∈ pool -> exists name, reachable (o name) e) ->
  createLivePythUpdateSource config pool w previousTimestamp previousPayloadHash = Ok (Some u) ->
  pythSourceHealth config = true
  /\ (2 <= length (filter (fun e => connected e = true) pool))%nat
  /\ previousTimestamp < pu_timestamp u /\ pu_payloadHash u ≠ previousPayloadHash
  /\ message_magic (pu_message u) = SOLANA_FORMAT_MAGIC /\ pu_payloadHash u = hashBytes (pu_message u)
  /\ (exists e s, e ∈ pool /\ latestUpdate e = Some s /\ to_update s = u)
  /\ (forall e s, e ∈ pool -> latestUpdate e = Some s ->
        su_timestamp s < pu_timestamp u
        \/ su_timestamp s = pu_timestamp u /\ su_payloadHash s = pu_payloadHash u).
Proof.
  intros Ho Hpool H. unfold createLivePythUpdateSource in H.
  destruct (pythSourceHealth config) eqn:Hh; [|done]. cbn [negb] in H.
  destruct (redundancyHealthy pool) eqn:Hr; [|done]. cbn [negb] in H.
  destruct (accepted _) as [s|] eqn:Hacc; [|done]. case_bool_decide as Hd; [done|]. injection H as <-.
  apply reconcile_accepted in Hacc as (Hin & Hlt & _ & Hmax & Hsame).
  apply list_elem_of_omap in Hin as (e & He & Hs).
  assert (signed_wf s) as (_ & Hmagic & Hhash & _).
  { destruct (Hpool e He) as (name & Hre).
    apply reachable_ok in Hre as [Hinv _]; [|done]. by apply (inv_buffer e Hinv). }
  unfold redundancyHealthy in Hr. apply Nat.leb_le in Hr. cbn.
  split_and!; [done|done|done|done|done|done|by exists e, s|].
  intros e2 s2 He2 Hs2. assert (s2 ∈ fetchSignedUpdates pool) as Hin2 by (apply list_elem_of_omap; eauto).
  destruct (Z.lt_trichotomy (su_timestamp s2) (su_timestamp s)) as [?|[?|?]]; [by left|right; eauto|].
  specialize (Hmax s2 Hin2). lia.
Qed.
End EndpointProofs.

(** ** Witnesses *)

(** A JSON parser for the sample messages: any text is the envelope of a
    protocol error, except the ones listed. *)
Definition sample_envelope (data : string) (feed ts : Z) : json :=
  JObj [("type", JStr "streamUpdated");
        ("solana", JObj [("encoding", JStr "hex"); ("data", JStr data)]);
        ("parsed", JObj [("timestampUs", JStr "1"); ("priceFeeds", JArr [JObj [("priceFeedId", JNum feed);
                                                                              ("feedUpdateTimestamp", JNum ts)]])])].
Definition sample_parse (s : string) : option json :=
  if bool_decide (s = "subscribed") then Some (JObj [("type", JStr "subscribed")])
  else if bool_decide (s = "update") then Some (sample_envelope "b9011a820000000000" 922 1700000000000000)
  else if bool_decide (s = "stale") then Some (sample_envelope "b9011a820000000007" 922 1600000000000000)
  else if bool_decide (s = "{") then None
  else Some (JObj [("type", JStr "error"); ("error", JStr s)]).
Definition sample_stringify (v : json) : string := js_String v.
Definition sample_inputs (now : Z) : Inputs := mkInputs now (2 ^ 52) (Ok tt).
Definition sample_options (name : string) : PythLazerEndpointOptions := DEFAULTS name.
Definition text (s : string) : MessageData := data_text s.

(** An endpoint that subscribed and received one update. *)
Definition sample_history : list (event * Inputs) :=
  [(EvOpen 0, sample_inputs 1); (EvMessage 0 (text "subscribed"), sample_inputs 2);
   (EvMessage 0 (text "update"), sample_inputs 3)].
Definition sample_endpoint (name : string) : PythLazerEndpoint :=
  run sample_parse sample_stringify sample_history (start (sample_inputs 0) (new_endpoint (sample_options name))).

Lemma sample_inputs_ok now : inputs_ok (sample_inputs now).
Proof. unfold inputs_ok. cbn. lia. Qed.
Lemma sample_options_ok name : options_ok (sample_options name).
Proof. unfold options_ok. cbn. lia. Qed.
Lemma sample_history_ok : Forall (fun ev => inputs_ok ev.2) sample_history.
Proof. repeat constructor; cbn; lia. Qed.

Lemma endpoint_keeps_trying_witness :
  let evs := [(EvSocketClosed 0, sample_inputs 1)] in
  let e := run sample_parse sample_stringify evs (start (sample_inputs 0) (new_endpoint (DEFAULTS "pyth-lazer-0"))) in
  socket e = None /\ timers e !! 0%nat = Some (timer_reconnect, 200 * 2 ^ 53) /\ 0 <= reconnectAttempt e <= 30.
Proof.
  cbv zeta. split_and!; [vm_compute; reflexivity|vm_compute; reflexivity|..];
    apply (endpoint_keeps_trying sample_parse sample_stringify (DEFAULTS "pyth-lazer-0") (sample_inputs 0)
             [(EvSocketClosed 0, sample_inputs 1)]);
    first [apply sample_options_ok|apply sample_inputs_ok|repeat constructor; cbn; lia].
Defined.

Lemma live_source_sound_witness :
  let pool := sample_endpoint <$> ["pyth-lazer-0"; "pyth-lazer-1"; "pyth-lazer-2"] in
  let config := mkPythConfig (Some "key") ["a"; "b"; "c"] "922" "fixed_rate@200ms" in
  exists u, createLivePythUpdateSource config pool sample_world 0 "" = Ok (Some u)
    /\ pu_timestamp u = 1700000000 /\ message_magic (pu_message u) = SOLANA_FORMAT_MAGIC.
Proof.
  cbv zeta. eexists. split; [vm_compute; reflexivity|]. split; [vm_compute; reflexivity|].
  refine (proj1 (proj2 (proj2 (proj2 (proj2 (live_source_sound sample_parse sample_stringify sample_options
    (mkPythConfig (Some "key") ["a"; "b"; "c"] "922" "fixed_rate@200ms")
    (sample_endpoint <$> ["pyth-lazer-0"; "pyth-lazer-1"; "pyth-lazer-2"]) sample_world 0 "" _
    sample_options_ok _ _)))))); [|vm_compute; reflexivity].
  intros e (name & -> & _)%list_elem_of_fmap. exists name, (sample_inputs 0), sample_history.
  split_and!; [apply sample_inputs_ok|apply sample_history_ok|reflexivity].
Defined.

(** ** Defects *)

(** A transient protocol error schedules a reconnect but neither closes nor
    forgets the socket it came on: the reconnect opens a second connection
    beside it, and a late message of the abandoned socket overwrites the newer
    update of the current one. *)
Theorem transient_error_leaks_connection :
  let evs := [(EvOpen 0, sample_inputs 1); (EvMessage 0 (text "overloaded"), sample_inputs 2);
              (EvTimer 0, sample_inputs 3); (EvOpen 1, sample_inputs 4);
              (EvMessage 1 (text "update"), sample_inputs 5); (EvMessage 0 (text "stale"), sample_inputs 6)] in
  let e := run sample_parse sample_stringify evs (start (sample_inputs 0) (new_endpoint (DEFAULTS "pyth-lazer-0"))) in
  socket e = Some 1%nat /\ sockets e = [1; 1] /\ subscribed_on e = [0; 1]%nat
  /\ option_map su_timestamp (latestUpdate e) = Some 1600000000.
Proof. vm_compute. auto. Qed.

(** A fatal error leaves the endpoint able to come back: the rejected socket is
    not closed and [closed] stays false, so its next message schedules a
    reconnect and the endpoint opens a new connection with the refused key. *)
Theorem fatal_endpoint_reconnects :
  let evs := [(EvOpen 0, sample_inputs 1); (EvMessage 0 (text "unauthorized"), sample_inputs 2);
              (EvMessage 0 (text "overloaded"), sample_inputs 3); (EvTimer 1, sample_inputs 4)] in
  let e := run sample_parse sample_stringify evs (start (sample_inputs 0) (new_endpoint (DEFAULTS "pyth-lazer-0"))) in
  lastFatal (metrics e) = Some unauthorized /\ state e = st_reconnecting /\ socket e = Some 1%nat /\ length (sockets e) = 2%nat.
Proof. vm_compute. auto. Qed.

(** The idle timer is armed by messages only: a connection that opens and stays
    silent has no timer at all, so nothing ever probes it. *)
Theorem silent_connection_never_probed :
  let e := run sample_parse sample_stringify [(EvOpen 0, sample_inputs 1)]
             (start (sample_inputs 0) (new_endpoint (DEFAULTS "pyth-lazer-0"))) in
  connected e = true /\ state e = st_connecting /\ timers e = ∅.
Proof. vm_compute. auto. Qed.

(** Any message that mentions a rate is taken for rate limiting: a transient
    error that names the configured channel ends the endpoint for good. *)
Theorem channel_name_is_fatal :
  classifyProtocolError "channel fixed_rate@200ms is restarting" = Some rate_limited.
Proof. vm_compute. reflexivity. Qed.

(** Characters that are not hexadecimal do not fail the decoder: they become
    zero bytes. *)
Theorem malformed_hex_accepted : hexToBytes "b9011a82zz0000000000" = Ok [185; 1; 26; 130; 0; 0; 0; 0; 0; 0].
Proof. vm_compute. reflexivity. Qed.
