(* ===== verification/Signers.v ===== *)
(** * Keeper signers

    workers/src/signer.ts (the [Signer] interface and its adapters),
    workers/src/keeper-signer.ts (the startup state machine that binds key
    material, the transaction audit, Base58) and the classification of
    workers/src/keeper-config.ts.

    Ed25519 and SHA-256 are parameters; [JSON.parse] is a parameter whose result
    is [None] when it throws.  A key promise is computed once in the source;
    loading a seed is a function of the source text here, so evaluating it again
    gives the same outcome. *)

From S2P Require Import Prelude Json Bytes ExecutionStatus Repositories V3Market MarkPrice PrivateSessions Risk Keepers EventDecoder Transactions.

Inductive SignerRole :=
  | role_pyth | role_commit | role_funding | role_session | role_cleanup | role_liquidation.

#[export] Instance signer_role_eq_dec : EqDecision SignerRole.
Proof. solve_decision. Defined.

Definition role_string (r : SignerRole) : string :=
  match r with
  | role_pyth => "pyth" | role_commit => "magicblock-commit" | role_funding => "funding"
  | role_session => "market-session" | role_cleanup => "expiry-cleanup" | role_liquidation => "liquidation"
  end.

Record SignerHealth := mkHealth { health_ok : bool; health_detail : option string }.

(** The [Signer] interface. *)
Record Signer := mkSigner {
  keyId : string; publicKey : result (list Z); sign : list Z -> result (list Z); health : SignerHealth }.

(** What every client of a signer relies on: it is healthy exactly when it can
    produce its key, and it can sign exactly when it is healthy. *)
Class SignerContract (s : Signer) : Prop := {
  health_public_key : health_ok (health s) = is_ok (publicKey s);
  health_sign : forall m, is_ok (sign s m) = health_ok (health s) }.

Definition PKCS8_ED25519_PREFIX : list Z :=
  [0x30; 0x2e; 0x02; 0x01; 0x00; 0x30; 0x05; 0x06; 0x03; 0x2b; 0x65; 0x70; 0x04; 0x22; 0x04; 0x20].

Definition pkcs8FromSeed (seed : list Z) : result (list Z) :=
  if negb (blen seed =? 32) then Throw ("ed25519 seed must be 32 bytes, got " +:+ pretty (blen seed))
  else Ok (PKCS8_ED25519_PREFIX ++ seed).

(** The accumulated difference of two byte arrays. *)
Fixpoint xor_diff (a b : list Z) (diff : Z) : Z :=
  match a, b with
  | x :: a, y :: b => xor_diff a b (Z.lor diff (Z.lxor x y))
  | _, _ => diff
  end.
Definition bytesEqual (a b : list Z) : bool :=
  if negb (blen a =? blen b) then false else xor_diff a b 0 =? 0.

Definition is_hex (c : Ascii.ascii) : bool := match hex_value c with Some _ => true | None => false end.
Fixpoint all_hex (s : string) : bool :=
  match s with EmptyString => true | String c rest => is_hex c && all_hex rest end.

(** [/^[0-9a-f]{64}$/i.test(value)] *)
Definition hex_key (s : string) : bool := bool_decide (String.length s = 64%nat) && all_hex s.

(** [atob] as a function that throws. *)
Definition atob_throw (s : string) : result (list Z) :=
  match atob s with Some bs => Ok bs | None => Throw "The string to be decoded is not correctly encoded." end.

Definition parsePublicKeyString (value : string) : result (list Z) :=
  if hex_key value then Ok (hex_pairs value) else
  bs ← atob_throw value;
  if negb (blen bs =? 32) then Throw "expected public key must decode to exactly 32 bytes" else Ok bs.

Fixpoint replace_char (a b : Ascii.ascii) (s : string) : string :=
  match s with
  | EmptyString => EmptyString
  | String c rest => String (if bool_decide (c = a) then b else c) (replace_char a b rest)
  end.

(** [value.replace(/-/g, "+").replace(/_/g, "/")] *)
Definition base64url (s : string) : string :=
  replace_char (Ascii.ascii_of_nat 95) (Ascii.ascii_of_nat 47)
    (replace_char (Ascii.ascii_of_nat 45) (Ascii.ascii_of_nat 43) s).

Definition REDACTED : string :=
  "malformed private key material: expected a JWK JSON object ({kty:'OKP',crv:'Ed25519',d:...}) or a base64-encoded 32-byte seed / PKCS8 DER envelope -- redacted, not logging the value itself".

(** The number a JSON value stores into a [Uint8Array] element. *)
Definition element_byte (v : json) : Z :=
  match v with
  | JNum z => z mod 256
  | JBool b => if b then 1 else 0
  | JStr s => if digit_string s then decimal s mod 256 else 0
  | _ => 0
  end.

Section Crypto.
Context (JSON_parse : string -> option json).
(** Public key and signature of a 32-byte seed; SHA-256 of a string. *)
Context (ed25519_public : list Z -> list Z) (ed25519_sign : list Z -> list Z -> list Z) (sha256 : string -> list Z).

(** *** Key material *)

Definition jwk_seed (trimmed : string) : result (list Z) :=
  match JSON_parse trimmed with
  | None => Throw "SyntaxError"
  | Some jwk =>
      if negb (is_str "OKP" (prop "kty" jwk) && is_str "Ed25519" (prop "crv" jwk) && truthy (prop "d" jwk))%bool
      then Throw "shape mismatch"
      else match prop "d" jwk with
           | Some (JStr d) =>
               bs ← atob_throw (base64url d);
               if negb (blen bs =? 32) then Throw "wrong length" else Ok bs
           | _ => Throw "jwk.d.replace is not a function"
           end
  end.

Definition der_seed (trimmed : string) : result (list Z) :=
  bs ← atob_throw trimmed;
  if blen bs =? 32 then Ok bs
  else if (blen bs =? 48) && bool_decide (slice bs 0 16 = PKCS8_ED25519_PREFIX)
  then Ok (slice bs 16 48)
  else Throw "wrong length or unrecognized PKCS8 envelope".

Definition seedFromPrivateKeyMaterial (material : string) : result (list Z) :=
  let trimmed := trim material in
  match (if String.prefix "{" trimmed then jwk_seed trimmed else der_seed trimmed) with
  | Ok seed => Ok seed
  | Throw _ => Throw REDACTED
  end.

(** [LocalKeypairSigner.loadSeed] *)
Definition local_seed (keypairSource : string) : result (list Z) :=
  let trimmed := trim keypairSource in
  if String.prefix "[" trimmed then
    match JSON_parse trimmed with
    | None => Throw "SyntaxError"
    | Some (JArr items) =>
        let n := Z.of_nat (length items) in
        if (negb (n =? 64) && negb (n =? 32))%bool
        then Throw ("local keypair array must be 32 or 64 bytes, got " +:+ pretty n)
        else Ok (element_byte <$> take 32 items)
    | Some _ => Throw "bytes.slice is not a function"
    end
  else
    bs ← atob_throw trimmed;
    if negb (blen bs =? 32)
    then Throw ("base64 local keypair seed must decode to 32 bytes, got " +:+ pretty (blen bs)) else Ok bs.

(** *** Adapters *)

(** [WebCryptoEd25519Signer]: the key material of a seed. *)
Definition keyMaterial (loadSeed : result (list Z)) : result (list Z * list Z) :=
  seed ← loadSeed;
  _ ← pkcs8FromSeed seed;
  Ok (seed, ed25519_public seed).

Definition health_of {A} (state : result A) : SignerHealth :=
  match state with Ok _ => mkHealth true None | Throw e => mkHealth false (Some e) end.

Definition WebCryptoEd25519Signer (id : string) (loadSeed : result (list Z)) : Signer :=
  mkSigner id (snd <$> keyMaterial loadSeed)
    (fun message => '(seed, _) ← keyMaterial loadSeed; Ok (ed25519_sign seed message))
    (health_of (keyMaterial loadSeed)).

Definition DeterministicTestSigner (id : string) : Signer :=
  WebCryptoEd25519Signer id (Ok (sha256 ("equinox-test-signer:" +:+ id))).

Definition LocalKeypairSigner (id keypairSource : string) : Signer :=
  WebCryptoEd25519Signer id (local_seed keypairSource).

(** [(keyId.charCodeAt(i % keyId.length) + i) & 0xff]; an empty id gives NaN,
    stored as 0. *)
Definition mock_key (id : string) : list Z :=
  (fun i => match String.get (i `mod` String.length id) id with
            | Some c => Z.land (Z.of_nat (Ascii.nat_of_ascii c) + Z.of_nat i) 255
            | None => 0
            end) <$> seq 0 32.
Definition MockSigner (id : string) : Signer :=
  mkSigner id (Ok (mock_key id)) (fun _ => Ok (replicate 64 0xab)) (mkHealth true None).

Record ProductionSignerSecret := mkSecret {
  sec_role : SignerRole; sec_privateKeyMaterial : string; sec_expectedPublicKey : string }.

(** [SecretBackedSigner.state]: the signing key is usable only after the derived
    public key matched the configured one. *)
Definition secret_state (id : string) (seed expected : list Z) : result (list Z * list Z) :=
  _ ← pkcs8FromSeed seed;
  let pk := ed25519_public seed in
  if negb (bytesEqual pk expected)
  then Throw ("signer public key mismatch for " +:+ id +:+
              ": the imported key does not derive the configured public key -- redacted, not logging either key")
  else Ok (seed, pk).

Definition SecretBackedSigner (secret : ProductionSignerSecret) (requestedRole : SignerRole) : result Signer :=
  if negb (bool_decide (sec_role secret = requestedRole))
  then Throw ("signer role mismatch: this secret is bound to " +:+ quoted (role_string (sec_role secret)) +:+ ", not "
              +:+ quoted (role_string requestedRole))
  else
    let id := "production:" +:+ role_string requestedRole in
    seed ← seedFromPrivateKeyMaterial (sec_privateKeyMaterial secret);
    expected ← parsePublicKeyString (sec_expectedPublicKey secret);
    Ok (mkSigner id (snd <$> secret_state id seed expected)
          (fun message => '(key, _) ← secret_state id seed expected; Ok (ed25519_sign key message))
          (health_of (secret_state id seed expected))).

Definition createProductionSigner (role : SignerRole) (secret : option ProductionSignerSecret) : result Signer :=
  match secret with
  | None => Throw ("createProductionSigner(" +:+ quoted (role_string role) +:+ ") has no secret configured: production keeper signing requires a Worker secret binding supplying a private key and its expected public key for this role. Use LocalKeypairSigner (dev) or DeterministicTestSigner/MockSigner (tests) until one is wired up.")
  | Some secret => SecretBackedSigner secret role
  end.

(** [RemoteSigner] forwards every operation to its transport. *)
Record RemoteSignerTransport := mkRemote {
  remote_publicKey : result (list Z); remote_sign : list Z -> result (list Z); remote_health : SignerHealth }.
Definition RemoteSigner (id : string) (transport : RemoteSignerTransport) : Signer :=
  mkSigner id (remote_publicKey transport) (remote_sign transport) (remote_health transport).

(** [SignerRegistry]: one signer per role. *)
Definition SignerRegistry := SignerRole -> Signer.
Definition ALL_ROLES : list SignerRole :=
  [role_pyth; role_commit; role_funding; role_session; role_cleanup; role_liquidation].
Definition healthAll (registry : SignerRegistry) : list (SignerRole * SignerHealth) :=
  (fun role => (role, health (registry role))) <$> ALL_ROLES.
End Crypto.

(** ** keeper-signer.ts: the transaction audit *)

Module KeeperAudit.
Section Audit.
(** [deployment.programId]. *)
Context (EQUINOX_PROGRAM_ID : string).

Definition MAGIC_PROGRAM : string := "Magic11111111111111111111111111111111111111".
Definition SYSTEM_PROGRAM : string := "11111111111111111111111111111111".

Definition KEEPER_ALLOWED_PROGRAMS : list string :=
  [EQUINOX_PROGRAM_ID; "ComputeBudget111111111111111111111111111111"; "Ed25519SigVerify111111111111111111111111111";
   "pytd2yyk641x7ak7mkaasSJVXh6YYZnC7wTmtgAyxPt"; MAGIC_PROGRAM; "MagicContext1111111111111111111111111111111"].

Definition KEEPER_INSTRUCTION_ALLOWLIST : list Z := [6; 7; 12; 14; 15; 31; 32; 38; 39].

(** [None]: membership only. *)
Definition opcodeAllowlistForProgram (program : string) : option (list Z) :=
  if bool_decide (program = EQUINOX_PROGRAM_ID) then Some KEEPER_INSTRUCTION_ALLOWLIST
  else if bool_decide (program = MAGIC_PROGRAM) then Some [11]
  else None.

(** The violation of one decoded instruction, if any. *)
Definition audit_instruction (index : nat) (instruction : string * list Z) : option string :=
  let '(program, data) := instruction in
  let prefix := "instruction " +:+ pretty (Z.of_nat index) +:+ ": " in
  if negb (bool_decide (program ∈ KEEPER_ALLOWED_PROGRAMS))
  then Some (prefix +:+ "program " +:+ program +:+ " is not keeper-approved")
  else if bool_decide (program = SYSTEM_PROGRAM)
  then Some (prefix +:+ "explicit system-program instruction in a keeper transaction")
  else
    match opcodeAllowlistForProgram program, data with
    | Some opcodes, op :: _ =>
        if bool_decide (op ∈ opcodes) then None
        else Some (prefix +:+ "opcode " +:+ pretty op +:+ " is not keeper-permitted for " +:+ program)
    | _, _ => None
    end.

Record KeeperTransactionAudit := mkAudit { audit_ok : bool; violations : list string }.

(** [decode]: the wire transaction's instructions, each with its program address
    and its data ([] for none); [None] when it does not decode. *)
Definition auditKeeperTransaction (decode : string -> option (list (string * list Z))) (wire : string)
    : KeeperTransactionAudit :=
  match decode wire with
  | None => mkAudit false ["transaction does not decode"]
  | Some instructions =>
      let found := omap id (imap audit_instruction instructions) in
      mkAudit (bool_decide (length found = 0%nat)) found
  end.
End Audit.
End KeeperAudit.

(** ** keeper-signer.ts: Base58 and the configured public key *)

(** [ALPHABET.indexOf(char)]; [None] is -1. *)
Fixpoint alphabet_find (n : nat) (c : Ascii.ascii) : option Z :=
  match n with
  | O => None
  | S n => if bool_decide (alphabet_at (Z.of_nat n) = c) then Some (Z.of_nat n) else alphabet_find n c
  end.

(** [while (temp > 0) { bytes.push(temp & 0xff); temp >>= 8; }]: the carry is
    below 2^16, so two iterations are enough. *)
Fixpoint push_carry (fuel : nat) (temp : Z) : list Z :=
  match fuel with
  | O => []
  | S fuel => if temp <=? 0 then [] else Z.land temp 255 :: push_carry fuel (Z.shiftr temp 8)
  end.

(** Multiplies the little-endian accumulator by 58 and adds. *)
Fixpoint mul58_add (bytes : list Z) (temp : Z) : list Z :=
  match bytes with
  | [] => push_carry 2 temp
  | b :: rest => let temp := temp + b * 58 in Z.land temp 255 :: mul58_add rest (Z.shiftr temp 8)
  end.

Fixpoint base58_loop (value : string) (bytes : list Z) : option (list Z) :=
  match value with
  | EmptyString => Some bytes
  | String c rest =>
      carry ← alphabet_find 58 c;
      base58_loop rest (mul58_add bytes carry)
  end.

(** [value.length - value.replace(/^1+/, "").length] *)
Fixpoint leading_ones (s : string) : nat :=
  match s with
  | String c rest => if bool_decide (c = Ascii.ascii_of_nat 49) then S (leading_ones rest) else 0
  | EmptyString => 0
  end.

Definition base58Decode (value : string) : option (list Z) :=
  bytes ← base58_loop value [];
  Some (replicate (leading_ones value) 0 ++ reverse bytes).

Definition parsePublicKey (value : string) : result (list Z) :=
  let trimmed := trim value in
  if hex_key trimmed then Ok (hex_pairs trimmed)
  else match base58Decode trimmed with
       | Some decoded =>
           if blen decoded =? 32 then Ok decoded else Throw "KEEPER_PUBLIC_KEY must be a 32-byte Solana address"
       | None => Throw "KEEPER_PUBLIC_KEY must be a 32-byte Solana address"
       end.

(** ** keeper-signer.ts: the startup state machine *)

Inductive KeeperSigningState := observation_only | signer_ready | signer_invalid | configuration_blocked.

Record KeeperSigningResolution := mkResolution {
  kr_state : KeeperSigningState; kr_detail : string; kr_signer : option Signer; kr_keyId : option string }.

Record KeeperSigningEnv := mkSigningEnv {
  KEEPER_KEYPAIR_JSON : option string; KEEPER_PUBLIC_KEY : option string; SOLANA_RPC_URL : option string }.

Definition DEVNET_MARKERS : list string := ["devnet"; "localhost"; "127.0.0.1"].

(** A present, non-empty string. *)
Definition present (v : option string) : option string :=
  match v with Some s => if bool_decide (s = EmptyString) then None else Some s | None => None end.

Definition isDevnetOnlyEndpoint (rpcUrl : option string) : bool :=
  match present rpcUrl with
  | None => false
  | Some url =>
      let lower := toLowerCase url in
      if includes "mainnet" lower then false else existsb (fun marker => includes marker lower) DEVNET_MARKERS
  end.

Definition no_signer (state : KeeperSigningState) (detail : string) : KeeperSigningResolution :=
  mkResolution state detail None None.

Section Resolve.
Context (JSON_parse : string -> option json).
Context (ed25519_public : list Z -> list Z) (ed25519_sign : list Z -> list Z -> list Z).

Definition resolveKeeperSigning (env : KeeperSigningEnv) : result KeeperSigningResolution :=
  if negb (isDevnetOnlyEndpoint (SOLANA_RPC_URL env)) then
    Ok (no_signer configuration_blocked
          (match present (SOLANA_RPC_URL env) with
           | Some _ => "SOLANA_RPC_URL is not a recognized devnet endpoint; keeper signing disabled (devnet-only guard)"
           | None => "SOLANA_RPC_URL is not configured; keeper signing disabled"
           end))
  else match present (KEEPER_KEYPAIR_JSON env) with
  | None => Ok (no_signer observation_only "no keeper key material configured; discovery/observation only")
  | Some keypair =>
  match present (KEEPER_PUBLIC_KEY env) with
  | None => Ok (no_signer signer_invalid "KEEPER_PUBLIC_KEY is not configured to validate the loaded key material")
  | Some publicKeyText =>
      let signer := LocalKeypairSigner JSON_parse ed25519_public ed25519_sign "keeper:local-devnet" keypair in
      if negb (health_ok (health signer))
      then Ok (no_signer signer_invalid "keeper key material rejected (redacted; malformed or wrong length)")
      else
        derived ← publicKey signer;
        expected ← parsePublicKey publicKeyText;
        if negb (bool_decide (expected = derived))
        then Ok (no_signer signer_invalid
               "keeper key material does not derive KEEPER_PUBLIC_KEY (redacted; both keys withheld from logs)")
        else Ok (mkResolution signer_ready "keeper signer ready (local devnet material, validated)" (Some signer)
                   (Some "keeper:local-devnet"))
  end
  end.
End Resolve.

(** ** Signers *)

Lemma xor_diff_zero a b diff :
  length a = length b -> xor_diff a b diff = 0 <-> diff = 0 /\ a = b.
Proof.
  revert b diff. induction a as [|x a IH]; intros [|y b] diff Hl; try done; cbn; [tauto|].
  rewrite IH by (cbn in Hl; lia). rewrite Z.lor_eq_0_iff, Z.lxor_eq_0_iff. split; [|intros [-> [= -> ->]]; done].
  by intros [[-> ->] ->].
Qed.

(** The constant-time comparison decides equality. *)
Lemma bytesEqual_eq a b : bytesEqual a b = true <-> a = b.
Proof.
  unfold bytesEqual, blen. destruct (Z.eqb_spec (Z.of_nat (length a)) (Z.of_nat (length b))) as [E|E]; cbn [negb].
  - rewrite Z.eqb_eq, xor_diff_zero by lia. tauto.
  - split; [done|]. by intros ->.
Qed.

Lemma is_ok_fmap {A B} (f : A -> B) (r : result A) : is_ok (f <$> r) = is_ok r.
Proof. by destruct r. Qed.

#[export] Instance web_crypto_contract pub sgn id seed : SignerContract (WebCryptoEd25519Signer pub sgn id seed).
Proof. unfold WebCryptoEd25519Signer. split; cbn; [|intros m]; by destruct (keyMaterial pub seed) as [[]|]. Qed.

#[export] Instance mock_contract id : SignerContract (MockSigner id).
Proof. by split. Qed.

Lemma secret_signer_contract JSON_parse pub sgn secret role s :
  SecretBackedSigner JSON_parse pub sgn secret role = Ok s -> SignerContract s.
Proof.
  unfold SecretBackedSigner. case_match; [done|].
  intros (seed & _ & (expected & _ & [= <-])%result_bind_Ok)%result_bind_Ok.
  split; cbn; [|intros m]; by destruct (secret_state _ _ _ _) as [[]|].
Qed.

Lemma seed_length JSON_parse material seed : seedFromPrivateKeyMaterial JSON_parse material = Ok seed -> blen seed = 32.
Proof.
  unfold seedFromPrivateKeyMaterial. set (t := trim material). destruct (String.prefix "{" t).
  - destruct (jwk_seed JSON_parse t) as [s|] eqn:E; [|done]. intros [= <-]. unfold jwk_seed in E.
    repeat case_match; try done. apply result_bind_Ok in E as (bs & _ & E). case_match eqn:Hl; [done|].
    injection E as <-. by zbool.
  - destruct (der_seed t) as [s|] eqn:E; [|done]. intros [= <-]. unfold der_seed in E.
    apply result_bind_Ok in E as (bs & _ & E). repeat case_match; try done; injection E as <-; zbool; [done|].
    unfold blen in *. rewrite slice_length by (unfold blen; lia). lia.
Qed.

(** A production signer signs only with the configured identity: a signature
    comes out only if the secret was bound to the requested role and its key
    material derives exactly the configured public key; it is the signature of
    that key, and the advertised public key is the configured one. *)
Theorem production_signer_bound JSON_parse pub sgn role secret s m signature :
  createProductionSigner JSON_parse pub sgn role (Some secret) = Ok s -> sign s m = Ok signature ->
  exists seed,
    seedFromPrivateKeyMaterial JSON_parse (sec_privateKeyMaterial secret) = Ok seed
    /\ sec_role secret = role /\ parsePublicKeyString (sec_expectedPublicKey secret) = Ok (pub seed)
    /\ publicKey s = Ok (pub seed) /\ signature = sgn seed m
    /\ keyId s = "production:" +:+ role_string role.
Proof.
  cbn. unfold SecretBackedSigner. case_bool_decide as Hr; [|done]. cbn [negb].
  intros (seed & Hseed & (expected & Hexp & [= <-])%result_bind_Ok)%result_bind_Ok. cbn [sign publicKey keyId].
  set (st := secret_state pub ("production:" +:+ role_string role) seed expected).
  destruct st as [[key pk]|e] eqn:Hst; [|done]. intros Hs. cbn in Hs.
  unfold st, secret_state in Hst. apply result_bind_Ok in Hst as (? & _ & Hst).
  destruct (bytesEqual (pub seed) expected) eqn:Hb; [|done]. apply bytesEqual_eq in Hb.
  cbn in Hst. injection Hst as <- <-. injection Hs as <-. exists seed. by rewrite <- Hb in Hexp.
Qed.

(** Every message a production signer can fail with; none depends on the private
    key material. *)
Definition signer_errors (bound role : SignerRole) (expected : string) : list string :=
  [("signer role mismatch: this secret is bound to " +:+ quoted (role_string bound) +:+ ", not " +:+ quoted (role_string role));
   REDACTED;
   ("signer public key mismatch for " +:+ ("production:" +:+ role_string role) +:+
     ": the imported key does not derive the configured public key -- redacted, not logging either key")]
  ++ match parsePublicKeyString expected with Throw e => [e] | Ok _ => [] end.

(** Redaction: whatever the private key material is, malformed or not, every
    error of the constructor, of [publicKey], of [sign] and of the health check
    is one of four messages fixed by the roles and the configured public key, so
    no failure can reveal a byte of the secret. *)
Theorem signer_errors_redacted JSON_parse pub sgn bound role expected material :
  let secret := mkSecret bound material expected in
  match createProductionSigner JSON_parse pub sgn role (Some secret) with
  | Throw e => e ∈ signer_errors bound role expected
  | Ok s =>
      (forall e, publicKey s = Throw e -> e ∈ signer_errors bound role expected)
      /\ (forall m e, sign s m = Throw e -> e ∈ signer_errors bound role expected)
      /\ (forall e, health_detail (health s) = Some e -> e ∈ signer_errors bound role expected)
  end.
Proof.
  cbv zeta. cbn [createProductionSigner]. unfold SecretBackedSigner, signer_errors. cbn [sec_role sec_privateKeyMaterial sec_expectedPublicKey].
  case_bool_decide as Hr; cbn [negb]; [|set_solver].
  destruct (seedFromPrivateKeyMaterial JSON_parse material) as [seed|e] eqn:Hseed; cbn [mbind result_bind].
  - pose proof (seed_length _ _ _ Hseed) as Hl.
    destruct (parsePublicKeyString expected) as [pk|e]; cbn [mbind result_bind]; [|set_solver].
    set (id := "production:" +:+ role_string role).
    assert (forall e, secret_state pub id seed pk = Throw e ->
      e = "signer public key mismatch for " +:+ id +:+
          ": the imported key does not derive the configured public key -- redacted, not logging either key") as Hst.
    { unfold secret_state, pkcs8FromSeed. rewrite Hl. cbn. intros e. case_match; [by intros [= <-]|done]. }
    cbn [publicKey sign health health_detail].
    destruct (secret_state pub id seed pk) as [[key k]|e]; cbn; [done|]. rewrite (Hst e eq_refl).
    split_and!; intros; simplify_eq; set_solver.
  - unfold seedFromPrivateKeyMaterial in Hseed. repeat case_match; simplify_eq; set_solver.
Qed.

(** ** Base58 *)

#[local] Arguments alphabet_find : simpl never.
#[local] Arguments alphabet_at : simpl never.

Lemma alphabet_find_index c i : alphabet_find 58 c = Some i -> 0 <= i < 58 /\ alphabet_at i = c.
Proof.
  assert (forall n, alphabet_find n c = Some i -> 0 <= i < Z.of_nat n /\ alphabet_at i = c) as H.
  { induction n as [|n IH]; [done|]. unfold alphabet_find; fold alphabet_find. case_bool_decide as E; [intros [= <-]; split; [lia|done]|].
    intros Hi. apply IH in Hi. split; [lia|tauto]. }
  apply H.
Qed.

Lemma alphabet_find_at i : 0 <= i < 58 -> alphabet_find 58 (alphabet_at i) = Some i.
Proof.
  intros Hi. assert (forallb (fun n => bool_decide (alphabet_find 58 (alphabet_at (Z.of_nat n)) = Some (Z.of_nat n)))
    (seq 0 58) = true) as H by (vm_compute; reflexivity).
  rewrite forallb_forall in H. specialize (H (Z.to_nat i)). rewrite Z2Nat.id in H by lia.
  apply bool_decide_eq_true in H; [done|]. apply in_seq. lia.
Qed.

(** A little-endian number without a leading zero byte. *)
Definition canonical (bs : list Z) : Prop := uint8array bs /\ list.last bs ≠ Some 0.

Lemma canonical_nil : canonical [].
Proof. split; [constructor|done]. Qed.

Lemma canonical_cons b bs : is_byte b -> canonical bs -> (bs = [] -> b ≠ 0) -> canonical (b :: bs).
Proof. intros Hb [Hu Hl] Hne. split; [by constructor|]. destruct bs; cbn; [intros [= ->]; by apply Hne|exact Hl]. Qed.

Lemma push_carry_spec temp :
  0 <= temp < 2 ^ 16 -> canonical (push_carry 2 temp) /\ le_combine (push_carry 2 temp) = temp.
Proof.
  intros Ht. cbn [push_carry]. rewrite !land_255. rewrite (Z.shiftr_div_pow2 _ 8) by lia. change (2 ^ 8) with 256.
  pose proof (Z.div_mod temp 256 ltac:(lia)). pose proof (Z.mod_pos_bound temp 256 ltac:(lia)).
  assert (0 <= temp / 256 < 256) by (split; [apply Z.div_pos; lia|apply Z.div_lt_upper_bound; lia]).
  destruct (Z.leb_spec temp 0); [split; [apply canonical_nil|cbn; lia]|].
  destruct (Z.leb_spec (temp / 256) 0); [|rewrite (Z.mod_small (temp / 256)) by lia].
  - split; [|cbn; lia]. split; [by repeat (apply Forall_cons; [unfold is_byte; lia|])|]. cbn. intros [= ?]. lia.
  - split; [|cbn; lia]. split; [by repeat (apply Forall_cons; [unfold is_byte; lia|])|]. cbn. intros [= ?]. lia.
Qed.

(** Multiplying the accumulator keeps it canonical. *)
Lemma mul58_add_spec bytes temp :
  canonical bytes -> 0 <= temp < 256 ->
  canonical (mul58_add bytes temp) /\ le_combine (mul58_add bytes temp) = le_combine bytes * 58 + temp.
Proof.
  revert temp. induction bytes as [|b bytes IH]; intros temp [Hu Hl] Ht.
  { cbn [mul58_add le_combine]. apply push_carry_spec. lia. }
  apply Forall_cons_1 in Hu as [Hb Hu]. unfold is_byte in Hb. cbn [mul58_add le_combine]. cbv zeta.
  rewrite land_255, Z.shiftr_div_pow2 by lia. change (2 ^ 8) with 256.
  pose proof (Z.div_mod (temp + b * 58) 256 ltac:(lia)) as Hdm.
  pose proof (Z.mod_pos_bound (temp + b * 58) 256 ltac:(lia)).
  assert (0 <= (temp + b * 58) / 256 < 256) by (split; [apply Z.div_pos; lia|apply Z.div_lt_upper_bound; lia]).
  assert (canonical bytes) as Hc by (split; [done|]; destruct bytes; [done|exact Hl]).
  destruct (IH ((temp + b * 58) / 256) Hc) as [Hc' Hv]; [lia|]. split; [|lia].
  apply canonical_cons; [done|done|]. intros Hnil.
  destruct bytes as [|b' bytes]; [|done]. rewrite Hnil in Hv. cbn in Hv, Hl.
  assert (b ≠ 0) by (intros ->; by apply Hl). lia.
Qed.

(** A number has one canonical representation. *)
Lemma canonical_zero bs : canonical bs -> le_combine bs = 0 -> bs = [].
Proof.
  intros [Hu Hl] H0. destruct bs as [|x bs _] using rev_ind; [done|]. exfalso.
  apply Forall_app in Hu as [Hu Hx]. apply Forall_cons_1 in Hx as [Hx _]. unfold is_byte in Hx.
  rewrite last_snoc in Hl. assert (x ≠ 0) by congruence.
  assert (forall l, uint8array l -> x <= le_combine (l ++ [x])) as Hge.
  { induction l as [|y l IH]; cbn; intros Hl'; [lia|]. apply Forall_cons_1 in Hl' as [Hy Hl']. unfold is_byte in Hy.
    specialize (IH Hl'). lia. }
  specialize (Hge _ Hu). lia.
Qed.

Lemma canonical_unique a b : canonical a -> canonical b -> le_combine a = le_combine b -> a = b.
Proof.
  revert b. induction a as [|x a IH]; intros b Ha Hb E; [symmetry; by apply canonical_zero|].
  destruct b as [|y b]; [by apply canonical_zero|].
  destruct Ha as [Hua Hla], Hb as [Hub Hlb]. apply Forall_cons_1 in Hua as [Hx Hua], Hub as [Hy Hub].
  unfold is_byte in Hx, Hy. cbn [le_combine] in E. assert (x = y /\ le_combine a = le_combine b) as [-> E'].
  { pose proof (Z.div_mod_unique 256 (le_combine a) (le_combine b) x y). lia. }
  f_equal. apply IH; [|by split; [|destruct b; [|exact Hlb]]|done]. split; [done|]. by destruct a; [|exact Hla].
Qed.

Lemma base58_loop_spec s bytes :
  canonical bytes ->
  match base58_loop s bytes with
  | Some out => canonical out /\ le_combine out = base58_decode (le_combine bytes) s
  | None => True
  end.
Proof.
  revert bytes. induction s as [|c s IH]; intros bytes Hb; cbn [base58_loop base58_decode]; [done|].
  destruct (alphabet_find 58 c) as [i|] eqn:Hf; cbn [mbind option_bind]; [|done].
  apply alphabet_find_index in Hf as [Hi <-]. rewrite alphabet_index_at by done.
  destruct (mul58_add_spec bytes i Hb) as [Hc Hv]; [lia|]. rewrite <- Hv. by apply IH.
Qed.

(** Every character of an encoding is in the alphabet. *)
Lemma base58_loop_total s bytes : (forall c, c ∈ String.list_ascii_of_string s -> is_Some (alphabet_find 58 c)) ->
  is_Some (base58_loop s bytes).
Proof.
  revert bytes. induction s as [|c s IH]; intros bytes H; cbn in *; [by eexists|].
  destruct (H c) as [i ->]; [set_solver|]. cbn. apply IH. set_solver.
Qed.

Lemma base58_digits_chars fuel value out c :
  0 <= value -> c ∈ String.list_ascii_of_string (base58_digits fuel value out) ->
  c ∈ String.list_ascii_of_string out \/ is_Some (alphabet_find 58 c).
Proof.
  revert value out. induction fuel as [|fuel IH]; intros value out Hv; cbn [base58_digits]; [by left|].
  case_match; [by left|]. intros Hc. apply IH in Hc; [|by apply Z.div_pos; lia].
  cbn in Hc. destruct Hc as [[Hc|Hc]%elem_of_cons|Hc]; [right|by left|by right].
  rewrite Hc. rewrite alphabet_find_at by (apply Z.mod_pos_bound; lia). by eexists.
Qed.

(** A positive number's digits start with a non-zero digit. *)
Lemma base58_digits_head fuel value out :
  0 < value < 58 ^ Z.of_nat fuel ->
  exists d rest, base58_digits fuel value out = String (alphabet_at d) rest /\ 0 < d < 58.
Proof.
  revert value out. induction fuel as [|fuel IH]; intros value out Hv; [cbn in *; lia|].
  cbn [base58_digits]. destruct (Z.leb_spec value 0); [lia|].
  destruct (decide (value / 58 = 0)) as [Hz|Hz].
  - rewrite Hz. exists (value mod 58), out. apply Z.div_small_iff in Hz; [|lia]. rewrite Z.mod_small by lia.
    split; [by destruct fuel|lia].
  - rewrite Nat2Z.inj_succ, Z.pow_succ_r in Hv by lia. apply IH. split; [|apply Z.div_lt_upper_bound; lia].
    pose proof (Z.div_pos value 58). lia.
Qed.

Lemma leading_ones_repeat n s : leading_ones (string_repeat (alphabet_at 0) n +:+ s) = (n + leading_ones s)%nat.
Proof.
  induction n as [|n IH]; [done|].
  change (S (leading_ones (string_repeat (alphabet_at 0) n +:+ s)) = S (n + leading_ones s)). by rewrite IH.
Qed.

Lemma leading_ones_digit d rest : 0 < d < 58 -> leading_ones (String (alphabet_at d) rest) = 0%nat.
Proof.
  intros Hd. cbn. case_bool_decide as E; [|done]. change (Ascii.ascii_of_nat 49) with (alphabet_at 0) in E.
  apply (f_equal (alphabet_find 58)) in E. rewrite !alphabet_find_at in E by lia. injection E as E. lia.
Qed.

Lemma string_repeat_chars c d n : c ∈ String.list_ascii_of_string (string_repeat d n) -> c = d.
Proof. induction n as [|n IH]; cbn; [by intros ?%elem_of_nil|]. intros [->|Hc]%elem_of_cons; [done|by apply IH]. Qed.

(** A big-endian number is its leading zeros and its canonical part. *)
Lemma strip_leading_zeros bs :
  uint8array bs ->
  exists hi, bs = replicate (leading_zeros bs) 0 ++ hi /\ canonical (reverse hi).
Proof.
  induction bs as [|b bs IH]; intros Hu; [exists []; split; [done|apply canonical_nil]|]. apply Forall_cons_1 in Hu as Hu'. destruct Hu' as [Hb Hbs].
  cbn [leading_zeros]. destruct (Z.eqb_spec b 0) as [->|Hne].
  - destruct (IH Hbs) as (hi & E & Hc). exists hi. split; [cbn; by f_equal|done].
  - exists (b :: bs). split; [done|]. split; [by apply uint8array_reverse|].
    rewrite reverse_cons, list.last_snoc. congruence.
Qed.

Lemma le_combine_app_zeros l n : le_combine (l ++ replicate n 0) = le_combine l.
Proof.
  induction l as [|x l IH]; cbn; [|by rewrite IH]. induction n as [|n IHn]; cbn; [done|]. rewrite IHn. lia.
Qed.

(** Base58 is lossless: decoding the text that the address encoder produced
    for a byte string, leading zero bytes included, gives exactly that byte
    string back, for every length. *)
Theorem base58_roundtrip bs : uint8array bs -> base58Decode (base58Encode bs) = Some bs.
Proof.
  intros Hu. destruct (strip_leading_zeros bs Hu) as (hi & Ehi & Hhi).
  assert (be_value bs = le_combine (reverse hi)) as Hval.
  { rewrite be_value_le by done. rewrite Ehi at 1. rewrite reverse_app, reverse_replicate. apply le_combine_app_zeros. }
  assert (0 <= be_value bs < 58 ^ Z.of_nat (2 * length bs)) as Hbound by by apply base58_bound.
  unfold base58Decode. assert (is_Some (base58_loop (base58Encode bs) [])) as [out Hout].
  { apply base58_loop_total. intros c Hc. unfold base58Encode in Hc. rewrite list_ascii_of_string_app in Hc.
    apply elem_of_app in Hc as [Hc|Hc].
    - apply string_repeat_chars in Hc as ->. by eexists.
    - apply base58_digits_chars in Hc as [Hc|Hc]; [by apply elem_of_nil in Hc|done|lia]. }
  pose proof (base58_loop_spec (base58Encode bs) [] canonical_nil) as Hspec. rewrite Hout in *.
  cbn [mbind option_bind le_combine] in *. destruct Hspec as [Hc Hv]. rewrite base58Encode_decode in Hv by done.
  f_equal. assert (out = reverse hi) as -> by (apply canonical_unique; [done|done|lia]).
  rewrite reverse_involutive. rewrite Ehi at 2. f_equal. f_equal.
  unfold base58Encode. rewrite leading_ones_repeat. destruct (decide (be_value bs = 0)) as [E0|Hne].
  - rewrite E0. destruct (2 * length bs)%nat; cbn; lia.
  - destruct (base58_digits_head (2 * length bs) (be_value bs) "") as (d & rest & -> & Hd); [lia|].
    rewrite leading_ones_digit by done. lia.
Qed.

Lemma base58_roundtrip_witness : base58Decode (base58Encode [0; 0; 1; 255]) = Some [0; 0; 1; 255].
Proof. apply base58_roundtrip. by apply uint8array_check. Defined.

(** ** Key material *)

Lemma get_char (P : Ascii.ascii -> bool) s n c :
  forallb P (String.list_ascii_of_string s) = true -> String.get n s = Some c -> P c = true.
Proof.
  revert n. induction s as [|d s IH]; intros n Hs Hn; [by destruct n|]. cbn in Hs. zbool.
  destruct n as [|n]; cbn in Hn; [by simplify_eq|by eapply IH].
Qed.

Lemma b64_char_not_brace v : b64_char v ≠ Ascii.ascii_of_nat 123.
Proof.
  unfold b64_char. destruct (String.get (Z.to_nat v) BASE64_ALPHABET) as [c|] eqn:Hc; [|done]. cbn [default from_option id].
  pose (P := fun d => negb (bool_decide (d = Ascii.ascii_of_nat 123))).
  assert (P c = true) as H by (apply (get_char P BASE64_ALPHABET (Z.to_nat v)); [vm_compute; reflexivity|done]).
  intros ->. by vm_compute in H.
Qed.

Lemma prefix_one c d s : c ≠ d -> String.prefix (String d EmptyString) (String c s) = false.
Proof. intros Hne. cbn. by destruct (Ascii.ascii_dec d c) as [->|]. Qed.

Lemma btoa_not_brace bs : bs ≠ [] -> String.prefix "{" (btoa bs) = false.
Proof.
  intros Hne. destruct bs as [|x bs]; [done|]. unfold btoa.
  assert (exists v rest, sextets (x :: bs) = v :: rest) as (v & rest & ->)
    by (destruct bs as [|y [|z bs]]; cbn [sextets]; eauto).
  apply (prefix_one (b64_char v)), b64_char_not_brace.
Qed.

(** Key material is read back exactly: a 32-byte seed stored as Base64,
    whether bare or inside the PKCS8 envelope the module itself builds, is
    parsed to the same seed. *)
Theorem key_material_roundtrip JSON_parse seed :
  uint8array seed -> blen seed = 32 ->
  seedFromPrivateKeyMaterial JSON_parse (btoa seed) = Ok seed
  /\ exists pkcs8, pkcs8FromSeed seed = Ok pkcs8 /\ seedFromPrivateKeyMaterial JSON_parse (btoa pkcs8) = Ok seed.
Proof.
  intros Hu Hl. unfold pkcs8FromSeed. rewrite Hl. cbn [negb Z.eqb Pos.eqb].
  assert (seed ≠ []) as Hne by by intros ->.
  unfold seedFromPrivateKeyMaterial. split.
  - rewrite trim_btoa, btoa_not_brace by done. unfold der_seed, atob_throw. rewrite atob_btoa by done. cbn. by rewrite Hl.
  - eexists. split; [done|].
    assert (uint8array (PKCS8_ED25519_PREFIX ++ seed)) as Hp
      by (apply Forall_app_2; [by apply uint8array_check|done]).
    rewrite trim_btoa, btoa_not_brace by done. unfold der_seed, atob_throw. rewrite atob_btoa by done.
    cbn [mbind result_bind]. assert (blen (PKCS8_ED25519_PREFIX ++ seed) = 48) as Hlen by (rewrite blen_app, Hl; done).
    rewrite Hlen. cbn [Z.eqb Pos.eqb andb].
    assert (slice (PKCS8_ED25519_PREFIX ++ seed) 0 16 = PKCS8_ED25519_PREFIX) as ->
      by (unfold slice; by apply (take_app_length PKCS8_ED25519_PREFIX seed)).
    rewrite bool_decide_eq_true_2 by done. f_equal. unfold slice.
    change (Z.to_nat (48 - 16)) with 32%nat. change (Z.to_nat 16) with (length PKCS8_ED25519_PREFIX).
    rewrite drop_app_length. unfold blen in Hl. apply take_ge. lia.
Qed.

Lemma key_material_roundtrip_witness :
  seedFromPrivateKeyMaterial (fun _ => None) (btoa (replicate 32 7)) = Ok (replicate 32 7).
Proof.
  refine (proj1 (key_material_roundtrip (fun _ => None) (replicate 32 7) _ _)); [|reflexivity].
  by apply uint8array_check.
Defined.

(** ** The transaction audit *)

Lemma omap_id_nil {A} (l : list (option A)) : omap id l = [] <-> forall x, x ∈ l -> x = None.
Proof.
  induction l as [|[a|] l IH]; cbn; [set_solver| |].
  - split; [done|]. intros H. specialize (H (Some a) ltac:(set_solver)). done.
  - rewrite IH. set_solver.
Qed.

(** The audit is sound and complete for the keeper policy: a transaction
    passes exactly when it decodes, every instruction goes to an approved
    program other than the system program, and every instruction of the
    Equinox or Magic program that carries data starts with a permitted opcode. *)
Theorem keeper_audit_spec program decode wire :
  KeeperAudit.audit_ok (KeeperAudit.auditKeeperTransaction program decode wire) = true <->
  exists instructions, decode wire = Some instructions
    /\ forall target data, (target, data) ∈ instructions ->
         target ∈ KeeperAudit.KEEPER_ALLOWED_PROGRAMS program
         /\ target ≠ KeeperAudit.SYSTEM_PROGRAM
         /\ (forall opcodes op rest, KeeperAudit.opcodeAllowlistForProgram program target = Some opcodes ->
               data = op :: rest -> op ∈ opcodes).
Proof.
  unfold KeeperAudit.auditKeeperTransaction. destruct (decode wire) as [instructions|]; cbn; [|naive_solver].
  rewrite bool_decide_eq_true, length_zero_iff_nil, omap_id_nil.
  assert (forall index target data, KeeperAudit.audit_instruction program index (target, data) = None <->
     target ∈ KeeperAudit.KEEPER_ALLOWED_PROGRAMS program /\ target ≠ KeeperAudit.SYSTEM_PROGRAM
     /\ (forall opcodes op rest, KeeperAudit.opcodeAllowlistForProgram program target = Some opcodes ->
               data = op :: rest -> op ∈ opcodes)) as Hone.
  { intros index target data. unfold KeeperAudit.audit_instruction.
    case_bool_decide as H1; cbn [negb]; [|naive_solver]. case_bool_decide as H2; [naive_solver|].
    destruct (KeeperAudit.opcodeAllowlistForProgram program target) as [opcodes|]; [|naive_solver].
    destruct data as [|op rest]; [naive_solver|]. case_bool_decide; naive_solver. }
  split.
  - intros Hall. exists instructions. split; [done|]. intros target data (i & Hi)%list_elem_of_lookup.
    apply (Hone i). apply Hall. apply list_elem_of_lookup. exists i. by rewrite list_lookup_imap, Hi.
  - intros (l & [= <-] & Hall) x (i & Hi)%list_elem_of_lookup. rewrite list_lookup_imap in Hi.
    destruct (instructions !! i) as [[target data]|] eqn:E; [|done]. injection Hi as <-.
    apply Hone, Hall. apply list_elem_of_lookup. eauto.
Qed.

(** The session and cleanup keepers fail the audit: their own instructions
    (pause, resume, close-only, cancel-all) are not on the list of permitted
    opcodes, which names two session-account opcodes instead. *)
Theorem keeper_builders_fail_audit program metas target seat limit ix ix' :
  program ≠ KeeperAudit.SYSTEM_PROGRAM ->
  transitionMarketInstruction program metas target = Ok ix ->
  cancelAllInstruction program metas seat limit 0 = Ok ix' ->
  is_Some (KeeperAudit.audit_instruction program 0 (ix_program ix, ix_data ix))
  /\ is_Some (KeeperAudit.audit_instruction program 0 (ix_program ix', ix_data ix')).
Proof.
  intros Hsys [= <-] (d & Hd & [= <-])%result_bind_Ok. cbn [ix_program ix_data].
  assert (exists rest, d = 5 :: rest) as [rest ->].
  { apply result_bind_Ok in Hd as (w & [= <-] & Hd). apply result_bind_Ok in Hd as (w & [_ ->]%u16_Ok & Hd).
    apply result_bind_Ok in Hd as (w & Hw & [_ ->]%unsigned_Ok). unfold DataWriter.u8 in Hw. case_match; [done|].
    injection Hw as <-. by eexists. }
  unfold KeeperAudit.audit_instruction, KeeperAudit.opcodeAllowlistForProgram.
  rewrite (bool_decide_eq_true_2 (program ∈ _)) by set_solver. rewrite (bool_decide_eq_false_2 (program = _)) by done.
  rewrite (bool_decide_eq_true_2 (program = program)) by done. cbn [negb].
  split; [destruct target|]; (case_bool_decide as H; [exfalso; revert H; vm_compute; set_solver|by eexists]).
Qed.

(** ** The startup state machine *)

Section ResolveProofs.
Context (JSON_parse : string -> option json).
Context (pub : list Z -> list Z) (sgn : list Z -> list Z -> list Z).
#[local] Abbreviation resolve := (resolveKeeperSigning JSON_parse pub sgn).

(** A signer is bound only in the ready state, and then only to validated
    material on a devnet endpoint. *)
Lemma resolve_signer env r :
  resolve env = Ok r ->
  (kr_state r = signer_ready <-> kr_signer r ≠ None)
  /\ forall s, kr_signer r = Some s ->
       isDevnetOnlyEndpoint (SOLANA_RPC_URL env) = true
       /\ exists keypair publicKeyText expected,
            present (KEEPER_KEYPAIR_JSON env) = Some keypair /\ present (KEEPER_PUBLIC_KEY env) = Some publicKeyText
            /\ parsePublicKey publicKeyText = Ok expected /\ s = LocalKeypairSigner JSON_parse pub sgn "keeper:local-devnet" keypair
            /\ publicKey s = Ok expected.
Proof.
  unfold resolveKeeperSigning. destruct (isDevnetOnlyEndpoint _) eqn:Hd; cbn [negb]; [|by intros [= <-]].
  destruct (present (KEEPER_KEYPAIR_JSON env)) as [keypair|] eqn:Hk; [|by intros [= <-]].
  destruct (present (KEEPER_PUBLIC_KEY env)) as [text|] eqn:Hp; [|by intros [= <-]].
  case_match; [by intros [= <-]|].
  intros (derived & Hder & (expected & Hexp & Hr)%result_bind_Ok)%result_bind_Ok.
  case_bool_decide as He; cbn [negb] in Hr; injection Hr as <-; cbn; [|by split].
  split; [done|]. intros s [= <-]. split; [done|]. exists keypair, text, expected. by subst.
Qed.

Lemma resolve_state env r :
  resolve env = Ok r ->
  match isDevnetOnlyEndpoint (SOLANA_RPC_URL env), present (KEEPER_KEYPAIR_JSON env) with
  | false, _ => kr_state r = configuration_blocked
  | true, None => kr_state r = observation_only
  | true, Some _ => kr_state r = signer_ready \/ kr_state r = signer_invalid
  end.
Proof.
  unfold resolveKeeperSigning. destruct (isDevnetOnlyEndpoint _); cbn [negb]; [|by intros [= <-]].
  destruct (present (KEEPER_KEYPAIR_JSON env)) as [keypair|]; [|by intros [= <-]].
  destruct (present (KEEPER_PUBLIC_KEY env)) as [text|]; [|intros [= <-]; by right].
  case_match; [intros [= <-]; by right|].
  intros (derived & _ & (expected & _ & E)%result_bind_Ok)%result_bind_Ok.
  case_match; injection E as <-; [by right|by left].
Qed.

(** The keeper's startup states.  A signer is bound exactly in the ready
    state, and only when the endpoint names a devnet or local host and not
    mainnet, key material and a public key are configured, and the material
    derives exactly that key; that signer is healthy and can sign.  The other
    states are decided in the documented order: a blocked network first, then
    missing material, then invalid material.  The one case outside the state
    machine is a malformed public key next to valid material, which throws. *)
Theorem keeper_signing_states env :
  let blocked := isDevnetOnlyEndpoint (SOLANA_RPC_URL env) = false in
  let material := present (KEEPER_KEYPAIR_JSON env) in
  match resolve env with
  | Ok r =>
      (blocked <-> kr_state r = configuration_blocked)
      /\ (kr_state r = observation_only <-> ~ blocked /\ material = None)
      /\ (kr_state r = signer_ready <-> kr_signer r ≠ None)
      /\ (forall s, kr_signer r = Some s ->
            health_ok (health s) = true /\ (forall m, is_ok (sign s m) = true)
            /\ exists text, present (KEEPER_PUBLIC_KEY env) = Some text /\ publicKey s = parsePublicKey text)
  | Throw e =>
      ~ blocked /\ e = "KEEPER_PUBLIC_KEY must be a 32-byte Solana address"
      /\ exists keypair text, material = Some keypair /\ present (KEEPER_PUBLIC_KEY env) = Some text
           /\ is_ok (local_seed JSON_parse keypair) = true /\ parsePublicKey text = Throw e
  end.
Proof.
  cbv zeta. destruct (resolve env) as [r|e] eqn:Hr.
  - destruct (resolve_signer env r Hr) as [Hready Hsig]. pose proof (resolve_state env r Hr) as Hst.
    split; [|split; [|split; [exact Hready|]]].
    + clear Hsig Hready. destruct (isDevnetOnlyEndpoint _), (present (KEEPER_KEYPAIR_JSON env)); intuition congruence.
    + clear Hsig Hready. destruct (isDevnetOnlyEndpoint _), (present (KEEPER_KEYPAIR_JSON env)); intuition congruence.
    + intros s Hs. destruct (Hsig s Hs) as (_ & keypair & text & expected & _ & Ht & Hp & -> & Hk).
      assert (health_ok (health (LocalKeypairSigner JSON_parse pub sgn "keeper:local-devnet" keypair)) = true) as Hh
        by (rewrite health_public_key, Hk; done).
      split_and!; [done|intros m; by rewrite health_sign|]. exists text. by rewrite Hk, Hp.
  - revert Hr. unfold resolveKeeperSigning. destruct (isDevnetOnlyEndpoint _); cbn [negb]; [|done].
    destruct (present (KEEPER_KEYPAIR_JSON env)) as [k|]; [|done].
    destruct (present (KEEPER_PUBLIC_KEY env)) as [text|]; [|done].
    case_match eqn:Hh; [done|]. zbool. rewrite health_public_key in Hh.
    destruct (publicKey _) as [derived|] eqn:Hk; [|done]. cbn [mbind result_bind].
    destruct (parsePublicKey text) as [expected|e'] eqn:Hp; cbn [mbind result_bind]; [by case_match|].
    intros [= <-]. split; [done|]. split; [unfold parsePublicKey in Hp; repeat case_match; by simplify_eq|].
    exists k, text. split_and!; [done|done| |done].
    unfold LocalKeypairSigner, WebCryptoEd25519Signer, keyMaterial in Hk. cbn in Hk.
    by destruct (local_seed JSON_parse k).
Qed.
End ResolveProofs.

(** ** Witnesses *)

Definition sample_pub (seed : list Z) : list Z := seed.
Definition sample_sgn (seed m : list Z) : list Z := seed ++ m.
Definition sample_seed : list Z := replicate 32 7.

Lemma production_signer_bound_witness :
  exists s, createProductionSigner (fun _ => None) sample_pub sample_sgn role_pyth
              (Some (mkSecret role_pyth (btoa sample_seed) (bytesToHex sample_seed))) = Ok s
    /\ sign s [1] = Ok (sample_seed ++ [1]) /\ publicKey s = Ok sample_seed.
Proof.
  eexists. split; [vm_compute; reflexivity|]. split; [vm_compute; reflexivity|].
  destruct (production_signer_bound (fun _ => None) sample_pub sample_sgn role_pyth
    (mkSecret role_pyth (btoa sample_seed) (bytesToHex sample_seed)) _ [1] (sample_seed ++ [1]) eq_refl)
    as (seed & Hseed & _ & _ & Hk & _); [vm_compute; reflexivity|].
  vm_compute in Hseed. injection Hseed as <-. exact Hk.
Defined.

(** A malformed configured key is not reported as an invalid signer: the
    resolution throws, and every caller of it fails with it. *)
Example malformed_public_key_throws :
  resolveKeeperSigning (fun _ => None) sample_pub sample_sgn
    (mkSigningEnv (Some (btoa sample_seed)) (Some "not-a-key") (Some "https://api.devnet.solana.com"))
  = Throw "KEEPER_PUBLIC_KEY must be a 32-byte Solana address".
Proof. vm_compute. reflexivity. Qed.
