(* ===== verification/KeeperRuntime.v ===== *)
(** * The keeper runtime

    workers/src/keeper-config.ts (classification, the orchestrator's
    dependencies built from the environment, the startup sequence) and
    [runKeeperOrchestrationTick] of workers/src/index.ts: how the signing state
    machine, the Pyth source, the transaction builders and the scheduled run
    are put together. *)

From S2P Require Import Prelude Json Bytes ExecutionStatus Repositories V3Market MarkPrice PrivateSessions Risk Keepers Orchestrator EventDecoder Transactions PythStream Signers.

(** The bindings the keeper path reads. *)
Record RuntimeEnv := mkRuntimeEnv {
  re_DB : bool;
  re_signing : KeeperSigningEnv;
  re_MAGIC_ROUTER_URL : option string; re_MAGICBLOCK_RPC_URL : option string;
  re_PYTH_PRO_API_KEY : option string; re_PYTH_PRO_ENDPOINTS : option string;
  re_PYTH_PRO_FEED_ID : option string; re_PYTH_PRO_MIN_CHANNEL : option string }.

Inductive KeeperHealthState := health_ready | health_configuration_blocked.

Record KeeperConfigHealth := mkConfigHealth {
  ch_pyth : KeeperHealthState; ch_signer : KeeperHealthState; ch_magicRouter : KeeperHealthState }.

Definition DEFAULT_PYTH_PRO_ENDPOINTS : list string :=
  ["wss://pyth-lazer-0.dourolabs.app/v1/stream"; "wss://pyth-lazer-1.dourolabs.app/v1/stream";
   "wss://pyth-lazer-2.dourolabs.app/v1/stream"].

(** [(env.PYTH_PRO_ENDPOINTS ?? "").split(",").map(trim).filter(Boolean)], or the
    defaults when nothing is left. *)
Definition pyth_endpoints (env : RuntimeEnv) : list string :=
  let endpoints := filter (fun s => s ≠ EmptyString)
                     (trim <$> split_char (Ascii.ascii_of_nat 44) (default EmptyString (re_PYTH_PRO_ENDPOINTS env))) in
  match endpoints with [] => DEFAULT_PYTH_PRO_ENDPOINTS | _ => endpoints end.

Definition pyth_config (env : RuntimeEnv) : PythProClientConfig :=
  mkPythConfig (re_PYTH_PRO_API_KEY env) (pyth_endpoints env) (default EmptyString (re_PYTH_PRO_FEED_ID env))
    (default "fixed_rate@200ms" (re_PYTH_PRO_MIN_CHANNEL env)).

Definition ready_if (b : bool) : KeeperHealthState := if b then health_ready else health_configuration_blocked.
Definition is_present (v : option string) : bool := match present v with Some _ => true | None => false end.

Definition classifyKeeperConfiguration (env : RuntimeEnv) : KeeperConfigHealth :=
  mkConfigHealth (ready_if (pythSourceHealth (pyth_config env)))
    (ready_if (is_present (KEEPER_KEYPAIR_JSON (re_signing env)) && is_present (KEEPER_PUBLIC_KEY (re_signing env))))
    (ready_if (is_present (re_MAGIC_ROUTER_URL env) || is_present (re_MAGICBLOCK_RPC_URL env))).

Definition DEFAULT_CALENDAR : CalendarConfig := mkCalendar "America/New_York" "04:00" "09:30" "16:00" "20:00" [] ∅.

Definition DEFAULT_FUNDING_POLICY : FundingPolicy := mkFundingPolicy (60 * 60 * 1000) 75 1000000.

(** The chain as the deployment sees it through its two endpoints, the registry
    table and the libraries around them. *)
Record Platform := mkPlatform {
  pf_transports : string -> string -> Keepers.Env;
  pf_accounts : string -> World -> MultipleAccounts;
  pf_registry : list MarketRegistryRow;
  pf_base58 : list Z -> string;
  pf_formatToParts : string -> Z -> DateParts;
  pf_programId : string;
  pf_compile_and_sign : option Signer -> list Instruction -> string -> result string }.

Definition meta (address : string) : AccountMeta := mkMeta address role_readonly.

Definition buildersFor (pf : Platform) (signer : option Signer) (authority marketPda : string) : result OrchestratorBuilders :=
  let context := mkContext (pf_programId pf) marketPda authority in
  let compile := pf_compile_and_sign pf signer in
  placeholder ← reconcileVaultInstruction (pf_programId pf) [meta authority];
  Ok (mkBuilders
        (pythKeeperBuilder compile context [meta authority] placeholder)
        (magicBlockCommitKeeperBuilder compile context)
        (fundingKeeperBuilder compile context)
        (sessionKeeperBuilder compile context)
        (cleanupKeeperBuilder compile context 0)
        (liquidationKeeperBuilder compile context)).

(** [a ?? b] *)
Definition coalesce (a b : option string) : option string := match a with Some _ => a | None => b end.

Definition buildOrchestratorDeps (pf : Platform) (env : RuntimeEnv) (signer : option Signer)
    (keeperPublicKey : option string) (pythPool : option PythLazerPool) : option OrchestratorDeps :=
  match re_DB env, present (SOLANA_RPC_URL (re_signing env)) with
  | true, Some rpc =>
      let erUrl := default rpc (coalesce (re_MAGIC_ROUTER_URL env) (re_MAGICBLOCK_RPC_URL env)) in
      let authority := coalesce keeperPublicKey (KEEPER_PUBLIC_KEY (re_signing env)) in
      let pythSource :=
        match pythPool with
        | Some pool =>
            if pythSourceHealth (pyth_config env) then Some (createLivePythUpdateSource (pyth_config env) pool) else None
        | None => None
        end in
      Some (mkOrchestratorDeps (pf_transports pf rpc erUrl) (pf_registry pf) (pf_accounts pf rpc) (pf_base58 pf)
              (pf_formatToParts pf) (match signer with Some _ => true | None => false end)
              (match present authority with
               | Some authority => buildersFor pf signer authority
               | None => fun _ => Throw "no keeper public key configured"
               end)
              pythSource
              (list_to_map ((fun row => (mr_marketPda row, DEFAULT_CALENDAR)) <$> loadMarketRegistry (pf_registry pf)))
              ∅ DEFAULT_FUNDING_POLICY "scheduled-worker" DEFAULT_LIMITS)
  | _, _ => None
  end.

Section Runtime.
Context (JSON_parse : string -> option json).
Context (ed25519_public : list Z -> list Z) (ed25519_sign : list Z -> list Z -> list Z).
Context (pf : Platform).

Definition startKeeperRuntime (env : RuntimeEnv) (pythPool : option PythLazerPool)
    : result (KeeperSigningResolution * option OrchestratorDeps) :=
  resolution ← resolveKeeperSigning JSON_parse ed25519_public ed25519_sign (re_signing env);
  Ok (resolution, buildOrchestratorDeps pf env (kr_signer resolution) (KEEPER_PUBLIC_KEY (re_signing env)) pythPool).

Record TickResult := mkTick {
  tick_ran : bool; tick_reason : option string; tick_summary : option OrchestratorRunSummary;
  tick_signerState : option KeeperSigningState }.

(** [runKeeperOrchestrationTick] *)
Definition runKeeperOrchestrationTick (env : RuntimeEnv) (runId : string) : eff World TickResult :=
  runtime ← eff_lift (startKeeperRuntime env None);
  let '(resolution, deps) := runtime in
  let proceed := match kr_state resolution with signer_ready | Signers.observation_only => true | _ => false end in
  if negb proceed then mret (mkTick false (Some (kr_detail resolution)) None (Some (kr_state resolution)))
  else match deps with
  | None => mret (mkTick false (Some "RPC endpoint not configured") None (Some (kr_state resolution)))
  | Some deps =>
      summary ← Orchestrator.run deps runId;
      mret (mkTick true None (Some summary) (Some (kr_state resolution)))
  end.
End Runtime.

(** ** Gating *)

Lemma deps_signer pf env signer key pool deps :
  buildOrchestratorDeps pf env signer key pool = Some deps ->
  od_signer deps = match signer with Some _ => true | None => false end
  /\ (pool = None -> od_pythSource deps = None).
Proof. unfold buildOrchestratorDeps. repeat case_match; intros [= <-]; cbn; split; [done|naive_solver..|done|naive_solver]. Qed.

Section RuntimeProofs.
Context (JSON_parse : string -> option json).
Context (pub : list Z -> list Z) (sgn : list Z -> list Z -> list Z).
Context (pf : Platform).
#[local] Abbreviation resolve := (resolveKeeperSigning JSON_parse pub sgn).
#[local] Abbreviation tick := (runKeeperOrchestrationTick JSON_parse pub sgn pf).

(** C7. The scheduled keeper tick submits only through the validated boundary.
    When the signing state is blocked or invalid the tick does nothing at all;
    without key material it only observes (apart from the scheduler lease the
    database is unchanged, nothing is sent); if anything was sent, the endpoint
    is a devnet one and the signer's key is exactly the configured public
    key. *)
Theorem keeper_tick_gated env runId w :
  let '(w', r) := runKeeperOrchestrationTick JSON_parse pub sgn pf env runId w in
  match resolve (re_signing env) with
  | Throw e => (w', r) = (w, Throw e)
  | Ok resolution =>
      match kr_state resolution with
      | configuration_blocked | signer_invalid =>
          (w', r) = (w, Ok (mkTick false (Some (kr_detail resolution)) None (Some (kr_state resolution))))
      | Signers.observation_only => observed_run w w'
      | signer_ready => True
      end
  end
  /\ (sent w' ≠ sent w ->
      isDevnetOnlyEndpoint (SOLANA_RPC_URL (re_signing env)) = true
      /\ exists resolution s text, resolve (re_signing env) = Ok resolution /\ kr_signer resolution = Some s
           /\ present (KEEPER_PUBLIC_KEY (re_signing env)) = Some text /\ publicKey s = parsePublicKey text).
Proof.
  destruct (tick env runId w) as [w' r] eqn:Ht. revert Ht.
  unfold runKeeperOrchestrationTick, startKeeperRuntime. run_eff.
  destruct (resolve (re_signing env)) as [resolution|e] eqn:Hr; [|intros [= <- <-]; by split].
  destruct (resolve_signer JSON_parse pub sgn _ _ Hr) as [Hready Hsig].
  set (deps := buildOrchestratorDeps _ _ _ _ _). intros Ht.
  assert (kr_signer resolution = None -> observed_run w w') as Hobs.
  { intros Hnone. assert (observed_run w w) as Hrefl by (split; [done|by destruct (db w)]). revert Ht.
    destruct (kr_state resolution); cbn [negb]; try (intros [= <- <-]; exact Hrefl).
    all: destruct deps as [deps'|] eqn:Hd; [|intros [= <- <-]; exact Hrefl].
    all: subst deps; apply deps_signer in Hd as [Hs _]; rewrite Hnone in Hs;
      pose proof (unsigned_run_observes deps' runId w Hs) as Hrun;
      destruct (Orchestrator.run deps' runId w) as [w1 [s|e]]; cbn in Hrun; intros [= <- <-]; exact Hrun. }
  split.
  - destruct (kr_state resolution) eqn:Hst; [|done|by injection Ht as <- <-|by injection Ht as <- <-].
    apply Hobs. destruct (kr_signer resolution); [|done]. by destruct Hready as [_ Hready]; discriminate Hready.
  - intros Hsent. destruct (kr_signer resolution) as [s|] eqn:Hs; [|by destruct (Hobs eq_refl)].
    destruct (Hsig s eq_refl) as (Hdev & keypair & text & expected & _ & Htext & Hp & -> & Hk).
    split; [done|]. eexists resolution, _, text. split_and!; [done|done|done|]. by rewrite Hk, Hp.
Qed.

(** Without a Pyth source, a market's report never carries another Pyth outcome. *)
Definition pyth_blocked (m : MarketRunResult) : Prop :=
  rr_pyth m = None \/ rr_pyth m = Some (idle "configuration_blocked: no PYTH_PRO_API_KEY configured").

Lemma run_market_pyth_blocked deps market w w' m :
  od_pythSource deps = None -> run_market_caught deps market w = (w', Ok m) -> pyth_blocked m.
Proof.
  intros Hp. unfold run_market_caught, eff_catch. destruct (runMarket deps market w) as [w1 [r|e]] eqn:Hr;
    intros [= <- <-]; [|by left]. right. revert Hr. unfold runMarket.
  rewrite eff_bind_Ok. intros (w2 & now & _ & Hr). unfold pyth_step in Hr. rewrite Hp in Hr.
  apply eff_bind_Ok in Hr as (? & ? & [= <- <-] & Hr). do 5 (apply eff_bind_Ok in Hr as (? & ? & _ & Hr)).
  by injection Hr as <- <-.
Qed.

Lemma run_markets_pyth_blocked deps markets w w' ms :
  od_pythSource deps = None -> run_markets deps markets w = (w', Ok ms) -> Forall pyth_blocked ms.
Proof.
  intros Hp. revert w w' ms. induction markets as [|market rest IH]; intros w w' ms; cbn; [by intros [= <- <-]|].
  intros (w1 & m & Hm & (w2 & rs & Hrs & [= <- <-])%eff_bind_Ok)%eff_bind_Ok.
  constructor; [by eapply run_market_pyth_blocked|by eapply IH].
Qed.

(** The scheduled path never wires the live pool into the runtime: whatever
    credentials are configured, no market of any scheduled run consumes a Pyth
    update, and every one reports a missing API key. *)
Theorem scheduled_pyth_never_runs env runId w w' t summary :
  tick env runId w = (w', Ok t) -> tick_summary t = Some summary -> Forall pyth_blocked (rs_results summary).
Proof.
  unfold runKeeperOrchestrationTick, startKeeperRuntime.
  intros (w1 & [resolution deps] & Hrt & H)%eff_bind_Ok Hsum.
  unfold eff_lift in Hrt. injection Hrt as <- Hrt. apply result_bind_Ok in Hrt as (r & _ & [= <- <-]).
  destruct (negb _); [by injection H as <- <-|].
  destruct (buildOrchestratorDeps _ _ _ _ _) as [deps|] eqn:Hd; [|by injection H as <- <-].
  apply deps_signer in Hd as [_ Hp]. specialize (Hp eq_refl).
  apply eff_bind_Ok in H as (w2 & s & Hs & [= <- <-]). injection Hsum as <-. revert Hs.
  unfold Orchestrator.run. intros (w3 & now & _ & (w4 & lease & _ & Hs)%eff_bind_Ok)%eff_bind_Ok.
  destruct lease as [lease|]; [|by injection Hs as <- <-]. unfold eff_finally in Hs.
  destruct (run_all deps runId w4) as [w5 r5] eqn:Hall. case_match. case_match; [|done]. injection Hs as <- ->.
  unfold run_all in Hall. apply eff_bind_Ok in Hall as (w6 & w7 & _ & Hall).
  destruct (discoverActiveMarkets _ _ _ _) as [markets errors].
  apply eff_bind_Ok in Hall as (w8 & results & Hres & [= <- <-]). by eapply run_markets_pyth_blocked.
Qed.
End RuntimeProofs.

(** ** A ready deployment *)

Definition sample_platform : Platform := mkPlatform (fun _ _ => sample_env)
  (fun _ _ _ => Ok (7, [Some (mkAccount "p" (Some sample_header))])) [sample_row] (fun _ => "a") sample_parts
  "program" (fun _ _ _ => Ok "tx").

Definition sample_runtime_env (url : string) : RuntimeEnv :=
  mkRuntimeEnv true (mkSigningEnv (Some (btoa sample_seed)) (Some (bytesToHex sample_seed)) (Some url))
    None None (Some "key") None (Some "922") None.

(** With validated material on devnet the tick submits; the same environment
    pointed at mainnet is blocked and sends nothing. *)
Example ready_tick_submits :
  let tick url := runKeeperOrchestrationTick (fun _ => None) sample_pub sample_sgn sample_platform
                    (sample_runtime_env url) "run" sample_delegated in
  sent (fst (tick "https://api.devnet.solana.com")) ≠ []
  /\ sent (fst (tick "https://api.mainnet-beta.solana.com")) = [].
Proof. vm_compute. done. Qed.

Lemma scheduled_pyth_never_runs_witness :
  let t := runKeeperOrchestrationTick (fun _ => None) sample_pub sample_sgn sample_platform
             (sample_runtime_env "https://api.devnet.solana.com") "run" sample_delegated in
  exists summary, match snd t with Ok t => tick_summary t | Throw _ => None end = Some summary
    /\ length (rs_results summary) = 1%nat /\ Forall pyth_blocked (rs_results summary)
    /\ ch_pyth (classifyKeeperConfiguration (sample_runtime_env "https://api.devnet.solana.com")) = health_ready.
Proof.
  cbv zeta. destruct (runKeeperOrchestrationTick _ _ _ _ _ _ _) as [w' [t|e]] eqn:Ht;
    [|exfalso; revert Ht; vm_compute; discriminate].
  destruct (tick_summary t) as [summary|] eqn:Hs.
  - exists summary. split; [exact Hs|]. split; [|split; [|vm_compute; reflexivity]].
    + revert Ht Hs. vm_compute. intros [= _ <-] [= <-]. reflexivity.
    + exact (scheduled_pyth_never_runs _ _ _ _ _ _ _ _ _ _ Ht Hs).
  - exfalso. revert Ht Hs. vm_compute. intros [= _ <-]. discriminate.
Defined.
