(* ===== verification/ClientInstructions.v ===== *)
(** * Instruction builders of the client library

    clients/equinox/src/abi: every instruction the browser and the scripts
    build (transaction.ts, v3.ts derivations, v3-instructions.ts,
    order-instructions.ts, session-instructions.ts, registry-instructions.ts,
    custody-instructions.ts, magicblock-instructions.ts, oracle-instructions.ts,
    exchange-config-instructions.ts), written as the source writes them: stores
    into a preallocated array at fixed offsets.  A web3.js [PublicKey] is its 32
    bytes; parsing a textual key and deriving a program address belong to
    web3.js and are parameters.  ClientEquivalence relates the builders to the
    encoders of the worker and to the relayer's checks. *)

From S2P Require Import Prelude Bytes ExecutionStatus V3Market Transactions Relay.

(** ** transaction.ts *)

Definition PublicKey := list Z.

Inductive AddressInput := addr_key (k : PublicKey) | addr_text (s : string).

(** The web3.js functions, and the program id of the deployment manifest. *)
Record Web3 := mkWeb3 {
  new_PublicKey : string -> option PublicKey;
  findProgramAddressSync : list (list Z) -> PublicKey -> PublicKey;
  toBase58 : PublicKey -> string;
  EQUINOX_PROGRAM_KEY : PublicKey }.

(** [SystemProgram.programId]: 32 zero bytes. *)
Definition SystemProgram_programId : AddressInput := addr_key (replicate 32 0).

(** An optional address that is present and not the empty string. *)
Definition given (a : option AddressInput) : option AddressInput :=
  match a with
  | Some (addr_text s) => if bool_decide (s = "") then None else a
  | _ => a
  end.

Record ClientMeta := mkClientMeta { pubkey : PublicKey; isSigner : bool; isWritable : bool }.

Record TransactionInstruction := mkTransactionInstruction {
  ti_programId : PublicKey; ti_keys : list ClientMeta; ti_data : list Z }.

(** [Buffer.from(text)] of an ASCII string. *)
Definition ascii_bytes (s : string) : list Z := (fun c => Z.of_N (Ascii.N_of_ascii c)) <$> String.list_ascii_of_string s.

(** [new Uint8Array(n)], [data.set(bytes, off)] and the little-endian setters of
    a [DataView], at offsets inside the array. *)
Definition new_Uint8Array (n : nat) : list Z := replicate n 0.
Definition set_bytes (data : list Z) (off : Z) (bs : list Z) : list Z := list_inserts (Z.to_nat off) bs data.
Definition setUint16 (data : list Z) (off v : Z) : list Z := writeUnsigned data off v 2.
Definition setUint32 (data : list Z) (off v : Z) : list Z := writeUnsigned data off v 4.
Definition setInt32 (data : list Z) (off v : Z) : list Z := writeUnsigned data off v 4.
Definition setBigUint64 (data : list Z) (off v : Z) : list Z := writeUnsigned data off v 8.

(** ** instructions.ts: the opcodes the worker does not share *)
Module CLIENT_OPCODE.
Definition initializeMarket : Z := 0.
Definition createTraderSeat : Z := 1.
Definition closeTraderSeat : Z := 2.
Definition initializeSettlementScratch : Z := 8.
Definition initializeExchange : Z := 19.
Definition registerStockInstrument : Z := 20.
Definition createPerpMarket : Z := 21.
Definition updateStockInstrument : Z := 22.
Definition suspendStockInstrument : Z := 23.
Definition updateMarketRisk : Z := 24.
Definition enterCorporateAction : Z := 28.
Definition resolveCorporateAction : Z := 29.
Definition closeMarket : Z := 30.
Definition updateExchangeConfig : Z := 40.
Definition delegateClusterMember : Z := 41.
Definition createV3Account : Z := 46.
Definition initializeV3Market : Z := 47.
Definition delegateV3Account : Z := 48.
Definition createV3TraderSeat : Z := 49.
Definition closeV3TraderSeat : Z := 50.
Definition requestV3Undelegation : Z := 51.
Definition rollbackV3Undelegation : Z := 52.
Definition createV3VaultAccount : Z := 56.
Definition createV3TradingSession : Z := 57.
Definition updateOracleSnapshotV3 : Z := 58.
Definition createOracleSnapshotV3 : Z := 59.
Definition depositToInboxV3 : Z := 60.
Definition claimInboxDepositV3 : Z := 61.
Definition requestWithdrawalV3 : Z := 62.
Definition claimWithdrawalV3 : Z := 63.
End CLIENT_OPCODE.

(** constants.ts *)
Definition DELEGATION_PROGRAM : string := "DELeGGvXpWV2fqJUhqcF5ZSYMS4JTLjteaAMARRSaeSh".
Definition MAGIC_PROGRAM : string := "Magic11111111111111111111111111111111111111".
Definition MAGIC_CONTEXT : string := "MagicContext1111111111111111111111111111111".

Inductive V3AccountKind := kind_core | kind_book_page | kind_seat_shard | kind_event_shard.

Inductive SelfTradeBehavior := stp_abort | stp_cancel_provide | stp_decrement_take.

Definition selfTradeBits (value : option SelfTradeBehavior) : Z :=
  match default stp_abort value with
  | stp_abort => 0
  | stp_cancel_provide => Z.shiftl 1 3
  | stp_decrement_take => Z.shiftl 2 3
  end.

Record V3ExecutionAccounts := mkExecution {
  core : AddressInput; bookPages : list AddressInput; seatShards : list AddressInput; eventShards : list AddressInput;
  authority : AddressInput; session : option AddressInput; oracleSnapshot : option AddressInput }.

(** The order fields of [PlaceOrderParams] and [V3OrderParams]. *)
Record OrderParams := mkOrderParams {
  seatIndex : numeric; side : Side; tree : option OrderTree; quantity : numeric; priceOrOffset : numeric;
  expiresAt : option numeric; pegLimit : option numeric; clientOrderId : numeric; actionNonce : option numeric;
  postOnly : bool; immediateOrCancel : bool; reduceOnly : bool; selfTradeBehavior : option SelfTradeBehavior }.

(** The session limits of both session modules. *)
Record TradingSessionPolicy := mkPolicy {
  tp_seatIndex : numeric; tp_actions : numeric; tp_maxOrderNotional : numeric; tp_maxCumulativeNotional : numeric;
  tp_maximumExposure : numeric; tp_maximumOpenOrders : numeric }.

(** [n !== 0] for a number or a bigint: only the number 0 is equal to 0. *)
Definition is_number_zero (n : numeric) : bool := match n with Num z => z =? 0 | _ => false end.

(** [Number.isInteger(n)] of a number, with its value. *)
Definition as_integer (n : numeric) : option Z := match n with Num z => Some z | _ => None end.

Definition integer_between (lo hi : Z) (n : numeric) : bool :=
  match as_integer n with Some z => (lo <=? z) && (z <=? hi) | None => false end.

Section Client.
Context (web3 : Web3).

Definition publicKey (value : AddressInput) : result PublicKey :=
  match value with
  | addr_key k => Ok k
  | addr_text s => match new_PublicKey web3 s with Some k => Ok k | None => Throw "Invalid Solana public key" end
  end.

Definition accountMeta (a : AddressInput) (signer writable : bool) : result ClientMeta :=
  k ← publicKey a; Ok (mkClientMeta k signer writable).

(** An array literal of [accountMeta] calls. *)
Definition metas (l : list (AddressInput * bool * bool)) : result (list ClientMeta) :=
  mapR (fun '(a, signer, writable) => accountMeta a signer writable) l.

Definition instruction (data : list Z) (keys : result (list ClientMeta)) : result TransactionInstruction :=
  ks ← keys; Ok (mkTransactionInstruction (EQUINOX_PROGRAM_KEY web3) ks data).

(** Rows of an account list: writable, read-only, signers. *)
Definition w_ (a : AddressInput) : AddressInput * bool * bool := (a, false, true).
Definition r_ (a : AddressInput) : AddressInput * bool * bool := (a, false, false).
Definition s_ (a : AddressInput) : AddressInput * bool * bool := (a, true, false).
Definition sw_ (a : AddressInput) : AddressInput * bool * bool := (a, true, true).
Definition optional {A B} (f : A -> B) (a : option A) : list B := match a with Some a => [f a] | None => [] end.

(** ** v3.ts: derived addresses *)

Definition find (seeds : list (list Z)) : PublicKey := findProgramAddressSync web3 seeds (EQUINOX_PROGRAM_KEY web3).

Definition deriveMarketCoreV3 (instrument : PublicKey) : PublicKey := find [ascii_bytes "market-v3"; instrument].

Definition deriveBookPageV3 (market : PublicKey) (side page : Z) : result PublicKey :=
  _ ← throw_if ((side <? 0) || (1 <? side) || (page <? 0) || (9 <=? page)) "invalid V3 book page";
  Ok (find [ascii_bytes "book-page-v3"; market; [side]; [page]]).

Definition deriveSeatShardV3 (market : PublicKey) (shard : Z) : result PublicKey :=
  _ ← throw_if ((shard <? 0) || (4 <=? shard)) "invalid V3 seat shard";
  Ok (find [ascii_bytes "seat-shard-v3"; market; [shard]]).

Definition deriveEventShardV3 (market : PublicKey) (shard : Z) : result PublicKey :=
  _ ← throw_if ((shard <? 0) || (4 <=? shard)) "invalid V3 event shard";
  Ok (find [ascii_bytes "event-shard-v3"; market; [shard]]).

Definition deriveOracleSnapshotV3 (core : PublicKey) : PublicKey := find [ascii_bytes "oracle-snapshot-v3"; core].

Definition deriveTradingSession (owner market : AddressInput) (seatIndex : numeric) (sessionSigner : AddressInput)
    : result PublicKey :=
  seat ← checkedUnsigned seatIndex 16 "seatIndex";
  owner ← publicKey owner; market ← publicKey market; signer ← publicKey sessionSigner;
  Ok (find [ascii_bytes "trading_session"; owner; market; setUint16 (new_Uint8Array 2) 0 seat; signer]).

Definition deriveV3ExecutionAccounts (core authority : AddressInput) (session : option AddressInput)
    : result V3ExecutionAccounts :=
  market ← publicKey core;
  pages ← mapR (fun flat => deriveBookPageV3 market (flat / 9) (flat mod 9)) (seqZ 0 18);
  seats ← mapR (deriveSeatShardV3 market) (seqZ 0 4);
  events ← mapR (deriveEventShardV3 market) (seqZ 0 4);
  Ok (mkExecution core (addr_key <$> pages) (addr_key <$> seats) (addr_key <$> events) authority (given session) None).

(** ** v3-instructions.ts *)

Definition bundle_complete (accounts : V3ExecutionAccounts) : bool :=
  len_is 18 (bookPages accounts) && len_is 4 (seatShards accounts) && len_is 4 (eventShards accounts).

(** The 27 accounts of the bundle: core, pages, seat and event shards. *)
Definition bundle_rows (accounts : V3ExecutionAccounts) : list (AddressInput * bool * bool) :=
  w_ (core accounts) :: (w_ <$> bookPages accounts) ++ (w_ <$> seatShards accounts) ++ (w_ <$> eventShards accounts).

Definition v3ExecutionMetas (accounts : V3ExecutionAccounts) : result (list ClientMeta) :=
  _ ← throw_if (negb (bundle_complete accounts)) "V3 execution requires 18 book pages, 4 seat shards and 4 event shards";
  metas (bundle_rows accounts ++ [s_ (authority accounts)] ++ optional w_ (given (session accounts))
         ++ optional r_ (given (oracleSnapshot accounts))).

(** [const { session, sessionSigner, oracleSnapshot, ...rest } = accounts] *)
Definition without_session (a : V3ExecutionAccounts) : V3ExecutionAccounts :=
  mkExecution (core a) (bookPages a) (seatShards a) (eventShards a) (authority a) None None.
Definition without_snapshot (a : V3ExecutionAccounts) : V3ExecutionAccounts :=
  mkExecution (core a) (bookPages a) (seatShards a) (eventShards a) (authority a) (session a) None.

(** [metas[metas.length - 1] = meta] on a non-empty array. *)
Definition set_last {A} (x : A) (l : list A) : list A := take (length l - 1) l ++ [x].

Record V3SessionAuthorizationAccounts := mkSessionAuthorization {
  sa_execution : V3ExecutionAccounts; sa_session : AddressInput; sa_sessionSigner : AddressInput }.

(** The 46-byte payload of the session-limit instructions. *)
Definition session_data_v3 (opcode : Z) (expiresAt : numeric) (policy : TradingSessionPolicy) : result (list Z) :=
  let data := store_byte (new_Uint8Array 46) 0 opcode in
  seat ← checkedUnsigned (tp_seatIndex policy) 16 "seatIndex"; let data := setUint16 data 1 seat in
  exp ← checkedUnsigned expiresAt 64 "expiresAt"; let data := writeUnsigned data 3 exp 8 in
  actions ← checkedUnsigned (tp_actions policy) 8 "actions"; let data := store_byte data 11 actions in
  order ← checkedUnsigned (tp_maxOrderNotional policy) 64 "maxOrderNotional"; let data := writeUnsigned data 12 order 8 in
  cumul ← checkedUnsigned (tp_maxCumulativeNotional policy) 64 "maxCumulativeNotional";
  let data := writeUnsigned data 20 cumul 8 in
  exposure ← checkedSigned (tp_maximumExposure policy) 128 "maximumExposure"; let data := writeSigned data 28 exposure 16 in
  open ← checkedUnsigned (tp_maximumOpenOrders policy) 16 "maximumOpenOrders";
  Ok (setUint16 data 44 open).

Definition authorizeTradingSessionV3 (a : V3SessionAuthorizationAccounts) (expiresAt : numeric)
    (policy : TradingSessionPolicy) : result TransactionInstruction :=
  data ← session_data_v3 OPCODE.authorizeTradingSession expiresAt policy;
  ms ← v3ExecutionMetas (without_session (sa_execution a));
  owner ← accountMeta (authority (sa_execution a)) true true;
  more ← metas ([w_ (sa_session a); r_ (sa_sessionSigner a); r_ SystemProgram_programId]
                ++ optional r_ (given (oracleSnapshot (sa_execution a))));
  instruction data (Ok (set_last owner ms ++ more)).

Definition seat_data (opcode : Z) (seatIndex : numeric) : result (list Z) :=
  let data := store_byte (new_Uint8Array 3) 0 opcode in
  seat ← checkedUnsigned seatIndex 16 "seatIndex"; Ok (writeUnsigned data 1 seat 2).

Definition createV3TradingSession (core authority session sessionSigner : AddressInput) (seatIndex : numeric)
    : result TransactionInstruction :=
  data ← seat_data CLIENT_OPCODE.createV3TradingSession seatIndex;
  instruction data (metas [r_ core; sw_ authority; w_ session; r_ sessionSigner; r_ SystemProgram_programId]).

Definition v3SessionControlMetas (a : V3SessionAuthorizationAccounts) (ownerWritable : bool) : result (list ClientMeta) :=
  ms ← v3ExecutionMetas (without_session (sa_execution a));
  owner ← accountMeta (authority (sa_execution a)) true ownerWritable;
  more ← metas ([w_ (sa_session a); r_ (sa_sessionSigner a)] ++ optional r_ (given (oracleSnapshot (sa_execution a))));
  Ok (set_last owner ms ++ more).

Definition revokeTradingSessionV3 (a : V3SessionAuthorizationAccounts) (seatIndex : numeric) :=
  data ← seat_data OPCODE.revokeTradingSession seatIndex; instruction data (v3SessionControlMetas a false).

Definition updateTradingSessionV3 (a : V3SessionAuthorizationAccounts) (expiresAt : numeric)
    (policy : TradingSessionPolicy) :=
  data ← session_data_v3 OPCODE.updateTradingSessionLimits expiresAt policy;
  instruction data (v3SessionControlMetas a false).

Definition closeTradingSessionV3 (a : V3SessionAuthorizationAccounts) (seatIndex : numeric) :=
  data ← seat_data OPCODE.closeTradingSession seatIndex; instruction data (v3SessionControlMetas a true).

Definition order_flag_bits (params : OrderParams) : Z :=
  js_or (js_or (js_or (if postOnly params then 1 else 0) (if immediateOrCancel params then 2 else 0))
               (if reduceOnly params then 4 else 0)) (selfTradeBits (selfTradeBehavior params)).

(** Main-wallet actions carry no session and the number 0 as nonce. *)
Definition check_action_nonce (session : option AddressInput) (actionNonce : numeric) : result unit :=
  throw_if (bool_decide (given session = None) && negb (is_number_zero actionNonce))
    "Main-wallet actions must use actionNonce zero".

(** [orderData]; [oldOrderKey] is read by replacements only. *)
Definition orderData (opcode : Z) (oldOrderKey : numeric) (session : option AddressInput) (params : OrderParams)
    : result (list Z) :=
  let replace := opcode =? OPCODE.replaceOrder in
  let data := store_byte (new_Uint8Array (if replace then 70 else 54)) 0 opcode in
  let base := if replace then 17 else 1 in
  data ← (if replace then key ← checkedUnsigned oldOrderKey 128 "oldOrderKey"; Ok (writeUnsigned data 1 key 16) else Ok data);
  let data := store_byte data base (if bool_decide (side params = side_bid) then 0 else 1) in
  let data := store_byte data (base + 1) (if bool_decide (default tree_fixed (tree params) = tree_fixed) then 0 else 1) in
  let data := store_byte data (base + 2) (order_flag_bits params) in
  seat ← checkedUnsigned (seatIndex params) 16 "seatIndex"; let data := writeUnsigned data (base + 3) seat 2 in
  qty ← checkedUnsigned (quantity params) 64 "quantity"; let data := writeUnsigned data (base + 5) qty 8 in
  price ← checkedSigned (priceOrOffset params) 64 "priceOrOffset"; let data := writeSigned data (base + 13) price 8 in
  exp ← checkedUnsigned (default (Num 0) (expiresAt params)) 64 "expiresAt"; let data := writeUnsigned data (base + 21) exp 8 in
  peg ← checkedSigned (default (Num 0) (pegLimit params)) 64 "pegLimit"; let data := writeSigned data (base + 29) peg 8 in
  cid ← checkedUnsigned (clientOrderId params) 64 "clientOrderId"; let data := writeUnsigned data (base + 37) cid 8 in
  let nonce := default (Num 0) (actionNonce params) in
  _ ← check_action_nonce session nonce;
  n ← checkedUnsigned nonce 64 "actionNonce"; Ok (writeUnsigned data (base + 45) n 8).

Definition placeOrderV3 (accounts : V3ExecutionAccounts) (params : OrderParams) : result TransactionInstruction :=
  data ← orderData OPCODE.placeOrder NonInteger (session accounts) params; instruction data (v3ExecutionMetas accounts).

Definition replaceOrderV3 (accounts : V3ExecutionAccounts) (oldOrderKey : Z) (params : OrderParams)
    : result TransactionInstruction :=
  data ← orderData OPCODE.replaceOrder (BigInt oldOrderKey) (session accounts) params;
  instruction data (v3ExecutionMetas accounts).

(** The payloads of the two cancellations, shared by the V2 and V3 builders. *)
Definition cancel_data (session : option AddressInput) (seatIndex : numeric) (orderKey : Z) (actionNonce : numeric)
    : result (list Z) :=
  _ ← check_action_nonce session actionNonce;
  let data := store_byte (new_Uint8Array 27) 0 OPCODE.cancelOrder in
  seat ← checkedUnsigned seatIndex 16 "seatIndex"; let data := writeUnsigned data 1 seat 2 in
  key ← checkedUnsigned (BigInt orderKey) 128 "orderKey"; let data := writeUnsigned data 3 key 16 in
  n ← checkedUnsigned actionNonce 64 "actionNonce"; Ok (writeUnsigned data 19 n 8).

Definition cancel_all_data (session : option AddressInput) (seatIndex maxCancellations actionNonce : numeric)
    : result (list Z) :=
  _ ← check_action_nonce session actionNonce;
  let data := store_byte (new_Uint8Array 12) 0 OPCODE.cancelAll in
  seat ← checkedUnsigned seatIndex 16 "seatIndex"; let data := writeUnsigned data 1 seat 2 in
  max ← checkedUnsigned maxCancellations 8 "maxCancellations"; let data := store_byte data 3 max in
  n ← checkedUnsigned actionNonce 64 "actionNonce"; Ok (writeUnsigned data 4 n 8).

Definition cancelOrderV3 (accounts : V3ExecutionAccounts) (seatIndex : numeric) (orderKey : Z) (actionNonce : numeric) :=
  data ← cancel_data (session accounts) seatIndex orderKey actionNonce; instruction data (v3ExecutionMetas accounts).

Definition cancelAllV3 (accounts : V3ExecutionAccounts) (seatIndex maxCancellations actionNonce : numeric) :=
  data ← cancel_all_data (session accounts) seatIndex maxCancellations actionNonce;
  instruction data (v3ExecutionMetas accounts).

Definition funding_data (accumulator : Z) (timestamp : numeric) : result (list Z) :=
  let data := store_byte (new_Uint8Array 25) 0 OPCODE.updateFunding in
  acc ← checkedSigned (BigInt accumulator) 128 "accumulator"; let data := writeSigned data 1 acc 16 in
  ts ← checkedUnsigned timestamp 64 "timestamp"; Ok (writeUnsigned data 17 ts 8).

(** [metas.pop()] drops the last row, which the authority then replaces. *)
Definition updateFundingV3 (accounts : V3ExecutionAccounts) (accumulator : Z) (timestamp : numeric) :=
  ms ← v3ExecutionMetas (without_snapshot accounts);
  data ← funding_data accumulator timestamp;
  more ← metas (s_ (authority accounts) :: optional r_ (given (oracleSnapshot accounts)));
  instruction data (Ok (take (length ms - 1) ms ++ more)).

(** The signed Pyth message behind an opcode, an instruction index and a
    signature index. *)
Definition oracle_data (opcode : Z) (message : list Z) (ed25519InstructionIndex signatureIndex : Z) : list Z :=
  let data := store_byte (new_Uint8Array (4 + length message)) 0 opcode in
  let data := setUint16 data 1 ed25519InstructionIndex in
  set_bytes (store_byte data 3 signatureIndex) 4 message.

Definition check_message_length (message : list Z) : result unit :=
  throw_if ((blen message <? 102) || (512 <? blen message)) "Invalid signed Pyth message length".

Definition check_indices (ed25519InstructionIndex signatureIndex : numeric) : result (Z * Z) :=
  match as_integer ed25519InstructionIndex, as_integer signatureIndex with
  | Some i, Some s =>
      _ ← throw_if ((i <? 0) || (0xffff <? i)) "ed25519InstructionIndex must be a u16";
      _ ← throw_if ((s <? 0) || (0xff <? s)) "signatureIndex must be a u8"; Ok (i, s)
  | None, _ => Throw "ed25519InstructionIndex must be a u16"
  | Some i, None =>
      _ ← throw_if ((i <? 0) || (0xffff <? i)) "ed25519InstructionIndex must be a u16"; Throw "signatureIndex must be a u8"
  end.

Record OracleAccounts := mkOracleAccounts {
  oa_payer : AddressInput; oa_pythProgram : AddressInput; oa_storage : AddressInput; oa_treasury : AddressInput;
  oa_systemProgram : AddressInput; oa_instructionsSysvar : AddressInput }.

Definition oracle_rows (a : OracleAccounts) : list (AddressInput * bool * bool) :=
  [sw_ (oa_payer a); r_ (oa_pythProgram a); r_ (oa_storage a); w_ (oa_treasury a); r_ (oa_systemProgram a);
   r_ (oa_instructionsSysvar a)].

Definition consumeOracleUpdateV3 (core : AddressInput) (eventShards : list AddressInput) (a : OracleAccounts)
    (message : list Z) (ed25519InstructionIndex signatureIndex : numeric) : result TransactionInstruction :=
  _ ← throw_if (negb (len_is 4 eventShards)) "V3 oracle update requires four event shards";
  _ ← check_message_length message;
  ij ← check_indices ed25519InstructionIndex signatureIndex;
  instruction (oracle_data OPCODE.consumeOracleUpdate message ij.1 ij.2)
    (metas (w_ core :: (w_ <$> eventShards) ++ oracle_rows a)).

(** No range check on the two indices: they wrap. *)
Definition updateOracleSnapshotV3 (snapshot core : AddressInput) (a : OracleAccounts) (message : list Z)
    (ed25519InstructionIndex signatureIndex : Z) : result TransactionInstruction :=
  _ ← check_message_length message;
  instruction (oracle_data CLIENT_OPCODE.updateOracleSnapshotV3 message ed25519InstructionIndex (signatureIndex mod 256))
    (metas (w_ snapshot :: r_ core :: oracle_rows a)).

Record V3CommitAccounts := mkCommitAccounts {
  ca_execution : V3ExecutionAccounts; ca_payer : AddressInput; ca_magicContext : AddressInput; ca_magicProgram : AddressInput }.

Definition v3CommitMetas (a : V3CommitAccounts) : result (list ClientMeta) :=
  let e := ca_execution a in
  _ ← throw_if (negb (bundle_complete e)) "V3 commit requires the complete execution bundle";
  metas ([w_ (core e); s_ (authority e); sw_ (ca_payer a); w_ (ca_magicContext a); r_ (ca_magicProgram a)]
         ++ (w_ <$> bookPages e) ++ (w_ <$> seatShards e) ++ (w_ <$> eventShards e)).

(** One opcode byte and one 64-bit amount or sequence. *)
Definition amount_data (opcode : Z) (name : string) (amount : numeric) : result (list Z) :=
  let data := store_byte (new_Uint8Array 9) 0 opcode in
  v ← checkedUnsigned amount 64 name; Ok (writeUnsigned data 1 v 8).

Definition commit_opcode (undelegate : bool) : Z := if undelegate then OPCODE.commitAndUndelegate else OPCODE.commitMarket.

Definition commitMarketV3 (a : V3CommitAccounts) (sequence : numeric) (undelegate : bool) : result TransactionInstruction :=
  data ← amount_data (commit_opcode undelegate) "sequence" sequence; instruction data (v3CommitMetas a).

Definition commitV3Shard (shard core authority payer magicContext magicProgram : AddressInput) (sequence : numeric)
    (undelegate : bool) : result TransactionInstruction :=
  data ← amount_data (commit_opcode undelegate) "sequence" sequence;
  instruction data (metas [w_ shard; s_ authority; sw_ payer; w_ magicContext; r_ magicProgram; w_ core]).

Record V3UndelegationRecoveryAccounts := mkRecovery {
  ur_core : AddressInput; ur_payer : AddressInput; ur_request : AddressInput; ur_record : AddressInput;
  ur_metadata : AddressInput; ur_state : option AddressInput; ur_commitRecord : option AddressInput;
  ur_reimbursement : option AddressInput }.

Definition requestV3Undelegation (a : V3UndelegationRecoveryAccounts) : result TransactionInstruction :=
  instruction [CLIENT_OPCODE.requestV3Undelegation]
    (metas [sw_ (ur_payer a); r_ (ur_core a); r_ (addr_key (EQUINOX_PROGRAM_KEY web3)); w_ (ur_request a);
            r_ (ur_record a); w_ (ur_metadata a); r_ SystemProgram_programId; r_ (addr_text DELEGATION_PROGRAM)]).

Definition rollbackV3Undelegation (a : V3UndelegationRecoveryAccounts) : result TransactionInstruction :=
  match given (ur_state a), given (ur_commitRecord a), given (ur_reimbursement a) with
  | Some state, Some commitRecord, Some reimbursement =>
      instruction [CLIENT_OPCODE.rollbackV3Undelegation]
        (metas [w_ (ur_core a); r_ (addr_key (EQUINOX_PROGRAM_KEY web3)); w_ (ur_request a); w_ (ur_record a);
                w_ (ur_metadata a); w_ (ur_payer a); w_ state; w_ commitRecord; w_ reimbursement;
                r_ (addr_text DELEGATION_PROGRAM)])
  | _, _, _ => Throw "rollback requires state, commitRecord and reimbursement"
  end.

Definition v3AmountData (opcode : Z) (seatIndex amount : numeric) : result (list Z) :=
  let data := store_byte (new_Uint8Array 11) 0 opcode in
  seat ← checkedUnsigned seatIndex 16 "seatIndex"; let data := writeUnsigned data 1 seat 2 in
  v ← checkedUnsigned amount 64 "amount"; Ok (writeUnsigned data 3 v 8).

Record V3SeatAccounts := mkSeatAccounts {
  ka_core : AddressInput; ka_seatShards : list AddressInput; ka_eventShards : list AddressInput; ka_trader : AddressInput }.

Definition validateSeatAccounts (a : V3SeatAccounts) (seatIndex : numeric)
    : result (Z * PublicKey * list PublicKey * list PublicKey) :=
  match as_integer seatIndex with
  | Some seat =>
      _ ← throw_if ((seat <? 0) || (128 <=? seat)) "invalid V3 seat index";
      _ ← throw_if (negb (len_is 4 (ka_seatShards a)) || negb (len_is 4 (ka_eventShards a)))
            "exactly four V3 seat and event shards are required";
      core ← publicKey (ka_core a); seats ← mapR publicKey (ka_seatShards a); events ← mapR publicKey (ka_eventShards a);
      Ok (seat, core, seats, events)
  | None => Throw "invalid V3 seat index"
  end.

(** [createV3TraderSeat] and [closeV3TraderSeat], which differ in the opcode. *)
Definition trader_seat (opcode : Z) (a : V3SeatAccounts) (seatIndex : numeric) : result TransactionInstruction :=
  '(seat, core, seats, events) ← validateSeatAccounts a seatIndex;
  instruction (setUint16 (store_byte (new_Uint8Array 3) 0 opcode) 1 seat)
    (metas (w_ (addr_key core) :: (w_ ∘ addr_key <$> seats) ++ (w_ ∘ addr_key <$> events) ++ [s_ (ka_trader a)])).
Definition createV3TraderSeat := trader_seat CLIENT_OPCODE.createV3TraderSeat.
Definition closeV3TraderSeat := trader_seat CLIENT_OPCODE.closeV3TraderSeat.

Definition four_event_shards (shards : list AddressInput) : result unit :=
  throw_if (negb (len_is 4 shards)) "exactly four V3 event shards are required".

Record V3DepositAccounts := mkDepositAccounts {
  da_core : AddressInput; da_seatShard : AddressInput; da_eventShards : list AddressInput; da_authority : AddressInput;
  da_source : AddressInput; da_vault : AddressInput; da_mint : AddressInput; da_tokenProgram : AddressInput;
  da_oracleSnapshot : option AddressInput }.

Definition depositCollateralV3 (a : V3DepositAccounts) (seatIndex amount : numeric) : result TransactionInstruction :=
  _ ← four_event_shards (da_eventShards a);
  data ← v3AmountData OPCODE.depositCollateralV3 seatIndex amount;
  instruction data (metas ([w_ (da_core a); w_ (da_seatShard a)] ++ (w_ <$> da_eventShards a)
    ++ [s_ (da_authority a); w_ (da_source a); w_ (da_vault a); r_ (da_mint a); r_ (da_tokenProgram a)]
    ++ optional r_ (given (da_oracleSnapshot a)))).

(** The per-(market, trader) receipts. *)
Definition receipt (seed : string) (core trader : AddressInput) : result PublicKey :=
  core ← publicKey core; trader ← publicKey trader; Ok (find [ascii_bytes seed; core; trader]).
Definition deriveDepositReceiptV3 := receipt "deposit-receipt-v3".
Definition deriveWithdrawReceiptV3 := receipt "withdraw-receipt-v3".

Definition depositToInboxV3 (core trader source vault mint tokenProgram : AddressInput) (amount : numeric)
    : result TransactionInstruction :=
  data ← amount_data CLIENT_OPCODE.depositToInboxV3 "amount" amount;
  receipt ← deriveDepositReceiptV3 core trader;
  instruction data (metas [r_ core; w_ (addr_key receipt); sw_ trader; w_ source; w_ vault; r_ mint; r_ tokenProgram;
                           r_ SystemProgram_programId]).

Definition claimInboxDepositV3 (core seatShard : AddressInput) (eventShards : list AddressInput) (trader : AddressInput)
    (seatIndex : numeric) : result TransactionInstruction :=
  _ ← four_event_shards eventShards;
  data ← seat_data CLIENT_OPCODE.claimInboxDepositV3 seatIndex;
  receipt ← deriveDepositReceiptV3 core trader;
  instruction data (metas ([w_ core; w_ seatShard] ++ (w_ <$> eventShards) ++ [r_ (addr_key receipt)])).

Definition deriveMagicFeeVault (validator : AddressInput) : result PublicKey :=
  v ← publicKey validator; dlp ← publicKey (addr_text DELEGATION_PROGRAM);
  Ok (findProgramAddressSync web3 [ascii_bytes "magic-fee-vault"; v] dlp).

Definition requestWithdrawalV3 (core seatShard : AddressInput) (eventShards : list AddressInput)
    (trader oracleSnapshot : AddressInput) (feeVault : option AddressInput) (seatIndex amount : numeric)
    : result TransactionInstruction :=
  _ ← four_event_shards eventShards;
  data ← v3AmountData CLIENT_OPCODE.requestWithdrawalV3 seatIndex amount;
  instruction data (metas ([w_ core; w_ seatShard] ++ (w_ <$> eventShards)
    ++ [sw_ trader; w_ (addr_text MAGIC_CONTEXT); r_ (addr_text MAGIC_PROGRAM); r_ oracleSnapshot]
    ++ optional w_ (given feeVault))).

Definition claimWithdrawalV3 (core seatShard trader destination vault vaultAuthority mint tokenProgram : AddressInput)
    (seatIndex : numeric) : result TransactionInstruction :=
  data ← seat_data CLIENT_OPCODE.claimWithdrawalV3 seatIndex;
  receipt ← deriveWithdrawReceiptV3 core trader;
  instruction data (metas [r_ core; r_ seatShard; sw_ trader; w_ destination; w_ vault; r_ vaultAuthority; r_ mint;
                           r_ tokenProgram; w_ (addr_key receipt); r_ SystemProgram_programId]).

Definition withdrawCollateralV3 (accounts : V3ExecutionAccounts)
    (destination mint vault vaultAuthority tokenProgram : AddressInput) (seatIndex amount : numeric)
    : result TransactionInstruction :=
  _ ← throw_if (bool_decide (is_Some (given (session accounts)))) "V3 custody withdrawal cannot include a delegated session account";
  _ ← throw_if (negb (bundle_complete accounts)) "V3 withdrawal requires 18 book pages, 4 seat shards and 4 event shards";
  ms ← metas (bundle_rows accounts ++ [s_ (authority accounts)]);
  data ← v3AmountData OPCODE.withdrawCollateralV3 seatIndex amount;
  more ← metas ([w_ destination; r_ mint; w_ vault; r_ vaultAuthority; r_ tokenProgram]
                ++ optional r_ (given (oracleSnapshot accounts)));
  instruction data (Ok (ms ++ more)).

Definition reconcileVaultV3 (accounts : V3ExecutionAccounts) (vault mint tokenProgram : AddressInput)
    : result TransactionInstruction :=
  _ ← throw_if (bool_decide (is_Some (given (session accounts)))) "V3 reconciliation cannot include a delegated session account";
  _ ← throw_if (negb (bundle_complete accounts)) "V3 reconciliation requires 18 book pages, 4 seat shards and 4 event shards";
  instruction [OPCODE.reconcileVaultV3] (metas (bundle_rows accounts ++ [w_ vault; r_ mint; r_ tokenProgram])).

Definition v3KindAndIndex (kind : V3AccountKind) (index : numeric) : result (Z * Z) :=
  let '(byte, index, max) := match kind with
    | kind_core => (0, Num 0, 0) | kind_book_page => (1, index, 17)
    | kind_seat_shard => (2, index, 3) | kind_event_shard => (3, index, 3) end in
  match as_integer index with
  | Some i => _ ← throw_if ((i <? 0) || (max <? i)) "invalid V3 account index"; Ok (byte, i)
  | None => Throw "invalid V3 account index"
  end.

Definition expectedV3Account (parent : PublicKey) (kindByte index : Z) : result PublicKey :=
  if kindByte =? 0 then Ok (deriveMarketCoreV3 parent)
  else if kindByte =? 1 then deriveBookPageV3 parent (index / 9) (index mod 9)
  else if kindByte =? 2 then deriveSeatShardV3 parent index
  else deriveEventShardV3 parent index.

Definition createV3VaultAccount (core vault authority mint tokenProgram : AddressInput) : result TransactionInstruction :=
  instruction [CLIENT_OPCODE.createV3VaultAccount]
    (metas [r_ core; w_ vault; sw_ authority; r_ mint; r_ tokenProgram; r_ SystemProgram_programId]).

(** The kind, the flattened index and the parent of a derived target. *)
Definition derived_target (parent target : AddressInput) (kind : V3AccountKind) (index : numeric)
    : result (PublicKey * PublicKey * Z * Z) :=
  parent ← publicKey parent; target ← publicKey target;
  '(kindByte, flattenedIndex) ← v3KindAndIndex kind index;
  expected ← expectedV3Account parent kindByte flattenedIndex;
  _ ← throw_if (negb (bool_decide (target = expected))) "target is not the derived V3 account PDA";
  Ok (parent, target, kindByte, flattenedIndex).

Definition createV3Account (parent target payer : AddressInput) (kind : V3AccountKind) (index : numeric)
    : result TransactionInstruction :=
  '(parent, target, kindByte, flattenedIndex) ← derived_target parent target kind index;
  instruction [CLIENT_OPCODE.createV3Account; kindByte; flattenedIndex]
    (metas [r_ (addr_key parent); w_ (addr_key target); sw_ payer; r_ SystemProgram_programId]).

Definition createOracleSnapshotV3 (core snapshot payer : AddressInput) : result TransactionInstruction :=
  c ← publicKey core; s ← publicKey snapshot;
  _ ← throw_if (negb (bool_decide (s = deriveOracleSnapshotV3 c))) "snapshot is not the derived OracleSnapshotV3 PDA";
  instruction [CLIENT_OPCODE.createOracleSnapshotV3] (metas [r_ core; w_ snapshot; sw_ payer; r_ SystemProgram_programId]).

Definition initializeV3Market (exchange instrument core authority collateralMint : AddressInput)
    : result TransactionInstruction :=
  i ← publicKey instrument; c ← publicKey core;
  _ ← throw_if (negb (bool_decide (c = deriveMarketCoreV3 i))) "core is not the derived V3 market PDA";
  instruction [CLIENT_OPCODE.initializeV3Market] (metas [r_ exchange; r_ (addr_key i); w_ core; s_ authority; r_ collateralMint]).

(** The buffer, record and metadata accounts of a delegation. *)
Definition delegation_pdas (target : PublicKey) : result (PublicKey * PublicKey * PublicKey) :=
  dlp ← publicKey (addr_text DELEGATION_PROGRAM);
  Ok (find [ascii_bytes "buffer"; target], findProgramAddressSync web3 [ascii_bytes "delegation"; target] dlp,
      findProgramAddressSync web3 [ascii_bytes "delegation-metadata"; target] dlp).

Definition delegateV3Account (parent target authority payer : AddressInput) (kind : V3AccountKind)
    (validator : AddressInput) (index : numeric) : result TransactionInstruction :=
  p ← publicKey parent; t ← publicKey target; validatorKey ← publicKey validator;
  '(parent, target, kindByte, flattenedIndex) ← derived_target (addr_key p) (addr_key t) kind index;
  '(buffer, record, metadata) ← delegation_pdas target;
  let data := store_byte (new_Uint8Array 35) 0 CLIENT_OPCODE.delegateV3Account in
  let data := set_bytes (store_byte (store_byte data 1 kindByte) 2 flattenedIndex) 3 validatorKey in
  instruction data (metas [r_ (addr_key parent); w_ (addr_key target); s_ authority; sw_ payer; w_ (addr_key buffer);
    w_ (addr_key record); w_ (addr_key metadata); r_ (addr_text DELEGATION_PROGRAM); r_ SystemProgram_programId;
    r_ (addr_key (EQUINOX_PROGRAM_KEY web3))]).

(** ** order-instructions.ts *)

Definition market_authority (market authority : AddressInput) : list (AddressInput * bool * bool) := [w_ market; s_ authority].

Definition initializeMarket (market authority : AddressInput) : result TransactionInstruction :=
  instruction [CLIENT_OPCODE.initializeMarket] (metas (market_authority market authority)).
Definition createTraderSeat (market authority : AddressInput) (seatIndex : numeric) : result TransactionInstruction :=
  data ← seat_data CLIENT_OPCODE.createTraderSeat seatIndex; instruction data (metas (market_authority market authority)).
Definition initializeSettlementScratch (market authority settlementScratch : AddressInput) (seatIndex : numeric)
    : result TransactionInstruction :=
  data ← seat_data CLIENT_OPCODE.initializeSettlementScratch seatIndex;
  instruction data (metas (market_authority market authority ++ [w_ settlementScratch])).
Definition closeTraderSeat (market authority : AddressInput) (seatIndex : numeric) : result TransactionInstruction :=
  data ← seat_data CLIENT_OPCODE.closeTraderSeat seatIndex; instruction data (metas (market_authority market authority)).

(** [session] is optional for the order builders of V2. *)
Definition placeOrder (market authority settlementScratch : AddressInput) (session : option AddressInput)
    (params : OrderParams) : result TransactionInstruction :=
  data ← orderData OPCODE.placeOrder NonInteger session params;
  instruction data (metas (market_authority market authority ++ [w_ settlementScratch] ++ optional w_ (given session))).
Definition replaceOrder (market authority settlementScratch : AddressInput) (session : option AddressInput)
    (oldOrderKey : Z) (params : OrderParams) : result TransactionInstruction :=
  data ← orderData OPCODE.replaceOrder (BigInt oldOrderKey) session params;
  instruction data (metas (market_authority market authority ++ [w_ settlementScratch] ++ optional w_ (given session))).
Definition cancelOrder (market authority : AddressInput) (session : option AddressInput) (seatIndex : numeric)
    (orderKey : Z) (actionNonce : numeric) : result TransactionInstruction :=
  data ← cancel_data session seatIndex orderKey actionNonce;
  instruction data (metas (market_authority market authority ++ optional w_ (given session))).
Definition cancelAll (market authority : AddressInput) (session : option AddressInput)
    (seatIndex maxCancellations actionNonce : numeric) : result TransactionInstruction :=
  data ← cancel_all_data session seatIndex maxCancellations actionNonce;
  instruction data (metas (market_authority market authority ++ optional w_ (given session))).
Definition updateFunding (market authority : AddressInput) (accumulator : Z) (timestamp : numeric)
    : result TransactionInstruction :=
  data ← funding_data accumulator timestamp; instruction data (metas (market_authority market authority)).
Definition liquidate (market authority : AddressInput) (seatIndex maxQuantity : numeric) : result TransactionInstruction :=
  let data := store_byte (new_Uint8Array 11) 0 OPCODE.liquidate in
  seat ← checkedUnsigned seatIndex 16 "seatIndex"; let data := writeUnsigned data 1 seat 2 in
  q ← checkedUnsigned maxQuantity 64 "maxQuantity";
  instruction (writeUnsigned data 3 q 8) (metas (market_authority market authority)).

(** ** session-instructions.ts *)

(** [BigInt(value)]: throws for a number that is not an integer. *)
Definition to_BigInt (n : numeric) : result Z :=
  match n with BigInt z | Num z => Ok z | NonInteger => Throw "The number cannot be converted to a BigInt" end.

Definition sessionLimitsInstruction (discriminator : Z) (rows : list (AddressInput * bool * bool)) (expiresAt : numeric)
    (policy : TradingSessionPolicy) : result TransactionInstruction :=
  _ ← throw_if (negb (integer_between 0 0xffff (tp_seatIndex policy)) || negb (integer_between 1 0xff (tp_actions policy))
                || negb (integer_between 1 0xffff (tp_maximumOpenOrders policy))) "invalid trading session policy";
  maxOrder ← checkedUnsigned (tp_maxOrderNotional policy) 64 "maxOrderNotional";
  maxCumulative ← checkedUnsigned (tp_maxCumulativeNotional policy) 64 "maxCumulativeNotional";
  maximumExposure ← to_BigInt (tp_maximumExposure policy);
  _ ← throw_if ((maxOrder =? 0) || (maxCumulative <? maxOrder) || (maximumExposure <=? 0) || (2 ^ 127 <=? maximumExposure))
        "invalid trading session limits";
  let data := store_byte (new_Uint8Array 46) 0 discriminator in
  let data := setUint16 data 1 (default 0 (as_integer (tp_seatIndex policy))) in
  exp ← checkedUnsigned expiresAt 64 "expiresAt"; let data := writeUnsigned data 3 exp 8 in
  let data := store_byte data 11 (default 0 (as_integer (tp_actions policy))) in
  let data := writeUnsigned data 12 maxOrder 8 in
  let data := writeUnsigned data 20 maxCumulative 8 in
  let data := writeSigned data 28 maximumExposure 16 in
  instruction (setUint16 data 44 (default 0 (as_integer (tp_maximumOpenOrders policy)))) (metas rows).

Definition authorizeTradingSession (market authority sessionSigner payer : AddressInput) (expiresAt : numeric)
    (policy : TradingSessionPolicy) : result TransactionInstruction :=
  session ← deriveTradingSession authority market (tp_seatIndex policy) sessionSigner;
  sessionLimitsInstruction OPCODE.authorizeTradingSession
    [w_ market; sw_ payer; w_ (addr_key session); r_ sessionSigner; r_ SystemProgram_programId] expiresAt policy.

Definition updateTradingSessionLimits (market authority session sessionSigner : AddressInput) (expiresAt : numeric)
    (policy : TradingSessionPolicy) : result TransactionInstruction :=
  sessionLimitsInstruction OPCODE.updateTradingSessionLimits
    [w_ market; s_ authority; w_ session; r_ sessionSigner] expiresAt policy.

Definition revokeTradingSession (market authority session sessionSigner : AddressInput) (seatIndex : numeric)
    : result TransactionInstruction :=
  data ← seat_data OPCODE.revokeTradingSession seatIndex;
  instruction data (metas [w_ market; s_ authority; w_ session; r_ sessionSigner]).

Definition closeTradingSession (market authority session sessionSigner : AddressInput) (seatIndex : numeric)
    : result TransactionInstruction :=
  data ← seat_data OPCODE.closeTradingSession seatIndex;
  instruction data (metas [w_ market; sw_ authority; w_ session; r_ sessionSigner]).

(** ** registry-instructions.ts *)

Definition identifierInstruction (discriminator : Z) (identifier : list Z) (rows : list (AddressInput * bool * bool))
    : result TransactionInstruction :=
  ks ← metas rows;
  _ ← throw_if (negb (blen identifier =? 32)) "identifier must be 32 bytes";
  instruction (set_bytes (store_byte (new_Uint8Array 33) 0 discriminator) 1 identifier) (Ok ks).

Definition initializeExchange (exchange authority : AddressInput) : result TransactionInstruction :=
  instruction [CLIENT_OPCODE.initializeExchange] (metas [w_ exchange; s_ authority]).
Definition registerStockInstrument (exchange instrument authority : AddressInput) (instrumentId : list Z) :=
  identifierInstruction CLIENT_OPCODE.registerStockInstrument instrumentId [w_ exchange; w_ instrument; s_ authority].
Definition createPerpMarket (instrument market authority : AddressInput) (instrumentId : list Z) :=
  identifierInstruction CLIENT_OPCODE.createPerpMarket instrumentId [r_ instrument; w_ market; s_ authority].
Definition suspendStockInstrument (exchange instrument authority : AddressInput) (instrumentId : list Z) :=
  identifierInstruction CLIENT_OPCODE.suspendStockInstrument instrumentId [r_ exchange; w_ instrument; s_ authority].

(** [data.set(instrumentId, 1)] throws when the identifier does not fit. *)
Definition updateStockInstrument (exchange instrument authority : AddressInput) (instrumentId : list Z)
    (pythFeedId oracleChannel priceExponent : numeric) : result TransactionInstruction :=
  _ ← throw_if (negb (integer_between 1 0xffffffff pythFeedId)) "pythFeedId must be a non-zero u32";
  _ ← throw_if (negb (integer_between 1 4 oracleChannel)) "oracleChannel must be between 1 and 4";
  _ ← throw_if (negb (integer_between (-12) 0 priceExponent)) "priceExponent must be between -12 and 0";
  let data := store_byte (new_Uint8Array 42) 0 CLIENT_OPCODE.updateStockInstrument in
  _ ← throw_if (42 <? 1 + blen instrumentId) "offset is out of bounds";
  let data := set_bytes data 1 instrumentId in
  let data := setUint32 data 33 (default 0 (as_integer pythFeedId)) in
  let data := store_byte data 37 (default 0 (as_integer oracleChannel)) in
  instruction (setInt32 data 38 (default 0 (as_integer priceExponent))) (metas [r_ exchange; w_ instrument; s_ authority]).

(** The integer arguments are stored without a range check. *)
Definition updateMarketRisk (market authority : AddressInput) (initial maintenance leverage : Z) : result TransactionInstruction :=
  let data := store_byte (new_Uint8Array 9) 0 CLIENT_OPCODE.updateMarketRisk in
  instruction (setUint32 (setUint16 (setUint16 data 1 initial) 3 maintenance) 5 leverage)
    (metas (market_authority market authority)).

Definition writeSigned128 (data : list Z) (off value : Z) : list Z :=
  let normalized := if value <? 0 then Z.shiftl 1 128 + value else value in
  setBigUint64 (setBigUint64 data off (Z.land normalized (Z.shiftl 1 64 - 1))) (off + 8) (Z.shiftr normalized 64).

Record V3RiskUpdate := mkV3Risk {
  ru_initialMarginBps : Z; ru_maintenanceMarginBps : Z; ru_liquidationFeeBps : Z; ru_makerFeeBps : Z; ru_takerFeeBps : Z;
  ru_maximumLeverage : Z; ru_maximumPosition : Z; ru_maximumOpenInterest : Z; ru_markDeviationBps : Z;
  ru_vaultSurplus : Z; ru_withdrawalBuffer : Z }.

Definition risk_data (v : V3RiskUpdate) : list Z :=
  let data := store_byte (new_Uint8Array 81) 0 CLIENT_OPCODE.updateMarketRisk in
  let data := setUint16 (setUint16 data 1 (ru_initialMarginBps v)) 3 (ru_maintenanceMarginBps v) in
  let data := setUint16 (setUint16 (setUint16 data 5 (ru_liquidationFeeBps v)) 7 (ru_makerFeeBps v)) 9 (ru_takerFeeBps v) in
  let data := setUint32 data 11 (ru_maximumLeverage v) in
  let data := writeSigned128 (writeSigned128 data 15 (ru_maximumPosition v)) 31 (ru_maximumOpenInterest v) in
  let data := setUint16 data 47 (ru_markDeviationBps v) in
  writeSigned128 (writeSigned128 data 49 (ru_vaultSurplus v)) 65 (ru_withdrawalBuffer v).

Definition updateV3Risk (market authority : AddressInput) (values : V3RiskUpdate) : result TransactionInstruction :=
  instruction (risk_data values) (metas (market_authority market authority)).

Inductive MarketTransitionMode := mt_pause | mt_resume | mt_close_only | mt_corporate_action | mt_resolve | mt_close.

Definition transition_opcode (mode : MarketTransitionMode) : Z :=
  match mode with
  | mt_pause => OPCODE.pauseMarket
  | mt_resume => OPCODE.resumeMarket
  | mt_close_only => OPCODE.setCloseOnly
  | mt_corporate_action => CLIENT_OPCODE.enterCorporateAction
  | mt_resolve => CLIENT_OPCODE.resolveCorporateAction
  | mt_close => CLIENT_OPCODE.closeMarket
  end.

Definition transitionMarket (market authority : AddressInput) (mode : MarketTransitionMode) : result TransactionInstruction :=
  instruction [transition_opcode mode] (metas (market_authority market authority)).

(** ** custody-instructions.ts *)

Definition initializeVault (market authority mint tokenProgram vault vaultAuthority : AddressInput)
    : result TransactionInstruction :=
  instruction [OPCODE.initializeVault]
    (metas [w_ market; s_ authority; r_ mint; r_ tokenProgram; w_ vault; r_ vaultAuthority]).

Record CustodyAccounts := mkCustody {
  cu_market : AddressInput; cu_authority : AddressInput; cu_mint : AddressInput; cu_tokenProgram : AddressInput;
  cu_vault : AddressInput; cu_vaultAuthority : AddressInput; cu_seatIndex : numeric; cu_sourceOrDestination : AddressInput }.

Definition amountInstruction (discriminator : Z) (a : CustodyAccounts) (amount : numeric) : result TransactionInstruction :=
  data ← v3AmountData discriminator (cu_seatIndex a) amount;
  instruction data (metas [w_ (cu_market a); s_ (cu_authority a); w_ (cu_sourceOrDestination a); w_ (cu_vault a);
                           r_ (cu_mint a); r_ (cu_tokenProgram a)]).

Definition depositCollateral (a : CustodyAccounts) (amount : numeric) : result TransactionInstruction :=
  amountInstruction OPCODE.depositCollateral a amount.

(** The account list is replaced; the vault authority is derived again. *)
Definition withdrawCollateral (a : CustodyAccounts) (amount : numeric) : result TransactionInstruction :=
  result ← amountInstruction OPCODE.withdrawCollateral a amount;
  market ← publicKey (cu_market a);
  let vaultAuthority := find [ascii_bytes "vault-authority"; market] in
  ks ← metas [w_ (cu_market a); s_ (cu_authority a); w_ (cu_sourceOrDestination a); r_ (cu_mint a); w_ (cu_vault a);
              r_ (addr_key vaultAuthority); r_ (cu_tokenProgram a)];
  Ok (mkTransactionInstruction (ti_programId result) ks (ti_data result)).

Definition transferToInsuranceFund (market authority : AddressInput) (amount : numeric) : result TransactionInstruction :=
  data ← amount_data OPCODE.transferToInsuranceFund "amount" amount; instruction data (metas (market_authority market authority)).

Definition ledgerWithdrawal (discriminator : Z)
    (market authority vault vaultAuthority destination mint tokenProgram : AddressInput) (amount : numeric)
    : result TransactionInstruction :=
  data ← amount_data discriminator "amount" amount;
  instruction data (metas [w_ market; s_ authority; w_ vault; r_ vaultAuthority; w_ destination; r_ mint; r_ tokenProgram]).
Definition withdrawProtocolFees := ledgerWithdrawal OPCODE.withdrawProtocolFees.
Definition withdrawInsuranceFunds := ledgerWithdrawal OPCODE.withdrawInsuranceFunds.

Definition recordBadDebt (market authority : AddressInput) (seatIndex amount : numeric) : result TransactionInstruction :=
  data ← v3AmountData OPCODE.recordBadDebt seatIndex amount; instruction data (metas (market_authority market authority)).
Definition resolveBadDebt (market authority : AddressInput) (amount : numeric) : result TransactionInstruction :=
  data ← amount_data OPCODE.resolveBadDebt "amount" amount; instruction data (metas (market_authority market authority)).
Definition reconcileVault (market vault mint tokenProgram : AddressInput) : result TransactionInstruction :=
  instruction [OPCODE.reconcileVault] (metas [w_ market; r_ vault; r_ mint; r_ tokenProgram]).

(** ** magicblock-instructions.ts *)

Definition delegation_data (opcode : Z) (validator : PublicKey) : list Z :=
  set_bytes (store_byte (new_Uint8Array 33) 0 opcode) 1 validator.

Definition delegation_tail : list (AddressInput * bool * bool) :=
  [r_ (addr_text DELEGATION_PROGRAM); r_ SystemProgram_programId; r_ (addr_key (EQUINOX_PROGRAM_KEY web3))].

Definition delegateMarket (market authority instrument payer : AddressInput) (clusterAccounts : option (list AddressInput))
    (validator : AddressInput) : result TransactionInstruction :=
  m ← publicKey market; v ← publicKey validator;
  '(buffer, record, metadata) ← delegation_pdas m;
  instruction (delegation_data OPCODE.delegateMarket v)
    (metas ([w_ (addr_key m); s_ authority; r_ instrument; sw_ payer; w_ (addr_key buffer); w_ (addr_key record);
             w_ (addr_key metadata)] ++ delegation_tail ++ (w_ <$> default [] clusterAccounts))).

Definition delegateClusterMember (market authority member payer validator : AddressInput) : result TransactionInstruction :=
  m ← publicKey market; k ← publicKey member; v ← publicKey validator;
  '(buffer, record, metadata) ← delegation_pdas k;
  instruction (delegation_data CLIENT_OPCODE.delegateClusterMember v)
    (metas ([r_ (addr_key m); s_ authority; w_ (addr_key k); w_ (addr_key buffer); w_ (addr_key record);
             w_ (addr_key metadata); sw_ payer] ++ delegation_tail)).

Definition deriveClusterMemberPdas (member : AddressInput) : result (PublicKey * PublicKey * PublicKey) :=
  k ← publicKey member; delegation_pdas k.

Definition commitInstruction (discriminator : Z) (market authority payer : AddressInput)
    (clusterAccounts : option (list AddressInput)) (sequence : numeric) : result TransactionInstruction :=
  data ← amount_data discriminator "sequence" sequence;
  instruction data (metas ([w_ market; s_ authority; sw_ payer; w_ (addr_text MAGIC_CONTEXT); r_ (addr_text MAGIC_PROGRAM)]
                           ++ (w_ <$> default [] clusterAccounts))).
Definition commitMarket := commitInstruction OPCODE.commitMarket.
Definition commitAndUndelegate := commitInstruction OPCODE.commitAndUndelegate.

(** ** oracle-instructions.ts *)

Definition consumeOracleUpdate (market : AddressInput) (a : OracleAccounts) (message : list Z)
    (ed25519InstructionIndex signatureIndex : numeric) : result TransactionInstruction :=
  _ ← check_message_length message;
  ij ← check_indices ed25519InstructionIndex signatureIndex;
  instruction (oracle_data OPCODE.consumeOracleUpdate message ij.1 ij.2) (metas (w_ market :: oracle_rows a)).

(** ** exchange-config-instructions.ts *)

Record UpdateExchangeConfigFields := mkExchangeConfig {
  ec_pauseAuthority : option AddressInput; ec_emergencyAuthority : option AddressInput; ec_keeperAuthority : option AddressInput;
  ec_makerFeeBps : option numeric; ec_takerFeeBps : option numeric; ec_liquidationFeeBps : option numeric;
  ec_defaultInitialMarginBps : option numeric; ec_defaultMaintenanceMarginBps : option numeric;
  ec_defaultMaximumLeverage : option numeric; ec_collateralMint : option AddressInput; ec_oracleProgram : option AddressInput;
  ec_insuranceTargetBalance : option numeric; ec_protocolStatus : option Z }.

(** The mask and the array under construction. *)
Definition writePubkeyField (offset bit : Z) (value : option AddressInput) (st : Z * list Z) : result (Z * list Z) :=
  match value with
  | None => Ok st
  | Some a => k ← publicKey a; Ok (js_or st.1 bit, set_bytes st.2 offset k)
  end.

Definition writeUintField (offset bit bits : Z) (name : string) (bytes : nat) (value : option numeric) (st : Z * list Z)
    : result (Z * list Z) :=
  match value with
  | None => Ok st
  | Some v => z ← checkedUnsigned v bits name; Ok (js_or st.1 bit, writeUnsigned st.2 offset z bytes)
  end.

Definition writeU16Field (offset bit : Z) := writeUintField offset bit 16 "value" 2.

Definition updateExchangeConfig (exchange authority : AddressInput) (fields : UpdateExchangeConfigFields)
    (expectedConfigSequence : numeric) : result TransactionInstruction :=
  let st := (0, store_byte (new_Uint8Array 196) 0 CLIENT_OPCODE.updateExchangeConfig) in
  st ← writePubkeyField 5 1 (ec_pauseAuthority fields) st; st ← writePubkeyField 37 2 (ec_emergencyAuthority fields) st;
  st ← writePubkeyField 69 4 (ec_keeperAuthority fields) st;
  st ← writeU16Field 101 8 (ec_makerFeeBps fields) st; st ← writeU16Field 103 16 (ec_takerFeeBps fields) st;
  st ← writeU16Field 105 32 (ec_liquidationFeeBps fields) st; st ← writeU16Field 107 64 (ec_defaultInitialMarginBps fields) st;
  st ← writeU16Field 109 128 (ec_defaultMaintenanceMarginBps fields) st;
  st ← writeUintField 111 256 32 "defaultMaximumLeverage" 4 (ec_defaultMaximumLeverage fields) st;
  st ← writePubkeyField 115 512 (ec_collateralMint fields) st; st ← writePubkeyField 147 1024 (ec_oracleProgram fields) st;
  st ← writeUintField 179 2048 64 "insuranceTargetBalance" 8 (ec_insuranceTargetBalance fields) st;
  let st := match ec_protocolStatus fields with
            | Some v => (js_or st.1 4096, store_byte st.2 187 (v mod 256))
            | None => st
            end in
  let data := writeUnsigned st.2 1 st.1 4 in
  sequence ← checkedUnsigned expectedConfigSequence 64 "expectedConfigSequence";
  instruction (writeUnsigned data 188 sequence 8) (metas [w_ exchange; s_ authority]).
End Client.

(** ** v3-pdas.ts and [deriveTradingSessionAddress] of relay-auth.ts: the worker's derivations *)

(** [address_bytes]: the kit's [address] check and Base58 codec ([None]: it
    throws); [getProgramDerivedAddress] for a program, [programId] being the
    deployment's own. *)
Record Kit := mkKit {
  address_bytes : string -> option (list Z);
  getProgramDerivedAddress : string -> list (list Z) -> string;
  kit_programId : string }.

Module WorkerPdas.
Section Derive.
Context (kit : Kit).

Definition coreSeed (core : string) : result (list Z) :=
  match address_bytes kit core with Some k => Ok k | None => Throw "Expected base58-encoded address" end.

Definition derive (seed core : string) (suffix : list Z) : result string :=
  k ← coreSeed core; Ok (getProgramDerivedAddress kit (kit_programId kit) [ascii_bytes seed; k; suffix]).

Definition deriveBookPageV3 (core : string) (side page : Z) : result string :=
  _ ← throw_if ((side <? 0) || (1 <? side) || (page <? 0) || (9 <=? page)) "invalid V3 book page";
  derive "book-page-v3" core [side; page].

Definition deriveSeatShardV3 (core : string) (shard : Z) : result string :=
  _ ← throw_if ((shard <? 0) || (4 <=? shard)) "invalid V3 seat shard"; derive "seat-shard-v3" core [shard].

Definition deriveEventShardV3 (core : string) (shard : Z) : result string :=
  _ ← throw_if ((shard <? 0) || (4 <=? shard)) "invalid V3 event shard"; derive "event-shard-v3" core [shard].

Definition deriveTradingSessionAddress (owner market : string) (seatIndex : Z) (sessionSigner programId : string)
    : result string :=
  let seatIndexBytes := [Z.land seatIndex 0xff; Z.land (Z.shiftr seatIndex 8) 0xff] in
  _ ← coreSeed programId; o ← coreSeed owner; m ← coreSeed market; s ← coreSeed sessionSigner;
  Ok (getProgramDerivedAddress kit programId [ascii_bytes "trading_session"; o; m; seatIndexBytes; s]).
End Derive.
End WorkerPdas.

(** ** lib/session-trading.ts: from a client instruction to a kit instruction *)

Definition role_of (signer writable : bool) : AccountRole :=
  if signer && writable then role_writable_signer
  else if signer then role_readonly_signer else if writable then role_writable else role_readonly.

Definition kit_meta (web3 : Web3) (m : ClientMeta) : AccountMeta :=
  mkMeta (toBase58 web3 (pubkey m)) (role_of (isSigner m) (isWritable m)).

Definition toKitInstruction (web3 : Web3) (ix : TransactionInstruction) : Instruction :=
  mkInstruction (toBase58 web3 (ti_programId ix)) (kit_meta web3 <$> ti_keys ix) (ti_data ix).
