(* ===== verification/ClientEquivalence.v ===== *)
(** * The client's instruction builders against the worker

    The builders of ClientInstructions and the encoders of
    workers/src/transactions.ts (Transactions) produce the same instructions, and
    a session order built in the browser passes the relayer's account check and
    is read back exactly (Relay).  The proofs follow the two styles of writing:
    [filled] describes an array filled from left to right, [appends] a writer of
    the worker, and one lemma per field width relates a range check of the client
    to the writer that follows it. *)

From S2P Require Import Prelude Bytes ExecutionStatus V3Market Transactions Relay ClientInstructions.

(** ** Filling a preallocated array from left to right *)

Definition filled (pre : list Z) (k : nat) (d : list Z) : Prop := d = pre ++ replicate k 0.

Lemma filled_new n : filled [] n (new_Uint8Array n).
Proof. done. Qed.

Lemma filled_store pre k d off b : filled pre (S k) d -> off = blen pre -> filled (pre ++ [b]) k (store_byte d off b).
Proof.
  intros -> ->. unfold filled, store_byte, blen. rewrite (proj2 (Z.leb_le _ _)) by lia.
  rewrite Nat2Z.id, insert_app_r_alt, Nat.sub_diag, <- app_assoc by lia. done.
Qed.

Lemma filled_loop n : forall pre k d off i v,
  filled pre (n + k) d -> off + Z.of_nat i = blen pre ->
  filled (pre ++ le_split n v) k (writeUnsigned_loop d off v i n).
Proof.
  induction n as [|n IH]; intros pre k d off i v Hd Hi; cbn [writeUnsigned_loop le_split].
  - by rewrite app_nil_r.
  - eapply filled_store in Hd; [|exact Hi]. rewrite land_255, Z.shiftr_div_pow2 by lia.
    replace (pre ++ v mod 256 :: le_split n (v / 256)) with ((pre ++ [v mod 256]) ++ le_split n (v / 2 ^ 8))
      by (by rewrite <- app_assoc).
    apply IH; [rewrite <- land_255; exact Hd|]. rewrite blen_app. unfold blen at 2. cbn [length]. lia.
Qed.

Lemma filled_write pre k n d off v :
  filled pre (n + k) d -> off = blen pre -> filled (pre ++ le_split n v) k (writeUnsigned d off v n).
Proof. intros Hd ->. apply filled_loop; [done|lia]. Qed.

Lemma filled_signed pre k n d off v :
  filled pre (n + k) d -> off = blen pre -> filled (pre ++ le_split n (wrap_signed n v)) k (writeSigned d off v n).
Proof. intros Hd ->. unfold writeSigned. rewrite shiftl_1_pow by lia. by apply filled_write. Qed.

Lemma filled_set pre k d off bs :
  filled pre (length bs + k) d -> off = blen pre -> filled (pre ++ bs) k (set_bytes d off bs).
Proof.
  intros -> ->. unfold filled, set_bytes, blen. rewrite Nat2Z.id, <- (Nat.add_0_r (length pre)) at 1.
  rewrite list_inserts_app_r, <- app_assoc, replicate_add. f_equal. by rewrite list_inserts_0_r by by rewrite length_replicate.
Qed.

Lemma filled_done pre d : filled pre 0 d -> d = pre.
Proof. intros ->. by rewrite app_nil_r. Qed.

(** Proves that a chain of stores into a fresh array builds the given list. *)
Ltac fill :=
  apply filled_done;
  repeat (first [ eapply filled_signed | eapply filled_write | eapply filled_store | eapply filled_set ]);
  [> first [ apply filled_new | reflexivity ].. ].

(** ** The client's range checks and the worker's writers agree *)

(** The integer an argument stands for. *)
Definition value (n : numeric) : Z := match n with BigInt z | Num z => z | NonInteger => 0 end.

(** A bigint, or a number the runtime represents exactly. *)
Definition exact (n : numeric) : Prop :=
  match n with BigInt _ => True | Num z => isSafeInteger z = true | NonInteger => False end.

Lemma checkedUnsigned_exact v bits name :
  exact v -> 0 <= bits ->
  checkedUnsigned v bits name ≈ (if (0 <=? value v) && (value v <? 2 ^ bits) then Ok (value v) else Throw name).
Proof.
  intros He Hb. unfold checkedUnsigned. rewrite shiftl_1_pow by done.
  destruct v as [z|z|]; cbn [exact value] in *; [|rewrite He|done];
    unfold same_outcome; destruct (Z.ltb_spec z 0), (Z.leb_spec (2 ^ bits) z), (Z.leb_spec 0 z), (Z.ltb_spec z (2 ^ bits)); cbn; (done || lia).
Qed.

Lemma checkedSigned_exact v bits name :
  exact v -> 1 <= bits ->
  checkedSigned v bits name ≈
  (if (- 2 ^ (bits - 1) <=? value v) && (value v <? 2 ^ (bits - 1)) then Ok (value v) else Throw name).
Proof.
  intros He Hb. unfold checkedSigned. rewrite shiftl_1_pow by lia.
  destruct v as [z|z|]; cbn [exact value] in *; [|rewrite He|done];
    unfold same_outcome;
    destruct (Z.ltb_spec z (- 2 ^ (bits - 1))), (Z.ltb_spec (2 ^ (bits - 1) - 1) z),
      (Z.leb_spec (- 2 ^ (bits - 1)) z), (Z.ltb_spec z (2 ^ (bits - 1))); cbn; (done || lia).
Qed.

(** A writer that appends [out v] exactly when [v] is in range. *)
Definition appends (write : DataWriter.t -> result DataWriter.t) (ok : bool) (out : list Z) : Prop :=
  forall w, write w ≈ (if ok then Ok (w ++ out) else Throw "").

Lemma appends_unsigned v n :
  appends (DataWriter.unsigned v n) ((0 <=? v) && (v <? 2 ^ (Z.of_nat n * 8))) (le_split n v).
Proof.
  intros w. unfold DataWriter.unsigned, same_outcome. rewrite shiftl_1_pow, push_loop_split by lia.
  destruct (Z.ltb_spec v 0), (Z.ltb_spec (2 ^ (Z.of_nat n * 8) - 1) v), (Z.leb_spec 0 v),
    (Z.ltb_spec v (2 ^ (Z.of_nat n * 8))); cbn; (done || lia).
Qed.

Lemma appends_signed v n : (0 < n)%nat ->
  appends (DataWriter.signed v n) ((- 2 ^ (Z.of_nat n * 8 - 1) <=? v) && (v <? 2 ^ (Z.of_nat n * 8 - 1)))
    (le_split n (wrap_signed n v)).
Proof.
  intros Hn w. unfold DataWriter.signed, same_outcome, wrap_signed. rewrite !shiftl_1_pow, push_loop_split by lia.
  destruct (Z.ltb_spec v (- 2 ^ (Z.of_nat n * 8 - 1))), (Z.ltb_spec (2 ^ (Z.of_nat n * 8 - 1) - 1) v),
    (Z.leb_spec (- 2 ^ (Z.of_nat n * 8 - 1)) v), (Z.ltb_spec v (2 ^ (Z.of_nat n * 8 - 1))); cbn; (done || lia).
Qed.

Lemma appends_u8 v : appends (DataWriter.u8 v) ((0 <=? v) && (v <? 2 ^ 8)) [v].
Proof.
  intros w. unfold DataWriter.u8, same_outcome.
  destruct (Z.ltb_spec v 0), (Z.ltb_spec 255 v), (Z.leb_spec 0 v), (Z.ltb_spec v (2 ^ 8)); cbn; (done || lia).
Qed.

Lemma appends_u16 v : appends (DataWriter.u16 v) ((0 <=? v) && (v <? 2 ^ 16)) (le_split 2 v).
Proof.
  intros w. unfold DataWriter.u16, same_outcome.
  change [Z.land v 255; Z.land (Z.shiftr v 8) 255] with (push_loop 2 v). rewrite push_loop_split.
  destruct (Z.ltb_spec v 0), (Z.ltb_spec 65535 v), (Z.leb_spec 0 v), (Z.ltb_spec v (2 ^ 16)); cbn; (done || lia).
Qed.

(** One checked field: both sides go on with the same bytes, or both throw. *)
Lemma field_step {B} (c : result Z) write (ok : bool) (z : Z) (out : list Z) w (F : Z -> result B) (G : DataWriter.t -> result B) e :
  c ≈ (if ok then Ok z else Throw e) -> appends write ok out ->
  (ok = true -> F z ≈ G (w ++ out)) ->
  (x ← c; F x) ≈ (w' ← write w; G w').
Proof.
  intros Hc Hw HF. specialize (Hw w).
  destruct ok, c as [x|], (write w) as [w'|]; unfold same_outcome in *; cbn in *; try done.
  injection Hc as ->. injection Hw as ->. by apply HF.
Qed.

Lemma bind_ret_r {A} (r : result A) : (x ← r; Ok x) = r.
Proof. by destruct r. Qed.

Section Steps.
Context {B : Type} (v : numeric) (name : string) (w : DataWriter.t) (F : Z -> result B) (G : DataWriter.t -> result B)
  (Hv : exact v).

Lemma step_unsigned n :
  F (value v) ≈ G (w ++ le_split n (value v)) ->
  (x ← checkedUnsigned v (Z.of_nat n * 8) name; F x) ≈ (w' ← DataWriter.unsigned (value v) n w; G w').
Proof using Hv.
  intros HF. eapply field_step; [by apply checkedUnsigned_exact; [|lia]|apply appends_unsigned|done].
Qed.

Lemma step_signed n : (0 < n)%nat ->
  F (value v) ≈ G (w ++ le_split n (wrap_signed n (value v))) ->
  (x ← checkedSigned v (Z.of_nat n * 8) name; F x) ≈ (w' ← DataWriter.signed (value v) n w; G w').
Proof using Hv.
  intros Hn HF. eapply field_step; [by apply checkedSigned_exact; [|lia]|by apply appends_signed|done].
Qed.

Lemma step_u64 :
  F (value v) ≈ G (w ++ le_split 8 (value v)) ->
  (x ← checkedUnsigned v 64 name; F x) ≈ (w' ← DataWriter.u64 (value v) w; G w').
Proof using Hv. exact (step_unsigned 8). Qed.

Lemma step_u128 :
  F (value v) ≈ G (w ++ le_split 16 (value v)) ->
  (x ← checkedUnsigned v 128 name; F x) ≈ (w' ← DataWriter.u128 (value v) w; G w').
Proof using Hv. exact (step_unsigned 16). Qed.

Lemma step_i64 :
  F (value v) ≈ G (w ++ le_split 8 (wrap_signed 8 (value v))) ->
  (x ← checkedSigned v 64 name; F x) ≈ (w' ← DataWriter.i64 (value v) w; G w').
Proof using Hv. apply (step_signed 8). lia. Qed.

Lemma step_i128 :
  F (value v) ≈ G (w ++ le_split 16 (wrap_signed 16 (value v))) ->
  (x ← checkedSigned v 128 name; F x) ≈ (w' ← DataWriter.i128 (value v) w; G w').
Proof using Hv. apply (step_signed 16). lia. Qed.

Lemma step_u8 :
  F (value v) ≈ G (w ++ [value v]) ->
  (x ← checkedUnsigned v 8 name; F x) ≈ (w' ← DataWriter.u8 (value v) w; G w').
Proof using Hv. intros HF. eapply field_step; [by apply checkedUnsigned_exact|apply appends_u8|done]. Qed.

Lemma step_u16 :
  F (value v) ≈ G (w ++ le_split 2 (value v)) ->
  (x ← checkedUnsigned v 16 name; F x) ≈ (w' ← DataWriter.u16 (value v) w; G w').
Proof using Hv. intros HF. eapply field_step; [by apply checkedUnsigned_exact|apply appends_u16|done]. Qed.
End Steps.

(** The last field, and a step the worker alone performs. *)
Lemma step_last {B} (r : result B) s : r ≈ (w ← s; Ok w) -> r ≈ s.
Proof. by destruct s. Qed.

Lemma step_opcode {B} v w (r : result B) (G : DataWriter.t -> result B) :
  0 <= v < 256 -> r ≈ G (w ++ [v]) -> r ≈ (w' ← DataWriter.u8 v w; G w').
Proof.
  intros Hv HG. unfold DataWriter.u8. rewrite (proj2 (Z.ltb_ge _ _)), (proj2 (Z.ltb_ge _ _)) by lia. done.
Qed.

(** One checked field; the last one; a constant byte the worker writes. *)
Ltac field :=
  first [ eapply step_u64 | eapply step_u128 | eapply step_i64 | eapply step_i128 | eapply step_u16 | eapply step_u8 ];
  [first [eassumption | done]|].
Ltac last_field := apply step_last; field.

Lemma bit_byte (b : bool) : 0 <= (if b then 0 else 1) < 256.
Proof. destruct b; lia. Qed.

Ltac const_byte := apply step_opcode; [first [apply bit_byte | done | by vm_compute]|].

(** ** Orders *)

Definition nonce_allowed (session : option AddressInput) (nonce : numeric) : Prop :=
  given session ≠ None \/ is_number_zero nonce = true.

Lemma check_action_nonce_Ok session nonce : nonce_allowed session nonce -> check_action_nonce session nonce = Ok tt.
Proof.
  intros Hn. unfold check_action_nonce. apply throw_if_Ok.
  destruct Hn as [Hs|Hz]; [by rewrite bool_decide_eq_false_2|rewrite Hz; by destruct (bool_decide _)].
Qed.

(** The fields the worker's encoder takes for the same order. *)
Definition worker_fields (p : OrderParams) : PlaceOrderFields :=
  mkOrderFields (side p) (postOnly p) (immediateOrCancel p) (reduceOnly p) (default tree_fixed (tree p))
    (value (seatIndex p)) (value (quantity p)) (value (priceOrOffset p)) (value (default (Num 0) (expiresAt p)))
    (value (default (Num 0) (pegLimit p))) (value (clientOrderId p)) (value (default (Num 0) (actionNonce p))).

(** Every number of the order is represented exactly, and the self-trade
    behaviour is the only one the worker encodes. *)
Record exact_order (p : OrderParams) : Prop := mkExactOrder {
  ex_seat : exact (seatIndex p); ex_quantity : exact (quantity p); ex_price : exact (priceOrOffset p);
  ex_expires : exact (default (Num 0) (expiresAt p)); ex_peg : exact (default (Num 0) (pegLimit p));
  ex_client : exact (clientOrderId p); ex_nonce : exact (default (Num 0) (actionNonce p));
  ex_self_trade : default stp_abort (selfTradeBehavior p) = stp_abort }.

Lemma order_flag_bits_worker p : exact_order p -> order_flag_bits p = order_flags (worker_fields p).
Proof.
  intros Hp. unfold order_flag_bits, selfTradeBits. rewrite (ex_self_trade p Hp). unfold order_flags. cbn.
  by destruct (postOnly p), (immediateOrCancel p), (reduceOnly p).
Qed.

Lemma order_flags_byte f : 0 <= order_flags f < 256.
Proof. unfold order_flags. destruct (pf_postOnly f), (pf_immediateOrCancel f), (pf_reduceOnly f); vm_compute; done. Qed.

(** The worker's order body behind any prefix. *)
Definition order_body (f : PlaceOrderFields) (w : DataWriter.t) : result DataWriter.t :=
  w ← DataWriter.u8 (side_code f) w; w ← DataWriter.u8 (tree_code f) w; w ← DataWriter.u8 (order_flags f) w;
  w ← DataWriter.u16 (pf_seatIndex f) w; w ← DataWriter.u64 (pf_quantity f) w; w ← DataWriter.i64 (pf_priceOrOffset f) w;
  w ← DataWriter.u64 (pf_expiresAt f) w; w ← DataWriter.i64 (pf_pegLimit f) w; w ← DataWriter.u64 (pf_clientOrderId f) w;
  DataWriter.u64 (pf_actionNonce f) w.

Lemma placeOrderData_body f : placeOrderData f = order_body f [OPCODE.placeOrder].
Proof. done. Qed.

Lemma appends_bind w1 w2 ok1 ok2 out1 out2 :
  appends w1 ok1 out1 -> appends w2 ok2 out2 -> appends (fun w => w ← w1 w; w2 w) (ok1 && ok2) (out1 ++ out2).
Proof.
  intros H1 H2 w. specialize (H1 w). destruct ok1, (w1 w) as [w'|]; unfold same_outcome in *; cbn in *; try done.
  injection H1 as ->. rewrite (H2 _). destruct ok2; [by rewrite <- app_assoc|done].
Qed.

Lemma order_body_appends f : exists ok out, appends (order_body f) ok out.
Proof.
  eexists _, _. unfold order_body.
  repeat (refine (appends_bind _ _ _ _ _ _ _ _);
    [first [apply appends_u8 | apply appends_u16 | apply (appends_unsigned _ 8) | apply (appends_signed _ 8); lia]|]).
  apply (appends_unsigned _ 8).
Qed.

Ltac data_eq := unfold same_outcome; cbn [outcome]; f_equal; fill.

Section OrderData.
Context (session : option AddressInput) (p : OrderParams).
Context (Hp : exact_order p) (Hn : nonce_allowed session (default (Num 0) (actionNonce p))).

Lemma placeOrder_data_same k : orderData OPCODE.placeOrder k session p ≈ placeOrderData (worker_fields p).
Proof using Hp Hn.
  pose proof (order_flag_bits_worker p Hp) as Hf. pose proof (order_flags_byte (worker_fields p)) as Hb.
  destruct Hp. unfold orderData, placeOrderData.
  cbn [Z.eqb Pos.eqb OPCODE.placeOrder OPCODE.replaceOrder mbind result_bind]. rewrite Hf. clear Hf.
  do 4 const_byte. cbv zeta. do 6 field. rewrite check_action_nonce_Ok by done. cbn [mbind result_bind]. last_field.
  data_eq.
Qed.

Lemma replaceOrder_data_body key :
  orderData OPCODE.replaceOrder (BigInt key) session p ≈
  (w ← DataWriter.u128 key [OPCODE.replaceOrder]; order_body (worker_fields p) w).
Proof using Hp Hn.
  pose proof (order_flag_bits_worker p Hp) as Hf. pose proof (order_flags_byte (worker_fields p)) as Hb.
  destruct Hp. unfold orderData, order_body.
  cbn [Z.eqb Pos.eqb OPCODE.placeOrder OPCODE.replaceOrder]. rewrite Hf. clear Hf.
  assert (forall {A B C} (r : result A) (g : A -> B) (h : B -> result C), ((a ← r; Ok (g a)) ≫= h) = (a ← r; h (g a))) as ->
    by (by intros ??? []).
  change key with (value (BigInt key)) at 2. field.
  unfold side_code, tree_code. do 3 const_byte. cbv zeta. do 6 field. rewrite check_action_nonce_Ok by done.
  cbn [mbind result_bind]. last_field. data_eq.
Qed.

Lemma replaceOrder_data_same key :
  orderData OPCODE.replaceOrder (BigInt key) session p ≈
  (place ← placeOrderData (worker_fields p);
   w ← DataWriter.u8 OPCODE.replaceOrder DataWriter.empty; w ← DataWriter.u128 key w; DataWriter.raw (drop 1 place) w).
Proof using Hp Hn.
  rewrite replaceOrder_data_body, placeOrderData_body. destruct (order_body_appends (worker_fields p)) as (ok & out & Ha).
  pose proof (Ha [OPCODE.placeOrder]) as Hplace. pose proof (appends_unsigned key 16 [OPCODE.replaceOrder]) as Hkey.
  destruct ok, (order_body (worker_fields p) [OPCODE.placeOrder]) as [w|]; try done; cbn [mbind result_bind];
    [injection Hplace as ->|]; change (DataWriter.u8 OPCODE.replaceOrder DataWriter.empty) with (Ok [OPCODE.replaceOrder]);
    cbn [mbind result_bind]; unfold DataWriter.u128; set (u := DataWriter.unsigned key 16 [OPCODE.replaceOrder]) in *;
    destruct u as [w|]; cbn [mbind result_bind]; try done; rewrite (Ha w); done.
Qed.
End OrderData.

Lemma cancel_data_same session seat key nonce :
  exact seat -> exact nonce -> nonce_allowed session nonce ->
  cancel_data session seat key nonce ≈
  (w ← DataWriter.u8 OPCODE.cancelOrder DataWriter.empty; w ← DataWriter.u16 (value seat) w; w ← DataWriter.u128 key w;
   DataWriter.u64 (value nonce) w).
Proof.
  intros Hs He Hn. unfold cancel_data. rewrite check_action_nonce_Ok by done. const_byte. cbv zeta. cbn [mbind result_bind].
  field. change key with (value (BigInt key)) at 2. field. last_field. data_eq.
Qed.

Lemma cancel_all_data_same session seat max nonce :
  exact seat -> exact max -> exact nonce -> nonce_allowed session nonce ->
  cancel_all_data session seat max nonce ≈
  (w ← DataWriter.u8 OPCODE.cancelAll DataWriter.empty; w ← DataWriter.u16 (value seat) w; w ← DataWriter.u8 (value max) w;
   DataWriter.u64 (value nonce) w).
Proof.
  intros Hs Hm He Hn. unfold cancel_all_data. rewrite check_action_nonce_Ok by done. const_byte. cbv zeta.
  cbn [mbind result_bind]. field. field. last_field. data_eq.
Qed.

Lemma seat_data_same op seat :
  0 <= op < 256 -> exact seat ->
  seat_data op seat ≈ (w ← DataWriter.u8 op DataWriter.empty; DataWriter.u16 (value seat) w).
Proof. intros Ho Hs. unfold seat_data. const_byte. cbv zeta. last_field. data_eq. Qed.

Lemma amount_data_same op name amount :
  0 <= op < 256 -> exact amount ->
  amount_data op name amount ≈ (w ← DataWriter.u8 op DataWriter.empty; DataWriter.u64 (value amount) w).
Proof. intros Ho Ha. unfold amount_data. const_byte. cbv zeta. last_field. data_eq. Qed.

Lemma v3AmountData_same op seat amount :
  0 <= op < 256 -> exact seat -> exact amount ->
  v3AmountData op seat amount ≈ seat_amount_data op (value seat) (value amount).
Proof. intros Ho Hs Ha. unfold v3AmountData, seat_amount_data. const_byte. cbv zeta. field. last_field. data_eq. Qed.

Lemma funding_data_same accumulator timestamp :
  exact timestamp ->
  funding_data accumulator timestamp ≈
  (w ← DataWriter.u8 OPCODE.updateFunding DataWriter.empty; w ← DataWriter.i128 accumulator w;
   DataWriter.u64 (value timestamp) w).
Proof.
  intros Ht. unfold funding_data. const_byte. cbv zeta. change accumulator with (value (BigInt accumulator)) at 2.
  field. last_field. data_eq.
Qed.

Record exact_policy (policy : TradingSessionPolicy) : Prop := mkExactPolicy {
  ep_seat : exact (tp_seatIndex policy); ep_actions : exact (tp_actions policy);
  ep_order : exact (tp_maxOrderNotional policy); ep_cumulative : exact (tp_maxCumulativeNotional policy);
  ep_exposure : exact (tp_maximumExposure policy); ep_open : exact (tp_maximumOpenOrders policy) }.

Definition worker_limits (expiresAt : numeric) (policy : TradingSessionPolicy) : SessionLimits :=
  mkSessionLimits (value (tp_seatIndex policy)) (value expiresAt) (value (tp_actions policy))
    (value (tp_maxOrderNotional policy)) (value (tp_maxCumulativeNotional policy)) (value (tp_maximumExposure policy))
    (value (tp_maximumOpenOrders policy)).

Lemma session_data_v3_same op expiresAt policy :
  0 <= op < 256 -> exact expiresAt -> exact_policy policy ->
  session_data_v3 op expiresAt policy ≈ session_limits_data op (worker_limits expiresAt policy).
Proof.
  intros Ho He []. unfold session_data_v3, session_limits_data. const_byte. cbv zeta. do 6 field. last_field. data_eq.
Qed.

(** ** Account lists *)

Section Accounts.
Context (web3 : Web3).

Definition valid_address (a : AddressInput) : Prop := exists k, publicKey web3 a = Ok k.
Definition key_of (a : AddressInput) : PublicKey := match publicKey web3 a with Ok k => k | Throw _ => [] end.

(** The account row the worker is given for a client row. *)
Definition row_meta (row : AddressInput * bool * bool) : AccountMeta :=
  mkMeta (toBase58 web3 (key_of row.1.1)) (role_of row.1.2 row.2).

Definition worker_accounts (a : V3ExecutionAccounts) : V3ExecutionAccountMetas :=
  mkV3Metas (row_meta (w_ (core a))) (row_meta ∘ w_ <$> bookPages a) (row_meta ∘ w_ <$> seatShards a)
    (row_meta ∘ w_ <$> eventShards a) (row_meta (s_ (authority a))) (row_meta ∘ w_ <$> given (session a)).

Definition kit_metas (ms : list ClientMeta) : list AccountMeta := kit_meta web3 <$> ms.

Lemma metas_valid rows :
  Forall (fun row => valid_address row.1.1) rows -> kit_metas <$> metas web3 rows = Ok (row_meta <$> rows).
Proof.
  intros Hrows.
  assert (metas web3 rows = Ok ((fun row => mkClientMeta (key_of row.1.1) row.1.2 row.2) <$> rows)) as ->.
  { apply mapR_pure. intros [[a sg] wr] Hin. rewrite list.Forall_forall in Hrows. destruct (Hrows _ Hin) as [k Hk].
    unfold accountMeta, key_of. cbn in *. by rewrite Hk. }
  cbn. unfold kit_metas. by rewrite <- list_fmap_compose.
Qed.

(** Every address of the execution tuple parses. *)
Definition valid_execution (a : V3ExecutionAccounts) : Prop :=
  Forall valid_address (core a :: authority a :: bookPages a ++ seatShards a ++ eventShards a)
  /\ forall s, given (session a) = Some s -> valid_address s.

Lemma v3Metas_same a :
  valid_execution a -> given (oracleSnapshot a) = None ->
  kit_metas <$> v3ExecutionMetas web3 a ≈ Transactions.v3ExecutionMetas (worker_accounts a) false.
Proof.
  intros [Ha Hs] Hsnap. unfold v3ExecutionMetas, Transactions.v3ExecutionMetas, worker_accounts, bundle_complete, len_is.
  cbn [va_bookPages va_seatShards va_eventShards va_core va_authority va_session andb]. rewrite !length_fmap.
  rewrite !negb_andb. destruct (_ || _)%bool; cbn [throw_if mbind result_bind]; [done|].
  rewrite Hsnap. cbn [optional]. rewrite app_nil_r, metas_valid.
  - unfold same_outcome. cbn [outcome]. f_equal. rewrite fmap_app. unfold bundle_rows.
    rewrite fmap_cons, !fmap_app, <- !list_fmap_compose. cbn [app]. rewrite <- !app_assoc. cbn [app fmap list_fmap]. by destruct (given (session a)).
  - apply list.Forall_cons in Ha as [Hc [Hau Ha]%list.Forall_cons]. rewrite !Forall_app in Ha. destruct Ha as (Hb & Hse & Hev).
    unfold bundle_rows. rewrite Forall_app, list.Forall_cons, !Forall_app, !Forall_fmap. split_and!; try done.
    + by constructor.
    + destruct (given (session a)) as [x|]; [|done]. constructor; [|done]. by apply Hs.
Qed.

(** Where the client's nonce check passes, so does the worker's. *)
Lemma worker_nonce_Ok a nonce :
  nonce_allowed (session a) nonce -> assertV3ActionNonce (worker_accounts a) (value nonce) = Ok tt.
Proof.
  intros [Hs|Hz]; apply throw_if_Ok; cbn [va_session worker_accounts].
  - destruct (given (session a)); [done|by destruct Hs].
  - destruct nonce; cbn in Hz |- *; [done|rewrite Hz|done]. apply andb_false_r.
Qed.

Lemma kit_instruction_same data wdata ms wms :
  data ≈ wdata -> kit_metas <$> ms ≈ wms ->
  toKitInstruction web3 <$> (d ← data; instruction web3 d ms)
  ≈ (m ← wms; Transactions.instruction (toBase58 web3 (EQUINOX_PROGRAM_KEY web3)) m wdata).
Proof.
  unfold same_outcome. destruct data as [d|], wdata as [d'|], ms as [m|], wms as [m'|]; cbn; intros Hd Hm; try done.
  injection Hd as ->. by injection Hm as <-.
Qed.
End Accounts.


(** ** The browser's session orders at the relayer *)

Definition is_key (k : PublicKey) : Prop := uint8array k /\ length k = 32%nat.

(** What the relayer and the browser rely on: both libraries derive a program
    address from the concatenation of its seeds, and a key survives its Base58
    form. *)
Class PdaAgreement (web3 : Web3) (kit : Kit) : Prop := {
  pda_same seeds seeds' : concat seeds = concat seeds' ->
    getProgramDerivedAddress kit (kit_programId kit) seeds
    = toBase58 web3 (findProgramAddressSync web3 seeds' (EQUINOX_PROGRAM_KEY web3));
  pda_program : kit_programId kit = toBase58 web3 (EQUINOX_PROGRAM_KEY web3);
  pda_program_key : is_key (EQUINOX_PROGRAM_KEY web3);
  pda_text k : is_key k -> address_bytes kit (toBase58 web3 k) = Some k }.

(** The relayer with the worker's own derivations. *)
Definition with_worker_pdas (pf : RelayPlatform) (kit : Kit) : RelayPlatform :=
  mkPlatform (decodeTransaction pf) (decodeMessage pf) (verifyEd25519 pf) (base58Bytes pf)
    (WorkerPdas.deriveBookPageV3 kit) (WorkerPdas.deriveSeatShardV3 kit) (WorkerPdas.deriveEventShardV3 kit)
    (WorkerPdas.deriveTradingSessionAddress kit).

(** A compiled message gives each account of the instruction the address and
    the privileges its row asks for. *)
Definition compiled_as (web3 : Web3) (h : MessageHeader) (staticAccounts : list string) (indices : list Z)
    (ms : list ClientMeta) : Prop :=
  Forall2 (fun i m => nth_account staticAccounts i = Some (toBase58 web3 (pubkey m))
    /\ account_signer h i = isSigner m /\ account_writable h (Z.of_nat (length staticAccounts)) i = isWritable m) indices ms.

Lemma page_range flat : flat ∈ seqZ 0 18 -> ((flat / 9 <? 0) || (1 <? flat / 9) || (flat mod 9 <? 0) || (9 <=? flat mod 9))%bool = false.
Proof.
  rewrite elem_of_seqZ. intros Hf. assert (0 <= flat / 9 <= 1 /\ 0 <= flat mod 9 < 9) by (Z.to_euclidean_division_equations; lia).
  destruct (Z.ltb_spec (flat / 9) 0), (Z.ltb_spec 1 (flat / 9)), (Z.ltb_spec (flat mod 9) 0), (Z.leb_spec 9 (flat mod 9)); (done || lia).
Qed.

Lemma shard_range i : i ∈ seqZ 0 4 -> ((i <? 0) || (4 <=? i))%bool = false.
Proof. rewrite elem_of_seqZ. intros Hi. destruct (Z.ltb_spec i 0), (Z.leb_spec 4 i); (done || lia). Qed.

Definition row_privileges (index : Z) (m : ClientMeta) : Prop :=
  isSigner m = (index =? 27) /\ isWritable m = ((index <? 27) || (index =? 28))%bool.

Lemma check_accounts_accepts web3 h static indices ms : forall index,
  compiled_as web3 h static indices ms ->
  (forall j m, ms !! j = Some m -> row_privileges (index + Z.of_nat j) m) ->
  check_accounts h static indices (toBase58 web3 ∘ pubkey <$> ms) index = None.
Proof.
  intros index Hc. revert index. induction Hc as [|i m is_ ms (Ha & Hs & Hw) _ IH]; intros index Hp; cbn; [done|].
  rewrite Ha, bool_decide_eq_true_2 by done. cbn [negb].
  destruct (Hp 0%nat m eq_refl) as [Es Ew]. rewrite Z.add_0_r in Es, Ew. rewrite Hs, Hw, Es, Ew.
  rewrite !bool_decide_eq_true_2 by done. cbn [negb orb]. apply IH. intros j m' Hj.
  replace (index + 1 + Z.of_nat j) with (index + Z.of_nat (S j)) by lia. by apply Hp.
Qed.

Section SessionOrders.
Context (web3 : Web3) (kit : Kit) `{!PdaAgreement web3 kit} (pf : RelayPlatform).
Context (market owner signer : PublicKey) (Hmarket : is_key market) (Howner : is_key owner)
  (Hsigner : is_key signer).

#[local] Abbreviation text := (toBase58 web3).

(** The canonical accounts of a session order on this market. *)
Definition page_keys : list PublicKey :=
  (fun flat => find web3 [ascii_bytes "book-page-v3"; market; [flat / 9]; [flat mod 9]]) <$> seqZ 0 18.
Definition seat_keys : list PublicKey := (fun i => find web3 [ascii_bytes "seat-shard-v3"; market; [i]]) <$> seqZ 0 4.
Definition event_keys : list PublicKey := (fun i => find web3 [ascii_bytes "event-shard-v3"; market; [i]]) <$> seqZ 0 4.
Definition session_key (seat : Z) : PublicKey :=
  find web3 [ascii_bytes "trading_session"; owner; market; le_split 2 seat; signer].

Definition session_accounts (seat : Z) : V3ExecutionAccounts :=
  mkExecution (addr_key market) (addr_key <$> page_keys) (addr_key <$> seat_keys) (addr_key <$> event_keys)
    (addr_key signer) (Some (addr_key (session_key seat))) None.

Definition session_rows (seat : Z) : list ClientMeta :=
  ((fun k => mkClientMeta k false true) <$> market :: page_keys ++ seat_keys ++ event_keys)
  ++ [mkClientMeta signer true false; mkClientMeta (session_key seat) false true].

Lemma pages_Ok : mapR (fun flat => deriveBookPageV3 web3 market (flat / 9) (flat mod 9)) (seqZ 0 18) = Ok page_keys.
Proof. apply mapR_pure. intros flat Hf. unfold deriveBookPageV3. by rewrite (page_range flat Hf). Qed.

Lemma seats_Ok : mapR (deriveSeatShardV3 web3 market) (seqZ 0 4) = Ok seat_keys.
Proof. apply mapR_pure. intros i Hi. unfold deriveSeatShardV3. by rewrite (shard_range i Hi). Qed.

Lemma events_Ok : mapR (deriveEventShardV3 web3 market) (seqZ 0 4) = Ok event_keys.
Proof. apply mapR_pure. intros i Hi. unfold deriveEventShardV3. by rewrite (shard_range i Hi). Qed.

Lemma derived_accounts seat :
  0 <= seat < 2 ^ 16 ->
  deriveTradingSession web3 (addr_key owner) (addr_key market) (Num seat) (addr_key signer) = Ok (session_key seat)
  /\ deriveV3ExecutionAccounts web3 (addr_key market) (addr_key signer) (Some (addr_key (session_key seat)))
     = Ok (session_accounts seat).
Proof.
  intros Hseat. split.
  - assert (checkedUnsigned (Num seat) 16 "seatIndex" = Ok seat) as Hc.
    { apply (same_outcome_Ok _ _ _ (checkedUnsigned_exact (Num seat) 16 "seatIndex" ltac:(cbn; unfold isSafeInteger, MAX_SAFE_INTEGER; zbool; lia) ltac:(lia))).
      cbn [value]. rewrite (proj2 (Z.leb_le _ _)), (proj2 (Z.ltb_lt _ _)) by lia. done. }
    unfold deriveTradingSession. rewrite Hc. cbn [mbind result_bind publicKey]. unfold session_key.
    assert (setUint16 (new_Uint8Array 2) 0 seat = le_split 2 seat) as ->; [|done].
    change (le_split 2 seat) with ([] ++ le_split 2 seat). unfold setUint16. fill.
  - unfold deriveV3ExecutionAccounts. cbn [publicKey mbind result_bind]. by rewrite pages_Ok, seats_Ok, events_Ok.
Qed.

(** The worker derives the same addresses. *)
Lemma coreSeed_text k : is_key k -> WorkerPdas.coreSeed kit (text k) = Ok k.
Proof. intros Hk. unfold WorkerPdas.coreSeed. by rewrite (pda_text k Hk). Qed.

Lemma worker_derive seed suffix suffixes :
  concat suffixes = suffix ->
  WorkerPdas.derive kit seed (text market) suffix = Ok (text (find web3 (ascii_bytes seed :: market :: suffixes))).
Proof.
  intros <-. unfold WorkerPdas.derive. rewrite coreSeed_text by done. cbn [mbind result_bind]. f_equal. apply pda_same.
  cbn. by rewrite app_nil_r.
Qed.

Lemma worker_pages_Ok :
  mapR (fun flat => WorkerPdas.deriveBookPageV3 kit (text market) (flat / 9) (flat mod 9)) (seqZ 0 18) = Ok (text <$> page_keys).
Proof.
  unfold page_keys. rewrite <- list_fmap_compose. apply mapR_pure. intros flat Hf. unfold WorkerPdas.deriveBookPageV3.
  rewrite (page_range flat Hf). cbn [throw_if mbind result_bind]. by apply worker_derive.
Qed.

Lemma worker_seats_Ok : mapR (WorkerPdas.deriveSeatShardV3 kit (text market)) (seqZ 0 4) = Ok (text <$> seat_keys).
Proof.
  unfold seat_keys. rewrite <- list_fmap_compose. apply mapR_pure. intros i Hi. unfold WorkerPdas.deriveSeatShardV3.
  rewrite (shard_range i Hi). cbn [throw_if mbind result_bind]. by apply worker_derive.
Qed.

Lemma worker_events_Ok : mapR (WorkerPdas.deriveEventShardV3 kit (text market)) (seqZ 0 4) = Ok (text <$> event_keys).
Proof.
  unfold event_keys. rewrite <- list_fmap_compose. apply mapR_pure. intros i Hi. unfold WorkerPdas.deriveEventShardV3.
  rewrite (shard_range i Hi). cbn [throw_if mbind result_bind]. by apply worker_derive.
Qed.

Lemma worker_session_Ok seat :
  WorkerPdas.deriveTradingSessionAddress kit (text owner) (text market) seat (text signer) (kit_programId kit)
  = Ok (text (session_key seat)).
Proof.
  unfold WorkerPdas.deriveTradingSessionAddress. rewrite pda_program at 1.
  rewrite (coreSeed_text (EQUINOX_PROGRAM_KEY web3)) by apply pda_program_key. rewrite !coreSeed_text by done.
  cbn [mbind result_bind]. f_equal. apply pda_same. cbn [le_split]. by rewrite !land_255, Z.shiftr_div_pow2 by lia.
Qed.

(** Row [i] of a session order: 27 writable accounts, the signer, the session. *)
Lemma session_rows_privileges seat :
  isSigner <$> session_rows seat = (fun i => Z.of_nat i =? 27) <$> seq 0 29
  /\ isWritable <$> session_rows seat = (fun i => (Z.of_nat i <? 27) || (Z.of_nat i =? 28)) <$> seq 0 29.
Proof. by split. Qed.

Lemma session_metas_Ok seat : v3ExecutionMetas web3 (session_accounts seat) = Ok (session_rows seat).
Proof. reflexivity. Qed.

Lemma session_rows_index seat j m : session_rows seat !! j = Some m -> row_privileges (Z.of_nat j) m.
Proof.
  intros Hj. destruct (session_rows_privileges seat) as [Hs Hw].
  assert (Hlt := lookup_lt_Some _ _ _ Hj). change (length (session_rows seat)) with 29%nat in Hlt.
  apply (f_equal (.!! j)) in Hs, Hw. rewrite !list_lookup_fmap, Hj, lookup_seq_lt in Hs, Hw by lia. cbn in Hs, Hw.
  split; [by injection Hs|by injection Hw].
Qed.
End SessionOrders.

(** C12. An order the browser signs with its session key is one the relayer
    accepts.  The builder's account vector for the derived session is exactly
    the 29 addresses the worker derives on its own, in order; any compiled
    message that gives these accounts the privileges of their rows passes the
    relayer's account check; and from the instruction's bytes the relayer reads
    back the seat, the nonce, the flags and the order itself.  Both sides derive
    addresses with different libraries and different seed groupings, which is
    why the agreement of the two derivations is a hypothesis. *)
Theorem session_order_relayable web3 kit pf market owner signer request seat p :
  PdaAgreement web3 kit -> is_key market -> is_key owner -> is_key signer ->
  0 <= seat < 2 ^ 16 ->
  rq_sessionSignerAddress request = toBase58 web3 signer -> rq_expectedProgramAddress request = kit_programId kit ->
  exact_order p -> seatIndex p = Num seat -> value (quantity p) ≠ 0 ->
  exists session accounts,
    deriveTradingSession web3 (addr_key owner) (addr_key market) (Num seat) (addr_key signer) = Ok session
    /\ deriveV3ExecutionAccounts web3 (addr_key market) (addr_key signer) (Some (addr_key session)) = Ok accounts
    /\ forall ix, placeOrderV3 web3 accounts p = Ok ix ->
       expected_bundle (with_worker_pdas pf kit) request (toBase58 web3 market) (toBase58 web3 owner) seat
         = Ok (toBase58 web3 ∘ pubkey <$> ti_keys ix)
       /\ (forall h static indices, compiled_as web3 h static indices (ti_keys ix) ->
             NoDup (toBase58 web3 ∘ pubkey <$> ti_keys ix) ->
             validateCanonicalV3Accounts h static indices (toBase58 web3 ∘ pubkey <$> ti_keys ix) = None)
       /\ instruction_fields (ti_data ix) = Ok (inr (mkRelayFields 3 seat (value (default (Num 0) (actionNonce p)))
            (order_flag_bits p) (Some (intent_of (worker_fields p) false)))).
Proof.
  intros Hpda Hm Ho Hs Hseat Hsig Hprog Hp Hpseat Hq.
  destruct (derived_accounts web3 market owner signer seat Hseat) as [Hd Hacc].
  eexists _, _. split; [exact Hd|]. split; [exact Hacc|]. intros ix (data & Hdata & Hix)%result_bind_Ok.
  assert (ti_keys ix = session_rows web3 market owner signer seat /\ ti_data ix = data) as [-> ->]
    by (unfold instruction in Hix; rewrite session_metas_Ok in Hix; by injection Hix as <-).
  split_and!.
  - unfold expected_bundle. cbn [with_worker_pdas Relay.deriveBookPageV3 Relay.deriveSeatShardV3 Relay.deriveEventShardV3 Relay.deriveTradingSessionAddress].
    rewrite Hsig, Hprog, worker_pages_Ok, worker_seats_Ok, worker_events_Ok by done.
    cbn [mbind result_bind]. rewrite worker_session_Ok by done.
    reflexivity.
  - intros h static indices Hc Hnd. unfold validateCanonicalV3Accounts.
    assert (length indices = 29%nat) as Hlen by (rewrite (Forall2_length Hc); done).
    rewrite length_fmap, Hlen, !bool_decide_eq_true_2 by done. cbn [negb].
    assert (nth_account static <$> indices = Some <$> (toBase58 web3 ∘ pubkey <$> session_rows web3 market owner signer seat)) as ->.
    { clear Hnd Hlen. induction Hc as [|i m is_ ms (Ha & _) _ IH]; cbn; [done|]. by rewrite Ha, IH. }
    rewrite bool_decide_eq_false_2 by (intros (? & ? & ?)%list_elem_of_fmap; done).
    rewrite bool_decide_eq_true_2 by (by apply NoDup_fmap_2; [apply _|]). cbn [negb].
    apply check_accounts_accepts; [done|]. intros j m Hj. rewrite Z.add_0_l. by eapply (session_rows_index web3 market owner signer).
  - assert (nonce_allowed (Some (addr_key (session_key web3 market owner signer seat))) (default (Num 0) (actionNonce p))) as Hn by by left.
    apply (same_outcome_Ok _ _ _ (placeOrder_data_same _ p Hp Hn _)) in Hdata.
    apply placeOrderData_bytes in Hdata as [-> Hr]. rewrite (order_flag_bits_worker p Hp).
    pose proof (order_read 3 [] (worker_fields p) Hr Hq ltac:(by left)) as E. refine (eq_trans E _).
    cbn [worker_fields pf_seatIndex pf_actionNonce]. by rewrite Hpseat.
Qed.

(** ** Witnesses *)

Definition text_of (k : list Z) : string := String.string_of_list_ascii (Ascii.ascii_of_N ∘ Z.to_N <$> k).

Lemma ascii_bytes_text k : uint8array k -> ascii_bytes (text_of k) = k.
Proof.
  unfold ascii_bytes, text_of. rewrite String.list_ascii_of_string_of_list_ascii.
  induction 1 as [|b k Hb _ IH]; cbn; [done|]. rewrite IH. f_equal. unfold is_byte in Hb.
  rewrite Ascii.N_ascii_embedding by lia. lia.
Qed.

(** Addresses as the concatenation of their seeds, keys as their own text. *)
Definition sample_web3 : Web3 :=
  mkWeb3 (fun s => Some (ascii_bytes s)) (fun seeds _ => concat seeds) text_of (replicate 32 9).
Definition sample_kit : Kit :=
  mkKit (fun s => Some (ascii_bytes s)) (fun _ seeds => text_of (concat seeds)) (text_of (replicate 32 9)).

#[export] Instance sample_agreement : PdaAgreement sample_web3 sample_kit.
Proof.
  split; [by intros seeds seeds' E; cbn; rewrite E|done|split; [by apply uint8array_check|done]|].
  intros k [Hk _]. exact (f_equal Some (ascii_bytes_text k Hk)).
Qed.

Definition sample_order : OrderParams :=
  mkOrderParams (Num 40) side_bid None (Num 5) (Num 250) None None (BigInt 77) (Some (Num 3)) true false false None.

Lemma sample_order_exact : exact_order sample_order.
Proof. by split. Qed.

Definition sample_execution : V3ExecutionAccounts :=
  mkExecution (addr_text "core") (addr_text <$> replicate 18 "page") (addr_text <$> replicate 4 "seat")
    (addr_text <$> replicate 4 "event") (addr_text "wallet") (Some (addr_text "session")) None.


Definition sample_request : RelayRequest :=
  mkRelayRequest "tx" (text_of (replicate 32 9)) (text_of (replicate 32 3)) None None None.

Lemma session_order_relayable_witness :
  exists session accounts ix,
    deriveTradingSession sample_web3 (addr_key (replicate 32 2)) (addr_key (replicate 32 1)) (Num 40) (addr_key (replicate 32 3))
      = Ok session
    /\ placeOrderV3 sample_web3 accounts sample_order = Ok ix
    /\ instruction_fields (ti_data ix) = Ok (inr (mkRelayFields 3 40 3 1 (Some (mkIntent 5 250 0 0 false false)))).
Proof.
  assert (forall b, is_byte b -> is_key (replicate 32 b)) as Hk
    by (intros b Hb; split; [by apply Forall_replicate|by rewrite length_replicate]).
  destruct (session_order_relayable sample_web3 sample_kit
    (mkPlatform (fun _ => None) (fun _ => None) (fun _ _ _ => false) (fun _ => Ok []) (fun _ _ _ => Ok "") (fun _ _ => Ok "")
       (fun _ _ => Ok "") (fun _ _ _ _ _ => Ok ""))
    (replicate 32 1) (replicate 32 2) (replicate 32 3) sample_request 40 sample_order sample_agreement
    (Hk 1 ltac:(split; lia)) (Hk 2 ltac:(split; lia)) (Hk 3 ltac:(split; lia)) ltac:(lia) eq_refl eq_refl
    sample_order_exact eq_refl ltac:(done)) as (session & accounts & Hd & Hacc & Hix).
  exists session, accounts.
  destruct (placeOrderV3 sample_web3 accounts sample_order) as [ix|e] eqn:E.
  - exists ix. split; [exact Hd|]. split; [done|]. exact (proj2 (proj2 (Hix ix eq_refl))).
  - exfalso. clear Hix. vm_compute in Hd. injection Hd as <-. vm_compute in Hacc. injection Hacc as <-.
    revert E. vm_compute. discriminate.
Defined.

(** ** Defects *)

(** A price that is not an integer (a fraction, an infinity, NaN) or exceeds the
    safe integers is not refused: the signed range check replaces it by zero, so
    the order that is signed carries the price 0. *)
Theorem fractional_price_encoded_as_zero web3 accounts p :
  let with_price price := mkOrderParams (seatIndex p) (side p) (tree p) (quantity p) price (expiresAt p) (pegLimit p)
    (clientOrderId p) (actionNonce p) (postOnly p) (immediateOrCancel p) (reduceOnly p) (selfTradeBehavior p) in
  placeOrderV3 web3 accounts (with_price NonInteger) = placeOrderV3 web3 accounts (with_price (Num 0))
  /\ placeOrderV3 web3 accounts (with_price (Num (2 ^ 53))) = placeOrderV3 web3 accounts (with_price (Num 0)).
Proof.
  cbv zeta. unfold placeOrderV3, orderData, order_flag_bits.
  cbn [seatIndex side tree quantity priceOrOffset expiresAt pegLimit clientOrderId actionNonce postOnly immediateOrCancel
       reduceOnly selfTradeBehavior].
  assert (forall v, v = NonInteger \/ v = Num (2 ^ 53) ->
    checkedSigned v 64 "priceOrOffset" = checkedSigned (Num 0) 64 "priceOrOffset") as Hz by (by intros v [->| ->]).
  rewrite !Hz by auto. split; reflexivity.
Qed.

(** The bigint 0 is refused as the nonce of a main-wallet action, although the
    parameter accepts bigints: [actionNonce !== 0] holds for [0n]. *)
Theorem bigint_zero_nonce_refused web3 accounts seat key :
  given (session accounts) = None ->
  cancelOrderV3 web3 accounts seat key (BigInt 0) = Throw "Main-wallet actions must use actionNonce zero".
Proof. intros Hs. unfold cancelOrderV3, cancel_data, check_action_nonce. by rewrite Hs. Qed.

(** The risk builders store their arguments without a range check: a margin of
    65,936 basis points is written as 400. *)
Theorem risk_update_wraps web3 market authority :
  updateMarketRisk web3 market authority (2 ^ 16 + 400) 500 10 = updateMarketRisk web3 market authority 400 500 10.
Proof. done. Qed.
