(* ===== verification/ClientAccounts.v ===== *)
(** * Account and event decoders of the client library

    clients/equinox/src/abi: accounts.ts (V2 market header), v3.ts (core, book
    pages, seat and event shards, oracle snapshot), sessions.ts (trading
    sessions), event-decoders.ts, legacy-decoders.ts and the opcode table of
    instructions.ts, with oracle-snapshot.ts of the worker.  The theorems relate
    them to the worker's own decoders of the same accounts (V3Market, MarkPrice,
    EventDecoder) and to the relayer's session check (Relay): the two sides of
    the system read the same accounts the same way. *)

From S2P Require Import Prelude Json Bytes ExecutionStatus Repositories V3Market MarkPrice EventDecoder Transactions Relay.
From S2P Require Import ClientInstructions.

(** The decoders carry the names of their counterparts in the worker. *)
Module Abi.

(** A 32-byte key at an offset. *)
Definition key (bs : list Z) (off : Z) : PublicKey := slice bs off (off + 32).

(** ** v3.ts *)

Definition V3_COMMIT_ACCOUNT_HARD_MAX : Z := 65535.
Definition V3_COMMIT_ACCOUNT_SAFE_MAX : Z := 10240.

Definition v3AccountIsCommittable (size : numeric) : bool :=
  match as_integer size with
  | Some z => (0 <=? z) && (z <=? V3_COMMIT_ACCOUNT_SAFE_MAX) && (z <=? V3_COMMIT_ACCOUNT_HARD_MAX)
  | None => false
  end.

(** [versioned]: size, discriminator and layout version. *)
Definition versioned := validVersion.

Record V3MarketCoreView := mkCoreView {
  cv_instrument : PublicKey; cv_marketAuthority : PublicKey; cv_mode : Z; cv_oracleValid : bool;
  cv_lastVerifiedOraclePrice : Z; cv_lastVerifiedOracleTimestamp : Z; cv_oracleFeedId : Z; cv_oracleChannel : Z;
  cv_oracleExponent : Z; cv_delegationStatus : Z; cv_expectedCommitSequence : Z; cv_lastCommittedSequence : Z;
  cv_validator : PublicKey; cv_initialMarginBps : Z; cv_maintenanceMarginBps : Z; cv_liquidationFeeBps : Z;
  cv_makerFeeBps : Z; cv_takerFeeBps : Z; cv_maximumLeverage : Z; cv_maximumPosition : Z; cv_maximumOpenInterest : Z;
  cv_currentOpenInterest : Z; cv_markDeviationBps : Z; cv_protocolFeeBalance : Z; cv_insuranceBalance : Z; cv_badDebt : Z;
  cv_vaultLiability : Z; cv_reconciliationStatus : Z; cv_riskConfigVersion : Z; cv_vaultSurplus : Z;
  cv_withdrawalBuffer : Z; cv_commitPhase : Z; cv_snapshotEpoch : Z; cv_snapshotChildCount : Z }.

Definition decodeV3MarketCore (bs : list Z) : result V3MarketCoreView :=
  _ ← throw_if (negb (versioned bs STKMK003 V3_CORE_SIZE) || negb (byte_is bs 10 1)) "Invalid V3 market core";
  _ ← throw_if (negb (byte_is bs 371 2)) "Unsupported V3 risk layout: revision 2 required";
  Ok {| cv_mode := byte_or_0 bs 11; cv_instrument := key bs 12; cv_marketAuthority := key bs 44;
        cv_oracleValid := byte_is bs 180 1; cv_lastVerifiedOraclePrice := i64_at bs 181;
        cv_lastVerifiedOracleTimestamp := u64_at bs 189; cv_oracleFeedId := u32_at bs 246;
        cv_oracleChannel := byte_or_0 bs 250; cv_oracleExponent := i32_at bs 251; cv_delegationStatus := byte_or_0 bs 197;
        cv_expectedCommitSequence := u64_at bs 198; cv_lastCommittedSequence := u64_at bs 206; cv_validator := key bs 214;
        cv_initialMarginBps := u16_at bs 1672; cv_maintenanceMarginBps := u16_at bs 1674;
        cv_liquidationFeeBps := u16_at bs 1676; cv_makerFeeBps := u16_at bs 1678; cv_takerFeeBps := u16_at bs 1680;
        cv_maximumLeverage := u32_at bs 1682; cv_maximumPosition := i128_at bs 256; cv_maximumOpenInterest := i128_at bs 272;
        cv_currentOpenInterest := i128_at bs 288; cv_markDeviationBps := u16_at bs 304;
        cv_protocolFeeBalance := i128_at bs 306; cv_insuranceBalance := i128_at bs 322; cv_badDebt := i128_at bs 338;
        cv_vaultLiability := i128_at bs 354; cv_reconciliationStatus := byte_or_0 bs 370;
        cv_riskConfigVersion := byte_or_0 bs 371; cv_vaultSurplus := i128_at bs 1640; cv_withdrawalBuffer := i128_at bs 1656;
        cv_commitPhase := byte_or_0 bs 372; cv_snapshotEpoch := u64_at bs 376; cv_snapshotChildCount := u32_at bs 384 |}.

Record OracleSnapshotView := mkSnapshotView {
  sv_core : PublicKey; sv_feedId : Z; sv_channel : Z; sv_exponent : Z; sv_price : Z; sv_confidence : Z;
  sv_publishTimestamp : Z; sv_sequence : Z; sv_session : Z; sv_tradingStatus : Z; sv_authenticated : bool; sv_revision : Z }.

Definition ORACLE_SNAPSHOT_SIZE : Z := 128.
Definition STKORS03 : list Z := [83; 84; 75; 79; 82; 83; 48; 51].

Definition snapshot_view (bs : list Z) : OracleSnapshotView :=
  {| sv_core := key bs 12; sv_feedId := u32_at bs 44; sv_channel := byte_or_0 bs 48; sv_exponent := i32_at bs 49;
     sv_price := i64_at bs 53; sv_confidence := u64_at bs 61; sv_publishTimestamp := u64_at bs 69;
     sv_sequence := u64_at bs 77; sv_session := byte_or_0 bs 85; sv_tradingStatus := byte_or_0 bs 86;
     sv_authenticated := true; sv_revision := byte_or_0 bs 88 |}.

Definition decodeOracleSnapshotV3 (bs : list Z) : result OracleSnapshotView :=
  _ ← throw_if (negb (blen bs =? ORACLE_SNAPSHOT_SIZE) || negb (bool_decide (slice bs 0 8 = STKORS03))) "Invalid oracle snapshot";
  _ ← throw_if (negb (u16_at bs 8 =? 3) || negb (byte_is bs 10 1) || negb (byte_is bs 87 1))
        "Invalid oracle snapshot version/authentication";
  Ok (snapshot_view bs).

(** The worker's own decoder of the same account (oracle-snapshot.ts). *)
Definition decodeOracleSnapshot (bs : list Z) : result OracleSnapshotView :=
  _ ← throw_if (negb (blen bs =? ORACLE_SNAPSHOT_SIZE) || negb (bool_decide (slice bs 0 8 = STKORS03))
                || negb (u16_at bs 8 =? 3) || negb (byte_is bs 10 1) || negb (byte_is bs 87 1)) "Invalid OracleSnapshotV3";
  Ok (snapshot_view bs).

(** [readOracleSnapshot]: the RPC answer carries the slot and the Base64 data. *)
Definition readOracleSnapshot (account : string -> result (Z * option string)) (address : string)
    : result (option (Z * OracleSnapshotView)) :=
  answer ← account address;
  match answer.2 with
  | None => Ok None
  | Some encoded =>
      if bool_decide (encoded = "") then Ok None
      else match atob encoded with
      | None => Throw "The string to be decoded is not correctly encoded."
      | Some bytes => snapshot ← decodeOracleSnapshot bytes; Ok (Some (answer.1, snapshot))
      end
  end.

Record V3BookPageView := mkPageView {
  pv_side : Z; pv_page : Z; pv_market : PublicKey; pv_fixedRoot : Z; pv_peggedRoot : Z; pv_freeHead : Z; pv_freeCount : Z;
  pv_nodeCount : Z; pv_nodes : list Z }.

Definition decodeV3BookPage (bs : list Z) : result V3BookPageView :=
  _ ← throw_if (negb (versioned bs STKBK003 V3_BOOK_PAGE_SIZE) || (1 <? byte_or_0 bs 10)
                || (V3_BOOK_PAGES_PER_SIDE <=? byte_or_0 bs 11)) "Invalid V3 book page";
  let freeCount := u32_at bs 56 in
  let nodeCount := u32_at bs 60 in
  let limit := if byte_or_0 bs 11 =? 0 then V3_BOOK_SLOTS_PER_SIDE else V3_BOOK_NODES_PER_PAGE in
  _ ← throw_if ((limit <? freeCount) || (limit <? nodeCount)) "Invalid V3 book page metadata";
  Ok {| pv_side := byte_or_0 bs 10; pv_page := byte_or_0 bs 11; pv_market := key bs 12; pv_fixedRoot := u32_at bs 44;
        pv_peggedRoot := u32_at bs 48; pv_freeHead := u32_at bs 52; pv_freeCount := freeCount; pv_nodeCount := nodeCount;
        pv_nodes := slice bs 64 (blen bs) |}.

Record V3SeatPositionView := mkSeatView {
  tv_shard : Z; tv_slot : Z; tv_trader : PublicKey; tv_availableCollateral : Z; tv_reservedMargin : Z; tv_basePosition : Z;
  tv_quoteEntryValue : Z; tv_realizedPnl : Z; tv_openBidExposure : Z; tv_openAskExposure : Z; tv_openOrderCount : Z;
  tv_liquidationState : Z; tv_sequence : Z }.

Record V3SeatShardView := mkSeatShardView { zv_shard : Z; zv_market : PublicKey; zv_positions : list V3SeatPositionView }.

(** A seat, read in place at [44 + slot * 256]. *)
Definition seat_view (bs : list Z) (slot : Z) : option V3SeatPositionView :=
  let base := 44 + slot * V3_SEAT_SIZE in
  if byte_is bs base 0 then None
  else Some {| tv_shard := byte_or_0 bs 10; tv_slot := slot; tv_trader := slice bs (base + 1) (base + 33);
    tv_availableCollateral := i128_at bs (base + 40); tv_reservedMargin := i128_at bs (base + 56);
    tv_basePosition := i128_at bs (base + 72); tv_quoteEntryValue := i128_at bs (base + 88);
    tv_realizedPnl := i128_at bs (base + 104); tv_openBidExposure := i128_at bs (base + 136);
    tv_openAskExposure := i128_at bs (base + 152); tv_openOrderCount := u32_at bs (base + 168);
    tv_liquidationState := byte_or_0 bs (base + 172); tv_sequence := u64_at bs (base + 176) |}.

Definition decodeV3SeatShard (bs : list Z) : result V3SeatShardView :=
  _ ← throw_if (negb (versioned bs STKST003 V3_SEAT_SHARD_SIZE) || (4 <=? byte_or_0 bs 10) || negb (byte_is bs 11 0))
        "Invalid V3 seat shard";
  Ok {| zv_shard := byte_or_0 bs 10; zv_market := key bs 12; zv_positions := present (tabulate V3_SEATS_PER_SHARD (seat_view bs)) |}.

Definition decodeV3EventRecord (bs : list Z) : result (option V3EventRecord) :=
  _ ← throw_if (negb (blen bs =? V3_EVENT_RECORD_SIZE)) "Invalid V3 event record";
  let kind := u16_at bs 0 in
  Ok (if kind =? 0 then None else Some (mkEvent kind (u64_at bs 4) (u64_at bs 44) (slice bs 52 (blen bs)))).

Record V3EventShardView := mkEventShardView {
  nv_shard : Z; nv_market : PublicKey; nv_records : list (option V3EventRecord) }.

Definition decodeV3EventShard (bs : list Z) : result V3EventShardView :=
  _ ← throw_if (negb (versioned bs STKEV003 V3_EVENT_SHARD_SIZE) || (4 <=? byte_or_0 bs 10) || negb (byte_is bs 11 0))
        "Invalid V3 event shard";
  records ← mapR (fun index => decodeV3EventRecord (slice bs (44 + index * V3_EVENT_RECORD_SIZE) (44 + (index + 1) * V3_EVENT_RECORD_SIZE)))
              (seqZ 0 V3_EVENTS_PER_SHARD);
  Ok {| nv_shard := byte_or_0 bs 10; nv_market := key bs 12; nv_records := records |}.

(** ** accounts.ts *)

Record MarketHeaderView := mkHeaderView {
  hv_version : Z; hv_initialized : bool; hv_mode : Z; hv_marketAuthority : PublicKey; hv_pauseAuthority : PublicKey;
  hv_emergencyAuthority : PublicKey; hv_collateralMint : PublicKey; hv_collateralTokenProgram : PublicKey;
  hv_priceExponent : Z; hv_baseLotSize : Z; hv_quoteLotSize : Z; hv_initialMarginBps : Z; hv_maintenanceMarginBps : Z;
  hv_liquidationFeeBps : Z; hv_makerFeeBps : Z; hv_takerFeeBps : Z; hv_maximumLeverage : Z; hv_maximumPosition : Z;
  hv_maximumOpenInterest : Z; hv_currentOpenInterest : Z; hv_globalOrderSequence : Z; hv_globalEventSequence : Z;
  hv_fundingAccumulator : Z; hv_lastFundingTimestamp : Z; hv_oracleValid : bool; hv_lastVerifiedOraclePrice : Z;
  hv_lastVerifiedOracleTimestamp : Z; hv_bidArenaOffset : Z; hv_askArenaOffset : Z; hv_traderSeatOffset : Z;
  hv_fillEventOffset : Z; hv_delegationStatus : Z; hv_validator : option PublicKey; hv_protocolFeeBalance : Z;
  hv_insuranceFundBalance : Z; hv_recognizedBadDebt : Z; hv_reconciliationStatus : Z; hv_vaultSurplus : Z }.

Definition RESERVED_DELEGATION_STATUS : Z := 327 + 2.
Definition RESERVED_PROTOCOL_FEE_BALANCE : Z := 327 + 122.
Definition RESERVED_INSURANCE_FUND_BALANCE : Z := 327 + 130.
Definition RESERVED_RECOGNIZED_BAD_DEBT : Z := 327 + 138.
Definition RESERVED_RECONCILIATION_STATUS : Z := 327 + 146.
Definition RESERVED_VAULT_SURPLUS : Z := 327 + 147.

(** The header has at least 512 bytes when its fields are read, so the
    byte-wise i128 reader does not throw. *)
Definition decodeMarketHeader (bs : list Z) (requireInitialized : bool) : result (option MarketHeaderView) :=
  if blen bs <? 512 then Ok None
  else if negb (bool_decide (slice bs 0 8 = MARKET_DISCRIMINATOR)) || negb (u16_at bs 8 =? MARKET_VERSION) then Ok None
  else if requireInitialized && negb (byte_is bs 10 1) then Ok None
  else
    maximumPosition ← readI128 bs 206; maximumOpenInterest ← readI128 bs 222; currentOpenInterest ← readI128 bs 238;
    fundingAccumulator ← readI128 bs 270;
    Ok (Some {|
      hv_version := u16_at bs 8; hv_initialized := byte_is bs 10 1; hv_mode := byte_or_0 bs 11;
      hv_marketAuthority := slice bs 12 44; hv_pauseAuthority := slice bs 44 76; hv_emergencyAuthority := slice bs 76 108;
      hv_collateralMint := slice bs 108 140; hv_collateralTokenProgram := slice bs 140 172; hv_priceExponent := i32_at bs 172;
      hv_baseLotSize := u64_at bs 176; hv_quoteLotSize := u64_at bs 184; hv_initialMarginBps := u16_at bs 192;
      hv_maintenanceMarginBps := u16_at bs 194; hv_liquidationFeeBps := u16_at bs 196; hv_makerFeeBps := u16_at bs 198;
      hv_takerFeeBps := u16_at bs 200; hv_maximumLeverage := u32_at bs 202; hv_maximumPosition := maximumPosition;
      hv_maximumOpenInterest := maximumOpenInterest; hv_currentOpenInterest := currentOpenInterest;
      hv_globalOrderSequence := u64_at bs 254; hv_globalEventSequence := u64_at bs 262;
      hv_fundingAccumulator := fundingAccumulator; hv_lastFundingTimestamp := u64_at bs 286;
      hv_oracleValid := byte_is bs 294 1; hv_lastVerifiedOraclePrice := i64_at bs 295;
      hv_lastVerifiedOracleTimestamp := u64_at bs 303; hv_bidArenaOffset := u32_at bs 311; hv_askArenaOffset := u32_at bs 315;
      hv_traderSeatOffset := u32_at bs 319; hv_fillEventOffset := u32_at bs 323;
      hv_delegationStatus := byte_or_0 bs RESERVED_DELEGATION_STATUS;
      hv_validator := if byte_or_0 bs RESERVED_DELEGATION_STATUS =? 0 then None
                      else Some (slice bs (RESERVED_DELEGATION_STATUS + 67) (RESERVED_DELEGATION_STATUS + 99));
      hv_protocolFeeBalance := u64_at bs RESERVED_PROTOCOL_FEE_BALANCE;
      hv_insuranceFundBalance := u64_at bs RESERVED_INSURANCE_FUND_BALANCE;
      hv_recognizedBadDebt := u64_at bs RESERVED_RECOGNIZED_BAD_DEBT;
      hv_reconciliationStatus := byte_or_0 bs RESERVED_RECONCILIATION_STATUS; hv_vaultSurplus := u64_at bs RESERVED_VAULT_SURPLUS |}).

(** The compatibility view: fixed account size and regions; the fields are
    those of the header. *)
Definition decodeMarketState (bs : list Z) : result MarketHeaderView :=
  _ ← throw_if (negb (blen bs =? 222752)) "Invalid Equinox market account size";
  header ← decodeMarketHeader bs false;
  match header with
  | None => Throw "Invalid Equinox market header"
  | Some h =>
      _ ← throw_if (negb (hv_bidArenaOffset h =? 512) || negb (hv_askArenaOffset h =? 91152)
                    || negb (hv_traderSeatOffset h =? 181792) || negb (hv_fillEventOffset h =? 214560)) "Invalid Equinox regions";
      Ok h
  end.

(** ** sessions.ts *)

Record TradingSessionView := mkSessionView {
  xv_version : Z; xv_initialized : bool; xv_revoked : bool; xv_owner : string; xv_sessionSigner : string;
  xv_targetProgram : string; xv_market : string; xv_traderSeatIndex : Z; xv_createdAt : Z; xv_expiresAt : Z; xv_actions : Z;
  xv_maxOrderNotional : Z; xv_maxCumulativeNotional : Z; xv_consumedCumulativeNotional : Z; xv_maximumExposure : Z;
  xv_maximumOpenOrders : Z; xv_nextExpectedNonce : Z; xv_lastActionTimestamp : Z; xv_sessionGeneration : Z }.

Section Sessions.
(** [new PublicKey(bytes).toBase58()] *)
Context (base58 : list Z -> string).

Definition decodeTradingSession (bs : list Z) : result (option TradingSessionView) :=
  if negb (blen bs =? 256) then Ok None
  else if negb (bool_decide (slice bs 0 8 = STKSES02)) || negb (u16_at bs 8 =? 1) then Ok None
  else
    maximumExposure ← readI128 bs 183;
    Ok (Some {|
      xv_version := u16_at bs 8; xv_initialized := byte_is bs 10 1; xv_revoked := negb (byte_is bs 11 0);
      xv_owner := base58 (slice bs 12 44); xv_sessionSigner := base58 (slice bs 44 76);
      xv_targetProgram := base58 (slice bs 76 108); xv_market := base58 (slice bs 108 140);
      xv_traderSeatIndex := u16_at bs 140; xv_createdAt := u64_at bs 142; xv_expiresAt := u64_at bs 150;
      xv_actions := byte_or_0 bs 158; xv_maxOrderNotional := u64_at bs 159; xv_maxCumulativeNotional := u64_at bs 167;
      xv_consumedCumulativeNotional := u64_at bs 175; xv_maximumExposure := maximumExposure;
      xv_maximumOpenOrders := u16_at bs 199; xv_nextExpectedNonce := u64_at bs 201; xv_lastActionTimestamp := u64_at bs 209;
      xv_sessionGeneration := u32_at bs 217 |}).
End Sessions.

(** ** event-decoders.ts *)

Record EquinoxEvent := mkEquinoxEvent {
  qe_discriminator : Z; qe_kind : string; qe_abiVersion : Z; qe_sequence : Z; qe_market : string; qe_timestamp : Z;
  qe_payload : list Z }.

(** [base64]: [Buffer.from(text, "base64")], which skips what it cannot read
    instead of throwing. *)
Definition decodeEquinoxEvent (base64 : string -> list Z) (logLine : string) : option EquinoxEvent :=
  match after_prefix EVENT_DATA_PREFIX logLine with
  | None => None
  | Some rest =>
      let bs := base64 (trim rest) in
      if negb (blen bs =? EVENT_SIZE) then None
      else let discriminator := u16_at bs 0 in
      Some (mkEquinoxEvent discriminator (kind_name discriminator) (byte_or_0 bs 2) (u64_at bs 4)
              (bytesToHex (slice bs 12 44)) (u64_at bs 44) (slice bs EVENT_HEADER_SIZE EVENT_SIZE))
  end.

(** events.ts: the table is the worker's. *)
Definition EVENT_KIND : list (Z * string) := EVENT_KIND_NAMES.

(** The payload decoders; a read past the end throws. *)
Definition decodeSeatPayload (payload : list Z) : result Z := getUint16 payload 0.
Definition decodeSeatAmountPayload (payload : list Z) : result (Z * Z * Z) :=
  seatIndex ← getUint16 payload 0; amount ← getBigUint64 payload 2; balance ← getBigUint64 payload 10;
  Ok (seatIndex, amount, balance).

Record OrderPayload := mkOrderPayload { op_seatIndex : Z; op_orderKey : Z; op_side : Z; op_price : Z; op_quantity : Z }.
Definition decodeOrderPayload (payload : list Z) : result OrderPayload :=
  seatIndex ← getUint16 payload 0; orderKey ← read_loop payload 2 16 0; price ← getBigInt64 payload 19;
  quantity ← getBigUint64 payload 27; Ok (mkOrderPayload seatIndex orderKey (byte_or_0 payload 18) price quantity).

Record FillPayload := mkFillPayload { fp_makerSeat : Z; fp_takerSeat : Z; fp_price : Z; fp_quantity : Z; fp_fillSequence : Z }.
Definition decodeFillPayload (payload : list Z) : result FillPayload :=
  makerSeat ← getUint32 payload 0; takerSeat ← getUint32 payload 4; price ← getBigInt64 payload 8;
  quantity ← getBigUint64 payload 16; fillSequence ← getBigUint64 payload 24;
  Ok (mkFillPayload makerSeat takerSeat price quantity fillSequence).

(** A seat index and two i128 values. *)
Definition seat_i128_pair (payload : list Z) : result (Z * Z * Z) :=
  seatIndex ← getUint16 payload 0; a ← readI128 payload 2; b ← readI128 payload 18; Ok (seatIndex, a, b).
Definition decodePositionPayload := seat_i128_pair.
Definition decodeFundingPayload := seat_i128_pair.

Definition decodeLiquidationPayload (payload : list Z) : result (Z * Z * Z) :=
  seatIndex ← getUint16 payload 0; quantity ← getBigUint64 payload 2; price ← getBigInt64 payload 10;
  Ok (seatIndex, quantity, price).

Definition getInt16 (bs : list Z) (off : Z) : result Z := to_signed 16 <$> view_unsigned bs off 2.
Definition decodeOraclePayload (payload : list Z) : result (Z * Z * Z * Z) :=
  price ← getBigInt64 payload 0; exponent ← getInt16 payload 8; confidence ← getBigInt64 payload 10;
  session ← getInt16 payload 18; Ok (price, exponent, confidence, session).

Definition decodeDelegationPayload (payload : list Z) : result (string * Z) :=
  sequence ← getBigUint64 payload 32; Ok (bytesToHex (slice payload 0 32), sequence).
Definition decodeSessionPayload (payload : list Z) : result (Z * string * Z) :=
  seatIndex ← getUint16 payload 0; nonce ← getBigUint64 payload 34; Ok (seatIndex, bytesToHex (slice payload 2 34), nonce).
Definition decodeRegistryPayload (payload : list Z) : string := bytesToHex (slice payload 0 32).
Definition decodeReconciliationPayload (payload : list Z) : result (Z * Z * option Z) :=
  actual ← getBigUint64 payload 0; expected ← getBigUint64 payload 8; Ok (actual, expected, byte_at payload 16).

(** ** legacy-decoders.ts *)

Record BookMetadata := mkBookMetadata {
  bm_version : Z; bm_fixedRoot : Z; bm_peggedRoot : Z; bm_fixedLeaves : Z; bm_peggedLeaves : Z; bm_bumpIndex : Z;
  bm_freeHead : Z; bm_freeLength : Z }.
Definition decodeBookMetadata (data : list Z) : result BookMetadata :=
  _ ← throw_if (blen data <? 32) "Invalid book region";
  Ok (mkBookMetadata (u32_at data 0) (u32_at data 4) (u32_at data 8) (u32_at data 12) (u32_at data 16) (u32_at data 20)
        (u32_at data 24) (u32_at data 28)).

Record FillEventView := mkFillEvent { fe_sequence : Z; fe_maker : Z; fe_taker : Z; fe_price : Z; fe_quantity : Z }.
Definition decodeFillEvent (data : list Z) : result FillEventView :=
  _ ← throw_if (negb (blen data =? 64)) "Invalid fill event size";
  Ok (mkFillEvent (u64_at data 0) (u32_at data 8) (u32_at data 12) (i64_at data 16) (u64_at data 24)).

(** ** instructions.ts: the diagnostic decoder *)

Definition INSTRUCTION_NAMES : list (Z * string) := [
  (0, "InitializeMarket"); (1, "CreateTraderSeat"); (2, "CloseTraderSeat"); (3, "PlaceOrder"); (4, "CancelOrder");
  (5, "CancelAll"); (6, "UpdateFunding"); (7, "Liquidate"); (8, "InitializeSettlementScratch"); (9, "InitializeVault");
  (10, "DepositCollateral"); (11, "WithdrawCollateral"); (12, "ConsumeOracleUpdate"); (13, "DelegateMarket");
  (14, "CommitMarket"); (15, "CommitAndUndelegate"); (16, "UndelegationCallback"); (17, "AuthorizeTradingSession");
  (18, "RevokeTradingSession"); (19, "InitializeExchange"); (20, "RegisterStockInstrument"); (21, "CreatePerpMarket");
  (22, "UpdateStockInstrument"); (23, "SuspendStockInstrument"); (24, "UpdateMarketRisk"); (25, "PauseMarket");
  (26, "ResumeMarket"); (27, "SetCloseOnly"); (28, "EnterCorporateAction"); (29, "ResolveCorporateAction");
  (30, "CloseMarket"); (31, "UpdateTradingSessionLimits"); (32, "CloseTradingSession"); (33, "ReplaceOrder");
  (34, "TransferToInsuranceFund"); (35, "WithdrawProtocolFees"); (36, "WithdrawInsuranceFunds"); (37, "RecordBadDebt");
  (38, "ResolveBadDebt"); (39, "ReconcileVault"); (40, "UpdateExchangeConfig"); (41, "DelegateClusterMember");
  (42, "CreateMarketAccount"); (43, "CreateInstrumentAccount"); (44, "CreateVaultAccount"); (45, "CreateScratchAccount");
  (46, "CreateV3Account"); (47, "InitializeV3Market"); (48, "DelegateV3Account"); (49, "CreateV3TraderSeat");
  (50, "CloseV3TraderSeat"); (51, "RequestV3Undelegation"); (52, "RollbackV3Undelegation"); (53, "DepositCollateralV3");
  (54, "WithdrawCollateralV3"); (58, "UpdateOracleSnapshotV3"); (59, "CreateOracleSnapshotV3")].

Definition decodeInstruction (data : list Z) : result (string * list Z) :=
  match data with
  | [] => Throw "Empty instruction"
  | opcode :: _ =>
      match list_find (fun '(o, _) => o = opcode) INSTRUCTION_NAMES with
      | Some (_, (_, name)) => Ok (name, data)
      | None => Throw "Unknown instruction"
      end
  end.
End Abi.
Import Abi.

(** ** Reading through a slice *)

Lemma slice_slice bs a b c d :
  0 <= a -> 0 <= c -> d <= b - a -> slice (slice bs a b) c d = slice bs (a + c) (a + d).
Proof.
  intros Ha Hc Hd. unfold slice. rewrite skipn_firstn_comm, drop_drop, take_take. f_equal; [lia|f_equal; lia].
Qed.

Lemma uint_at_slice n bs a b off :
  0 <= a -> 0 <= off -> off + Z.of_nat n <= b - a -> uint_at n (slice bs a b) off = uint_at n bs (a + off).
Proof. intros Ha Ho Hn. unfold uint_at. rewrite slice_slice by lia. do 2 f_equal. lia. Qed.

Lemma i64_at_slice bs a b off : 0 <= a -> 0 <= off -> off + 8 <= b - a -> i64_at (slice bs a b) off = i64_at bs (a + off).
Proof. intros. unfold i64_at, u64_at. by rewrite uint_at_slice by lia. Qed.

Lemma i128_at_slice bs a b off :
  0 <= a -> 0 <= off -> off + 16 <= b - a -> i128_at (slice bs a b) off = i128_at bs (a + off).
Proof.
  intros. unfold i128_at, u64_at. rewrite !uint_at_slice by lia. by replace (a + (off + 8)) with (a + off + 8) by lia.
Qed.

Lemma byte_at_slice bs a b i : 0 <= a -> 0 <= i < b - a -> byte_at (slice bs a b) i = byte_at bs (a + i).
Proof.
  intros Ha Hi. rewrite !byte_at_lookup by lia. unfold slice. rewrite lookup_take, decide_True by lia.
  rewrite lookup_drop. f_equal. lia.
Qed.

Lemma byte_or_0_slice bs a b i : 0 <= a -> 0 <= i < b - a -> byte_or_0 (slice bs a b) i = byte_or_0 bs (a + i).
Proof. intros. unfold byte_or_0. by rewrite byte_at_slice. Qed.

Lemma byte_is_slice bs a b i v : 0 <= a -> 0 <= i < b - a -> byte_is (slice bs a b) i v = byte_is bs (a + i) v.
Proof. intros. unfold byte_is. by rewrite byte_at_slice. Qed.

Lemma tabulate_seqZ {A} n (f : Z -> A) : tabulate n f = f <$> seqZ 0 n.
Proof. unfold tabulate, seqZ. rewrite <- list_fmap_compose. apply list_fmap_ext. intros i x _. cbn. f_equal. lia. Qed.

Lemma present_fmap {A B} (g : A -> B) (l : list (option A)) : g <$> present l = present (option_map g <$> l).
Proof. unfold present. induction l as [|[a|] l IH]; cbn; [done|f_equal; exact IH|exact IH]. Qed.

Lemma outcome_fmap {A B} (f : A -> B) (r : result A) : outcome (f <$> r) = f <$> outcome r.
Proof. by destruct r. Qed.

Section Agreement.
Context (base58 : list Z -> string).

(** A client view as the worker represents it: keys in Base58, and without the
    fields only one side has. *)
Definition core_of (v : V3MarketCoreView) : V3CoreState :=
  mkCore (base58 (cv_instrument v)) (base58 (cv_marketAuthority v)) (cv_mode v) (cv_oracleValid v)
    (cv_lastVerifiedOraclePrice v) (cv_lastVerifiedOracleTimestamp v) (cv_oracleFeedId v) (cv_oracleChannel v)
    (cv_oracleExponent v) (cv_delegationStatus v) (cv_expectedCommitSequence v) (cv_lastCommittedSequence v)
    (base58 (cv_validator v)).

Definition seat_of (v : V3SeatPositionView) : V3SeatPositionState :=
  mkSeat (tv_shard v) (tv_slot v) (base58 (tv_trader v)) (tv_availableCollateral v) (tv_reservedMargin v)
    (tv_basePosition v) (tv_quoteEntryValue v) (tv_realizedPnl v) 0 (tv_openBidExposure v) (tv_openAskExposure v)
    (tv_openOrderCount v) (tv_liquidationState v) (tv_sequence v).

Definition without_funding (w : V3SeatPositionState) : V3SeatPositionState :=
  mkSeat (seat_shard w) (slot w) (trader w) (availableCollateral w) (reservedMargin w) (basePosition w) (quoteEntryValue w)
    (realizedPnl w) 0 (openBidExposure w) (openAskExposure w) (openOrderCount w) (liquidationState w) (seat_sequence w).

Lemma seat_agrees bs i :
  blen bs = V3_SEAT_SHARD_SIZE -> i ∈ seqZ 0 32 ->
  without_funding <$> decodeSeat base58 (slice (slice bs 44 (blen bs)) (i * V3_SEAT_SIZE) ((i + 1) * V3_SEAT_SIZE)) (byte_or_0 bs 10) i
  = seat_of <$> seat_view bs i.
Proof.
  intros Hl Hi%elem_of_seqZ. rewrite Hl. unfold V3_SEAT_SHARD_SIZE, V3_SEAT_SIZE in *.
  rewrite slice_slice by lia. unfold decodeSeat, seat_view, V3_SEAT_SIZE.
  assert (blen (slice bs (44 + i * 256) (44 + (i + 1) * 256)) = 256) as -> by (unfold blen at 1; rewrite slice_length by lia; lia).
  rewrite byte_is_slice, Z.add_0_r by lia. cbn [negb orb Z.eqb Pos.eqb]. destruct (byte_is bs (44 + i * 256) 0); [done|].
  cbn [fmap option_fmap option_map]. unfold without_funding, seat_of, address.
  cbn [seat_shard slot trader availableCollateral reservedMargin basePosition quoteEntryValue realizedPnl openBidExposure
       openAskExposure openOrderCount liquidationState seat_sequence tv_shard tv_slot tv_trader tv_availableCollateral
       tv_reservedMargin tv_basePosition tv_quoteEntryValue tv_realizedPnl tv_openBidExposure tv_openAskExposure
       tv_openOrderCount tv_liquidationState tv_sequence].
  unfold u32_at, u64_at. rewrite !i128_at_slice, !uint_at_slice, byte_or_0_slice, slice_slice by lia. done.
Qed.

Lemma event_agrees bs i :
  blen bs = V3_EVENT_SHARD_SIZE -> i ∈ seqZ 0 32 ->
  Abi.decodeV3EventRecord (slice bs (44 + i * V3_EVENT_RECORD_SIZE) (44 + (i + 1) * V3_EVENT_RECORD_SIZE))
  = Ok (V3Market.decodeV3EventRecord (slice (slice bs 44 (blen bs)) (i * V3_EVENT_RECORD_SIZE) ((i + 1) * V3_EVENT_RECORD_SIZE))).
Proof.
  intros Hl Hi%elem_of_seqZ. rewrite Hl. unfold V3_EVENT_SHARD_SIZE, V3_EVENT_RECORD_SIZE in *.
  rewrite slice_slice by lia. unfold Abi.decodeV3EventRecord, V3Market.decodeV3EventRecord.
  assert (blen (slice bs (44 + i * 100) (44 + (i + 1) * 100)) = 100) as -> by (unfold blen at 1; rewrite slice_length by lia; lia).
  cbn [negb Z.eqb Pos.eqb throw_if mbind result_bind V3_EVENT_RECORD_SIZE]. done.
Qed.
End Agreement.

(** The client library and the worker read the sharded market the same way.
    On every account the client's decoders of the core, the book pages, the
    seat shards and the event shards accept exactly the accounts the worker's
    decoders accept, and report the same values for every field both know; the
    two decoders of the oracle snapshot are equal.  The client reads each seat
    in place, the worker from two nested copies. *)
Theorem v3_decoders_agree base58 bs :
  core_of base58 <$> outcome (decodeV3MarketCore bs) = decodeV3Core base58 bs
  /\ (fun v => (pv_side v, pv_page v, base58 (pv_market v), pv_fixedRoot v, pv_peggedRoot v, pv_freeHead v, pv_freeCount v,
               pv_nodeCount v, pv_nodes v)) <$> outcome (Abi.decodeV3BookPage bs)
     = (fun w => (page_side w, page w, page_core w, fixedRoot w, peggedRoot w, freeHead w, freeCount w, nodeCount w, nodeBytes w))
         <$> V3Market.decodeV3BookPage base58 bs
  /\ (fun v => (zv_shard v, base58 (zv_market v), seat_of base58 <$> zv_positions v)) <$> outcome (Abi.decodeV3SeatShard bs)
     = (fun w => (ss_shard w, ss_core w, without_funding <$> ss_positions w)) <$> V3Market.decodeV3SeatShard base58 bs
  /\ (fun v => (nv_shard v, base58 (nv_market v), nv_records v)) <$> outcome (Abi.decodeV3EventShard bs)
     = (fun w => (es_shard w, es_core w, es_records w)) <$> V3Market.decodeV3EventShard base58 bs
  /\ decodeOracleSnapshotV3 bs ≈ decodeOracleSnapshot bs.
Proof.
  split_and!.
  - unfold decodeV3MarketCore, decodeV3Core, versioned. destruct (validVersion _ _ _), (byte_is bs 10 1), (byte_is bs 371 2); done.
  - unfold Abi.decodeV3BookPage, V3Market.decodeV3BookPage, versioned.
    destruct (negb (validVersion bs STKBK003 V3_BOOK_PAGE_SIZE) || _ || _)%bool; [done|]. cbn [throw_if mbind result_bind].
    set (limit := if byte_or_0 bs 11 =? 0 then V3_BOOK_SLOTS_PER_SIDE else V3_BOOK_NODES_PER_PAGE).
    destruct (limit <? u32_at bs 60), (limit <? u32_at bs 56); done.
  - unfold Abi.decodeV3SeatShard, V3Market.decodeV3SeatShard, versioned. destruct (validVersion bs STKST003 V3_SEAT_SHARD_SIZE) eqn:Hv; [|done].
    cbn [negb orb]. destruct (_ || _)%bool; [done|]. cbn [throw_if mbind result_bind outcome fmap option_fmap option_map ss_shard ss_core ss_positions zv_shard zv_market zv_positions].
    rewrite !present_fmap, !tabulate_seqZ, <- !list_fmap_compose. do 3 f_equal. apply list_fmap_ext. intros j i Hi.
    symmetry. apply seat_agrees; [|by eapply list_elem_of_lookup_2].
    unfold validVersion in Hv. zbool. lia.
  - unfold Abi.decodeV3EventShard, V3Market.decodeV3EventShard, versioned. destruct (validVersion bs STKEV003 V3_EVENT_SHARD_SIZE) eqn:Hv; [|done].
    cbn [negb orb]. destruct (_ || _)%bool; [done|]. cbn [throw_if mbind result_bind].
    erewrite mapR_pure by (intros i Hi; apply event_agrees; [unfold validVersion in Hv; zbool; lia|exact Hi]).
    rewrite tabulate_seqZ. done.
  - unfold decodeOracleSnapshotV3, decodeOracleSnapshot. destruct (blen bs =? _), (bool_decide _), (u16_at bs 8 =? 3), (byte_is bs 10 1), (byte_is bs 87 1); done.
Qed.

(** ** V2 headers and trading sessions *)

Lemma view_at n bs off : 0 <= off -> off + Z.of_nat n <= blen bs -> view_unsigned bs off n = Ok (uint_at n bs off).
Proof.
  intros Ho Hn. unfold view_unsigned, uint_at. rewrite (proj2 (Z.ltb_ge _ _)), (proj2 (Z.ltb_ge _ _)) by lia. done.
Qed.

Lemma uint_at_byte bs off : 0 <= off < blen bs -> uint_at 1 bs off = byte_or_0 bs off.
Proof.
  intros Ho. unfold uint_at, byte_or_0. rewrite byte_at_lookup by lia. unfold slice.
  replace (Z.to_nat (off + Z.of_nat 1 - off)) with 1%nat by lia.
  destruct (lookup_lt_is_Some_2 bs (Z.to_nat off)) as [b Hb]; [unfold blen in Ho; lia|].
  rewrite Hb, (drop_S _ _ _ Hb). rewrite firstn_cons, take_0. change (b + 256 * 0 = b). lia.
Qed.

Lemma byte_is_or_0 bs off v : 0 <= off < blen bs -> byte_is bs off v = (byte_or_0 bs off =? v).
Proof.
  intros Ho. unfold byte_is, byte_or_0. destruct (byte_at_Some bs off Ho) as [b ->]. cbn.
  destruct (Z.eqb_spec b v); [rewrite bool_decide_eq_true_2 by congruence|rewrite bool_decide_eq_false_2 by congruence]; done.
Qed.

Lemma readI128_at bs off : uint8array bs -> 0 <= off -> off + 16 <= blen bs -> exists z, readI128 bs off = Ok z.
Proof. intros. rewrite readI128_view by done. rewrite view_at by lia. by eexists. Qed.

(** The byte-wise and the two-halves readers of an i128 agree. *)
Lemma lor_halves lo hi : 0 <= lo < 2 ^ 64 -> Z.lor lo (Z.shiftl hi 64) = lo + 2 ^ 64 * hi.
Proof.
  intros Hlo. rewrite Z.shiftl_mul_pow2, (Z.mul_comm hi), Z.add_comm by lia. rewrite <- Z.lor_comm.
  assert (Z.land (2 ^ 64 * hi) lo = 0) as Hland.
  { apply Z.bits_inj'. intros n Hn. rewrite Z.land_spec, Z.bits_0. destruct (Z.ltb_spec n 64).
    - rewrite Z.mul_comm, Z.mul_pow2_bits_low by lia. done.
    - rewrite (Z.bits_above_log2 lo n); [by rewrite andb_false_r|lia|].
      destruct (decide (lo = 0)) as [->|]; [cbn; lia|]. apply Z.lt_le_trans with 64; [apply Z.log2_lt_pow2; lia|lia]. }
  pose proof (Z.add_lor_land (2 ^ 64 * hi) lo) as E. rewrite Hland in E. lia.
Qed.

Lemma le_combine_app a b : le_combine (a ++ b) = le_combine a + 256 ^ Z.of_nat (length a) * le_combine b.
Proof. induction a as [|x a IH]; [cbn; lia|]. cbn [app le_combine length]. rewrite IH, pow256_succ. lia. Qed.

Lemma uint_at_app n m bs off :
  0 <= off -> off + Z.of_nat (n + m) <= blen bs ->
  uint_at (n + m) bs off = uint_at n bs off + 256 ^ Z.of_nat n * uint_at m bs (off + Z.of_nat n).
Proof.
  intros Ho Hl. unfold uint_at.
  assert (slice bs off (off + Z.of_nat (n + m)) = slice bs off (off + Z.of_nat n) ++ slice bs (off + Z.of_nat n) (off + Z.of_nat n + Z.of_nat m)) as ->.
  { unfold slice. rewrite !Z.add_simpl_l, !Nat2Z.id. replace (Z.to_nat (off + Z.of_nat n)) with (Z.to_nat off + n)%nat by lia.
    rewrite <- drop_drop. symmetry. apply take_take_drop. }
  rewrite le_combine_app, slice_length by lia. by rewrite Z.add_simpl_l, Nat2Z.id.
Qed.

Lemma readI128_halves bs off :
  uint8array bs -> 0 <= off -> off + 16 <= blen bs ->
  readI128 bs off = Ok (i128_at bs off).
Proof.
  intros Hu Ho Hl. rewrite readI128_view, view_at by (done || lia). cbn [fmap result_fmap]. f_equal.
  unfold i128_at, u64_at. assert (0 <= uint_at 8 bs off < 2 ^ 64) as Hlo.
  { apply (view_unsigned_bound bs off 8 _ Hu). by apply view_at; lia. }
  rewrite (uint_at_app 8 8) by lia. change (256 ^ Z.of_nat 8) with (2 ^ 64). rewrite lor_halves by done. done.
Qed.

(** The header as the worker keeps it. *)
Definition market_state_of (base58 : list Z -> string) (h : MarketHeaderView) : MarketState :=
  mkMarketState (hv_mode h) (base58 (hv_marketAuthority h)) (base58 (hv_emergencyAuthority h)) (hv_maintenanceMarginBps h)
    (hv_makerFeeBps h) (hv_takerFeeBps h) (hv_maximumLeverage h) (hv_currentOpenInterest h) (hv_globalOrderSequence h)
    (hv_globalEventSequence h) (hv_fundingAccumulator h) (hv_lastFundingTimestamp h) (hv_oracleValid h)
    (hv_lastVerifiedOraclePrice h) (hv_lastVerifiedOracleTimestamp h).

Lemma market_header_agrees base58 bs :
  uint8array bs ->
  MarkPrice.decodeMarketHeader base58 bs = option_map (market_state_of base58) <$> Abi.decodeMarketHeader bs true.
Proof.
  intros Hu. unfold MarkPrice.decodeMarketHeader, Abi.decodeMarketHeader, MARKET_HEADER_SIZE.
  destruct (Z.ltb_spec (blen bs) 512) as [|Hl]; [done|].
  unfold getUint8, getUint16, getUint32, getBigUint64, getBigInt64. rewrite !view_at by lia. cbn [mbind result_bind].
  unfold u16_at. destruct (negb _ || _)%bool; [done|]. rewrite !uint_at_byte, !byte_is_or_0 by lia.
  destruct (negb (byte_or_0 bs 10 =? 1)); [done|]. cbn [andb].
  destruct (readI128_at bs 206 Hu) as [a ->]; [lia..|]. destruct (readI128_at bs 222 Hu) as [b ->]; [lia..|].
  destruct (readI128_at bs 238 Hu) as [c ->]; [lia..|]. destruct (readI128_at bs 270 Hu) as [d ->]; [lia..|]. done.
Qed.

(** What the relayer requires of a decoded session. *)
Definition session_acceptable (i : VerifyTradingSessionInput) (s : TradingSessionView) : Prop :=
  let required := requiredSessionActions (vi_opcode i) (vi_placeOrderFlags i) in
  xv_initialized s = true /\ xv_revoked s = false /\ xv_owner s = vi_ownerWallet i
  /\ xv_sessionSigner s = vi_sessionSignerAddress i /\ xv_targetProgram s = vi_programId i /\ xv_market s = vi_marketPda i
  /\ xv_traderSeatIndex s = vi_seatIndex i /\ vi_now i / 1000 < xv_expiresAt s /\ required ≠ 0
  /\ Z.land (xv_actions s) required ≠ 0 /\ xv_nextExpectedNonce s = vi_actionNonce i.

Lemma guard_Ok {A} (c : bool) (r : result (option A)) (e : A) :
  (if c then Ok (Some e) else r) = Ok None <-> c = false /\ r = Ok None.
Proof. destruct c; naive_solver. Qed.

(** The relayer's session check is the client's session view plus a list of
    conditions: the check passes on exactly the accounts the client decodes as a
    session that is initialised, not revoked, of this owner, signer, program,
    market and seat, unexpired, permitting the action and expecting this nonce;
    and the limits the relayer then reads from the bytes are those of the view. *)
Theorem session_check_spec base58 i session :
  uint8array session ->
  (check_session base58 i session = Ok None
   <-> exists s, decodeTradingSession base58 session = Ok (Some s) /\ session_acceptable i s)
  /\ (forall s, decodeTradingSession base58 session = Ok (Some s) ->
      getBigUint64 session 159 = Ok (xv_maxOrderNotional s) /\ getBigUint64 session 167 = Ok (xv_maxCumulativeNotional s)
      /\ getBigUint64 session 175 = Ok (xv_consumedCumulativeNotional s) /\ signed128 session 183 = Ok (xv_maximumExposure s)
      /\ getUint16 session 199 = Ok (xv_maximumOpenOrders s)).
Proof.
  intros Hu. unfold check_session, decodeTradingSession, TRADING_SESSION_SIZE.
  destruct (Z.eqb_spec (blen session) 256) as [Hl|Hl]; cbn [negb];
    [|split; [split; [discriminate|intros (? & ? & ?); discriminate]|discriminate]].
  unfold getUint16, getBigUint64. rewrite !view_at by lia. cbn [mbind result_bind]. unfold u16_at.
  destruct (readI128_at session 183 Hu) as [e He]; [lia..|]. rewrite He. cbn [mbind result_bind].
  destruct (negb (bool_decide (slice session 0 8 = STKSES02)) || negb (uint_at 2 session 8 =? 1))%bool;
    [split; [split; [discriminate|intros (? & ? & ?); discriminate]|discriminate]|].
  split.
  - repeat setoid_rewrite guard_Ok.
    rewrite !negb_false_iff, !bool_decide_eq_true, !Z.eqb_eq, !Z.eqb_neq, Z.leb_gt. split.
    + intros (H1 & H2 & H3 & H4 & H5 & H6 & H7 & H8 & H9 & H10 & H11 & _). eexists. split; [reflexivity|].
      unfold session_acceptable. cbn. rewrite H2. by split_and!.
    + intros (s & [= <-] & H1 & H2 & H3 & H4 & H5 & H6 & H7 & H8 & H9 & H10 & H11). cbn in *.
      apply negb_false_iff in H2. by split_and!.
  - intros s [= <-]. cbn. split_and!; try done.
    unfold signed128, getBigUint64. rewrite !view_at by lia. cbn [mbind result_bind]. f_equal.
    rewrite (readI128_halves session 183 Hu) in He by lia. by injection He.
Qed.

Definition sample_base58 (k : list Z) : string := pretty (le_combine k).

Definition sample_session : list Z :=
  STKSES02 ++ [1; 0; 1; 0] ++ replicate 32 1 ++ replicate 32 2 ++ replicate 32 3 ++ replicate 32 4 ++ le_split 2 40
  ++ le_split 8 100 ++ le_split 8 2000 ++ [1] ++ le_split 8 500 ++ le_split 8 9000 ++ le_split 8 0 ++ le_split 16 70
  ++ le_split 2 5 ++ le_split 8 17 ++ le_split 8 0 ++ le_split 4 1 ++ replicate 35 0.

Definition sample_input : VerifyTradingSessionInput :=
  mkVerifyInput [] (Some sample_session) None (sample_base58 (replicate 32 1)) (sample_base58 (replicate 32 2)) 40
    (sample_base58 (replicate 32 4)) (sample_base58 (replicate 32 3)) 17 3 0 1500000 None None None.

Lemma session_check_spec_witness : check_session sample_base58 sample_input sample_session = Ok None.
Proof.
  apply (proj1 (session_check_spec sample_base58 sample_input sample_session ltac:(apply uint8array_check; vm_compute; reflexivity))).
  eexists. split; [vm_compute; reflexivity|]. unfold session_acceptable. vm_compute. split_and!; (done || congruence).
Defined.

(** The diagnostic decoder refuses seven of the assigned opcodes, among them the
    inbox deposits and withdrawals the browser sends. *)
Theorem decodeInstruction_misses rest :
  Forall (fun opcode => decodeInstruction (opcode :: rest) = Throw "Unknown instruction")
    [OPCODE.reconcileVaultV3; CLIENT_OPCODE.createV3VaultAccount; CLIENT_OPCODE.createV3TradingSession;
     CLIENT_OPCODE.depositToInboxV3; CLIENT_OPCODE.claimInboxDepositV3; CLIENT_OPCODE.requestWithdrawalV3;
     CLIENT_OPCODE.claimWithdrawalV3].
Proof. repeat constructor. Qed.
