(* ===== verification/OracleRefresh.v ===== *)
(** * On-demand refresh of the oracle snapshot

    workers/src/oracle-refresh.ts, workers/src/oracle-runner.ts, the
    single-flight refresh of workers/src/market-stream.ts, and the Node keeper of
    lib/server/pyth-keeper.ts with lib/oracle.ts.  A refresh is a sequence of
    calls to the chain and to Pyth; each call is recorded in a trace, and the
    answers are functions of the trace so far, so that every theorem holds for
    every behaviour of the outside world. *)

From S2P Require Import Prelude Json Bytes V3Market EventDecoder Transactions PythStream Signers.
From S2P Require Import ClientInstructions ClientEquivalence ClientAccounts.
Import Abi.

(** ** oracle-refresh.ts *)

Definition FRESH_SECONDS : Z := 5.
Definition REFRESH_ATTEMPTS : nat := 3.
Definition RETRY_DELAY_MS : Z := 1200.
Definition ED25519_PROGRAM : string := "Ed25519SigVerify111111111111111111111111111".
Definition PYTH_PROGRAM : string := "pytd2yyk641x7ak7mkaasSJVXh6YYZnC7wTmtgAyxPt".
Definition PYTH_STORAGE : string := "3rdJbqfnagQ4yx9HXJViD4zc4xpiSqmFsKpPuSCQVyQL".
Definition SYSTEM_PROGRAM : string := "11111111111111111111111111111111".
Definition INSTRUCTIONS_SYSVAR : string := "Sysvar1nstructions1111111111111111111111111".
Definition UPDATE_ORACLE_SNAPSHOT_V3 : Z := 58.
Definition MESSAGE_OFFSET : Z := 4.

Record RefreshMarket := mkRefreshMarket {
  rm_programId : string; rm_core : string; rm_snapshot : string; rm_feedId : Z; rm_channel : string }.

(** The 16 bytes of an Ed25519 verification whose three offset pairs point into
    instruction [consumerIndex]. *)
Definition ed25519_data (size consumerIndex : Z) : list Z :=
  let signatureOffset := MESSAGE_OFFSET + 4 in
  let publicKeyOffset := signatureOffset + 64 in
  let data := store_byte (new_Uint8Array 16) 0 1 in
  let data := setUint16 data 2 signatureOffset in
  let data := setUint16 data 4 consumerIndex in
  let data := setUint16 data 6 publicKeyOffset in
  let data := setUint16 data 8 consumerIndex in
  let data := setUint16 data 10 (publicKeyOffset + 32 + 2) in
  let data := setUint16 data 12 size in
  setUint16 data 14 consumerIndex.

Definition ed25519Instruction (message : list Z) (consumerIndex : Z) : result Instruction :=
  _ ← throw_if (blen message <? 102) "invalid signed Pyth message";
  let size := u16_at message 100 in
  _ ← throw_if (negb (blen message =? 102 + size)) "invalid signed Pyth message framing";
  Ok (mkInstruction ED25519_PROGRAM [] (ed25519_data size consumerIndex)).

Definition snapshotUpdateInstruction (market : RefreshMarket) (payer treasury : string) (message : list Z)
    (ed25519Index : Z) : Instruction :=
  let data := store_byte (new_Uint8Array (4 + length message)) 0 UPDATE_ORACLE_SNAPSHOT_V3 in
  let data := set_bytes (store_byte (setUint16 data 1 ed25519Index) 3 0) MESSAGE_OFFSET message in
  mkInstruction (rm_programId market)
    [mkMeta (rm_snapshot market) role_writable; mkMeta (rm_core market) role_readonly; mkMeta payer role_writable_signer;
     mkMeta PYTH_PROGRAM role_readonly; mkMeta PYTH_STORAGE role_readonly; mkMeta treasury role_writable;
     mkMeta SYSTEM_PROGRAM role_readonly; mkMeta INSTRUCTIONS_SYSVAR role_readonly] data.

Inductive ConfirmOutcome := out_confirmed | out_failed | out_expired | out_timeout.

Definition outcome_text (o : ConfirmOutcome) : string :=
  match o with out_confirmed => "confirmed" | out_failed => "failed" | out_expired => "expired" | out_timeout => "timeout" end.

(** One call of the dependencies. *)
Inductive Call :=
  | call_now
  | call_read (address : string)
  | call_fetch
  | call_public_key
  | call_blockhash
  | call_sign (instructions : list Instruction)
  | call_send (transaction : string)
  | call_confirm (signature : string)
  | call_sleep (ms : Z).

Definition Trace := list Call.

(** The dependencies: their answers given the calls made before. *)
Record RefreshDeps := mkRefreshDeps {
  rd_now : Trace -> Z;
  rd_readAccount : Trace -> string -> result (option (list Z));
  rd_fetchSignedMessage : Trace -> Z -> string -> result (list Z);
  rd_publicKey : Trace -> result (list Z);
  rd_latestBlockhash : Trace -> result (string * Z);
  rd_sign : Trace -> list Instruction -> string -> result string;
  rd_send : Trace -> string -> result string;
  rd_confirm : Trace -> string -> Z -> result ConfirmOutcome }.

Inductive RefreshStatus := refresh_fresh | refresh_refreshed.
Inductive RefreshResult :=
  | refresh_ok (status : RefreshStatus) (sequence publishTime : Z) (signature : option string)
  | refresh_failed (reason : string) (payer : option string).

Definition call {A} (c : Call) (answer : Trace -> result A) : eff Trace A := fun t => (t ++ [c], answer t).

Definition summary (status : RefreshStatus) (snapshot : OracleSnapshotView) (signature : option string) : RefreshResult :=
  refresh_ok status (sv_sequence snapshot) (to_number (sv_publishTimestamp snapshot))
    match signature with Some s => if bool_decide (s = "") then None else Some s | None => None end.

(** The test inside [isFresh]. *)
Definition young (now : Z) (snapshot : OracleSnapshotView) : bool :=
  js_floor_div now 1000 - to_number (sv_publishTimestamp snapshot) <? FRESH_SECONDS.

Section Refresh.
Context (deps : RefreshDeps) (base58 : list Z -> string) (market : RefreshMarket).

Definition currentSnapshot : eff Trace (option OracleSnapshotView) :=
  bytes ← call (call_read (rm_snapshot market)) (fun t => rd_readAccount deps t (rm_snapshot market));
  match bytes with
  | None => mret None
  | Some bs => snapshot ← eff_lift (decodeOracleSnapshot bs); mret (Some snapshot)
  end.

(** [isFresh(snapshot)], with the snapshot when it is. *)
Definition isFresh (snapshot : option OracleSnapshotView) : eff Trace (option OracleSnapshotView) :=
  match snapshot with
  | None => mret None
  | Some s => now ← call call_now (fun t => Ok (rd_now deps t)); mret (if young now s then Some s else None)
  end.

(** [Some]: the loop returns; [None]: it continues with this failure. *)
Definition send_and_confirm (payer transaction : string) (lastValidBlockHeight : Z)
    : eff Trace (RefreshResult + RefreshResult) :=
  sent ← (fun t => let '(t', r) := call (call_send transaction) (fun t => rd_send deps t transaction) t in (t', Ok r));
  match sent with
  | Throw error =>
      after ← currentSnapshot; fresh ← isFresh after;
      mret match fresh with
           | Some s => inl (summary refresh_fresh s None)
           | None => inr (refresh_failed error (Some payer))
           end
  | Ok signature =>
      outcome ← call (call_confirm signature) (fun t => rd_confirm deps t signature lastValidBlockHeight);
      after ← currentSnapshot;
      match outcome, after with
      | out_confirmed, Some s => mret (inl (summary refresh_refreshed s (Some signature)))
      | _, _ =>
          fresh ← isFresh after;
          mret match fresh with
               | Some s => inl (summary refresh_fresh s None)
               | None => inr (refresh_failed ("snapshot update " +:+ outcome_text outcome) (Some payer))
               end
      end
  end.

Definition attempt_update (payer treasury : string) : eff Trace (RefreshResult + RefreshResult) :=
  message ← call call_fetch (fun t => rd_fetchSignedMessage deps t (rm_feedId market) (rm_channel market));
  '(blockhash, lastValidBlockHeight) ← call call_blockhash (rd_latestBlockhash deps);
  verify ← eff_lift (ed25519Instruction message 1);
  let instructions := [verify; snapshotUpdateInstruction market payer treasury message 0] in
  transaction ← call (call_sign instructions) (fun t => rd_sign deps t instructions blockhash);
  send_and_confirm payer transaction lastValidBlockHeight.

(** The remaining attempts; [first] is the test [attempt > 0]. *)
Fixpoint attempts (n : nat) (first : bool) (payer treasury : string) (failure : RefreshResult) : eff Trace RefreshResult :=
  match n with
  | O => mret failure
  | S n =>
      early ← (if first then mret None
               else _ ← call (call_sleep RETRY_DELAY_MS) (fun _ => Ok tt); current ← currentSnapshot; isFresh current);
      match early with
      | Some s => mret (summary refresh_fresh s None)
      | None =>
          r ← attempt_update payer treasury;
          match r with
          | inl answer => mret answer
          | inr failure => attempts n false payer treasury failure
          end
      end
  end.

Definition refreshOracleSnapshot : eff Trace RefreshResult :=
  before ← currentSnapshot; fresh ← isFresh before;
  match fresh with
  | Some s => mret (summary refresh_fresh s None)
  | None =>
      storage ← call (call_read PYTH_STORAGE) (fun t => rd_readAccount deps t PYTH_STORAGE);
      match storage with
      | None => mret (refresh_failed "Pyth storage account unavailable" None)
      | Some bs =>
          if blen bs <? 72 then mret (refresh_failed "Pyth storage account unavailable" None)
          else
            let treasury := base58 (slice bs 40 72) in
            key ← call call_public_key (rd_publicKey deps);
            let payer := base58 key in
            attempts REFRESH_ATTEMPTS true payer treasury (refresh_failed "snapshot update not attempted" (Some payer))
      end
  end.
End Refresh.

(** ** [fetchPythSolanaMessage] *)

(** An HTTP answer: its status and its body, or a network error. *)
Record HttpResponse := mkHttp { http_ok : bool; http_status : Z; http_json : result json }.

Definition PYTH_HTTP_ENDPOINTS : list string :=
  ["https://pyth-lazer-0.dourolabs.app/v1/latest_price"; "https://pyth-lazer-1.dourolabs.app/v1/latest_price";
   "https://pyth-lazer-2.dourolabs.app/v1/latest_price"].

(** One endpoint: the message, or the error kept for the next round. *)
Definition try_endpoint (response : result HttpResponse) : result (list Z) :=
  r ← response;
  if negb (http_ok r) then Throw ("Pyth " +:+ pretty (http_status r))
  else
    body ← http_json r;
    match option_map (prop "data") (prop "solana" body) with
    | Some (Some (JStr data)) =>
        if bool_decide (data = "") then Throw "Pyth response missing Solana payload" else atob_throw data
    | _ => Throw "Pyth response missing Solana payload"
    end.

Fixpoint fetch_loop (fetcher : string -> result HttpResponse) (endpoints : list string) (lastError : string)
    : result (list Z) :=
  match endpoints with
  | [] => Throw lastError
  | endpoint :: rest =>
      match try_endpoint (fetcher endpoint) with
      | Ok message => Ok message
      | Throw error => fetch_loop fetcher rest error
      end
  end.

Definition fetchPythSolanaMessage (fetcher : string -> result HttpResponse) : result (list Z) :=
  fetch_loop fetcher PYTH_HTTP_ENDPOINTS "no Pyth endpoint responded".

(** ** oracle-runner.ts *)

Record RunnerEnv := mkRunnerEnv {
  re_SOLANA_RPC_URL : option string; re_PYTH_PRO_API_KEY : option string; re_signing : KeeperSigningEnv }.

(** The deployment manifest; [core] and [oracleSnapshot] may be missing. *)
Record Deployment := mkDeployment {
  dp_programId : string; dp_core : option string; dp_oracleSnapshot : option string; dp_feedId : Z; dp_channel : string }.

Section Runner.
Context (resolve : KeeperSigningEnv -> result KeeperSigningResolution).
Context (deps_of : string -> string -> Signer -> RefreshDeps) (base58 : list Z -> string) (deployment : Deployment).

(** The runner's own confirmation outcomes, from those of the transport. *)
Definition runner_outcome (status : Keepers.ConfirmationOutcome) : ConfirmOutcome :=
  match status with
  | Keepers.finalized | Keepers.confirmed => out_confirmed
  | Keepers.blockhash_expired => out_expired
  | Keepers.failed _ => out_failed
  | Keepers.timeout => out_timeout
  end.

Definition signing_text (s : KeeperSigningState) : string :=
  match s with
  | observation_only => "observation-only" | signer_ready => "signer-ready" | signer_invalid => "signer-invalid"
  | configuration_blocked => "configuration-blocked"
  end.

Definition runOracleRefresh (env : RunnerEnv) : eff Trace RefreshResult :=
  match Signers.present (re_SOLANA_RPC_URL env), Signers.present (re_PYTH_PRO_API_KEY env),
        Signers.present (dp_core deployment), Signers.present (dp_oracleSnapshot deployment) with
  | Some url, Some apiKey, Some core, Some snapshot =>
      signing ← eff_lift (resolve (re_signing env));
      match kr_state signing, kr_signer signing with
      | signer_ready, Some signer =>
          eff_catch
            (refreshOracleSnapshot (deps_of url apiKey signer) base58
               (mkRefreshMarket (dp_programId deployment) core snapshot (dp_feedId deployment) (dp_channel deployment)))
            (fun error => mret (refresh_failed error None))
      | state, _ => mret (refresh_failed ("keeper signer " +:+ signing_text state) None)
      end
  | _, _, _, _ => mret (refresh_failed "oracle refresh is not configured" None)
  end.
End Runner.

(** ** What a refresh does *)

Definition is_send (c : Call) : bool := match c with call_send _ => true | _ => false end.
Definition sends (t : list Call) : nat := length (filter (fun c => is_send c = true) t).

Lemma sends_app (a b : list Call) : sends (a ++ b) = (sends a + sends b)%nat.
Proof. unfold sends. by rewrite list.filter_app, length_app. Qed.

Section RefreshSpec.
Context (deps : RefreshDeps) (base58 : list Z -> string) (market : RefreshMarket).

(** The two instructions of an update: the verification at index 0, whose
    offsets name instruction 1, and the consumer at index 1. *)
Definition update_instructions (is_ : list Instruction) : Prop :=
  exists message verify payer treasury, ed25519Instruction message 1 = Ok verify
    /\ is_ = [verify; snapshotUpdateInstruction market payer treasury message 0].

Definition update_transaction (transaction : string) : Prop :=
  exists t is_ blockhash, update_instructions is_ /\ rd_sign deps t is_ blockhash = Ok transaction.

Definition good_call (c : Call) : Prop :=
  match c with
  | call_sign is_ => update_instructions is_
  | call_send transaction => update_transaction transaction
  | _ => True
  end.

(** A computation that makes at most [k] submissions, all of them updates, and
    whose result satisfies [Q]. *)
Definition bounded {A} (k : nat) (m : eff Trace A) (Q : A -> Prop) : Prop :=
  forall t t' r, m t = (t', r) ->
    (exists d, t' = t ++ d /\ (sends d <= k)%nat /\ Forall good_call d) /\ (forall a, r = Ok a -> Q a).

Lemma bounded_ret {A} (a : A) (Q : A -> Prop) : Q a -> bounded 0 (mret a) Q.
Proof.
  intros Ha t t' r [= <- <-]. split; [exists []; rewrite app_nil_r; by split_and!|by intros ? [= <-]].
Qed.

Lemma bounded_lift {A} (r : result A) : bounded 0 (eff_lift r) (fun a => r = Ok a).
Proof. intros t t' r' [= <- <-]. split; [exists []; rewrite app_nil_r; by split_and!|done]. Qed.

Lemma bounded_call {A} c (answer : Trace -> result A) :
  is_send c = false -> good_call c -> bounded 0 (call c answer) (fun a => exists t, answer t = Ok a).
Proof.
  intros Hc Hg t t' r [= <- <-]. split; [|by eauto].
  exists [c]. split_and!; [done| |by constructor]. unfold sends. rewrite list.filter_cons, decide_False by (by rewrite Hc). cbn. lia.
Qed.

Lemma bounded_bind {A B} k1 k2 (m : eff Trace A) (f : A -> eff Trace B) Q R :
  bounded k1 m Q -> (forall a, Q a -> bounded k2 (f a) R) -> bounded (k1 + k2) (m ≫= f) R.
Proof.
  intros Hm Hf t t' r. run_eff. destruct (m t) as [t1 [a|e]] eqn:E.
  - intros Hr. destruct (Hm _ _ _ E) as [(d & -> & Hs & Hd) Ha]. destruct (Hf a (Ha a eq_refl) _ _ _ Hr) as [(d' & -> & Hs' & Hd') HR].
    split; [|done]. exists (d ++ d'). rewrite sends_app, app_assoc. split_and!; [done|lia|by apply Forall_app].
  - intros [= <- <-]. destruct (Hm _ _ _ E) as [(d & -> & Hs & Hd) _]. split; [|done]. exists d. split_and!; [done|lia|done].
Qed.

Lemma bounded_weaken {A} k k' (m : eff Trace A) (Q R : A -> Prop) :
  (k <= k')%nat -> (forall a, Q a -> R a) -> bounded k m Q -> bounded k' m R.
Proof.
  intros Hk HQ Hm t t' r E. destruct (Hm _ _ _ E) as [(d & -> & Hs & Hd) Ha]. split; [|naive_solver].
  exists d. split_and!; [done|lia|done].
Qed.

(** A snapshot the chain reported, and one that was young when looked at. *)
Definition read_snapshot (s : OracleSnapshotView) : Prop :=
  exists t bs, rd_readAccount deps t (rm_snapshot market) = Ok (Some bs) /\ decodeOracleSnapshot bs = Ok s.
Definition young_snapshot (s : OracleSnapshotView) : Prop := read_snapshot s /\ exists t, young (rd_now deps t) s = true.

Lemma currentSnapshot_bounded : bounded 0 (currentSnapshot deps market) (fun o => forall s, o = Some s -> read_snapshot s).
Proof.
  apply (bounded_bind 0 0 _ _ (fun o => exists t, rd_readAccount deps t (rm_snapshot market) = Ok o)); [by apply bounded_call|].
  intros [bs|] [t Ht]; [|by apply bounded_ret].
  apply (bounded_bind 0 0 _ _ (fun s => decodeOracleSnapshot bs = Ok s)); [by apply bounded_lift|].
  intros s Hs. apply bounded_ret. intros ? [= <-]. by exists t, bs.
Qed.

Lemma isFresh_bounded o :
  (forall s, o = Some s -> read_snapshot s) -> bounded 0 (isFresh deps o) (fun o => forall s, o = Some s -> young_snapshot s).
Proof.
  intros Ho. destruct o as [s|]; [|by apply bounded_ret].
  apply (bounded_bind 0 0 _ _ (fun now => exists t, Ok (rd_now deps t) = Ok now)); [by apply bounded_call|].
  intros now [t [= <-]]. apply bounded_ret. intros s'. destruct (young _ s) eqn:E; [|done]. intros [= <-].
  split; [by apply Ho|by exists t].
Qed.

(** What a report of success rests on. *)
Definition reported (r : RefreshResult) : Prop :=
  match r with
  | refresh_ok status sequence publishTime _ =>
      exists s, sequence = sv_sequence s /\ publishTime = to_number (sv_publishTimestamp s) /\ read_snapshot s
        /\ match status with
           | refresh_fresh => exists t, young (rd_now deps t) s = true
           | refresh_refreshed =>
               exists t transaction signature t' h, rd_send deps t transaction = Ok signature
                 /\ rd_confirm deps t' signature h = Ok out_confirmed
           end
  | refresh_failed _ _ => True
  end.

Definition reported_either (r : RefreshResult + RefreshResult) : Prop := match r with inl r | inr r => reported r end.

Lemma summary_fresh s : young_snapshot s -> reported (summary refresh_fresh s None).
Proof. intros [Hr Hy]. by exists s. Qed.

(** Both failure paths of the loop end with a freshness test. *)
Lemma fresh_or_fail_bounded o (answer : RefreshResult) :
  reported answer -> (forall s, o = Some s -> read_snapshot s) ->
  bounded 0 (fresh ← isFresh deps o; mret match fresh with Some s => inl (summary refresh_fresh s None) | None => inr answer end)
    reported_either.
Proof.
  intros Hans Ho. apply (bounded_bind 0 0 _ _ _ _ (isFresh_bounded o Ho)). intros [s|] Hs; apply bounded_ret; [|done].
  apply summary_fresh. by apply Hs.
Qed.

Lemma send_and_confirm_bounded payer transaction height :
  update_transaction transaction -> bounded 1 (send_and_confirm deps market payer transaction height) reported_either.
Proof.
  intros Ht. unfold send_and_confirm.
  apply (bounded_bind 1 0 _ _ (fun sent => exists t, rd_send deps t transaction = sent)).
  - intros t t' r [= <- <-]. split; [|by intros ? [= <-]; exists t].
    exists [call_send transaction]. split_and!; [done|by cbn|by constructor].
  - intros [signature|error] [t Hs].
    + apply (bounded_bind 0 0 _ _ (fun o => exists t, rd_confirm deps t signature height = Ok o)); [by apply bounded_call|].
      intros o [t' Ho]. apply (bounded_bind 0 0 _ _ _ _ currentSnapshot_bounded). intros after Ha.
      destruct o, after as [s|]; try by apply fresh_or_fail_bounded.
      apply bounded_ret. exists s. split_and!; [done|done|by apply Ha|]. by exists t, transaction, signature, t', height.
    + apply (bounded_bind 0 0 _ _ _ _ currentSnapshot_bounded). intros after Ha. by apply fresh_or_fail_bounded.
Qed.

Lemma attempt_update_bounded payer treasury : bounded 1 (attempt_update deps market payer treasury) reported_either.
Proof.
  unfold attempt_update. apply (bounded_bind 0 1 _ _ (fun _ => True)); [eapply bounded_weaken; [done|done|by apply bounded_call]|].
  intros message _. apply (bounded_bind 0 1 _ _ (fun _ => True)); [eapply bounded_weaken; [done|done|by apply bounded_call]|].
  intros [blockhash height] _. apply (bounded_bind 0 1 _ _ (fun v => ed25519Instruction message 1 = Ok v)); [apply bounded_lift|].
  intros verify Hv. set (is_ := [verify; _]).
  assert (update_instructions is_) as Hi by by exists message, verify, payer, treasury.
  apply (bounded_bind 0 1 _ _ (fun tx => exists t, rd_sign deps t is_ blockhash = Ok tx)); [by apply bounded_call|].
  intros tx [t Htx]. apply send_and_confirm_bounded. by exists t, is_, blockhash.
Qed.

Lemma attempts_bounded n : forall first payer treasury failure,
  reported failure -> bounded n (attempts deps market n first payer treasury failure) reported.
Proof.
  induction n as [|n IH]; intros first payer treasury failure Hf; [by apply bounded_ret|]. cbn [attempts].
  apply (bounded_bind 0 (S n) _ _ (fun early => forall s, early = Some s -> young_snapshot s)).
  { destruct first; [by apply bounded_ret|].
    apply (bounded_bind 0 0 _ _ (fun _ => True)); [eapply bounded_weaken; [done|done|by apply bounded_call]|].
    intros [] _. apply (bounded_bind 0 0 _ _ _ _ currentSnapshot_bounded). intros o Ho. by apply isFresh_bounded. }
  intros [s|] Hs; [eapply bounded_weaken; [apply Nat.le_0_l|done|]; apply bounded_ret, summary_fresh; by apply Hs|].
  apply (bounded_bind 1 n _ _ _ _ (attempt_update_bounded payer treasury)).
  intros [answer|failure'] Ha; [eapply bounded_weaken; [apply Nat.le_0_l|done|]; by apply bounded_ret|].
  by apply IH.
Qed.
End RefreshSpec.

(** C24. A refresh spends at most three transactions and tells the truth.  For
    every behaviour of the chain, the Pyth endpoints and the signer, a run makes
    at most three submissions; each is a transaction of exactly two
    instructions, the Ed25519 verification first and the snapshot update second,
    over one well-framed message.  A snapshot younger than five seconds is
    reported without any submission.  A success is reported only with the
    sequence and the time of a snapshot the chain returned, which was either
    young when it was read or follows a submission the chain confirmed. *)
Theorem refresh_spec deps base58 market t' r :
  refreshOracleSnapshot deps base58 market [] = (t', r) ->
  (sends t' <= REFRESH_ATTEMPTS)%nat /\ Forall (good_call deps market) t'
  /\ (forall answer, r = Ok answer -> reported deps market answer)
  /\ (forall bs s, rd_readAccount deps [] (rm_snapshot market) = Ok (Some bs) -> decodeOracleSnapshot bs = Ok s ->
       young (rd_now deps [call_read (rm_snapshot market)]) s = true ->
       t' = [call_read (rm_snapshot market); call_now] /\ r = Ok (summary refresh_fresh s None)).
Proof.
  intros Hrun. assert (bounded deps market 3 (refreshOracleSnapshot deps base58 market) (reported deps market)) as Hb.
  { apply (bounded_bind deps market 0 3 _ _ _ _ (currentSnapshot_bounded deps market)). intros before Hbefore.
    apply (bounded_bind deps market 0 3 _ _ _ _ (isFresh_bounded deps market before Hbefore)).
    intros [s|] Hs; [eapply bounded_weaken; [apply Nat.le_0_l|done|]; apply bounded_ret, summary_fresh; by apply Hs|].
    apply (bounded_bind deps market 0 3 _ _ (fun _ => True)); [eapply bounded_weaken; [done|done|by apply bounded_call]|].
    intros [bs|] _; [|by eapply bounded_weaken; [apply Nat.le_0_l|done|]; apply bounded_ret].
    destruct (blen bs <? 72); [by eapply bounded_weaken; [apply Nat.le_0_l|done|]; apply bounded_ret|].
    apply (bounded_bind deps market 0 3 _ _ (fun _ => True)); [eapply bounded_weaken; [done|done|by apply bounded_call]|].
    intros key _. by apply attempts_bounded. }
  destruct (Hb _ _ _ Hrun) as [(d & -> & Hs & Hd) Hr]. split_and!; [done|done|done|].
  intros bs s Hread Hdec Hy. revert Hrun. unfold refreshOracleSnapshot, currentSnapshot, isFresh, call. run_eff. cbn [app].
  rewrite Hread, Hdec. cbn [app]. rewrite Hy. by intros [= <- <-].
Qed.

(** ** The Ed25519 offsets *)

Lemma ed25519_data_bytes size idx :
  ed25519_data size idx = [1; 0; 8; 0] ++ le_split 2 idx ++ [72; 0] ++ le_split 2 idx ++ [106; 0] ++ le_split 2 size ++ le_split 2 idx.
Proof. rewrite <- !push_loop_split. reflexivity. Qed.

Lemma oracle_data_bytes opcode message index sig :
  oracle_data opcode message index sig = (([opcode] ++ le_split 2 index) ++ [sig]) ++ message.
Proof.
  unfold oracle_data, setUint16. change [opcode] with ([] ++ [opcode]).
  replace (4 + length message)%nat with (S (2 + S (length message + 0)))%nat by lia. fill.
Qed.

(** The worker's consumer instruction carries the client's payload. *)
Lemma snapshot_data market payer treasury message index :
  ix_data (snapshotUpdateInstruction market payer treasury message index)
  = oracle_data CLIENT_OPCODE.updateOracleSnapshotV3 message index 0.
Proof. done. Qed.

Lemma slice_after pre message a b :
  0 <= a -> slice (pre ++ message) (blen pre + a) (blen pre + b) = slice message a b.
Proof.
  intros Ha. unfold slice, blen. replace (Z.to_nat (Z.of_nat (length pre) + a)) with (length pre + Z.to_nat a)%nat by lia.
  rewrite <- drop_drop, drop_app_length. f_equal. lia.
Qed.

(** The verification covers exactly what the consumer carries.  For every
    message the builder accepts, each of the three offset pairs names
    instruction 1, where the consumer is; resolved in the consumer's data they
    give the 64 signature bytes, the 32 key bytes and the signed payload of the
    message, the payload to its last byte; and the consumer names instruction 0,
    where the verification is. *)
Theorem ed25519_offsets_resolve market payer treasury message verify :
  uint8array message -> ed25519Instruction message 1 = Ok verify ->
  let consumer := ix_data (snapshotUpdateInstruction market payer treasury message 0) in
  exists signatureOffset publicKeyOffset payloadOffset size,
    getUint16 (ix_data verify) 2 = Ok signatureOffset /\ getUint16 (ix_data verify) 4 = Ok 1
    /\ getUint16 (ix_data verify) 6 = Ok publicKeyOffset /\ getUint16 (ix_data verify) 8 = Ok 1
    /\ getUint16 (ix_data verify) 10 = Ok payloadOffset /\ getUint16 (ix_data verify) 12 = Ok size
    /\ getUint16 (ix_data verify) 14 = Ok 1
    /\ slice consumer signatureOffset (signatureOffset + 64) = slice message 4 68
    /\ slice consumer publicKeyOffset (publicKeyOffset + 32) = slice message 68 100
    /\ slice consumer payloadOffset (payloadOffset + size) = drop 102 message
    /\ payloadOffset + size = blen consumer
    /\ getUint16 consumer 1 = Ok 0 /\ ix_program verify = ED25519_PROGRAM.
Proof.
  intros Hu Hv. unfold ed25519Instruction in Hv. apply result_bind_Ok in Hv as ([] & Hl%throw_if_Ok & Hv).
  apply result_bind_Ok in Hv as ([] & Hf%throw_if_Ok & [= <-]). zbool. set (size := u16_at message 100) in *.
  assert (0 <= size < 2 ^ 16) as Hsize.
  { apply (view_unsigned_bound message 100 2 size Hu). apply view_at; lia. }
  cbv zeta. rewrite snapshot_data, oracle_data_bytes. cbn [ix_data ix_program].
  set (head := (([CLIENT_OPCODE.updateOracleSnapshotV3] ++ le_split 2 0) ++ [0])).
  assert (blen head = 4) as Hhead by done. exists 8, 72, 106, size. rewrite ed25519_data_bytes.
  assert (forall a v c, 0 <= v < 2 ^ 16 -> getUint16 (a ++ le_split 2 v ++ c) (blen a) = Ok v) as Hget
    by (intros a v c Hr; by apply (view_split_mid a 2)).
  assert (forall a b off, off = blen head + a -> off + (b - a) = blen head + b -> 0 <= a ->
    slice (head ++ message) off (off + (b - a)) = slice message a b) as Hslice
    by (intros a b off E1 E2 Ha; rewrite E2, E1; by apply slice_after).
  split_and!; try done.
  - exact (Hget ([1; 0; 8; 0] ++ le_split 2 1 ++ [72; 0] ++ le_split 2 1 ++ [106; 0]) size (le_split 2 1) Hsize).
  - pose proof (Hslice 102 (102 + size) 106) as E. replace (102 + size - 102) with size in E by lia.
    rewrite E by (rewrite ?Hhead; lia). unfold slice. replace (Z.to_nat (102 + size - 102)) with (length (drop 102 message));
      [apply firstn_all|]. rewrite length_drop. unfold blen in Hf. lia.
  - rewrite blen_app, Hhead. lia.
  - exact (Hget [CLIENT_OPCODE.updateOracleSnapshotV3] 0 ([0] ++ message) ltac:(lia)).
Qed.

(** ** market-stream.ts: one refresh at a time *)

Record SingleFlight := mkSingleFlight {
  oracleRefresh : option nat;                            (** the run callers join *)
  recentOracleRefresh : option (Z * RefreshResult) }.

(** What a caller of [refreshOracle] gets: a recent result, the promise of run
    [n], or the promise of run [n] which it has just started. *)
Inductive RefreshPromise := reused (result : RefreshResult) | joined (run : nat) | started (run : nat).

Definition has_failed (r : RefreshResult) : bool := match r with refresh_failed _ _ => true | _ => false end.

(** [refreshOracle] up to its first [await]; [run] names the promise a new
    [runOracleRefresh] would return. *)
Definition refreshOracle (now : Z) (run : nat) (s : SingleFlight) : SingleFlight * RefreshPromise :=
  match recentOracleRefresh s with
  | Some (at_, result) =>
      if now - at_ <? 1000 then (s, reused result)
      else match oracleRefresh s with
           | Some n => (s, joined n)
           | None => (mkSingleFlight (Some run) (recentOracleRefresh s), started run)
           end
  | None =>
      match oracleRefresh s with
      | Some n => (s, joined n)
      | None => (mkSingleFlight (Some run) (recentOracleRefresh s), started run)
      end
  end.

(** The [then] callback of a run that resolved. *)
Definition refresh_resolved (now : Z) (result : RefreshResult) (s : SingleFlight) : SingleFlight :=
  if has_failed result then s else mkSingleFlight (oracleRefresh s) (Some (now, result)).

(** The [finally] of the caller that started [run]. *)
Definition refresh_finally (run : nat) (s : SingleFlight) : SingleFlight :=
  if bool_decide (oracleRefresh s = Some run) then mkSingleFlight None (recentOracleRefresh s) else s.

(** A run is under way until its promise settles; its starter's [finally] runs
    some time after. *)
Inductive RunPhase := under_way | settled (r : result RefreshResult) | released (r : result RefreshResult).

Record FlightWorld := mkFlightWorld { fw_object : SingleFlight; fw_runs : list RunPhase; fw_clock : Z }.

Inductive flight_step : FlightWorld -> FlightWorld -> Prop :=
  | flight_call w now s' p :
      fw_clock w <= now -> refreshOracle now (length (fw_runs w)) (fw_object w) = (s', p) ->
      flight_step w (mkFlightWorld s' (match p with started _ => fw_runs w ++ [under_way] | _ => fw_runs w end) now)
  | flight_resolve w now n result :
      fw_clock w <= now -> fw_runs w !! n = Some under_way ->
      flight_step w (mkFlightWorld (refresh_resolved now result (fw_object w)) (<[n := settled (Ok result)]> (fw_runs w)) now)
  | flight_reject w n error :
      fw_runs w !! n = Some under_way ->
      flight_step w (mkFlightWorld (fw_object w) (<[n := settled (Throw error)]> (fw_runs w)) (fw_clock w))
  | flight_release w n r :
      fw_runs w !! n = Some (settled r) ->
      flight_step w (mkFlightWorld (refresh_finally n (fw_object w)) (<[n := released r]> (fw_runs w)) (fw_clock w)).

Definition initial_flight : FlightWorld := mkFlightWorld (mkSingleFlight None None) [] 0.

Definition outcome_of (p : RunPhase) : option (result RefreshResult) :=
  match p with under_way => None | settled r | released r => Some r end.
Definition is_released (p : RunPhase) : bool := match p with released _ => true | _ => false end.

(** The promise the object holds is the one run that is not released; the
    recent result is the success of a run. *)
Record flight_inv (w : FlightWorld) : Prop := {
  fi_held n p : fw_runs w !! n = Some p -> is_released p = false -> oracleRefresh (fw_object w) = Some n;
  fi_live n : oracleRefresh (fw_object w) = Some n -> exists p, fw_runs w !! n = Some p /\ is_released p = false;
  fi_recent at_ r : recentOracleRefresh (fw_object w) = Some (at_, r) ->
    has_failed r = false /\ at_ <= fw_clock w /\ exists n p, fw_runs w !! n = Some p /\ outcome_of p = Some (Ok r) }.

(** A step that keeps the cached result keeps what is known of it. *)
Lemma recent_frame w (runs : list RunPhase) clock (r : RefreshResult) at_ :
  (forall n p o, fw_runs w !! n = Some p -> outcome_of p = Some o -> exists p', runs !! n = Some p' /\ outcome_of p' = Some o) ->
  fw_clock w <= clock ->
  has_failed r = false /\ at_ <= fw_clock w /\ (exists n p, fw_runs w !! n = Some p /\ outcome_of p = Some (Ok r)) ->
  has_failed r = false /\ at_ <= clock /\ exists n p, runs !! n = Some p /\ outcome_of p = Some (Ok r).
Proof.
  intros Hruns Hc (Hf & Ha & n & p & Hn & Ho). destruct (Hruns n p _ Hn Ho) as (p' & Hn' & Ho').
  split_and!; [done|lia|by exists n, p'].
Qed.

(** Settling or releasing a run keeps the outcomes of the others, and its own. *)
Lemma outcomes_insert (runs : list RunPhase) n q q' :
  runs !! n = Some q -> (forall o, outcome_of q = Some o -> outcome_of q' = Some o) ->
  forall m p o, runs !! m = Some p -> outcome_of p = Some o ->
    exists p', <[n := q']> runs !! m = Some p' /\ outcome_of p' = Some o.
Proof.
  intros Hq Hq' m p o Hm Ho. destruct (decide (m = n)) as [->|Hne].
  - exists q'. rewrite list_lookup_insert_eq by (by apply lookup_lt_Some in Hq). split; [done|]. apply Hq'. congruence.
  - exists p. by rewrite list_lookup_insert_ne.
Qed.

Lemma held_insert (w : FlightWorld) n q q' :
  flight_inv w -> fw_runs w !! n = Some q -> is_released q = false -> is_released q' = false ->
  forall m p, <[n := q']> (fw_runs w) !! m = Some p -> is_released p = false -> oracleRefresh (fw_object w) = Some m.
Proof.
  intros Hi Hq Hr Hr' m p Hm Hp. destruct (decide (m = n)) as [->|Hne]; [by eapply fi_held|].
  rewrite list_lookup_insert_ne in Hm by done. by eapply fi_held.
Qed.

Lemma live_insert (w : FlightWorld) n q q' :
  flight_inv w -> fw_runs w !! n = Some q -> is_released q' = false ->
  forall m, oracleRefresh (fw_object w) = Some m -> exists p, <[n := q']> (fw_runs w) !! m = Some p /\ is_released p = false.
Proof.
  intros Hi Hq Hr' m Hm. destruct (decide (m = n)) as [->|Hne].
  - exists q'. by rewrite list_lookup_insert_eq by (by apply lookup_lt_Some in Hq).
  - destruct (fi_live w Hi m Hm) as (p & Hp & Hpr). exists p. by rewrite list_lookup_insert_ne.
Qed.

(** A call either leaves the object alone, or starts a run when none is held. *)
Lemma refreshOracle_cases now run s s' p :
  refreshOracle now run s = (s', p) ->
  (s' = s /\ match p with
             | reused r => exists at_, recentOracleRefresh s = Some (at_, r) /\ now - at_ < 1000
             | joined n => oracleRefresh s = Some n
             | started _ => False
             end)
  \/ (p = started run /\ oracleRefresh s = None /\ s' = mkSingleFlight (Some run) (recentOracleRefresh s)).
Proof.
  unfold refreshOracle. destruct (recentOracleRefresh s) as [[at_ r]|] eqn:Er.
  - destruct (now - at_ <? 1000) eqn:Ea; [zbool; intros [= <- <-]; left; split; [done|by exists at_]|].
    destruct (oracleRefresh s) eqn:Ef; intros [= <- <-]; [by left|by right].
  - destruct (oracleRefresh s) eqn:Ef; intros [= <- <-]; [by left|by right].
Qed.

Lemma flight_call_inv w now s' p :
  flight_inv w -> fw_clock w <= now -> refreshOracle now (length (fw_runs w)) (fw_object w) = (s', p) ->
  flight_inv (mkFlightWorld s' (match p with started _ => fw_runs w ++ [under_way] | _ => fw_runs w end) now).
Proof.
  intros Hi Hc Hr. destruct (refreshOracle_cases _ _ _ _ _ Hr) as [[-> Hp]|(-> & Hn & ->)].
  - destruct p as [r|n|n]; [| |done]; (split; [apply Hi|apply Hi|]);
      intros at_ r' Hr'; (eapply recent_frame; [|done|by apply fi_recent]); by eauto.
  - split; cbn.
    + intros n p [Hm|[Hge [Heq _]%list_lookup_singleton_Some]]%lookup_app_Some Hpr;
        [apply (fi_held w Hi) in Hm; [congruence|done]|f_equal; lia].
    + intros n [= <-]. exists under_way. by rewrite lookup_app_r, Nat.sub_diag by lia.
    + intros at_ r Hr'. eapply recent_frame; [|done|by apply fi_recent].
      intros n p o Hm Ho. exists p. split; [|done]. by apply lookup_app_l_Some.
Qed.

Lemma flight_step_inv w w' : flight_inv w -> flight_step w w' -> flight_inv w'.
Proof.
  intros Hi Hs. destruct Hs as [w now s' p Hc Hr|w now n result Hc Hn|w n error Hn|w n r Hn].
  - by apply flight_call_inv.
  - assert (oracleRefresh (refresh_resolved now result (fw_object w)) = oracleRefresh (fw_object w)) as Ho
      by (unfold refresh_resolved; by destruct (has_failed _)).
    split; cbn; rewrite ?Ho; [by eapply held_insert|by eapply live_insert|].
    intros at_ r. unfold refresh_resolved. destruct (has_failed result) eqn:Ef.
    + intros Hr. eapply recent_frame; [|done|by apply fi_recent]. by apply (outcomes_insert _ _ under_way).
    + intros [= <- <-]. split_and!; [done|done|]. exists n, (settled (Ok result)). split; [|done].
      apply list_lookup_insert_eq. by apply lookup_lt_Some in Hn.
  - split; cbn; [by eapply held_insert|by eapply live_insert|].
    intros at_ r Hr. eapply recent_frame; [|done|by apply fi_recent]. by apply (outcomes_insert _ _ under_way).
  - assert (oracleRefresh (fw_object w) = Some n) as Hh by by eapply fi_held.
    unfold refresh_finally. rewrite bool_decide_true by done. split; cbn; [|done|].
    + intros m p Hm Hp. destruct (decide (m = n)) as [->|Hne].
      * rewrite list_lookup_insert_eq in Hm by (by apply lookup_lt_Some in Hn). by injection Hm as <-.
      * rewrite list_lookup_insert_ne in Hm by done. apply (fi_held w Hi) in Hm; [congruence|done].
    + intros at_ r' Hr. eapply recent_frame; [|done|by apply fi_recent].
      by apply (outcomes_insert _ _ (settled r)).
Qed.

Lemma flight_reachable_inv w : rtc flight_step initial_flight w -> flight_inv w.
Proof.
  assert (flight_inv initial_flight) as H0 by (split; cbn; [by intros []|done|done]).
  revert H0. generalize initial_flight. intros w0 H0 Hr. induction Hr as [|x y z Hs _ IH]; [done|].
  apply IH. by eapply flight_step_inv.
Qed.

(** The stream object runs one oracle refresh at a time.  In every
    interleaving of calls, of runs resolving or rejecting, and of their
    starters resuming: at most one run is under way; a call that starts a run
    does so when none is under way; a call that joins gets the run in progress or one
    that has just settled; and a result is reused only if it is not a failure,
    was produced by a run, and was recorded less than a second before. *)
Theorem refresh_single_flight w :
  rtc flight_step initial_flight w ->
  (forall n m, fw_runs w !! n = Some under_way -> fw_runs w !! m = Some under_way -> n = m)
  /\ forall now s' p, fw_clock w <= now -> refreshOracle now (length (fw_runs w)) (fw_object w) = (s', p) ->
     match p with
     | started run => run = length (fw_runs w) /\ (forall n, fw_runs w !! n ≠ Some under_way)
     | joined run => fw_runs w !! run = Some under_way \/ exists r, fw_runs w !! run = Some (settled r)
     | reused r => has_failed r = false /\ (exists n q, fw_runs w !! n = Some q /\ outcome_of q = Some (Ok r))
         /\ exists at_, recentOracleRefresh (fw_object w) = Some (at_, r) /\ at_ <= now < at_ + 1000
     end.
Proof.
  intros Hi%flight_reachable_inv. split.
  - intros n m Hn Hm. apply (fi_held w Hi) in Hn, Hm; [|done|done]. congruence.
  - intros now s' p Hc Hr. destruct (refreshOracle_cases _ _ _ _ _ Hr) as [[_ Hp]|(-> & Hn & _)].
    + destruct p as [r|n|n]; [| |done].
      * destruct Hp as (at_ & Hat & Hage). destruct (fi_recent w Hi _ _ Hat) as (Hf & Hle & Hex).
        split_and!; [done|done|]. exists at_. split; [done|lia].
      * destruct (fi_live w Hi n Hp) as ([|r|r] & Hl & Hrel); [by left|right; by exists r|done].
    + split; [done|]. intros n Hl. apply (fi_held w Hi) in Hl; [congruence|done].
Qed.

(** ** Witnesses *)

Module RefreshSamples.
(** The chain shows a snapshot only after a transaction was sent. *)
Definition message : list Z := replicate 100 7 ++ [2; 0] ++ [9; 9].
Definition snapshot_bytes : list Z :=
  set_bytes (store_byte (store_byte (store_byte (new_Uint8Array (Z.to_nat ORACLE_SNAPSHOT_SIZE)) 8 3) 10 1) 87 1) 0 STKORS03.
Definition deps : RefreshDeps := mkRefreshDeps
  (fun _ => 1000)
  (fun t address => Ok (if bool_decide (address = PYTH_STORAGE) then Some (replicate 72 1)
                        else if (0 <? sends t)%nat then Some snapshot_bytes else None))
  (fun _ _ _ => Ok message) (fun _ => Ok (replicate 32 2)) (fun _ => Ok ("hash", 10)) (fun _ _ _ => Ok "tx")
  (fun _ _ => Ok "signature") (fun _ _ _ => Ok out_confirmed).
Definition market : RefreshMarket := mkRefreshMarket "program" "core" "snapshot" 1435 "real_time".
Definition run := refreshOracleSnapshot deps (fun _ => "key") market [].
Definition after_call : FlightWorld := mkFlightWorld (mkSingleFlight (Some 0%nat) None) [under_way] 5.
End RefreshSamples.

Lemma refresh_spec_witness : sends RefreshSamples.run.1 = 1%nat /\ (sends RefreshSamples.run.1 <= REFRESH_ATTEMPTS)%nat
  /\ RefreshSamples.run.2 = Ok (refresh_ok refresh_refreshed 0 0 (Some "signature")).
Proof.
  split_and!; [vm_compute; reflexivity| |vm_compute; reflexivity].
  apply (refresh_spec RefreshSamples.deps (fun _ => "key") RefreshSamples.market _ RefreshSamples.run.2). reflexivity.
Defined.

Lemma ed25519_offsets_resolve_witness : exists verify signatureOffset,
  ed25519Instruction RefreshSamples.message 1 = Ok verify /\ getUint16 (ix_data verify) 2 = Ok signatureOffset.
Proof.
  assert (uint8array RefreshSamples.message) as Hu by (apply uint8array_check; vm_compute; reflexivity).
  eexists. destruct (ed25519_offsets_resolve RefreshSamples.market "payer" "treasury" RefreshSamples.message _ Hu eq_refl)
    as (signatureOffset & _ & _ & _ & H & _).
  exists signatureOffset. split; [reflexivity|exact H].
Defined.

Lemma refresh_single_flight_witness :
  refreshOracle 7 1 (fw_object RefreshSamples.after_call) = (fw_object RefreshSamples.after_call, joined 0)
  /\ (fw_runs RefreshSamples.after_call !! 0%nat = Some under_way
      \/ exists r, fw_runs RefreshSamples.after_call !! 0%nat = Some (settled r)).
Proof.
  split; [reflexivity|].
  apply (proj2 (refresh_single_flight RefreshSamples.after_call
    (rtc_once _ _ (flight_call initial_flight 5 _ (started 0) ltac:(done) eq_refl))) 7
    (fw_object RefreshSamples.after_call) (joined 0) ltac:(done) eq_refl).
Defined.
