(* ===== verification/PythKeeper.v ===== *)
(** * The Node-side Pyth keeper

    lib/server/pyth-keeper.ts and lib/oracle.ts: the keeper that fetches signed
    updates and builds the pair of instructions that brings one on chain, and
    the tracker that admits updates to a policy.  The Pyth SDK, Node's Base64
    decoder and SHA-256 are parameters. *)

From S2P Require Import Prelude Json Bytes V3Market Transactions PythStream Signers.
From S2P Require Import ClientInstructions ClientEquivalence OracleRefresh.

(** ** oracle.ts *)

Inductive MarketSession := Regular | PreMarket | PostMarket | Overnight | SessionClosed.
Inductive TradingStatus := Open | Halted | CorpAction | StatusClosed.

Record OracleUpdate := mkOracleUpdate {
  ou_feedId : string; ou_channel : string; ou_price : Z; ou_exponent : Z; ou_confidence : Z; ou_timestamp : Z;
  ou_session : MarketSession; ou_status : TradingStatus }.

Record OraclePolicy := mkOraclePolicy {
  op_feedId : string; op_channel : string; op_maxAgeMs : Z; op_maxConfidence : Z; op_exponent : Z }.

Definition is_open (s : TradingStatus) : bool := match s with Open => true | _ => false end.
Definition is_closed (s : MarketSession) : bool := match s with SessionClosed => true | _ => false end.

(** [OracleTracker.accept]: the new [lastTimestamp]. *)
Definition accept (policy : OraclePolicy) (update : OracleUpdate) (now lastTimestamp : Z) : result Z :=
  _ ← throw_if (negb (bool_decide (ou_feedId update = op_feedId policy)) || negb (bool_decide (ou_channel update = op_channel policy)))
        "unexpected oracle binding";
  _ ← throw_if (negb (ou_exponent update =? op_exponent policy) || (ou_price update <=? 0)) "invalid oracle price";
  _ ← throw_if (op_maxConfidence policy <? ou_confidence update) "oracle confidence too wide";
  _ ← throw_if ((now <? ou_timestamp update) || (op_maxAgeMs policy <? now - ou_timestamp update)) "stale oracle update";
  _ ← throw_if (ou_timestamp update <=? lastTimestamp) "non-monotonic oracle update";
  _ ← throw_if (negb (is_open (ou_status update)) || is_closed (ou_session update)) "market not tradeable";
  Ok (ou_timestamp update).

(** An environment of optional strings. *)
Definition Environment := string -> option string.

Definition requirePythServerConfig (env : Environment) : result (string * string) :=
  match Signers.present (env "PYTH_PRO_API_KEY") with
  | None => Throw "PYTH_PRO_API_KEY is required for live verification"
  | Some apiKey =>
      match Signers.present (env "PYTH_PRO_FEED_ID") with
      | None => Throw "PYTH_PRO_FEED_ID must be verified from the Pyth Pro catalog"
      | Some feedId => Ok (apiKey, feedId)
      end
  end.

(** ** pyth-keeper.ts *)

(** Configured, live verification, feed id configured. *)
Definition pythHealth (env : Environment) : bool * bool * bool :=
  (bool_decide (is_Some (present (env "PYTH_PRO_API_KEY"))) && bool_decide (is_Some (present (env "PYTH_PRO_FEED_ID"))), false, bool_decide (is_Some (present (env "PYTH_PRO_FEED_ID")))).

Inductive PayloadEncoding := enc_base64 | enc_hex.

(** The SDK's answer: the Solana payload, and the parsed update with its
    microsecond timestamp and the feed ids it lists. *)
Record LatestPrice := mkLatestPrice {
  lp_solana : option (PayloadEncoding * string); lp_parsed : option (Z * list Z) }.

Record SignedUpdate := mkSigned {
  sg_message : list Z; sg_feedId : Z; sg_timestamp : Z; sg_payloadHash : string }.

Record KeeperState := mkKeeperState { ks_connected : bool; lastTimestamp : Z; lastHash : string }.
Definition new_PythKeeper : KeeperState := mkKeeperState false 0 "".

Section Keeper.
Context (Buffer_base64 : string -> list Z) (sha256_hex : list Z -> string) (feedId : Z).

Definition decode (data : PayloadEncoding * string) : list Z :=
  match data.1 with enc_hex => hex_pairs data.2 | enc_base64 => Buffer_base64 data.2 end.

(** [connection]: the client is created once; a factory that rejects leaves none.
    [factory] and [getLatestPrice] are their outcomes at this call. *)
Definition fetchSignedUpdate (factory : result unit) (getLatestPrice : result LatestPrice) : eff KeeperState SignedUpdate :=
  fun k =>
    match (if ks_connected k then Ok tt else factory) with
    | Throw e => (k, Throw e)
    | Ok tt =>
        let k := mkKeeperState true (lastTimestamp k) (lastHash k) in
        match getLatestPrice with
        | Throw e => (k, Throw e)
        | Ok answer =>
            match lp_solana answer, lp_parsed answer with
            | Some solana, Some (timestampUs, [parsedFeed]) =>
                if negb (parsedFeed =? feedId) then (k, Throw "Incomplete Pyth Pro response")
                else
                  let timestamp := to_number (Z.quot timestampUs 1000000) in
                  let message := decode solana in
                  let payloadHash := sha256_hex message in
                  if (timestamp <=? lastTimestamp k) || bool_decide (payloadHash = lastHash k)
                  then (k, Throw "Duplicate or older Pyth update")
                  else (mkKeeperState true timestamp payloadHash, Ok (mkSigned message feedId timestamp payloadHash))
            | _, _ => (k, Throw "Incomplete Pyth Pro response")
            end
        end
    end.

(** Successive calls, with the outcomes of the factory and the SDK. *)
Fixpoint fetches (calls : list (result unit * result LatestPrice)) (k : KeeperState) : KeeperState * list (result SignedUpdate) :=
  match calls with
  | [] => (k, [])
  | (factory, answer) :: rest =>
      let '(k, r) := fetchSignedUpdate factory answer k in
      let '(k, rs) := fetches rest k in (k, r :: rs)
  end.
End Keeper.

Section Build.
Context (web3 : Web3) (feedId : Z).

Definition ed25519 (message : list Z) (consumerInstructionIndex : Z) : result TransactionInstruction :=
  _ ← throw_if ((blen message <? 102) || (512 <? blen message)) "Invalid signed Solana message";
  let size := u16_at message 100 in
  _ ← throw_if (negb (blen message =? 102 + size)) "Invalid signed Solana message framing";
  _ ← throw_if ((consumerInstructionIndex <? 0) || (0xffff <? consumerInstructionIndex)) "Invalid consumer instruction index";
  k ← publicKey web3 (addr_text ED25519_PROGRAM);
  Ok (mkTransactionInstruction k [] (ed25519_data size consumerInstructionIndex)).

(** The check the three builders start with. *)
Definition expected_feed (update : SignedUpdate) : result unit :=
  throw_if (negb (sg_feedId update =? feedId)) "Unexpected Pyth feed".

Definition buildTransaction (market : AddressInput) (accounts : OracleAccounts) (update : SignedUpdate) (baseIndex : Z)
    : result (list TransactionInstruction) :=
  _ ← expected_feed update;
  verify ← ed25519 (sg_message update) (baseIndex + 1);
  consume ← consumeOracleUpdate web3 market accounts (sg_message update) (Num baseIndex) (Num 0);
  Ok [verify; consume].

Definition buildV3Transaction (core : AddressInput) (eventShards : list AddressInput) (accounts : OracleAccounts)
    (update : SignedUpdate) (baseIndex : Z) : result (list TransactionInstruction) :=
  _ ← expected_feed update;
  verify ← ed25519 (sg_message update) (baseIndex + 1);
  consume ← consumeOracleUpdateV3 web3 core eventShards accounts (sg_message update) (Num baseIndex) (Num 0);
  Ok [verify; consume].

Definition buildV3SnapshotTransaction (snapshot core : AddressInput) (accounts : OracleAccounts) (update : SignedUpdate)
    (baseIndex : Z) : result (list TransactionInstruction) :=
  _ ← expected_feed update;
  verify ← ed25519 (sg_message update) (baseIndex + 1);
  consume ← updateOracleSnapshotV3 web3 snapshot core accounts (sg_message update) baseIndex 0;
  Ok [verify; consume].
End Build.

(** ** Admission *)

(** What the tracker admits.  An update is accepted exactly when it is bound
    to the policy's feed and channel, has the policy's exponent, a positive
    price and a confidence within the limit, is no older than the limit and not
    in the future, is strictly newer than the last one accepted, and the market
    is open; the accepted timestamp then becomes the last one, and a refusal
    changes nothing. *)
Theorem accept_spec policy update now last t :
  accept policy update now last = Ok t <->
  t = ou_timestamp update /\ ou_feedId update = op_feedId policy /\ ou_channel update = op_channel policy
  /\ ou_exponent update = op_exponent policy /\ 0 < ou_price update /\ ou_confidence update <= op_maxConfidence policy
  /\ ou_timestamp update <= now <= ou_timestamp update + op_maxAgeMs policy /\ last < ou_timestamp update
  /\ ou_status update = Open /\ ou_session update ≠ SessionClosed.
Proof.
  unfold accept. split.
  - intros H. repeat (apply result_bind_Ok in H as ([] & ?%throw_if_Ok & H)). injection H as <-.
    unfold is_open, is_closed in *. repeat case_match; zbool; rewrite ?bool_decide_eq_true in *; split_and!; try done; lia.
  - intros (-> & -> & -> & -> & Hp & Hc & [H1 H2] & Hl & -> & Hs). rewrite !bool_decide_true, Z.eqb_refl by done.
    rewrite (proj2 (Z.leb_gt _ _)), (proj2 (Z.ltb_ge _ _)), (proj2 (Z.ltb_ge _ _)), (proj2 (Z.ltb_ge _ _)),
      (proj2 (Z.leb_gt _ _)) by lia. by destruct (ou_session update).
Qed.

Section Monotone.
Context (Buffer_base64 : string -> list Z) (sha256_hex : list Z -> string) (feedId : Z).

(** The updates a sequence of calls returned. *)
Definition returned (rs : list (result SignedUpdate)) : list SignedUpdate :=
  omap outcome rs.

(** Each update is newer than the one before it and has another hash. *)
Fixpoint strictly_newer (t : Z) (h : string) (us : list SignedUpdate) : Prop :=
  match us with
  | [] => True
  | u :: rest => t < sg_timestamp u /\ sg_payloadHash u ≠ h /\ sg_feedId u = feedId
      /\ sg_payloadHash u = sha256_hex (sg_message u) /\ strictly_newer (sg_timestamp u) (sg_payloadHash u) rest
  end.

Lemma fetch_cases factory answer k k' r :
  fetchSignedUpdate Buffer_base64 sha256_hex feedId factory answer k = (k', r) ->
  match r with
  | Ok u => lastTimestamp k < sg_timestamp u /\ sg_payloadHash u ≠ lastHash k /\ sg_feedId u = feedId
      /\ sg_payloadHash u = sha256_hex (sg_message u) /\ lastTimestamp k' = sg_timestamp u /\ lastHash k' = sg_payloadHash u
  | Throw _ => lastTimestamp k' = lastTimestamp k /\ lastHash k' = lastHash k
  end.
Proof.
  unfold fetchSignedUpdate. intros H. repeat case_match; simplify_eq; try done;
    zbool; cbn in *; rewrite ?bool_decide_eq_false in *; by split_and!.
Qed.
End Monotone.

(** No update is handed out twice.  Over any sequence of calls, whatever the
    SDK answers and whenever it fails, the updates returned have strictly
    increasing timestamps, consecutive ones differ in their payload hash, each
    carries the configured feed and the hash of its own message; a call that fails
    leaves the two high-water marks where they were. *)
Theorem keeper_updates_strictly_newer Buffer_base64 sha256_hex feedId calls k :
  strictly_newer sha256_hex feedId (lastTimestamp k) (lastHash k)
    (returned (fetches Buffer_base64 sha256_hex feedId calls k).2).
Proof.
  revert k. induction calls as [|[factory answer] calls IH]; intros k; cbn [fetches]; [done|].
  destruct (fetchSignedUpdate _ _ _ factory answer k) as [k1 r] eqn:E. specialize (IH k1).
  destruct (fetches _ _ _ calls k1) as [k2 rs]. apply fetch_cases in E. destruct r as [u|e]; cbn in *.
  - destruct E as (H1 & H2 & H3 & H4 & Ht & Hh). rewrite Ht, Hh in IH. by split_and!.
  - destruct E as [Ht Hh]. by rewrite Ht, Hh in IH.
Qed.

(** ** Two implementations of the refresh transaction *)

Section SameTransaction.
Context (web3 : Web3) (market : RefreshMarket) (payer treasury : string).

Definition refresh_addresses : list string :=
  [rm_snapshot market; rm_core market; payer; PYTH_PROGRAM; PYTH_STORAGE; treasury; SYSTEM_PROGRAM; INSTRUCTIONS_SYSVAR;
   ED25519_PROGRAM].

Definition refresh_oracle_accounts : OracleAccounts :=
  mkOracleAccounts (addr_text payer) (addr_text PYTH_PROGRAM) (addr_text PYTH_STORAGE) (addr_text treasury)
    (addr_text SYSTEM_PROGRAM) (addr_text INSTRUCTIONS_SYSVAR).

(** What the worker signs for one message. *)
Definition worker_refresh (message : list Z) : result (list Instruction) :=
  verify ← ed25519Instruction message 1;
  Ok [verify; snapshotUpdateInstruction market payer treasury message 0].

(** What the Node keeper builds, as the worker's instructions. *)
Definition node_refresh (update : SignedUpdate) : result (list Instruction) :=
  ixs ← buildV3SnapshotTransaction web3 (rm_feedId market) (addr_text (rm_snapshot market)) (addr_text (rm_core market))
          refresh_oracle_accounts update 0;
  Ok (map (toKitInstruction web3) ixs).
End SameTransaction.

(** The Node keeper and the worker build the same refresh.  For a signed
    message of at most 512 bytes, when the addresses parse and the Base58 form of
    a parsed key is the text it came from, the snapshot transaction of the Node
    keeper, translated to the worker's instruction type, is the pair the
    worker signs: the same programs, accounts, roles and bytes; and one of them
    refuses the message exactly when the other does. *)
Theorem node_worker_refresh_same web3 market payer treasury update :
  (forall s k, new_PublicKey web3 s = Some k -> toBase58 web3 k = s) ->
  Forall (fun s => is_Some (new_PublicKey web3 s)) (refresh_addresses market payer treasury) ->
  toBase58 web3 (EQUINOX_PROGRAM_KEY web3) = rm_programId market ->
  sg_feedId update = rm_feedId market -> blen (sg_message update) <= 512 ->
  node_refresh web3 market payer treasury update ≈ worker_refresh market payer treasury (sg_message update).
Proof.
  intros Hinv Hall Hprog Hfeed Hlen. unfold refresh_addresses in Hall. rewrite !list.Forall_cons in Hall.
  destruct Hall as ([k1 H1] & [k2 H2] & [k3 H3] & [k4 H4] & [k5 H5] & [k6 H6] & [k7 H7] & [k8 H8] & [k9 H9] & _).
  unfold node_refresh, buildV3SnapshotTransaction, worker_refresh, expected_feed, ed25519, ed25519Instruction, updateOracleSnapshotV3,
    check_message_length, publicKey. rewrite Hfeed, Z.eqb_refl, (proj2 (Z.ltb_ge 512 _) Hlen), orb_false_r, H9.
  destruct (blen (sg_message update) <? 102); [done|]. cbn [throw_if mbind result_bind negb].
  destruct (blen (sg_message update) =? _); [|done]. cbn [throw_if mbind result_bind negb].
  change (throw_if _ "Invalid consumer instruction index") with (Ok tt : result unit). cbn [throw_if mbind result_bind].
  unfold instruction, metas, accountMeta, oracle_rows, refresh_oracle_accounts.
  cbn [mapR w_ r_ sw_ publicKey oa_payer oa_pythProgram oa_storage oa_treasury oa_systemProgram oa_instructionsSysvar].
  unfold publicKey. rewrite H1, H2, H3, H4, H5, H6, H7, H8. cbn [mbind result_bind].
  unfold same_outcome, snapshotUpdateInstruction, toKitInstruction, kit_meta. cbn [map outcome ti_programId ti_keys ti_data].
  rewrite <- Hprog. do 2 f_equal; [by rewrite (Hinv _ _ H9)|]. f_equal. cbn [fmap list_fmap pubkey isSigner isWritable].
  by rewrite (Hinv _ _ H1), (Hinv _ _ H2), (Hinv _ _ H3), (Hinv _ _ H4), (Hinv _ _ H5), (Hinv _ _ H6), (Hinv _ _ H7),
    (Hinv _ _ H8).
Qed.

Lemma text_of_ascii_bytes s : text_of (ascii_bytes s) = s.
Proof.
  unfold text_of, ascii_bytes. rewrite <- list_fmap_compose. transitivity (String.string_of_list_ascii (String.list_ascii_of_string s)).
  - f_equal. rewrite <- (list_fmap_id (String.list_ascii_of_string s)) at 2. apply list_fmap_ext. intros i c _. cbn.
    rewrite N2Z.id. apply Ascii.ascii_N_embedding.
  - apply String.string_of_list_ascii_of_string.
Qed.

Module KeeperSamples.
Definition market : RefreshMarket := mkRefreshMarket (text_of (replicate 32 9)) "core" "snapshot" 1435 "real_time".
Definition update : SignedUpdate := mkSigned RefreshSamples.message 1435 10 "hash".
End KeeperSamples.

Lemma node_worker_refresh_same_witness :
  node_refresh sample_web3 KeeperSamples.market "payer" "treasury" KeeperSamples.update
  ≈ worker_refresh KeeperSamples.market "payer" "treasury" RefreshSamples.message.
Proof.
  apply (node_worker_refresh_same sample_web3 KeeperSamples.market "payer" "treasury" KeeperSamples.update).
  - intros s k [= <-]. apply text_of_ascii_bytes.
  - repeat constructor; eexists; reflexivity.
  - reflexivity.
  - reflexivity.
  - vm_compute. discriminate.
Defined.
