(* ===== verification/ChainTransports.v ===== *)
(** * The HTTP transports

    workers/src/chain-transports.ts: the JSON-RPC exchange, the classification
    of its errors, bounded retries, confirmation polling, and the routing of a
    writable account by its delegation byte; with the requests the L1 and router
    transports make.  [fetch], the clock and the timers are parameters. *)

From S2P Require Import Prelude Json Bytes ExecutionStatus Repositories V3Market MarkPrice Keepers.

(** ** Regular expressions

    The patterns of this file are literals, character classes, alternatives and
    one [.*]; a literal part is a list of character tests. *)

Definition pat := list (Ascii.ascii -> bool).

Definition lit (s : string) : pat := Ascii.eqb <$> String.list_ascii_of_string s.
Definition range (lo hi : nat) (c : Ascii.ascii) : bool :=
  let n := Ascii.nat_of_ascii c in (lo <=? n)%nat && (n <=? hi)%nat.
Definition digit : Ascii.ascii -> bool := is_digit.

(** What follows the pattern when the text starts with it. *)
Fixpoint match_here (p : pat) (s : list Ascii.ascii) : option (list Ascii.ascii) :=
  match p, s with
  | [], _ => Some s
  | t :: p, c :: s => if t c then match_here p s else None
  | _, [] => None
  end.

Definition starts (p : pat) (s : list Ascii.ascii) : bool := match match_here p s with Some _ => true | None => false end.

Fixpoint search (p : pat) (s : list Ascii.ascii) : bool :=
  starts p s || match s with [] => false | _ :: rest => search p rest end.

Definition line_break (c : Ascii.ascii) : bool :=
  bool_decide (Ascii.nat_of_ascii c = 10%nat) || bool_decide (Ascii.nat_of_ascii c = 13%nat).

(** The rest of the current line: what [.] can run over. *)
Fixpoint this_line (s : list Ascii.ascii) : list Ascii.ascii :=
  match s with [] => [] | c :: rest => if line_break c then [] else c :: this_line rest end.

(** [/p.*q/] *)
Fixpoint search_then (p q : pat) (s : list Ascii.ascii) : bool :=
  match match_here p s with Some rest => search q (this_line rest) | None => false end
  || match s with [] => false | _ :: rest => search_then p q rest end.

(** Some alternative occurs; the [i] flag compares in lower case. *)
Definition test (alternatives : list pat) (s : string) : bool :=
  existsb (fun p => search p (String.list_ascii_of_string s)) alternatives.
Definition test_i (alternatives : list string) (s : string) : bool := test (lit <$> alternatives) (toLowerCase s).

(** ** Error classes *)

Inductive RpcErrorClass := retryable | permanent | unknown.

Definition RETRYABLE_PATTERNS : list (string -> bool) :=
  [test_i ["blockhash not found"]; test_i ["rate limit"]; test [lit "429"]; test_i ["too many requests"];
   test_i ["timeout"; "time out"; "timedout"; "timed out"]; test_i ["network"]; test_i ["fetch failed"];
   test_i ["node is behind"]; test [lit "-32005"]; test [lit "RPC HTTP 5" ++ [digit; digit]]; test [lit "RPC HTTP 429"]].

Definition PERMANENT_PATTERNS : list (string -> bool) :=
  [test_i ["insufficient lamports"; "insufficient funds"]; test_i ["invalid signature"]; test_i ["instructionerror"];
   test_i ["custom program error"]; test_i ["already processed"; "already been processed"]; test_i ["accountnotfound"];
   fun s => search_then (lit "invalid") (lit "blockhash") (String.list_ascii_of_string (toLowerCase s));
   test [lit "RPC HTTP 4" ++ [range 48 48; fun c => range 48 50 c || range 52 57 c];
         lit "RPC HTTP 4" ++ [range 49 57; digit]]].

Definition classifyRpcError (message : string) : RpcErrorClass :=
  if existsb (fun p => p message) RETRYABLE_PATTERNS then retryable
  else if existsb (fun p => p message) PERMANENT_PATTERNS then permanent
  else unknown.

(** ** JsonRpcTransport *)

Definition valid_endpoint (endpoint : string) : result unit :=
  throw_if (negb (String.prefix "https://" endpoint) && negb (String.prefix "http://" endpoint)) "Invalid RPC endpoint".

(** An answer of [fetch]: the status, and the body once parsed. *)
Record RpcResponse := mkRpcResponse { rr_status : Z; rr_json : result json }.

(** [response.ok] *)
Definition http_success (status : Z) : bool := (200 <=? status) && (status <=? 299).

Definition rpc_error_text (error : option json) : string :=
  "RPC error" +:+ match error ≫= prop "code" with Some code => " " +:+ js_String code | None => "" end
  +:+ ": " +:+ match nullish (error ≫= prop "message") with Some text => js_String text | None => "unknown" end.

(** The body of [JsonRpcTransport.call]; [request] answers one POST. *)
Definition rpc_call (request : string -> list json -> result RpcResponse) (method : string) (params : list json) : result json :=
  response ← request method params;
  _ ← throw_if (negb (http_success (rr_status response))) ("RPC HTTP " +:+ pretty (rr_status response));
  body ← rr_json response;
  _ ← throw_if (truthy (prop "error" body)) (rpc_error_text (prop "error" body));
  match prop "result" body with
  | None => Throw "RPC response missing result"
  | Some r => Ok r
  end.

(** The requests of the two transports. *)
Inductive Commitment := at_processed | at_confirmed | at_finalized.
Definition commitment_text (c : Commitment) : string :=
  match c with at_processed => "processed" | at_confirmed => "confirmed" | at_finalized => "finalized" end.
Definition COMMITMENT_RANK (c : Commitment) : Z :=
  match c with at_processed => 0 | at_confirmed => 1 | at_finalized => 2 end.
Definition commitment_field (c : Commitment) : string * json := ("commitment", JStr (commitment_text c)).

Section Requests.
Context (call : string -> list json -> result json).

Definition latestBlockhash (c : Commitment) := call "getLatestBlockhash" [JObj [commitment_field c]].
Definition multipleAccounts (addresses : list string) (c : Commitment) :=
  call "getMultipleAccounts" [JArr (JStr <$> addresses); JObj [("encoding", JStr "base64"); commitment_field c]].
Definition signatureStatuses (signatures : list string) :=
  call "getSignatureStatuses" [JArr (JStr <$> signatures); JObj [("searchTransactionHistory", JBool true)]].
Definition simulateTransaction (transactionBase64 : string) (c : Commitment) :=
  call "simulateTransaction" [JStr transactionBase64;
    JObj [("encoding", JStr "base64"); commitment_field c; ("sigVerify", JBool true)]].

Record SendTransactionOptions := mkSendOptions {
  skipPreflight : option bool; preflightCommitment : option Commitment; maxRetries : option Z }.

Definition sendTransaction (transactionBase64 : string) (o : SendTransactionOptions) :=
  call "sendTransaction" [JStr transactionBase64;
    JObj ([("encoding", JStr "base64"); ("skipPreflight", JBool (default false (skipPreflight o)));
           ("preflightCommitment", JStr (commitment_text (default at_confirmed (preflightCommitment o))))]
          ++ match maxRetries o with Some n => [("maxRetries", JNum n)] | None => [] end)].
Definition blockHeight (c : Commitment) := call "getBlockHeight" [JObj [commitment_field c]].
Definition isBlockhashValid (blockhash : string) (c : Commitment) :=
  call "isBlockhashValid" [JStr blockhash; JObj [commitment_field c]].

(** [SolanaL1Transport] *)
Definition L1_account (address : string) (c : Commitment) :=
  call "getAccountInfo" [JStr address; JObj [("encoding", JStr "base64"); commitment_field c]].
Definition L1_signatures (address : string) (before : option string) :=
  call "getSignaturesForAddress" [JStr address;
    JObj (match before with Some b => [("before", JStr b)] | None => [] end
          ++ [("limit", JNum 1000); commitment_field at_confirmed])].
Definition L1_transaction (signature : string) :=
  call "getTransaction" [JStr signature;
    JObj [("encoding", JStr "json"); ("maxSupportedTransactionVersion", JNum 0); commitment_field at_confirmed]].

(** [MagicRouterTransport] *)
Definition router_account (address : string) :=
  call "getAccountInfo" [JStr address; JObj [("encoding", JStr "base64"); commitment_field at_confirmed]].
Definition router_status (signature : string) :=
  call "getSignatureStatuses" [JArr [JStr signature]; JObj [("searchTransactionHistory", JBool false)]].
End Requests.

(** ** withRetry *)

(** The [attempt]-th call of the operation answers [operation attempt]; the
    result comes with the delays slept. *)
Fixpoint retry_loop {A} (operation : nat -> result A) (remaining attempt : nat) : list Z * result A :=
  match remaining with
  | O => ([], Throw "undefined")
  | S remaining =>
      match operation attempt with
      | Ok a => ([], Ok a)
      | Throw error =>
          if bool_decide (remaining = O) || negb (match classifyRpcError error with retryable => true | _ => false end)
          then ([], Throw error)
          else
            let '(delays, r) := retry_loop operation remaining (S attempt) in
            (retryDelay_default (Z.of_nat attempt) :: delays, r)
      end
  end.

Definition withRetry {A} (operation : nat -> result A) (maxAttempts : nat) : list Z * result A :=
  retry_loop operation maxAttempts 1.

(** ** confirmTransaction *)

Record SignatureStatus := mkStatus { st_err : option string; st_confirmationStatus : option Commitment }.

Record ConfirmOptions := mkConfirmOptions {
  targetCommitment : Commitment; co_lastValidBlockHeight : Z; pollIntervalMs : Z; timeoutMs : Z }.

(** What the outside answers: the [n]-th reading of the clock, and the status
    and the block height at the [n]-th poll. *)
Record Poller := mkPoller {
  po_now : nat -> Z; po_status : nat -> result (option SignatureStatus); po_height : nat -> result Z }.

(** One pass of the loop: [Some] is its answer, [None] means sleep and go on. *)
Definition poll_once (o : ConfirmOptions) (p : Poller) (n : nat) : result (option ConfirmationOutcome) :=
  status ← po_status p n;
  match status with
  | Some s =>
      match st_err s, st_confirmationStatus s with
      | Some err, _ => Ok (Some (failed err))
      | None, Some c =>
          Ok (if COMMITMENT_RANK (targetCommitment o) <=? COMMITMENT_RANK c
              then Some (match c with at_finalized => finalized | _ => confirmed end) else None)
      | None, None => Ok None
      end
  | None =>
      currentHeight ← po_height p n;
      Ok (if co_lastValidBlockHeight o <? currentHeight then Some blockhash_expired else None)
  end.

(** The loop from its [n]-th test; [None]: out of fuel. *)
Fixpoint confirm_loop (o : ConfirmOptions) (p : Poller) (deadline : Z) (fuel n : nat) : option (result ConfirmationOutcome) :=
  match fuel with
  | O => None
  | S fuel =>
      if po_now p (S n) <? deadline then
        match poll_once o p n with
        | Throw e => Some (Throw e)
        | Ok (Some outcome) => Some (Ok outcome)
        | Ok None => confirm_loop o p deadline fuel (S n)
        end
      else Some (Ok timeout)
  end.

Definition confirmTransaction (o : ConfirmOptions) (p : Poller) (fuel : nat) : option (result ConfirmationOutcome) :=
  confirm_loop o p (po_now p 0 + timeoutMs o) fuel 0.

(** ** Routing *)

Definition DELEGATION_STATUS_OFFSET : Z := 329.
Definition DELEGATED_STATUS_VALUES : list Z := [1; 2].

Definition classifyWritableAccountDomain (accountBytes : list Z) : Domain :=
  if blen accountBytes <=? DELEGATION_STATUS_OFFSET then L1
  else if bool_decide (byte_or_0 accountBytes DELEGATION_STATUS_OFFSET ∈ DELEGATED_STATUS_VALUES) then ER else L1.

(** ** Retries *)

Definition retryable_error {A} (r : result A) : Prop := exists e, r = Throw e /\ classifyRpcError e = retryable.

Lemma retry_loop_S {A} (operation : nat -> result A) remaining attempt :
  retry_loop operation (S remaining) attempt =
  match operation attempt with
  | Ok a => ([], Ok a)
  | Throw error =>
      if bool_decide (remaining = O) || negb (match classifyRpcError error with retryable => true | _ => false end)
      then ([], Throw error)
      else let '(delays, r) := retry_loop operation remaining (S attempt) in
           (retryDelay_default (Z.of_nat attempt) :: delays, r)
  end.
Proof. done. Qed.

Lemma retry_loop_spec {A} (operation : nat -> result A) remaining attempt delays r :
  retry_loop operation (S remaining) attempt = (delays, r) ->
  let last := (attempt + length delays)%nat in
  (length delays <= remaining)%nat /\ r = operation last
  /\ (forall i, (attempt <= i < last)%nat -> retryable_error (operation i))
  /\ (retryable_error r -> length delays = remaining)
  /\ delays = (fun i => retryDelay_default (Z.of_nat i)) <$> seq attempt (length delays).
Proof.
  revert attempt delays r. induction remaining as [|n IH]; intros attempt delays r; rewrite retry_loop_S.
  - destruct (operation attempt) as [a|e] eqn:E; intros [= <- <-]; cbn; rewrite Nat.add_0_r; split_and!; try done; lia.
  - destruct (operation attempt) as [a|e] eqn:E.
    { intros [= <- <-]. cbn. rewrite Nat.add_0_r. split_and!; [lia|done|lia|by intros (? & ? & ?)|done]. }
    rewrite bool_decide_false by done. cbn [orb]. destruct (classifyRpcError e) eqn:Ec; cbn [negb].
    2,3: intros [= <- <-]; cbn; rewrite Nat.add_0_r; split_and!; [lia|done|lia|intros (e' & He & Hc); simplify_eq; congruence|done].
    destruct (retry_loop operation (S n) (S attempt)) as [ds r'] eqn:El. intros [= <- <-].
    destruct (IH _ _ _ El) as (H1 & H2 & H3 & H4 & H5). cbn [length]. rewrite Nat.add_succ_r. cbn in *.
    split_and!; [lia|done| |intros Hr; by rewrite (H4 Hr)|by rewrite H5 at 1].
    intros i Hi. destruct (decide (i = attempt)) as [->|]; [by exists e|apply H3; lia].
Qed.

(** Bounded retry.  The operation is called at most [maxAttempts] times;
    every call before the last failed with an error classified as
    retryable; the answer is that of the last call; a retryable failure is
    reported only when the attempts are used up; and the pause after the [i]-th
    failure is the [i]-th step of the shared back-off schedule, between a
    quarter of a second and thirty seconds. *)
Theorem withRetry_spec {A} (operation : nat -> result A) maxAttempts delays r :
  (0 < maxAttempts)%nat -> withRetry operation maxAttempts = (delays, r) ->
  let last := S (length delays) in
  (last <= maxAttempts)%nat /\ r = operation last
  /\ (forall i, (1 <= i < last)%nat -> retryable_error (operation i))
  /\ (retryable_error r -> last = maxAttempts)
  /\ delays = (fun i => retryDelay_default (Z.of_nat i)) <$> seq 1 (length delays)
  /\ Forall (fun d => 250 <= d <= 30000) delays.
Proof.
  intros Hm E. destruct maxAttempts as [|n]; [lia|].
  destruct (retry_loop_spec _ _ _ _ _ E) as (H1 & H2 & H3 & H4 & H5). cbn in *. split_and!; [lia|done|done| |done|].
  - intros Hr. by rewrite (H4 Hr).
  - rewrite H5. apply Forall_fmap, Forall_true. intros i. apply retryDelay_bounds.
Qed.

Definition sample_operation (n : nat) : result nat := if (n <? 3)%nat then Throw "RPC HTTP 503" else Ok n.

Lemma withRetry_spec_witness :
  withRetry sample_operation 5 = ([250; 500], Ok 3%nat) /\ retryable_error (sample_operation 2).
Proof.
  assert (withRetry sample_operation 5 = ([250; 500], Ok 3%nat)) as H by (vm_compute; reflexivity). split; [exact H|].
  destruct (withRetry_spec sample_operation 5 [250; 500] (Ok 3%nat) ltac:(lia) H) as (_ & _ & Hi & _). apply Hi. cbn. lia.
Defined.

(** ** Status codes *)

Definition status_class (status : Z) : RpcErrorClass :=
  if (status =? 429) || ((500 <=? status) && (status <=? 599)) then retryable
  else if (400 <=? status) && (status <=? 499) && negb (status =? 403) then permanent
  else unknown.

Definition class_eqb (a b : RpcErrorClass) : bool :=
  match a, b with retryable, retryable | permanent, permanent | unknown, unknown => true | _, _ => false end.

Lemma class_eqb_eq a b : class_eqb a b = true -> a = b.
Proof. by destruct a, b. Qed.

Lemma status_class_table :
  forallb (fun s => class_eqb (classifyRpcError ("RPC HTTP " +:+ pretty s)) (status_class s)) (seqZ 100 500) = true.
Proof. vm_compute. reflexivity. Qed.

(** C35. How an HTTP failure is treated.  A response whose status is not a success
    makes the call throw, and the error it throws is retried for 429 and for
    every 5xx and is permanent for every other 4xx but one: 403 is left
    unclassified.  A body with an [error] never yields a result. *)
Theorem rpc_failure_classes request method params response :
  request method params = Ok response -> 100 <= rr_status response < 600 ->
  (http_success (rr_status response) = false ->
   exists e, rpc_call request method params = Throw e /\ classifyRpcError e = status_class (rr_status response))
  /\ (forall body r, rr_json response = Ok body -> truthy (prop "error" body) = true ->
      rpc_call request method params ≠ Ok r).
Proof.
  intros Hreq Hs. unfold rpc_call. rewrite Hreq. cbn [mbind result_bind]. split.
  - intros ->. exists ("RPC HTTP " +:+ pretty (rr_status response)). split; [done|].
    apply class_eqb_eq, (proj1 (forallb_forall _ _) status_class_table), list_elem_of_In, elem_of_seqZ. lia.
  - intros body r Hb He. destruct (negb _); [done|]. cbn. rewrite Hb. cbn. by rewrite He.
Qed.

Lemma rpc_failure_classes_witness : exists e,
  rpc_call (fun _ _ => Ok (mkRpcResponse 503 (Throw "no body"))) "getSlot" [] = Throw e /\ classifyRpcError e = retryable.
Proof.
  refine (proj1 (rpc_failure_classes (fun _ _ => Ok (mkRpcResponse 503 (Throw "no body"))) "getSlot" [] _ eq_refl _) eq_refl).
  cbn. lia.
Defined.

(** ** Confirmation *)

Lemma confirm_loop_finds o p deadline fuel n r :
  confirm_loop o p deadline fuel n = Some r ->
  exists k, (n <= k < n + fuel)%nat
  /\ (forall i, (n <= i < k)%nat -> po_now p (S i) < deadline /\ poll_once o p i = Ok None)
  /\ ((deadline <= po_now p (S k) /\ r = Ok timeout)
      \/ (po_now p (S k) < deadline /\ ((exists e, poll_once o p k = Throw e /\ r = Throw e)
                                         \/ exists out, poll_once o p k = Ok (Some out) /\ r = Ok out))).
Proof.
  revert n. induction fuel as [|f IH]; intros n; cbn [confirm_loop]; [done|].
  destruct (po_now p (S n) <? deadline) eqn:Et; zbool.
  2: { intros [= <-]. exists n. split_and!; [lia|lia|lia|]. by left. }
  destruct (poll_once o p n) as [[out|]|e] eqn:Ep.
  - intros [= <-]. exists n. split_and!; [lia|lia|lia|]. right. split; [done|]. right. by exists out.
  - intros (k & Hk & Hi & Hr)%IH. exists k. split_and!; [lia|lia| |done].
    intros i Hin. destruct (decide (i = n)) as [->|]; [done|apply Hi; lia].
  - intros [= <-]. exists n. split_and!; [lia|lia|lia|]. right. split; [done|]. left. by exists e.
Qed.

(** Every pass takes at least one polling interval, so the deadline is met. *)
Lemma confirm_loop_terminates o p deadline fuel n :
  0 < pollIntervalMs o -> (forall i, po_now p (S i) + pollIntervalMs o <= po_now p (S (S i))) ->
  deadline - po_now p (S n) < Z.of_nat fuel * pollIntervalMs o ->
  is_Some (confirm_loop o p deadline (S fuel) n).
Proof.
  intros Hp Hclock. revert n. induction fuel as [|f IH]; intros n Hn; cbn [confirm_loop].
  - rewrite (proj2 (Z.ltb_ge _ _)) by lia. by eexists.
  - destruct (po_now p (S n) <? deadline); [|by eexists]. destruct (poll_once o p n) as [[out|]|e]; [by eexists| |by eexists].
    apply IH. specialize (Hclock n). lia.
Qed.

(** The evidence behind an outcome. *)
Definition justified (o : ConfirmOptions) (p : Poller) (deadline : Z) (k : nat) (out : ConfirmationOutcome) : Prop :=
  match out with
  | finalized => exists s, po_status p k = Ok (Some s) /\ st_err s = None /\ st_confirmationStatus s = Some at_finalized
  | confirmed => exists s c, po_status p k = Ok (Some s) /\ st_err s = None /\ st_confirmationStatus s = Some c
      /\ c ≠ at_finalized /\ COMMITMENT_RANK (targetCommitment o) <= COMMITMENT_RANK c
  | failed err => exists s, po_status p k = Ok (Some s) /\ st_err s = Some err
  | blockhash_expired => po_status p k = Ok None /\ exists h, po_height p k = Ok h /\ co_lastValidBlockHeight o < h
  | timeout => deadline <= po_now p (S k)
  end.

Lemma poll_once_justified o p deadline k out : poll_once o p k = Ok (Some out) -> justified o p deadline k out.
Proof.
  unfold poll_once. destruct (po_status p k) as [[s|]|] eqn:Es; cbn; [| |done].
  - destruct (st_err s) eqn:Ee, (st_confirmationStatus s) as [c|] eqn:Ec; cbn; try (intros [= <-]; by exists s); try done.
    destruct (_ <=? _) eqn:El; zbool; [|done]. intros [= <-]. destruct c; cbn; [exists s, at_processed|exists s, at_confirmed|exists s]; done.
  - destruct (po_height p k) as [h|] eqn:Eh; cbn; [|done]. destruct (_ <? h) eqn:El; [|done]. zbool. intros [= <-].
    split; [done|by exists h].
Qed.

(** C26. Confirmation polling returns, and reports what it saw.  If every pause
    takes at least the polling interval, the loop ends within one pass per
    interval of the time allowed, plus two.  Its answer is the first decisive
    poll: finalized or confirmed only from a status without error at or above
    the target commitment, failed only from a status with that error, expired
    only when the signature is unknown and the block height has passed the last
    valid one, and timed out only when the time is up; every earlier poll was
    undecided. *)
Theorem confirm_spec o p :
  0 < pollIntervalMs o -> 0 <= timeoutMs o ->
  po_now p 0 <= po_now p 1 -> (forall i, po_now p (S i) + pollIntervalMs o <= po_now p (S (S i))) ->
  exists r, confirmTransaction o p (Z.to_nat (timeoutMs o / pollIntervalMs o) + 2) = Some r
  /\ exists k, (forall i, (i < k)%nat -> poll_once o p i = Ok None)
     /\ match r with
        | Ok out => justified o p (po_now p 0 + timeoutMs o) k out
        | Throw e => poll_once o p k = Throw e
        end.
Proof.
  intros Hp Ht H01 Hclock. set (deadline := po_now p 0 + timeoutMs o).
  assert (is_Some (confirmTransaction o p (Z.to_nat (timeoutMs o / pollIntervalMs o) + 2))) as [r Hr].
  { replace (Z.to_nat (timeoutMs o / pollIntervalMs o) + 2)%nat with (S (S (Z.to_nat (timeoutMs o / pollIntervalMs o)))) by lia.
    apply confirm_loop_terminates; [done|done|]. pose proof (Z.div_pos _ _ Ht Hp).
    pose proof (Z.mul_succ_div_gt (timeoutMs o) (pollIntervalMs o) Hp). fold deadline. nia. }
  exists r. split; [done|]. destruct (confirm_loop_finds _ _ _ _ _ _ Hr) as (k & _ & Hi & Hcases). exists k.
  split; [intros i Hik; apply Hi; lia|]. destruct Hcases as [[Hd ->]|[_ [(e & He & ->)|(out & He & ->)]]]; [done|done|].
  by apply poll_once_justified.
Qed.

Module ConfirmSamples.
Definition options : ConfirmOptions := mkConfirmOptions at_confirmed 100 1000 5000.
Definition poller : Poller := mkPoller (fun n => 1000 * Z.of_nat n)
  (fun n => Ok (if (n <? 2)%nat then None else Some (mkStatus None (Some at_finalized)))) (fun _ => Ok 50).
End ConfirmSamples.

Lemma confirm_spec_witness : exists r, confirmTransaction ConfirmSamples.options ConfirmSamples.poller 7 = Some r /\ r = Ok finalized.
Proof.
  destruct (confirm_spec ConfirmSamples.options ConfirmSamples.poller) as (r & Hr & _).
  - reflexivity.
  - discriminate.
  - discriminate.
  - intros i. cbn. lia.
  - exists r. split; [exact Hr|]. vm_compute in Hr. by injection Hr as <-.
Defined.
