(* ===== verification/WsTransport.v ===== *)
(** * The subscription transport

    workers/src/ws-transport.ts: one WebSocket connection with its pending
    requests, its subscriptions and its reconnection.  The transport is a state
    machine driven by calls, socket events, timers and server messages; what it
    does to the outside is a list of effects.  A promise continuation runs in
    the same step as the message that resolves it: no other event can come
    between them. *)

From S2P Require Import Prelude Json.

(** ** State *)

Inductive SubscriptionKind := kind_logs | kind_account | kind_signature.
Definition kind_text (k : SubscriptionKind) : string :=
  match k with kind_logs => "logs" | kind_account => "account" | kind_signature => "signature" end.

(** [handler] names the callback. *)
Record ActiveSubscription := mkSubscription {
  as_kind : SubscriptionKind; as_params : list json; as_handler : nat; as_oneShot : bool }.

(** What a pending request's promise is for. *)
Inductive Continuation :=
  | then_subscribe (s : ActiveSubscription)    (** [subscribe] *)
  | then_restore (s : ActiveSubscription)      (** [restoreSubscriptions] *)
  | then_unsubscribe                           (** [unsubscribe] *)
  | then_ignore.                               (** the heartbeat probe *)

Inductive ReadyState := CONNECTING | OPEN | CLOSING | CLOSED.
#[export] Instance ready_state_eq_dec : EqDecision ReadyState.
Proof. solve_decision. Defined.

(** The cached [connectPromise]: of socket [n], or already rejected because the
    factory threw. *)
Inductive ConnectPromise := promise_of (socket : nat) | promise_rejected.

Record Transport := mkTransport {
  sockets : list ReadyState;                           (** every socket created so far *)
  socket : option nat;
  nextRequestId : Z;
  pending : list (Z * Continuation);
  subscriptions : list (Z * ActiveSubscription);       (** in insertion order *)
  attempt : Z;
  shuttingDown : bool;
  lastMessageAt : Z;
  heartbeat : bool;
  reconnectTimer : option Z;                           (** its delay *)
  connectPromise : option ConnectPromise;
  stopping : option (list Z) }.                        (** the requests [shutdown] awaits *)

Record TransportOptions := mkTransportOptions {
  baseBackoffMs : Z; maxBackoffMs : Z; staleTimeoutMs : Z; heartbeatIntervalMs : Z }.
Definition DEFAULTS : TransportOptions := mkTransportOptions 250 30000 45000 15000.

Definition new_transport : Transport := mkTransport [] None 1 [] [] 0 false 0 false None None None.

Inductive Effect :=
  | created (socket : nat)
  | sent (socket : nat) (id : Z) (method : string) (params : list json)
  | delivered (handler : nat) (subscription : Z) (result : option json)
  | closed_socket (socket : nat)
  | reported_error.

(** Field updates. *)
Definition set_socket (v : option nat) (t : Transport) : Transport :=
  mkTransport (sockets t) v (nextRequestId t) (pending t) (subscriptions t) (attempt t) (shuttingDown t) (lastMessageAt t)
    (heartbeat t) (reconnectTimer t) (connectPromise t) (stopping t).
Definition set_sockets (v : list ReadyState) (t : Transport) : Transport :=
  mkTransport v (socket t) (nextRequestId t) (pending t) (subscriptions t) (attempt t) (shuttingDown t) (lastMessageAt t)
    (heartbeat t) (reconnectTimer t) (connectPromise t) (stopping t).
Definition set_requests (next : Z) (p : list (Z * Continuation)) (t : Transport) : Transport :=
  mkTransport (sockets t) (socket t) next p (subscriptions t) (attempt t) (shuttingDown t) (lastMessageAt t)
    (heartbeat t) (reconnectTimer t) (connectPromise t) (stopping t).
Definition set_subscriptions (v : list (Z * ActiveSubscription)) (t : Transport) : Transport :=
  mkTransport (sockets t) (socket t) (nextRequestId t) (pending t) v (attempt t) (shuttingDown t) (lastMessageAt t)
    (heartbeat t) (reconnectTimer t) (connectPromise t) (stopping t).
Definition set_attempt (v : Z) (t : Transport) : Transport :=
  mkTransport (sockets t) (socket t) (nextRequestId t) (pending t) (subscriptions t) v (shuttingDown t) (lastMessageAt t)
    (heartbeat t) (reconnectTimer t) (connectPromise t) (stopping t).
Definition set_shuttingDown (v : bool) (t : Transport) : Transport :=
  mkTransport (sockets t) (socket t) (nextRequestId t) (pending t) (subscriptions t) (attempt t) v (lastMessageAt t)
    (heartbeat t) (reconnectTimer t) (connectPromise t) (stopping t).
Definition set_lastMessageAt (v : Z) (t : Transport) : Transport :=
  mkTransport (sockets t) (socket t) (nextRequestId t) (pending t) (subscriptions t) (attempt t) (shuttingDown t) v
    (heartbeat t) (reconnectTimer t) (connectPromise t) (stopping t).
Definition set_heartbeat (v : bool) (t : Transport) : Transport :=
  mkTransport (sockets t) (socket t) (nextRequestId t) (pending t) (subscriptions t) (attempt t) (shuttingDown t)
    (lastMessageAt t) v (reconnectTimer t) (connectPromise t) (stopping t).
Definition set_reconnectTimer (v : option Z) (t : Transport) : Transport :=
  mkTransport (sockets t) (socket t) (nextRequestId t) (pending t) (subscriptions t) (attempt t) (shuttingDown t)
    (lastMessageAt t) (heartbeat t) v (connectPromise t) (stopping t).
Definition set_connectPromise (v : option ConnectPromise) (t : Transport) : Transport :=
  mkTransport (sockets t) (socket t) (nextRequestId t) (pending t) (subscriptions t) (attempt t) (shuttingDown t)
    (lastMessageAt t) (heartbeat t) (reconnectTimer t) v (stopping t).
Definition set_stopping (v : option (list Z)) (t : Transport) : Transport :=
  mkTransport (sockets t) (socket t) (nextRequestId t) (pending t) (subscriptions t) (attempt t) (shuttingDown t)
    (lastMessageAt t) (heartbeat t) (reconnectTimer t) (connectPromise t) v.

(** [Map] operations on an insertion-ordered association list. *)
Definition map_get {A} (k : Z) (m : list (Z * A)) : option A := snd <$> List.find (fun e => fst e =? k) m.
Definition map_delete {A} (k : Z) (m : list (Z * A)) : list (Z * A) := filter (fun e => fst e ≠ k) m.
(** [set] keeps the place of a key that is there. *)
Definition map_set {A} (k : Z) (v : A) (m : list (Z * A)) : list (Z * A) :=
  match map_get k m with
  | Some _ => map (fun e => if fst e =? k then (k, v) else e) m
  | None => m ++ [(k, v)]
  end.

#[local] Arguments map_get : simpl never.
#[local] Arguments map_set : simpl never.
#[local] Arguments map_delete : simpl never.

(** ** Operations *)

Definition isConnected (t : Transport) : bool :=
  match socket t with Some s => bool_decide (sockets t !! s = Some OPEN) | None => false end.

(** [connect]; [factory] tells whether the socket could be constructed. *)
Definition connect (factory : bool) (t : Transport) : Transport * list Effect :=
  match connectPromise t with
  | Some _ => (t, [])
  | None =>
      let t := set_shuttingDown false t in
      if factory then
        let s := length (sockets t) in
        (set_connectPromise (Some (promise_of s)) (set_socket (Some s) (set_sockets (sockets t ++ [CONNECTING]) t)), [created s])
      else (set_connectPromise (Some promise_rejected) t, [])
  end.

Definition reconnect_delay (o : TransportOptions) (attempt : Z) : Z := Z.min (maxBackoffMs o) (baseBackoffMs o * 2 ^ attempt).

Definition scheduleReconnect (o : TransportOptions) (t : Transport) : Transport :=
  match reconnectTimer t with
  | Some _ => t
  | None => set_reconnectTimer (Some (reconnect_delay o (attempt t))) (set_attempt (attempt t + 1) t)
  end.

(** [send]: the request id, or [None] when the promise rejects at once. *)
Definition send (method : string) (params : list json) (k : Continuation) (t : Transport) : Transport * list Effect * option Z :=
  match socket t with
  | Some s =>
      if bool_decide (sockets t !! s = Some OPEN) then
        let id := nextRequestId t in
        (set_requests (id + 1) (map_set id k (pending t)) t, [sent s id method params], Some id)
      else (t, [], None)
  | None => (t, [], None)
  end.

Definition subscribe (kind : SubscriptionKind) (params : list json) (handler : nat) (oneShot : bool) (t : Transport)
    : Transport * list Effect :=
  let '(t, out, _) := send (kind_text kind +:+ "Subscribe") params (then_subscribe (mkSubscription kind params handler oneShot)) t in
  (t, out).

Definition commitment_param (commitment : string) : json := JObj [("commitment", JStr commitment)].
Definition subscribeLogs (filter_ : json) (commitment : string) (handler : nat) :=
  subscribe kind_logs [filter_; commitment_param commitment] handler false.
Definition subscribeAccount (pubkey commitment : string) (handler : nat) :=
  subscribe kind_account [JStr pubkey; JObj [("encoding", JStr "base64"); ("commitment", JStr commitment)]] handler false.
Definition subscribeSignature (signature commitment : string) (handler : nat) :=
  subscribe kind_signature [JStr signature; commitment_param commitment] handler true.

(** The awaited request, when one was sent. *)
Definition unsubscribe (id : Z) (t : Transport) : Transport * list Effect * option Z :=
  match map_get id (subscriptions t) with
  | None => (t, [], None)
  | Some s =>
      let t := set_subscriptions (map_delete id (subscriptions t)) t in
      send (kind_text (as_kind s) +:+ "Unsubscribe") [JNum id] then_unsubscribe t
  end.

Fixpoint restore_each (subs : list (Z * ActiveSubscription)) (t : Transport) : Transport * list Effect :=
  match subs with
  | [] => (t, [])
  | (_, s) :: rest =>
      if as_oneShot s then restore_each rest t
      else
        let '(t, out, id) := send (kind_text (as_kind s) +:+ "Subscribe") (as_params s) (then_restore s) t in
        let out := match id with Some _ => out | None => [reported_error] end in
        let '(t, out') := restore_each rest t in (t, out ++ out')
  end.

Definition restoreSubscriptions (t : Transport) : Transport * list Effect :=
  restore_each (subscriptions t) (set_subscriptions [] t).

(** The [open] listener of socket [s]. *)
Definition on_open (s : nat) (now : Z) (t : Transport) : Transport * list Effect :=
  let t := set_sockets (<[s := OPEN]> (sockets t)) t in
  restoreSubscriptions (set_heartbeat true (set_lastMessageAt now (set_attempt 0 t))).

(** The [close] listener: every pending promise rejects; those of a restoration
    report it. *)
Definition on_close (o : TransportOptions) (s : nat) (t : Transport) : Transport * list Effect :=
  let t := set_sockets (<[s := CLOSED]> (sockets t)) t in
  let rejected := filter (fun e => match snd e with then_restore _ => true | _ => false end = true) (pending t) in
  let t := set_requests (nextRequestId t) [] (set_connectPromise None (set_socket None (set_heartbeat false t))) in
  (if shuttingDown t then t else scheduleReconnect o t, (fun _ => reported_error) <$> rejected).

(** Server messages: unparsable, the answer to a request, a notification, or
    anything else. *)
Inductive Message :=
  | malformed
  | answer (id : Z) (r : result Z)
  | notification (method : string) (subscription : Z) (result : option json)
  | other_message.

Fixpoint string_rev_append (s acc : string) : string :=
  match s with EmptyString => acc | String c s => string_rev_append s (String c acc) end.
Definition endsWith (suffix s : string) : bool := String.prefix (string_rev_append suffix "") (string_rev_append s "").

(** [toNotification] yields nothing for a logs notification without a value. *)
Definition has_notification (s : ActiveSubscription) (result : option json) : bool :=
  match as_kind s with kind_logs => truthy (result ≫= prop "value") | _ => true end.

Definition resolve_request (k : Continuation) (r : result Z) (t : Transport) : Transport * list Effect :=
  match k, r with
  | then_subscribe s, Ok id | then_restore s, Ok id => (set_subscriptions (map_set id s (subscriptions t)) t, [])
  | then_restore _, Throw _ => (t, [reported_error])
  | _, _ => (t, [])
  end.

Definition handleMessage (m : Message) (now : Z) (t : Transport) : Transport * list Effect :=
  let t := set_lastMessageAt now t in
  match m with
  | malformed => (t, [reported_error])
  | answer id r =>
      match map_get id (pending t) with
      | None => (t, [])
      | Some k => resolve_request k r (set_requests (nextRequestId t) (map_delete id (pending t)) t)
      end
  | notification method id result =>
      if negb (endsWith "Notification" method) then (t, [])
      else match map_get id (subscriptions t) with
           | None => (t, [])
           | Some s =>
               if has_notification s result
               then (if as_oneShot s then set_subscriptions (map_delete id (subscriptions t)) t else t,
                     [delivered (as_handler s) id result])
               else (t, [])
           end
  | other_message => (t, [])
  end.

(** The reconnect timer fires. *)
Definition on_reconnect (factory : bool) (t : Transport) : Transport * list Effect :=
  let '(t, out) := connect factory (set_reconnectTimer None t) in
  (t, out ++ match connectPromise t with Some promise_rejected => [reported_error] | _ => [] end).

(** A tick of the heartbeat interval. *)
Definition on_heartbeat (o : TransportOptions) (now : Z) (t : Transport) : Transport * list Effect :=
  let idleFor := now - lastMessageAt t in
  if staleTimeoutMs o <? idleFor then
    match socket t with
    | Some s => (set_sockets (<[s := CLOSING]> (sockets t)) t, [closed_socket s])
    | None => (t, [])
    end
  else if heartbeatIntervalMs o <? idleFor then let '(t, out, _) := send "getVersion" [] then_ignore t in (t, out)
  else (t, []).

Fixpoint unsubscribe_each (ids : list Z) (t : Transport) : Transport * list Effect * list Z :=
  match ids with
  | [] => (t, [], [])
  | id :: rest =>
      let '(t, out, r) := unsubscribe id t in
      let '(t, out', rs) := unsubscribe_each rest t in
      (t, out ++ out', match r with Some r => r :: rs | None => rs end)
  end.

(** [shutdown] up to its [await], and what follows once every unsubscription has
    settled. *)
Definition shutdown (t : Transport) : Transport * list Effect :=
  let t := set_heartbeat false (set_reconnectTimer None (set_shuttingDown true t)) in
  let '(t, out, awaited) := unsubscribe_each (fst <$> subscriptions t) t in
  (set_stopping (Some awaited) t, out).

Definition shutdown_close (t : Transport) : Transport * list Effect :=
  let '(sockets', out) := match socket t with
                          | Some s => (<[s := CLOSING]> (sockets t), [closed_socket s])
                          | None => (sockets t, []) end in
  (set_stopping None (set_connectPromise None (set_socket None (set_sockets sockets' t))), out).

(** ** Events and runs *)

Inductive Event :=
  | ev_connect (factory : bool)
  | ev_subscribe (kind : SubscriptionKind) (params : list json) (handler : nat) (oneShot : bool)
  | ev_unsubscribe (id : Z)
  | ev_open (s : nat) (now : Z)
  | ev_message (s : nat) (m : Message) (now : Z)
  | ev_close (s : nat)
  | ev_reconnect (factory : bool)
  | ev_heartbeat (now : Z)
  | ev_shutdown
  | ev_shutdown_close.

(** When an event can happen. *)
Definition enabled (ev : Event) (t : Transport) : bool :=
  match ev with
  | ev_open s _ => bool_decide (sockets t !! s = Some CONNECTING)
  | ev_message s _ _ => bool_decide (sockets t !! s = Some OPEN) || bool_decide (sockets t !! s = Some CLOSING)
  | ev_close s => match sockets t !! s with Some CLOSED | None => false | Some _ => true end
  | ev_reconnect _ => match reconnectTimer t with Some _ => true | None => false end
  | ev_heartbeat _ => heartbeat t
  | ev_shutdown_close =>
      match stopping t with Some ids => forallb (fun id => match map_get id (pending t) with None => true | Some _ => false end) ids
                          | None => false end
  | _ => true
  end.

Definition step (o : TransportOptions) (ev : Event) (t : Transport) : Transport * list Effect :=
  match ev with
  | ev_connect factory => connect factory t
  | ev_subscribe kind params handler oneShot => subscribe kind params handler oneShot t
  | ev_unsubscribe id => let '(t, out, _) := unsubscribe id t in (t, out)
  | ev_open s now => on_open s now t
  | ev_message _ m now => handleMessage m now t
  | ev_close s => on_close o s t
  | ev_reconnect factory => on_reconnect factory t
  | ev_heartbeat now => on_heartbeat o now t
  | ev_shutdown => shutdown t
  | ev_shutdown_close => shutdown_close t
  end.

(** A run of enabled events, with everything it did. *)
Fixpoint run (o : TransportOptions) (evs : list Event) (t : Transport) : option (Transport * list Effect) :=
  match evs with
  | [] => Some (t, [])
  | ev :: rest =>
      if enabled ev t then
        let '(t1, out) := step o ev t in
        '(t2, out') ← run o rest t1; Some (t2, out ++ out')
      else None
  end.

(** The factory never throws in these events. *)
Definition factory_ok (ev : Event) : bool := match ev with ev_connect f | ev_reconnect f => f | _ => true end.

(** ** Frames *)

(** Everything but the requests and the subscriptions. *)
Definition connection (t : Transport) :=
  (sockets t, socket t, shuttingDown t, reconnectTimer t, connectPromise t, attempt t).

Lemma send_frame method params k t : connection (send method params k t).1.1 = connection t.
Proof. unfold send. by repeat case_match. Qed.

Lemma unsubscribe_frame id t : connection (unsubscribe id t).1.1 = connection t.
Proof. unfold unsubscribe. case_match; [|done]. by rewrite send_frame. Qed.

Lemma unsubscribe_each_frame ids t : connection (unsubscribe_each ids t).1.1 = connection t.
Proof.
  revert t. induction ids as [|id ids IH]; intros t; cbn; [done|].
  destruct (unsubscribe id t) as [[t1 out] r] eqn:E. destruct (unsubscribe_each ids t1) as [[t2 out'] rs] eqn:E2. cbn.
  specialize (IH t1). rewrite E2 in IH. cbn in IH. rewrite IH. pose proof (unsubscribe_frame id t) as H. by rewrite E in H.
Qed.

Lemma restore_each_frame subs t : connection (restore_each subs t).1 = connection t.
Proof.
  revert t. induction subs as [|[id s] subs IH]; intros t; cbn; [done|]. destruct (as_oneShot s); [apply IH|].
  destruct (send _ _ _ t) as [[t1 out] r] eqn:E. destruct (restore_each subs t1) as [t2 out'] eqn:E2. cbn.
  specialize (IH t1). rewrite E2 in IH. cbn in IH. rewrite IH. pose proof (send_frame (kind_text (as_kind s) +:+ "Subscribe") (as_params s) (then_restore s) t) as H.
  by rewrite E in H.
Qed.

Lemma handleMessage_frame m now t : connection (handleMessage m now t).1 = connection t.
Proof. unfold handleMessage, resolve_request. by repeat case_match. Qed.

(** ** The connection invariant *)

Definition live (t : Transport) (s : nat) : Prop := exists r, sockets t !! s = Some r /\ r ≠ CLOSED.

Record ws_inv (o : TransportOptions) (t : Transport) : Prop := {
  wi_socket : socket t = match connectPromise t with Some (promise_of s) => Some s | _ => None end;
  wi_live s : socket t = Some s -> live t s;
  wi_promise : connectPromise t ≠ Some promise_rejected;
  wi_attempt : 0 <= attempt t;
  wi_delay d : reconnectTimer t = Some d -> Z.min (baseBackoffMs o) (maxBackoffMs o) <= d <= maxBackoffMs o;
  wi_alive : shuttingDown t = false -> sockets t ≠ [] ->
    is_Some (connectPromise t) \/ is_Some (reconnectTimer t) \/ exists s, sockets t !! s = Some CLOSING }.

Lemma ws_inv_frame o t t' : connection t' = connection t -> ws_inv o t -> ws_inv o t'.
Proof.
  unfold connection. intros [= E1 E2 E3 E4 E5 E6] [H1 H2 H3 H4 H5 H6]. unfold live in *.
  split; unfold live; rewrite ?E1, ?E2, ?E3, ?E4, ?E5, ?E6; done.
Qed.

Lemma reconnect_delay_bounds o n :
  0 <= n -> 0 <= baseBackoffMs o -> Z.min (baseBackoffMs o) (maxBackoffMs o) <= reconnect_delay o n <= maxBackoffMs o.
Proof. intros Hn Hb. unfold reconnect_delay. pose proof (Z.pow_pos_nonneg 2 n). nia. Qed.

Lemma live_app t s (r : ReadyState) : live t s -> live (set_sockets (sockets t ++ [r]) t) s.
Proof. intros (r' & Hr & Hn). exists r'. split; [|done]. cbn. by apply lookup_app_l_Some. Qed.

Lemma lookup_insert_cases {A} (l : list A) i j (x y : A) :
  <[i := x]> l !! j = Some y -> (j = i /\ y = x) \/ l !! j = Some y.
Proof.
  intros H. destruct (decide (j = i)) as [->|Hne]; [|rewrite list_lookup_insert_ne in H by done; by right].
  destruct (decide (i < length l)%nat); [rewrite list_lookup_insert_eq in H by done; left; by simplify_eq|].
  rewrite list_insert_ge in H by lia. by right.
Qed.

Lemma live_insert_open t s s' r : r ≠ CLOSED -> live t s -> live (set_sockets (<[s' := r]> (sockets t)) t) s.
Proof.
  intros Hr (r' & Hl & Hn). unfold live. cbn. destruct (decide (s = s')) as [->|Hne].
  - exists r. split; [|done]. apply list_lookup_insert_eq. by apply lookup_lt_Some in Hl.
  - exists r'. by rewrite list_lookup_insert_ne.
Qed.

Lemma connect_inv o t : ws_inv o t -> ws_inv o (connect true t).1.
Proof.
  intros [H1 H2 H3 H4 H5 H6]. unfold connect. destruct (connectPromise t) as [p|] eqn:Ep; cbn.
  - split; try done; by rewrite ?Ep.
  - split; cbn; try done; [|by left].
    intros s [= <-]. exists CONNECTING. split; [|done]. cbn. by rewrite lookup_app_r, Nat.sub_diag by lia.
Qed.

Lemma ws_inv_timer o t : ws_inv o t -> is_Some (connectPromise t) -> ws_inv o (set_reconnectTimer None t).
Proof. intros [H1 H2 H3 H4 H5 H6] Hp. split; cbn; try done. by left. Qed.

(** An event of the sockets that leaves the promise: the open and the stale ones. *)
Lemma ws_inv_ready o t s r :
  ws_inv o t -> r ≠ CLOSED -> r = CLOSING \/ (forall r', sockets t !! s = Some r' -> r' ≠ CLOSING) ->
  ws_inv o (set_sockets (<[s := r]> (sockets t)) t).
Proof.
  intros [H1 H2 H3 H4 H5 H6] Hr Hs. split; cbn; try done; [intros s' Hs'; by apply live_insert_open, H2|].
  intros Hd Hne. destruct H6 as [H6|[H6|[s' H6]]]; [done|by intros E; rewrite E in Hne|by left|by right; left|]. right. right.
  destruct (decide (s' = s)) as [->|Hss]; [|exists s'; by rewrite list_lookup_insert_ne].
  destruct Hs as [->|Hs]; [|by destruct (Hs _ H6)].
  exists s. apply list_lookup_insert_eq. by apply lookup_lt_Some in H6.
Qed.

Lemma on_close_inv o s t : 0 <= baseBackoffMs o -> ws_inv o t -> ws_inv o (on_close o s t).1.
Proof.
  intros Hb [H1 H2 H3 H4 H5 H6]. unfold on_close, scheduleReconnect. cbn. destruct (shuttingDown t) eqn:Ed; [split; cbn; try done; congruence|].
  destruct (reconnectTimer t) as [d|] eqn:Et; (split; cbn; try done; try congruence).
  - intros d0 Hd. apply H5. congruence.
  - intros _ _. right. left. by rewrite Et.
  - lia.
  - intros d [= <-]. by apply reconnect_delay_bounds.
  - intros _ _. right. by left.
Qed.

Lemma shutdown_close_inv o t : ws_inv o t -> ws_inv o (shutdown_close t).1.
Proof.
  intros [H1 H2 H3 H4 H5 H6]. unfold shutdown_close. destruct (socket t) as [s|] eqn:Es; cbn.
  - destruct (H2 s eq_refl) as (r & Hr & Hn). split; cbn; try done. intros _ _. right. right. exists s.
    apply list_lookup_insert_eq. by apply lookup_lt_Some in Hr.
  - split; cbn; try done. intros Hd Hne. destruct (H6 Hd Hne) as [[p Hp]|H6']; [|by right]. exfalso.
    rewrite Hp in H1, H3. by destruct p.
Qed.

Lemma step_inv o ev t :
  0 <= baseBackoffMs o -> enabled ev t = true -> factory_ok ev = true -> ws_inv o t -> ws_inv o (step o ev t).1.
Proof.
  intros Hb He Hf Hi. destruct ev as [f|kind params h os|id|s now|s m now|s|f|now| |]; cbn in *.
  - subst f. by apply connect_inv.
  - unfold subscribe. pose proof (send_frame (kind_text kind +:+ "Subscribe") params (then_subscribe (mkSubscription kind params h os)) t) as E.
    destruct (send _ _ _ t) as [[t1 out] r]. by apply (ws_inv_frame o t).
  - pose proof (unsubscribe_frame id t) as E. destruct (unsubscribe id t) as [[t1 out] r]. by apply (ws_inv_frame o t).
  - apply bool_decide_eq_true in He. unfold on_open, restoreSubscriptions.
    eapply ws_inv_frame; [apply restore_each_frame|]. cbn.
    assert (ws_inv o (set_sockets (<[s := OPEN]> (sockets t)) t)) as [H1 H2 H3 H4 H5 H6].
    { apply ws_inv_ready; [done|done|]. right. intros r' Hr'. congruence. }
    split; done.
  - by eapply ws_inv_frame; [apply handleMessage_frame|].
  - by apply on_close_inv.
  - subst f. unfold on_reconnect. destruct (connect true (set_reconnectTimer None t)) as [t' out] eqn:E. cbn.
    unfold connect in E. cbn in E. destruct (connectPromise t) as [p|] eqn:Ep; injection E as <- <-.
    + apply ws_inv_timer; [done|]. by rewrite Ep.
    + destruct Hi as [H1 H2 H3 H4 H5 H6]. split; cbn; try done; [|by left].
      intros s [= <-]. exists CONNECTING. split; [|done]. cbn. by rewrite lookup_app_r, Nat.sub_diag by lia.
  - unfold on_heartbeat. repeat case_match; cbn; try done.
    + apply ws_inv_ready; [done|done|by left].
    + match goal with H : send ?a ?b ?c t = _ |- _ => pose proof (send_frame a b c t) as E; rewrite H in E end.
      by apply (ws_inv_frame o t).
  - unfold shutdown. set (t0 := set_heartbeat false _). pose proof (unsubscribe_each_frame (fst <$> subscriptions t0) t0) as E.
    destruct (unsubscribe_each _ t0) as [[t1 out] aw]. cbn in *.
    apply (ws_inv_frame o t0); [exact E|]. destruct Hi as [H1 H2 H3 H4 H5 H6]. by split.
  - by apply shutdown_close_inv.
Qed.

(** [P] holds at the end of a run when every step of it keeps [P]. *)
Lemma run_ind (o : TransportOptions) (ok : Event -> bool) (P : Transport -> Prop) evs t t' out :
  (forall ev t, enabled ev t = true -> ok ev = true -> P t -> P (step o ev t).1) ->
  forallb ok evs = true -> run o evs t = Some (t', out) -> P t -> P t'.
Proof.
  intros Hstep. revert t out. induction evs as [|ev evs IH]; intros t out Hok Hrun Ht; cbn in *; [by simplify_eq|].
  zbool. destruct (enabled ev t) eqn:He; [|done]. specialize (Hstep ev t He ltac:(done) Ht).
  destruct (step o ev t) as [t1 o1]. destruct (run o evs t1) as [[t2 o2]|] eqn:Er; [|done].
  injection Hrun as <- <-. by eapply IH.
Qed.

(** The transport keeps trying.  In every run in which the socket constructor
    does not throw, a transport that was asked to connect and is not shutting
    down has a connection under way or open, a reconnection scheduled, or a
    socket whose closing is under way and will schedule one; its current socket
    is the one its connection promise is for and is not closed; and a scheduled
    delay lies between the base and the cap of the back-off. *)
Theorem ws_keeps_trying o evs t out :
  0 <= baseBackoffMs o -> forallb factory_ok evs = true -> run o evs new_transport = Some (t, out) ->
  socket t = match connectPromise t with Some (promise_of s) => Some s | _ => None end
  /\ (forall s, socket t = Some s -> live t s)
  /\ (forall d, reconnectTimer t = Some d -> Z.min (baseBackoffMs o) (maxBackoffMs o) <= d <= maxBackoffMs o)
  /\ (shuttingDown t = false -> sockets t ≠ [] ->
      is_Some (connectPromise t) \/ is_Some (reconnectTimer t) \/ exists s, sockets t !! s = Some CLOSING).
Proof.
  intros Hb Hf Hr. assert (ws_inv o t) as [H1 H2 H3 H4 H5 H6]; [|done].
  eapply (run_ind o factory_ok (ws_inv o)); [|exact Hf|exact Hr|by split].
  intros ev t0 He Ho Hi. by apply step_inv.
Qed.

(** A constructor that throws once ends the transport: the rejected promise is
    kept, and every later [connect] returns it. *)
Theorem factory_throw_is_final o :
  exists t out, run o [ev_connect true; ev_close 0; ev_reconnect false] new_transport = Some (t, out)
  /\ reconnectTimer t = None /\ socket t = None /\ forall factory, connect factory t = (t, []).
Proof. eexists _, _. split; [cbv -[reconnect_delay Z.add]; reflexivity|]. split_and!; [reflexivity|reflexivity|]. intros factory. reflexivity. Qed.

(** ** Maps *)

Lemma map_get_None {A} k (m : list (Z * A)) : map_get k m = None <-> k ∉ fst <$> m.
Proof.
  unfold map_get. induction m as [|[k' v] m IH]; cbn; [set_solver|]. destruct (Z.eqb_spec k' k) as [->|Hne]; cbn.
  - split; [done|]. intros H. destruct H. left.
  - rewrite IH, not_elem_of_cons. naive_solver.
Qed.

Lemma map_get_Some {A} k v (m : list (Z * A)) : NoDup (fst <$> m) -> map_get k m = Some v <-> (k, v) ∈ m.
Proof.
  unfold map_get. induction m as [|[k' v'] m IH]; cbn; [set_solver|]. intros [Hn Hd]%list.NoDup_cons.
  destruct (Z.eqb_spec k' k) as [->|Hne]; cbn.
  - rewrite elem_of_cons. split; [intros [= ->]; by left|]. intros [[= ->]|H]; [done|].
    destruct Hn. apply list_elem_of_fmap. by exists (k, v).
  - rewrite elem_of_cons, IH by done. naive_solver.
Qed.

Lemma map_set_fresh {A} k v (m : list (Z * A)) : k ∉ fst <$> m -> map_set k v m = m ++ [(k, v)].
Proof. intros H%map_get_None. unfold map_set. by rewrite H. Qed.

Lemma map_set_keys {A} k v (m : list (Z * A)) : NoDup (fst <$> m) -> NoDup (fst <$> map_set k v m).
Proof.
  intros Hd. destruct (map_get k m) as [v'|] eqn:E.
  - unfold map_set. rewrite E. replace (fst <$> map _ m) with (fst <$> m); [done|]. clear.
    induction m as [|[k' v'] m IH]; cbn; [done|]. rewrite <- IH. by destruct (Z.eqb_spec k' k) as [->|].
  - apply map_get_None in E. rewrite map_set_fresh, fmap_app by done. apply list.NoDup_app. split_and!; [done| |apply NoDup_singleton].
    cbn. set_solver.
Qed.

Lemma elem_of_map_delete {A} k k' v (m : list (Z * A)) : (k', v) ∈ map_delete k m <-> k' ≠ k /\ (k', v) ∈ m.
Proof. unfold map_delete. by rewrite list_elem_of_filter. Qed.

Lemma map_delete_keys {A} k (m : list (Z * A)) : NoDup (fst <$> m) -> NoDup (fst <$> map_delete k m).
Proof.
  intros Hd. unfold map_delete. induction m as [|[k' v'] m IH]; [done|]. apply list.NoDup_cons in Hd as [Hn Hd].
  rewrite list.filter_cons. case_decide; [|by apply IH]. cbn. apply list.NoDup_cons. split; [|by apply IH].
  intros (e & He & Hin)%list_elem_of_fmap. apply Hn. apply list_elem_of_fmap. exists e. split; [done|].
  by apply list_elem_of_filter in Hin as [_ ?].
Qed.

(** ** Request ids *)

Definition sent_ids (out : list Effect) : list Z := omap (fun e => match e with sent _ id _ _ => Some id | _ => None end) out.

Lemma sent_ids_app a b : sent_ids (a ++ b) = sent_ids a ++ sent_ids b.
Proof. apply omap_app. Qed.

(** Ids are handed out in order, and no pending request or subscription shares a
    key with another. *)
Record requests_wf (t : Transport) : Prop := {
  rw_below : Forall (fun e => fst e < nextRequestId t) (pending t);
  rw_pending : NoDup (fst <$> pending t);
  rw_subscriptions : NoDup (fst <$> subscriptions t) }.

(** A step that sends the next ids in order. *)
Definition in_order (t t' : Transport) (out : list Effect) : Prop :=
  nextRequestId t <= nextRequestId t' /\ sent_ids out = seqZ (nextRequestId t) (nextRequestId t' - nextRequestId t).

Definition advances (t t' : Transport) (out : list Effect) : Prop := requests_wf t' /\ in_order t t' out.

Lemma in_order_trans t1 t2 t3 o1 o2 : in_order t1 t2 o1 -> in_order t2 t3 o2 -> in_order t1 t3 (o1 ++ o2).
Proof.
  intros [H1 E1] [H2 E2]. split; [lia|]. rewrite sent_ids_app, E1, E2.
  replace (nextRequestId t3 - nextRequestId t1) with ((nextRequestId t2 - nextRequestId t1) + (nextRequestId t3 - nextRequestId t2)) by lia.
  rewrite seqZ_app by lia. do 2 f_equal. lia.
Qed.

Lemma in_order_same t t' out : nextRequestId t' = nextRequestId t -> sent_ids out = [] -> in_order t t' out.
Proof. intros E Ho. split; [lia|]. by rewrite Ho, E, Z.sub_diag. Qed.

Lemma requests_fresh t : requests_wf t -> nextRequestId t ∉ fst <$> pending t.
Proof.
  intros [H _ _] (e & He & Hin)%list_elem_of_fmap. rewrite list.Forall_forall in H. specialize (H _ Hin). lia.
Qed.

Lemma send_pending method params k t :
  requests_wf t ->
  let '(t', out, id) := send method params k t in
  subscriptions t' = subscriptions t /\ advances t t' out
  /\ match id with Some id => pending t' = pending t ++ [(id, k)] | None => t' = t /\ out = [] end
  /\ (forall s, socket t = Some s -> sockets t !! s = Some OPEN -> is_Some id).
Proof.
  intros Hw. pose proof (requests_fresh t Hw) as Hf. destruct Hw as [Hb Hp Hs]. unfold send.
  destruct (socket t) as [s|]; [destruct (bool_decide _) eqn:E|]; cbn.
  - rewrite map_set_fresh by done. split_and!; [done| |done|by eexists]. split; [split; cbn|split; [cbn; lia|]].
    + apply Forall_app. split; [eapply Forall_impl; [|exact Hb]; cbn; lia|]. constructor; [cbn; lia|constructor].
    + rewrite <- map_set_fresh by done. by apply map_set_keys.
    + done.
    + cbn. by replace (nextRequestId t + 1 - nextRequestId t) with 1 by lia.
  - split_and!; [done| |done|done|intros s' [= <-] H; by rewrite bool_decide_true in E]. split; [by split|by apply in_order_same].
  - split_and!; [done| |done|done|done]. split; [by split|by apply in_order_same].
Qed.

Lemma advances_refl t : requests_wf t -> advances t t [].
Proof. intros H. split; [done|by apply in_order_same]. Qed.

Lemma advances_trans t1 t2 t3 o1 o2 : advances t1 t2 o1 -> advances t2 t3 o2 -> advances t1 t3 (o1 ++ o2).
Proof. intros [_ H1] [Hw H2]. split; [done|by eapply in_order_trans]. Qed.

(** A step that touches neither the requests nor the subscriptions. *)
Lemma advances_frame t t' out :
  nextRequestId t' = nextRequestId t -> pending t' = pending t -> subscriptions t' = subscriptions t -> sent_ids out = [] ->
  requests_wf t -> advances t t' out.
Proof. intros E1 E2 E3 E4 [H1 H2 H3]. split; [split; by rewrite ?E1, ?E2, ?E3|by apply in_order_same]. Qed.

Lemma unsubscribe_advances id t : requests_wf t -> advances t (unsubscribe id t).1.1 (unsubscribe id t).1.2.
Proof.
  intros Hw. unfold unsubscribe. destruct (map_get id (subscriptions t)) as [s|]; [|by apply advances_refl].
  assert (requests_wf (set_subscriptions (map_delete id (subscriptions t)) t)) as Hw'
    by (destruct Hw; split; cbn; [done|done|by apply map_delete_keys]).
  pose proof (send_pending (kind_text (as_kind s) +:+ "Unsubscribe") [JNum id] then_unsubscribe _ Hw') as H.
  destruct (send _ _ _ _) as [[t1 out] r]. by destruct H as (_ & H & _).
Qed.

Lemma unsubscribe_each_advances ids t :
  requests_wf t -> advances t (unsubscribe_each ids t).1.1 (unsubscribe_each ids t).1.2.
Proof.
  revert t. induction ids as [|id ids IH]; intros t Hw; cbn; [by apply advances_refl|].
  pose proof (unsubscribe_advances id t Hw) as H1. destruct (unsubscribe id t) as [[t1 out] r]. cbn in H1.
  specialize (IH t1 (proj1 H1)). destruct (unsubscribe_each ids t1) as [[t2 out'] rs]. by eapply advances_trans.
Qed.

(** Restoring keeps the pending requests and, on an open socket, asks again for
    every durable subscription. *)
Lemma restore_each_spec subs t :
  requests_wf t ->
  let '(t', out) := restore_each subs t in
  advances t t' out /\ subscriptions t' = subscriptions t /\ (forall e, e ∈ pending t -> e ∈ pending t')
  /\ (forall sk i s, socket t = Some sk -> sockets t !! sk = Some OPEN -> (i, s) ∈ subs -> as_oneShot s = false ->
      exists id, (id, then_restore s) ∈ pending t').
Proof.
  revert t. induction subs as [|[i0 s0] subs IH]; intros t Hw; cbn.
  { split_and!; [by apply advances_refl|done|done|]. intros sk i s _ _ H. set_solver. }
  destruct (as_oneShot s0) eqn:Eo.
  { specialize (IH t Hw). destruct (restore_each subs t) as [t' out]. destruct IH as (H1 & H2 & H3 & H4). split_and!; try done.
    intros sk i s Hs Ho [[= -> ->]|Hin]%elem_of_cons Hd; [congruence|by eapply H4]. }
  pose proof (send_frame (kind_text (as_kind s0) +:+ "Subscribe") (as_params s0) (then_restore s0) t) as Hf.
  pose proof (send_pending (kind_text (as_kind s0) +:+ "Subscribe") (as_params s0) (then_restore s0) t Hw) as H.
  destruct (send _ _ _ t) as [[t1 out] r]. destruct H as (Hsub & Hadv & Hpend & Hopen).
  specialize (IH t1 (proj1 Hadv)). destruct (restore_each subs t1) as [t2 out']. destruct IH as (H1 & H2 & H3 & H4).
  assert (forall e, e ∈ pending t -> e ∈ pending t1) as Hk by (intros e He; destruct r; [rewrite Hpend; set_solver|by destruct Hpend as [-> _]]).
  unfold connection in Hf. cbn in Hf. injection Hf as E1 E2 _ _ _ _. split_and!.
  - apply (advances_trans _ t1); [|done]. destruct r; [done|]. destruct Hpend as [-> ->]. by apply advances_frame.
  - congruence.
  - intros e He. by apply H3, Hk.
  - intros sk i s Hs Ho [[= -> ->]|Hin]%elem_of_cons Hd; [|by eapply H4; rewrite ?E1, ?E2].
    destruct (Hopen sk Hs Ho) as [id ->]. exists id. apply H3. rewrite Hpend. set_solver.
Qed.

Lemma map_delete_below {A} k (m : list (Z * A)) n : Forall (fun e => fst e < n) m -> Forall (fun e => fst e < n) (map_delete k m).
Proof. rewrite !list.Forall_forall. intros H [k' v] [_ Hin]%elem_of_map_delete. by apply H. Qed.

Lemma handleMessage_advances m now t :
  requests_wf t -> advances t (handleMessage m now t).1 (handleMessage m now t).2.
Proof.
  intros Hw. pose proof Hw as [H1 H2 H3]. unfold handleMessage. destruct m as [|id r|method id result|]; cbn.
  - by apply advances_frame.
  - destruct (map_get id (pending t)) as [k|]; [|by apply advances_frame].
    assert (requests_wf (set_requests (nextRequestId t) (map_delete id (pending t)) (set_lastMessageAt now t))) as [G1 G2 G3]
      by (split; cbn; [by apply map_delete_below|by apply map_delete_keys|done]).
    unfold resolve_request. destruct k as [s|s| |], r as [n|e]; cbn;
      (split; [split; cbn in *; try done; by apply map_set_keys|by apply in_order_same]).
  - destruct (negb _); [by apply advances_frame|]. destruct (map_get id (subscriptions t)) as [s|]; [|by apply advances_frame].
    destruct (has_notification s result); [|by apply advances_frame]. destruct (as_oneShot s); [|by apply advances_frame].
    split; [split; cbn; [done|done|by apply map_delete_keys]|by apply in_order_same].
  - by apply advances_frame.
Qed.

Lemma on_close_advances o s t : requests_wf t -> advances t (on_close o s t).1 (on_close o s t).2.
Proof.
  intros [H1 H2 H3]. unfold on_close, scheduleReconnect. cbn.
  assert (forall (l : list (Z * Continuation)), sent_ids ((fun _ => reported_error) <$> l) = []) as Hs by (induction l; done).
  repeat case_match; cbn; (split; [split; cbn; [constructor|constructor|done]|by apply in_order_same]).
Qed.

Lemma connect_advances f t : requests_wf t -> advances t (connect f t).1 (connect f t).2.
Proof. intros Hw. unfold connect. repeat case_match; by apply advances_frame. Qed.

Lemma step_advances o ev t : requests_wf t -> advances t (step o ev t).1 (step o ev t).2.
Proof.
  intros Hw. destruct ev as [f|kind params h os|id|s now|s m now|s|f|now| |]; cbn.
  - by apply connect_advances.
  - unfold subscribe. pose proof (send_pending (kind_text kind +:+ "Subscribe") params (then_subscribe (mkSubscription kind params h os)) t Hw) as H.
    destruct (send _ _ _ t) as [[t1 out] r]. by destruct H as (_ & H & _).
  - pose proof (unsubscribe_advances id t Hw) as H. by destruct (unsubscribe id t) as [[t1 out] r].
  - unfold on_open, restoreSubscriptions.
    match goal with |- context [restore_each ?l ?u] => pose proof (restore_each_spec l u) as H; destruct (restore_each l u) as [t' out] end.
    destruct H as [[H1 H2] _]; [destruct Hw; split; cbn; (done || constructor)|]. by split.
  - by apply handleMessage_advances.
  - by apply on_close_advances.
  - unfold on_reconnect. pose proof (connect_advances f (set_reconnectTimer None t)) as H.
    destruct (connect f (set_reconnectTimer None t)) as [t1 out]. destruct H as [H1 H2]; [destruct Hw; by split|]. cbn in *.
    apply (advances_trans _ t1); [by split|]. apply advances_frame; try done. by repeat case_match.
  - unfold on_heartbeat. repeat case_match; cbn; try by apply advances_frame.
    match goal with H : send ?a ?b ?c t = _ |- _ => pose proof (send_pending a b c t Hw) as E; rewrite H in E end.
    by destruct E as (_ & E & _).
  - unfold shutdown. set (t0 := set_heartbeat false _). assert (requests_wf t0) as Hw0 by (destruct Hw; by split).
    pose proof (unsubscribe_each_advances (fst <$> subscriptions t0) t0 Hw0) as H.
    destruct (unsubscribe_each _ t0) as [[t1 out] aw]. cbn in *. destruct H as [[G1 G2 G3] H2]. by split.
  - unfold shutdown_close. by destruct (socket t); apply advances_frame.
Qed.

Lemma run_advances o evs t t' out : run o evs t = Some (t', out) -> requests_wf t -> advances t t' out.
Proof.
  revert t out. induction evs as [|ev evs IH]; intros t out Hrun Hw; cbn in Hrun; [simplify_eq; by apply advances_refl|].
  destruct (enabled ev t); [|done]. pose proof (step_advances o ev t Hw) as H. destruct (step o ev t) as [t1 o1].
  destruct (run o evs t1) as [[t2 o2]|] eqn:Er; [|done]. injection Hrun as <- <-. eapply advances_trans; [exact H|].
  eapply IH; [done|]. apply H.
Qed.

Lemma initial_wf : requests_wf new_transport.
Proof. split; cbn; constructor. Qed.

(** Requests are told apart.  Over any run, the ids of the requests sent are
    1, 2, 3 and so on, without a gap or a repetition, across reconnections too;
    no two pending requests share an id, which is one already sent, and no two
    subscriptions share one. *)
Theorem ws_request_ids o evs t out :
  run o evs new_transport = Some (t, out) ->
  sent_ids out = seqZ 1 (nextRequestId t - 1) /\ NoDup (fst <$> pending t) /\ NoDup (fst <$> subscriptions t)
  /\ Forall (fun e => fst e < nextRequestId t) (pending t).
Proof.
  intros Hr. by destruct (run_advances _ _ _ _ _ Hr initial_wf) as [[H1 H2 H3] [H4 H5]].
Qed.

(** ** Subscriptions across reconnections *)

(** The transport holds the subscription, or is asking for it again. *)
Definition owes (t : Transport) (s : ActiveSubscription) : Prop :=
  (exists id, (id, s) ∈ subscriptions t) \/ (exists id, (id, then_restore s) ∈ pending t).

(** The events that give a subscription up: its own removal, a shutdown, the
    server refusing the new request or reusing an id in use, a socket opening
    that is no longer the current one, and a connection lost while the
    subscription is being asked for again. *)
Definition gives_up (ev : Event) (t : Transport) (s : ActiveSubscription) : Prop :=
  match ev with
  | ev_unsubscribe id => (id, s) ∈ subscriptions t
  | ev_open sk _ => socket t ≠ Some sk
  | ev_close _ => exists id, (id, then_restore s) ∈ pending t
  | ev_message _ (answer id (Throw _)) _ => (id, then_restore s) ∈ pending t
  | ev_message _ (answer _ (Ok n)) _ => n ∈ fst <$> subscriptions t
  | ev_shutdown => True
  | _ => False
  end.

Lemma owes_frame t t' s :
  (forall id, (id, s) ∈ subscriptions t -> (id, s) ∈ subscriptions t') ->
  (forall id, (id, then_restore s) ∈ pending t -> (id, then_restore s) ∈ pending t') -> owes t s -> owes t' s.
Proof. intros H1 H2 [[id H]|[id H]]; [left|right]; exists id; auto. Qed.

Lemma send_owes method params k t s : requests_wf t -> owes t s -> owes (send method params k t).1.1 s.
Proof.
  intros Hw. pose proof (send_pending method params k t Hw) as H. destruct (send method params k t) as [[t1 out] r].
  destruct H as (Hs & _ & Hp & _). apply owes_frame; cbn; [by rewrite Hs|].
  intros id Hin. destruct r; [rewrite Hp; set_solver|by destruct Hp as [-> _]].
Qed.

Lemma connect_owes f t s : owes t s -> owes (connect f t).1 s.
Proof. unfold connect. by repeat case_match. Qed.

Lemma answer_owes id r now t s :
  requests_wf t -> owes t s ->
  ~ match r with Throw _ => (id, then_restore s) ∈ pending t | Ok n => n ∈ fst <$> subscriptions t end ->
  owes (handleMessage (answer id r) now t).1 s.
Proof.
  intros Hw Ho Hn. cbn. destruct (map_get id (pending t)) as [k|] eqn:Ek; [|done].
  apply map_get_Some in Ek; [|by apply Hw]. unfold resolve_request.
  assert (forall n s', r = Ok n -> owes (set_subscriptions (map_set n s' (subscriptions t)) t) s) as Hset.
  { intros n s' ->. revert Ho. apply owes_frame; cbn; [|done]. intros i Hi. rewrite map_set_fresh by done. set_solver. }
  assert (forall i, (i, then_restore s) ∈ pending t -> i ≠ id -> (i, then_restore s) ∈ map_delete id (pending t)) as Hd
    by (intros i Hi Hne; by apply elem_of_map_delete).
  assert (forall i, (i, then_restore s) ∈ pending t -> k ≠ then_restore s -> i ≠ id) as Hother.
  { intros i Hi Hk ->. apply Hk. apply (map_get_Some id _ _ (rw_pending _ Hw)) in Hi, Ek. congruence. }
  destruct k as [s'|s'| |], r as [n|e]; cbn.
  - destruct (Hset n s' eq_refl) as [[i Hi]|[i Hi]]; [left; by exists i|]. right. exists i. apply Hd; [done|by apply (Hother i)].
  - revert Ho. apply owes_frame; cbn; [done|]. intros i Hi. apply Hd; [done|by apply (Hother i)].
  - destruct Ho as [[i Hi]|[i Hi]].
    + left. exists i. cbn. rewrite map_set_fresh by done. set_solver.
    + destruct (decide (i = id)) as [->|Hne]; [|right; exists i; by apply Hd].
      left. exists n. cbn. rewrite map_set_fresh by done.
      apply (map_get_Some id _ _ (rw_pending _ Hw)) in Hi, Ek. simplify_eq. set_solver.
  - revert Ho. apply owes_frame; cbn; [done|]. intros i Hi. apply Hd; [done|]. intros ->. by apply Hn.
  - revert Ho. apply owes_frame; cbn; [done|]. intros i Hi. apply Hd; [done|by apply (Hother i)].
  - revert Ho. apply owes_frame; cbn; [done|]. intros i Hi. apply Hd; [done|by apply (Hother i)].
  - revert Ho. apply owes_frame; cbn; [done|]. intros i Hi. apply Hd; [done|by apply (Hother i)].
  - revert Ho. apply owes_frame; cbn; [done|]. intros i Hi. apply Hd; [done|by apply (Hother i)].
Qed.

Lemma open_owes sk now t s :
  requests_wf t -> socket t = Some sk -> sockets t !! sk = Some CONNECTING -> as_oneShot s = false -> owes t s ->
  owes (on_open sk now t).1 s.
Proof.
  intros [H1 H2 H3] Hs Hc Hd Ho. unfold on_open, restoreSubscriptions.
  match goal with |- context [restore_each ?l ?u] => pose proof (restore_each_spec l u) as H; destruct (restore_each l u) as [t' out] end.
  destruct H as (_ & _ & Hk & Hr); [split; cbn; (done || constructor)|]. cbn in *. right. destruct Ho as [[id Hin]|[id Hin]].
  - apply (Hr sk id s); [done| |done|done]. apply list_lookup_insert_eq. by apply lookup_lt_Some in Hc.
  - exists id. by apply Hk.
Qed.

Lemma step_owes o ev t s :
  requests_wf t -> enabled ev t = true -> as_oneShot s = false -> owes t s -> ~ gives_up ev t s -> owes (step o ev t).1 s.
Proof.
  intros Hw He Hd Ho Hg. destruct ev as [f|kind params h os|id|sk now|sk m now|sk|f|now| |]; cbn in He, Hg |- *.
  - by apply connect_owes.
  - unfold subscribe. pose proof (send_owes (kind_text kind +:+ "Subscribe") params (then_subscribe (mkSubscription kind params h os)) t s Hw Ho) as H.
    by destruct (send _ _ _ t) as [[t1 out] r].
  - unfold unsubscribe. destruct (map_get id (subscriptions t)) as [s'|] eqn:Es; [|done].
    set (t0 := set_subscriptions _ t).
    assert (requests_wf t0) as Hw0 by (destruct Hw; split; cbn; [done|done|by apply map_delete_keys]).
    assert (owes t0 s) as Ho0.
    { revert Ho. apply owes_frame; cbn; [|done]. intros i Hi. apply elem_of_map_delete. split; [|done]. by intros ->. }
    pose proof (send_owes (kind_text (as_kind s') +:+ "Unsubscribe") [JNum id] then_unsubscribe t0 s Hw0 Ho0) as H.
    by destruct (send _ _ _ t0) as [[t1 out] r].
  - apply bool_decide_eq_true in He. apply open_owes; try done. destruct (decide (socket t = Some sk)); [done|by destruct Hg].
  - destruct m as [|id r|method id result|]; [done| | |done].
    + apply answer_owes; [done|done|]. by destruct r.
    + cbn. destruct (negb _); [done|]. destruct (map_get id (subscriptions t)) as [s'|] eqn:Es; [|done].
      destruct (has_notification s' result); [|done]. destruct (as_oneShot s') eqn:Eo; [|done]. cbn.
      revert Ho. apply owes_frame; cbn; [|done]. intros i Hi. apply elem_of_map_delete. split; [|done]. intros ->.
      apply (map_get_Some id _ _ (rw_subscriptions _ Hw)) in Hi. congruence.
  - unfold on_close, scheduleReconnect. destruct Ho as [[id Hin]|[id Hin]]; [|by destruct Hg; exists id].
    left. exists id. cbn. by repeat case_match.
  - unfold on_reconnect. pose proof (connect_owes f (set_reconnectTimer None t) s Ho) as H.
    by destruct (connect f _) as [t1 out].
  - unfold on_heartbeat. repeat case_match; try done.
    match goal with H : send ?a ?b ?c t = _ |- _ => pose proof (send_owes a b c t s Hw Ho) as E; by rewrite H in E end.
  - by destruct Hg.
  - unfold shutdown_close. by destruct (socket t).
Qed.

(** No event of the run gives the subscription up. *)
Fixpoint kept_through (o : TransportOptions) (evs : list Event) (t : Transport) (s : ActiveSubscription) : Prop :=
  match evs with [] => True | ev :: rest => ~ gives_up ev t s /\ kept_through o rest (step o ev t).1 s end.

(** C25. A subscription survives reconnection.  A durable subscription the
    transport holds is, after any number of disconnections and reconnections,
    either held or being asked for again, unless it was unsubscribed, the
    transport was shut down, the server refused the renewed request or reused
    an id in use, a socket that is no longer the current one opened, or the
    connection was lost again while the renewed request was unanswered. *)
Theorem ws_subscription_survives o evs before out0 after out s :
  run o before new_transport = Some (after, out0) ->
  forall t', run o evs after = Some (t', out) ->
  as_oneShot s = false -> owes after s -> kept_through o evs after s -> owes t' s.
Proof.
  intros Hb t' Hr Hd. assert (requests_wf after) as Hw by (by apply (run_advances _ _ _ _ _ Hb), initial_wf). clear Hb.
  revert after out Hr Hw. induction evs as [|ev evs IH]; intros t out Hr Hw Ho Hk; cbn in Hr; [by simplify_eq|].
  destruct Hk as [Hg Hk]. destruct (enabled ev t) eqn:He; [|done].
  pose proof (step_owes o ev t s Hw He Hd Ho Hg) as Ho1. pose proof (step_advances o ev t Hw) as [Hw1 _].
  destruct (step o ev t) as [t1 o1]. destruct (run o evs t1) as [[t2 o2]|] eqn:Er; [|done]. injection Hr as <- <-. by eapply IH.
Qed.

(** ** Losing a subscription *)

Module WsSamples.
Definition logs_subscription : ActiveSubscription := mkSubscription kind_logs [JStr "all"; commitment_param "confirmed"] 7 false.
Definition up : list Event :=
  [ev_connect true; ev_open 0 10; ev_subscribe kind_logs [JStr "all"; commitment_param "confirmed"] 7 false;
   ev_message 0 (answer 1 (Ok 40)) 11].
Definition down_and_up (s : nat) (now : Z) : list Event := [ev_close s; ev_reconnect true; ev_open (S s) now].
End WsSamples.

(** A connection lost while a subscription is being restored loses it for good:
    after the next reconnection nothing is asked for, although the transport is
    connected. *)
Theorem restore_interrupted_loses_subscription :
  match run DEFAULTS (WsSamples.up ++ WsSamples.down_and_up 0 20 ++ WsSamples.down_and_up 1 30) new_transport with
  | Some (t, _) => subscriptions t = [] /\ pending t = [] /\ isConnected t = true
  | None => False
  end.
Proof. vm_compute. auto. Qed.

(** [shutdown] followed at once by [connect]: the old socket's close event drops
    the new connection. *)
Theorem late_close_drops_new_connection :
  match run DEFAULTS ([ev_connect true; ev_open 0 10; ev_shutdown; ev_shutdown_close; ev_connect true; ev_open 1 20] ++ [ev_close 0])
          new_transport with
  | Some (t, _) => sockets t !! 1%nat = Some OPEN /\ socket t = None /\ reconnectTimer t = Some 250
  | None => False
  end.
Proof. vm_compute. auto. Qed.

Lemma ws_keeps_trying_witness : exists t out, run DEFAULTS (WsSamples.up ++ [ev_close 0]) new_transport = Some (t, out)
  /\ (is_Some (connectPromise t) \/ is_Some (reconnectTimer t) \/ exists s, sockets t !! s = Some CLOSING).
Proof.
  eexists _, _. split; [vm_compute; reflexivity|].
  eapply (ws_keeps_trying DEFAULTS (WsSamples.up ++ [ev_close 0])); [done|reflexivity|vm_compute; reflexivity|reflexivity|done].
Defined.

Lemma ws_request_ids_witness : exists t out, run DEFAULTS WsSamples.up new_transport = Some (t, out)
  /\ sent_ids out = seqZ 1 (nextRequestId t - 1).
Proof.
  eexists _, _. split; [vm_compute; reflexivity|].
  apply (ws_request_ids DEFAULTS WsSamples.up). vm_compute. reflexivity.
Defined.

Lemma ws_subscription_survives_witness : exists t t' out out',
  run DEFAULTS WsSamples.up new_transport = Some (t, out)
  /\ run DEFAULTS (WsSamples.down_and_up 0 20) t = Some (t', out') /\ owes t' WsSamples.logs_subscription.
Proof.
  eexists _, _, _, _. split; [vm_compute; reflexivity|]. split; [vm_compute; reflexivity|].
  eapply (ws_subscription_survives DEFAULTS (WsSamples.down_and_up 0 20) WsSamples.up); [vm_compute; reflexivity|vm_compute; reflexivity|reflexivity| |].
  - left. exists 40. vm_compute. left.
  - split; [|split; [|split; [|done]]]; [intros [id H]; vm_compute in H; inversion H|by intros []|intros H; by apply H].
Defined.
