(* ===== verification/BrowserState.v ===== *)
(** * State kept by the browser

    The pure state machines and classifiers of lib/: sequence-recovery.ts,
    lifecycle.ts, oracle-safety.ts, magicblock.ts, session-relay-status.ts and
    positions.ts. *)

From S2P Require Import Prelude Json Bytes ExecutionStatus V3Market PrivateSessions.

(** ** sequence-recovery.ts *)

Inductive SequenceOutcome := seq_first | seq_in_order | seq_duplicate | seq_gap | seq_slot_regression.

Record DomainCursor := mkCursor { dc_sequence : Z; dc_slot : Z }.
Record SequenceTrackerState := mkTracker { tr_l1 : option DomainCursor; tr_er : option DomainCursor }.
Definition INITIAL_SEQUENCE_TRACKER : SequenceTrackerState := mkTracker None None.

(** [state[domain]] and [{ ...state, [domain]: cursor }] *)
Definition cursor_of (d : Domain) (t : SequenceTrackerState) : option DomainCursor :=
  match d with L1 => tr_l1 t | ER => tr_er t end.
Definition with_cursor (d : Domain) (c : DomainCursor) (t : SequenceTrackerState) : SequenceTrackerState :=
  match d with L1 => mkTracker (Some c) (tr_er t) | ER => mkTracker (tr_l1 t) (Some c) end.

Record SequencedEvent := mkSequenced { sq_domain : Domain; sq_sequence : Z; sq_slot : option Z }.
Record SequenceAdvanceResult := mkAdvance { ad_state : SequenceTrackerState; ad_outcome : SequenceOutcome; ad_missed : Z }.

Definition advanceSequence (state : SequenceTrackerState) (event : SequencedEvent) : SequenceAdvanceResult :=
  let domain := sq_domain event in
  match cursor_of domain state with
  | None => mkAdvance (with_cursor domain (mkCursor (sq_sequence event) (default 0 (sq_slot event))) state) seq_first 0
  | Some prior =>
      let slot := default (dc_slot prior) (sq_slot event) in
      if sq_sequence event <=? dc_sequence prior then mkAdvance state seq_duplicate 0
      else if match sq_slot event with Some s => s <? dc_slot prior | None => false end
      then mkAdvance (with_cursor domain (mkCursor (sq_sequence event) (dc_slot prior)) state) seq_slot_regression 0
      else if dc_sequence prior + 1 <? sq_sequence event
      then mkAdvance (with_cursor domain (mkCursor (sq_sequence event) slot) state) seq_gap (sq_sequence event - dc_sequence prior - 1)
      else mkAdvance (with_cursor domain (mkCursor (sq_sequence event) slot) state) seq_in_order 0
  end.

(** The reduction of [seedFromSnapshot]: the first event with the highest
    sequence number of the domain. *)
Definition highest_of (domain : Domain) (events : list SequencedEvent) : option DomainCursor :=
  foldl (fun best event =>
    let c := mkCursor (sq_sequence event) (default 0 (sq_slot event)) in
    match best with
    | None => Some c
    | Some b => if dc_sequence b <? sq_sequence event then Some c else best
    end) None (filter (fun e => sq_domain e = domain) events).

Definition seed_domain (events : list SequencedEvent) (next : SequenceTrackerState) (domain : Domain) : SequenceTrackerState :=
  match highest_of domain events with
  | None => next
  | Some h =>
      match cursor_of domain next with
      | None => with_cursor domain h next
      | Some c => if dc_sequence c <? dc_sequence h then with_cursor domain h next else next
      end
  end.

Definition seedFromSnapshot (state : SequenceTrackerState) (events : list SequencedEvent) : SequenceTrackerState :=
  foldl (seed_domain events) state [L1; ER].

(** ** lifecycle.ts *)

Inductive ExecutionPhase :=
  | ph_read_only | ph_deposit_pending | ph_funded_l1 | ph_session_pending | ph_delegated | ph_commit_pending | ph_undelegating
  | ph_withdraw_ready | ph_error.

Inductive LifecycleEvent :=
  | REQUEST_DEPOSIT | CONFIRM_DEPOSIT | REQUEST_SESSION | CONFIRM_DELEGATION | REQUEST_COMMIT | COMMIT_CONFIRMED
  | REQUEST_UNDELEGATE | UNDELEGATED | WITHDRAW | FAIL | RESET.

Record BrowserExecution := mkBrowserExecution {
  bx_phase : ExecutionPhase; bx_l1Sequence : Z; bx_erSequence : Z; bx_sessionExpiresAt : option Z; bx_error : option string }.

Definition initialExecutionState : BrowserExecution := mkBrowserExecution ph_read_only 0 0 None None.

Definition with_phase (p : ExecutionPhase) (s : BrowserExecution) : BrowserExecution :=
  mkBrowserExecution p (bx_l1Sequence s) (bx_erSequence s) (bx_sessionExpiresAt s) (bx_error s).

Definition transition (now : Z) (s : BrowserExecution) (event : LifecycleEvent) : BrowserExecution :=
  match event, bx_phase s with
  | REQUEST_DEPOSIT, ph_read_only => with_phase ph_deposit_pending s
  | CONFIRM_DEPOSIT, ph_deposit_pending =>
      mkBrowserExecution ph_funded_l1 (bx_l1Sequence s + 1) (bx_erSequence s) (bx_sessionExpiresAt s) (bx_error s)
  | REQUEST_SESSION, ph_funded_l1 => with_phase ph_session_pending s
  | CONFIRM_DELEGATION, ph_session_pending =>
      mkBrowserExecution ph_delegated (bx_l1Sequence s) (bx_erSequence s + 1) (Some (now + 15 * 60000)) (bx_error s)
  | REQUEST_COMMIT, ph_delegated => with_phase ph_commit_pending s
  | COMMIT_CONFIRMED, ph_commit_pending =>
      mkBrowserExecution ph_delegated (bx_erSequence s) (bx_erSequence s) (bx_sessionExpiresAt s) (bx_error s)
  | REQUEST_UNDELEGATE, ph_delegated => with_phase ph_undelegating s
  | UNDELEGATED, ph_undelegating => mkBrowserExecution ph_withdraw_ready (bx_erSequence s) (bx_erSequence s) None (bx_error s)
  | WITHDRAW, ph_withdraw_ready => mkBrowserExecution ph_read_only (bx_l1Sequence s + 1) (bx_erSequence s + 1) None None
  | FAIL, _ =>
      mkBrowserExecution ph_error (bx_l1Sequence s) (bx_erSequence s) (bx_sessionExpiresAt s)
        (Some "Transaction did not reach a confirmed state. Review the signed transaction before retrying.")
  | RESET, _ => initialExecutionState
  | _, _ => s
  end.

(** ** oracle-safety.ts *)

Inductive OracleSafetyState := safety_fresh | safety_stale | safety_closed | safety_halted | safety_corp_action | safety_unknown.

Definition ORACLE_SAFETY_LABEL (s : OracleSafetyState) : string :=
  match s with
  | safety_fresh => "fresh" | safety_stale => "stale" | safety_closed => "closed" | safety_halted => "halted"
  | safety_corp_action => "corporate action" | safety_unknown => "unavailable"
  end.

Definition ORACLE_LIFECYCLE_EVENT_KINDS : list string :=
  ["OracleUpdated"; "OracleStale"; "OracleRejected"; "OracleRecovered"; "MarketPaused"; "MarketResumed"; "MarketCloseOnly";
   "MarketClosed"; "CorporateActionEntered"; "CorporateActionResolved"].

Definition HARD_OVERRIDE : list (string * OracleSafetyState) :=
  [("OracleStale", safety_stale); ("OracleRejected", safety_stale); ("MarketPaused", safety_halted);
   ("MarketCloseOnly", safety_closed); ("MarketClosed", safety_closed); ("CorporateActionEntered", safety_corp_action)].

Definition DEFAULT_STALENESS_THRESHOLD_SECONDS : Z := 120.

Record OracleSafetyInput := mkSafetyInput {
  si_oracleValid : option bool; si_lastVerifiedOracleTimestamp : option Z; si_nowUnixSeconds : Z;
  si_latestLifecycleEventKind : option string; si_stalenessThresholdSeconds : option Z }.

Definition deriveOracleSafety (i : OracleSafetyInput) : OracleSafetyState :=
  match si_latestLifecycleEventKind i ≫= (fun k => assoc k HARD_OVERRIDE) with
  | Some s => s
  | None =>
      match si_oracleValid i, si_lastVerifiedOracleTimestamp i with
      | None, _ => safety_unknown
      | Some false, _ => safety_stale
      | Some true, None => safety_unknown
      | Some true, Some t =>
          let threshold := default DEFAULT_STALENESS_THRESHOLD_SECONDS (si_stalenessThresholdSeconds i) in
          if si_nowUnixSeconds i - to_number t <=? threshold then safety_fresh else safety_stale
      end
  end.

(** An event as the feed carries it: its sequence and kind may be missing. *)
Record FeedEvent := mkFeedEvent { fe_sequence : option Z; fe_kind : option string }.

(** The kind and the sequence of an event the fold looks at. *)
Definition lifecycle_event (e : FeedEvent) : option (Z * string) :=
  match fe_kind e, fe_sequence e with
  | Some k, Some n => if bool_decide (k ∈ ORACLE_LIFECYCLE_EVENT_KINDS) then Some (n, k) else None
  | _, _ => None
  end.

Definition newer_event (best : option (Z * string)) (e : FeedEvent) : option (Z * string) :=
  match lifecycle_event e with
  | None => best
  | Some c => match best with None => Some c | Some b => if fst b <? fst c then Some c else best end
  end.

Definition latestLifecycleEventKind (events : list FeedEvent) : option string :=
  snd <$> foldl newer_event None events.

(** ** magicblock.ts *)

Record WritableAccount := mkWritable { wa_address : string; wa_domain : Domain; wa_writable : bool }.

Definition validateHotCluster (accounts : list WritableAccount) : result unit :=
  _ ← throw_if (match accounts with [] => true | _ => existsb (fun a => negb (wa_writable a) || bool_decide (wa_domain a ≠ ER)) accounts end)
        "delegated hot account cluster is incomplete";
  throw_if (negb (bool_decide (NoDup (wa_address <$> accounts)))) "duplicate delegated account".

Definition rejectMixedWritableDomains (accounts : list WritableAccount) : result unit :=
  throw_if (1 <? Z.of_nat (length (remove_dups (wa_domain <$> filter (fun a => wa_writable a = true) accounts))))
    "mixed delegated and L1 writable accounts".

Inductive TradingInstruction :=
  | ti_placeOrder | ti_replaceOrder | ti_cancelOrder | ti_cancelAll | ti_funding | ti_liquidation | ti_reduceOnlyClose
  | ti_oracleUpdate | ti_deposit | ti_withdraw.

Definition ER_WRITABLE_CLUSTERS (i : TradingInstruction) : list string :=
  match i with
  | ti_placeOrder | ti_replaceOrder | ti_reduceOnlyClose => ["market"; "settlementScratch"; "tradingSession"]
  | ti_cancelOrder | ti_cancelAll => ["market"; "tradingSession"]
  | ti_funding | ti_liquidation => ["market"]
  | ti_oracleUpdate | ti_deposit | ti_withdraw => []
  end.

Definition instruction_text (i : TradingInstruction) : string :=
  match i with
  | ti_placeOrder => "placeOrder" | ti_replaceOrder => "replaceOrder" | ti_cancelOrder => "cancelOrder" | ti_cancelAll => "cancelAll"
  | ti_funding => "funding" | ti_liquidation => "liquidation" | ti_reduceOnlyClose => "reduceOnlyClose"
  | ti_oracleUpdate => "oracleUpdate" | ti_deposit => "deposit" | ti_withdraw => "withdraw"
  end.

(** The first loop: the addresses of the roles this instruction uses. *)
Fixpoint collect_delegated (i : TradingInstruction) (cluster : list (string * list string)) (acc : list string) : result (list string) :=
  match cluster with
  | [] => Ok acc
  | (role, addresses) :: rest =>
      if bool_decide (role ∈ ER_WRITABLE_CLUSTERS i) then
        let fix add l acc :=
          match l with
          | [] => Ok acc
          | address :: l => if bool_decide (address ∈ acc) then Throw "duplicate delegated account" else add l (acc ++ [address])
          end in
        acc ← add addresses acc; collect_delegated i rest acc
      else collect_delegated i rest acc
  end.

(** The second loop: the writable accounts of the transaction. *)
Fixpoint collect_writable (i : TradingInstruction) (delegated : list string) (accounts : list WritableAccount) (seen : list string)
    : result (list string) :=
  match accounts with
  | [] => Ok seen
  | a :: rest =>
      if negb (wa_writable a) then collect_writable i delegated rest seen
      else if bool_decide (wa_address a ∈ seen) then Throw "duplicate writable account"
      else if negb (bool_decide (wa_address a ∈ delegated))
      then Throw ("writable account " +:+ wa_address a +:+ " is outside the delegated ER domain for " +:+ instruction_text i)
      else collect_writable i delegated rest (seen ++ [wa_address a])
  end.

Definition validateTransactionAccountDomain (i : TradingInstruction) (accounts : list WritableAccount)
    (cluster : list (string * list string)) : result unit :=
  delegated ← collect_delegated i cluster [];
  seen ← collect_writable i delegated accounts [];
  match List.find (fun a => negb (bool_decide (a ∈ seen))) delegated with
  | Some address =>
      Throw ("delegated account " +:+ address +:+ " is not writable in the " +:+ instruction_text i +:+ " transaction")
  | None => Ok tt
  end.

Definition encodeCommit (sequence : Z) (undelegate : bool) : list Z :=
  writeUnsigned (store_byte (store_byte (replicate 10 0) 0 (if undelegate then 2 else 1)) 1 0) 2 sequence 8.

Definition UNDELEGATE_CALLBACK : list Z := [196; 28; 41; 206; 48; 37; 51; 167].
Definition validateCallback (data : list Z) : bool := (8 <=? blen data) && bool_decide (take 8 data = UNDELEGATE_CALLBACK).

(** ** session-relay-status.ts *)

Inductive SessionBlockReason :=
  | authentication_required | session_invalid | session_expired | session_revoked | relayer_unconfigured | relayer_unavailable
  | fee_payer_unavailable | transaction_rejected | execution_status_unavailable | er_transition_blocked.

Definition REASON_LABEL (r : SessionBlockReason) : string :=
  match r with
  | authentication_required => "Authentication required" | session_invalid => "Session invalid"
  | session_expired => "Session expired" | session_revoked => "Session revoked"
  | relayer_unconfigured => "Relayer configuration missing" | relayer_unavailable => "Relayer unavailable"
  | fee_payer_unavailable => "Fee payer unavailable" | transaction_rejected => "Transaction rejected"
  | execution_status_unavailable => "MagicBlock execution status unavailable"
  | er_transition_blocked => "Market is mid-transition between L1 and the ER"
  end.

Record SessionActionResult := mkActionResult {
  ar_reason : option SessionBlockReason; ar_message : string; ar_detail : option string; ar_signature : option string }.

Definition blocked (reason : SessionBlockReason) (detail : option string) : SessionActionResult :=
  mkActionResult (Some reason) (REASON_LABEL reason) detail None.
Definition ok (message : string) (signature : option string) : SessionActionResult := mkActionResult None message None signature.

(** The body of the answer, [None] when it is [null]. *)
Record RelayBody := mkRelayBody { rb_signature : option string; rb_error : option string; rb_detail : option string }.

(** [s.slice(0, 8)] and [s.slice(-8)] *)
Definition first8 (s : string) : string := String.substring 0 8 s.
Definition last8 (s : string) : string := String.substring (String.length s - 8) 8 s.

Definition orElse {A} (a b : option A) : option A := match a with Some _ => a | None => b end.

Definition classifyRelayResponse (status : Z) (body : option RelayBody) : SessionActionResult :=
  if status =? 0 then blocked relayer_unavailable (Some "Network error reaching the relayer proxy")
  else
    let error := body ≫= rb_error in
    let detail := orElse (body ≫= rb_detail) error in
    if (status =? 401) || (status =? 403) then blocked authentication_required detail
    else if bool_decide (error = Some "relayer_unconfigured") then blocked relayer_unconfigured detail
    else if bool_decide (error = Some "relayer_signer_unconfigured") then blocked fee_payer_unavailable detail
    else if status =? 429 then blocked relayer_unavailable (orElse detail (Some "rate_limited"))
    else if 500 <=? status then blocked relayer_unavailable detail
    else if 400 <=? status then blocked transaction_rejected (orElse detail (Some "rejected"))
    else match body ≫= rb_signature with
         | Some s => if bool_decide (s = "") then blocked transaction_rejected (Some "relayer_response_invalid")
                     else ok ("Relayed — signature " +:+ first8 s +:+ "…" +:+ last8 s) (Some s)
         | None => blocked transaction_rejected (Some "relayer_response_invalid")
         end.

(** ** positions.ts *)

Inductive LiquidationStateLabel := liq_healthy | liq_warning | liq_liquidatable | liq_bankrupt | liq_unknown.

Definition liquidationLabel (raw : Z) : LiquidationStateLabel :=
  if raw =? 0 then liq_healthy else if raw =? 1 then liq_warning else if raw =? 2 then liq_liquidatable
  else if raw =? 3 then liq_bankrupt else liq_unknown.

(** The browser's view of a seat: that of the worker, with the liquidation state
    as a label. *)
Record TraderSeatView := mkSeatDisplay { sd_projection : TraderSeatProjection; sd_liquidationState : LiquidationStateLabel }.

Definition decodeTraderSeat (marketBytes : list Z) (traderSeatOffset seatIndex : Z) : result (option TraderSeatView) :=
  if (seatIndex <? 0) || (128 <=? seatIndex) then Ok None
  else
    let start := traderSeatOffset + seatIndex * 256 in
    if blen marketBytes <? start + 256 then Ok None
    else if negb (byte_is marketBytes (start + 0) 1) then Ok None
    else
      availableCollateral ← readI128 marketBytes (start + 40);
      reservedMargin ← readI128 marketBytes (start + 56);
      basePosition ← readI128 marketBytes (start + 72);
      quoteEntryValue ← readI128 marketBytes (start + 88);
      realizedPnl ← readI128 marketBytes (start + 104);
      lastFundingAccumulator ← readI128 marketBytes (start + 120);
      openBidExposure ← readI128 marketBytes (start + 136);
      openAskExposure ← readI128 marketBytes (start + 152);
      openOrderCount ← getUint32 marketBytes (start + 168);
      sequence ← getBigUint64 marketBytes (start + 176);
      let liquidation := byte_or_0 marketBytes (start + 172) in
      Ok (Some (mkSeatDisplay
        {| tp_seatIndex := seatIndex; tp_owner := base58Encode (slice marketBytes (start + 1) (start + 1 + 32));
           tp_availableCollateral := availableCollateral; tp_reservedMargin := reservedMargin;
           tp_basePosition := basePosition; tp_quoteEntryValue := quoteEntryValue; tp_realizedPnl := realizedPnl;
           tp_lastFundingAccumulator := lastFundingAccumulator; tp_openBidExposure := openBidExposure;
           tp_openAskExposure := openAskExposure; tp_openOrderCount := openOrderCount;
           tp_liquidationState := liquidation; tp_sequence := sequence |}
        (liquidationLabel liquidation))).

(** ** Sequence tracking *)

Definition track (state : SequenceTrackerState) (events : list SequencedEvent) : SequenceTrackerState :=
  foldl (fun s e => ad_state (advanceSequence s e)) state events.

(** What the tracker counts for a domain: one per accepted event, and the events
    it reports as missed. *)
Fixpoint accounted (d : Domain) (state : SequenceTrackerState) (events : list SequencedEvent) : Z :=
  match events with
  | [] => 0
  | e :: rest =>
      let r := advanceSequence state e in
      (if bool_decide (sq_domain e = d) then match ad_outcome r with seq_duplicate => 0 | _ => 1 + ad_missed r end else 0)
      + accounted d (ad_state r) rest
  end.

Definition regresses (state : SequenceTrackerState) (e : SequencedEvent) : bool :=
  match ad_outcome (advanceSequence state e) with seq_slot_regression => true | _ => false end.

Fixpoint no_regression (d : Domain) (state : SequenceTrackerState) (events : list SequencedEvent) : bool :=
  match events with
  | [] => true
  | e :: rest =>
      negb (bool_decide (sq_domain e = d) && regresses state e) && no_regression d (ad_state (advanceSequence state e)) rest
  end.

Lemma cursor_of_with d c t : cursor_of d (with_cursor d c t) = Some c.
Proof. by destruct d. Qed.
Lemma cursor_of_with_ne d d' c t : d ≠ d' -> cursor_of d (with_cursor d' c t) = cursor_of d t.
Proof. by destruct d, d'. Qed.

(** One event, seen from one domain. *)
Lemma advance_cursor d state e c :
  cursor_of d state = Some c ->
  exists c', cursor_of d (ad_state (advanceSequence state e)) = Some c'
  /\ dc_sequence c <= dc_sequence c' /\ dc_slot c <= dc_slot c'
  /\ (sq_domain e ≠ d -> c' = c)
  /\ (sq_domain e = d -> regresses state e = false ->
      dc_sequence c' = dc_sequence c + match ad_outcome (advanceSequence state e) with
                                       | seq_duplicate => 0 | _ => 1 + ad_missed (advanceSequence state e) end).
Proof.
  intros Hc. unfold regresses, advanceSequence. destruct (decide (sq_domain e = d)) as [->|Hne].
  - rewrite Hc. destruct (sq_sequence e <=? dc_sequence c) eqn:E1; zbool; cbn; [exists c; split_and!; (done || lia)|].
    destruct (match sq_slot e with Some s => s <? dc_slot c | None => false end) eqn:E2; cbn; rewrite ?cursor_of_with.
    { eexists. split; [done|]. split_and!; cbn; (done || lia). }
    assert (dc_slot c <= default (dc_slot c) (sq_slot e)) by (destruct (sq_slot e); cbn in *; zbool; lia).
    destruct (dc_sequence c + 1 <? sq_sequence e) eqn:E3; zbool; cbn; rewrite cursor_of_with;
      (eexists; split; [done|]; split_and!; cbn; (done || lia)).
  - exists c. repeat case_match; cbn; rewrite ?cursor_of_with_ne by done; split_and!; (done || lia).
Qed.

Lemma advance_none d state e :
  cursor_of d state = None -> sq_domain e ≠ d -> cursor_of d (ad_state (advanceSequence state e)) = None.
Proof.
  intros Hc Hne. unfold advanceSequence. repeat case_match; cbn; rewrite ?cursor_of_with_ne by done; done.
Qed.

(** The client's sequence tracker accounts for every event.  Whatever arrives,
    in whatever order and interleaving of the two domains, a domain's cursor
    never moves back, neither in sequence nor in slot; and unless a slot
    regression was reported, it has advanced by exactly the number of events
    accepted plus the number reported missed: no event is lost without a
    report, and a duplicate counts for nothing. *)
Theorem tracker_accounts_for_every_event d state events c :
  cursor_of d state = Some c ->
  exists c', cursor_of d (track state events) = Some c' /\ dc_sequence c <= dc_sequence c' /\ dc_slot c <= dc_slot c'
  /\ (no_regression d state events = true -> dc_sequence c' = dc_sequence c + accounted d state events).
Proof.
  revert state c. induction events as [|e events IH]; intros state c Hc; cbn.
  { exists c. split_and!; (done || lia). }
  destruct (advance_cursor d state e c Hc) as (c1 & H1 & Hs1 & Hl1 & Hne & Heq).
  destruct (IH _ _ H1) as (c2 & H2 & Hs2 & Hl2 & Hacc). exists c2. split_and!; [done|lia|lia|].
  intros Hr. zbool. specialize (Hacc ltac:(done)). destruct (decide (sq_domain e = d)) as [Hd|Hd].
  - rewrite bool_decide_true in * by done. cbn in *. rewrite (Heq Hd ltac:(done)) in Hacc. lia.
  - rewrite bool_decide_false in * by done. rewrite (Hne Hd) in Hacc. lia.
Qed.

Lemma tracker_accounts_for_every_event_witness : exists c',
  cursor_of L1 (track (mkTracker (Some (mkCursor 5 100)) None)
    [mkSequenced L1 6 (Some 101); mkSequenced ER 1 None; mkSequenced L1 9 None; mkSequenced L1 7 None]) = Some c'
  /\ dc_sequence c' = 9.
Proof.
  destruct (tracker_accounts_for_every_event L1 (mkTracker (Some (mkCursor 5 100)) None)
    [mkSequenced L1 6 (Some 101); mkSequenced ER 1 None; mkSequenced L1 9 None; mkSequenced L1 7 None] (mkCursor 5 100) eq_refl)
    as (c' & H1 & _ & _ & H2).
  exists c'. split; [exact H1|]. rewrite (H2 eq_refl). reflexivity.
Defined.

(** A domain's cursor after seeding: the highest of what is held and what the
    snapshot carries. *)
Definition snapshot_sequences (d : Domain) (events : list SequencedEvent) : list Z :=
  sq_sequence <$> filter (fun e => sq_domain e = d) events.

Lemma highest_of_spec d events :
  match highest_of d events with
  | None => snapshot_sequences d events = []
  | Some h => dc_sequence h ∈ snapshot_sequences d events /\ Forall (fun n => n <= dc_sequence h) (snapshot_sequences d events)
  end.
Proof.
  unfold highest_of, snapshot_sequences. generalize (filter (fun e => sq_domain e = d) events) as l. intros l.
  induction l as [|e l IH] using rev_ind; [done|]. rewrite foldl_app, fmap_app. cbn.
  destruct (foldl _ None l) as [b|].
  - destruct IH as [Hin Hall]. destruct (dc_sequence b <? sq_sequence e) eqn:E; zbool; cbn.
    + split; [set_solver|]. apply Forall_app. split; [eapply Forall_impl; [|exact Hall]; cbn; lia|by constructor].
    + split; [set_solver|]. apply Forall_app. split; [done|constructor; [lia|constructor]].
  - rewrite IH. cbn. split; [set_solver|]. by constructor.
Qed.

(** Seeding from a snapshot.  For each domain the cursor becomes the highest
    sequence number of the snapshot's events, or stays where it is when it is
    already as high; it never moves back, the other domain's events have no
    influence, and seeding twice is seeding once. *)
Theorem seed_takes_the_maximum state events d :
  let n := snapshot_sequences d events in
  match cursor_of d (seedFromSnapshot state events) with
  | None => cursor_of d state = None /\ n = []
  | Some c => Forall (fun m => m <= dc_sequence c) n
      /\ (cursor_of d state = Some c
          \/ (dc_sequence c ∈ n /\ forall c0, cursor_of d state = Some c0 -> dc_sequence c0 < dc_sequence c))
  end
  /\ seedFromSnapshot (seedFromSnapshot state events) events = seedFromSnapshot state events.
Proof.
  assert (forall s d', cursor_of d' (seed_domain events s d') =
    match highest_of d' events, cursor_of d' s with
    | None, c => c
    | Some h, None => Some h
    | Some h, Some c => if dc_sequence c <? dc_sequence h then Some h else Some c
    end) as Hsame.
  { intros s d'. unfold seed_domain. repeat case_match; rewrite ?cursor_of_with; congruence. }
  assert (forall s d' d'', d' ≠ d'' -> cursor_of d' (seed_domain events s d'') = cursor_of d' s) as Hother.
  { intros s d' d'' Hne. unfold seed_domain. repeat case_match; rewrite ?cursor_of_with_ne by done; done. }
  assert (forall s d', cursor_of d' (seedFromSnapshot s events) =
    match highest_of d' events, cursor_of d' s with
    | None, c => c
    | Some h, None => Some h
    | Some h, Some c => if dc_sequence c <? dc_sequence h then Some h else Some c
    end) as Hseed.
  { intros s d'. unfold seedFromSnapshot. cbn [foldl]. destruct d'.
    - rewrite Hother by done. apply Hsame.
    - rewrite Hsame. by rewrite Hother. }
  split.
  - cbv zeta. rewrite Hseed. pose proof (highest_of_spec d events) as Hh.
    destruct (highest_of d events) as [h|], (cursor_of d state) as [c|] eqn:Ec; cbn.
    + destruct Hh as [Hin Hall]. destruct (dc_sequence c <? dc_sequence h) eqn:E; zbool.
      * split; [done|]. right. split; [done|]. by intros c0 [= <-].
      * split; [eapply Forall_impl; [|exact Hall]; cbn; lia|by left].
    + destruct Hh as [Hin Hall]. split; [done|]. right. by split.
    + rewrite Hh. split; [constructor|by left].
    + done.
  - assert (forall a b, cursor_of L1 a = cursor_of L1 b -> cursor_of ER a = cursor_of ER b -> a = b) as Hext
      by (intros [] []; cbn; congruence).
    apply Hext; rewrite !Hseed; repeat (case_match; try done); zbool; simplify_eq; lia.
Qed.

(** ** The browser lifecycle *)

(** The L1 counter is one ahead of the rollup counter exactly while a deposit is
    waiting for its session. *)
Definition counters_agree (s : BrowserExecution) : Prop :=
  match bx_phase s with
  | ph_funded_l1 | ph_session_pending => bx_l1Sequence s = bx_erSequence s + 1
  | ph_error => bx_erSequence s <= bx_l1Sequence s <= bx_erSequence s + 1
  | _ => bx_l1Sequence s = bx_erSequence s
  end
  /\ (is_Some (bx_error s) <-> bx_phase s = ph_error)
  /\ match bx_phase s with
     | ph_delegated | ph_commit_pending | ph_undelegating => is_Some (bx_sessionExpiresAt s)
     | ph_error => True
     | _ => bx_sessionExpiresAt s = None
     end.

Inductive lifecycle_reachable : BrowserExecution -> Prop :=
  | lifecycle_start : lifecycle_reachable initialExecutionState
  | lifecycle_step now s e : lifecycle_reachable s -> lifecycle_reachable (transition now s e).

(** The browser lifecycle is coherent.  In every reachable state the two
    sequence counters agree, except that L1 is one ahead between a confirmed
    deposit and its delegation; an error text is shown exactly in the error
    phase; a session expiry is known exactly while a session is held; only
    [RESET] leaves the error phase; and no event but [RESET] moves either
    counter back. *)
Theorem lifecycle_coherent s now e :
  lifecycle_reachable s ->
  counters_agree s
  /\ (bx_phase s = ph_error -> e ≠ RESET -> bx_phase (transition now s e) = ph_error)
  /\ (e ≠ RESET -> bx_l1Sequence s <= bx_l1Sequence (transition now s e) /\ bx_erSequence s <= bx_erSequence (transition now s e)).
Proof.
  intros Hr. assert (counters_agree s) as Hi.
  { induction Hr as [|now' s e' _ [H1 [H2 H3]]]; [split; [done|]; split; [|done]; split; [by intros []|done]|].
    destruct s as [p l r x er]. unfold counters_agree in *. cbn in *.
    destruct e', p; cbn in *; split_and!; try done; try lia; try naive_solver. }
  split; [done|]. destruct Hi as [H1 [H2 H3]]. destruct s as [p l r x er]. cbn in *. split.
  - intros -> He. by destruct e.
  - intros He. destruct e, p; cbn in *; (done || lia).
Qed.

(** ** Account domains *)

Fixpoint add_delegated (l acc : list string) : result (list string) :=
  match l with
  | [] => Ok acc
  | address :: l => if bool_decide (address ∈ acc) then Throw "duplicate delegated account" else add_delegated l (acc ++ [address])
  end.

Lemma collect_delegated_cons i role addresses rest acc :
  collect_delegated i ((role, addresses) :: rest) acc =
  (if bool_decide (role ∈ ER_WRITABLE_CLUSTERS i) then acc ← add_delegated addresses acc; collect_delegated i rest acc
   else collect_delegated i rest acc).
Proof. cbn [collect_delegated]. by case_bool_decide. Qed.

(** The addresses of the roles an instruction uses, and the addresses it writes. *)
Definition delegated_addresses (i : TradingInstruction) (cluster : list (string * list string)) : list string :=
  concat (snd <$> filter (fun e => fst e ∈ ER_WRITABLE_CLUSTERS i) cluster).
Definition writable_addresses (accounts : list WritableAccount) : list string :=
  wa_address <$> filter (fun a => wa_writable a = true) accounts.

(** Appending to a duplicate-free list, one element at a time. *)
Lemma NoDup_snoc_cons {A} (acc : list A) a l : NoDup (acc ++ a :: l) <-> (a ∉ acc) /\ NoDup ((acc ++ [a]) ++ l).
Proof.
  rewrite <- app_assoc. cbn. split; [|by intros [_ H]]. intros H. split; [|done].
  apply list.NoDup_app in H as (_ & H & _). intros Ha. apply (H a Ha). left.
Qed.

Lemma add_delegated_Ok l acc acc' :
  NoDup acc -> add_delegated l acc = Ok acc' <-> acc' = acc ++ l /\ NoDup (acc ++ l).
Proof.
  revert acc. induction l as [|a l IH]; intros acc Hd; cbn.
  - rewrite app_nil_r. naive_solver.
  - case_bool_decide as Ha.
    + split; [done|]. intros [_ [H _]%NoDup_snoc_cons]. by destruct H.
    + rewrite IH by (apply list.NoDup_app; split_and!; [done|set_solver|apply NoDup_singleton]).
      rewrite NoDup_snoc_cons, <- app_assoc. cbn. naive_solver.
Qed.

Lemma collect_delegated_Ok i cluster acc acc' :
  NoDup acc ->
  collect_delegated i cluster acc = Ok acc'
  <-> acc' = acc ++ delegated_addresses i cluster /\ NoDup (acc ++ delegated_addresses i cluster).
Proof.
  revert acc. induction cluster as [|[role l] cluster IH]; intros acc Hd.
  - cbn. rewrite app_nil_r. naive_solver.
  - rewrite collect_delegated_cons. unfold delegated_addresses. rewrite list.filter_cons. cbn [fst].
    destruct (decide (role ∈ ER_WRITABLE_CLUSTERS i)) as [Hin|Hout].
    + rewrite bool_decide_true by done. cbn [fmap list_fmap concat snd]. fold (delegated_addresses i cluster).
      rewrite result_bind_Ok, app_assoc. split.
      * intros (acc1 & [-> Hn]%add_delegated_Ok & H); [|done]. by apply IH in H.
      * intros [-> Hn]. exists (acc ++ l). assert (NoDup (acc ++ l)) as Hn1 by (by apply list.NoDup_app in Hn as (? & _ & _)).
        rewrite add_delegated_Ok, IH by done. naive_solver.
    + rewrite bool_decide_false by done. by apply IH.
Qed.

Lemma collect_writable_Ok i delegated accounts seen seen' :
  NoDup seen ->
  collect_writable i delegated accounts seen = Ok seen'
  <-> seen' = seen ++ writable_addresses accounts /\ NoDup (seen ++ writable_addresses accounts)
      /\ (forall a, a ∈ writable_addresses accounts -> a ∈ delegated).
Proof.
  revert seen. induction accounts as [|a accounts IH]; intros seen Hd.
  - cbn. rewrite app_nil_r. set_solver.
  - assert (writable_addresses (a :: accounts) =
      if wa_writable a then wa_address a :: writable_addresses accounts else writable_addresses accounts) as ->
      by (unfold writable_addresses; rewrite list.filter_cons; by destruct (wa_writable a)).
    cbn [collect_writable]. destruct (wa_writable a) eqn:Ew; cbn [negb]; [|by apply IH]. case_bool_decide as Hs.
    { split; [done|]. intros (_ & [H _]%NoDup_snoc_cons & _). by destruct H. }
    case_bool_decide as Hdel; cbn.
    + rewrite IH by (apply list.NoDup_app; split_and!; [done|set_solver|apply NoDup_singleton]).
      rewrite NoDup_snoc_cons, <- app_assoc. cbn. set_solver.
    + split; [done|]. intros (_ & _ & H). destruct Hdel. apply H. left.
Qed.

(** The writable accounts of a rollup transaction.  The check passes exactly
    when the addresses the transaction writes are, without a duplicate and up to
    order, the delegated addresses of the roles the instruction uses: nothing
    outside the delegated cluster is written, and no delegated account is left
    out. *)
Theorem account_domain_spec i accounts cluster :
  validateTransactionAccountDomain i accounts cluster = Ok tt
  <-> NoDup (delegated_addresses i cluster) /\ NoDup (writable_addresses accounts)
      /\ writable_addresses accounts ≡ₚ delegated_addresses i cluster.
Proof.
  unfold validateTransactionAccountDomain. rewrite result_bind_Ok. split.
  - intros (delegated & [-> Hd]%collect_delegated_Ok & H); [|constructor]. cbn in *.
    apply result_bind_Ok in H as (seen & [-> [Hw Hin]]%collect_writable_Ok & H); [|constructor]. cbn in *.
    split_and!; [done|done|]. apply NoDup_Permutation; [done|done|]. intros x. split; [apply Hin|]. intros Hx.
    destruct (List.find _ _) as [y|] eqn:Ef; [done|]. eapply List.find_none in Ef; [|by apply list_elem_of_In].
    apply negb_false_iff, bool_decide_eq_true in Ef. exact Ef.
  - intros (Hd & Hw & Hp). exists (delegated_addresses i cluster). split; [by apply collect_delegated_Ok; [constructor|]|].
    apply result_bind_Ok. exists (writable_addresses accounts). split.
    + apply collect_writable_Ok; [constructor|]. split_and!; [done|done|]. intros a Ha. by rewrite <- Hp.
    + destruct (List.find _ _) as [y|] eqn:Ef; [|done]. apply List.find_some in Ef as [Hy%list_elem_of_In Hn].
      rewrite <- Hp in Hy. apply negb_true_iff, bool_decide_eq_false in Hn. done.
Qed.

(** ** Oracle safety and relay answers *)

(** The label shown is fresh exactly when no override event is the latest, the
    account was read, its oracle flag is set and its price is recent enough. *)
Theorem safety_fresh_iff i :
  deriveOracleSafety i = safety_fresh <->
  (si_latestLifecycleEventKind i ≫= (fun k => assoc k HARD_OVERRIDE)) = None /\ si_oracleValid i = Some true
  /\ exists t, si_lastVerifiedOracleTimestamp i = Some t
     /\ si_nowUnixSeconds i - to_number t <= default DEFAULT_STALENESS_THRESHOLD_SECONDS (si_stalenessThresholdSeconds i).
Proof.
  unfold deriveOracleSafety. destruct (si_latestLifecycleEventKind i ≫= _) as [s|] eqn:Eo.
  { split; [|by intros [? _]]. intros ->. destruct (si_latestLifecycleEventKind i) as [k|]; [|done]. cbn in Eo.
    by repeat (case_bool_decide; [done|]). }
  destruct (si_oracleValid i) as [[]|], (si_lastVerifiedOracleTimestamp i) as [t|]; split; try naive_solver.
  - destruct (_ <=? _) eqn:E; [|done]. zbool. intros _. split_and!; [done|done|]. by exists t.
  - intros (_ & _ & t' & [= <-] & H). by rewrite (proj2 (Z.leb_le _ _)).
Qed.

Definition lifecycle_sequences (events : list FeedEvent) : list (Z * string) := omap lifecycle_event events.

(** The latest lifecycle event is one with the highest sequence number. *)
Theorem latest_lifecycle_event_spec events :
  match latestLifecycleEventKind events with
  | None => lifecycle_sequences events = []
  | Some k => exists n, (n, k) ∈ lifecycle_sequences events /\ forall n' k', (n', k') ∈ lifecycle_sequences events -> n' <= n
  end.
Proof.
  unfold latestLifecycleEventKind, lifecycle_sequences.
  assert (match foldl newer_event None events with
          | None => omap lifecycle_event events = []
          | Some c => c ∈ omap lifecycle_event events /\ forall c', c' ∈ omap lifecycle_event events -> fst c' <= fst c
          end) as H.
  { induction events as [|e events IH] using rev_ind; [done|]. rewrite foldl_app, omap_app. cbn. unfold newer_event at 1.
    destruct (lifecycle_event e) as [c|]; cbn; [|by rewrite app_nil_r].
    destruct (foldl newer_event None events) as [b|].
    - destruct IH as [Hin Hall]. destruct (b.1 <? c.1) eqn:E; zbool.
      + split; [set_solver|]. intros c' [Hc'|Hc']%elem_of_app; [specialize (Hall _ Hc'); lia|]. apply list_elem_of_singleton in Hc' as ->. lia.
      + split; [set_solver|]. intros c' [Hc'|Hc']%elem_of_app; [by apply Hall|]. apply list_elem_of_singleton in Hc' as ->. lia.
    - rewrite IH. cbn. split; [set_solver|]. intros c' Hc'. apply list_elem_of_singleton in Hc' as ->. lia. }
  destruct (foldl newer_event None events) as [[n k]|]; cbn; [|done]. exists n. destruct H as [Hin Hall]. split; [done|].
  intros n' k' Hc'. exact (Hall _ Hc').
Qed.

(** The browser reports a relayed order only on evidence.  The answer counts
    as relayed exactly when the proxy replied with a status below 400 that is
    not a network failure, named neither of the two configuration errors, and
    carried a non-empty signature, which is the one reported; a blocked answer
    always shows the label of its reason; and an unauthorised status is reported
    as such whatever the body says. *)
Theorem relay_report_spec status body :
  let r := classifyRelayResponse status body in
  (ar_reason r = None <->
     status ≠ 0 /\ status < 400 /\ (body ≫= rb_error) ≠ Some "relayer_unconfigured"
     /\ (body ≫= rb_error) ≠ Some "relayer_signer_unconfigured" /\ exists s, (body ≫= rb_signature) = Some s /\ s ≠ "")
  /\ (ar_reason r = None -> ar_signature r = body ≫= rb_signature)
  /\ (forall reason, ar_reason r = Some reason -> ar_message r = REASON_LABEL reason /\ ar_signature r = None)
  /\ (status = 401 \/ status = 403 -> ar_reason r = Some authentication_required).
Proof.
  cbv zeta. unfold classifyRelayResponse. destruct (status =? 0) eqn:E0; zbool.
  { split_and!; [|done|by intros ? [= <-]|lia]. split; [done|]. by intros [? _]. }
  destruct ((status =? 401) || (status =? 403))%bool eqn:E1.
  { apply orb_true_iff in E1. rewrite !Z.eqb_eq in E1. split_and!; [|done|by intros ? [= <-]|done]. split; [done|]. intros. lia. }
  zbool. case_bool_decide as E2; [split_and!; [|done|by intros ? [= <-]|lia]; split; [done|]; by intros (_ & _ & [] & _)|].
  case_bool_decide as E3; [split_and!; [|done|by intros ? [= <-]|lia]; split; [done|]; by intros (_ & _ & _ & [] & _)|].
  destruct (status =? 429) eqn:E4; zbool; [split_and!; [|done|by intros ? [= <-]|lia]; split; [done|]; intros; lia|].
  destruct (500 <=? status) eqn:E5; zbool; [split_and!; [|done|by intros ? [= <-]|lia]; split; [done|]; intros; lia|].
  destruct (400 <=? status) eqn:E6; zbool; [split_and!; [|done|by intros ? [= <-]|lia]; split; [done|]; intros; lia|].
  destruct (body ≫= rb_signature) as [s|] eqn:Es.
  - case_bool_decide as Ee; [split_and!; [|done|by intros ? [= <-]|lia]; split; [done|]; intros (_ & _ & _ & _ & s' & [= <-] & Hs); done|].
    split_and!; [|done|done|lia]. split; [|done]. intros _. split_and!; try done. by exists s.
  - split_and!; [|done|by intros ? [= <-]|lia]. split; [done|]. by intros (_ & _ & _ & _ & s' & [=] & _).
Qed.

(** A projection as the browser shows it. *)
Definition seat_display (p : option TraderSeatProjection) : option TraderSeatView :=
  option_map (fun p => mkSeatDisplay p (liquidationLabel (tp_liquidationState p))) p.

(** Two decoders of a seat.  On a market account the browser's seat view is the
    worker's private projection with the liquidation state as a label: both
    refuse the same indices, lengths and empty seats, and all the numbers and
    the owner are the same. *)
Theorem seat_decoders_agree base58 marketBytes seatIndex :
  blen marketBytes ≠ 8236 ->
  decodeTraderSeat marketBytes TRADER_SEAT_OFFSET seatIndex
  = seat_display <$> decodeTraderSeatProjection base58 marketBytes seatIndex.
Proof.
  intros Hlen. unfold decodeTraderSeat, decodeTraderSeatProjection, MAX_TRADER_SEATS, TRADER_SEAT_SIZE.
  destruct (_ || _)%bool; [done|]. rewrite (proj2 (Z.eqb_neq _ _) Hlen). destruct (_ <? _); [done|]. rewrite Z.add_0_r.
  destruct (negb _); [done|]. unfold decode_v2_seat. set (start := TRADER_SEAT_OFFSET + seatIndex * 256).
  replace (start + 1 + 32) with (start + 33) by lia.
  repeat match goal with |- context [readI128 ?b ?o] => destruct (readI128 b o); cbn [mbind result_bind fmap result_fmap]; [|done] end.
  destruct (getUint32 _ _); cbn [mbind result_bind]; [|done]. by destruct (getBigUint64 _ _).
Qed.

Lemma seat_decoders_agree_witness :
  decodeTraderSeat [] TRADER_SEAT_OFFSET 3
  = seat_display <$> decodeTraderSeatProjection (fun _ => "key") [] 3.
Proof. apply (seat_decoders_agree (fun _ => "key") [] 3). discriminate. Defined.

Lemma lifecycle_coherent_witness :
  counters_agree (transition 5 (transition 5 initialExecutionState REQUEST_DEPOSIT) CONFIRM_DEPOSIT).
Proof.
  apply (lifecycle_coherent (transition 5 (transition 5 initialExecutionState REQUEST_DEPOSIT) CONFIRM_DEPOSIT) 0 RESET).
  repeat constructor.
Defined.
