(* ===== verification/BrowserRpc.v ===== *)
(** * The browser's RPC transport

    lib/rpc-transport.ts.  A request is a sequence of HTTP exchanges and pauses; they are recorded in a
    trace, and what each exchange answers is a function of the trace, so the
    theorems hold for every behaviour of the network.  Key validation, Base64
    and the account decoders are parameters or those of the other files. *)

From S2P Require Import Prelude Json Bytes V3Market ChainTransports.

(** ** Errors *)

(** [RpcFailure] carries a number (an HTTP status) or a string. *)
Inductive FailureCode := code_status (n : Z) | code_text (s : string).
Inductive RpcError := RpcFailure (method : string) (code : FailureCode) | JsError (message : string).

#[export] Instance failure_code_eq_dec : EqDecision FailureCode.
Proof. solve_decision. Defined.
#[export] Instance rpc_error_eq_dec : EqDecision RpcError.
Proof. solve_decision. Defined.

Inductive NetCall := post (id : Z) (method : string) (params : list json) | wait (ms : Z).

Record RpcState := mkRpcState { rs_id : Z; rs_trace : list NetCall }.

(** A computation of the transport. *)
Definition rpc (A : Type) : Type := RpcState -> RpcState * (A + RpcError).

Definition rpc_ret {A} (a : A) : rpc A := fun s => (s, inl a).
Definition rpc_throw {A} (e : RpcError) : rpc A := fun s => (s, inr e).
Definition rpc_bind {A B} (m : rpc A) (f : A -> rpc B) : rpc B :=
  fun s => let '(s', r) := m s in match r with inl a => f a s' | inr e => (s', inr e) end.
(** [m.catch(h)] *)
Definition rpc_catch {A} (m : rpc A) (h : RpcError -> rpc A) : rpc A :=
  fun s => let '(s', r) := m s in match r with inl a => (s', inl a) | inr e => h e s' end.

Declare Scope rpc_scope.
Delimit Scope rpc_scope with rpc.
Notation "x <- m ; k" := (rpc_bind m (fun x => k)) (at level 100, m at next level, right associativity) : rpc_scope.
#[local] Open Scope rpc_scope.

Definition fail {A} (method code : string) : rpc A := rpc_throw (RpcFailure method (code_text code)).

(** [object(value)], [count(value)] *)
Definition object (v : option json) : rpc json :=
  match v with Some (JObj f) => rpc_ret (JObj f) | _ => rpc_throw (JsError "Invalid RPC object") end.
Definition count (v : option json) : rpc Z :=
  match v with
  | Some (JNum n) => if isSafeInteger n && (0 <=? n) then rpc_ret n else rpc_throw (JsError "Invalid RPC integer")
  | _ => rpc_throw (JsError "Invalid RPC integer")
  end.

Section Transport.
(** The network, and [new PublicKey(value).toBase58()]. *)
Context (network : list NetCall -> NetCall -> result RpcResponse) (to_key : string -> option string).
(** [attempts], between 1 and 120. *)
Context (attempts : nat).

Definition key (v : option json) : rpc string :=
  match v with
  | Some (JStr s) => match to_key s with Some k => rpc_ret k | None => rpc_throw (JsError "Invalid public key input") end
  | _ => rpc_throw (JsError "Invalid public key")
  end.

Definition pause (ms : Z) : rpc unit := fun s => (mkRpcState (rs_id s) (rs_trace s ++ [wait ms]), inl tt).

Definition do_post (id : Z) (method : string) (params : list json) : rpc RpcResponse :=
  fun s => (mkRpcState (rs_id s) (rs_trace s ++ [post id method params]),
            match network (rs_trace s) (post id method params) with Ok r => inl r | Throw e => inr (JsError e) end).

(** The retries after a 429: [n] are left, [retry] were made. *)
Fixpoint retry_429 (n : nat) (retry : Z) (id : Z) (method : string) (params : list json) (response : RpcResponse) : rpc RpcResponse :=
  match n with
  | O => rpc_ret response
  | S n =>
      if rr_status response =? 429 then
        (_ <- pause (400 * 2 ^ retry); response <- do_post id method params; retry_429 n (retry + 1) id method params response)
      else rpc_ret response
  end.

Definition next_id : rpc Z := fun s => (mkRpcState (rs_id s + 1) (rs_trace s), inl (rs_id s + 1)).

Definition parse_envelope (id : Z) (method : string) (response : RpcResponse) : rpc json :=
  if negb (http_success (rr_status response)) then rpc_throw (RpcFailure method (code_status (rr_status response)))
  else
    body <- (match rr_json response with Ok b => rpc_ret b | Throw e => rpc_throw (JsError e) end);
    data <- object (Some body);
    if negb (match prop "id" data with Some (JNum n) => n =? id | _ => false end) || negb (is_str "2.0" (prop "jsonrpc" data))
    then fail method "invalid_envelope"
    else if truthy (prop "error" data) then
      (error <- object (prop "error" data);
       fail method (match prop "code" error with Some c => js_String c | None => "undefined" end))
    else match prop "result" data with
         | None => fail method "missing_result"
         | Some r => rpc_ret r
         end.

Definition request (method : string) (params : list json) : rpc json :=
  id <- next_id;
  first <- do_post id method params;
  response <- retry_429 4 0 id method params first;
  parse_envelope id method response.

(** ** Reads *)

Definition commitment (c : string) : json := JObj [("commitment", JStr c)].

Definition latestBlockhash : rpc (string * Z) :=
  r <- request "getLatestBlockhash" [commitment "confirmed"];
  o <- object (Some r); value <- object (prop "value" o);
  b <- key (prop "blockhash" value); h <- count (prop "lastValidBlockHeight" value); rpc_ret (b, h).

Definition currentSlot : rpc Z := r <- request "getSlot" [commitment "confirmed"]; count (Some r).

Definition solBalance (address : string) : rpc Z :=
  k <- key (Some (JStr address)); r <- request "getBalance" [JStr k; commitment "confirmed"];
  o <- object (Some r); count (prop "value" o).

Definition base64_options (extra : list (string * json)) : json := JObj (("encoding", JStr "base64") :: extra).

(** [simulate]: at most four repetitions for an account that is not there yet. *)
Fixpoint simulate_loop (n : nat) (encoded : string) : rpc Z :=
  r <- request "simulateTransaction" [JStr encoded; base64_options [("sigVerify", JBool false);
         ("replaceRecentBlockhash", JBool false); ("commitment", JStr "confirmed")]];
  o <- object (Some r); value <- object (prop "value" o);
  match n with
  | S n =>
      if is_str "AccountNotFound" (prop "err" value) then (_ <- pause 500; simulate_loop n encoded)
      else if negb (match prop "err" value with Some JNull => true | _ => false end)
      then fail "simulateTransaction" "simulation_rejected" else count (prop "unitsConsumed" value)
  | O =>
      if negb (match prop "err" value with Some JNull => true | _ => false end)
      then fail "simulateTransaction" "simulation_rejected" else count (prop "unitsConsumed" value)
  end.

Definition simulate (encoded : string) : rpc Z := simulate_loop 4 encoded.

(** [/^[1-9A-HJ-NP-Za-km-z]{64,88}$/] *)
Definition base58_char (c : Ascii.ascii) : bool :=
  range 49 57 c || range 65 72 c || range 74 78 c || range 80 90 c || range 97 107 c || range 109 122 c.
Definition is_signature (s : string) : bool :=
  (64 <=? String.length s)%nat && (String.length s <=? 88)%nat && forallb base58_char (String.list_ascii_of_string s).

Definition submit (encoded : string) : rpc string :=
  r <- request "sendTransaction" [JStr encoded; base64_options [("skipPreflight", JBool false); ("maxRetries", JNum 0);
         ("preflightCommitment", JStr "confirmed")]];
  match r with
  | JStr signature => if is_signature signature then rpc_ret signature else fail "sendTransaction" "invalid_signature"
  | _ => fail "sendTransaction" "invalid_signature"
  end.

Inductive Confirmation := is_confirmed | is_finalized.

(** [error instanceof RpcFailure && error.code === 429] *)
Definition rate_limited (e : RpcError) : bool := match e with RpcFailure _ (code_status n) => n =? 429 | _ => false end.

(** One status read: [None] means "ask again". *)
Definition read_status (signature : string) : rpc (option Confirmation) :=
  r <- rpc_catch (r <- request "getSignatureStatuses" [JArr [JStr signature]; JObj [("searchTransactionHistory", JBool true)]];
                  rpc_ret (Some r))
         (fun e => if rate_limited e then rpc_ret None else rpc_throw e);
  match r with
  | None | Some JNull => rpc_ret None
  | Some r =>
      o <- object (Some r);
      match prop "value" o with
      | Some (JArr [JNull]) => rpc_ret None
      | Some (JArr [v]) =>
          status <- object (Some v);
          if negb (match prop "err" status with Some JNull => true | _ => false end)
          then fail "getSignatureStatuses" "transaction_rejected"
          else if is_str "finalized" (prop "confirmationStatus" status) then rpc_ret (Some is_finalized)
          else if is_str "confirmed" (prop "confirmationStatus" status) then rpc_ret (Some is_confirmed)
          else rpc_ret None
      | _ => fail "getSignatureStatuses" "invalid_result"
      end
  end.

Fixpoint confirm_attempts (n : nat) (signature : string) : rpc Confirmation :=
  match n with
  | O => fail "getSignatureStatuses" "confirmation_timeout"
  | S n =>
      r <- read_status signature;
      match r with
      | Some c => rpc_ret c
      | None => _ <- (match n with O => rpc_ret tt | S _ => pause 500 end); confirm_attempts n signature
      end
  end.

(** [value?.[0]] *)
Definition first_of (v : option json) : option json :=
  match v with
  | Some (JArr (x :: _)) => Some x
  | Some (JStr (String c _)) => Some (JStr (String c EmptyString))
  | Some (JObj f) => prop "0" (JObj f)
  | _ => None
  end.

(** [pollProcessed]: one entry of [go] per test of the loop's condition, which is
    false once another watcher answered or the deadline has passed; the loop ends
    with the list at the latest. *)
Fixpoint pollProcessed (go : list bool) (signature : string) : rpc (option bool) :=
  match go with
  | true :: go =>
      result <- rpc_catch (r <- request "getSignatureStatuses" [JArr [JStr signature]]; rpc_ret (Some r)) (fun _ => rpc_ret None);
      status <- (if truthy result then (o <- object result; rpc_ret (first_of (prop "value" o))) else rpc_ret None);
      if truthy status then
        (o <- object status; rpc_ret (Some match prop "err" o with Some JNull => true | _ => false end))
      else (_ <- pause 15; pollProcessed go signature)
  | _ => rpc_ret None
  end.

Definition confirm (signature : string) : rpc Confirmation :=
  if negb (is_signature signature) then rpc_throw (JsError "Invalid signature") else confirm_attempts attempts signature.

(** ** Accounts *)

(** [Buffer.from(text, 'base64')], and the program id of the deployment. *)
Context (Buffer_base64 : string -> list Z) (EQUINOX_PROGRAM_ID : string).

Definition getAccountInfo (address c : string) : rpc json :=
  k <- key (Some (JStr address)); request "getAccountInfo" [JStr k; base64_options [("commitment", JStr c)]].

(** The bytes of an account record owned by the program, or a failure. *)
Definition program_data (record : json) (code : string) : rpc (list Z) :=
  match is_str EQUINOX_PROGRAM_ID (prop "owner" record), is_bool false (prop "executable" record), prop "data" record with
  | true, true, Some (JArr (JStr text :: enc :: _)) =>
      if is_str "base64" (Some enc) then rpc_ret (Buffer_base64 text) else fail "getAccountInfo" code
  | _, _, _ => fail "getAccountInfo" code
  end.

Definition accountBytes (address c : string) : rpc (list Z) :=
  r <- getAccountInfo address c; response <- object (Some r);
  match prop "value" response with
  | Some (JObj f) => program_data (JObj f) "invalid_program_owner_or_data"
  | _ => fail "getAccountInfo" "account_not_found"
  end.

Definition rawAccountBytes (address : string) : rpc (option (list Z)) :=
  r <- getAccountInfo address "confirmed"; response <- object (Some r);
  rpc_ret match prop "value" response with
          | Some (JObj f) =>
              match prop "data" (JObj f) with Some (JArr (JStr text :: _)) => Some (Buffer_base64 text) | _ => None end
          | _ => None
          end.

(** [market]: the initialised market with the three counters of its header;
    [decodeMarketState] is the client decoder, as [initialized] of its view. *)
Context (decodeMarketState : list Z -> result bool).

Record MarketRead := mkMarketRead { mr_bytes : list Z; mr_eventSequence : Z; mr_commitSequence : Z; mr_restoredSequence : Z }.

Definition lift_result {A} (r : result A) : rpc A := match r with Ok a => rpc_ret a | Throw e => rpc_throw (JsError e) end.

Definition market (address c : string) : rpc MarketRead :=
  r <- getAccountInfo address c; response <- object (Some r); value <- object (prop "value" response);
  bytes <- program_data value "invalid_market_owner_or_data";
  initialized <- lift_result (decodeMarketState bytes);
  if negb initialized then fail "getAccountInfo" "uninitialized_market"
  else
    event <- lift_result (getBigUint64 bytes 262);
    commit <- lift_result (getBigUint64 bytes 330);
    restored <- lift_result (getBigUint64 bytes 338);
    rpc_ret (mkMarketRead bytes event commit restored).

(** [tradingSession]; the decoder is that of the client library. *)
Definition tradingSession {V} (decodeTradingSession : list Z -> result (option V)) (address c : string) : rpc (option V) :=
  r <- getAccountInfo address c; response <- object (Some r);
  match prop "value" response with
  | Some JNull => rpc_ret None
  | v => value <- object v; bytes <- program_data value "invalid_session_owner_or_data"; lift_result (decodeTradingSession bytes)
  end.

Definition tokenBalance (tokenAccount c : string) : rpc Z :=
  k <- key (Some (JStr tokenAccount)); r <- request "getTokenAccountBalance" [JStr k; commitment c];
  o <- object (Some r); value <- object (prop "value" o);
  match prop "amount" value with
  | Some (JStr amount) => if digit_string amount then rpc_ret (decimal amount) else fail "getTokenAccountBalance" "invalid_amount"
  | _ => fail "getTokenAccountBalance" "invalid_amount"
  end.

Fixpoint commit_attempts (n : nat) (address : string) (expected : Z) : rpc Z :=
  match n with
  | O => fail "getAccountInfo" "commit_delayed"
  | S n =>
      state <- market address "finalized";
      if expected <=? mr_commitSequence state then rpc_ret (mr_commitSequence state)
      else _ <- (match n with O => rpc_ret tt | S _ => pause 1000 end); commit_attempts n address expected
  end.

Definition confirmCommit (address : string) (expected : Z) : rpc Z :=
  if expected <=? 0 then rpc_throw (JsError "Invalid commit sequence") else commit_attempts attempts address expected.
End Transport.

(** ** The router *)

(** [DirectRollup.validator]; the direct transport is another network. *)
Record RouterState := mkRouterState {
  ro_rpc : RpcState;                                  (** the router's own transport *)
  ro_direct : RpcState;                               (** the direct rollup's transport *)
  delegationCache : list (string * (string * Z));
  viaRollup : bool;
  ro_blockhash : option (string * Z) }.

Definition set_ro_rpc (v : RpcState) (s : RouterState) : RouterState :=
  mkRouterState v (ro_direct s) (delegationCache s) (viaRollup s) (ro_blockhash s).
Definition set_ro_direct (v : RpcState) (s : RouterState) : RouterState :=
  mkRouterState (ro_rpc s) v (delegationCache s) (viaRollup s) (ro_blockhash s).
Definition set_cache (v : list (string * (string * Z))) (s : RouterState) : RouterState :=
  mkRouterState (ro_rpc s) (ro_direct s) v (viaRollup s) (ro_blockhash s).
Definition set_viaRollup (v : bool) (s : RouterState) : RouterState :=
  mkRouterState (ro_rpc s) (ro_direct s) (delegationCache s) v (ro_blockhash s).
Definition set_ro_blockhash (v : option (string * Z)) (s : RouterState) : RouterState :=
  mkRouterState (ro_rpc s) (ro_direct s) (delegationCache s) (viaRollup s) v.

Section Router.
Context (network direct_network : list NetCall -> NetCall -> result RpcResponse) (to_key : string -> option string).
Context (marketAddress : string) (direct : option string).
(** [Date.now()], constant within one call. *)
Context (now : Z).

(** One account: its validator, from the cache while it is current, else from the
    router, which is then cached for ten minutes. *)
Definition ask_validator (account : string) : rpc string :=
  k <- key to_key (Some (JStr account));
  r <- request network "getDelegationStatus" [JStr k];
  status <- object (Some r);
  if negb (is_bool true (prop "isDelegated" status)) then rpc_throw (JsError "Mixed or undelegated writable account")
  else record <- object (prop "delegationRecord" status); key to_key (prop "authority" record).

Definition delegation_of (account : string) (s : RouterState) : RouterState * (string + RpcError) :=
  match match assoc account (delegationCache s) with
        | Some (validator, until) => if now <? until then Some validator else None
        | None => None end with
  | Some validator => (s, inl validator)
  | None =>
      let '(r, answer) := ask_validator account (ro_rpc s) in
      let s := set_ro_rpc r s in
      match answer with
      | inl validator => (set_cache ((account, (validator, now + 600000)) :: delegationCache s) s, inl validator)
      | inr e => (s, inr e)
      end
  end.

(** [Promise.all]: every account is asked; the first failure of the list is the
    failure of the whole. *)
Fixpoint delegations (accounts : list string) (s : RouterState) : RouterState * (list string + RpcError) :=
  match accounts with
  | [] => (s, inl [])
  | a :: rest =>
      let '(s, r) := delegation_of a s in
      let '(s, rs) := delegations rest s in
      (s, match r, rs with inl v, inl vs => inl (v :: vs) | inr e, _ => inr e | _, inr e => inr e end)
  end.

Definition valid_cluster (writableAccounts : list string) : bool :=
  (0 <? length writableAccounts)%nat && (length writableAccounts <=? 64)%nat && bool_decide (NoDup writableAccounts)
  && bool_decide (marketAddress ∈ writableAccounts).

Definition refreshBlockhash (s : RouterState) : RouterState * (string + RpcError) :=
  let '(d, r) := latestBlockhash direct_network to_key (ro_direct s) in
  let s := set_ro_direct d s in
  match r with
  | inl (blockhash, _) => (set_ro_blockhash (Some (blockhash, now + 2000)) s, inl blockhash)
  | inr e => (s, inr e)
  end.

Definition getAccountAwareBlockhash (writableAccounts : list string) (s : RouterState) : RouterState * (string + RpcError) :=
  if negb (valid_cluster writableAccounts) then (s, inr (JsError "Invalid writable account cluster"))
  else
    let '(s, r) := delegations writableAccounts s in
    match r with
    | inr e => (s, inr e)
    | inl validators =>
        match validators with
        | [] => (s, inr (JsError "Mixed validators"))
        | v :: rest =>
            if negb (forallb (fun w => bool_decide (w = v)) rest) then (s, inr (JsError "Mixed validators"))
            else
              let s := set_viaRollup (bool_decide (direct = Some v)) s in
              if viaRollup s then
                match ro_blockhash s with
                | Some (value, until) => if until <? now then refreshBlockhash s else (s, inl value)
                | None => refreshBlockhash s
                end
              else
                let '(r, answer) :=
                  (r <- request network "getBlockhashForAccounts" [JArr (JStr <$> writableAccounts)];
                   result <- object (Some r); _ <- count (prop "lastValidBlockHeight" result);
                   key to_key (prop "blockhash" result)) (ro_rpc s) in
                (set_ro_rpc r s, answer)
        end
    end.

(** [settle] over the two watchers in the order they settle: the first that knows
    decides. *)
Definition settle (first second : option bool) : option bool := match first with Some _ => first | None => second end.

(** [submit]: [signature] is the first signature of the serialized transaction,
    [pushed] the answer of the socket's watch, [pushed_first] whether it settles
    before the poll.  A poll that throws settles as unknown. *)
Definition router_submit (attempts : nat) (encoded signature : string) (pushed : option bool) (pushed_first : bool) (go : list bool)
    (s : RouterState) : RouterState * (option string + RpcError) :=
  match viaRollup s, direct with
  | true, Some _ =>
      let '(d, r) := submit direct_network encoded (ro_direct s) in
      let s := set_ro_direct d s in
      match r with
      | inr e => (s, inr e)
      | inl _ =>
          let '(d, p) := pollProcessed direct_network go signature (ro_direct s) in
          let s := set_ro_direct d s in
          let polled := match p with inl a => a | inr _ => None end in
          match (if pushed_first then settle pushed polled else settle polled pushed) with
          | Some true => (s, inl (Some signature))
          | Some false => (s, inr (RpcFailure "signatureNotification" (code_text "transaction_rejected")))
          | None =>
              let '(d, r) := confirm direct_network attempts signature (ro_direct s) in
              (set_ro_direct d s, match r with inl _ => inl (Some signature) | inr e => inr e end)
          end
      end
  | _, _ =>
      let '(d, r) := (signature <- submit network encoded; _ <- confirm network attempts signature; rpc_ret None) (ro_rpc s) in
      (set_ro_rpc d s, r)
  end.

(** [warm]: a failure is ignored. *)
Definition warm (writableAccounts : list string) (s : RouterState) : RouterState :=
  if negb (viaRollup s) then (getAccountAwareBlockhash writableAccounts s).1
  else match direct, ro_blockhash s with
       | Some _, Some (_, until) => if until - now <? 1000 then (refreshBlockhash s).1 else s
       | Some _, None => (refreshBlockhash s).1
       | None, _ => s
       end.
End Router.

(** ** One request *)

Section Requests.
Context (network : list NetCall -> NetCall -> result RpcResponse).

(** The pauses and repeated posts of [k] retries. *)
Definition retries (id : Z) (method : string) (params : list json) (from : Z) (k : nat) : list NetCall :=
  concat ((fun i => [wait (400 * 2 ^ (from + Z.of_nat i)); post id method params]) <$> seq 0 k).

Lemma retries_S id method params from k :
  retries id method params from (S k) =
  [wait (400 * 2 ^ from); post id method params] ++ retries id method params (from + 1) k.
Proof.
  unfold retries. change (seq 0 (S k)) with (0%nat :: seq 1 k). rewrite fmap_cons. cbn [concat]. rewrite Z.add_0_r. f_equal.
  f_equal. rewrite <- fmap_S_seq, <- list_fmap_compose. apply list_fmap_ext. intros i x _. cbn -[Z.mul Z.pow].
  do 4 f_equal. lia.
Qed.

(** The trace before the [i]-th post of a request that started at [t]. *)
Definition before_post (t : list NetCall) (id : Z) (method : string) (params : list json) (from : Z) (i : nat) : list NetCall :=
  t ++ retries id method params from i ++ [wait (400 * 2 ^ (from + Z.of_nat i))].

Definition answered_429 (r : result RpcResponse) : Prop := exists response, r = Ok response /\ rr_status response = 429.

Lemma retry_429_spec n id method params : forall from response s s' r,
  retry_429 network n from id method params response s = (s', r) ->
  exists k, (k <= n)%nat /\ rs_id s' = rs_id s /\ rs_trace s' = rs_trace s ++ retries id method params from k
  /\ ((0 < k)%nat -> rr_status response = 429)
  /\ (forall i, (S i < k)%nat -> answered_429 (network (before_post (rs_trace s) id method params from i) (post id method params)))
  /\ match r with
     | inl final => (k = O /\ final = response)
         \/ exists j, k = S j /\ network (before_post (rs_trace s) id method params from j) (post id method params) = Ok final
     | inr (JsError e) => exists j, k = S j /\ network (before_post (rs_trace s) id method params from j) (post id method params) = Throw e
     | inr (RpcFailure _ _) => False
     end.
Proof.
  induction n as [|n IH]; intros from response s s' r; cbn [retry_429].
  - intros [= <- <-]. exists O. rewrite app_nil_r. split_and!; try done; [lia|lia|by left].
  - destruct (rr_status response =? 429) eqn:E; zbool.
    2: { intros [= <- <-]. exists O. rewrite app_nil_r. split_and!; try done; [lia|lia|lia|by left]. }
    unfold rpc_bind at 1, pause. unfold rpc_bind, do_post. cbn [rs_id rs_trace].
    set (t1 := rs_trace s ++ [wait (400 * 2 ^ from)]). destruct (network t1 (post id method params)) as [response'|e] eqn:En.
    + intros (k & Hk & Hid & Ht & H429 & Hall & Hr)%IH. cbn [rs_id rs_trace] in *. exists (S k).
      assert (forall i, before_post (t1 ++ [post id method params]) id method params (from + 1) i
                = before_post (rs_trace s) id method params from (S i)) as Hb.
      { intros i. unfold before_post, t1. rewrite retries_S, <- !app_assoc.
        replace (from + 1 + Z.of_nat i) with (from + Z.of_nat (S i)) by lia. done. }
      assert (before_post (rs_trace s) id method params from 0 = t1) as Hb0
        by (unfold before_post, t1; cbn; by rewrite Z.add_0_r).
      split_and!; [lia|done| |done| |].
      * rewrite Ht, retries_S. unfold t1. by rewrite <- !app_assoc.
      * intros [|i] Hi; [rewrite Hb0; exists response'; split; [done|apply H429; lia]|]. rewrite <- Hb. apply Hall. lia.
      * destruct r as [final|[|e]]; [|done|].
        -- right. destruct Hr as [[-> ->]|(j & -> & Hj)]; [exists O; by rewrite Hb0|exists (S j); by rewrite <- Hb].
        -- destruct Hr as (j & -> & Hj). exists (S j). by rewrite <- Hb.
    + intros [= <- <-]. exists 1%nat. cbn [rs_id rs_trace]. split_and!; [lia|done| |done|lia|].
      * unfold t1, retries. cbn. by rewrite Z.add_0_r, <- app_assoc.
      * exists O. split; [done|]. unfold before_post. cbn. by rewrite Z.add_0_r.
Qed.
End Requests.

(** A body that answers request [id]. *)
Definition answers (id : Z) (body v : json) : Prop :=
  prop "id" body = Some (JNum id) /\ is_str "2.0" (prop "jsonrpc" body) = true /\ truthy (prop "error" body) = false
  /\ prop "result" body = Some v.

Lemma parse_envelope_inl id method response s s' v :
  parse_envelope id method response s = (s', inl v) ->
  http_success (rr_status response) = true /\ exists body, rr_json response = Ok body /\ answers id body v.
Proof.
  unfold parse_envelope, rpc_bind. destruct (http_success _); [|done]. cbn. destruct (rr_json response) as [body|]; [|done].
  cbn. destruct body as [| | | | | |f]; try done. cbn. set (body := JObj f).
  destruct (match assoc "id" f with Some (JNum n) => n =? id | _ => false end) eqn:Ei; [|done]. cbn.
  destruct (is_str "2.0" (assoc "jsonrpc" f)) eqn:Ej; [|done]. cbn. destruct (truthy (assoc "error" f)) eqn:Ee.
  - destruct (assoc "error" f) as [[]|]; done.
  - destruct (assoc "result" f) as [r|] eqn:Er; [|done]. intros [= <- <-]. split; [done|]. exists body. split; [done|].
    split_and!; try done. cbn. destruct (assoc "id" f) as [[]|]; try done. by apply Z.eqb_eq in Ei as ->.
Qed.

(** Computations that make no call. *)
Definition quiet {A} (m : rpc A) : Prop := forall s, (m s).1 = s.

Lemma quiet_bind {A B} (m : rpc A) (f : A -> rpc B) : quiet m -> (forall a, quiet (f a)) -> quiet (rpc_bind m f).
Proof.
  intros Hm Hf s. unfold rpc_bind. specialize (Hm s). destruct (m s) as [s1 [a|e]]; cbn in *; subst; [apply Hf|done].
Qed.

Lemma quiet_object v : quiet (object v).
Proof. intros s. unfold object. by repeat case_match. Qed.

Lemma quiet_count v : quiet (count v).
Proof. intros s. unfold count. by repeat case_match. Qed.

Lemma quiet_key to_key v : quiet (key to_key v).
Proof. intros s. unfold key. by repeat case_match. Qed.

Lemma parse_envelope_state id method response : quiet (parse_envelope id method response).
Proof.
  unfold parse_envelope. destruct (negb _); [done|]. apply quiet_bind; [by destruct (rr_json response)|]. intros body.
  apply quiet_bind; [apply quiet_object|]. intros data. destruct (_ || _)%bool; [done|]. destruct (truthy _).
  - apply quiet_bind; [apply quiet_object|done].
  - by destruct (prop "result" data).
Qed.

(** A request is never repeated blindly.  Whatever the network does, a call
    makes one post and at most four more, all with the same fresh id and the
    same body; each repetition follows an answer of status 429, which the server
    gives before processing, after a pause of 400 ms doubling each time; and a
    value is returned only from a successful response whose envelope echoes that
    id and carries no error.  In particular a transaction submission whose
    answer is lost or is any other failure is not sent again. *)
Theorem request_spec network method params s s' r :
  request network method params s = (s', r) ->
  let id := rs_id s + 1 in
  let p := post id method params in
  let t := rs_trace s ++ [p] in
  rs_id s' = id
  /\ exists k, (k <= 4)%nat /\ rs_trace s' = t ++ retries id method params 0 k
  /\ ((0 < k)%nat -> answered_429 (network (rs_trace s) p))
  /\ (forall i, (S i < k)%nat -> answered_429 (network (before_post t id method params 0 i) p))
  /\ (forall v, r = inl v -> exists response body,
      (match k with O => network (rs_trace s) p | S j => network (before_post t id method params 0 j) p end) = Ok response
      /\ http_success (rr_status response) = true /\ rr_json response = Ok body /\ answers id body v).
Proof.
  cbv zeta. unfold request, rpc_bind, next_id, do_post at 1. cbn [rs_id rs_trace].
  set (id := rs_id s + 1). set (p := post id method params).
  destruct (network (rs_trace s) p) as [first|e] eqn:Ef.
  2: { intros [= <- <-]. split; [done|]. exists O. rewrite app_nil_r. split_and!; try done; lia. }
  destruct (retry_429 network 4 0 id method params first (mkRpcState id (rs_trace s ++ [p]))) as [s1 r1] eqn:E1.
  destruct (retry_429_spec network 4 id method params 0 first (mkRpcState id (rs_trace s ++ [p])) s1 r1 E1)
    as (k & Hk & Hid & Ht & H429 & Hall & Hr). cbn [rs_id rs_trace] in *.
  destruct r1 as [final|e1].
  - intros Hp. pose proof (parse_envelope_state id method final s1) as Hs. rewrite Hp in Hs. cbn in Hs. subst s'.
    split; [done|]. exists k. split_and!; [done|done| |done|].
    + intros H0. exists first. split; [done|by apply H429].
    + intros v ->. apply parse_envelope_inl in Hp as [Hok (body & Hb & Ha)]. exists final, body. split_and!; try done.
      destruct Hr as [[-> ->]|(j & -> & Hj)]; [done|done].
  - intros [= <- <-]. split; [done|]. exists k. split_and!; [done|done| |done|done].
    intros H0. exists first. split; [done|by apply H429].
Qed.

(** ** Confirmation *)

(** The network answered [method] with the value [v]. *)
Definition network_said (network : list NetCall -> NetCall -> result RpcResponse) (method : string) (params : list json) (v : json) : Prop :=
  exists t id response body, network t (post id method params) = Ok response /\ rr_json response = Ok body /\ answers id body v.

Lemma request_inl network method params s s' v :
  request network method params s = (s', inl v) -> network_said network method params v.
Proof.
  unfold request, rpc_bind, next_id, do_post at 1. cbn [rs_id rs_trace].
  destruct (network (rs_trace s) _) as [first|e] eqn:Ef; [|done].
  destruct (retry_429 _ _ _ _ _ _ _ _) as [s1 [final|e1]] eqn:E1; [|done].
  intros [_ (body & Hb & Ha)]%parse_envelope_inl.
  destruct (retry_429_spec network 4 _ method params 0 first _ s1 _ E1) as (k & _ & _ & _ & _ & _ & [[_ ->]|(j & _ & Hj)]);
    by eexists _, _, _, body.
Qed.

Lemma request_ids network method params s : rs_id (request network method params s).1 = rs_id s + 1.
Proof.
  unfold request, rpc_bind, next_id, do_post at 1. cbn [rs_id rs_trace].
  destruct (network (rs_trace s) _) as [first|e]; [|done].
  destruct (retry_429 _ _ _ _ _ _ _ _) as [s1 r1] eqn:E1.
  destruct (retry_429_spec network 4 _ method params 0 first _ s1 _ E1) as (k & _ & Hid & _). cbn in Hid.
  destruct r1 as [final|e1]; [|done]. by rewrite parse_envelope_state.
Qed.

(** [m] makes at most [k] requests. *)
Definition at_most {A} (k : nat) (m : rpc A) : Prop := forall s, rs_id s <= rs_id (m s).1 <= rs_id s + Z.of_nat k.

Lemma at_most_quiet {A} (m : rpc A) : quiet m -> at_most 0 m.
Proof. intros Hm s. rewrite Hm. lia. Qed.

Lemma at_most_bind {A B} k1 k2 (m : rpc A) (f : A -> rpc B) :
  at_most k1 m -> (forall a, at_most k2 (f a)) -> at_most (k1 + k2) (rpc_bind m f).
Proof.
  intros Hm Hf s. unfold rpc_bind. specialize (Hm s). destruct (m s) as [s1 [a|e]]; cbn in *; [|lia].
  specialize (Hf a s1). lia.
Qed.

Lemma at_most_weaken {A} k k' (m : rpc A) : (k <= k')%nat -> at_most k m -> at_most k' m.
Proof. intros Hk Hm s. specialize (Hm s). lia. Qed.

Lemma at_most_request network method params : at_most 1 (request network method params).
Proof. intros s. rewrite request_ids. lia. Qed.

Definition confirmation_text (c : Confirmation) : string := match c with is_confirmed => "confirmed" | is_finalized => "finalized" end.

(** A status read that shows the transaction landed without error. *)
Definition landed (network : list NetCall -> NetCall -> result RpcResponse) (signature : string) (c : Confirmation) : Prop :=
  exists result status,
    network_said network "getSignatureStatuses" [JArr [JStr signature]; JObj [("searchTransactionHistory", JBool true)]] result
    /\ prop "value" result = Some (JArr [status]) /\ prop "err" status = Some JNull
    /\ prop "confirmationStatus" status = Some (JStr (confirmation_text c)).

Lemma is_str_eq s v : is_str s v = true -> v = Some (JStr s).
Proof. destruct v as [[]|]; cbn; try done. by intros ->%bool_decide_eq_true. Qed.

Lemma read_status_spec network signature :
  at_most 1 (read_status network signature)
  /\ forall s s' c, read_status network signature s = (s', inl (Some c)) -> landed network signature c.
Proof.
  set (params := [JArr [JStr signature]; JObj [("searchTransactionHistory", JBool true)]]).
  assert (forall s, rs_id (rpc_catch (rpc_bind (request network "getSignatureStatuses" params) (fun r => rpc_ret (Some r)))
      (fun e => if rate_limited e then rpc_ret None else rpc_throw e) s).1 = rs_id s + 1) as Hid.
  { intros s. unfold rpc_catch, rpc_bind. pose proof (request_ids network "getSignatureStatuses" params s) as H.
    destruct (request network _ params s) as [s1 [v|e]]; cbn in *; [done|]. by destruct (rate_limited e). }
  split.
  - unfold read_status. fold params. apply (at_most_bind 1 0); [intros s; rewrite Hid; lia|]. intros r. apply at_most_quiet.
    repeat case_match; try done; (apply quiet_bind; [apply quiet_object|]); intros o; repeat case_match; try done;
      (apply quiet_bind; [apply quiet_object|]); intros st; by repeat case_match.
  - intros s s' c. unfold read_status, rpc_catch, rpc_bind. fold params.
    destruct (request network "getSignatureStatuses" params s) as [s1 [v|e]] eqn:Er.
    2: { cbn. by destruct (rate_limited e). }
    apply request_inl in Er. cbn. destruct v as [| | | | | |f]; try done. cbn.
    destruct (assoc "value" f) as [[| | | | |[|[| | | | | |g] []]|]|] eqn:Ev; try done. cbn.
    destruct (assoc "err" g) as [[]|] eqn:Ee; try done. cbn.
    destruct (is_str "finalized" _) eqn:Ef; [|destruct (is_str "confirmed" _) eqn:Ec; [|done]]; intros [= <- <-];
      apply is_str_eq in Ef || apply is_str_eq in Ec; by exists (JObj f), (JObj g).
Qed.

Lemma at_most_pause ms : at_most 0 (pause ms).
Proof. intros s. cbn. lia. Qed.

Lemma confirm_attempts_spec network n signature :
  at_most n (confirm_attempts network n signature)
  /\ forall s s' c, confirm_attempts network n signature s = (s', inl c) -> landed network signature c.
Proof.
  destruct (read_status_spec network signature) as [Hat Hland]. induction n as [|n [IHat IHl]].
  - split; [by apply at_most_quiet|done].
  - cbn [confirm_attempts]. split.
    + apply (at_most_bind 1 n); [done|]. intros [c|]; [eapply at_most_weaken; [apply Nat.le_0_l|]; by apply at_most_quiet|].
      apply (at_most_bind 0 n); [destruct n; [by apply at_most_quiet|apply at_most_pause]|]. intros []. exact IHat.
    + intros s s' c. unfold rpc_bind at 1. destruct (read_status network signature s) as [s1 [[c1|]|e]] eqn:E; [| |done].
      * intros [= <- <-]. by eapply Hland.
      * unfold rpc_bind. destruct ((match n with O => rpc_ret tt | S _ => pause 500 end : rpc unit) s1) as [s2 [[]|e]]; [apply IHl|done].
Qed.

(** A confirmation is what the chain said.  The browser's [confirm] makes at
    most the configured number of status requests, whatever the network
    answers, and reports a transaction as confirmed or finalized only from a
    status entry of that signature with a null error and that very confirmation
    status; rate-limited reads only mean asking again. *)
Theorem browser_confirm_spec network attempts signature s s' r :
  confirm network attempts signature s = (s', r) ->
  rs_id s <= rs_id s' <= rs_id s + Z.of_nat attempts
  /\ (forall c, r = inl c -> is_signature signature = true /\ landed network signature c).
Proof.
  unfold confirm. intros H. destruct (confirm_attempts_spec network attempts signature) as [Hat Hl].
  destruct (is_signature signature) eqn:Es; cbn in H.
  - specialize (Hat s). rewrite H in Hat. split; [done|]. intros c ->. split; [done|by eapply Hl].
  - injection H as <- <-. split; [lia|done].
Qed.

(** ** Routing *)

#[local] Arguments request : simpl never.

Section Routing.
Context (network direct_network : list NetCall -> NetCall -> result RpcResponse) (to_key : string -> option string).
Context (marketAddress : string) (direct : option string) (now : Z).

(** The router names [validator] as the authority of [account]. *)
Definition router_names (account validator : string) : Prop :=
  exists k result record,
    to_key account = Some k /\ network_said network "getDelegationStatus" [JStr k] result
    /\ prop "isDelegated" result = Some (JBool true) /\ prop "delegationRecord" result = Some record
    /\ exists text, prop "authority" record = Some (JStr text) /\ to_key text = Some validator.

(** Every cached delegation was read from the router. *)
Definition cache_sound (c : list (string * (string * Z))) : Prop :=
  Forall (fun e => router_names e.1 e.2.1) c.

Lemma assoc_elem {A} (name : string) (l : list (string * A)) a : assoc name l = Some a -> In (name, a) l.
Proof.
  induction l as [|[n b] l IH]; cbn; [done|]. case_bool_decide; [intros [= ->]; subst; by left|right; by apply IH].
Qed.

Lemma ask_validator_inl account s s' v :
  ask_validator network to_key account s = (s', inl v) -> router_names account v.
Proof.
  unfold ask_validator, key, rpc_bind. destruct (to_key account) as [k|] eqn:Ek; [|done]. cbn.
  destruct (request network "getDelegationStatus" [JStr k] s) as [s1 [r|e]] eqn:Er; [|done]. apply request_inl in Er. cbn.
  destruct r as [| | | | | |f]; try done. cbn.
  destruct (is_bool true (assoc "isDelegated" f)) eqn:Ed; [|done]. cbn.
  destruct (assoc "delegationRecord" f) as [[| | | | | |g]|] eqn:Eg; try done. cbn.
  destruct (assoc "authority" g) as [[]|] eqn:Ea; try done. cbn.
  match goal with H : assoc "authority" g = Some (JStr ?x) |- _ => rename x into text end.
  destruct (to_key text) as [v'|] eqn:Ev; [|done]. intros [= <- <-]. exists k, (JObj f), (JObj g). split_and!; try done; [|by exists text].
  cbn. destruct (assoc "isDelegated" f) as [[]|]; try done. by destruct b.
Qed.

Lemma delegation_of_spec account s s' r :
  delegation_of network to_key now account s = (s', r) -> cache_sound (delegationCache s) ->
  cache_sound (delegationCache s') /\ ro_blockhash s' = ro_blockhash s
  /\ (forall v, r = inl v -> router_names account v).
Proof.
  unfold delegation_of. intros H Hc. destruct (assoc account (delegationCache s)) as [[v until]|] eqn:Ea.
  all: swap 1 2.
  all: try (destruct (now <? until); [injection H as <- <-; split_and!; try done; intros ? [= <-]|]).
  all: try (destruct (ask_validator network to_key account (ro_rpc s)) as [p [w|e]] eqn:Ew; injection H as <- <-; cbn;
    split_and!; try done; [constructor; [by eapply ask_validator_inl|done]|intros ? [= <-]; by eapply ask_validator_inl]).
  apply assoc_elem in Ea. unfold cache_sound in Hc. rewrite List.Forall_forall in Hc. apply (Hc _ Ea).
Qed.

Lemma delegations_spec accounts : forall s s' r,
  delegations network to_key now accounts s = (s', r) -> cache_sound (delegationCache s) ->
  cache_sound (delegationCache s') /\ ro_blockhash s' = ro_blockhash s
  /\ (forall vs, r = inl vs -> Forall2 router_names accounts vs).
Proof.
  induction accounts as [|a rest IH]; intros s s' r; cbn [delegations].
  - intros [= <- <-] Hc. split_and!; try done. intros vs [= <-]. constructor.
  - destruct (delegation_of network to_key now a s) as [s1 r1] eqn:E1.
    destruct (delegations network to_key now rest s1) as [s2 r2] eqn:E2. intros [= <- <-] Hc.
    destruct (delegation_of_spec _ _ _ _ E1 Hc) as (Hc1 & Hb1 & Hv1). destruct (IH _ _ _ E2 Hc1) as (Hc2 & Hb2 & Hv2).
    split_and!; [done|congruence|]. intros vs. destruct r1 as [v|], r2 as [vs2|]; try done. intros [= <-].
    constructor; [by apply Hv1|by apply Hv2].
Qed.

Lemma valid_cluster_spec ws :
  valid_cluster marketAddress ws = true <-> (length ws <= 64)%nat /\ NoDup ws /\ marketAddress ∈ ws.
Proof.
  unfold valid_cluster. rewrite !andb_true_iff, !bool_decide_eq_true, Nat.ltb_lt, Nat.leb_le.
  split; [by intros [[[_ ?] ?] ?]|]. intros (? & ? & Hm). split_and!; try done. destruct ws; [by apply elem_of_nil in Hm|cbn; lia].
Qed.

(** [text] read as a key is [h], a block hash the network gave in answer to [method]. *)
Definition said_blockhash (net : list NetCall -> NetCall -> result RpcResponse) (method : string) (params : list json)
    (path : json -> option json) (h : string) : Prop :=
  exists result value text, network_said net method params result /\ path result = Some value
    /\ prop "blockhash" value = Some (JStr text) /\ to_key text = Some h.

Lemma key_inl v s s' k : key to_key v s = (s', inl k) -> exists text, v = Some (JStr text) /\ to_key text = Some k.
Proof.
  unfold key. destruct v as [[]|]; try done. destruct (to_key _) eqn:E; [|done]. intros [= <- <-]. by eexists.
Qed.

Lemma latestBlockhash_inl s s' h height :
  latestBlockhash direct_network to_key s = (s', inl (h, height)) ->
  said_blockhash direct_network "getLatestBlockhash" [commitment "confirmed"] (prop "value") h.
Proof.
  unfold latestBlockhash, rpc_bind. destruct (request direct_network _ _ s) as [s1 [r|e]] eqn:Er; [|done].
  apply request_inl in Er. destruct r as [| | | | | |f]; try done. cbn [object rpc_ret].
  destruct (prop "value" (JObj f)) as [[| | | | | |g]|] eqn:Ev; try done. cbn [object rpc_ret].
  destruct (key to_key (prop "blockhash" (JObj g)) s1) as [s2 [b|e]] eqn:Ek; [|done].
  destruct (count _ s2) as [s3 [n|e]]; [|done]. intros [= <- <- <-]. apply key_inl in Ek as (text & Ht & Hk).
  by exists (JObj f), (JObj g), text.
Qed.

Lemma refreshBlockhash_spec s s' r :
  refreshBlockhash direct_network to_key now s = (s', r) ->
  delegationCache s' = delegationCache s /\ viaRollup s' = viaRollup s
  /\ forall h, r = inl h ->
     said_blockhash direct_network "getLatestBlockhash" [commitment "confirmed"] (prop "value") h
     /\ ro_blockhash s' = Some (h, now + 2000).
Proof.
  unfold refreshBlockhash. destruct (latestBlockhash direct_network to_key (ro_direct s)) as [d [[b n]|e]] eqn:El;
    intros [= <- <-]; split_and!; try done. intros h [= <-]. split; [by eapply latestBlockhash_inl|done].
Qed.

Lemma one_validator ws v rest :
  Forall2 router_names ws (v :: rest) -> forallb (fun w => bool_decide (w = v)) rest = true ->
  Forall (fun a => router_names a v) ws.
Proof.
  intros Hv Ef. assert (Forall (fun w => w = v) (v :: rest)) as Hs.
  { constructor; [done|]. apply List.Forall_forall. intros w Hw. rewrite forallb_forall in Ef. specialize (Ef w Hw).
    by apply bool_decide_eq_true in Ef. }
  revert Hs. induction Hv as [|a w ws' vs' Ha _ IH]; [constructor|]. intros Hs. inversion Hs; subst.
  constructor; [done|by apply IH].
Qed.

(** A transaction is only built for one validator.  Whatever the router
    answers, [getAccountAwareBlockhash] yields a block hash only for a list of at
    most 64 distinct accounts that contains the market, when the router has named
    one and the same validator for every one of them (cached answers are answers
    of the router too, and the cache stays so on failure); the direct path is
    chosen exactly when that validator is the directly reachable one, and the hash
    then comes from that rollup, fresh or kept for two seconds, and otherwise from
    the router for exactly these accounts. *)
Theorem router_blockhash_spec ws s s' r :
  getAccountAwareBlockhash network direct_network to_key marketAddress direct now ws s = (s', r) ->
  cache_sound (delegationCache s) ->
  cache_sound (delegationCache s')
  /\ forall h, r = inl h ->
     (length ws <= 64)%nat /\ NoDup ws /\ marketAddress ∈ ws
     /\ exists v, Forall (fun a => router_names a v) ws /\ viaRollup s' = bool_decide (direct = Some v)
     /\ (viaRollup s' = true ->
         (exists until, ro_blockhash s = Some (h, until) /\ now <= until)
         \/ said_blockhash direct_network "getLatestBlockhash" [commitment "confirmed"] (prop "value") h
            /\ ro_blockhash s' = Some (h, now + 2000))
     /\ (viaRollup s' = false ->
         said_blockhash network "getBlockhashForAccounts" [JArr (JStr <$> ws)] Some h).
Proof.
  unfold getAccountAwareBlockhash. intros H Hc. destruct (valid_cluster marketAddress ws) eqn:Ew.
  2: { by injection H as <- <-. }
  apply valid_cluster_spec in Ew as (Hlen & Hnd & Hm). cbn [negb] in H.
  destruct (delegations network to_key now ws s) as [s1 [vs|e]] eqn:Ed; destruct (delegations_spec _ _ _ _ Ed Hc) as (Hc1 & Hb1 & Hv).
  2: { by injection H as <- <-. }
  specialize (Hv _ eq_refl). destruct vs as [|v rest]; [by injection H as <- <-|].
  destruct (forallb _ rest) eqn:Ef; [|by injection H as <- <-]. cbn [negb] in H.
  pose proof (one_validator _ _ _ Hv Ef) as Hall.
  assert (forall s2, delegationCache s2 = delegationCache s1 -> cache_sound (delegationCache s2)) as Hkeep by congruence.
  set (s2 := set_viaRollup (bool_decide (direct = Some v)) s1) in H.
  assert (ro_blockhash s2 = ro_blockhash s) as Hb2 by exact Hb1.
  assert (viaRollup s2 = bool_decide (direct = Some v)) as Hvia by done.
  destruct (viaRollup s2) eqn:Evia.
  - assert (refreshBlockhash direct_network to_key now s2 = (s', r)
      \/ exists value until, ro_blockhash s2 = Some (value, until) /\ now <= until /\ (s', r) = (s2, inl value)) as [Hr|(value & until & Hb & Hle & [= -> ->])].
    { destruct (ro_blockhash s2) as [[value until]|]; [|by left]. destruct (until <? now) eqn:E; zbool; [by left|].
      right. exists value, until. split_and!; [done|lia|done]. }
    + destruct (refreshBlockhash_spec _ _ _ Hr) as (Hk & Hvr & Hh). split; [by apply Hkeep|]. intros h ->. destruct (Hh _ eq_refl) as [Hs Hb].
      split_and!; try done. exists v. split_and!; [done|congruence|by right|congruence].
    + split; [by apply Hkeep|]. intros h [= <-]. split_and!; try done. exists v. split_and!; [done|congruence| |congruence].
      intros _. left. exists until. split; [congruence|done].
  - unfold rpc_bind in H. destruct (request network _ _ (ro_rpc s2)) as [d1 [a|e]] eqn:Er.
    2: { injection H as <- <-. split; [by apply Hkeep|done]. }
    apply request_inl in Er. destruct a as [| | | | | |f]; try (injection H as <- <-; split; [by apply Hkeep|done]).
    cbn [object rpc_ret] in H. destruct (count _ d1) as [d2 [n|e]]; [|injection H as <- <-; split; [by apply Hkeep|done]].
    destruct (key to_key _ d2) as [d3 [k|e]] eqn:Ek; injection H as <- <-; (split; [by apply Hkeep|]); [|done].
    intros h [= <-]. split_and!; try done. exists v. apply key_inl in Ek as (text & Ht & Hk).
    split_and!; [done|done|cbn; congruence|]. intros _. by exists (JObj f), (JObj f), text.
Qed.

Lemma submit_inl net encoded s s' signature :
  submit net encoded s = (s', inl signature) ->
  is_signature signature = true /\ exists params, network_said net "sendTransaction" (JStr encoded :: params) (JStr signature).
Proof.
  unfold submit, rpc_bind. destruct (request net _ _ s) as [s1 [r|e]] eqn:Er; [|done]. apply request_inl in Er.
  destruct r; try done. destruct (is_signature _) eqn:Ei; [|done]. intros [= <- <-]. split; [done|by eexists].
Qed.

(** A poll that saw the transaction processed without error. *)
Definition poll_saw (net : list NetCall -> NetCall -> result RpcResponse) (signature : string) : Prop :=
  exists result status, network_said net "getSignatureStatuses" [JArr [JStr signature]] result
    /\ first_of (prop "value" result) = Some status /\ prop "err" status = Some JNull.

Lemma pollProcessed_inl net go signature : forall s s',
  pollProcessed net go signature s = (s', inl (Some true)) -> poll_saw net signature.
Proof.
  induction go as [|[] go IH]; intros s s'; try done. cbn [pollProcessed]. unfold rpc_bind at 1, rpc_catch.
  unfold rpc_bind at 1. destruct (request net _ _ s) as [s1 [r|e]] eqn:Er; [apply request_inl in Er|by intros ?%IH].
  cbn [rpc_ret]. destruct (truthy (Some r)) eqn:Et; [|by intros ?%IH]. unfold rpc_bind at 1 2.
  destruct r as [| | | | | |f]; try done. cbn [object rpc_ret].
  destruct (truthy (first_of _)) eqn:Es; [|by intros ?%IH].
  destruct (first_of (prop "value" (JObj f))) as [[| | | | | |g]|] eqn:Ef; try done. cbn.
  destruct (assoc "err" g) as [[]|] eqn:Ee; try done. intros _. by exists (JObj f), (JObj g).
Qed.

Lemma confirm_landed net attempts signature s s' c :
  confirm net attempts signature s = (s', inl c) -> landed net signature c.
Proof.
  unfold confirm. destruct (is_signature signature); [|done]. cbn. apply confirm_attempts_spec.
Qed.

(** Acceptance has evidence.  When [submit] of the router reports a
    transaction as accepted by the rollup, the transport it went through took the
    send, and someone saw it succeed: on the direct path the socket's push, a poll
    that found it processed with a null error, or the confirmation of that very
    signature; on the routed path the confirmation of the signature the router
    returned.  The chosen path is the one the block hash was taken for. *)
Theorem router_submit_spec attempts encoded signature pushed pushed_first go s s' o :
  router_submit network direct_network direct attempts encoded signature pushed pushed_first go s = (s', inl o) ->
  if viaRollup s && bool_decide (is_Some direct) then
    o = Some signature
    /\ (exists params answer, network_said direct_network "sendTransaction" (JStr encoded :: params) (JStr answer))
    /\ (pushed = Some true \/ poll_saw direct_network signature \/ exists c, landed direct_network signature c)
  else
    o = None
    /\ exists params answer c, network_said network "sendTransaction" (JStr encoded :: params) (JStr answer) /\ landed network answer c.
Proof.
  unfold router_submit. destruct (viaRollup s) eqn:Ev; cbn [andb]; [destruct direct as [v|]|].
  1: { rewrite bool_decide_eq_true_2 by by eexists. destruct (submit direct_network encoded (ro_direct s)) as [d [a|e]] eqn:Es; [|done].
    apply submit_inl in Es as [_ (params & Hs)]. set (s1 := set_ro_direct d s).
    destruct (pollProcessed direct_network go signature (ro_direct s1)) as [d2 p] eqn:Ep.
    assert (forall b, match p with inl a => a | inr _ => None end = Some b -> p = inl (Some b)) as Hp by (intros b; destruct p; congruence).
    set (polled := match p with inl a => a | inr _ => None end) in *.
    destruct (if pushed_first then settle pushed polled else settle polled pushed) as [[]|] eqn:E; [|done|].
    - intros [= <- <-]. split_and!; [done|by eexists _, _|].
      assert (pushed = Some true \/ polled = Some true) as [->|Hpo] by (destruct pushed_first, pushed, polled; naive_solver); [by left|].
      right; left. rewrite (Hp _ Hpo) in Ep. by eapply pollProcessed_inl.
    - destruct (confirm direct_network attempts signature _) as [d3 [c|e]] eqn:Ec; [|done]. intros [= <- <-].
      split_and!; [done|by eexists _, _|]. right; right. exists c. by eapply confirm_landed. }
  all: try (rewrite bool_decide_eq_false_2 by by intros [? ?]).
  all: unfold rpc_bind; destruct (submit network encoded (ro_rpc s)) as [d [a|e]] eqn:Es; [|done];
    apply submit_inl in Es as [_ (params & Hs)];
    destruct (confirm network attempts a d) as [d2 [c|e]] eqn:Ec; [|done]; intros [= <- <-]; split; [done|];
    exists params, a, c; split; [done|by eapply confirm_landed].
Qed.
End Routing.

(** ** Witnesses *)

(** A network that rate-limits the very first call and answers every other. *)
Definition sample_signature : string :=
  "5555555555555555555555555555555555555555555555555555555555555555".
Definition sample_result (method : string) : json :=
  if bool_decide (method = "getSignatureStatuses") then
    JObj [("value", JArr [JObj [("err", JNull); ("confirmationStatus", JStr "confirmed")]])]
  else if bool_decide (method = "getDelegationStatus") then
    JObj [("isDelegated", JBool true); ("delegationRecord", JObj [("authority", JStr "validator")])]
  else if bool_decide (method = "getLatestBlockhash") then
    JObj [("value", JObj [("blockhash", JStr "hash"); ("lastValidBlockHeight", JNum 7)])]
  else JStr sample_signature.
Definition sample_network (t : list NetCall) (call : NetCall) : result RpcResponse :=
  match t, call with
  | [], post _ _ _ => Ok (mkRpcResponse 429 (Throw "no body"))
  | _, post id method _ =>
      Ok (mkRpcResponse 200 (Ok (JObj [("jsonrpc", JStr "2.0"); ("id", JNum id); ("result", sample_result method)])))
  | _, wait _ => Throw "not a call"
  end.
Definition sample_rpc : RpcState := mkRpcState 0 [].
Definition sample_router : RouterState := mkRouterState sample_rpc sample_rpc [] false None.

Lemma request_witness :
  exists s', request sample_network "sendTransaction" [] sample_rpc = (s', inl (JStr sample_signature)) /\ rs_id s' = 1.
Proof.
  eexists. split; [vm_compute; reflexivity|].
  exact (proj1 (request_spec sample_network "sendTransaction" [] sample_rpc _ (inl (JStr sample_signature)) ltac:(vm_compute; reflexivity))).
Defined.

Lemma browser_confirm_witness : landed sample_network sample_signature is_confirmed.
Proof.
  refine (proj2 (proj2 (browser_confirm_spec sample_network 3 sample_signature sample_rpc
    (confirm sample_network 3 sample_signature sample_rpc).1 (inl is_confirmed) _) _ eq_refl)).
  vm_compute. reflexivity.
Defined.

Lemma router_blockhash_witness :
  exists v, Forall (fun a => router_names sample_network Some a v) ["market"; "seat"].
Proof.
  pose proof (router_blockhash_spec sample_network sample_network Some "market" (Some "validator") 0 ["market"; "seat"] sample_router
    (getAccountAwareBlockhash sample_network sample_network Some "market" (Some "validator") 0 ["market"; "seat"] sample_router).1
    (inl "hash") ltac:(vm_compute; reflexivity) ltac:(constructor)) as [_ H].
  destruct (H "hash" eq_refl) as (_ & _ & _ & v & Hv & _). by exists v.
Defined.

Lemma router_submit_witness :
  exists params answer c, network_said sample_network "sendTransaction" (JStr "AA==" :: params) (JStr answer) /\ landed sample_network answer c.
Proof.
  exact (proj2 (router_submit_spec sample_network sample_network Some None 3 "AA==" sample_signature None true [] sample_router
    (router_submit sample_network sample_network None 3 "AA==" sample_signature None true [] sample_router).1 None
    ltac:(vm_compute; reflexivity))).
Defined.
