(* ===== verification/Auth.v ===== *)
(** * Application sessions

    lib/auth/: the session exchange, the two session databases behind one
    interface (D1, and the in-process stand-in of route-session-store.ts used in
    development), the process-local store of session.ts, the service of
    application-service.ts and the routes under app/api/auth/.  SHA-256, random
    identifiers, the clock and Privy's verification are parameters. *)

From Stdlib Require Import Sorting.Sorted.
From S2P Require Import Prelude Json.

(** ** Data *)

Definition SESSION_TTL_MS : Z := 60 * 60 * 1000.

Record ApplicationSession := mkAppSession {
  as_idHash : string; as_privyUserId : string; as_walletAddress : string; as_createdAt : Z; as_expiresAt : Z;
  as_lastUsedAt : Z; as_revokedAt : option Z; as_userAgentHash : string }.

#[export] Instance application_session_eq_dec : EqDecision ApplicationSession.
Proof. solve_decision. Defined.

Record VerifiedToken := mkVerified { vt_user_id : string; vt_expiration : Z; vt_wallets : option (list string) }.

Definition with_lastUsed (now : Z) (s : ApplicationSession) : ApplicationSession :=
  mkAppSession (as_idHash s) (as_privyUserId s) (as_walletAddress s) (as_createdAt s) (as_expiresAt s) now (as_revokedAt s)
    (as_userAgentHash s).
Definition with_revoked (at_ : Z) (s : ApplicationSession) : ApplicationSession :=
  mkAppSession (as_idHash s) (as_privyUserId s) (as_walletAddress s) (as_createdAt s) (as_expiresAt s) (as_lastUsedAt s)
    (Some at_) (as_userAgentHash s).

(** [verified.wallets?.includes(wallet)] *)
Definition links (verified : VerifiedToken) (wallet : string) : bool :=
  match vt_wallets verified with Some ws => bool_decide (wallet ∈ ws) | None => false end.

(** ** The session database *)

(** The statements the store prepares. *)
Inductive sql :=
  | sql_insert (session : ApplicationSession)
  | sql_lookup (idHash : string) (now : Z)
  | sql_revoke (now : Z) (idHash : string)
  | sql_touch (now : Z) (idHash : string)
  | sql_cleanup (now : Z)
  | sql_rate (key : string) (now expiresAt : Z).

(** Their text, as far as the in-process stand-in inspects it. *)
Definition sql_text (q : sql) : string :=
  match q with
  | sql_insert _ => "INSERT INTO application_sessions (id_hash, privy_user_id, wallet_address, created_at, expires_at, last_used_at, revoked_at, user_agent_hash) VALUES (?, ?, ?, ?, ?, ?, ?, ?)"
  | sql_lookup _ _ => "SELECT id_hash as idHash, privy_user_id as privyUserId, wallet_address as walletAddress, created_at as createdAt, expires_at as expiresAt, last_used_at as lastUsedAt, revoked_at as revokedAt, user_agent_hash as userAgentHash FROM application_sessions WHERE id_hash = ? AND revoked_at IS NULL AND expires_at > ?"
  | sql_revoke _ _ => "UPDATE application_sessions SET revoked_at = ?, last_used_at = ? WHERE id_hash = ?"
  | sql_touch _ _ => "UPDATE application_sessions SET last_used_at = ? WHERE id_hash = ? AND revoked_at IS NULL"
  | sql_cleanup _ => "DELETE FROM application_sessions WHERE expires_at <= ?"
  | sql_rate _ _ _ => "INSERT INTO rate_limits(key,window_start,count,expires_at) VALUES(?,?,1,?)"
  end.

Inductive bound := b_text (s : string) | b_num (n : Z) | b_null.

Definition sql_values (q : sql) : list bound :=
  match q with
  | sql_insert s =>
      [b_text (as_idHash s); b_text (as_privyUserId s); b_text (as_walletAddress s); b_num (as_createdAt s);
       b_num (as_expiresAt s); b_num (as_lastUsedAt s); match as_revokedAt s with Some n => b_num n | None => b_null end;
       b_text (as_userAgentHash s)]
  | sql_lookup idHash now => [b_text idHash; b_num now]
  | sql_revoke now idHash => [b_num now; b_num now; b_text idHash]
  | sql_touch now idHash => [b_num now; b_text idHash]
  | sql_cleanup now => [b_num now]
  | sql_rate key now expiresAt => [b_text key; b_num now; b_num expiresAt; b_num now; b_num now; b_num now; b_num now]
  end.

Inductive sql_row := row_session (s : ApplicationSession) | row_count (n : Z).

(** The interface [SessionDatabase]: [prepare(...).bind(...)] with [first] or [run]. *)
Class SessionDatabase (D : Type) := {
  first : sql -> eff D (option sql_row);
  run : sql -> eff D unit;
}.

(** *** D1 *)

Record AuthRate := mkAuthRate { ar_window_start : Z; ar_count : Z; ar_expires_at : Z }.
Record AuthDb := mkAuthDb { application_sessions : gmap string ApplicationSession; auth_rates : gmap string AuthRate }.

Definition on_sessions (f : gmap string ApplicationSession -> gmap string ApplicationSession) (d : AuthDb) : AuthDb :=
  mkAuthDb (f (application_sessions d)) (auth_rates d).
Definition on_rates (f : gmap string AuthRate -> gmap string AuthRate) (d : AuthDb) : AuthDb :=
  mkAuthDb (application_sessions d) (f (auth_rates d)).

Definition visible (s : ApplicationSession) (now : Z) : bool :=
  bool_decide (as_revokedAt s = None) && (now <? as_expiresAt s).

Definition d1_first (q : sql) : eff AuthDb (option sql_row) := fun d =>
  match q with
  | sql_lookup idHash now =>
      (d, Ok (match application_sessions d !! idHash with
              | Some s => if visible s now then Some (row_session s) else None
              | None => None end))
  | sql_rate key now expiresAt =>
      match auth_rates d !! key with
      | None => (on_rates (insert key (mkAuthRate now 1 expiresAt)) d, Ok (Some (row_count 1)))
      | Some r =>
          let expired := ar_expires_at r <=? now in
          if expired || (ar_count r <? 10) then
            let n := if expired then 1 else ar_count r + 1 in
            (on_rates (insert key (mkAuthRate (if expired then now else ar_window_start r) n
                                              (if expired then expiresAt else ar_expires_at r))) d,
             Ok (Some (row_count n)))
          else (d, Ok None)
      end
  | _ => (d, Ok None)
  end.

Definition d1_run (q : sql) : eff AuthDb unit := fun d =>
  match q with
  | sql_insert s =>
      match application_sessions d !! as_idHash s with
      | Some _ => (d, Throw "UNIQUE constraint failed: application_sessions.id_hash")
      | None => (on_sessions (insert (as_idHash s) s) d, Ok tt)
      end
  | sql_revoke now idHash => (on_sessions (alter (fun s => with_lastUsed now (with_revoked now s)) idHash) d, Ok tt)
  | sql_touch now idHash =>
      (on_sessions (alter (fun s => if bool_decide (as_revokedAt s = None) then with_lastUsed now s else s) idHash) d, Ok tt)
  | sql_cleanup now => (on_sessions (filter (fun '(_, s) => ~ as_expiresAt s <= now)) d, Ok tt)
  | _ => (d, Ok tt)
  end.

#[export] Instance d1_database : SessionDatabase AuthDb := {| first := d1_first; run := d1_run |}.

(** *** The in-process stand-in *)

(** [developmentRows], [developmentRateLimits] *)
Record DevDb := mkDevDb { developmentRows : gmap string ApplicationSession; developmentRateLimits : gmap string (Z * Z) }.

(** [String(values[i])], [Number(values[i])] *)
Definition text_at (i : nat) (vs : list bound) : string :=
  match vs !! i with Some (b_text s) => s | Some (b_num n) => pretty n | Some b_null => "null" | None => "undefined" end.
Definition num_at (i : nat) (vs : list bound) : Z := match vs !! i with Some (b_num n) => n | _ => 0 end.
Definition nullable_at (i : nat) (vs : list bound) : option Z := match vs !! i with Some (b_num n) => Some n | _ => None end.

(** [sql.startsWith(p)] *)
Definition starts (p : string) (q : sql) : bool := String.prefix p (sql_text q).
Definition has (p : string) (q : sql) : bool := includes p (sql_text q).

Definition dev_first (q : sql) : eff DevDb (option sql_row) := fun d =>
  let values := sql_values q in
  if starts "SELECT" q then
    (d, Ok (match developmentRows d !! text_at 0 values with
            | Some row => if bool_decide (as_revokedAt row = None) && (num_at 1 values <? as_expiresAt row)
                          then Some (row_session row) else None
            | None => None end))
  else if has "rate_limits" q then
    let key := text_at 0 values in
    let now := num_at 1 values in
    let expiresAt := num_at 2 values in
    match developmentRateLimits d !! key with
    | Some (count, until) =>
        if until <=? now then
          (mkDevDb (developmentRows d) (<[key := (1, expiresAt)]> (developmentRateLimits d)), Ok (Some (row_count 1)))
        else if 10 <=? count then (d, Ok None)
        else (mkDevDb (developmentRows d) (<[key := (count + 1, until)]> (developmentRateLimits d)), Ok (Some (row_count (count + 1))))
    | None => (mkDevDb (developmentRows d) (<[key := (1, expiresAt)]> (developmentRateLimits d)), Ok (Some (row_count 1)))
    end
  else (d, Ok None).

Definition on_rows (f : gmap string ApplicationSession -> gmap string ApplicationSession) (d : DevDb) : DevDb :=
  mkDevDb (f (developmentRows d)) (developmentRateLimits d).

(** The four [if]s of [run], in order; more than one can apply. *)
Definition dev_run (q : sql) : eff DevDb unit := fun d =>
  let v := sql_values q in
  let d := if starts "INSERT" q then
    on_rows (insert (text_at 0 v) (mkAppSession (text_at 0 v) (text_at 1 v) (text_at 2 v) (num_at 3 v) (num_at 4 v) (num_at 5 v)
      (nullable_at 6 v) (text_at 7 v))) d else d in
  let d := if starts "UPDATE" q && has "SET revoked_at" q then
    on_rows (alter (fun row => with_lastUsed (num_at 1 v) (with_revoked (num_at 0 v) row)) (text_at 2 v)) d else d in
  let d := if starts "UPDATE" q && has "last_used_at = ? WHERE" q then
    on_rows (alter (with_lastUsed (num_at 0 v)) (text_at 1 v)) d else d in
  let d := if starts "DELETE" q then on_rows (filter (fun '(_, row) => ~ as_expiresAt row <= num_at 0 v)) d else d in
  (d, Ok tt).

#[export] Instance dev_database : SessionDatabase DevDb := {| first := dev_first; run := dev_run |}.

(** ** The store and the exchange, over either database *)

Section Store.
Context (digest : string -> string) {D : Type} `{SessionDatabase D}.

Definition persistSession (rawCookie : string) (s : ApplicationSession) : eff D unit :=
  run (sql_insert (mkAppSession (digest rawCookie) (as_privyUserId s) (as_walletAddress s) (as_createdAt s) (as_expiresAt s)
                     (as_lastUsedAt s) (as_revokedAt s) (as_userAgentHash s))).
Definition lookupSession (rawCookie : string) (now : Z) : eff D (option ApplicationSession) :=
  r ← first (sql_lookup (digest rawCookie) now);
  mret match r with Some (row_session s) => Some s | _ => None end.
Definition revokeSession (rawCookie : string) (now : Z) : eff D unit := run (sql_revoke now (digest rawCookie)).
Definition touchSession (rawCookie : string) (now : Z) : eff D unit := run (sql_touch now (digest rawCookie)).
Definition cleanupExpiredSessions (now : Z) : eff D unit := run (sql_cleanup now).

(** [readPersistentSession] *)
Definition readPersistentSession (raw : option string) (now : Z) : eff D (option ApplicationSession) :=
  match raw with
  | Some r => if bool_decide (r = "") then mret None else lookupSession r now
  | None => mret None
  end.

(** [allowSessionExchange] *)
Definition allowSessionExchange (client : string) (now : Z) : eff D bool :=
  if negb (isSafeInteger now) || (now <? 0) then eff_throw "Invalid timestamp"
  else row ← first (sql_rate ("auth:" +:+ digest client) now (now + 60000)); mret (bool_decide (is_Some row)).

(** [persistentSession]: [raw] is the random identifier. *)
Definition persistentSession (privyUserId walletAddress : string) (userAgent : option string) (now tokenExpiry : Z) (raw : string)
    : result (string * ApplicationSession) :=
  if bool_decide (privyUserId = "") || bool_decide (walletAddress = "") || (tokenExpiry <=? now)
  then Throw "Expired Privy access token"
  else Ok (raw, mkAppSession (digest raw) privyUserId walletAddress now (Z.min (now + SESSION_TTL_MS) tokenExpiry) now None
                  (digest (default "" userAgent))).

(** ** lib/auth/application-service.ts *)

Definition requireTrustedOrigin (origin expected : option string) : result unit :=
  match expected with
  | Some e => if bool_decide (e = "") || bool_decide (origin = Some e) then Ok tt else Throw "Origin rejected"
  | None => Ok tt
  end.

Definition requireCsrf (cookie header : option string) : result unit :=
  match cookie with
  | Some c => if bool_decide (c = "") || negb (bool_decide (header = Some c)) then Throw "CSRF validation failed" else Ok tt
  | None => Throw "CSRF validation failed"
  end.

Record SessionExchangeInput := mkExchange {
  se_accessToken : string; se_walletAddress : string; se_userAgent : option string; se_origin : option string;
  se_expectedOrigin : option string }.

Definition exchangePrivySession (verify : string -> result VerifiedToken) (input : SessionExchangeInput) (now : Z)
    (raw csrf : string) : eff D (string * ApplicationSession * string) :=
  _ ← eff_lift (requireTrustedOrigin (se_origin input) (se_expectedOrigin input));
  if bool_decide (se_accessToken input = "") || bool_decide (se_walletAddress input = "")
  then eff_throw "Authentication input is incomplete"
  else
    verified ← eff_lift (verify (se_accessToken input));
    if negb (links verified (se_walletAddress input)) then eff_throw "Wallet is not linked to authenticated user"
    else
      result ← eff_lift (persistentSession (vt_user_id verified) (se_walletAddress input) (se_userAgent input) now
                          (vt_expiration verified * 1000) raw);
      _ ← cleanupExpiredSessions now;
      _ ← persistSession (fst result) (snd result);
      mret (fst result, snd result, csrf).

Definition readSession (cookie : option string) (now : Z) : eff D (option ApplicationSession) :=
  match cookie with
  | None => mret None
  | Some c =>
      if bool_decide (c = "") then mret None
      else
        session ← lookupSession c now;
        _ ← (match session with Some _ => touchSession c now | None => mret tt end);
        mret session
  end.

Definition logoutSession (cookie csrfCookie csrfHeader : option string) (now : Z) : eff D unit :=
  _ ← eff_lift (requireCsrf csrfCookie csrfHeader);
  match cookie with
  | Some c => if bool_decide (c = "") then mret tt else revokeSession c now
  | None => mret tt
  end.

(** ** app/api/auth/ *)

(** A response: its status, body, and the session cookie it sets ([Some ""]
    deletes it). *)
Record AuthResponse := mkAuthResponse { ap_status : Z; ap_body : json; ap_cookie : option string; ap_csrf : option string }.
Definition answer (status : Z) (body : json) : AuthResponse := mkAuthResponse status body None None.
Definition error_body (e : string) : json := JObj [("error", JStr e)].

(** [isE2eTestModeServer] *)
Record ServerEnv := mkServerEnv { NODE_ENV : option string; NEXT_PUBLIC_E2E_TEST_MODE : option string }.
Definition E2E_TEST_TOKEN : string := "e2e-test-token".
Definition production (env : ServerEnv) : bool := bool_decide (NODE_ENV env = Some "production").
Definition isE2eTestModeServer (env : ServerEnv) : bool :=
  bool_decide (NEXT_PUBLIC_E2E_TEST_MODE env = Some "1") && negb (production env).
Definition verifyE2eTestToken (walletAddress : string) (now : Z) : VerifiedToken :=
  mkVerified "e2e-test-user" (now / 1000 + 3600) (Some [walletAddress]).

(** The request; [rq_json] is [await request.json()]. *)
Record AuthRequest := mkAuthRequest {
  rq_origin : option string; rq_urlOrigin : string; rq_json : result json; rq_userAgent : option string }.

(** A string property of a parsed body; [null] has no properties. *)
Definition body_text (name : string) (body : json) : result (option string) :=
  match body with
  | JNull => Throw "Cannot read properties of null"
  | _ => Ok match prop name body with Some (JStr s) => Some s | _ => None end
  end.

(** [POST /api/auth/session]; [now], [nowVerify] and [nowIssue] are the three
    readings of the clock, [raw] and [csrf] the random identifiers. *)
Definition session_exchange (env : ServerEnv) (verify : string -> result VerifiedToken) (request : AuthRequest)
    (now nowVerify nowIssue : Z) (raw csrf : string) : eff D AuthResponse :=
  if production env && negb (bool_decide (rq_origin request = Some (rq_urlOrigin request)))
  then mret (answer 403 (error_body "Origin rejected"))
  else
    allowed ← (if isE2eTestModeServer env then mret true else allowSessionExchange "session-exchange" now);
    if negb allowed then mret (answer 429 (error_body "Rate limit exceeded"))
    else
      body ← eff_lift (rq_json request);
      accessToken ← eff_lift (body_text "accessToken" body);
      walletAddress ← eff_lift (body_text "walletAddress" body);
      match accessToken, walletAddress with
      | Some token, Some wallet =>
          verified ← (if isE2eTestModeServer env && bool_decide (token = E2E_TEST_TOKEN)
                      then mret (verifyE2eTestToken wallet nowVerify) else eff_lift (verify token));
          if negb (links verified wallet) then mret (answer 403 (error_body "Wallet not linked"))
          else
            result ← eff_lift (persistentSession (vt_user_id verified) wallet (rq_userAgent request) nowIssue
                                (vt_expiration verified * 1000) raw);
            _ ← cleanupExpiredSessions now;
            _ ← persistSession (fst result) (snd result);
            mret (mkAuthResponse 200
                    (JObj [("userId", JStr (as_privyUserId (snd result))); ("walletAddress", JStr (as_walletAddress (snd result)))])
                    (Some (fst result)) (Some csrf))
      | _, _ => mret (answer 400 (error_body "accessToken and walletAddress are required"))
      end.

Definition session_route (env : ServerEnv) (verify : string -> result VerifiedToken) (request : AuthRequest)
    (now nowVerify nowIssue : Z) (raw csrf : string) : eff D AuthResponse :=
  eff_catch (session_exchange env verify request now nowVerify nowIssue raw csrf) (fun e => mret (answer 401 (error_body e))).

(** [GET /api/auth/me] *)
Definition me_route (cookie : option string) (now nowTouch : Z) : eff D AuthResponse :=
  session ← readPersistentSession cookie now;
  match session with
  | None => mret (answer 401 (error_body "Authentication required"))
  | Some s =>
      _ ← (match cookie with Some raw => if bool_decide (raw = "") then mret tt else touchSession raw nowTouch | None => mret tt end);
      mret (answer 200 (JObj [("userId", JStr (as_privyUserId s)); ("walletAddress", JStr (as_walletAddress s));
                              ("expiresAt", JNum (as_expiresAt s))]))
  end.

(** [POST /api/auth/logout] *)
Definition logout_route (cookie csrf header : option string) (now : Z) : eff D AuthResponse :=
  match requireCsrf csrf header with
  | Throw e => mret (answer 403 (error_body e))
  | Ok _ =>
      _ ← (match cookie with Some raw => if bool_decide (raw = "") then mret tt else revokeSession raw now | None => mret tt end);
      mret (mkAuthResponse 200 (JObj [("ok", JBool true)]) (Some "") None)
  end.
End Store.

(** ** The process-local store (lib/auth/session.ts) *)

Section Memory.
Context (digest : string -> string).

Definition createApplicationSession (verify : string -> result VerifiedToken) (accessToken walletAddress : string)
    (userAgent : option string) (now : Z) (raw : string) : eff (gmap string ApplicationSession) (string * ApplicationSession) :=
  if bool_decide (accessToken = "") then eff_throw "Missing Privy access token"
  else if bool_decide (walletAddress = "") then eff_throw "Missing Solana wallet address"
  else
    verified ← eff_lift (verify accessToken);
    let tokenExpiry := vt_expiration verified * 1000 in
    if bool_decide (vt_user_id verified = "") || (tokenExpiry <=? now) then eff_throw "Expired Privy access token"
    else
      let session := mkAppSession (digest raw) (vt_user_id verified) walletAddress now (Z.min (now + SESSION_TTL_MS) tokenExpiry)
                       now None (digest (default "" userAgent)) in
      _ ← eff_modify (insert (as_idHash session) session);
      mret (raw, session).

(** The session object is shared with the map, so the update of [lastUsedAt] is
    in the map too. *)
Definition getApplicationSession (rawSessionId : option string) (now : Z) : eff (gmap string ApplicationSession) (option ApplicationSession) := fun m =>
  match rawSessionId with
  | None => (m, Ok None)
  | Some raw =>
      if bool_decide (raw = "") then (m, Ok None)
      else match m !! digest raw with
           | Some s =>
               if visible s now
               then (<[digest raw := with_lastUsed now s]> m, Ok (Some (with_lastUsed now s)))
               else (m, Ok None)
           | None => (m, Ok None)
           end
  end.

Definition revokeApplicationSession (rawSessionId : option string) (now : Z) : eff (gmap string ApplicationSession) bool := fun m =>
  match rawSessionId with
  | None => (m, Ok false)
  | Some raw =>
      if bool_decide (raw = "") then (m, Ok false)
      else match m !! digest raw with
           | Some s => (<[digest raw := with_revoked now s]> m, Ok true)
           | None => (m, Ok false)
           end
  end.
End Memory.

(** ** [createRateLimiter] *)

(** One call of the limiter: [attempts] maps a client to its admitted times. *)
Definition limiter (limit windowMs : Z) (key : string) (now : Z) (attempts : gmap string (list Z)) : gmap string (list Z) * bool :=
  let recent := filter (fun item => now - item < windowMs) (default [] (attempts !! key)) in
  if limit <=? Z.of_nat (length recent) then (attempts, false) else (<[key := recent ++ [now]]> attempts, true).

(** ** What a live session proves *)

Section Safety.
Context (digest : string -> string).

Inductive auth_op :=
  | op_exchange (env : ServerEnv) (verify : string -> result VerifiedToken) (request : AuthRequest)
      (now nowVerify nowIssue : Z) (raw csrf : string)
  | op_me (cookie : option string) (now nowTouch : Z)
  | op_logout (cookie csrf header : option string) (now : Z)
  | op_service_exchange (verify : string -> result VerifiedToken) (input : SessionExchangeInput) (now : Z) (raw csrf : string)
  | op_service_read (cookie : option string) (now : Z)
  | op_service_logout (cookie csrf header : option string) (now : Z).

Definition auth_step (d : AuthDb) (op : auth_op) : AuthDb :=
  match op with
  | op_exchange env verify request now nowVerify nowIssue raw csrf =>
      fst (session_route digest env verify request now nowVerify nowIssue raw csrf d)
  | op_me cookie now nowTouch => fst (me_route digest cookie now nowTouch d)
  | op_logout cookie csrf header now => fst (logout_route digest cookie csrf header now d)
  | op_service_exchange verify input now raw csrf => fst (exchangePrivySession digest verify input now raw csrf d)
  | op_service_read cookie now => fst (readSession digest cookie now d)
  | op_service_logout cookie csrf header now => fst (logoutSession digest cookie csrf header now d)
  end.

Definition auth_run (ops : list auth_op) : AuthDb := foldl auth_step (mkAuthDb ∅ ∅) ops.

(** The exchange [op] rests on the verified token [v]. *)
Definition verified_by (op : auth_op) (v : VerifiedToken) : Prop :=
  match op with
  | op_exchange env verify request now nowVerify nowIssue raw csrf =>
      exists body token wallet, rq_json request = Ok body /\ body_text "accessToken" body = Ok (Some token)
        /\ body_text "walletAddress" body = Ok (Some wallet)
        /\ (isE2eTestModeServer env = true /\ token = E2E_TEST_TOKEN /\ v = verifyE2eTestToken wallet nowVerify
            \/ verify token = Ok v)
  | op_service_exchange verify input now raw csrf => verify (se_accessToken input) = Ok v
  | _ => False
  end.

Definition issue_time (op : auth_op) : Z :=
  match op with op_exchange _ _ _ _ _ nowIssue _ _ => nowIssue | op_service_exchange _ _ now _ _ => now | _ => 0 end.

(** [s] is what an exchange at [now] stores for the token [v] under the hash [h]. *)
Record issued (v : VerifiedToken) (now : Z) (h : string) (s : ApplicationSession) : Prop := mkIssued {
  iss_hash : as_idHash s = h;
  iss_user : as_privyUserId s = vt_user_id v;
  iss_wallet : links v (as_walletAddress s) = true;
  iss_created : as_createdAt s = now;
  iss_expiry : as_expiresAt s = Z.min (now + SESSION_TTL_MS) (vt_expiration v * 1000);
}.

(** [op] is a logout of the cookie hashed to [h] that passed the CSRF check. *)
Definition revokes (op : auth_op) (h : string) : Prop :=
  match op with
  | op_logout cookie csrf header now | op_service_logout cookie csrf header now =>
      requireCsrf csrf header = Ok tt /\ exists c, cookie = Some c /\ c ≠ "" /\ digest c = h
  | _ => False
  end.

(** Equal but for the time of last use. *)
Definition same_session (a b : ApplicationSession) : Prop := with_lastUsed 0 a = with_lastUsed 0 b.

#[export] Instance same_session_equivalence : Equivalence same_session.
Proof. unfold same_session. split; [done|by intros ?? ->|by intros ??? -> ->]. Qed.

Lemma same_session_touch n s : same_session (with_lastUsed n s) s.
Proof. done. Qed.

Lemma issued_same v now h a b : same_session a b -> issued v now h a -> issued v now h b.
Proof.
  unfold same_session. destruct a, b. cbn. intros [= -> -> -> -> -> -> ->] []. cbn in *. by split.
Qed.

Lemma same_session_revoked a b : same_session a b -> as_revokedAt a = as_revokedAt b /\ as_expiresAt a = as_expiresAt b.
Proof. unfold same_session. destruct a, b. cbn. by intros [= -> -> -> -> -> -> ->]. Qed.

(** A live row after a step was there before, or the step issued it. *)
Definition keeps (R : string -> ApplicationSession -> Prop) (d d' : AuthDb) : Prop :=
  forall h s, application_sessions d' !! h = Some s -> as_revokedAt s = None ->
    R h s \/ exists s0, application_sessions d !! h = Some s0 /\ same_session s s0.

Lemma keeps_refl R d : keeps R d d.
Proof. intros h s Hs _. right. by exists s. Qed.

Lemma keeps_trans R d1 d2 d3 : (forall h a b, same_session a b -> R h a -> R h b) -> keeps R d1 d2 -> keeps R d2 d3 -> keeps R d1 d3.
Proof.
  intros HR H1 H2 h s Hs Hr. destruct (H2 h s Hs Hr) as [?|(s0 & Hs0 & Hsame)]; [by left|].
  pose proof (same_session_revoked _ _ Hsame) as [Hrev _].
  destruct (H1 h s0 Hs0) as [HRs|(s1 & Hs1 & Hsame1)]; [congruence| |].
  - left. eapply HR; [by symmetry|done].
  - right. exists s1. split; [done|]. by etransitivity.
Qed.

Lemma run_keeps R q d : (forall s, q ≠ sql_insert s) -> keeps R d (fst (d1_run q d)).
Proof.
  intros Hq h s. destruct q as [s0|h0 n|n h0|n h0|n|k n u]; cbn; try by (intros Hs Hr; right; exists s).
  - by destruct (Hq s0).
  - rewrite lookup_alter. destruct (decide (h0 = h)) as [->|Hne]; [|intros Hs Hr; right; by exists s].
    destruct (application_sessions d !! h); cbn; [|done]. by intros [= <-].
  - rewrite lookup_alter. destruct (decide (h0 = h)) as [->|Hne]; [|intros Hs Hr; right; by exists s].
    destruct (application_sessions d !! h) as [s0|]; cbn; [|done]. intros [= <-] Hr. right. exists s0. split; [done|].
    by case_bool_decide.
  - rewrite map_lookup_filter_Some. intros [Hs _] Hr. right. by exists s.
Qed.

Lemma first_sessions q d : application_sessions (fst (d1_first q d)) = application_sessions d.
Proof. destruct q; cbn; try done. destruct (auth_rates d !! key); [|done]. by destruct (_ || _)%bool. Qed.

(** What the exchange [op] may store. *)
Definition issues (op : auth_op) (h : string) (s : ApplicationSession) : Prop :=
  exists v, verified_by op v /\ issued v (issue_time op) h s.

#[local] Instance keeps_preorder op : PreOrder (keeps (issues op)).
Proof.
  split; [intros d; apply keeps_refl|]. intros d1 d2 d3. apply keeps_trans.
  intros h a b Hab (v & Hv & Hi). exists v. split; [done|by eapply issued_same].
Qed.

(** A bind after a lifted result, keeping what the result was. *)
Lemma preserves_lifted op {A B} (r : result A) (f : A -> eff AuthDb B) :
  (forall a, r = Ok a -> preserves (keeps (issues op)) (f a)) -> preserves (keeps (issues op)) (eff_lift r ≫= f).
Proof. intros Hf. destruct r as [a|e]; [by apply Hf|intros d; apply keeps_refl]. Qed.

Lemma preserves_run op q : (forall s, q ≠ sql_insert s) -> preserves (keeps (issues op)) (d1_run q).
Proof. intros Hq d. by apply run_keeps. Qed.

Lemma preserves_first op q : preserves (keeps (issues op)) (d1_first q).
Proof. intros d h s. rewrite first_sessions. intros Hs _. right. by exists s. Qed.

#[local] Hint Extern 1 (preserves (keeps _) (revokeSession _ _ _)) => apply preserves_run; done : frame.
#[local] Hint Extern 1 (preserves (keeps _) (touchSession _ _ _)) => apply preserves_run; done : frame.
#[local] Hint Extern 1 (preserves (keeps _) (cleanupExpiredSessions _)) => apply preserves_run; done : frame.
#[local] Hint Extern 1 (preserves (keeps _) (first _)) => apply preserves_first : frame.

Lemma preserves_lookup op raw now : preserves (keeps (issues op)) (lookupSession digest raw now).
Proof. unfold lookupSession. frame_tac. Qed.
#[local] Hint Resolve preserves_lookup : frame.

Lemma preserves_persist op raw s : issues op (digest raw) (mkAppSession (digest raw) (as_privyUserId s) (as_walletAddress s)
    (as_createdAt s) (as_expiresAt s) (as_lastUsedAt s) (as_revokedAt s) (as_userAgentHash s)) ->
  preserves (keeps (issues op)) (persistSession digest raw s).
Proof.
  intros Hi d h s1. cbn. destruct (application_sessions d !! digest raw); [intros ? _; right; by exists s1|]. cbn.
  destruct (decide (h = digest raw)) as [->|Hne].
  - rewrite lookup_insert_eq. intros [= <-] _. by left.
  - rewrite lookup_insert_ne by done. intros ? _. right. by exists s1.
Qed.

(** The common end of the two exchanges. *)
Lemma preserves_issue op {B} v wallet userAgent nowClean raw (f : string * ApplicationSession -> eff AuthDb B) :
  verified_by op v -> links v wallet = true -> (forall r, preserves (keeps (issues op)) (f r)) ->
  preserves (keeps (issues op))
    (result ← eff_lift (persistentSession digest (vt_user_id v) wallet userAgent (issue_time op) (vt_expiration v * 1000) raw);
     _ ← cleanupExpiredSessions nowClean;
     _ ← persistSession digest (fst result) (snd result);
     f result).
Proof.
  intros Hv Hl Hf. unfold persistentSession. destruct (_ || _)%bool eqn:E; [intros d; apply keeps_refl|].
  set (result := (raw, _)).
  change (preserves (keeps (issues op)) (_ ← cleanupExpiredSessions nowClean; _ ← persistSession digest (fst result) (snd result); f result)).
  apply preserves_bind; [typeclasses eauto|eauto with frame|intros _].
  apply preserves_bind; [typeclasses eauto| |intros _; apply Hf]. apply preserves_persist. exists v. split; [done|]. by split.
Qed.

Lemma exchange_keeps env verify request now nowVerify nowIssue raw csrf d :
  let op := op_exchange env verify request now nowVerify nowIssue raw csrf in
  keeps (issues op) d (auth_step d op).
Proof.
  intros op. revert d. change (preserves (keeps (issues op)) (session_route digest env verify request now nowVerify nowIssue raw csrf)).
  unfold session_route. apply preserves_catch; [typeclasses eauto| |intros e; frame_tac]. unfold session_exchange.
  destruct (_ && _)%bool; [frame_tac|]. apply preserves_bind; [typeclasses eauto|unfold allowSessionExchange; frame_tac|].
  intros []; cbn [negb]; [|frame_tac]. apply preserves_lifted. intros body Ej.
  apply preserves_lifted. intros [token|] Et; (apply preserves_lifted; intros [wallet|] Ew); try (frame_tac; done).
  assert (forall v, verified_by op v -> preserves (keeps (issues op))
    (if negb (links v wallet) then mret (answer 403 (error_body "Wallet not linked"))
     else
       result ← eff_lift (persistentSession digest (vt_user_id v) wallet (rq_userAgent request) (issue_time op) (vt_expiration v * 1000) raw);
       _ ← cleanupExpiredSessions now; _ ← persistSession digest (fst result) (snd result);
       mret (mkAuthResponse 200
               (JObj [("userId", JStr (as_privyUserId (snd result))); ("walletAddress", JStr (as_walletAddress (snd result)))])
               (Some (fst result)) (Some csrf)))) as Htail.
  { intros v Hv. destruct (links v wallet) eqn:El; cbn [negb]; [|frame_tac]. apply preserves_issue; [done|done|intros r; frame_tac]. }
  destruct (isE2eTestModeServer env && bool_decide (token = E2E_TEST_TOKEN)) eqn:Ee.
  - apply andb_true_iff in Ee as [Ee ->%bool_decide_eq_true]. apply (Htail (verifyE2eTestToken wallet nowVerify)).
    exists body, E2E_TEST_TOKEN, wallet. split_and!; try done. by left.
  - apply preserves_lifted. intros v Ev. apply (Htail v). exists body, token, wallet. split_and!; try done. by right.
Qed.

Lemma step_keeps d op : keeps (issues op) d (auth_step d op).
Proof.
  destruct op as [env verify request now nowVerify nowIssue raw csrf|cookie now nowTouch|cookie csrf header now
    |verify input now raw csrf|cookie now|cookie csrf header now].
  - apply exchange_keeps.
  - set (op := op_me _ _ _). revert d. change (preserves (keeps (issues op)) (me_route digest cookie now nowTouch)).
    unfold me_route, readPersistentSession. frame_tac.
  - set (op := op_logout _ _ _ _). revert d. change (preserves (keeps (issues op)) (logout_route digest cookie csrf header now)).
    unfold logout_route. frame_tac.
  - set (op := op_service_exchange _ _ _ _ _). revert d.
    change (preserves (keeps (issues op)) (exchangePrivySession digest verify input now raw csrf)). unfold exchangePrivySession.
    apply preserves_bind; [typeclasses eauto|frame_tac|intros _]. destruct (_ || _)%bool; [frame_tac|].
    apply preserves_lifted. intros v Ev.
    destruct (links v _) eqn:El; cbn [negb]; [|frame_tac]. apply preserves_issue; [done|done|intros r; frame_tac].
  - set (op := op_service_read _ _). revert d. change (preserves (keeps (issues op)) (readSession digest cookie now)).
    unfold readSession. frame_tac.
  - set (op := op_service_logout _ _ _ _). revert d. change (preserves (keeps (issues op)) (logoutSession digest cookie csrf header now)).
    unfold logoutSession. frame_tac.
Qed.

(** After a logout the row of the cookie is revoked or absent. *)
Lemma revoke_kills d op h s :
  revokes op h -> application_sessions (auth_step d op) !! h = Some s -> as_revokedAt s ≠ None.
Proof.
  destruct op; try done; intros (Hc & c & -> & Hne & <-); cbn; unfold logout_route, logoutSession; rewrite Hc; run_eff; cbn;
    rewrite bool_decide_eq_false_2 by done; cbn; rewrite lookup_alter_eq;
    (destruct (application_sessions d !! digest c); [|done]); by intros [= <-].
Qed.

Lemma live_session_issued ops raw now s :
  snd (lookupSession digest raw now (auth_run ops)) = Ok (Some s) ->
  now < as_expiresAt s
  /\ exists before op after v, ops = before ++ op :: after /\ verified_by op v /\ issued v (issue_time op) (digest raw) s
  /\ Forall (fun o => ~ revokes o (digest raw)) after.
Proof.
  intros H. assert (application_sessions (auth_run ops) !! digest raw = Some s /\ as_revokedAt s = None /\ now < as_expiresAt s)
    as (Hs & Hr & Hn).
  { revert H. unfold lookupSession. run_eff. cbn. unfold visible.
    destruct (application_sessions (auth_run ops) !! digest raw) as [s0|]; cbn; [|done].
    destruct (bool_decide _ && _)%bool eqn:E; [|done]. intros [= ->]. apply andb_true_iff in E as [E1%bool_decide_eq_true E2].
    zbool. done. }
  split; [done|]. clear H Hn. revert s Hs Hr. induction ops as [|op ops IH] using rev_ind; intros s Hs Hr; [cbn in Hs; by rewrite lookup_empty in Hs|].
  unfold auth_run in *. rewrite foldl_app in Hs. cbn in Hs.
  destruct (step_keeps _ _ _ _ Hs Hr) as [(v & Hv & Hi)|(s0 & Hs0 & Hsame)].
  - exists ops, op, [], v. by split_and!.
  - pose proof (same_session_revoked _ _ Hsame) as [Hrev _].
    destruct (IH s0 Hs0 ltac:(congruence)) as (before & op' & after & v & -> & Hv & Hi & Hall).
    exists before, op', (after ++ [op]), v. split_and!; try done.
    + by rewrite <- app_assoc.
    + by eapply issued_same.
    + apply Forall_app. split; [done|]. constructor; [|constructor]. intros Hk. by apply (revoke_kills _ _ _ _ Hk Hs).
Qed.

(** C31. A live application session is backed by a verified identity.  Over any
    history of exchanges, reads and logouts, a cookie that is accepted at [now]
    has not expired, and it was issued by an exchange of that history: to a user
    Privy verified (or the fixed test identity, outside production only), for a
    wallet linked to that user, with an expiry of at most one hour and at most
    the token's own; and no logout of the cookie passed the CSRF check since. *)
Theorem app_session_safety ops raw now s :
  snd (lookupSession digest raw now (auth_run ops)) = Ok (Some s) ->
  now < as_expiresAt s
  /\ exists before op after v, ops = before ++ op :: after /\ verified_by op v /\ issued v (issue_time op) (digest raw) s
  /\ Forall (fun o => ~ revokes o (digest raw)) after.
Proof. apply live_session_issued. Qed.
End Safety.

(** A user whose wallet is linked signs in and is still signed in a second later. *)
Definition sample_verify (token : string) : result VerifiedToken :=
  if bool_decide (token = "token") then Ok (mkVerified "user" 5000 (Some ["wallet"])) else Throw "invalid token".
Definition sample_env : ServerEnv := mkServerEnv (Some "production") None.
Definition sample_request : AuthRequest :=
  mkAuthRequest (Some "https://a") "https://a" (Ok (JObj [("accessToken", JStr "token"); ("walletAddress", JStr "wallet")])) None.
Definition sample_signin : list auth_op := [op_exchange sample_env sample_verify sample_request 1000 1000 1001 "raw" "csrf"].
Definition sample_digest (s : string) : string := "hash of " +:+ s.
Definition sample_app_session : ApplicationSession :=
  mkAppSession "hash of raw" "user" "wallet" 1001 3601001 1001 None "hash of ".

Lemma app_session_safety_witness : 2000 < as_expiresAt sample_app_session.
Proof.
  refine (proj1 (app_session_safety sample_digest sample_signin "raw" 2000 sample_app_session _)).
  vm_compute. reflexivity.
Defined.

(** ** The stand-in answers like D1 *)

(** One operation on either database, with its answer. *)
Inductive auth_answer :=
  | ans_response (r : AuthResponse) | ans_issued (cookie : string) (s : ApplicationSession) (csrf : string)
  | ans_session (s : option ApplicationSession) | ans_done.

Section Operations.
Context (digest : string -> string) {D : Type} `{SessionDatabase D}.

Definition auth_do (op : auth_op) : eff D auth_answer :=
  match op with
  | op_exchange env verify request now nowVerify nowIssue raw csrf =>
      r ← session_route digest env verify request now nowVerify nowIssue raw csrf; mret (ans_response r)
  | op_me cookie now nowTouch => r ← me_route digest cookie now nowTouch; mret (ans_response r)
  | op_logout cookie csrf header now => r ← logout_route digest cookie csrf header now; mret (ans_response r)
  | op_service_exchange verify input now raw csrf =>
      r ← exchangePrivySession digest verify input now raw csrf; mret (ans_issued (fst (fst r)) (snd (fst r)) (snd r))
  | op_service_read cookie now => r ← readSession digest cookie now; mret (ans_session r)
  | op_service_logout cookie csrf header now => _ ← logoutSession digest cookie csrf header now; mret ans_done
  end.

Fixpoint auth_answers (ops : list auth_op) (d : D) : list (result auth_answer) :=
  match ops with
  | [] => []
  | op :: rest => let '(d', r) := auth_do op d in r :: auth_answers rest d'
  end.
End Operations.

Section StandIn.
Context (digest : string -> string).
(** A SHA-256 digest in hexadecimal has 64 digits, so it is not the decimal form
    of a time stamp. *)
Hypothesis digest_not_decimal : forall (raw : string) (n : Z), isSafeInteger n = true -> digest raw ≠ pretty n.

(** Rows agree, but for the last use of a revoked one. *)
Definition agree (a b : ApplicationSession) : Prop := same_session a b /\ (as_revokedAt a = None -> a = b).

Definition row_agree (a b : option ApplicationSession) : Prop :=
  match a, b with Some a, Some b => agree a b | None, None => True | _, _ => False end.

Record simulates (d : AuthDb) (e : DevDb) : Prop := mkSimulates {
  sim_rows : forall h, row_agree (application_sessions d !! h) (developmentRows e !! h);
  sim_keys : forall h, is_Some (developmentRows e !! h) -> exists raw, h = digest raw;
  sim_rates : forall k, (fun r => (ar_count r, ar_expires_at r)) <$> auth_rates d !! k = developmentRateLimits e !! k;
}.

Lemma agree_refl a : agree a a.
Proof. by split. Qed.

(** The branches the stand-in takes for each statement, computed from the text. *)
Lemma dev_first_lookup h now e :
  dev_first (sql_lookup h now) e =
  (e, Ok (match developmentRows e !! h with Some row => if visible row now then Some (row_session row) else None | None => None end)).
Proof. done. Qed.

Lemma dev_first_rate k now u e :
  dev_first (sql_rate k now u) e =
  match developmentRateLimits e !! k with
  | Some (count, until) =>
      if until <=? now then (mkDevDb (developmentRows e) (<[k := (1, u)]> (developmentRateLimits e)), Ok (Some (row_count 1)))
      else if 10 <=? count then (e, Ok None)
      else (mkDevDb (developmentRows e) (<[k := (count + 1, until)]> (developmentRateLimits e)), Ok (Some (row_count (count + 1))))
  | None => (mkDevDb (developmentRows e) (<[k := (1, u)]> (developmentRateLimits e)), Ok (Some (row_count 1)))
  end.
Proof. done. Qed.

(** A revocation runs both update branches: the second one looks for a row whose
    key is the time stamp. *)
Lemma dev_run_revoke now h e :
  dev_run (sql_revoke now h) e =
  (on_rows (alter (with_lastUsed now) (pretty now)) (on_rows (alter (fun row => with_lastUsed now (with_revoked now row)) h) e), Ok tt).
Proof. done. Qed.

Lemma dev_run_touch now h e : dev_run (sql_touch now h) e = (on_rows (alter (with_lastUsed now) h) e, Ok tt).
Proof. done. Qed.

Lemma dev_run_cleanup now e :
  dev_run (sql_cleanup now) e = (on_rows (filter (fun '(_, row) => ~ as_expiresAt row <= now)) e, Ok tt).
Proof. done. Qed.

Lemma dev_run_insert s e : dev_run (sql_insert s) e = (on_rows (insert (as_idHash s) s) e, Ok tt).
Proof. unfold dev_run, on_rows. cbn. by destruct s as [? ? ? ? ? ? []]. Qed.

(** [m] on D1 and [n] on the stand-in, from related states with [P]: the same
    answer and related states with [Q]. *)
Definition bisim {A} (P Q : AuthDb -> Prop) (m : eff AuthDb A) (n : eff DevDb A) : Prop := forall d e,
  simulates d e -> P d -> simulates (fst (m d)) (fst (n e)) /\ Q (fst (m d)) /\ snd (m d) = snd (n e).

Lemma bisim_ret {A} P (a : A) : bisim P P (mret a) (mret a).
Proof. done. Qed.
Lemma bisim_lift {A} P (r : result A) : bisim P P (eff_lift r) (eff_lift r).
Proof. done. Qed.
Lemma bisim_throw {A} P e : bisim P P (eff_throw e : eff AuthDb A) (eff_throw e).
Proof. done. Qed.

Lemma bisim_bind {A B} P Q R (m : eff AuthDb A) n (f : A -> eff AuthDb B) g :
  bisim P Q m n -> (forall a, bisim Q R (f a) (g a)) -> (forall d, Q d -> R d) -> bisim P R (m ≫= f) (n ≫= g).
Proof.
  intros Hm Hf HQ d e Hs HP. destruct (Hm d e Hs HP) as (Hs1 & HQ1 & Hr). unfold mbind, eff_bind.
  destruct (m d) as [d1 r1], (n e) as [e1 r2]. cbn in *. subst r2. destruct r1 as [a|x]; [by apply Hf|]. cbn.
  split_and!; [done|by apply HQ|done].
Qed.

Lemma bisim_catch {A} P Q (m : eff AuthDb A) n h k :
  bisim P Q m n -> (forall e, bisim Q Q (h e) (k e)) -> bisim P Q (eff_catch m h) (eff_catch n k).
Proof.
  intros Hm Hf d e Hs HP. destruct (Hm d e Hs HP) as (Hs1 & HQ1 & Hr). unfold eff_catch.
  destruct (m d) as [d1 r1], (n e) as [e1 r2]. cbn in *. subst r2. destruct r1 as [a|x]; [done|by apply Hf].
Qed.

Lemma bisim_weaken {A} P Q P' Q' (m : eff AuthDb A) n :
  (forall d, P' d -> P d) -> (forall d, Q d -> Q' d) -> bisim P Q m n -> bisim P' Q' m n.
Proof. intros HP HQ Hm d e Hs H. destruct (Hm d e Hs (HP d H)) as (? & ? & ?). auto. Qed.

Definition anything (d : AuthDb) : Prop := True.
Definition fresh (raw : string) (d : AuthDb) : Prop := application_sessions d !! digest raw = None.

Lemma row_agree_visible a b now : row_agree a b ->
  (match a with Some s => if visible s now then Some (row_session s) else None | None => None end)
  = (match b with Some s => if visible s now then Some (row_session s) else None | None => None end).
Proof.
  destruct a as [a|], b as [b|]; try done. cbn. intros [[Hrev Hexp]%same_session_revoked Heq].
  unfold visible. rewrite <- Hrev, <- Hexp. case_bool_decide; [|done]. by rewrite Heq.
Qed.

Lemma bisim_lookup P raw now : bisim P P (lookupSession digest raw now) (lookupSession digest raw now).
Proof.
  intros d e Hs HP. unfold lookupSession. run_eff. cbn [first d1_database dev_database].
  rewrite dev_first_lookup. cbn [d1_first fst snd]. split_and!; [done|done|].
  by rewrite (row_agree_visible _ _ now (sim_rows _ _ Hs (digest raw))).
Qed.

Lemma bisim_rate raw key now u : bisim (fresh raw) (fresh raw) (first (sql_rate key now u)) (first (sql_rate key now u)).
Proof.
  intros d e Hs HP. cbn [first d1_database dev_database]. rewrite dev_first_rate. cbn [d1_first].
  pose proof (sim_rates _ _ Hs key) as Hk.
  assert (forall w c t, simulates (on_rates (insert key (mkAuthRate w c t)) d)
    (mkDevDb (developmentRows e) (<[key := (c, t)]> (developmentRateLimits e)))) as Hins.
  { intros w c t. split; [apply Hs|apply Hs|]. intros k. cbn. destruct (decide (k = key)) as [->|Hne].
    - by rewrite !lookup_insert_eq.
    - rewrite !lookup_insert_ne by done. apply Hs. }
  destruct (auth_rates d !! key) as [r|], (developmentRateLimits e !! key) as [[c t]|]; try done; [|split_and!; [apply Hins|done|done]].
  cbn in Hk. injection Hk as <- <-. destruct (ar_expires_at r <=? now); [split_and!; [apply Hins|done|done]|]. cbn [orb].
  rewrite Z.ltb_antisym. destruct (10 <=? ar_count r); cbn [negb]; split_and!; try done. apply Hins.
Qed.

Lemma row_agree_alter f g h k (m n : gmap string ApplicationSession) :
  (forall a b, agree a b -> agree (f a) (g b)) -> row_agree (m !! k) (n !! k) -> row_agree (alter f h m !! k) (alter g h n !! k).
Proof.
  intros Hfg Hk. rewrite !lookup_alter. destruct (decide (h = k)) as [->|Hne]; [|done].
  destruct (m !! k), (n !! k); try done. by apply Hfg.
Qed.

Lemma bisim_touch raw now : bisim anything anything (touchSession digest raw now) (touchSession digest raw now).
Proof.
  intros d e Hs _. unfold touchSession. cbn [run d1_database dev_database]. rewrite dev_run_touch. cbn [d1_run fst snd].
  split_and!; [|done|done]. split; [| |apply Hs].
  - intros k. apply row_agree_alter; [|apply Hs]. intros a b [Hsame Heq].
    pose proof (same_session_revoked _ _ Hsame) as [Hrev _]. case_bool_decide as Ha.
    + rewrite Heq by done. apply agree_refl.
    + split; [done|]. done.
  - intros k. cbn. rewrite lookup_alter. destruct (decide (digest raw = k)) as [<-|]; [by eexists|apply Hs].
Qed.

Lemma bisim_revoke raw now : isSafeInteger now = true ->
  bisim anything anything (revokeSession digest raw now) (revokeSession digest raw now).
Proof.
  intros Hnow d e Hs _. unfold revokeSession. cbn [run d1_database dev_database]. rewrite dev_run_revoke. cbn [d1_run fst snd].
  assert (developmentRows e !! pretty now = None) as Hnone.
  { destruct (developmentRows e !! pretty now) eqn:E; [|done]. destruct (sim_keys _ _ Hs (pretty now)) as [r Hr]; [by eexists|].
    by destruct (digest_not_decimal r now Hnow). }
  assert (forall f : ApplicationSession -> ApplicationSession, alter (with_lastUsed now) (pretty now) (alter f (digest raw) (developmentRows e))
    = alter f (digest raw) (developmentRows e)) as Hid.
  { intros f. apply map_eq. intros k. rewrite lookup_alter. destruct (decide (pretty now = k)) as [<-|]; [|done].
    rewrite lookup_alter_ne by (by apply digest_not_decimal). by rewrite Hnone. }
  split_and!; [|done|done]. split; [| |apply Hs]; unfold on_rows; cbn [developmentRows application_sessions on_sessions]; intros k; rewrite Hid.
  - apply row_agree_alter; [|apply Hs]. intros [] [] [Hsame _]. unfold same_session in Hsame. cbn in Hsame.
    injection Hsame as -> -> -> -> -> -> ->. by split.
  - rewrite lookup_alter. destruct (decide (digest raw = k)) as [<-|]; [by eexists|apply Hs].
Qed.

Lemma filter_lookup (P : ApplicationSession -> Prop) `{!forall s, Decision (P s)} (m : gmap string ApplicationSession) k :
  filter (fun '(_, s) => P s) m !! k = (m !! k) ≫= (fun s => if decide (P s) then Some s else None).
Proof.
  destruct (m !! k) as [s|] eqn:E; cbn.
  - case_decide; [by apply map_lookup_filter_Some|]. apply map_lookup_filter_None. right. intros s' Hs'. by simplify_eq.
  - apply map_lookup_filter_None. by left.
Qed.

Lemma bisim_cleanup raw now : bisim (fresh raw) (fresh raw) (cleanupExpiredSessions now) (cleanupExpiredSessions now).
Proof.
  intros d e Hs HP. unfold cleanupExpiredSessions. cbn [run d1_database dev_database]. rewrite dev_run_cleanup. cbn [d1_run fst snd].
  split_and!; [|unfold fresh in *; cbn; by rewrite filter_lookup, HP|done]. split; [| |apply Hs].
  - intros k. cbn. rewrite !filter_lookup. pose proof (sim_rows _ _ Hs k) as Hk.
    destruct (application_sessions d !! k) as [a|], (developmentRows e !! k) as [b|]; try done. cbn.
    destruct Hk as [Hsame Heq]. pose proof (same_session_revoked _ _ Hsame) as [_ Hexp]. rewrite <- Hexp. by case_decide.
  - intros k. cbn. rewrite filter_lookup. intros Hk. apply Hs. destruct (developmentRows e !! k); [by eexists|by destruct Hk].
Qed.

Lemma bisim_persist raw s : bisim (fresh raw) anything (persistSession digest raw s) (persistSession digest raw s).
Proof.
  intros d e Hs HP. unfold persistSession. cbn [run d1_database dev_database]. rewrite dev_run_insert. cbn [d1_run as_idHash].
  unfold fresh in HP. rewrite HP. cbn [fst snd]. split_and!; [|done|done]. split; [| |apply Hs]; intros k; cbn.
  - destruct (decide (k = digest raw)) as [->|]; [rewrite !lookup_insert_eq; apply agree_refl|].
    rewrite !lookup_insert_ne by done. apply Hs.
  - destruct (decide (k = digest raw)) as [->|]; [by eexists|]. rewrite lookup_insert_ne by done. apply Hs.
Qed.

Create HintDb bisim.
#[local] Hint Resolve bisim_ret bisim_lift bisim_throw bisim_lookup bisim_touch bisim_revoke : bisim.

(** Follows the structure of both sides. *)
Ltac bisim_tac :=
  repeat first
    [ solve [eauto with bisim]
    | match goal with
      | |- bisim _ _ (mbind _ _) (mbind _ _) => eapply bisim_bind; [| intros |done]
      | |- bisim _ _ (if ?b then _ else _) _ => destruct b
      | |- bisim _ _ (match ?o with Some _ => _ | None => _ end) _ => destruct o
      end ].

Lemma bisim_lifted {A B} P R (r : result A) (f : A -> eff AuthDb B) g :
  (forall a, r = Ok a -> bisim P R (f a) (g a)) -> (forall d, P d -> R d) -> bisim P R (eff_lift r ≫= f) (eff_lift r ≫= g).
Proof. intros Hf HR. destruct r as [a|x]; [by apply Hf|]. intros d e Hs HP. split_and!; [done|by apply HR|done]. Qed.

(** The common end of the two exchanges. *)
Lemma bisim_issue {B} raw user wallet userAgent now expiry nowClean (f : string * ApplicationSession -> B) :
  let r := persistentSession digest user wallet userAgent now expiry raw in
  bisim (fresh raw) anything
    (result ← eff_lift r; _ ← cleanupExpiredSessions nowClean; _ ← persistSession digest (fst result) (snd result); mret (f result))
    (result ← eff_lift r; _ ← cleanupExpiredSessions nowClean; _ ← persistSession digest (fst result) (snd result); mret (f result)).
Proof.
  intros r. apply bisim_lifted; [|done]. intros x Hx.
  assert (fst x = raw) as -> by (revert Hx; unfold r, persistentSession; destruct (_ || _)%bool; [done|by intros [= <-]]).
  apply (bisim_bind _ (fresh raw)); [apply bisim_cleanup|intros _|done].
  apply (bisim_bind _ anything); [apply bisim_persist|intros _; apply bisim_ret|done].
Qed.

Lemma bisim_any {A} P (m : eff AuthDb A) n : bisim P P m n -> bisim P anything m n.
Proof. by apply bisim_weaken. Qed.

Lemma bisim_given {A} (C : Prop) (m : eff AuthDb A) n : (C -> bisim anything anything m n) -> bisim (fun _ => C) anything m n.
Proof. intros H d e Hs HC. by apply (H HC). Qed.

Lemma bisim_exchange env verify request now nowVerify nowIssue raw csrf :
  bisim (fresh raw) anything (session_route digest env verify request now nowVerify nowIssue raw csrf)
    (session_route digest env verify request now nowVerify nowIssue raw csrf).
Proof.
  unfold session_route. apply bisim_catch; [|intros e; apply bisim_ret]. unfold session_exchange.
  destruct (_ && _)%bool; [apply bisim_any, bisim_ret|]. apply (bisim_bind _ (fresh raw)); [| |done].
  { destruct (isE2eTestModeServer env); [apply bisim_ret|]. unfold allowSessionExchange. destruct (_ || _)%bool; [apply bisim_throw|].
    apply (bisim_bind _ (fresh raw)); [apply bisim_rate|intros ?; apply bisim_ret|done]. }
  intros allowed. destruct (negb allowed); [apply bisim_any, bisim_ret|].
  do 3 (apply bisim_lifted; [intros ? _|done]). destruct a0, a1; try apply bisim_any, bisim_ret.
  apply (bisim_bind _ (fresh raw)); [| |done]; [destruct (_ && _)%bool; [apply bisim_ret|apply bisim_lift]|].
  intros v. destruct (negb _); [apply bisim_any, bisim_ret|apply bisim_issue].
Qed.

Lemma bisim_service_exchange verify input now raw csrf :
  bisim (fresh raw) anything (exchangePrivySession digest verify input now raw csrf) (exchangePrivySession digest verify input now raw csrf).
Proof.
  unfold exchangePrivySession. apply bisim_lifted; [intros _ _|done]. destruct (_ || _)%bool; [apply bisim_any, bisim_throw|].
  apply bisim_lifted; [intros v _|done]. destruct (negb _); [apply bisim_any, bisim_throw|apply bisim_issue].
Qed.

(** An exchange draws an identifier not in use; a logout happens at a time that
    is a safe integer. *)
Definition admissible (op : auth_op) (d : AuthDb) : Prop :=
  match op with
  | op_exchange _ _ _ _ _ _ raw _ | op_service_exchange _ _ _ raw _ => fresh raw d
  | op_logout _ _ _ now | op_service_logout _ _ _ now => isSafeInteger now = true
  | _ => True
  end.

Lemma bisim_do op d e : simulates d e -> admissible op d ->
  simulates (fst (auth_do digest op d)) (fst (auth_do digest op e)) /\ snd (auth_do digest op d) = snd (auth_do digest op e).
Proof.
  intros Hs Ha. assert (bisim (admissible op) anything (auth_do digest op) (auth_do digest op)) as Hb.
  2: { destruct (Hb d e Hs Ha) as (? & _ & ?). done. }
  destruct op; cbn [auth_do admissible]; (apply (bisim_bind _ anything); [|intros ?; apply bisim_ret|done]).
  - apply bisim_exchange.
  - unfold me_route, readPersistentSession. bisim_tac.
  - apply bisim_given. intros Hnow. unfold logout_route. destruct (requireCsrf csrf header); bisim_tac.
  - apply bisim_service_exchange.
  - unfold readSession. bisim_tac.
  - apply bisim_given. intros Hnow. unfold logoutSession. bisim_tac.
Qed.

Fixpoint admissible_run (ops : list auth_op) (d : AuthDb) : Prop :=
  match ops with
  | [] => True
  | op :: rest => admissible op d /\ admissible_run rest (fst (auth_do digest op d))
  end.

(** The in-process database answers like D1.  Over any sequence of session
    exchanges, reads and logouts in which every new identifier is unused, the
    stand-in that serves development returns exactly the answers, the cookies,
    the rate limiting and the errors of the SQL statements on D1, although it
    picks its action by inspecting the statement's text, and runs two of its
    branches for a revocation. *)
Theorem stand_in_refines_d1 ops : forall d e,
  simulates d e -> admissible_run ops d -> auth_answers digest ops e = auth_answers digest ops d.
Proof.
  induction ops as [|op ops IH]; intros d e Hs Ha; [done|]. cbn in *. destruct Ha as [Ha Hrest].
  destruct (bisim_do op d e Hs Ha) as [Hs' Hr]. destruct (auth_do digest op d) as [d1 r1], (auth_do digest op e) as [e1 r2]. cbn in *.
  rewrite Hr. f_equal. by apply IH.
Qed.

Lemma simulates_empty : simulates (mkAuthDb ∅ ∅) (mkDevDb ∅ ∅).
Proof.
  split; cbn; [by intros h; rewrite !lookup_empty|intros h|by intros k; rewrite !lookup_empty]. rewrite lookup_empty. by intros [].
Qed.
End StandIn.

(** Decimal numerals do not start with a letter, so [sample_digest] is a digest
    of the kind assumed. *)
Lemma numeral_no_letter x s t : s ≠ ("h" +:+ t) -> pretty.pretty_N_go x s ≠ "h" +:+ t.
Proof.
  revert s. induction (N.lt_wf_0 x) as [x _ IH]. intros s Hs. destruct (decide (x = 0%N)) as [->|Hx].
  - by rewrite pretty.pretty_N_go_0.
  - rewrite pretty.pretty_N_go_step by lia. apply IH; [apply N.div_lt; lia|]. unfold pretty.pretty_N_char. by repeat case_match.
Qed.

Lemma sample_digest_ok raw n : isSafeInteger n = true -> sample_digest raw ≠ pretty n.
Proof.
  intros _ H. symmetry in H. unfold sample_digest in H. revert H. destruct n as [|p|p]; [done| |done].
  change (pretty (Z.pos p)) with (pretty.pretty_N_go (N.pos p) ""). by apply numeral_no_letter.
Qed.

Definition sample_history : list auth_op :=
  sample_signin ++ [op_me (Some "raw") 1500 1500; op_logout (Some "raw") (Some "csrf") (Some "csrf") 1600; op_me (Some "raw") 1700 1700].

Lemma stand_in_refines_d1_witness :
  auth_answers sample_digest sample_history (mkDevDb ∅ ∅) = auth_answers sample_digest sample_history (mkAuthDb ∅ ∅).
Proof.
  apply (stand_in_refines_d1 sample_digest sample_digest_ok); [apply simulates_empty|].
  cbn [admissible_run sample_history sample_signin app admissible]. split_and!; try exact I; vm_compute; reflexivity.
Defined.

(** ** The sliding-window limiter *)

(** The calls of one client, with what was admitted. *)
Fixpoint limiter_calls (limit windowMs : Z) (key : string) (times : list Z) (attempts : gmap string (list Z))
    : gmap string (list Z) * list Z :=
  match times with
  | [] => (attempts, [])
  | t :: rest =>
      let '(a, ok) := limiter limit windowMs key t attempts in
      let '(a, granted) := limiter_calls limit windowMs key rest a in
      (a, if ok then t :: granted else granted)
  end.

(** The admitted times still inside the window that ends at [t]. *)
Definition in_window (windowMs t : Z) (granted : list Z) : list Z := filter (fun item => t - item < windowMs) granted.

Lemma in_window_idem windowMs t t' l : t <= t' -> in_window windowMs t' (in_window windowMs t l) = in_window windowMs t' l.
Proof.
  intros Ht. unfold in_window. induction l as [|x l IH]; [done|]. rewrite !list.filter_cons.
  destruct (decide (t - x < windowMs)), (decide (t' - x < windowMs)); rewrite ?list.filter_cons, ?decide_True, ?decide_False by done;
    rewrite ?IH; try done; lia.
Qed.

(** What is stored for the client gives every later window what the admitted
    times give it. *)
Lemma limiter_calls_stored limit windowMs key times : forall attempts t,
  StronglySorted Z.le (times ++ [t]) ->
  let '(a, granted) := limiter_calls limit windowMs key times attempts in
  in_window windowMs t (default [] (a !! key)) = in_window windowMs t (default [] (attempts !! key) ++ granted).
Proof.
  induction times as [|t0 rest IH]; intros attempts t Hsorted; cbn; [by rewrite app_nil_r|].
  inversion Hsorted as [|? ? Hrest Hle]; subst. apply Forall_app in Hle as [_ Hle]. inversion Hle; subst.
  unfold limiter. fold (in_window windowMs t0 (default [] (attempts !! key))).
  destruct (limit <=? Z.of_nat (length (in_window windowMs t0 (default [] (attempts !! key))))); cbn -[limiter_calls].
  - specialize (IH attempts t Hrest). by destruct (limiter_calls _ _ _ _ _).
  - specialize (IH (<[key := in_window windowMs t0 (default [] (attempts !! key)) ++ [t0]]> attempts) t Hrest).
    destruct (limiter_calls _ _ _ _ _) as [a granted]. rewrite IH, lookup_insert_eq. cbn [default].
    unfold id. rewrite <- app_assoc. unfold in_window at 1 3. rewrite !list.filter_app. f_equal; [by apply in_window_idem|by rewrite <- list.filter_app].
Qed.

(** The sliding-window limiter is exact.  For calls of one client in order of
    time, a call is admitted if and only if fewer than [limit] calls were admitted
    in the window that ends with it, although only a pruned list of times is
    kept. *)
Theorem limiter_exact limit windowMs key times t :
  StronglySorted Z.le (times ++ [t]) ->
  let '(a, granted) := limiter_calls limit windowMs key times ∅ in
  snd (limiter limit windowMs key t a) = (Z.of_nat (length (in_window windowMs t granted)) <? limit).
Proof.
  intros Hs. pose proof (limiter_calls_stored limit windowMs key times ∅ t Hs) as H.
  destruct (limiter_calls limit windowMs key times ∅) as [a granted]. rewrite lookup_empty in H. change (default [] None ++ granted) with granted in H.
  unfold limiter. fold (in_window windowMs t (default [] (a !! key))). rewrite H, Z.ltb_antisym. by case_match.
Qed.

Lemma limiter_exact_witness :
  snd (limiter 2 100 "k" 120 (fst (limiter_calls 2 100 "k" [0; 10; 50; 105] ∅))) = true.
Proof.
  refine (limiter_exact 2 100 "k" [0; 10; 50; 105] 120 _). repeat constructor; lia.
Defined.
