(* ===== verification/RelayRoute.v ===== *)
(** * The session relay, end to end

    The two HTTP handlers a browser order passes through: the same-origin proxy
    (app/api/relay/session/route.ts) on the application's session store, and the
    worker's [POST /v1/relay/session] (workers/src/index.ts), which composes the
    rate limiter, the transaction checks, the identity check and the on-chain
    session check of the other files.  The chain, Privy, the kit library and the
    signature scheme are parameters. *)

From S2P Require Import Prelude Json Bytes ExecutionStatus Repositories V3Market Keepers EventDecoder ChainTransports Auth Transactions Relay Signers.

(** ** The worker's handler *)

(** The body's declared fields. *)
Record RelayHttpBody := mkRelayHttpBody {
  hb_transactionBase64 : option string; hb_sessionSignerAddress : option string; hb_ownerWallet : option string;
  hb_expectedMarket : option string; hb_domain : option string }.

Record RelayHttpRequest := mkRelayHttp {
  hr_serviceToken : option string;   (** x-equinox-relayer-service-token *)
  hr_authorization : option string;
  hr_ip : option string;             (** cf-connecting-ip *)
  hr_body : option RelayHttpBody }.

Record RelayHttpEnv := mkRelayHttpEnv {
  RELAYER_SERVICE_TOKEN : option string; E2E_TEST_MODE : option string; ENVIRONMENT : option string;
  PRIVY_APP_ID : option string; PRIVY_APP_SECRET : option string; RELAYER_KEYPAIR_JSON : option string;
  env_MAGIC_ROUTER_URL : option string; env_MAGICBLOCK_RPC_URL : option string; env_SOLANA_RPC_URL : option string;
  has_bindings : bool }.

Record HttpResponse := mkHttp { http_status : Z; http_body : json }.
Definition http_error (e : string) (status : Z) : HttpResponse := mkHttp status (JObj [("error", JStr e)]).

(** [account.value]: the owner and, when there is data, its Base64 text. *)
Record AccountInfo := mkAccountInfo { ai_owner : string; ai_data : option string }.

(** The header ["Bearer "] and the rest. *)
Definition bearer_token (header : option string) : option string :=
  match header with
  | Some h => if String.prefix "Bearer " h then Some (String.substring 7 (String.length h - 7) h) else None
  | None => None
  end.

Section Worker.
Context (pf : RelayPlatform) (base58 : list Z -> string) (EQUINOX_PROGRAM_ID : string).
(** The key material of the relayer, as in signer.ts. *)
Context (JSON_parse : string -> option json) (ed25519_public : list Z -> list Z) (ed25519_sign : list Z -> list Z -> list Z).
(** Privy, the wire encoding and the transports. *)
Context (verifyPrivy : string -> result PrivyClaims) (encodeWire : WireTransaction -> string).
Context (account : Domain -> string -> result (option AccountInfo)) (isBlockhashValid : Domain -> string -> result bool)
  (send_to : Domain -> string -> result string).
Context (clock : nat -> Z).

Definition now_eff : eff World Z := fun w => (mkWorld (db w) (S (reads w)) (sent w), Ok (clock (reads w))).

(** Lines 457 to 473: the service token, the user's token, and whether the test
    bypass applies. *)
Definition authenticate (env : RelayHttpEnv) (r : RelayHttpRequest) : HttpResponse + (string * bool) :=
  match present (RELAYER_SERVICE_TOKEN env) with
  | None => inl (http_error "relayer_service_unconfigured" 503)
  | Some serviceToken =>
      if negb (bool_decide (hr_serviceToken r = Some serviceToken)) then inl (http_error "unauthorized" 401)
      else match bearer_token (hr_authorization r) with
      | None => inl (http_error "unauthorized" 401)
      | Some privyToken =>
          let e2eTestMode := bool_decide (E2E_TEST_MODE env = Some "1") && negb (bool_decide (ENVIRONMENT env = Some "production"))
                             && bool_decide (privyToken = E2E_TEST_TOKEN) in
          if negb e2eTestMode && (bool_decide (present (PRIVY_APP_ID env) = None) || bool_decide (present (PRIVY_APP_SECRET env) = None))
          then inl (http_error "privy_unconfigured" 503)
          else inr (privyToken, e2eTestMode)
      end
  end.

Record RelayFieldsIn := mkFieldsIn { fi_tx : string; fi_signer : string; fi_owner : string; fi_market : string; fi_domain : Domain }.

(** Lines 474 to 487. *)
Definition parse_body (body : option RelayHttpBody) : HttpResponse + RelayFieldsIn :=
  match body with
  | None => inl (http_error "invalid_request" 400)
  | Some b =>
      match present (hb_transactionBase64 b), present (hb_sessionSignerAddress b), present (hb_ownerWallet b), present (hb_expectedMarket b) with
      | Some tx, Some signer, Some owner, Some market =>
          match hb_domain b with
          | None => inr (mkFieldsIn tx signer owner market L1)
          | Some d =>
              if bool_decide (d = "l1") then inr (mkFieldsIn tx signer owner market L1)
              else if bool_decide (d = "er") then inr (mkFieldsIn tx signer owner market ER)
              else inl (http_error "invalid_domain" 400)
          end
      | _, _, _, _ => inl (http_error "invalid_request" 400)
      end
  end.

(** One limiter call: [new ProtocolRepository(bindings(env).DB).allow(...)]. *)
Definition allow_call (env : RelayHttpEnv) (key : string) (limit : Z) : eff World bool :=
  if negb (has_bindings env) then eff_throw "Required storage bindings are unavailable"
  else now ← now_eff; on_db (ProtocolRepository.allow key limit 60000 now).

(** Lines 490 to 496: the three limits, each only if the previous one allowed. *)
Definition relay_limits (env : RelayHttpEnv) (ip owner signer : string) : eff World bool :=
  a ← allow_call env ("relay:" +:+ ip) 30;
  if negb a then mret false
  else
    b ← allow_call env ("relay:" +:+ owner) 60;
    if negb b then mret false else allow_call env ("relay:" +:+ signer) 30.

(** Lines 503 to 505: the endpoint of the transport, whose constructor checks it. *)
Definition relay_endpoint (env : RelayHttpEnv) (d : Domain) : result unit :=
  let first := match d with
    | ER => match env_MAGIC_ROUTER_URL env with
            | Some u => Some u
            | None => match env_MAGICBLOCK_RPC_URL env with Some u => Some u | None => env_SOLANA_RPC_URL env end
            end
    | L1 => env_SOLANA_RPC_URL env end in
  valid_endpoint (default "undefined" first).

(** Lines 511 to 514. *)
Definition shape_request (f : RelayFieldsIn) : RelayRequest :=
  mkRelayRequest (fi_tx f) EQUINOX_PROGRAM_ID (fi_signer f) (Some (fi_market f)) (Some (fi_owner f)) (Some (isBlockhashValid (fi_domain f))).

(** Lines 524 to 529. *)
Definition relay_identity (env : RelayHttpEnv) (token : string) (e2e : bool) (owner : string) : string + string :=
  if e2e then verifyPrivyToken (fun _ => Ok (mkClaims "e2e-test-user" (Some "e2e") [owner])) token "e2e" owner
  else verifyPrivyToken verifyPrivy token (default "" (PRIVY_APP_ID env)) owner.

(** [transport.account(...).catch(() => null)] and its data. *)
Definition account_or_null (d : Domain) (addr : string) : option AccountInfo :=
  match account d addr with Ok a => a | Throw _ => None end.
Definition decode_data (text : string) : result (list Z) :=
  match atob text with Some bs => Ok bs | None => Throw "InvalidCharacterError" end.

(** Lines 535 to 547: the market's bytes and, for a V3 market, its core and seat. *)
Definition relay_market (f : RelayFieldsIn) (seatIndex : Z)
    : result (HttpResponse + (list Z * option (V3CoreState * option V3SeatPositionState))) :=
  match account_or_null (fi_domain f) (fi_market f) with
  | Some (mkAccountInfo owner (Some data)) =>
      marketBytes ← decode_data data;
      match decodeV3Core base58 marketBytes with
      | None => Ok (inr (marketBytes, None))
      | Some core =>
          if negb (bool_decide (owner = EQUINOX_PROGRAM_ID)) then Ok (inl (http_error "market_wrong_owner" 403))
          else
            shardAddress ← deriveSeatShardV3 pf (fi_market f) (seatIndex / 32);
            match account_or_null (fi_domain f) shardAddress with
            | Some (mkAccountInfo owner (Some data)) =>
                if negb (bool_decide (owner = EQUINOX_PROGRAM_ID)) then Ok (inl (http_error "seat_shard_not_found" 404))
                else
                  bytes ← decode_data data;
                  Ok (inr (marketBytes, Some (core, relay_seat (decodeV3SeatShard base58 bytes) seatIndex)))
            | _ => Ok (inl (http_error "seat_shard_not_found" 404))
            end
      end
  | _ => Ok (inl (http_error "market_not_found" 404))
  end.

(** Lines 549 to 571. *)
Definition relay_session_input (f : RelayFieldsIn) (fields : RelayFields) (marketBytes : list Z)
    (v3 : option (V3CoreState * option V3SeatPositionState)) (now : Z) : result VerifyTradingSessionInput :=
  sessionAddress ← deriveTradingSessionAddress pf (fi_owner f) (fi_market f) (rf_seatIndex fields) (fi_signer f) EQUINOX_PROGRAM_ID;
  let sessionAccount := account_or_null (fi_domain f) sessionAddress in
  sessionBytes ← match sessionAccount with
                 | Some (mkAccountInfo _ (Some data)) => bs ← decode_data data; Ok (Some bs)
                 | _ => Ok None
                 end;
  Ok (mkVerifyInput marketBytes sessionBytes (ai_owner <$> sessionAccount) (fi_owner f) (fi_signer f) (rf_seatIndex fields)
        (fi_market f) EQUINOX_PROGRAM_ID (rf_actionNonce fields) (rf_opcode fields) (rf_placeOrderFlags fields) now v3
        (Some (fi_domain f)) (rf_orderIntent fields)).

(** Lines 574 to 582; what is handed to the transport is recorded. *)
Definition relay_request (f : RelayFieldsIn) : RelayRequest :=
  mkRelayRequest (fi_tx f) EQUINOX_PROGRAM_ID (fi_signer f) None None None.

Definition forward (f : RelayFieldsIn) (signer : Signer) (relayerAddress : string) : eff World (string + string) := fun w =>
  (mkWorld (db w) (reads w)
     (sent w ++ match coSignSessionTransaction pf (sign signer) encodeWire (relay_request f) relayerAddress with
                | Ok (inr tx) => [(fi_domain f, tx)] | _ => [] end),
   relaySessionTransaction pf (sign signer) encodeWire (send_to (fi_domain f)) (relay_request f) relayerAddress).

(** Lines 511 to 584, once the caller is authenticated and within its limits. *)
Definition relay_checked (env : RelayHttpEnv) (token : string) (e2e : bool) (f : RelayFieldsIn) (signer : Signer) (relayerAddress : string)
    : eff World HttpResponse :=
  shapeCheck ← eff_lift (validateSessionTransaction pf (shape_request f) relayerAddress);
  match shapeCheck with
  | inl reason => mret (http_error reason 400)
  | inr (_, fields) =>
      match relay_identity env token e2e (fi_owner f) with
      | inl e => mret (http_error e 401)
      | inr _ =>
          market ← eff_lift (relay_market f (rf_seatIndex fields));
          match market with
          | inl response => mret response
          | inr (marketBytes, v3) =>
              now ← now_eff;
              input ← eff_lift (relay_session_input f fields marketBytes v3 now);
              chainCheck ← eff_lift (verifyTradingSession base58 input);
              match chainCheck with
              | session_denied reason => mret (http_error reason 403)
              | session_ok =>
                  outcome ← forward f signer relayerAddress;
                  match outcome with
                  | inl e => mret (http_error e 400)
                  | inr signature => mret (mkHttp 202 (JObj [("accepted", JBool true); ("signature", JStr signature)]))
                  end
              end
          end
      end
  end.

(** [POST /v1/relay/session] *)
Definition relay_route (env : RelayHttpEnv) (r : RelayHttpRequest) : eff World HttpResponse :=
  match authenticate env r with
  | inl response => mret response
  | inr (token, e2e) =>
      match parse_body (hr_body r) with
      | inl response => mret response
      | inr f =>
          allowed ← relay_limits env (default "unknown" (hr_ip r)) (fi_owner f) (fi_signer f);
          if negb allowed then mret (http_error "rate_limited" 429)
          else match present (RELAYER_KEYPAIR_JSON env) with
          | None => mret (http_error "relayer_signer_unconfigured" 503)
          | Some keypair =>
              let signer := LocalKeypairSigner JSON_parse ed25519_public ed25519_sign "relayer:fee-payer" keypair in
              publicKeyBytes ← eff_lift (publicKey signer);
              let relayerAddress := base58 publicKeyBytes in
              _ ← eff_lift (relay_endpoint env (fi_domain f));
              relay_checked env token e2e f signer relayerAddress
          end
      end
  end.

(** ** What was sent was authorised *)

(** The user's identity: Privy linked the wallet to the verified user, or the test
    bypass applied, which is never so in production. *)
Definition identified (env : RelayHttpEnv) (token owner : string) : Prop :=
  (exists claims, verifyPrivy token = Ok claims /\ pc_user_id claims ≠ "" /\ owner ∈ pc_solanaWallets claims)
  \/ (E2E_TEST_MODE env = Some "1" /\ ENVIRONMENT env ≠ Some "production" /\ token = E2E_TEST_TOKEN).

(** The request passed every check, and [tx] is the posted transaction with the
    relayer's signature added. *)
Record relay_authorised (env : RelayHttpEnv) (r : RelayHttpRequest) (f : RelayFieldsIn) (tx : string) : Prop := mkAuthorised {
  auth_service : exists t, present (RELAYER_SERVICE_TOKEN env) = Some t /\ hr_serviceToken r = Some t;
  auth_user : exists token, bearer_token (hr_authorization r) = Some token /\ identified env token (fi_owner f);
  auth_body : parse_body (hr_body r) = inr f;
  auth_chain : exists keypair key relayerAddress wire fields signature input,
    present (RELAYER_KEYPAIR_JSON env) = Some keypair
    /\ publicKey (LocalKeypairSigner JSON_parse ed25519_public ed25519_sign "relayer:fee-payer" keypair) = Ok key
    /\ relayerAddress = base58 key
    /\ validateSessionTransaction pf (shape_request f) relayerAddress = Ok (inr (wire, fields))
    /\ sign (LocalKeypairSigner JSON_parse ed25519_public ed25519_sign "relayer:fee-payer" keypair) (wt_messageBytes wire) = Ok signature
    /\ tx = encodeWire (mkWire (wt_messageBytes wire) (<[relayerAddress := Some signature]> (wt_signatures wire)))
    /\ vi_ownerWallet input = fi_owner f /\ vi_sessionSignerAddress input = fi_signer f /\ vi_marketPda input = fi_market f
    /\ vi_seatIndex input = rf_seatIndex fields /\ vi_actionNonce input = rf_actionNonce fields /\ vi_opcode input = rf_opcode fields
    /\ vi_orderIntent input = rf_orderIntent fields /\ vi_domain input = Some (fi_domain f)
    /\ session_facts base58 input;
}.

Lemma authenticate_inr env r token e2e : authenticate env r = inr (token, e2e) ->
  (exists t, present (RELAYER_SERVICE_TOKEN env) = Some t /\ hr_serviceToken r = Some t)
  /\ bearer_token (hr_authorization r) = Some token
  /\ (e2e = true -> E2E_TEST_MODE env = Some "1" /\ ENVIRONMENT env ≠ Some "production" /\ token = E2E_TEST_TOKEN).
Proof.
  unfold authenticate. destruct (present (RELAYER_SERVICE_TOKEN env)) as [t|]; [|done].
  destruct (negb _) eqn:Es; [done|]. destruct (bearer_token (hr_authorization r)) as [tok|]; [|done].
  destruct (_ && (_ || _))%bool; [done|]. intros [= <- <-]. apply negb_false_iff, bool_decide_eq_true in Es.
  split_and!; [by exists t|done|]. rewrite !andb_true_iff, negb_true_iff, !bool_decide_eq_true, bool_decide_eq_false. tauto.
Qed.

Lemma relay_identity_inr env token e2e owner user :
  (e2e = true -> E2E_TEST_MODE env = Some "1" /\ ENVIRONMENT env ≠ Some "production" /\ token = E2E_TEST_TOKEN) ->
  relay_identity env token e2e owner = inr user -> identified env token owner.
Proof.
  intros He. unfold relay_identity, identified. destruct e2e; [right; by apply He|]. unfold verifyPrivyToken.
  destruct (verifyPrivy token) as [claims|]; [|done]. case_bool_decide as Hu; [done|].
  destruct (match Relay.truthy (pc_app_id claims) with Some a => _ | None => _ end); [done|].
  destruct (negb _) eqn:El; [done|]. intros _. left. exists claims. apply negb_false_iff, bool_decide_eq_true in El. done.
Qed.

(** The second validation, without the market, accepts the same transaction. *)
Lemma validate_again f relayerAddress wire fields :
  validateSessionTransaction pf (shape_request f) relayerAddress = Ok (inr (wire, fields)) ->
  validateSessionTransaction pf (relay_request f) relayerAddress = Ok (inr (wire, fields)).
Proof.
  unfold validateSessionTransaction. cbn [rq_transactionBase64 rq_expectedProgramAddress rq_sessionSignerAddress rq_expectedMarket shape_request relay_request].
  destruct (decodeTransaction pf (fi_tx f)) as [t|]; [|done]. destruct (decodeMessage pf _) as [c|]; [|done].
  destruct (negb _); [done|]. destruct (bool_decide _); [done|]. destruct (wt_signatures t !! fi_signer f ≫= id) as [sg|]; [|done].
  destruct (negb _); [done|]. destruct (trading_instructions c) as [|i []]; try done. destruct (negb _); [done|].
  destruct (instruction_fields (ci_data i)) as [[reason|fl]|]; try done. cbn. destruct (validate_v3 _ _ _ _ _ _) as [[]|]; try done. 
Qed.

Lemma forward_spec f signer relayerAddress wire fields w w' r :
  validateSessionTransaction pf (shape_request f) relayerAddress = Ok (inr (wire, fields)) ->
  forward f signer relayerAddress w = (w', r) ->
  (sent w' = sent w /\ is_ok r = false)
  \/ exists signature tx, sign signer (wt_messageBytes wire) = Ok signature
     /\ tx = encodeWire (mkWire (wt_messageBytes wire) (<[relayerAddress := Some signature]> (wt_signatures wire)))
     /\ sent w' = sent w ++ [(fi_domain f, tx)]
     /\ (forall o, r = Ok o -> exists sig, o = inr sig /\ send_to (fi_domain f) tx = Ok sig).
Proof.
  intros Hv%validate_again. unfold forward, relaySessionTransaction, coSignSessionTransaction. rewrite Hv. cbn.
  destruct (sign signer (wt_messageBytes wire)) as [signature|e] eqn:Es; cbn; intros [= <- <-].
  - right. exists signature. eexists. split_and!; [done|done|done|]. intros o. cbn.
    destruct (send_to _ _) as [sig|] eqn:Et; [|done]. intros [= <-]. by exists sig.
  - left. cbn. by rewrite app_nil_r.
Qed.

(** Nothing was sent and the answer, if any, is a refusal. *)
Definition refused (w w' : World) (o : result HttpResponse) : Prop :=
  sent w' = sent w /\ (forall response, o = Ok response -> http_status response ≠ 202).

Lemma refused_here w e status : status ≠ 202 -> refused w w (Ok (http_error e status)).
Proof. intros Hs. split; [done|]. by intros response [= <-]. Qed.

Lemma refused_throw w e : refused w w (Throw e).
Proof. by split. Qed.

Lemma relay_market_refusal f seatIndex response :
  relay_market f seatIndex = Ok (inl response) -> exists e status, response = http_error e status /\ status ≠ 202.
Proof.
  unfold relay_market. destruct (account_or_null _ (fi_market f)) as [[owner [data|]]|]; [|intros [= <-]; by eexists _, _..].
  intros (bytes & _ & H)%result_bind_Ok. destruct (decodeV3Core base58 bytes); [|done].
  destruct (negb _); [injection H as <-; by eexists _, _|]. apply result_bind_Ok in H as (shard & _ & H).
  destruct (account_or_null _ shard) as [[owner' [data'|]]|]; [|injection H as <-; by eexists _, _..].
  destruct (negb _); [injection H as <-; by eexists _, _|]. by apply result_bind_Ok in H as (? & _ & ?).
Qed.

Lemma relay_session_input_fields f fields marketBytes v3 now input :
  relay_session_input f fields marketBytes v3 now = Ok input ->
  vi_ownerWallet input = fi_owner f /\ vi_sessionSignerAddress input = fi_signer f /\ vi_marketPda input = fi_market f
  /\ vi_seatIndex input = rf_seatIndex fields /\ vi_actionNonce input = rf_actionNonce fields /\ vi_opcode input = rf_opcode fields
  /\ vi_orderIntent input = rf_orderIntent fields /\ vi_domain input = Some (fi_domain f).
Proof. unfold relay_session_input. intros (addr & _ & (bs & _ & [= <-])%result_bind_Ok)%result_bind_Ok. done. Qed.

Lemma relay_checked_spec env token e2e f signer relayerAddress w w' o :
  (e2e = true -> E2E_TEST_MODE env = Some "1" /\ ENVIRONMENT env ≠ Some "production" /\ token = E2E_TEST_TOKEN) ->
  relay_checked env token e2e f signer relayerAddress w = (w', o) ->
  refused w w' o
  \/ exists wire fields signature input tx,
     identified env token (fi_owner f)
     /\ validateSessionTransaction pf (shape_request f) relayerAddress = Ok (inr (wire, fields))
     /\ sign signer (wt_messageBytes wire) = Ok signature
     /\ tx = encodeWire (mkWire (wt_messageBytes wire) (<[relayerAddress := Some signature]> (wt_signatures wire)))
     /\ (vi_ownerWallet input = fi_owner f /\ vi_sessionSignerAddress input = fi_signer f /\ vi_marketPda input = fi_market f
         /\ vi_seatIndex input = rf_seatIndex fields /\ vi_actionNonce input = rf_actionNonce fields /\ vi_opcode input = rf_opcode fields
         /\ vi_orderIntent input = rf_orderIntent fields /\ vi_domain input = Some (fi_domain f))
     /\ session_facts base58 input
     /\ sent w' = sent w ++ [(fi_domain f, tx)]
     /\ (forall response, o = Ok response -> exists sig, send_to (fi_domain f) tx = Ok sig
         /\ response = mkHttp 202 (JObj [("accepted", JBool true); ("signature", JStr sig)])).
Proof.
  intros He. unfold relay_checked. unfold mbind at 1, eff_bind at 1, eff_lift at 1.
  destruct (validateSessionTransaction pf (shape_request f) relayerAddress) as [[reason|[wire fields]]|e] eqn:Hv;
    [intros [= <- <-]; left; by apply refused_here| |intros [= <- <-]; left; apply refused_throw].
  destruct (relay_identity env token e2e (fi_owner f)) as [e|user] eqn:Hi; [intros [= <- <-]; left; by apply refused_here|].
  apply relay_identity_inr in Hi; [|done]. unfold mbind at 1, eff_bind at 1, eff_lift at 1.
  destruct (relay_market f (rf_seatIndex fields)) as [[response|[marketBytes v3]]|e] eqn:Hm.
  { intros [= <- <-]. apply relay_market_refusal in Hm as (e & status & -> & Hs). left. by apply refused_here. }
  2: { intros [= <- <-]. left. apply refused_throw. }
  unfold mbind at 1, eff_bind at 1, now_eff. set (w1 := mkWorld _ _ _). unfold mbind at 1, eff_bind at 1, eff_lift at 1.
  destruct (relay_session_input f fields marketBytes v3 _) as [input|e] eqn:Hin; [|intros [= <- <-]; left; by split].
  unfold mbind at 1, eff_bind at 1, eff_lift at 1.
  destruct (verifyTradingSession base58 input) as [[|reason]|e] eqn:Hc; [|intros [= <- <-]; left; split; [done|by intros ? [= <-]]|intros [= <- <-]; left; by split].
  unfold mbind, eff_bind. destruct (forward f signer relayerAddress w1) as [w2 r] eqn:Hf.
  apply (forward_spec _ _ _ _ _ _ _ _ Hv) in Hf as [[Hs Hr]|(signature & tx & Hsign & Htx & Hs & Hr)].
  - destruct r; [done|]. intros [= <- <-]. left. by split.
  - intros H. right. exists wire, fields, signature, input, tx. apply relay_session_input_fields in Hin.
    apply verify_session_facts in Hc. split_and!; try done; try apply Hin.
    + by destruct r as [[]|]; injection H as <- <-.
    + intros response ->. destruct r as [o2|]; [|done]. destruct (Hr _ eq_refl) as (sig & -> & Hsig). injection H as <- <-.
      by exists sig.
Qed.

Lemma allow_call_sent env key limit w : sent (fst (allow_call env key limit w)) = sent w.
Proof.
  unfold allow_call. destruct (negb _); [done|]. unfold mbind, eff_bind, now_eff, on_db. cbn [db reads sent].
  by destruct (ProtocolRepository.allow key limit 60000 (clock (reads w)) (db w)).
Qed.

Lemma relay_limits_sent env ip owner signer w : sent (fst (relay_limits env ip owner signer w)) = sent w.
Proof.
  unfold relay_limits, mbind, eff_bind. pose proof (allow_call_sent env ("relay:" +:+ ip) 30 w) as H1.
  destruct (allow_call env ("relay:" +:+ ip) 30 w) as [w1 [[]|]]; try done. cbn [negb fst] in *.
  pose proof (allow_call_sent env ("relay:" +:+ owner) 60 w1) as H2.
  destruct (allow_call env ("relay:" +:+ owner) 60 w1) as [w2 [[]|]]; cbn [negb fst] in *; try (cbn; congruence). rewrite allow_call_sent. congruence.
Qed.

Lemma relay_route_facts env r w w' o :
  relay_route env r w = (w', o) ->
  refused w w' o
  \/ exists f tx w1,
     relay_limits env (default "unknown" (hr_ip r)) (fi_owner f) (fi_signer f) w = (w1, Ok true)
     /\ relay_authorised env r f tx
     /\ sent w' = sent w ++ [(fi_domain f, tx)]
     /\ (forall response, o = Ok response -> exists sig, send_to (fi_domain f) tx = Ok sig
         /\ response = mkHttp 202 (JObj [("accepted", JBool true); ("signature", JStr sig)])).
Proof.
  unfold relay_route. destruct (authenticate env r) as [response|[token e2e]] eqn:Ha.
  { intros [= <- <-]. left. revert Ha. unfold authenticate. repeat case_match; try done; intros [= <-]; by apply refused_here. }
  apply authenticate_inr in Ha as (Hservice & Htoken & He).
  destruct (parse_body (hr_body r)) as [response|f] eqn:Hb.
  { intros [= <- <-]. left. revert Hb. unfold parse_body. repeat case_match; try done; intros [= <-]; by apply refused_here. }
  unfold mbind at 1, eff_bind at 1. pose proof (relay_limits_sent env (default "unknown" (hr_ip r)) (fi_owner f) (fi_signer f) w) as Hsent.
  destruct (relay_limits env _ _ _ w) as [w1 [[]|e]] eqn:Hl; cbn [fst negb] in *;
    [|intros [= <- <-]; left; split; [done|by intros ? [= <-]]|intros [= <- <-]; left; by split].
  destruct (present (RELAYER_KEYPAIR_JSON env)) as [keypair|] eqn:Hk; [|intros [= <- <-]; left; split; [done|by intros ? [= <-]]].
  cbv zeta. set (signer := LocalKeypairSigner _ _ _ _ keypair). unfold mbind at 1, eff_bind at 1, eff_lift at 1.
  destruct (publicKey signer) as [pk|e] eqn:Hp; [|intros [= <- <-]; left; by split].
  unfold mbind at 1, eff_bind at 1, eff_lift at 1. destruct (relay_endpoint env (fi_domain f)); [|intros [= <- <-]; left; by split].
  intros [[Hs Hr]|(wire & fields & signature & input & tx & Hid & Hv & Hsign & Htx & Hin & Hf & Hs & Hr)]%relay_checked_spec; [| |done].
  - left. split; [congruence|done].
  - right. exists f, tx, w1. split_and!; [done| |congruence|done]. split; [done|by exists token|done|].
    exists keypair, pk, (base58 pk), wire, fields, signature, input. split_and!; try done; apply Hin.
Qed.

(** The relayer never lends its signature to an unauthorised transaction.
    Whatever the request, the database and the chain, handling a relay request
    sends nothing and does not answer 202, or sends exactly one transaction; then
    the caller presented the service token, its user token was verified for the
    wallet of the request (the test identity only outside production), the three
    rate limits allowed it, the transaction is the posted one with only the
    relayer's signature added, it passed the shape checks and the market's
    authoritative accounts show a live session of that wallet and signer for the
    very seat, nonce and order in its signed bytes, in the domain it is sent to;
    a 202 carries the signature the transport returned for it. *)
Theorem relay_route_sound env r w w' o :
  relay_route env r w = (w', o) ->
  refused w w' o
  \/ exists f tx w1,
     relay_limits env (default "unknown" (hr_ip r)) (fi_owner f) (fi_signer f) w = (w1, Ok true)
     /\ relay_authorised env r f tx
     /\ sent w' = sent w ++ [(fi_domain f, tx)]
     /\ (forall response, o = Ok response -> exists sig, send_to (fi_domain f) tx = Ok sig
         /\ response = mkHttp 202 (JObj [("accepted", JBool true); ("signature", JStr sig)])).
Proof. apply relay_route_facts. Qed.
End Worker.

(** ** The proxy *)

(** The deployment variables of the proxy, besides those of [ServerEnv]. *)
Record ProxyEnv := mkProxyEnv { px_server : ServerEnv; EQUINOX_RELAYER_URL : option string; EQUINOX_RELAYER_TOKEN : option string }.

Record ProxyRequest := mkProxyRequest {
  pr_csrfCookie : option string; pr_csrfHeader : option string; pr_sessionCookie : option string; pr_body : option json }.

Definition detail_error (e detail : string) (status : Z) : HttpResponse :=
  mkHttp status (JObj [("error", JStr e); ("detail", JStr detail)]).

(** The five fields of the body that must be strings, and the domain. *)
Definition string_prop (name : string) (body : option json) : option string :=
  match body ≫= prop name with Some (JStr s) => Some s | _ => None end.

Section Proxy.
Context (digest : string -> string) {D : Type} `{SessionDatabase D}.
Context (verifyPrivyAccessToken : string -> result VerifiedToken).

(** Lines 51 to 112: a direct answer, or the request handed to the worker. *)
Definition proxy_request (env : ProxyEnv) (r : ProxyRequest) (now nowVerify : Z) : eff D (HttpResponse + RelayHttpRequest) :=
  match requireCsrf (pr_csrfCookie r) (pr_csrfHeader r) with
  | Throw e => mret (inl (detail_error "authentication_required" e 403))
  | Ok _ =>
      session ← readPersistentSession digest (pr_sessionCookie r) now;
      match session with
      | None => mret (inl (detail_error "authentication_required" "No application session" 401))
      | Some session =>
          let body := pr_body r in
          match string_prop "privyAccessToken" body, string_prop "ownerWallet" body, string_prop "transactionBase64" body,
                string_prop "expectedMarket" body, string_prop "sessionSignerAddress" body with
          | Some token, Some ownerWallet, Some transactionBase64, Some expectedMarket, Some sessionSignerAddress =>
              if negb (bool_decide (ownerWallet = as_walletAddress session))
              then mret (inl (detail_error "authentication_required" "Wallet does not match the app session" 401))
              else
                let verified := if isE2eTestModeServer (px_server env) && bool_decide (token = E2E_TEST_TOKEN)
                                then Ok (verifyE2eTestToken ownerWallet nowVerify) else verifyPrivyAccessToken token in
                match verified with
                | Throw _ => mret (inl (detail_error "authentication_required" "Privy access token could not be verified" 401))
                | Ok verified =>
                    if negb (bool_decide (vt_user_id verified = as_privyUserId session)) || negb (links verified ownerWallet)
                    then mret (inl (detail_error "authentication_required" "Privy token does not match the requesting wallet" 401))
                    else match present (EQUINOX_RELAYER_URL env), present (EQUINOX_RELAYER_TOKEN env) with
                    | Some _, Some relayerServiceToken =>
                        mret (inr (mkRelayHttp (Some relayerServiceToken) (Some ("Bearer " +:+ token)) None
                          (Some (mkRelayHttpBody (Some transactionBase64) (Some sessionSignerAddress) (Some ownerWallet)
                             (Some expectedMarket) (Some (if is_str "er" (body ≫= prop "domain") then "er" else "l1"))))))
                    | _, _ => mret (inl (http_error "relayer_unconfigured" 503))
                    end
                end
          | _, _, _, _, _ => mret (inl (http_error "invalid_request" 400))
          end
      end
  end.

(** Lines 112 to 115: the worker's answer, [None] when the fetch failed. *)
Definition proxy_answer (upstream : option (Z * option json)) : HttpResponse :=
  match upstream with
  | None => http_error "relayer_unavailable" 502
  | Some (status, payload) =>
      mkHttp status match payload with Some JNull | None => JObj [("error", JStr "relayer_response_invalid")] | Some p => p end
  end.

(** What a forwarded request rests on. *)
Record proxied (env : ProxyEnv) (r : ProxyRequest) (d : D) (now : Z) (q : RelayHttpRequest) : Prop := mkProxied {
  px_csrf : requireCsrf (pr_csrfCookie r) (pr_csrfHeader r) = Ok tt;
  px_identity : exists session verified token body,
    snd (readPersistentSession digest (pr_sessionCookie r) now d) = Ok (Some session)
    /\ (verifyPrivyAccessToken token = Ok verified \/ isE2eTestModeServer (px_server env) = true /\ token = E2E_TEST_TOKEN)
    /\ vt_user_id verified = as_privyUserId session /\ links verified (as_walletAddress session) = true
    /\ hr_authorization q = Some ("Bearer " +:+ token)
    /\ hr_body q = Some body /\ hb_ownerWallet body = Some (as_walletAddress session)
    /\ string_prop "transactionBase64" (pr_body r) = hb_transactionBase64 body
    /\ string_prop "sessionSignerAddress" (pr_body r) = hb_sessionSignerAddress body
    /\ string_prop "expectedMarket" (pr_body r) = hb_expectedMarket body
    /\ (hb_domain body = Some "er" \/ hb_domain body = Some "l1");
  px_service : hr_serviceToken q = present (EQUINOX_RELAYER_TOKEN env);
}.

Lemma proxy_request_inr env r now nowVerify d d' q :
  proxy_request env r now nowVerify d = (d', Ok (inr q)) -> proxied env r d now q.
Proof.
  unfold proxy_request. destruct (requireCsrf _ _) as [[]|e] eqn:Ec; [|done]. intros (d1 & o & Hs & H2)%eff_bind_Ok.
  destruct o as [session|]; [|done].
  destruct (string_prop "privyAccessToken" (pr_body r)) as [token|]; [|done].
  destruct (string_prop "ownerWallet" (pr_body r)) as [ownerWallet|]; [|done].
  destruct (string_prop "transactionBase64" (pr_body r)) as [tx|] eqn:Etx; [|done].
  destruct (string_prop "expectedMarket" (pr_body r)) as [mk|] eqn:Emk; [|done].
  destruct (string_prop "sessionSignerAddress" (pr_body r)) as [sg|] eqn:Esg; [|done].
  destruct (negb _) eqn:Ew in H2; [done|]. apply negb_false_iff, bool_decide_eq_true in Ew as ->.
  set (verified := if _ && _ then _ else _) in H2. destruct verified as [v|e] eqn:Ev; [|done].
  destruct (negb _ || negb _)%bool eqn:Eu in H2; [done|]. apply orb_false_iff in Eu as [Eu El].
  apply negb_false_iff, bool_decide_eq_true in Eu. apply negb_false_iff in El.
  destruct (present (EQUINOX_RELAYER_URL env)); [|done]. destruct (present (EQUINOX_RELAYER_TOKEN env)) as [st|] eqn:Et; [|done].
  injection H2 as <- <-. split; [done| |by rewrite Et].
  eexists session, v, token, _. split_and!; try done.
  - by rewrite Hs.
  - unfold verified in Ev. destruct (_ && _)%bool eqn:Ee; [|by left]. apply andb_true_iff in Ee as [Ee Et2%bool_decide_eq_true]. by right.
  - cbn. destruct (is_str "er" _); auto.
Qed.
End Proxy.

(** ** From the login to the chain *)

Lemma prefix_app p t : String.prefix p (p +:+ t) = true.
Proof.
  induction p as [|c p IH]; [by destruct t|].
  change ((if Ascii.ascii_dec c c then String.prefix p (p +:+ t) else false) = true). by destruct (Ascii.ascii_dec c c).
Qed.

Lemma substring_all t : String.substring 0 (String.length t) t = t.
Proof. induction t as [|c t IH]; [done|]. exact (f_equal (String c) IH). Qed.

Lemma substring_app p t n : String.substring (String.length p) n (p +:+ t) = String.substring 0 n t.
Proof. induction p as [|c p IH]; [done|]. exact IH. Qed.

Lemma bearer_token_app t : bearer_token (Some ("Bearer " +:+ t)) = Some t.
Proof.
  unfold bearer_token. rewrite prefix_app, length_string_app. change (String.length "Bearer ") with 7%nat.
  replace (7 + String.length t - 7)%nat with (String.length t) by lia.
  by rewrite (substring_app "Bearer " t), substring_all.
Qed.

Lemma parse_body_inr b f : parse_body (Some b) = inr f ->
  hb_ownerWallet b = Some (fi_owner f) /\ hb_transactionBase64 b = Some (fi_tx f)
  /\ hb_sessionSignerAddress b = Some (fi_signer f) /\ hb_expectedMarket b = Some (fi_market f).
Proof.
  assert (forall o t, present o = Some t -> o = Some t) as Hp by (intros [x|] t; cbn; [case_bool_decide; congruence|done]).
  unfold parse_body. destruct (present (hb_transactionBase64 b)) as [tx|] eqn:E1; [|done].
  destruct (present (hb_sessionSignerAddress b)) as [sg|] eqn:E2; [|done].
  destruct (present (hb_ownerWallet b)) as [ow|] eqn:E3; [|done].
  destruct (present (hb_expectedMarket b)) as [mk|] eqn:E4; [|done].
  apply Hp in E1, E2, E3, E4. destruct (hb_domain b) as [d|]; repeat case_bool_decide; intros [= <-]; done.
Qed.
Section EndToEnd.
Context (digest : string -> string) (verifyPrivyAccessToken : string -> result VerifiedToken).
Context (pf : RelayPlatform) (base58 : list Z -> string) (EQUINOX_PROGRAM_ID : string).
Context (JSON_parse : string -> option json) (ed25519_public : list Z -> list Z) (ed25519_sign : list Z -> list Z -> list Z).
Context (verifyPrivy : string -> result PrivyClaims) (encodeWire : WireTransaction -> string).
Context (account : Domain -> string -> result (option AccountInfo)) (isBlockhashValid : Domain -> string -> result bool)
  (send_to : Domain -> string -> result string).
Context (clock : nat -> Z).

Definition worker : RelayHttpEnv -> RelayHttpRequest -> eff World HttpResponse :=
  relay_route pf base58 EQUINOX_PROGRAM_ID JSON_parse ed25519_public ed25519_sign verifyPrivy encodeWire account isBlockhashValid send_to clock.

(** One browser request through both handlers; a handler that throws answers 500. *)
Definition relay_through (penv : ProxyEnv) (wenv : RelayHttpEnv) (r : ProxyRequest) (now nowVerify : Z) (d : AuthDb) (w : World)
    : World * HttpResponse :=
  match snd (proxy_request digest verifyPrivyAccessToken penv r now nowVerify d) with
  | Throw e => (w, http_error e 500)
  | Ok (inl response) => (w, response)
  | Ok (inr q) =>
      let '(w', o) := worker wenv q w in
      (w', proxy_answer (Some match o with Ok response => (http_status response, Some (http_body response)) | Throw _ => (500, None) end))
  end.

(** C11. From login to the chain.  If handling a browser's relay request puts a
    transaction on the wire, then the browser holds a cookie that an earlier
    exchange of this server issued to a verified user for a linked wallet, not
    expired and not logged out since; the request carried a token verified again
    for that same user; that wallet is the one whose live on-chain session and
    seat authorise the transaction; and what was sent is exactly the transaction
    the browser posted, with the relayer's signature added. *)
Theorem relay_end_to_end ops penv wenv r now nowVerify w :
  let '(w', response) := relay_through penv wenv r now nowVerify (auth_run digest ops) w in
  sent w' = sent w
  \/ exists raw session f tx q,
     pr_sessionCookie r = Some raw /\ now < as_expiresAt session
     /\ (exists before op after v, ops = before ++ op :: after /\ verified_by op v
          /\ issued v (issue_time op) (digest raw) session /\ Forall (fun o => ~ revokes digest o (digest raw)) after)
     /\ proxied digest verifyPrivyAccessToken penv r (auth_run digest ops) now q
     /\ relay_authorised pf base58 EQUINOX_PROGRAM_ID JSON_parse ed25519_public ed25519_sign verifyPrivy encodeWire isBlockhashValid wenv q f tx
     /\ fi_owner f = as_walletAddress session /\ string_prop "transactionBase64" (pr_body r) = Some (fi_tx f)
     /\ sent w' = sent w ++ [(fi_domain f, tx)].
Proof.
  unfold relay_through.
  destruct (proxy_request digest verifyPrivyAccessToken penv r now nowVerify (auth_run digest ops)) as [d' [[response|q]|e]] eqn:Hp;
    cbn [snd]; [by left| |by left].
  apply proxy_request_inr in Hp. destruct (worker wenv q w) as [w' o] eqn:Hw.
  apply relay_route_facts in Hw as [[Hs _]|(f & tx & w1 & _ & Ha & Hs & _)]; [by left|right].
  pose proof Hp as [_ (session & v & token & body & Hread & _ & _ & _ & _ & Hb & Hown & Htx & _) _].
  pose proof Ha as [_ _ Hbody _]. rewrite Hb in Hbody. apply parse_body_inr in Hbody as (Ho & Ht & _).
  unfold readPersistentSession in Hread. destruct (pr_sessionCookie r) as [raw|] eqn:Ec; [|done].
  case_bool_decide as Hne; [done|]. apply live_session_issued in Hread as [Hexp Hissued].
  exists raw, session, f, tx, q. split_and!; try done; congruence.
Qed.
End EndToEnd.

(** ** A relayed order, run *)

Module Sample.
(** Owner 1, session signer 2, program 3, market 4, relayer 9; the ask of 25 at
    three below the oracle closes part of a long position of seat 5. *)
Definition order : PlaceOrderFields := mkOrderFields side_ask false true true Transactions.tree_pegged 5 25 (-3) 0 0 77 9.
Definition data : list Z := match placeOrderData order with Ok d => d | Throw _ => [] end.
Definition page (side p : Z) : string := "page" +:+ pretty (side * 9 + p).
Definition seat (k : Z) : string := "seats" +:+ pretty k.
Definition events (k : Z) : string := "events" +:+ pretty k.
Definition statics : list string :=
  ["9"; "2"; "4"] ++ ((fun n => page 0 n) <$> seqZ 0 18) ++ (seat <$> seqZ 0 4) ++ (events <$> seqZ 0 4) ++ ["session"; "3"].
Definition message : CompiledMessage :=
  mkCompiled true statics (mkHeader 2 1 1) [mkCompiledIx 30 sample_indices data] (Some "hash") false.
Definition platform : RelayPlatform := mkPlatform
  (fun text => if bool_decide (text = "TX") then Some (mkWire [1; 2; 3] {["2" := Some [5]]}) else None)
  (fun _ => Some message) (fun _ _ _ => true) (fun _ => Ok (replicate 32 8))
  (fun _ side p => Ok (page side p)) (fun _ k => Ok (seat k)) (fun _ k => Ok (events k)) (fun _ _ _ _ _ => Ok "session").
Definition core_bytes : list Z :=
  STKMK003 ++ [3; 0; 1; 1] ++ replicate 168 0 ++ [1] ++ le_split 8 100 ++ replicate 8 0 ++ [1] ++ replicate 173 0 ++ [2] ++ replicate 3724 0.
Definition shard_bytes : list Z :=
  STKST003 ++ [3; 0; 0; 0] ++ replicate 32 4 ++ replicate 1280 0 ++ [1] ++ replicate 32 1 ++ replicate 39 0 ++ le_split 16 50
  ++ replicate (Z.to_nat 6824) 0.
Definition account (d : Domain) (addr : string) : result (option AccountInfo) :=
  Ok (if bool_decide (addr = "4") then Some (mkAccountInfo "3" (Some (btoa core_bytes)))
      else if bool_decide (addr = "seats0") then Some (mkAccountInfo "3" (Some (btoa shard_bytes)))
      else if bool_decide (addr = "session") then Some (mkAccountInfo "3" (Some (btoa sample_session))) else None).
Definition env : RelayHttpEnv :=
  mkRelayHttpEnv (Some "service") None (Some "production") (Some "app") (Some "secret") (Some (btoa (replicate 32 9)))
    (Some "https://router") None None true.
Definition request : RelayHttpRequest :=
  mkRelayHttp (Some "service") (Some "Bearer token") None
    (Some (mkRelayHttpBody (Some "TX") (Some "2") (Some "1") (Some "4") (Some "er"))).
Definition verify (token : string) : result PrivyClaims :=
  if bool_decide (token = "token") then Ok (mkClaims "user" (Some "app") ["1"]) else Throw "invalid".
Definition run (r : RelayHttpRequest) : World * result HttpResponse :=
  relay_route platform sample_base58 "3" (fun _ => None) (fun seed => seed) (fun _ _ => [7]) verify (fun _ => "SIGNED")
    account (fun _ _ => Ok true) (fun _ _ => Ok "signature") (fun n => 1000000 + Z.of_nat n) env r (mkWorld empty_db 0 []).
End Sample.

Lemma relay_route_sound_witness :
  snd (Sample.run Sample.request) = Ok (mkHttp 202 (JObj [("accepted", JBool true); ("signature", JStr "signature")]))
  /\ exists f, sent (fst (Sample.run Sample.request)) = [(fi_domain f, "SIGNED")].
Proof.
  assert (snd (Sample.run Sample.request) = Ok (mkHttp 202 (JObj [("accepted", JBool true); ("signature", JStr "signature")]))) as H
    by (vm_compute; reflexivity).
  split; [exact H|].
  destruct (relay_route_sound Sample.platform sample_base58 "3" (fun _ => None) (fun seed => seed) (fun _ _ => [7]) Sample.verify
    (fun _ => "SIGNED") Sample.account (fun _ _ => Ok true) (fun _ _ => Ok "signature") (fun n => 1000000 + Z.of_nat n) Sample.env
    Sample.request (mkWorld empty_db 0 []) (fst (Sample.run Sample.request)) (snd (Sample.run Sample.request)) (surjective_pairing _))
    as [[_ Hr]|(f & tx & w1 & _ & Ha & Hs & _)].
  - exfalso. exact (Hr _ H eq_refl).
  - exists f. rewrite Hs. destruct Ha as [_ _ _ (keypair & key & addr & wire & fields & sg & input & _ & _ & _ & _ & _ & -> & _)].
    reflexivity.
Defined.

(** The same order posted by a signed-in browser through both handlers. *)
Example relay_through_sample :
  let login := op_service_exchange (fun _ => Ok (mkVerified "user" 5000 (Some ["1"]))) (mkExchange "token" "1" None None None) 900000 "raw" "csrf" in
  let d := auth_run sample_digest [login] in
  let body := JObj [("privyAccessToken", JStr "token"); ("ownerWallet", JStr "1"); ("transactionBase64", JStr "TX");
                    ("expectedMarket", JStr "4"); ("sessionSignerAddress", JStr "2"); ("domain", JStr "er")] in
  let penv := mkProxyEnv (mkServerEnv (Some "production") None) (Some "https://worker") (Some "service") in
  let '(w, response) :=
    relay_through sample_digest (fun _ => Ok (mkVerified "user" 5000 (Some ["1"]))) Sample.platform sample_base58 "3" (fun _ => None)
      (fun seed => seed) (fun _ _ => [7]) Sample.verify (fun _ => "SIGNED") Sample.account (fun _ _ => Ok true) (fun _ _ => Ok "signature")
      (fun n => 1000000 + Z.of_nat n) penv Sample.env (mkProxyRequest (Some "csrf") (Some "csrf") (Some "raw") (Some body)) 950000 950000
      d (mkWorld empty_db 0 []) in
  sent w = [(ER, "SIGNED")] /\ http_status response = 202.
Proof. vm_compute. split; reflexivity. Qed.
