(* ===== verification/Faucet.v ===== *)
(** * Test funds: the faucet and the operator mint

    workers/src/faucet.ts with the handlers [claimFaucet] and [operatorMint] of
    workers/src/index.ts.  A claim reads the last payment of the wallet, sends
    one transaction and records the payment once it is confirmed; the handler is
    given as the part before its first write and the part after, so that two
    requests can be interleaved.  The chain, Privy, the signature scheme,
    address derivation and transaction signing are parameters. *)

From S2P Require Import Prelude Json Bytes Keepers Transactions Relay Signers RelayRoute.

Definition FAUCET_TOKENS : Z := 1000000000.
Definition FAUCET_LAMPORTS : Z := 50000000.
Definition SOL_TOP_UP_BELOW : Z := 20000000.
Definition CLAIM_INTERVAL_MS : Z := 24 * 60 * 60 * 1000.
Definition FAUCET_KEEPER_SOL_FLOOR : Z := 200000000.
Definition OPERATOR_MINT_MAX : Z := 10000000000000.
Definition TOKEN_PROGRAM : string := "TokenkegQfeZyiNwAJbNbGKPFXCWuBvf9Ss623VQ5DA".
Definition ATA_PROGRAM : string := "ATokenGPvbdGVxr1b2hvZbsiqW5xWH25efTNsLJA8knL".
Definition SYSTEM_PROGRAM : string := "11111111111111111111111111111111".

(** [u64]: [setBigUint64] keeps the low 64 bits. *)
Definition u64 (value : Z) : list Z := le_split 8 (value mod 2 ^ 64).

(** ** Instructions *)

Section Instructions.
(** [associatedTokenAddress(owner, mint)] *)
Context (associatedTokenAddress : string -> string -> result string).

Definition faucetInstructions (keeper wallet mint : string) (sendSol : bool) (tokens : Z) : result (list Instruction) :=
  ata ← associatedTokenAddress wallet mint;
  Ok ([mkInstruction ATA_PROGRAM
         [mkMeta keeper role_writable_signer; mkMeta ata role_writable; mkMeta wallet role_readonly; mkMeta mint role_readonly;
          mkMeta SYSTEM_PROGRAM role_readonly; mkMeta TOKEN_PROGRAM role_readonly] [1];
       mkInstruction TOKEN_PROGRAM [mkMeta mint role_writable; mkMeta ata role_writable; mkMeta keeper role_readonly_signer]
         (7 :: u64 tokens)]
      ++ (if sendSol then
            [mkInstruction SYSTEM_PROGRAM [mkMeta keeper role_writable_signer; mkMeta wallet role_writable]
               ([2; 0; 0; 0] ++ u64 FAUCET_LAMPORTS)]
          else [])).
End Instructions.

(** ** Claims signed by the wallet *)

Definition newline : string := String (Ascii.ascii_of_nat 10) EmptyString.

Definition faucetClaimMessage (wallet : string) (issuedAt : Z) : string :=
  "Equinox devnet faucet" +:+ newline +:+ "wallet: " +:+ wallet +:+ newline +:+ "issued: " +:+ pretty issuedAt.

(** What follows the given prefix of a string. *)
Fixpoint after_prefix (p s : string) : option string :=
  match p, s with
  | EmptyString, _ => Some s
  | String c p, String d s => if bool_decide (c = d) then after_prefix p s else None
  | String _ _, EmptyString => None
  end.

(** The number of [/\nissued: (\d+)$/]; a larger numeral than a double can hold
    exactly stays exact here, and is outside the window either way. *)
Fixpoint issued_in (message : string) : option Z :=
  match match after_prefix (newline +:+ "issued: ") message with
        | Some rest => if digit_string rest then Some (decimal rest) else None
        | None => None end with
  | Some n => Some n
  | None => match message with EmptyString => None | String _ rest => issued_in rest end
  end.

Section Signature.
(** Base58 decoding, [atob], and Ed25519 verification. *)
Context (base58Bytes : string -> result (list Z)) (atob : string -> result (list Z))
  (verifyEd25519 : list Z -> list Z -> string -> result bool).

Definition verifyFaucetSignature (wallet message signatureBase64 : string) (nowSeconds : Z) : bool :=
  match issued_in message with
  | None => false
  | Some issued =>
      if negb (bool_decide (message = faucetClaimMessage wallet issued)) || (300 <? Z.abs (nowSeconds - issued)) then false
      else match base58Bytes wallet, atob signatureBase64 with
           | Ok publicKey, Ok signature =>
               if negb (blen publicKey =? 32) || negb (blen signature =? 64) then false
               else match verifyEd25519 publicKey signature message with Ok b => b | Throw _ => false end
           | _, _ => false
           end
  end.

(** ** The handlers *)

(** A payment handed to the chain. *)
Record Payment := mkPayment { pay_wallet : string; pay_tokens : Z; pay_sol : bool; pay_tx : string }.

Record FaucetState := mkFaucet { faucet_claims : gmap string Z; paid : list Payment }.

Record FaucetEnv := mkFaucetEnv {
  fe_signing : KeeperSigningEnv; fe_DB : bool; fe_collateralMint : string; fe_PRIVY_APP_ID : option string;
  fe_PRIVY_APP_SECRET : option string; fe_INGESTION_TOKEN : option string }.

Record ClaimBody := mkClaim { cb_wallet : string; cb_message : option string; cb_signature : option string }.

(** The chain's answers for one request. *)
Record FaucetChain := mkChain {
  ch_balance : string -> result Z;
  ch_blockhash : result (string * Z);
  ch_send : string -> result string;
  ch_confirm : string -> result ConfirmationOutcome }.

Context (verifyPrivy : string -> result PrivyClaims) (signing_of : KeeperSigningEnv -> result KeeperSigningResolution)
  (base58 : list Z -> string) (associatedTokenAddress : string -> string -> result string)
  (compile_and_sign : Signer -> list Instruction -> string -> result string).

(** The status text of an unconfirmed outcome. *)
Definition outcome_text (o : ConfirmationOutcome) : string :=
  match o with
  | confirmed => "confirmed" | finalized => "finalized" | failed _ => "failed" | blockhash_expired => "blockhash_expired" | timeout => "timeout"
  end.

(** Lines 263 to 280 of [claimFaucet]: who asks, and when the wallet was last
    paid.  [None]: go on. *)
Definition claim_check (env : FaucetEnv) (authorization : option string) (body : ClaimBody) (now : Z) (s : FaucetState)
    : option HttpResponse :=
  let wallet := cb_wallet body in
  if bool_decide (wallet = "") then Some (http_error "sign in first" 401)
  else if bool_decide (present (Signers.SOLANA_RPC_URL (fe_signing env)) = None) || negb (fe_DB env)
          || bool_decide (fe_collateralMint env = "") then Some (http_error "faucet unavailable" 503)
  else
    let identity := match cb_message body, cb_signature body with
      | Some message, Some signature =>
          if verifyFaucetSignature wallet message signature (now / 1000) then None else Some (http_error "invalid wallet signature" 401)
      | _, _ =>
          let token := match authorization with Some h => default h (bearer_token (Some h)) | None => "" end in
          if bool_decide (token = "") then Some (http_error "sign in first" 401)
          else match present (fe_PRIVY_APP_ID env), present (fe_PRIVY_APP_SECRET env) with
               | Some app, Some _ =>
                   match verifyPrivyToken verifyPrivy token app wallet with
                   | inl e => Some (http_error e 401)
                   | inr _ => None
                   end
               | _, _ => Some (http_error "faucet unavailable" 503)
               end
      end in
    match identity with
    | Some response => Some response
    | None =>
        match faucet_claims s !! wallet with
        | Some claimedAt =>
            if now - claimedAt <? CLAIM_INTERVAL_MS then
              Some (mkHttp 429 (JObj [("error", JStr "already claimed today");
                                      ("retryAfterSeconds", JNum ((claimedAt + CLAIM_INTERVAL_MS - now + 999) / 1000))]))
            else None
        | None => None
        end
    end.

(** The keeper's signer and address, or the refusal. *)
Definition faucet_signer (env : FaucetEnv) (unavailable : string) : result (HttpResponse + (Signer * string)) :=
  signing ← signing_of (fe_signing env);
  match kr_state signing, kr_signer signing with
  | signer_ready, Some signer => key ← publicKey signer; Ok (inr (signer, base58 key))
  | _, _ => Ok (inl (http_error unavailable 503))
  end.

(** Signing, sending and confirming one payment; what is sent is recorded. *)
Definition pay (chain : FaucetChain) (env : FaucetEnv) (signer : Signer) (keeper wallet : string) (tokens : Z) (sendSol : bool)
    : eff FaucetState (string * ConfirmationOutcome) :=
  instructions ← eff_lift (faucetInstructions associatedTokenAddress keeper wallet (fe_collateralMint env) sendSol tokens);
  value ← eff_lift (ch_blockhash chain);
  transaction ← eff_lift (signAndSerializeTransaction (compile_and_sign signer) instructions (fst value) limit_default None);
  _ ← eff_modify (fun s => mkFaucet (faucet_claims s) (paid s ++ [mkPayment wallet tokens sendSol transaction]));
  signature ← eff_lift (ch_send chain transaction);
  outcome ← eff_lift (ch_confirm chain signature);
  mret (signature, outcome).

(** Lines 281 to 296 of [claimFaucet]; [recordedAt] is the clock when the claim
    is recorded. *)
Definition claim_pay (chain : FaucetChain) (env : FaucetEnv) (wallet : string) (recordedAt : Z) : eff FaucetState HttpResponse :=
  signing ← eff_lift (faucet_signer env "faucet signer unavailable");
  match signing with
  | inl response => mret response
  | inr (signer, keeper) =>
      balance ← eff_lift (ch_balance chain wallet);
      keeperBalance ← eff_lift (ch_balance chain keeper);
      let sendSol := (balance <? SOL_TOP_UP_BELOW) && (FAUCET_KEEPER_SOL_FLOOR <? keeperBalance) in
      r ← pay chain env signer keeper wallet FAUCET_TOKENS sendSol;
      match snd r with
      | confirmed | finalized =>
          _ ← eff_modify (fun s => mkFaucet (<[wallet := recordedAt]> (faucet_claims s)) (paid s));
          mret (mkHttp 200 (JObj [("signature", JStr (fst r)); ("tokens", JStr (pretty FAUCET_TOKENS)); ("sol", JBool sendSol)]))
      | o => mret (mkHttp 502 (JObj [("error", JStr ("faucet transfer " +:+ outcome_text o)); ("signature", JStr (fst r))]))
      end
  end.

(** [claimFaucet], run without interruption. *)
Definition claimFaucet (chain : FaucetChain) (env : FaucetEnv) (authorization : option string) (body : ClaimBody) (now recordedAt : Z)
    : eff FaucetState HttpResponse := fun s =>
  match claim_check env authorization body now s with
  | Some response => (s, Ok response)
  | None => claim_pay chain env (cb_wallet body) recordedAt s
  end.

(** [isAuthorized] *)
Definition isAuthorized (authorization token : option string) : bool :=
  match present token with Some t => bool_decide (authorization = Some ("Bearer " +:+ t)) | None => false end.

(** [operatorMint]; [tokens] is the body's string, if it is one. *)
Definition operatorMint (chain : FaucetChain) (env : FaucetEnv) (authorization : option string) (wallet : string) (tokens : option string)
    : eff FaucetState HttpResponse :=
  if negb (isAuthorized authorization (fe_INGESTION_TOKEN env)) then mret (http_error "unauthorized" 401)
  else
    let amount := match tokens with Some t => if digit_string t then decimal t else 0 | None => 0 end in
    if bool_decide (wallet = "") || (amount <=? 0) || (OPERATOR_MINT_MAX <? amount)
    then mret (http_error "wallet and 0 < tokens <= 10M (base units) required" 400)
    else if bool_decide (present (Signers.SOLANA_RPC_URL (fe_signing env)) = None) || bool_decide (fe_collateralMint env = "")
    then mret (http_error "mint unavailable" 503)
    else
      signing ← eff_lift (faucet_signer env "keeper signer unavailable");
      match signing with
      | inl response => mret response
      | inr (signer, keeper) =>
          r ← pay chain env signer keeper wallet amount false;
          mret (mkHttp match snd r with confirmed | finalized => 200 | _ => 502 end
                  (JObj [("signature", JStr (fst r)); ("status", JStr (outcome_text (snd r)))]))
      end.

(** ** Who is paid, and how often *)

(** The caller proved control of the wallet. *)
Definition wallet_proved (env : FaucetEnv) (authorization : option string) (body : ClaimBody) (now : Z) : Prop :=
  (exists message signature, cb_message body = Some message /\ cb_signature body = Some signature
     /\ verifyFaucetSignature (cb_wallet body) message signature (now / 1000) = true)
  \/ (exists token claims, verifyPrivy token = Ok claims /\ pc_user_id claims ≠ "" /\ cb_wallet body ∈ pc_solanaWallets claims
       /\ (authorization = Some token \/ bearer_token authorization = Some token)).

Lemma verify_privy_inr token app wallet user :
  verifyPrivyToken verifyPrivy token app wallet = inr user ->
  exists claims, verifyPrivy token = Ok claims /\ pc_user_id claims ≠ "" /\ wallet ∈ pc_solanaWallets claims.
Proof.
  unfold verifyPrivyToken. destruct (verifyPrivy token) as [claims|]; [|done]. case_bool_decide as Hu; [done|].
  destruct (match Relay.truthy (pc_app_id claims) with Some a => _ | None => _ end); [done|].
  destruct (negb _) eqn:El; [done|]. intros _. exists claims. by apply negb_false_iff, bool_decide_eq_true in El.
Qed.

Lemma claim_check_None env authorization body now s : claim_check env authorization body now s = None ->
  wallet_proved env authorization body now /\ cb_wallet body ≠ ""
  /\ (forall t, faucet_claims s !! cb_wallet body = Some t -> CLAIM_INTERVAL_MS <= now - t).
Proof.
  unfold claim_check. case_bool_decide as Hw; [done|]. destruct (_ || _ || _)%bool; [done|]. cbv zeta.
  assert (forall o, match o with Some response => Some response | None =>
      match faucet_claims s !! cb_wallet body with
      | Some claimedAt => if now - claimedAt <? CLAIM_INTERVAL_MS then
          Some (mkHttp 429 (JObj [("error", JStr "already claimed today"); ("retryAfterSeconds", JNum ((claimedAt + CLAIM_INTERVAL_MS - now + 999) / 1000))]))
          else None
      | None => None end end = None ->
    o = None /\ (forall t, faucet_claims s !! cb_wallet body = Some t -> CLAIM_INTERVAL_MS <= now - t)) as Hlast.
  { intros [o|]; [done|]. intros H. split; [done|]. intros t Ht. rewrite Ht in H. destruct (_ <? _) eqn:E in H; [done|]. zbool. lia. }
  intros [Hid Ht]%Hlast. split_and!; [|done|done]. unfold wallet_proved. clear Hlast Ht.
  destruct (cb_message body) as [message|], (cb_signature body) as [signature|].
  1: { left. exists message, signature. split_and!; try done. by destruct (verifyFaucetSignature _ _ _ _). }
  all: right; revert Hid; case_bool_decide as Htok; [done|];
    (destruct (present (fe_PRIVY_APP_ID env)) as [app|]; [|done]); (destruct (present (fe_PRIVY_APP_SECRET env)); [|done]);
    destruct (verifyPrivyToken verifyPrivy _ app (cb_wallet body)) as [e|user] eqn:Ev; [done|]; intros _;
    apply verify_privy_inr in Ev as (claims & Hc & Hu & Hl); eexists _, claims; split_and!; [exact Hc|done|done|];
    (destruct authorization as [h|]; [|done]); (destruct (bearer_token (Some h)); [by right|by left]).
Qed.

(** One payment: nothing, or one transaction whose instructions are the faucet's. *)
Lemma pay_spec chain env signer keeper wallet tokens sendSol s s' r :
  pay chain env signer keeper wallet tokens sendSol s = (s', r) ->
  faucet_claims s' = faucet_claims s
  /\ (paid s' = paid s /\ is_ok r = false
      \/ exists tx instructions blockhash,
         paid s' = paid s ++ [mkPayment wallet tokens sendSol tx]
         /\ faucetInstructions associatedTokenAddress keeper wallet (fe_collateralMint env) sendSol tokens = Ok instructions
         /\ signAndSerializeTransaction (compile_and_sign signer) instructions blockhash limit_default None = Ok tx
         /\ (forall signature outcome, r = Ok (signature, outcome) -> ch_send chain tx = Ok signature /\ ch_confirm chain signature = Ok outcome)).
Proof.
  unfold pay. run_eff.
  destruct (faucetInstructions associatedTokenAddress keeper wallet (fe_collateralMint env) sendSol tokens) as [instructions|e] eqn:Ei;
    [|intros [= <- <-]; split; [done|by left]].
  destruct (ch_blockhash chain) as [[blockhash height]|e]; [|intros [= <- <-]; split; [done|by left]]. cbn [fst snd].
  destruct (signAndSerializeTransaction _ instructions blockhash _ _) as [tx|e] eqn:Et; [|intros [= <- <-]; split; [done|by left]].
  destruct (ch_send chain tx) as [signature|e] eqn:Es.
  - destruct (ch_confirm chain signature) as [outcome|e] eqn:Ec; intros [= <- <-]; (split; [done|right]);
      exists tx, instructions, blockhash; split_and!; try done. by intros ? ? [= <- <-].
  - intros [= <- <-]. split; [done|right]. exists tx, instructions, blockhash. by split_and!.
Qed.

(** The outcomes [claimFaucet] records. *)
Definition settled (o : ConfirmationOutcome) : Prop := o = confirmed \/ o = finalized.

Lemma claim_pay_spec chain env wallet recordedAt s s' r :
  claim_pay chain env wallet recordedAt s = (s', r) ->
  (paid s' = paid s /\ faucet_claims s' = faucet_claims s /\ (forall response, r = Ok response -> http_status response ≠ 200))
  \/ exists signer keeper sendSol tx instructions blockhash,
     faucet_signer env "faucet signer unavailable" = Ok (inr (signer, keeper))
     /\ faucetInstructions associatedTokenAddress keeper wallet (fe_collateralMint env) sendSol FAUCET_TOKENS = Ok instructions
     /\ signAndSerializeTransaction (compile_and_sign signer) instructions blockhash limit_default None = Ok tx
     /\ (sendSol = true -> exists own mine, ch_balance chain wallet = Ok own /\ own < SOL_TOP_UP_BELOW
                             /\ ch_balance chain keeper = Ok mine /\ FAUCET_KEEPER_SOL_FLOOR < mine)
     /\ paid s' = paid s ++ [mkPayment wallet FAUCET_TOKENS sendSol tx]
     /\ (faucet_claims s' = faucet_claims s /\ (forall response, r = Ok response -> http_status response ≠ 200)
         \/ faucet_claims s' = <[wallet := recordedAt]> (faucet_claims s)
            /\ (exists response, r = Ok response /\ http_status response = 200)
            /\ exists signature outcome, ch_send chain tx = Ok signature /\ ch_confirm chain signature = Ok outcome /\ settled outcome).
Proof.
  unfold claim_pay. unfold mbind at 1, eff_bind at 1, eff_lift at 1.
  destruct (faucet_signer env "faucet signer unavailable") as [[response|[signer keeper]]|e] eqn:Es.
  - intros [= <- <-]. left. split_and!; try done. intros ? [= <-]. revert Es. unfold faucet_signer.
    intros (sg & _ & Hs)%result_bind_Ok. destruct (kr_state sg), (kr_signer sg); try (by injection Hs as <-).
    by apply result_bind_Ok in Hs as (? & _ & ?).
  - unfold mbind at 1, eff_bind at 1, eff_lift at 1. destruct (ch_balance chain wallet) as [own|e] eqn:Eb; [|intros [= <- <-]; by left].
    unfold mbind at 1, eff_bind at 1, eff_lift at 1. destruct (ch_balance chain keeper) as [mine|e] eqn:Em; [|intros [= <- <-]; by left].
    cbv zeta. set (sendSol := _ && _). unfold mbind at 1, eff_bind at 1. destruct (pay chain env signer keeper wallet FAUCET_TOKENS sendSol s) as [s1 r1] eqn:Ep.
    apply pay_spec in Ep as [Hclaims [[Hpaid Hr]|(tx & instructions & blockhash & Hpaid & Hi & Ht & Hr)]].
    { destruct r1; [done|]. intros [= <- <-]. left. done. }
    intros H. right. exists signer, keeper, sendSol, tx, instructions, blockhash. split_and!; try done.
    + intros [H1 H2]%andb_true_iff. zbool. by exists own, mine.
    + destruct r1 as [[signature outcome]|e]; [|by injection H as <- <-]. by destruct outcome; injection H as <- <-.
    + destruct r1 as [[signature outcome]|e]; [|left; injection H as <- <-; by rewrite Hclaims].
      destruct (Hr _ _ eq_refl) as [Hsend Hconf]. destruct outcome; injection H as <- <-; cbn; rewrite ?Hclaims;
        [right|right|left; split; [done|by intros ? [= <-]]..]; (split_and!; [done|by eexists|]); eexists _, _; split_and!; try done; [by left|by right].
  - intros [= <- <-]. by left.
Qed.

(** The faucet pays only a wallet that asked, at most once a day.  Whatever
    the chain answers, a claim pays nothing, or makes exactly one payment: then
    the caller signed the claim message with the wallet's key within five minutes
    or presented a Privy identity linked to the wallet, a day has passed since
    the last recorded payment to it, the payment is the fixed amount with SOL
    added only for a poor wallet and a keeper above its floor; and the claim is
    recorded exactly when the answer is 200, which needs the confirmation of that
    very transaction. *)
Theorem faucet_claim_spec chain env authorization body now recordedAt s s' r :
  claimFaucet chain env authorization body now recordedAt s = (s', r) ->
  (paid s' = paid s /\ faucet_claims s' = faucet_claims s /\ (forall response, r = Ok response -> http_status response ≠ 200))
  \/ (wallet_proved env authorization body now
      /\ (forall t, faucet_claims s !! cb_wallet body = Some t -> CLAIM_INTERVAL_MS <= now - t)
      /\ exists keeper sendSol tx instructions,
         faucetInstructions associatedTokenAddress keeper (cb_wallet body) (fe_collateralMint env) sendSol FAUCET_TOKENS = Ok instructions
         /\ paid s' = paid s ++ [mkPayment (cb_wallet body) FAUCET_TOKENS sendSol tx]
         /\ (sendSol = true -> exists own mine, ch_balance chain (cb_wallet body) = Ok own /\ own < SOL_TOP_UP_BELOW
                                 /\ ch_balance chain keeper = Ok mine /\ FAUCET_KEEPER_SOL_FLOOR < mine)
         /\ (faucet_claims s' = faucet_claims s /\ (forall response, r = Ok response -> http_status response ≠ 200)
             \/ faucet_claims s' = <[cb_wallet body := recordedAt]> (faucet_claims s)
                /\ (exists response, r = Ok response /\ http_status response = 200)
            /\ exists signature outcome, ch_send chain tx = Ok signature /\ ch_confirm chain signature = Ok outcome /\ settled outcome)).
Proof.
  unfold claimFaucet. destruct (claim_check env authorization body now s) as [response|] eqn:Ec.
  - intros [= <- <-]. left. split_and!; try done. intros ? [= <-]. revert Ec. unfold claim_check.
    repeat case_match; intros; simplify_eq; done.
  - apply claim_check_None in Ec as (Hp & _ & Ht).
    intros [H|(signer & keeper & sendSol & tx & instructions & blockhash & _ & Hi & _ & Hsol & Hpaid & Hrec)]%claim_pay_spec; [by left|].
    right. split_and!; try done. by exists keeper, sendSol, tx, instructions.
Qed.

(** *** A day between payments *)

Record ClaimCall := mkClaimCall {
  cc_chain : FaucetChain; cc_env : FaucetEnv; cc_authorization : option string; cc_body : ClaimBody; cc_now : Z; cc_recordedAt : Z }.

Definition claim_call (c : ClaimCall) : eff FaucetState HttpResponse :=
  claimFaucet (cc_chain c) (cc_env c) (cc_authorization c) (cc_body c) (cc_now c) (cc_recordedAt c).
Definition claims_run (calls : list ClaimCall) (s : FaucetState) : FaucetState := foldl (fun s c => fst (claim_call c s)) s calls.

(** The claim paid in state [s]; it was answered with 200 there. *)
Definition pays (c : ClaimCall) (s : FaucetState) : Prop := paid (fst (claim_call c s)) ≠ paid s.
Definition succeeds (c : ClaimCall) (s : FaucetState) : Prop :=
  exists response, snd (claim_call c s) = Ok response /\ http_status response = 200.

Lemma claims_run_app before c between s :
  claims_run (before ++ c :: between) s = claims_run between (fst (claim_call c (claims_run before s))).
Proof. unfold claims_run. by rewrite foldl_app. Qed.

(** The wallet has a recorded payment no older than [from]. *)
Definition paid_since (from : Z) (wallet : string) (s : FaucetState) : Prop :=
  exists t, faucet_claims s !! wallet = Some t /\ from <= t.

Lemma claim_call_since from wallet c s : paid_since from wallet s -> from <= cc_recordedAt c -> paid_since from wallet (fst (claim_call c s)).
Proof.
  intros (t & Ht & Hle) Hc. unfold claim_call, claimFaucet. destruct (claim_check _ _ _ _ _) as [response|]; [by exists t|].
  destruct (claim_pay (cc_chain c) (cc_env c) (cb_wallet (cc_body c)) (cc_recordedAt c) s) as [s' r] eqn:E.
  apply claim_pay_spec in E as [(_ & Hcl & _)|(sg & k & ss & tx & ix & bh & _ & _ & _ & _ & _ & [[Hcl _]|[Hcl _]])];
    unfold paid_since; cbn; rewrite Hcl; [by exists t|by exists t|].
  destruct (decide (cb_wallet (cc_body c) = wallet)) as [->|Hne]; [rewrite lookup_insert_eq; by exists (cc_recordedAt c)|].
  rewrite lookup_insert_ne by done. by exists t.
Qed.

Lemma claims_run_since from wallet calls : forall s,
  paid_since from wallet s -> Forall (fun c => from <= cc_recordedAt c) calls -> paid_since from wallet (claims_run calls s).
Proof.
  induction calls as [|c calls IH]; intros s Hs Hall; [done|]. inversion Hall; subst. cbn. apply IH; [by apply claim_call_since|done].
Qed.

Lemma succeeds_since c s : succeeds c s -> paid_since (cc_recordedAt c) (cb_wallet (cc_body c)) (fst (claim_call c s)).
Proof.
  intros (response & Hr & H200). unfold claim_call, claimFaucet in *.
  destruct (claim_check (cc_env c) (cc_authorization c) (cc_body c) (cc_now c) s) as [refusal|] eqn:Ec.
  - cbn in Hr. injection Hr as ->. exfalso. revert Ec. unfold claim_check. repeat case_match; intros; simplify_eq; done.
  - destruct (claim_pay _ _ _ _ s) as [s' r] eqn:E. cbn in *.
    apply claim_pay_spec in E as [(_ & _ & Hn)|(sg & k & ss & tx & ix & bh & _ & _ & _ & _ & _ & [[_ Hn]|[Hcl _]])]; [by destruct (Hn _ Hr)|by destruct (Hn _ Hr)|].
    exists (cc_recordedAt c). rewrite Hcl, lookup_insert_eq. split; [done|lia].
Qed.

(** A day between two payments.  In a sequence of claims handled one after
    the other, if a claim of a wallet was answered with 200 and a later claim of
    the same wallet pays again, at least 24 hours lie between the record of the
    first and the second, whatever happened in between. *)
Theorem faucet_daily before c1 between c2 s :
  Forall (fun c => cc_recordedAt c1 <= cc_recordedAt c) between ->
  cb_wallet (cc_body c2) = cb_wallet (cc_body c1) ->
  succeeds c1 (claims_run before s) ->
  pays c2 (claims_run (before ++ c1 :: between) s) ->
  CLAIM_INTERVAL_MS <= cc_now c2 - cc_recordedAt c1.
Proof.
  intros Hall Hw Hok Hpay. rewrite claims_run_app in Hpay. unfold pays in Hpay.
  apply succeeds_since in Hok. pose proof (claims_run_since _ _ between _ Hok Hall) as (t & Ht & Hle).
  set (s2 := claims_run between _) in *. unfold claim_call, claimFaucet in Hpay.
  destruct (claim_check (cc_env c2) (cc_authorization c2) (cc_body c2) (cc_now c2) s2) as [r|] eqn:Ec; [done|].
  apply claim_check_None in Ec as (_ & _ & Hlast). rewrite Hw in Hlast. specialize (Hlast t Ht). lia.
Qed.

(** A payment whose confirmation times out is not recorded: the wallet can claim
    again at once. *)
Theorem unconfirmed_claim_repeats chain env authorization body now recordedAt s s' r later :
  (forall signature, ch_confirm chain signature = Ok timeout) ->
  claimFaucet chain env authorization body now recordedAt s = (s', r) ->
  claim_check env authorization body later s' = claim_check env authorization body later s.
Proof.
  intros Ht H. unfold claimFaucet in H. destruct (claim_check env authorization body now s); [by injection H as <- <-|].
  assert (faucet_claims s' = faucet_claims s) as Hc.
  { apply claim_pay_spec in H as [(_ & Hc & _)|(sg & k & ss & tx & ix & bh & _ & _ & _ & _ & _ & [[Hc _]|(_ & _ & sig & o & _ & Ho & [->| ->])])];
      [done|done|rewrite Ht in Ho; congruence..]. }
  unfold claim_check. by rewrite Hc.
Qed.

(** Two claims of one wallet that both read the table before either is recorded
    both pay. *)
Theorem concurrent_claims_pay_twice chain env authorization body now s s1 s2 r1 r2 :
  claim_check env authorization body now s = None ->
  claim_pay chain env (cb_wallet body) now s = (s1, Ok r1) -> http_status r1 = 200 ->
  claim_pay chain env (cb_wallet body) now s1 = (s2, Ok r2) -> http_status r2 = 200 ->
  exists p1 p2, paid s2 = paid s ++ [p1; p2] /\ pay_wallet p1 = cb_wallet body /\ pay_wallet p2 = cb_wallet body.
Proof.
  intros _ H1 Hs1 H2 Hs2.
  apply claim_pay_spec in H1 as [(_ & _ & Hn)|(? & ? & ? & ? & ? & ? & _ & _ & _ & _ & Hp1 & _)]; [by destruct (Hn _ eq_refl)|].
  apply claim_pay_spec in H2 as [(_ & _ & Hn)|(? & ? & ? & ? & ? & ? & _ & _ & _ & _ & Hp2 & _)]; [by destruct (Hn _ eq_refl)|].
  eexists _, _. rewrite Hp2, Hp1, <- app_assoc. by split_and!.
Qed.

(** *** Signed claims *)

Lemma after_prefix_spec p m rest : after_prefix p m = Some rest -> m = p +:+ rest.
Proof.
  revert m. induction p as [|c p IH]; intros m; cbn; [by intros [= ->]|]. destruct m as [|d m]; [done|].
  case_bool_decide as H; [|done]. subst. intros ->%IH. done.
Qed.

(** A signed claim is for this wallet, now.  The check accepts a signature
    exactly when the message is the canonical text for this wallet and some time
    within five minutes of the clock (the time being the one printed in the
    text), the wallet is a 32-byte key, the signature has 64 bytes and verifies
    for the message under that key.  A claim signed for another wallet, or an
    old one, is refused. *)
Theorem faucet_signature_spec wallet message signatureBase64 nowSeconds :
  verifyFaucetSignature wallet message signatureBase64 nowSeconds = true <->
  exists issued publicKey signature,
    issued_in message = Some issued /\ message = faucetClaimMessage wallet issued /\ Z.abs (nowSeconds - issued) <= 300
    /\ base58Bytes wallet = Ok publicKey /\ blen publicKey = 32
    /\ atob signatureBase64 = Ok signature /\ blen signature = 64 /\ verifyEd25519 publicKey signature message = Ok true.
Proof.
  unfold verifyFaucetSignature. destruct (issued_in message) as [issued|]; [|naive_solver].
  split.
  - destruct (negb _ || _)%bool eqn:E; [done|]. apply orb_false_iff in E as [E1%negb_false_iff%bool_decide_eq_true E2]. zbool.
    destruct (base58Bytes wallet) as [pk|]; [|done]. destruct (atob signatureBase64) as [sg|]; [|done].
    destruct (negb _ || negb _)%bool eqn:E; [done|]. apply orb_false_iff in E as [E3%negb_false_iff E4%negb_false_iff]. zbool.
    destruct (verifyEd25519 pk sg message) as [[]|] eqn:Ev; try done. intros _. exists issued, pk, sg. split_and!; try done; lia.
  - intros (i & pk & sg & [= <-] & Hm & Ht & -> & Hpk & -> & Hsg & ->).
    rewrite (bool_decide_eq_true_2 _ Hm), Hpk, Hsg. cbn. by rewrite (proj2 (Z.ltb_ge _ _)) by lia.
Qed.

(** ** The operator mint *)

(** What the token instruction of a payment encodes. *)
Lemma u64_roundtrip tokens : 0 <= tokens < 2 ^ 64 -> le_combine (u64 tokens) = tokens.
Proof. intros H. unfold u64. rewrite Z.mod_small by lia. by apply le_combine_split. Qed.

(** The operator mint is bounded.  It pays nothing, or makes exactly one
    payment of tokens only: then the caller presented the ingestion token, which
    is configured, the amount is the decimal number of the request, positive and
    at most ten million tokens, and the mint instruction carries exactly that
    amount in its eight bytes. *)
Theorem operator_mint_spec chain env authorization wallet tokens s s' r :
  operatorMint chain env authorization wallet tokens s = (s', r) ->
  faucet_claims s' = faucet_claims s
  /\ (paid s' = paid s
      \/ exists token text keeper tx instructions ata,
         present (fe_INGESTION_TOKEN env) = Some token /\ authorization = Some ("Bearer " +:+ token)
         /\ tokens = Some text /\ digit_string text = true /\ 0 < decimal text <= OPERATOR_MINT_MAX
         /\ paid s' = paid s ++ [mkPayment wallet (decimal text) false tx]
         /\ faucetInstructions associatedTokenAddress keeper wallet (fe_collateralMint env) false (decimal text) = Ok instructions
         /\ (ix_data <$> instructions) = [[1]; 7 :: ata] /\ le_combine ata = decimal text).
Proof.
  unfold operatorMint. destruct (isAuthorized _ _) eqn:Ea; cbn [negb]; [|intros [= <- <-]; split; [done|by left]].
  cbv zeta. destruct (_ || _ || _)%bool eqn:Eb; [intros [= <- <-]; split; [done|by left]|].
  destruct (bool_decide (present (Signers.SOLANA_RPC_URL (fe_signing env)) = None) || bool_decide (fe_collateralMint env = ""));
    [intros [= <- <-]; split; [done|by left]|].
  unfold mbind at 1, eff_bind at 1, eff_lift at 1.
  destruct (faucet_signer env "keeper signer unavailable") as [[response|[signer keeper]]|e]; [intros [= <- <-]; split; [done|by left]| |intros [= <- <-]; split; [done|by left]].
  set (amount := match tokens with Some t => _ | None => 0 end) in *. unfold mbind, eff_bind.
  destruct (pay chain env signer keeper wallet amount false s) as [s1 r1] eqn:Ep. intros H.
  assert (s' = s1) as -> by (by destruct r1; injection H as <- <-).
  apply pay_spec in Ep as [Hc [[Hp _]|(tx & instructions & blockhash & Hp & Hi & _ & _)]]; (split; [done|]); [by left|right].
  rewrite !orb_false_iff in Eb. destruct Eb as [[_ Hpos] Hmax]. zbool.
  unfold isAuthorized in Ea. destruct (present (fe_INGESTION_TOKEN env)) as [token|]; [|done]. apply bool_decide_eq_true in Ea.
  subst amount. destruct tokens as [text|]; [|lia]. destruct (digit_string text) eqn:Ed; [|lia].
  exists token, text, keeper, tx, instructions, (u64 (decimal text)). split_and!; try done.
  - unfold faucetInstructions in Hi. apply result_bind_Ok in Hi as (ata & _ & [= <-]). done.
  - apply u64_roundtrip. unfold OPERATOR_MINT_MAX in *. lia.
Qed.
End Signature.

(** A deployment with a funded keeper. *)
Module FaucetSample.
Definition signer : Signer := mkSigner "k" (Ok [9]) (fun _ => Ok [7]) (mkHealth true None).
Definition env : FaucetEnv :=
  mkFaucetEnv (mkSigningEnv None None (Some "https://devnet")) true "mint" (Some "app") (Some "secret") (Some "ingest").
Definition resolve (_ : KeeperSigningEnv) : result KeeperSigningResolution := Ok (mkResolution signer_ready "" (Some signer) None).
Definition privy (token : string) : result PrivyClaims := if bool_decide (token = "t") then Ok (mkClaims "u" None ["w"]) else Throw "bad".
Definition chain (o : ConfirmationOutcome) : FaucetChain :=
  mkChain (fun k => Ok (if bool_decide (k = "w") then 0 else 10 ^ 9)) (Ok ("hash", 5)) (fun _ => Ok "sig") (fun _ => Ok o).
Definition call (o : ConfirmationOutcome) (now : Z) : ClaimCall := mkClaimCall (chain o) env (Some "Bearer t") (mkClaim "w" None None) now now.
Definition do_claim := claimFaucet (fun _ => Ok []) (fun _ => Ok []) (fun _ _ _ => Ok true) privy resolve (fun _ => "keeper")
  (fun w m => Ok (w +:+ m)) (fun _ _ _ => Ok "TX").
Definition answer : HttpResponse :=
  mkHttp 200 (JObj [("signature", JStr "sig"); ("tokens", JStr "1000000000"); ("sol", JBool true)]).
Definition after : FaucetState := mkFaucet {["w" := 1000]} [mkPayment "w" FAUCET_TOKENS true "TX"].
End FaucetSample.

Lemma faucet_claim_spec_witness :
  FaucetSample.do_claim (FaucetSample.chain confirmed) FaucetSample.env (Some "Bearer t") (mkClaim "w" None None) 1000 1000 (mkFaucet ∅ [])
    = (FaucetSample.after, Ok FaucetSample.answer)
  /\ exists p, paid FaucetSample.after = [p].
Proof.
  assert (FaucetSample.do_claim (FaucetSample.chain confirmed) FaucetSample.env (Some "Bearer t") (mkClaim "w" None None) 1000 1000 (mkFaucet ∅ [])
    = (FaucetSample.after, Ok FaucetSample.answer)) as H by (vm_compute; reflexivity).
  split; [exact H|].
  destruct (faucet_claim_spec (fun _ => Ok []) (fun _ => Ok []) (fun _ _ _ => Ok true) FaucetSample.privy FaucetSample.resolve (fun _ => "keeper")
    (fun w m => Ok (w +:+ m)) (fun _ _ _ => Ok "TX") _ _ _ _ _ _ _ _ _ H) as [(_ & _ & Hr)|(_ & _ & k & sol & tx & ix & _ & Hp & _)].
  - exfalso. exact (Hr FaucetSample.answer eq_refl eq_refl).
  - by eexists.
Defined.

Lemma faucet_daily_witness : CLAIM_INTERVAL_MS <= 86402000 - 1000.
Proof.
  pose proof (faucet_daily (fun _ => Ok []) (fun _ => Ok []) (fun _ _ _ => Ok true) FaucetSample.privy FaucetSample.resolve (fun _ => "keeper")
    (fun w m => Ok (w +:+ m)) (fun _ _ _ => Ok "TX") [] (FaucetSample.call confirmed 1000) [FaucetSample.call timeout 2000]
    (FaucetSample.call confirmed 86402000) (mkFaucet ∅ [])) as H. cbn in H. apply H.
  - constructor; [vm_compute; discriminate|constructor].
  - reflexivity.
  - exists FaucetSample.answer. split; vm_compute; reflexivity.
  - vm_compute. discriminate.
Defined.

Lemma operator_mint_spec_witness :
  exists s' r, operatorMint FaucetSample.resolve (fun _ => "keeper") (fun w m => Ok (w +:+ m)) (fun _ _ _ => Ok "TX") (FaucetSample.chain confirmed) FaucetSample.env
      (Some "Bearer ingest") "w" (Some "250") (mkFaucet ∅ []) = (s', r) /\ faucet_claims s' = ∅ /\ paid s' = [mkPayment "w" 250 false "TX"].
Proof.
  eexists _, _. split; [vm_compute; reflexivity|]. split; [|reflexivity].
  exact (proj1 (operator_mint_spec FaucetSample.resolve (fun _ => "keeper") (fun w m => Ok (w +:+ m)) (fun _ _ _ => Ok "TX") (FaucetSample.chain confirmed)
    FaucetSample.env (Some "Bearer ingest") "w" (Some "250") (mkFaucet ∅ []) _ _ ltac:(vm_compute; reflexivity))).
Defined.
