(* ===== verification/PublicApi.v ===== *)
(** * The worker's public read services

    workers/src/cors.ts with the CORS wrapper of workers/src/index.ts,
    launches.ts, pre-ipo.ts and candles.ts.  The chain, the two third-party
    history and price services and [Number(text)] are parameters. *)

From stdpp Require Import sorting.
From S2P Require Import Prelude Json Bytes EventDecoder Keepers ChainTransports RelayRoute BrowserRpc.

(** ** cors.ts *)

(** A response: headers are a list of names (in lower case) and values. *)
Record CorsResponse (B : Type) := mkCorsResponse { co_status : Z; co_body : option B; co_headers : list (string * string) }.
Arguments mkCorsResponse {B}. Arguments co_status {B}. Arguments co_body {B}. Arguments co_headers {B}.

Record CorsRequest := mkCorsRequest { cq_method : string; cq_path : string; cq_origin : option string }.

(** [headers.set(name, value)] *)
Definition set_header (headers : list (string * string)) (h : string * string) : list (string * string) :=
  filter (fun e => fst e ≠ fst h) headers ++ [h].

Definition comma : Ascii.ascii := Ascii.ascii_of_nat 44.

Definition allowedOrigin (request : CorsRequest) (CORS_ALLOWED_ORIGINS : option string) : option string :=
  match cq_origin request with
  | None => None
  | Some origin =>
      if bool_decide (origin = "") then None
      else
        let allowed := filter (fun v => v ≠ "") (trim <$> split_char comma (default "" CORS_ALLOWED_ORIGINS)) in
        if bool_decide (origin ∈ allowed) then Some origin else None
  end.

Definition corsHeaders (origin : string) (allowPost : bool) : list (string * string) :=
  [("access-control-allow-origin", origin);
   ("access-control-allow-methods", if allowPost then "GET, HEAD, POST" else "GET, HEAD")]
  ++ (if allowPost then [("access-control-allow-headers", "authorization, content-type")] else [])
  ++ [("access-control-max-age", "600"); ("vary", "Origin")].

Definition preflight {B} (request : CorsRequest) (env : option string) (allowPost : bool) : CorsResponse B :=
  match allowedOrigin request env with
  | Some origin => mkCorsResponse 204 None (corsHeaders origin allowPost)
  | None => mkCorsResponse 403 None []
  end.

Definition read_method (request : CorsRequest) : bool :=
  bool_decide (cq_method request = "GET") || bool_decide (cq_method request = "HEAD").

Definition applyCors {B} (request : CorsRequest) (env : option string) (response : CorsResponse B) (allowPost : bool) : CorsResponse B :=
  match allowedOrigin request env with
  | Some origin =>
      if negb (read_method request || (allowPost && bool_decide (cq_method request = "POST"))) || (co_status response =? 101) then response
      else mkCorsResponse (co_status response) (co_body response) (foldl set_header (co_headers response) (corsHeaders origin allowPost))
  | None => response
  end.

Definition PUBLIC_POST_ROUTES : list string := ["/v1/oracle/refresh"; "/v1/faucet"; "/v1/launches"].

(** [worker.fetch] around the handler. *)
Definition worker_fetch {B} (handle : CorsRequest -> CorsResponse B) (env : option string) (request : CorsRequest) : CorsResponse B :=
  let publicPost := bool_decide (cq_path request ∈ PUBLIC_POST_ROUTES) in
  if bool_decide (cq_method request = "OPTIONS") then preflight request env publicPost
  else applyCors request env (handle request) publicPost.

(** What a browser of another origin may do with a response: a header of the
    given name and value is present. *)
Definition has_header {B} (name value : string) (r : CorsResponse B) : Prop := (name, value) ∈ co_headers r.

(** ** launches.ts *)

Definition DBC_PROGRAM_ID : string := "dbcij3LWUppWqq96dh6gJWwBifmcGfLSB5D4DuSMaqN".

Record LaunchRow := mkLaunch {
  la_pool : string; la_baseMint : string; la_symbol : string; la_name : string; la_preset : string; la_createdAt : Z }.

(** [/^[1-9A-HJ-NP-Za-km-z]{32,44}$/] *)
Definition BASE58 (s : string) : bool :=
  (32 <=? String.length s)%nat && (String.length s <=? 44)%nat && forallb base58_char (String.list_ascii_of_string s).

(** [/^[A-Z0-9]{2,10}$/] *)
Definition symbol_char (c : Ascii.ascii) : bool := range 65 90 c || range 48 57 c.
Definition SYMBOL (s : string) : bool :=
  (2 <=? String.length s)%nat && (String.length s <=? 10)%nat && forallb symbol_char (String.list_ascii_of_string s).

(** [toUpperCase] on Latin-1: sharp s becomes two letters; the micro sign and y
    with diaeresis, whose capitals lie outside Latin-1, are left as they are. *)
Definition upper_char (c : Ascii.ascii) : string :=
  let n := Ascii.nat_of_ascii c in
  if bool_decide (n = 223%nat) then "SS"
  else if range 97 122 c || (range 224 254 c && negb (bool_decide (n = 247%nat))) then String (Ascii.ascii_of_nat (n - 32)) EmptyString
  else String c EmptyString.
Fixpoint toUpperCase (s : string) : string :=
  match s with EmptyString => EmptyString | String c rest => upper_char c +:+ toUpperCase rest end.

(** [text(key, max)]; a [null] or absent body has no keys. *)
Definition launch_text (body : option json) (key : string) (max : nat) : string :=
  match body ≫= prop key with Some (JStr s) => String.substring 0 max (trim s) | _ => "" end.

Definition parseLaunch (body : option json) (now : Z) : string + LaunchRow :=
  let row := mkLaunch (launch_text body "pool" 44) (launch_text body "baseMint" 44) (toUpperCase (launch_text body "symbol" 64))
               (launch_text body "name" 40) (launch_text body "preset" 20) now in
  if negb (BASE58 (la_pool row)) || negb (BASE58 (la_baseMint row)) then inl "pool and baseMint must be addresses"
  else if negb (SYMBOL (la_symbol row)) || bool_decide (la_name row = "") then inl "name and a 2-10 character symbol are required"
  else inr row.

Abbreviation LaunchTable := (gmap string LaunchRow).

(** [registerLaunch]: [owner_of] is [getAccountInfo]'s owner, [None] when there is
    no account. *)
Definition registerLaunch (owner_of : string -> result (option string)) (body : option json) (now : Z) : eff LaunchTable HttpResponse :=
  match parseLaunch body now with
  | inl e => mret (http_error e 400)
  | inr row =>
      owner ← eff_lift (owner_of (la_pool row));
      if negb (bool_decide (owner = Some DBC_PROGRAM_ID)) then mret (http_error "not a Meteora DBC pool" 400)
      else
        _ ← eff_modify (fun t => match t !! la_pool row with Some _ => t | None => <[la_pool row := row]> t end);
        mret (mkHttp 200 (JObj [("ok", JBool true)]))
  end.

Definition launched_after (a b : LaunchRow) : Prop := la_createdAt b <= la_createdAt a.
#[export] Instance launched_after_dec a b : Decision (launched_after a b).
Proof. unfold launched_after. apply _. Defined.

(** [ORDER BY created_at DESC LIMIT 50] *)
Definition listLaunches (t : LaunchTable) : list LaunchRow := take 50 (merge_sort launched_after ((map_to_list t).*2)).

(** ** pre-ipo.ts *)

Record PreIpoToken := mkPreIpo {
  pi_name : string; pi_symbol : string; pi_mint : string; pi_markPrice : Z; pi_tokenPrice : option Z; pi_markValuation : option Z;
  pi_image : option string; pi_url : option string }.

Definition num (v : option json) : option Z := match v with Some (JNum z) => Some z | _ => None end.
Definition str (v : option json) : option string := match v with Some (JStr s) => Some s | _ => None end.

(** One row; reading a property of [null] throws. *)
Definition normalize_row (row : json) : result (list PreIpoToken) :=
  match row with
  | JNull => Throw "Cannot read properties of null"
  | _ =>
      Ok (match str (prop "contract_address" row), num (prop "markPrice" row) with
          | Some mint, Some mark =>
              if bool_decide (mint = "") then []
              else [mkPreIpo (default mint (str (prop "name" row))) (default "" (str (prop "symbol" row))) mint mark
                      (num (prop "tokenPrice" row)) (num (prop "markValuation" row)) (str (prop "image" row)) (str (prop "external_url" row))]
          | _, _ => []
          end)
  end.

Definition normalizePreStocks (rows : option json) : result (list PreIpoToken) :=
  match rows with
  | Some (JArr items) => tokens ← mapR normalize_row items; Ok (concat tokens)
  | _ => Ok []
  end.

(** [fetchPreIpoTokens]: [upstream] is the parsed answer, [None] when the request
    failed or was refused. *)
Definition fetchPreIpoTokens (upstream : option json) (now : Z) (cached : option (Z * list PreIpoToken))
    : option (Z * list PreIpoToken) * result (list PreIpoToken) :=
  let refresh :=
    match normalizePreStocks upstream with
    | Throw e => (cached, Throw e)
    | Ok tokens => (match tokens with [] => cached | _ => Some (now, tokens) end, Ok tokens)
    end in
  match cached with
  | Some (at_, tokens) => if now - at_ <? 60000 then (cached, Ok tokens) else refresh
  | None => refresh
  end.

(** ** candles.ts *)

Definition CANDLE_RESOLUTIONS : list string := ["1"; "5"; "15"; "60"; "240"; "D"].
Definition MAX_SPAN_SECONDS : Z := 60 * 60 * 24 * 200.
Definition HISTORY_URL : string := "https://pyth.dourolabs.app/history/v1/fixed_rate@200ms/history".

Record CandleQuery := mkCandleQuery { cq_resolution : string; cq_from : Z; cq_to : Z }.

(** The parameters; the two bounds as [Number] reads them, [None] when that is not
    an integer. *)
Definition parseCandleQuery (resolution : option string) (from to_ : option Z) : option CandleQuery :=
  match from, to_ with
  | Some from, Some to_ =>
      if negb (bool_decide (default "" resolution ∈ CANDLE_RESOLUTIONS)) || negb (isSafeInteger from) || negb (isSafeInteger to_)
         || (from <=? 0) || (to_ <=? from) || (MAX_SPAN_SECONDS <? to_ - from)
      then None
      else Some (mkCandleQuery (default "" resolution) from to_)
  | _, _ => None
  end.

Definition candle_url (encodedSymbol : string) (query : CandleQuery) : string :=
  HISTORY_URL +:+ "?symbol=" +:+ encodedSymbol +:+ "&resolution=" +:+ cq_resolution query +:+ "&from=" +:+ pretty (cq_from query)
  +:+ "&to=" +:+ pretty (cq_to query).

(** [fetchCandles]: [fetcher] answers the status and, on success, the object's
    fields. *)
Definition fetchCandles (fetcher : string -> string -> result (Z * result (list (string * json)))) (apiKey encodedSymbol : string)
    (query : CandleQuery) : result json :=
  response ← fetcher (candle_url encodedSymbol query) ("Bearer " +:+ apiKey);
  if negb (ChainTransports.http_success (fst response))
  then Ok (JObj [("s", JStr "error"); ("errmsg", JStr ("Pyth history " +:+ pretty (fst response)))])
  else body ← snd response; Ok (JObj (filter (fun e => fst e ≠ "src") body ++ [("src", JStr "pyth-pro")])).

(** ** CORS: reads only *)

(** The routes a page of another origin may post to. *)
Definition public_post (q : CorsRequest) : bool := bool_decide (cq_path q ∈ PUBLIC_POST_ROUTES).
Definition cors_readable (q : CorsRequest) : bool :=
  read_method q || (public_post q && bool_decide (cq_method q = "POST")).

Lemma allowedOrigin_Some q env o :
  allowedOrigin q env = Some o ->
  cq_origin q = Some o /\ o ≠ "" /\ o ∈ (trim <$> split_char comma (default "" env)).
Proof.
  unfold allowedOrigin. intros H. destruct (cq_origin q) as [origin|]; [|done].
  case_bool_decide as Hne; [done|]. case_bool_decide as Hin; [|done]. simplify_eq.
  apply list_elem_of_filter in Hin as [_ Hin]. done.
Qed.

Lemma set_headers_elem hs (new : list (string * string)) h :
  h ∈ foldl set_header hs new -> h ∈ hs \/ h ∈ new.
Proof.
  revert hs. induction new as [|n new IH]; intros hs H; simpl in H; [by left|].
  apply IH in H as [H|H]; [|right; by right].
  unfold set_header in H. apply elem_of_app in H as [H|H].
  - apply list_elem_of_filter in H as [_ H]. by left.
  - apply list_elem_of_singleton in H as ->. right. left.
Qed.

(** Setting a header leaves exactly the new value under its name. *)
Lemma set_headers_other hs (new : list (string * string)) name value :
  (name, value) ∈ hs -> name ∉ new.*1 -> (name, value) ∈ foldl set_header hs new.
Proof.
  revert hs. induction new as [|n new IH]; intros hs H Hn; simpl in *; [done|].
  apply not_elem_of_cons in Hn as [Hne Hn]. apply IH; [|done].
  unfold set_header. apply elem_of_app. left. apply list_elem_of_filter. done.
Qed.

Lemma set_headers_new hs (new : list (string * string)) h :
  h ∈ new -> NoDup new.*1 -> h ∈ foldl set_header hs new.
Proof.
  revert hs. induction new as [|n new IH]; intros hs H Hn; simpl in *; [by apply not_elem_of_nil in H|].
  apply list.NoDup_cons in Hn as [Hn Hnd]. apply elem_of_cons in H as [->|H]; [|by apply IH].
  destruct n as [name value]. apply set_headers_other; [|done].
  unfold set_header. apply elem_of_app. right. by apply list_elem_of_singleton.
Qed.

Lemma corsHeaders_names o p : NoDup (corsHeaders o p).*1.
Proof. destruct p; apply (bool_decide_eq_true_1 _); vm_compute; reflexivity. Qed.

(** The CORS wrapper of the worker opens reads and three posts, and nothing
    else.  A request that is not a preflight gets the handler's own status and
    body.  A header the handler did not set is one of the CORS headers for an
    origin that is in the configured list and sent the request, on a preflight, a
    GET or HEAD, or a POST to one of the three public routes.  A POST elsewhere, or
    a request from an unlisted origin, gets the handler's response untouched; a
    preflight never reaches the handler, is refused with 403 for an unlisted
    origin, and grants POST only on the three public routes.  A readable response
    to a listed origin carries that origin. *)
Theorem cors_opens_reads_only {B} (handle : CorsRequest -> CorsResponse B) (env : option string) (q : CorsRequest) :
  let r := worker_fetch handle env q in
  (cq_method q ≠ "OPTIONS" -> co_status r = co_status (handle q) /\ co_body r = co_body (handle q))
  /\ (forall h, h ∈ co_headers r ->
        (cq_method q ≠ "OPTIONS" /\ h ∈ co_headers (handle q))
        \/ exists o, cq_origin q = Some o /\ o ∈ (trim <$> split_char comma (default "" env))
             /\ h ∈ corsHeaders o (public_post q) /\ (cq_method q = "OPTIONS" \/ cors_readable q = true))
  /\ (cq_method q ≠ "OPTIONS" -> cors_readable q = false \/ allowedOrigin q env = None -> r = handle q)
  /\ (cq_method q = "OPTIONS" ->
        co_body r = None /\ (co_status r = 204 \/ co_status r = 403)
        /\ (allowedOrigin q env = None -> co_status r = 403 /\ co_headers r = [])
        /\ (cq_path q ∉ PUBLIC_POST_ROUTES -> ("access-control-allow-methods", "GET, HEAD, POST") ∉ co_headers r))
  /\ (forall o, cq_method q ≠ "OPTIONS" -> allowedOrigin q env = Some o -> cors_readable q = true -> co_status (handle q) ≠ 101 ->
        has_header "access-control-allow-origin" o r).
Proof.
  unfold worker_fetch, cors_readable, has_header. fold (public_post q).
  case_bool_decide as Hm; cbv zeta; (split; [|split; [|split; [|split]]]); try (intros; congruence).
  - intros h. unfold preflight. destruct (allowedOrigin q env) as [o|] eqn:Ho; cbn [co_headers]; [|by intros ?%not_elem_of_nil].
    intros Hh. right. apply allowedOrigin_Some in Ho as (?&_&?). exists o. split_and!; auto.
  - intros _. unfold preflight. destruct (allowedOrigin q env) as [o|] eqn:Ho; cbn [co_body co_status co_headers].
    2: { split_and!; auto. intros _. apply not_elem_of_nil. }
    split_and!; [done|by left|done|]. intros Hp. unfold public_post. rewrite bool_decide_false by done.
    unfold corsHeaders. rewrite !not_elem_of_app, !not_elem_of_cons. split_and!; try (intros [=]; done); apply not_elem_of_nil.
  - intros _. unfold applyCors. destruct (allowedOrigin q env); [|done]. by destruct (_ || _).
  - intros h. unfold applyCors. destruct (allowedOrigin q env) as [o|] eqn:Ho; [|intros; left; split; done].
    destruct (negb _) eqn:Hr; cbn [orb]; [intros; left; split; done|]. destruct (co_status (handle q) =? 101); [intros; left; split; done|].
    cbn [co_headers]. intros Hh; apply set_headers_elem in Hh as [Hh|Hh]; [intros; left; split; done|]. apply negb_false_iff in Hr.
    apply allowedOrigin_Some in Ho as (?&_&?). right. exists o. split_and!; auto.
  - intros _ [Hr|Ho]; unfold applyCors; [|by rewrite Ho]. destruct (allowedOrigin q env); [|done]. by rewrite Hr.
  - intros o _ Ho Hr Hs. unfold applyCors. rewrite Ho, Hr. apply Z.eqb_neq in Hs. rewrite Hs. cbn [negb orb co_headers].
    apply set_headers_new; [|apply corsHeaders_names]. unfold corsHeaders. left.
Qed.

(** ** The launch registry *)

(** One registration request: what the chain answers about owners, the body and
    the time. *)
Record LaunchRequest := mkLaunchRequest { lq_owner : string -> result (option string); lq_body : option json; lq_now : Z }.

(** What the registry promises: the requests it accepts, as rows. *)
Definition accepted_launch (q : LaunchRequest) : option LaunchRow :=
  match parseLaunch (lq_body q) (lq_now q) with
  | inr row => if bool_decide (lq_owner q (la_pool row) = Ok (Some DBC_PROGRAM_ID)) then Some row else None
  | inl _ => None
  end.

Definition register_all (t : LaunchTable) (qs : list LaunchRequest) : LaunchTable :=
  foldl (fun t q => fst (registerLaunch (lq_owner q) (lq_body q) (lq_now q) t)) t qs.

(** A row the registry may hold. *)
Record launch_valid (row : LaunchRow) : Prop := {
  lv_pool : BASE58 (la_pool row) = true;
  lv_mint : BASE58 (la_baseMint row) = true;
  lv_symbol : SYMBOL (la_symbol row) = true;
  lv_name : (0 < String.length (la_name row) <= 40)%nat;
  lv_preset : (String.length (la_preset row) <= 20)%nat }.

Lemma substring_length s n m : (String.length (String.substring n m s) <= m)%nat.
Proof.
  revert n m. induction s as [|c s IH]; intros [|n] [|m]; simpl; try lia.
  - specialize (IH 0%nat m). lia.
  - apply (IH n 0%nat).
  - apply (IH n (S m)).
Qed.

Lemma launch_text_length body key max : (String.length (launch_text body key max) <= max)%nat.
Proof.
  unfold launch_text. destruct (body ≫= _) as [[]|]; try (simpl; lia). apply substring_length.
Qed.

Lemma parseLaunch_valid body now row : parseLaunch body now = inr row -> launch_valid row /\ la_createdAt row = now.
Proof.
  unfold parseLaunch. cbv zeta. case_match eqn:H1; [done|]. case_match eqn:H2; [done|]. clear - H1 H2.
  intros [= <-]. apply orb_false_iff in H1 as [H1 H1'], H2 as [H2 H2']. rewrite negb_false_iff in *.
  split; [|done]. split; try done; cbn [la_name la_preset] in *; [|apply launch_text_length].
  apply bool_decide_eq_false in H2'. pose proof (launch_text_length body "name" 40).
  destruct (launch_text body "name" 40); [done|]. cbn [String.length] in *. lia.
Qed.

Lemma registerLaunch_table q t :
  fst (registerLaunch (lq_owner q) (lq_body q) (lq_now q) t)
  = match accepted_launch q with
    | Some row => match t !! la_pool row with Some _ => t | None => <[la_pool row := row]> t end
    | None => t
    end.
Proof.
  unfold registerLaunch, accepted_launch. destruct (parseLaunch _ _) as [e|row]; [done|].
  destruct (lq_owner q (la_pool row)) as [owner|e] eqn:Ho; run_eff; cbn; [|done].
  destruct (bool_decide (owner = _)) eqn:Hd.
  - apply bool_decide_eq_true in Hd as ->. rewrite bool_decide_true by done. by run_eff.
  - apply bool_decide_eq_false in Hd. rewrite bool_decide_false by congruence. by run_eff.
Qed.

(** The registry is the map of first registrations. *)
Lemma register_all_lookup qs t p :
  register_all t qs !! p
  = match t !! p with Some row => Some row | None => list_find (fun r => la_pool r = p) (omap accepted_launch qs) ≫= (fun ir => Some (snd ir)) end.
Proof.
  revert t. induction qs as [|q qs IH]; intros t; cbn [register_all foldl].
  { cbn. by destruct (t !! p). }
  fold (register_all (fst (registerLaunch (lq_owner q) (lq_body q) (lq_now q) t)) qs). rewrite IH, registerLaunch_table. cbn [omap list_omap].
  destruct (accepted_launch q) as [row|]; [|done]. cbn [list_find].
  destruct (decide (la_pool row = p)) as [<-|Hne].
  - destruct (t !! la_pool row) eqn:Ht; rewrite ?Ht, ?lookup_insert_eq; done.
  - destruct (t !! la_pool row) eqn:Ht; rewrite ?lookup_insert_ne by done;
      destruct (t !! p); try done; by destruct (list_find _ _) as [[]|].
Qed.

#[local] Instance launched_after_total : Total launched_after.
Proof. intros a b. unfold launched_after. lia. Qed.
#[local] Instance launched_after_trans : Transitive launched_after.
Proof. intros a b c. unfold launched_after. lia. Qed.

Lemma take_drop_sorted {A} (R : relation A) n (l : list A) x y :
  StronglySorted R l -> x ∈ take n l -> y ∈ drop n l -> R x y.
Proof.
  revert n. induction l as [|a l IH]; intros [|n] Hs Hx Hy; simpl in *; try (by apply not_elem_of_nil in Hx).
  apply StronglySorted_inv in Hs as [Hs Ha]. apply elem_of_cons in Hx as [->|Hx]; [|by eapply IH].
  rewrite List.Forall_forall in Ha. apply Ha. apply list_elem_of_In.
  rewrite <- (take_drop n l). apply elem_of_app. by right.
Qed.

Lemma StronglySorted_take {A} (R : relation A) n (l : list A) : StronglySorted R l -> StronglySorted R (take n l).
Proof.
  revert n. induction l as [|a l IH]; intros [|n] Hs; simpl; try constructor; apply StronglySorted_inv in Hs as [Hs Ha]; [by apply IH|].
  by apply Forall_take.
Qed.

(** The page's list: newest first, at most fifty, and nothing left out is newer
    than anything listed. *)
Lemma listLaunches_spec t :
  (length (listLaunches t) <= 50)%nat
  /\ StronglySorted launched_after (listLaunches t)
  /\ (forall row, row ∈ listLaunches t -> exists p, t !! p = Some row)
  /\ (forall p row, t !! p = Some row -> row ∈ listLaunches t \/ (length (listLaunches t) = 50%nat /\ forall r, r ∈ listLaunches t -> la_createdAt row <= la_createdAt r)).
Proof.
  unfold listLaunches. set (l := merge_sort launched_after _).
  assert (Hl : forall row, row ∈ l <-> exists p, t !! p = Some row).
  { intros row. unfold l. rewrite merge_sort_Permutation, list_elem_of_fmap. split.
    - intros ([p r] & -> & Hp%elem_of_map_to_list). by exists p.
    - intros [p Hp]. exists (p, row). by rewrite elem_of_map_to_list. }
  assert (Hs : StronglySorted launched_after l) by (apply Sorted_StronglySorted; [apply _|apply Sorted_merge_sort; apply _]).
  split_and!; [rewrite length_take; lia|by apply StronglySorted_take|intros row Hr; apply Hl|].
  - rewrite <- (take_drop 50 l). apply elem_of_app. by left.
  - intros p row Hp. assert (Hr : row ∈ l) by (apply Hl; eauto). rewrite <- (take_drop 50 l) in Hr.
    apply elem_of_app in Hr as [Hr|Hr]; [by left|]. right. split.
    + rewrite length_take. destruct (decide (50 <= length l)%nat); [lia|].
      rewrite drop_ge in Hr by lia. by apply not_elem_of_nil in Hr.
    + intros r Hr'. exact (take_drop_sorted launched_after 50 l r row Hs Hr' Hr).
Qed.

(** C40. The launch registry, over any sequence of registration requests: the table
    holds for each pool exactly the first registration whose body parses and whose
    pool account the chain says belongs to the Meteora DBC program, so a later
    request never changes a row; every row is well-formed (two base58 addresses, a
    2 to 10 character upper-case symbol, a non-empty name of at most 40 characters);
    and the page lists rows of the table only, newest first and at most fifty, none
    of the others being newer than a listed one. *)
Theorem launch_registry_spec (qs : list LaunchRequest) :
  let t := register_all ∅ qs in
  (forall p, t !! p = list_find (fun r => la_pool r = p) (omap accepted_launch qs) ≫= (fun ir => Some (snd ir)))
  /\ (forall p row, t !! p = Some row -> launch_valid row /\ la_pool row = p
        /\ exists q, q ∈ qs /\ la_createdAt row = lq_now q /\ lq_owner q p = Ok (Some DBC_PROGRAM_ID))
  /\ (forall more p row, t !! p = Some row -> register_all t more !! p = Some row)
  /\ (length (listLaunches t) <= 50)%nat
  /\ StronglySorted launched_after (listLaunches t)
  /\ (forall row, row ∈ listLaunches t -> exists p, t !! p = Some row)
  /\ (forall p row, t !! p = Some row ->
        row ∈ listLaunches t \/ (length (listLaunches t) = 50%nat /\ forall r, r ∈ listLaunches t -> la_createdAt row <= la_createdAt r)).
Proof.
  intros t.
  assert (Ht : forall p, t !! p = list_find (fun r => la_pool r = p) (omap accepted_launch qs) ≫= (fun ir => Some (snd ir)))
    by (intros p; apply register_all_lookup).
  split; [exact Ht|]. split; [|split; [|apply listLaunches_spec]].
  - intros p row. rewrite Ht. destruct (list_find _ _) as [[i r]|] eqn:Hf; [|done]. intros [= <-].
    apply list_find_Some in Hf as (Hi & Hp & _). cbn [snd]. apply list_elem_of_lookup_2 in Hi.
    apply list_elem_of_omap in Hi as (q & Hq & Ha). unfold accepted_launch in Ha.
    destruct (parseLaunch _ _) as [e|r'] eqn:Hparse; [done|]. case_bool_decide as Ho; [|done]. simplify_eq.
    apply parseLaunch_valid in Hparse as [Hv Hc]. split; [done|]. split; [done|]. exists q. done.
  - intros more p row Hp. by rewrite register_all_lookup, Hp.
Qed.

(** A registration, a second one for the same pool and one for an account of
    another owner. *)
Definition sample_pool : string := "11111111111111111111111111111112".
Definition launch_body (pool symbol : string) : option json :=
  Some (JObj [("pool", JStr pool); ("baseMint", JStr DBC_PROGRAM_ID); ("symbol", JStr symbol); ("name", JStr " Acme "); ("preset", JStr "fair")]).
Definition launch_chain (a : string) : result (option string) :=
  Ok (if bool_decide (a = sample_pool) then Some DBC_PROGRAM_ID else None).

Example launch_sample :
  listLaunches (register_all ∅
    [mkLaunchRequest launch_chain (launch_body sample_pool "acme") 5;
     mkLaunchRequest launch_chain (launch_body sample_pool "other") 6;
     mkLaunchRequest launch_chain (launch_body DBC_PROGRAM_ID "fake") 7])
  = [mkLaunch sample_pool DBC_PROGRAM_ID "ACME" "Acme" "fair" 5].
Proof. vm_compute. reflexivity. Qed.

(** ** The price and history proxies *)

(** A sequence of calls, each with the upstream answer and the time. *)
Definition pre_ipo_run (calls : list (option json * Z)) (cached : option (Z * list PreIpoToken)) : option (Z * list PreIpoToken) :=
  foldl (fun c call => fst (fetchPreIpoTokens (fst call) (snd call) c)) cached calls.

Lemma normalize_row_mints row ts : normalize_row row = Ok ts -> Forall (fun t => pi_mint t ≠ "") ts.
Proof.
  unfold normalize_row. destruct row; try done; intros [= <-]; repeat case_match; try constructor; try constructor;
    by match goal with H : bool_decide _ = false |- _ => apply bool_decide_eq_false in H end.
Qed.

Lemma normalizePreStocks_mints u ts : normalizePreStocks u = Ok ts -> Forall (fun t => pi_mint t ≠ "") ts.
Proof.
  unfold normalizePreStocks. intros H. repeat case_match; simplify_eq; try constructor.
  apply result_bind_Ok in H as (tss & Hm & [= <-]). apply Forall_concat.
  apply mapR_Ok in Hm. revert Hm. generalize (normalize_row_mints). intros Hn Hm.
  induction Hm; constructor; eauto.
Qed.

Lemma pre_ipo_cache calls at_ ts :
  pre_ipo_run calls None = Some (at_, ts) ->
  ts ≠ [] /\ exists call, call ∈ calls /\ normalizePreStocks (fst call) = Ok ts /\ snd call = at_.
Proof.
  revert at_ ts. induction calls as [|[u n] calls IH] using rev_ind; intros at_ ts; [done|].
  unfold pre_ipo_run. rewrite foldl_app. cbn [foldl]. fold (pre_ipo_run calls None). cbn [fst snd].
  assert (Hkeep : pre_ipo_run calls None = Some (at_, ts) ->
    ts ≠ [] /\ exists call, call ∈ calls ++ [(u, n)] /\ normalizePreStocks (fst call) = Ok ts /\ snd call = at_).
  { intros H. apply IH in H as (? & call & ? & ? & ?). split; [done|]. exists call. rewrite elem_of_app. auto. }
  assert (Hnew : forall ts', normalizePreStocks u = Ok ts' -> ts' ≠ [] -> Some (n, ts') = Some (at_, ts) ->
    ts ≠ [] /\ exists call, call ∈ calls ++ [(u, n)] /\ normalizePreStocks (fst call) = Ok ts /\ snd call = at_).
  { intros ts' Hu Hne [= <- <-]. split; [done|]. exists (u, n). split_and!; [|done..]. apply elem_of_app. right. by apply list_elem_of_singleton. }
  unfold fetchPreIpoTokens. destruct (pre_ipo_run calls None) as [[a0 t0]|];
    [destruct (n - a0 <? 60000); [exact Hkeep|]|];
    (destruct (normalizePreStocks u) as [[|t ts']|] eqn:Hu; [exact Hkeep|by apply Hnew|exact Hkeep]).
Qed.

(** The pre-IPO price proxy never serves a price that is a minute old or
    older, whatever the upstream answered before: after any sequence of calls, a
    further call either reads the upstream's present answer or repeats a non-empty
    list that the upstream gave at a call less than 60 seconds before; an empty or
    failed answer is never kept, so the next call asks again.  Every token served
    has a mint and a mark price. *)
Theorem pre_ipo_freshness (calls : list (option json * Z)) (upstream : option json) (now : Z) (tokens : list PreIpoToken) :
  snd (fetchPreIpoTokens upstream now (pre_ipo_run calls None)) = Ok tokens ->
  (normalizePreStocks upstream = Ok tokens
   \/ (tokens ≠ [] /\ exists call, call ∈ calls /\ normalizePreStocks (fst call) = Ok tokens /\ now - snd call < 60000))
  /\ Forall (fun t => pi_mint t ≠ "") tokens.
Proof.
  intros H.
  assert (Hc : forall at_ ts, pre_ipo_run calls None = Some (at_, ts) ->
            ts ≠ [] /\ exists call, call ∈ calls /\ normalizePreStocks (fst call) = Ok ts /\ snd call = at_).
  { apply pre_ipo_cache. }
  assert (Hsrc : exists u, normalizePreStocks u = Ok tokens).
  { unfold fetchPreIpoTokens in H. destruct (pre_ipo_run calls None) as [[at_ ts]|] eqn:Hr.
    - destruct (now - at_ <? 60000); cbn in H.
      + simplify_eq. destruct (Hc _ _ eq_refl) as (_ & call & _ & Hn & _). eauto.
      + destruct (normalizePreStocks upstream) eqn:Hu; cbn in H; simplify_eq. eauto.
    - destruct (normalizePreStocks upstream) eqn:Hu; cbn in H; simplify_eq. eauto. }
  split; [|destruct Hsrc as [u Hu]; by eapply normalizePreStocks_mints].
  unfold fetchPreIpoTokens in H. destruct (pre_ipo_run calls None) as [[at_ ts]|] eqn:Hr.
  - destruct (now - at_ <? 60000) eqn:Hage; cbn in H.
    + simplify_eq. destruct (Hc _ _ eq_refl) as (Hne & call & Hin & Hn & <-). right. split; [done|]. exists call. split_and!; [done..|]. lia.
    + left. destruct (normalizePreStocks upstream) eqn:Hu; cbn in H; by simplify_eq.
  - left. destruct (normalizePreStocks upstream) eqn:Hu; cbn in H; by simplify_eq.
Qed.

Definition pre_ipo_row : json := JObj [("contract_address", JStr "mint"); ("markPrice", JNum 7); ("name", JStr "Acme")].

Lemma pre_ipo_freshness_witness :
  snd (fetchPreIpoTokens None 60999 (pre_ipo_run [(Some (JArr [pre_ipo_row]), 1000); (None, 2000)] None))
    = Ok [mkPreIpo "Acme" "" "mint" 7 None None None None]
  /\ Forall (fun t => pi_mint t ≠ "") [mkPreIpo "Acme" "" "mint" 7 None None None None].
Proof.
  split; [vm_compute; reflexivity|].
  apply (pre_ipo_freshness [(Some (JArr [pre_ipo_row]), 1000); (None, 2000)] None 60999). vm_compute. reflexivity.
Defined.

(** A candle query is accepted exactly when its resolution is one of the six
    and its bounds are safe integers with 0 < from < to and at most 200 days
    between them; the URL then asks for precisely that range. *)
Theorem candle_query_spec (resolution : option string) (from to_ : option Z) (q : CandleQuery) :
  parseCandleQuery resolution from to_ = Some q
  <-> resolution = Some (cq_resolution q) /\ cq_resolution q ∈ CANDLE_RESOLUTIONS
      /\ from = Some (cq_from q) /\ to_ = Some (cq_to q)
      /\ 0 < cq_from q < cq_to q /\ cq_to q <= 2 ^ 53 - 1 /\ cq_to q - cq_from q <= 17280000.
Proof.
  unfold parseCandleQuery, isSafeInteger, MAX_SAFE_INTEGER, MAX_SPAN_SECONDS. split.
  - destruct from as [f|], to_ as [t|]; try done. case_match eqn:Hc; [done|]. intros [= <-]. cbn [cq_resolution cq_from cq_to].
    repeat (apply orb_false_iff in Hc as [Hc ?]). rewrite negb_false_iff in *. apply bool_decide_eq_true in Hc.
    split_and!; try lia; try done. destruct resolution; [done|]. exfalso. unfold CANDLE_RESOLUTIONS in Hc. cbn [default] in Hc. by repeat (apply elem_of_cons in Hc as [Hc|Hc]; [done|]); apply not_elem_of_nil in Hc.
  - destruct q as [r f t]. cbn [cq_resolution cq_from cq_to]. intros (-> & Hr & -> & -> & Hf & Ht & Hs). cbn [default].
    rewrite bool_decide_true by done. case_match eqn:Hc; [|done]. exfalso. lia.
Qed.
