(* ===== verification/WorkerRoutes.v ===== *)
(** * The worker's own routes

    workers/src/route-inputs.ts and handlers of index.ts: registering markets,
    ingesting events and reading them back.  The dispatcher is in WorkerDispatch,
    the scheduled entry point in ScheduledWork. *)

From stdpp Require Import sorting.
From S2P Require Import Prelude Json Bytes ExecutionStatus Repositories V3Market PrivateSessions Keepers Orchestrator EventDecoder.
From S2P Require Import Indexer Signers KeeperRuntime RelayRoute Faucet PublicApi.

(** ** route-inputs.ts *)

Definition eventKinds : list (string * MarketEventKind) :=
  [("book", kind_book); ("fill", kind_fill); ("funding", kind_funding); ("health", kind_health); ("oracle", kind_oracle)].

Definition event_kind (s : string) : option MarketEventKind := snd <$> (snd <$> list_find (fun e => fst e = s) eventKinds).

(** [typeof x === "object"] for a value that is not [null]. *)
Definition is_object (j : json) : bool := match j with JObj _ | JArr _ => true | _ => false end.

Definition domain_of (j : option json) : option Domain :=
  match j with
  | Some (JStr s) => if bool_decide (s = "l1") then Some L1 else if bool_decide (s = "er") then Some ER else None
  | _ => None
  end.

(** [now] is [Date.now()]. *)
Definition asMarketEvent (now : Z) (input : option json) : option MarketEvent :=
  match input with
  | None => None
  | Some input =>
      match prop "id" input, prop "symbol" input, prop "kind" input, prop "payload" input with
      | Some (JStr id), Some (JStr symbol), Some (JStr kind), Some payload =>
          match event_kind kind with
          | None => None
          | Some kind =>
              if negb (is_object payload) then None
              else match prop "sequence" input, domain_of (prop "domain" input) with
              | Some (JNum sequence), Some domain =>
                  if negb (isSafeInteger sequence) || (sequence <=? 0) then None
                  else Some (mkMarketEvent id (toUpperCase symbol) kind (num (prop "slot" input)) payload
                               (default now (num (prop "observedAt" input))) (Some sequence) (Some domain))
              | _, _ => None
              end
          end
      | _, _, _, _ => None
      end
  end.

Definition status_of (s : string) : option MarketStatus :=
  if bool_decide (s = "active") then Some ms_active
  else if bool_decide (s = "paused") then Some ms_paused
  else if bool_decide (s = "restricted") then Some ms_restricted else None.

Definition SESSION_POLICIES : list string := ["regular"; "extended"; "close-only"].

Definition asMarketDefinition (input : option json) : option MarketDefinition :=
  match input with
  | None => None
  | Some input =>
      match prop "symbol" input, prop "marketIndex" input, prop "instrumentId" input, prop "marketPda" input with
      | Some (JStr symbol), Some (JNum marketIndex), Some (JStr instrumentId), Some (JStr marketPda) =>
          match prop "vaultPda" input, prop "oracleFeedId" input, prop "status" input, prop "sessionPolicy" input with
          | Some (JStr vaultPda), Some (JStr oracleFeedId), Some (JStr status), Some (JStr sessionPolicy) =>
              match status_of status with
              | Some status =>
                  if bool_decide (sessionPolicy ∈ SESSION_POLICIES)
                  then Some (mkDefinition (toUpperCase symbol) instrumentId marketIndex marketPda vaultPda status oracleFeedId sessionPolicy)
                  else None
              | None => None
              end
          | _, _, _, _ => None
          end
      | _, _, _, _ => None
      end
  end.

(** ** The worker's state *)

Record MarketEventRow := mkEventLog {
  el_symbol : string; el_kind : MarketEventKind; el_slot : option Z; el_payload : json; el_observed_at : Z }.

(** The database with the two tables only these handlers touch, and the durable
    stream objects by name. *)
Record WState := mkWState {
  ws_world : World;
  ws_markets : gmap string (MarketDefinition * Z);
  ws_market_events : gmap string MarketEventRow;
  ws_streams : gmap string MarketStream.t }.

Definition ws_db (w : WState) : Db := db (ws_world w).
Definition with_db (d : Db) (w : World) : World := mkWorld d (reads w) (sent w).

Definition in_world {A} (m : eff World A) : eff WState A := fun w =>
  let (x, r) := m (ws_world w) in (mkWState x (ws_markets w) (ws_market_events w) (ws_streams w), r).
Definition in_tables {A} (m : eff Db A) : eff WState A := in_world (on_db m).

Definition named_stream (name : string) (w : WState) : MarketStream.t := default MarketStream.empty (ws_streams w !! name).
Definition in_stream {A} (name : string) (m : eff MarketStream.t A) : eff WState A := fun w =>
  let (s, r) := m (named_stream name w) in
  (mkWState (ws_world w) (ws_markets w) (ws_market_events w) (<[name := s]> (ws_streams w)), r).

(** The indexer's view: its database, and the stream called [name] as the stream
    of the market. *)
Definition in_store {A} (marketPda name : string) (m : eff Store A) : eff WState A := fun w =>
  let (st, r) := m (mkStore (ws_db w) {[marketPda := named_stream name w]}) in
  (mkWState (with_db (st_db st) (ws_world w)) (ws_markets w) (ws_market_events w)
     (<[name := stream_of marketPda st]> (ws_streams w)), r).

(** ** Ingesting one event *)

(** [INSERT OR IGNORE INTO market_events]; the answer is [meta.changes === 1]. *)
Definition insert_market_event (event : MarketEvent) : eff WState bool := fun w =>
  match ws_market_events w !! me_id event with
  | Some _ => (w, Ok false)
  | None =>
      (mkWState (ws_world w) (ws_markets w)
         (<[me_id event := mkEventLog (me_symbol event) (me_kind event) (me_slot event) (me_payload event) (me_observedAt event)]>
            (ws_market_events w)) (ws_streams w), Ok true)
  end.

(** [bound] is whether both storage bindings are present. *)
Definition require_bindings {S} (bound : bool) : eff S unit :=
  eff_lift (throw_if (negb bound) "Required storage bindings are unavailable").

(** [MARKET_STREAM.getByName(event.symbol).publish(event)]; its answer is not used. *)
Definition publish_event (event : MarketEvent) : eff WState unit :=
  _ ← in_stream (me_symbol event) (MarketStream.publish event); mret tt.

Definition ingestEvent (bound : bool) (event : MarketEvent) : eff WState IndexedWrite :=
  _ ← require_bindings bound;
  match me_domain event, me_sequence event with
  | Some domain, Some sequence =>
      w ← eff_get;
      let marketPda := match ws_markets w !! me_symbol event with Some (m, _) => md_marketPda m | None => "" end in
      _ ← eff_lift (throw_if (bool_decide (marketPda = "")) "market_not_registered");
      indexed ← in_tables (IndexerRepository.append marketPda domain sequence (default 0 (me_slot event)) (me_id event)
                             (event_json event) (me_observedAt event));
      match indexed with
      | iw_applied =>
          changed ← insert_market_event event;
          _ ← (if (changed : bool) then publish_event event else mret tt);
          mret indexed
      | _ => mret indexed
      end
  | _, _ => eff_throw "sequenced domain event required"
  end.

(** POST /v1/ingest/market-event: [clock i] is the i-th reading of [Date.now()]. *)
Definition ingest_market_event (bound : bool) (INGESTION_TOKEN authorization : option string) (clock : nat -> Z) (body : option json)
    : eff WState HttpResponse :=
  if negb (isAuthorized authorization INGESTION_TOKEN) then mret (http_error "unauthorized" 401)
  else
    _ ← require_bindings bound;
    allowed ← in_tables (ProtocolRepository.allow "ingestion" 1000 60000 (clock 0%nat));
    if negb allowed then mret (http_error "rate_limited" 429)
    else match asMarketEvent (clock 1%nat) body with
    | None => mret (http_error "invalid_market_event" 400)
    | Some event =>
        indexed ← eff_catch (x ← ingestEvent bound event; mret (inr x)) (fun e => mret (inl e));
        mret (match indexed with
              | inl e => http_error e 409
              | inr (iw_gap expected) => mkHttp 409 (JObj [("error", JStr "sequence_gap"); ("expected", JNum expected)])
              | inr _ => mkHttp 202 (JObj [("accepted", JBool true)])
              end)
    end.

(** POST /v1/ingest/market: the upsert keyed by symbol; the market index is unique
    across symbols. *)
Definition upsert_market (market : MarketDefinition) (now : Z) : eff WState unit := fun w =>
  if bool_decide (map_Exists (fun symbol row => symbol ≠ md_symbol market /\ md_marketIndex (fst row) = md_marketIndex market) (ws_markets w))
  then (w, Throw "UNIQUE constraint failed: markets.market_index")
  else (mkWState (ws_world w) (<[md_symbol market := (market, now)]> (ws_markets w)) (ws_market_events w) (ws_streams w), Ok tt).

Definition ingest_market (bound : bool) (INGESTION_TOKEN authorization : option string) (now : Z) (body : option json)
    : eff WState HttpResponse :=
  if negb (isAuthorized authorization INGESTION_TOKEN) then mret (http_error "unauthorized" 401)
  else match asMarketDefinition body with
  | None => mret (http_error "invalid_market" 400)
  | Some market =>
      _ ← require_bindings bound;
      _ ← upsert_market market now;
      mret (mkHttp 202 (JObj [("accepted", JBool true)]))
  end.

(** GET /v1/markets and GET /v1/markets/:symbol *)
Definition index_order (a b : MarketDefinition) : Prop := md_marketIndex a <= md_marketIndex b.
#[export] Instance index_order_dec a b : Decision (index_order a b).
Proof. unfold index_order. apply _. Defined.

Definition market_rows (w : WState) : list MarketDefinition := (fun e => fst (snd e)) <$> map_to_list (ws_markets w).

Definition list_markets (bound : bool) : eff WState HttpResponse :=
  _ ← require_bindings bound;
  w ← eff_get;
  mret (mkHttp 200 (JObj [("markets", JArr (definition_json <$> merge_sort index_order (market_rows w)))])).

Definition get_market (bound : bool) (part : string) : eff WState HttpResponse :=
  _ ← require_bindings bound;
  w ← eff_get;
  mret (match ws_markets w !! toUpperCase part with
        | Some (m, _) => mkHttp 200 (definition_json m)
        | None => http_error "market_not_found" 404
        end).

(** ** Ingestion keeps the durable log contiguous *)

(** Only the rate-limit table differs. *)
Definition rates_only (w w' : WState) : Prop :=
  ws_markets w' = ws_markets w /\ ws_market_events w' = ws_market_events w /\ ws_streams w' = ws_streams w
  /\ sent (ws_world w') = sent (ws_world w)
  /\ exists f, ws_db w' = on_rate_limits f (ws_db w).

Lemma on_rate_limits_id d : on_rate_limits (fun x => x) d = d.
Proof. by destruct d. Qed.

Lemma rates_only_refl w : rates_only w w.
Proof. split_and!; try done. exists (fun x => x). by rewrite on_rate_limits_id. Qed.

Lemma in_tables_run {A} (m : eff Db A) w :
  in_tables m w = (mkWState (with_db (fst (m (ws_db w))) (ws_world w)) (ws_markets w) (ws_market_events w) (ws_streams w), snd (m (ws_db w))).
Proof. unfold in_tables, in_world, on_db, with_db, ws_db. destruct (m (db (ws_world w))). done. Qed.

Lemma with_db_same w : mkWState (with_db (ws_db w) (ws_world w)) (ws_markets w) (ws_market_events w) (ws_streams w) = w.
Proof. destruct w as [[]]. done. Qed.

Lemma allow_rates_only key limit windowMs now w w' r :
  in_tables (ProtocolRepository.allow key limit windowMs now) w = (w', r) -> rates_only w w'.
Proof.
  rewrite in_tables_run. intros [= <- _]. split_and!; try done. unfold ws_db at 1, with_db. cbn [ws_world db].
  unfold ProtocolRepository.allow. run_eff.
  repeat case_match; simplify_eq/=; solve [exists (fun x => x); by rewrite on_rate_limits_id|eexists; reflexivity].
Qed.

(** What [ingestEvent] does once the append went through. *)
Record event_applied (event : MarketEvent) (m : string) (w w' : WState) : Prop := {
  ap_pda : exists row, ws_markets w !! me_symbol event = Some row /\ md_marketPda (fst row) = m;
  ap_new : indexed_events (ws_db w) !! me_id event = None;
  ap_markets : ws_markets w' = ws_markets w;
  ap_db : exists dom q, me_domain event = Some dom /\ me_sequence event = Some q /\ q = cursor_sequence (ws_db w) m dom + 1
    /\ ws_db w' = appended m dom q (default 0 (me_slot event)) (me_id event) (event_json event) (me_observedAt event) (ws_db w);
  ap_log : is_Some (ws_market_events w' !! me_id event)
    /\ forall id, id ≠ me_id event -> ws_market_events w' !! id = ws_market_events w !! id;
  ap_streams : forall name, name ≠ me_symbol event -> ws_streams w' !! name = ws_streams w !! name }.

Lemma ingestEvent_cases bound event w w' r :
  ingestEvent bound event w = (w', r) ->
  match r with
  | Ok iw_applied => exists m, event_applied event m w w'
  | Ok iw_duplicate => w' = w /\ is_Some (indexed_events (ws_db w) !! me_id event)
  | Ok (iw_gap expected) => w' = w /\ exists row dom, ws_markets w !! me_symbol event = Some row /\ me_domain event = Some dom
      /\ expected = cursor_sequence (ws_db w) (md_marketPda (fst row)) dom + 1
  | Throw _ => w' = w \/ exists m, event_applied event m w w'
  end.
Proof.
  unfold ingestEvent, require_bindings. destruct bound; [|run_eff; intros [= <- <-]; by left].
  destruct (me_domain event) as [dom|] eqn:Hd; [|run_eff; intros [= <- <-]; by left].
  destruct (me_sequence event) as [q|] eqn:Hq; [|run_eff; intros [= <- <-]; by left].
  unfold mbind, eff_bind, eff_lift, eff_get, throw_if. cbn [negb].
  destruct (ws_markets w !! me_symbol event) as [[mk at_]|] eqn:Hm; cbn [bool_decide]; [|intros [= <- <-]; by left].
  case_bool_decide as Hp; [intros [= <- <-]; by left|].
  rewrite in_tables_run. pose proof (append_outcome (md_marketPda mk) dom q (default 0 (me_slot event)) (me_id event) (event_json event) (me_observedAt event) (ws_db w)) as Ha.
  destruct (IndexerRepository.append _ _ _ _ _ _ _ _) as [d [x|e]]; cbn [fst snd].
  2: { subst d. intros [= <- <-]. left. apply with_db_same. }
  destruct x as [| |expected].
  - destruct Ha as (Hnew & Hseq & ->).
    assert (Hap : forall streams log, (forall name, name ≠ me_symbol event -> streams !! name = ws_streams w !! name) ->
      is_Some (log !! me_id event) -> (forall id, id ≠ me_id event -> log !! id = ws_market_events w !! id) ->
      event_applied event (md_marketPda mk) w (mkWState (with_db (appended (md_marketPda mk) dom q (default 0 (me_slot event)) (me_id event) (event_json event) (me_observedAt event) (ws_db w)) (ws_world w)) (ws_markets w) log streams)).
    { intros streams log Hs Hl1 Hl2. split; try done; [by exists (mk, at_)|]. exists dom, q. split_and!; done. }
    unfold insert_market_event. cbn [ws_market_events].
    destruct (ws_market_events w !! me_id event) as [row|] eqn:Hlog.
    + intros [= <- <-]. exists (md_marketPda mk). apply Hap; [done|by rewrite Hlog|done].
    + unfold publish_event, mbind, eff_bind, in_stream. destruct (MarketStream.publish event _) as [s [p|e]]; intros [= <- <-];
        [|right]; exists (md_marketPda mk); apply Hap; cbn [ws_streams];
        try (intros; by rewrite lookup_insert_ne); by rewrite lookup_insert_eq.
  - destruct Ha as [-> Hdup]. intros [= <- <-]. split; [apply with_db_same|done].
  - destruct Ha as (-> & Hexp & _). intros [= <- <-]. split; [apply with_db_same|]. exists (mk, at_), dom. done.
Qed.

(** The log holds, for every market and domain, exactly the sequences up to the
    cursor, each once. *)
Record log_contiguous (d : Db) : Prop := {
  lc_range : forall id row, indexed_events d !! id = Some row -> 1 <= er_sequence row <= cursor_sequence d (er_market row) (er_domain row);
  lc_every : forall m dom q, 1 <= q <= cursor_sequence d m dom ->
    exists id row, indexed_events d !! id = Some row /\ er_market row = m /\ er_domain row = dom /\ er_sequence row = q;
  lc_once : forall id1 id2 r1 r2, indexed_events d !! id1 = Some r1 -> indexed_events d !! id2 = Some r2 ->
    er_market r1 = er_market r2 -> er_domain r1 = er_domain r2 -> er_sequence r1 = er_sequence r2 -> id1 = id2 }.

Lemma cursor_sequence_appended m dom q slot id ev now d m' dom' :
  cursor_sequence (appended m dom q slot id ev now d) m' dom'
  = if bool_decide ((m, dom) = (m', dom')) then q else cursor_sequence d m' dom'.
Proof.
  unfold cursor_sequence, appended. cbn. case_bool_decide as Hk; [injection Hk as -> ->; by rewrite lookup_insert_eq|].
  by rewrite lookup_insert_ne.
Qed.

Lemma log_contiguous_appended m dom q slot id ev now d :
  log_contiguous d -> indexed_events d !! id = None -> q = cursor_sequence d m dom + 1 -> 1 <= q ->
  log_contiguous (appended m dom q slot id ev now d).
Proof.
  intros [Hr He Ho] Hnew Hq H1. set (new := mkEventRow m dom q ev now).
  assert (Hev : forall i, indexed_events (appended m dom q slot id ev now d) !! i = if bool_decide (i = id) then Some new else indexed_events d !! i).
  { intros i. unfold appended. cbn. case_bool_decide as Hi; [subst; by rewrite lookup_insert_eq|by rewrite lookup_insert_ne]. }
  split.
  - intros i row. rewrite Hev, cursor_sequence_appended. case_bool_decide as Hi.
    + intros [= <-]. cbn. rewrite bool_decide_true by done. lia.
    + intros Hrow. pose proof (Hr i row Hrow). case_bool_decide as Hk; [|done]. injection Hk as -> ->. lia.
  - intros m' dom' q'. rewrite cursor_sequence_appended. intros Hq'.
    assert (Hold : 1 <= q' <= cursor_sequence d m' dom' -> exists i row, indexed_events (appended m dom q slot id ev now d) !! i = Some row
        /\ er_market row = m' /\ er_domain row = dom' /\ er_sequence row = q').
    { intros (i & row & Hrow & ?)%He. exists i, row. rewrite Hev, bool_decide_false by congruence. done. }
    revert Hq'. case_bool_decide as Hk; [|exact Hold]. injection Hk as <- <-. intros Hq'.
    destruct (decide (q' = q)) as [->|]; [|apply Hold; lia]. exists id, new. by rewrite Hev, bool_decide_true.
  - intros i1 i2 r1 r2. rewrite !Hev. do 2 case_bool_decide; subst; try done.
    + intros [= <-] H2 Hm Hd Hs. cbn in Hm, Hd, Hs. pose proof (Hr i2 r2 H2) as Hr2. rewrite <- Hm, <- Hd, <- Hs in Hr2. lia.
    + intros H2 [= <-] Hm Hd Hs. cbn in Hm, Hd, Hs. pose proof (Hr i1 r1 H2) as Hr2. rewrite Hm, Hd, Hs in Hr2. lia.
    + apply Ho.
Qed.

Lemma rates_only_cursor w w' m dom : rates_only w w' -> cursor_sequence (ws_db w') m dom = cursor_sequence (ws_db w) m dom.
Proof. intros (_ & _ & _ & _ & f & ->). done. Qed.

Lemma rates_only_events w w' : rates_only w w' -> indexed_events (ws_db w') = indexed_events (ws_db w).
Proof. intros (_ & _ & _ & _ & f & ->). done. Qed.

Lemma rates_only_contiguous w w' : rates_only w w' -> log_contiguous (ws_db w) -> log_contiguous (ws_db w').
Proof. intros (_ & _ & _ & _ & f & ->) [H1 H2 H3]. split; assumption. Qed.

Lemma asMarketEvent_sequenced now body e :
  asMarketEvent now body = Some e -> exists dom q, me_domain e = Some dom /\ me_sequence e = Some q /\ 1 <= q <= MAX_SAFE_INTEGER.
Proof.
  unfold asMarketEvent. intros H. repeat case_match; try done.
  match goal with H : _ || _ = false |- _ => apply orb_false_iff in H as [Hs Hp] end. injection H as <-.
  eexists _, _. split_and!; [done..| |]; unfold isSafeInteger in Hs; lia.
Qed.

(** The route after the bearer check and the rate limit. *)
Lemma ingest_route_cases bound tok auth clock body w w' r :
  ingest_market_event bound tok auth clock body w = (w', r) ->
  (isAuthorized auth tok = false /\ w' = w /\ r = Ok (http_error "unauthorized" 401))
  \/ (isAuthorized auth tok = true /\ exists w1, rates_only w w1 /\
       ((w' = w1 /\ forall resp, r = Ok resp -> http_status resp ∈ [429; 400; 409; 202]
           /\ (http_status resp = 202 -> exists event, asMarketEvent (clock 1%nat) body = Some event /\ is_Some (indexed_events (ws_db w) !! me_id event)))
        \/ exists event m, asMarketEvent (clock 1%nat) body = Some event /\ event_applied event m w1 w'
             /\ exists resp, r = Ok resp /\ (http_status resp = 202 \/ http_status resp = 409))).
Proof.
  unfold ingest_market_event, require_bindings. intros H. destruct (isAuthorized auth tok); [|injection H as <- <-; by left].
  cbn [negb]. right. split; [done|].
  unfold mbind, eff_bind, eff_lift, throw_if in H.
  destruct bound; cbn [negb] in H; [|injection H as <- <-; exists w; split; [apply rates_only_refl|]; left; split; [done|intros ? [=]]].
  destruct (in_tables _ w) as [w1 a] eqn:Ha. apply allow_rates_only in Ha. exists w1. split; [done|].
  destruct a as [a|e]; [|injection H as <- <-; left; split; [done|intros ? [=]]].
  destruct a; cbn [negb] in H.
  2: { injection H as <- <-. left. split; [done|]. intros resp [= <-]. split; [by repeat constructor|done]. }
  destruct (asMarketEvent (clock 1%nat) body) as [event|].
  2: { injection H as <- <-. left. split; [done|]. intros resp [= <-]. split; [by repeat constructor|done]. }
  unfold eff_catch, mret, eff_ret in H. destruct (ingestEvent true event w1) as [w2 x] eqn:Hi. pose proof (ingestEvent_cases _ _ _ _ _ Hi) as Hc.
  destruct x as [[| |expected]|e]; injection H as <- <-.
  - destruct Hc as [m Hm]. right. exists event, m. split_and!; [done..|]. eexists. split; [done|]. by left.
  - destruct Hc as [-> Hdup]. left. split; [done|]. intros resp [= <-]. split; [by repeat constructor|]. intros _. exists event.
    split; [done|]. by rewrite <- (rates_only_events w w1).
  - destruct Hc as [-> _]. left. split; [done|]. intros resp [= <-]. split; [by repeat constructor|done].
  - destruct Hc as [->|[m Hm]]; [left; split; [done|]; intros resp [= <-]; split; [by repeat constructor|done]|].
    right. exists event, m. split_and!; [done..|]. eexists. split; [done|]. by right.
Qed.

(** A history of calls to the two ingestion routes. *)
Inductive ingest_op :=
  | op_event (bound : bool) (token authorization : option string) (clock : nat -> Z) (body : option json)
  | op_market (bound : bool) (token authorization : option string) (now : Z) (body : option json).

Definition ingest_step (w : WState) (op : ingest_op) : WState :=
  match op with
  | op_event b t a c body => fst (ingest_market_event b t a c body w)
  | op_market b t a n body => fst (ingest_market b t a n body w)
  end.
Definition ingest_run (w : WState) (ops : list ingest_op) : WState := foldl ingest_step w ops.

Definition op_authorised (op : ingest_op) : bool :=
  match op with op_event _ t a _ _ | op_market _ t a _ _ => isAuthorized a t end.

Record ingest_invariant (w : WState) : Prop := {
  ii_log : log_contiguous (ws_db w);
  ii_events : forall id, is_Some (ws_market_events w !! id) -> is_Some (indexed_events (ws_db w) !! id);
  ii_index : forall s1 s2 m1 m2, ws_markets w !! s1 = Some m1 -> ws_markets w !! s2 = Some m2 ->
    md_marketIndex (fst m1) = md_marketIndex (fst m2) -> s1 = s2;
  ii_key : forall s m, ws_markets w !! s = Some m -> md_symbol (fst m) = s }.

Lemma rates_only_invariant w w' : rates_only w w' -> ingest_invariant w -> ingest_invariant w'.
Proof.
  intros H [H1 H2 H3 H4]. pose proof (rates_only_contiguous _ _ H H1). pose proof (rates_only_events _ _ H) as He.
  destruct H as (Hm & Hl & _). split; [done| | |]; rewrite ?Hm, ?Hl, ?He; done.
Qed.

Lemma applied_invariant event m w w' now body :
  asMarketEvent now body = Some event -> event_applied event m w w' -> ingest_invariant w -> ingest_invariant w'.
Proof.
  intros (dom & q & Hd & Hq & Hpos & _)%asMarketEvent_sequenced [_ Hnew Hm (dom' & q' & Hd' & Hq' & Hseq & Hdb) [Hlog Hother] _] [H1 H2 H3 H4].
  rewrite Hd in Hd'. rewrite Hq in Hq'. injection Hd' as <-. injection Hq' as <-. split; rewrite ?Hm, ?Hdb; try done.
  - by apply log_contiguous_appended.
  - intros id Hid. unfold appended. cbn. destruct (decide (id = me_id event)) as [->|Hne]; [by rewrite lookup_insert_eq|].
    rewrite lookup_insert_ne by done. apply H2. by rewrite <- Hother.
Qed.

Lemma upsert_invariant market now w : ingest_invariant w -> ingest_invariant (fst (upsert_market market now w)).
Proof.
  intros [H1 H2 H3 H4]. unfold upsert_market. case_bool_decide as Hu; [done|]. cbn [fst].
  assert (Hfree : forall s row, s ≠ md_symbol market -> ws_markets w !! s = Some row -> md_marketIndex (fst row) ≠ md_marketIndex market).
  { intros s row Hs Hrow He. apply Hu. by exists s, row. }
  split; [done|done| |]; cbn [ws_markets].
  - intros s1 s2 m1 m2. rewrite !lookup_insert_Some. intros [[<- <-]|[Hs1 Hm1]] [[<- <-]|[Hs2 Hm2]] He; try done.
    + exfalso. by eapply (Hfree s2).
    + exfalso. by eapply (Hfree s1).
    + by eapply H3.
  - intros s m. rewrite lookup_insert_Some. intros [[<- <-]|[_ Hm]]; [done|by apply H4].
Qed.

Lemma ingest_step_invariant w op : ingest_invariant w -> ingest_invariant (ingest_step w op).
Proof.
  intros Hi. destruct op as [b t a c body|b t a n body]; cbn [ingest_step].
  - destruct (ingest_market_event b t a c body w) as [w' r] eqn:E. cbn [fst].
    apply ingest_route_cases in E as [(_ & -> & _)|(_ & w1 & Hr & [(-> & _)|(event & m & He & Ha & _)])]; [done|..];
      apply (rates_only_invariant _ _ Hr) in Hi; [done|]. by eapply applied_invariant.
  - unfold ingest_market, require_bindings. destruct (isAuthorized a t); [|done]. cbn [negb].
    destruct (asMarketDefinition body) as [market|]; [|done]. unfold mbind, eff_bind, eff_lift, throw_if.
    destruct b; [|done]. cbn [negb]. pose proof (upsert_invariant market n w Hi) as Hu.
    destruct (upsert_market market n w) as [w' []]; done.
Qed.

Lemma ingest_step_refused w op : op_authorised op = false -> ingest_step w op = w.
Proof.
  destruct op; cbn [op_authorised ingest_step]; intros H; [unfold ingest_market_event|unfold ingest_market]; by rewrite H.
Qed.

Lemma ingest_run_invariant ops w : ingest_invariant w -> ingest_invariant (ingest_run w ops).
Proof. revert w. induction ops as [|op ops IH]; intros w Hi; [done|]. cbn. by apply IH, ingest_step_invariant. Qed.

Definition empty_worker : WState := mkWState (mkWorld empty_db 0 []) ∅ ∅ ∅.

Lemma empty_worker_invariant : ingest_invariant empty_worker.
Proof.
  split; cbn; try done; [|by intros ? [? ?]].
  split; cbn; try done. unfold cursor_sequence. cbn. intros m dom q Hq. rewrite lookup_empty in Hq. lia.
Qed.

(** Whatever history of calls reaches the two ingestion routes, requests that
    do not carry the ingestion bearer leave no trace: the state is the one the
    authorised calls alone produce.  In that state the durable log of every market
    and domain holds exactly the sequences 1 up to its cursor, each once, every
    logged market event is indexed, each market is stored under its own symbol, and
    no two markets share an index. *)
Theorem ingestion_history (ops : list ingest_op) :
  let w := ingest_run empty_worker ops in
  w = ingest_run empty_worker (filter (fun op => op_authorised op = true) ops) /\ ingest_invariant w.
Proof.
  intros w. split; [|apply ingest_run_invariant, empty_worker_invariant]. subst w.
  generalize empty_worker. induction ops as [|op ops IH]; intros w; [done|]. cbn [ingest_run foldl]. fold (ingest_run (ingest_step w op) ops).
  rewrite IH. destruct (op_authorised op) eqn:Ha.
  - by rewrite filter_cons_True.
  - rewrite filter_cons_False by congruence. by rewrite ingest_step_refused.
Qed.

(** One call of the event route, on every branch: without the bearer it answers
    401 and changes nothing; with it, a 429, a 400 or a 202 for an event already
    indexed leaves everything but the rate-limit row alone; otherwise the event is
    the direct successor of its registered market's cursor, the log and the cursor
    move to it, the event is in the market's event table and no other market's
    stream is touched (409 then means the stream refused what is already durable). *)
Theorem ingest_route_spec bound token authorization clock body w w' r :
  ingest_market_event bound token authorization clock body w = (w', r) ->
  (isAuthorized authorization token = false /\ w' = w /\ r = Ok (http_error "unauthorized" 401))
  \/ (isAuthorized authorization token = true /\ exists w1, rates_only w w1 /\
       ((w' = w1 /\ forall resp, r = Ok resp -> http_status resp ∈ [429; 400; 409; 202]
           /\ (http_status resp = 202 -> exists event, asMarketEvent (clock 1%nat) body = Some event /\ is_Some (indexed_events (ws_db w) !! me_id event)))
        \/ exists event m, asMarketEvent (clock 1%nat) body = Some event /\ event_applied event m w1 w'
             /\ exists resp, r = Ok resp /\ (http_status resp = 202 \/ http_status resp = 409))).
Proof. apply ingest_route_cases. Qed.
