(* ===== verification/WorkerDispatch.v ===== *)
(** * Execution-status sharing, the V3 read route and the dispatcher

    [sharedExecutionStatus], [fetchExecutionStatus], [marketMakerStatus], the keeper
    health route and the order in which [worker.handle] of workers/src/index.ts
    tries its routes; workers/src/v3-routes.ts; the display predicates of
    workers/src/execution-status.ts. *)

From stdpp Require Import sorting.
From S2P Require Import Prelude Json Bytes ExecutionStatus Repositories V3Market PrivateSessions Keepers Orchestrator EventDecoder.
From S2P Require Import Indexer Transactions Relay Signers KeeperRuntime ClientInstructions ClientEquivalence ChainTransports RelayRoute Faucet PublicApi WorkerRoutes.

(** ** execution-status.ts: display predicates *)

Definition WITHDRAWAL_SAFE_STATUSES : list MarketExecutionStatus := [l1_only; commit_finalized; restored].
Definition isWithdrawalDisplaySafe (s : ExecutionState) : bool := bool_decide (status s ∈ WITHDRAWAL_SAFE_STATUSES).
Definition isL1Committed (s : ExecutionState) : bool :=
  bool_decide (status s = l1_only) || bool_decide (status s = commit_finalized) || bool_decide (status s = restored).

(** ** GET /v1/markets/:symbol/execution-status *)

Definition STATUS_SHARE_MS : Z := 10000.

Inductive StatusOutcome :=
  | so_unconfigured
  | so_not_found
  | so_status (status : string) (sequences : ExecutionSequences) (error : option string) (withdrawalDisplaySafe : bool).

(** [configured]: the RPC endpoint and the database are there; [l1] and [er] are
    the two transports' account reads. *)
Definition fetchExecutionStatus (configured : bool) (symbol : string) (l1 er : AccountReader) (now : Z) : eff WState StatusOutcome :=
  if negb configured then mret so_unconfigured
  else
    w ← eff_get;
    match ws_markets w !! symbol with
    | None => mret so_not_found
    | Some (market, _) =>
        result ← in_tables (@reconcileMarketExecutionStatus Db (status_store now) (md_marketPda market) l1 er);
        let state := fst (result : ExecutionState * bool) in
        _ ← (if snd result
             then eff_catch (in_stream symbol (MarketStream.publishExecutionStatus (status_string (status state)) (isWithdrawalDisplaySafe state)))
                    (fun _ => mret tt)
             else mret tt);
        mret (so_status (status_string (status state)) (sequences state) (error state) (isWithdrawalDisplaySafe state))
    end.

(** The isolate's map of recent answers: the time and the settled promise. *)
Abbreviation StatusCache := (gmap string (Z * result StatusOutcome)).

Definition shared_hit (cache : StatusCache) (symbol : string) (now : Z) : option (result StatusOutcome) :=
  match cache !! symbol with
  | Some (at_, value) => if now - at_ <? STATUS_SHARE_MS then Some value else None
  | None => None
  end.

Definition sharedExecutionStatus (configured : bool) (symbol : string) (l1 er : AccountReader) (now nowFetch : Z)
    : eff (StatusCache * WState) StatusOutcome := fun cw =>
  let '(cache, w) := cw in
  match shared_hit cache symbol now with
  | Some value => (cw, value)
  | None =>
      let (w', value) := fetchExecutionStatus configured symbol l1 er nowFetch w in
      ((<[symbol := (now, value)]> cache, w'), value)
  end.

Definition sequences_json (q : ExecutionSequences) : json :=
  JObj [("erEventSequence", JNum (erEventSequence q)); ("erMarketStateSequence", JNum (erMarketStateSequence q));
        ("requestedCommitSequence", JNum (requestedCommitSequence q)); ("l1ObservedCommitSequence", JNum (l1ObservedCommitSequence q));
        ("l1FinalizedCommitSequence", JNum (l1FinalizedCommitSequence q)); ("undelegationSequence", JNum (undelegationSequence q));
        ("restorationSequence", JNum (restorationSequence q))].

Definition status_response (outcome : result StatusOutcome) : HttpResponse :=
  match outcome with
  | Throw _ => http_error "rpc_unavailable" 503
  | Ok so_unconfigured => http_error "rpc_not_configured" 503
  | Ok so_not_found => http_error "market_not_found" 404
  | Ok (so_status status q error safe) =>
      mkHttp 200 (JObj [("status", JStr status); ("sequences", sequences_json q);
                        ("error", match error with Some e => JStr e | None => JNull end); ("withdrawalDisplaySafe", JBool safe)])
  end.

Definition execution_status_route (configured : bool) (part : string) (l1 er : AccountReader) (now nowFetch : Z)
    : eff (StatusCache * WState) HttpResponse := fun cw =>
  let (cw', outcome) := sharedExecutionStatus configured (toUpperCase part) l1 er now nowFetch cw in (cw', Ok (status_response outcome)).

(** ** v3-routes.ts *)

Section V3Route.
Context (kit : Kit) (base58 : list Z -> string).

Definition fetchV3MarketSnapshot (configured : bool) (coreAddress : string) (multipleAccounts : MultipleAccounts) (now : Z)
    : result (option V3MarketAggregate) :=
  if negb configured then Ok None
  else match address_bytes kit coreAddress with
  | None => Ok None
  | Some _ =>
      bookPages ← mapR (fun flat => WorkerPdas.deriveBookPageV3 kit coreAddress (flat / 9) (flat mod 9)) (seqZ 0 18);
      seatShards ← mapR (WorkerPdas.deriveSeatShardV3 kit coreAddress) (seqZ 0 4);
      eventShards ← mapR (WorkerPdas.deriveEventShardV3 kit coreAddress) (seqZ 0 4);
      match fetchAuthoritativeV3Market base58 (kit_programId kit) multipleAccounts (mkAddresses coreAddress bookPages seatShards eventShards) now with
      | Ok aggregate => Ok aggregate
      | Throw _ => Ok None
      end
  end.

Inductive V3Response := v3_found (aggregate : V3MarketAggregate) | v3_unavailable (domain : Domain).

(** [transports] gives each domain's [getMultipleAccounts]; [domain] is the query
    parameter. *)
Definition handleV3MarketRoute (configured : bool) (method : string) (parts : list string) (domain : option string)
    (transports : Domain -> MultipleAccounts) (now : Z) : result (option V3Response) :=
  match parts with
  | [v1; v3; markets; core] =>
      if negb (bool_decide (method = "GET")) || negb (bool_decide (v1 = "v1")) || negb (bool_decide (v3 = "v3")) || negb (bool_decide (markets = "markets"))
      then Ok None
      else
        let d := if bool_decide (domain = Some "er") then ER else L1 in
        aggregate ← fetchV3MarketSnapshot configured core (transports d) now;
        Ok (Some (match aggregate with Some a => v3_found a | None => v3_unavailable d end))
  | _ => Ok None
  end.
End V3Route.

(** ** Operational routes *)

(** [upstream]: the status service's answer, [None] when it cannot be reached. *)
Definition marketMakerStatus (MM_STATUS_URL : option string) (upstream : option (Z * json)) : HttpResponse :=
  let down e status := mkHttp status (JObj [("running", JBool false); ("error", JStr e)]) in
  match present MM_STATUS_URL with
  | None => down "market maker backend not configured" 503
  | Some _ =>
      match upstream with
      | Some (status, body) => if ChainTransports.http_success status then mkHttp 200 body else down "market maker backend unreachable" 502
      | None => down "market maker backend unreachable" 502
      end
  end.

Definition lease_order (a b : string * LeaseRow) : Prop := String.leb (fst a) (fst b) = true.
#[export] Instance lease_order_dec a b : Decision (lease_order a b).
Proof. unfold lease_order. apply _. Defined.

Definition health_string (s : KeeperHealthState) : string :=
  match s with health_ready => "ready" | health_configuration_blocked => "configuration-blocked" end.
Definition signing_string (s : KeeperSigningState) : string :=
  match s with
  | Signers.observation_only => "observation-only" | signer_ready => "signer-ready"
  | signer_invalid => "signer-invalid" | Signers.configuration_blocked => "configuration-blocked"
  end.

Definition keepers_health (signing : result KeeperSigningResolution) (bound : bool) (env : RuntimeEnv)
    (INGESTION_TOKEN authorization : option string) (now : Z) : eff WState HttpResponse :=
  if negb (isAuthorized authorization INGESTION_TOKEN) then mret (http_error "unauthorized" 401)
  else
    _ ← require_bindings bound;
    due ← in_tables (DeadLetterRepository.due now 100);
    w ← eff_get;
    resolution ← eff_lift signing;
    let leases := merge_sort lease_order (map_to_list (keeper_leases (ws_db w))) in
    let config := classifyKeeperConfiguration env in
    mret (mkHttp 200 (JObj
      [("checkedAt", JNum now);
       ("deadLetters", JObj [("due", JNum (Z.of_nat (length due)));
          ("entries", JArr ((fun e => JObj [("id", JStr (fst e)); ("operation", JStr (dl_operation (snd e)));
                                            ("attempts", JNum (dl_attempts (snd e))); ("error", JStr (dl_error (snd e)))]) <$> due))]);
       ("leases", JArr ((fun e => JObj [("leaseKey", JStr (fst e)); ("holder", JStr (lr_holder (snd e))); ("fence", JNum (lr_fence (snd e)));
                                        ("expiresAt", JNum (lr_expires_at (snd e))); ("active", JBool (now <? lr_expires_at (snd e)))]) <$> leases));
       ("keeperConfiguration", JObj [("pyth", JStr (health_string (ch_pyth config))); ("signer", JStr (health_string (ch_signer config)));
                                     ("magicRouter", JStr (health_string (ch_magicRouter config)));
                                     ("signerState", JStr (signing_string (kr_state resolution)))])])).

(** The candle route: [cached] is what the edge cache holds for the request; the
    answer is the response and whether it was put into the cache. *)
Definition candles_route (fetcher : string -> string -> result (Z * result (list (string * json)))) (PYTH_PRO_API_KEY : option string)
    (encodedSymbol symbol : string) (resolution : option string) (from to_ : option Z) (cached : option HttpResponse) : result (HttpResponse * bool) :=
  let refusal e status := (mkHttp status (JObj [("s", JStr "error"); ("errmsg", JStr e)]), false) in
  match present PYTH_PRO_API_KEY with
  | None => Ok (refusal "no history for this market" 404)
  | Some key =>
      if negb (bool_decide (symbol = "TSLA-PERP")) then Ok (refusal "no history for this market" 404)
      else match parseCandleQuery resolution from to_ with
      | None => Ok (refusal "invalid candle query" 400)
      | Some query =>
          match cached with
          | Some response => Ok (response, false)
          | None => body ← fetchCandles fetcher key encodedSymbol query; Ok (mkHttp 200 body, true)
          end
      end
  end.

Definition nullable (v : option json) : json := default JNull v.
Definition token_json (t : PreIpoToken) : json :=
  JObj [("issuer", JStr "PreStocks"); ("name", JStr (pi_name t)); ("symbol", JStr (pi_symbol t)); ("mint", JStr (pi_mint t));
        ("markPrice", JNum (pi_markPrice t)); ("tokenPrice", nullable (JNum <$> pi_tokenPrice t));
        ("markValuation", nullable (JNum <$> pi_markValuation t)); ("sector", JNull); ("image", nullable (JStr <$> pi_image t));
        ("url", nullable (JStr <$> pi_url t))].
Definition pre_ipo_route (upstream : option json) (now : Z) : eff (option (Z * list PreIpoToken)) HttpResponse :=
  tokens ← fetchPreIpoTokens upstream now; mret (mkHttp 200 (JObj [("tokens", JArr (token_json <$> tokens))])).

Definition launch_json (r : LaunchRow) : json :=
  JObj [("pool", JStr (la_pool r)); ("baseMint", JStr (la_baseMint r)); ("symbol", JStr (la_symbol r)); ("name", JStr (la_name r));
        ("preset", JStr (la_preset r)); ("createdAt", JNum (la_createdAt r))].
Definition launches_route (t : LaunchTable) : HttpResponse := mkHttp 200 (JObj [("launches", JArr (launch_json <$> listLaunches t))]).

Definition health_route (ENVIRONMENT : string) : HttpResponse :=
  mkHttp 200 (JObj [("ok", JBool true); ("service", JStr "stockstream-market-api"); ("environment", JStr ENVIRONMENT)]).

(** Which server-side bindings are present: booleans only. *)
Definition ENV_PRESENCE : list string :=
  ["SOLANA_RPC_URL"; "SOLANA_WS_URL"; "MAGIC_ROUTER_URL"; "MAGICBLOCK_RPC_URL"; "MAGICBLOCK_VALIDATOR"; "PYTH_PRO_API_KEY";
   "KEEPER_KEYPAIR_JSON"; "KEEPER_PUBLIC_KEY"; "INGESTION_TOKEN"].
Definition env_presence (env : string -> option string) (DB : bool) : HttpResponse :=
  mkHttp 200 (JObj (((fun k => (k, JBool (is_present (env k)))) <$> ENV_PRESENCE) ++ [("DB", JBool DB)])).

(** ** The dispatcher *)

Inductive Route :=
  | rt_candles (symbol : string) | rt_pre_ipo | rt_launch_list | rt_launch_register | rt_faucet | rt_operator_mint | rt_mm_status
  | rt_oracle_refresh | rt_health | rt_env_presence | rt_keepers_health | rt_ingest_event | rt_ingest_market | rt_markets
  | rt_v3 (core : string) | rt_market (part : string) | rt_relay
  | rt_stream (symbol : string) | rt_snapshot (symbol : string) | rt_execution_status (symbol : string) | rt_not_found.

Definition slash : Ascii.ascii := Ascii.ascii_of_nat 47.
Definition path_parts (pathname : string) : list string := filter (fun s => s ≠ "") (split_char slash pathname).

(** The tests on whole paths, in the order of the source; [launches]: the database
    and the RPC endpoint are configured. *)
Definition exact_route (launches : bool) (method pathname : string) : option Route :=
  let get := bool_decide (method = "GET") in
  let post := bool_decide (method = "POST") in
  let at_ p := bool_decide (pathname = p) in
  if get && at_ "/v1/pre-ipo" then Some rt_pre_ipo
  else if at_ "/v1/launches" && launches && get then Some rt_launch_list
  else if at_ "/v1/launches" && launches && post then Some rt_launch_register
  else if post && at_ "/v1/faucet" then Some rt_faucet
  else if post && at_ "/v1/operator/mint" then Some rt_operator_mint
  else if get && at_ "/v1/mm/status" then Some rt_mm_status
  else if post && at_ "/v1/oracle/refresh" then Some rt_oracle_refresh
  else if get && at_ "/health" then Some rt_health
  else if get && at_ "/debug/env-presence" then Some rt_env_presence
  else if get && at_ "/v1/health/keepers" then Some rt_keepers_health
  else if post && at_ "/v1/ingest/market-event" then Some rt_ingest_event
  else if post && at_ "/v1/ingest/market" then Some rt_ingest_market
  else if get && at_ "/v1/markets" then Some rt_markets
  else None.

(** [parts[i] === s] *)
Definition part_is (parts : list string) (i : nat) (s : string) : bool := bool_decide (parts !! i = Some s).
Definition part_at (parts : list string) (i : nat) : string := default "" (parts !! i).

(** [worker.handle] *)
Definition dispatch (launches : bool) (method pathname : string) : Route :=
  let get := bool_decide (method = "GET") in
  let parts := path_parts pathname in
  let of_length n := Nat.eqb (length parts) n in
  if get && part_is parts 0 "v1" && part_is parts 1 "markets" && part_is parts 3 "candles" && of_length 4%nat then rt_candles (part_at parts 2)
  else match exact_route launches method pathname with
  | Some r => r
  | None =>
      if get && part_is parts 0 "v1" && part_is parts 1 "v3" && part_is parts 2 "markets" && of_length 4%nat then rt_v3 (part_at parts 3)
      else if get && part_is parts 0 "v1" && part_is parts 1 "markets" && of_length 3%nat then rt_market (part_at parts 2)
      else if bool_decide (method = "POST") && bool_decide (pathname = "/v1/relay/session") then rt_relay
      else if part_is parts 0 "v1" && part_is parts 1 "markets" && of_length 4%nat then
        let symbol := toUpperCase (part_at parts 2) in
        if get && part_is parts 3 "stream" then rt_stream symbol
        else if get && part_is parts 3 "snapshot" then rt_snapshot symbol
        else if get && part_is parts 3 "execution-status" then rt_execution_status symbol
        else rt_not_found
      else rt_not_found
  end.

(** ** Which requests can reach which handler *)

(** The posts, by path. *)
Definition post_route (launches : bool) (pathname : string) : Route :=
  if bool_decide (pathname = "/v1/launches") then (if launches then rt_launch_register else rt_not_found)
  else if bool_decide (pathname = "/v1/faucet") then rt_faucet
  else if bool_decide (pathname = "/v1/operator/mint") then rt_operator_mint
  else if bool_decide (pathname = "/v1/oracle/refresh") then rt_oracle_refresh
  else if bool_decide (pathname = "/v1/ingest/market-event") then rt_ingest_event
  else if bool_decide (pathname = "/v1/ingest/market") then rt_ingest_market
  else if bool_decide (pathname = "/v1/relay/session") then rt_relay
  else rt_not_found.

Definition post_only (r : Route) : bool :=
  match r with
  | rt_launch_register | rt_faucet | rt_operator_mint | rt_oracle_refresh | rt_ingest_event | rt_ingest_market | rt_relay => true
  | _ => false
  end.

Lemma dispatch_post launches pathname : dispatch launches "POST" pathname = post_route launches pathname.
Proof.
  unfold dispatch, exact_route, post_route.
  rewrite (bool_decide_false ("POST" = "GET")), (bool_decide_true ("POST" = "POST")) by done. cbn [andb].
  rewrite !andb_false_r.
  repeat (case_bool_decide; subst; cbn [andb]; [by destruct launches|]).
  repeat (case_bool_decide; subst; cbn [andb]; [done|]). by case_match.
Qed.

Lemma dispatch_get launches pathname : post_only (dispatch launches "GET" pathname) = false.
Proof.
  unfold dispatch, exact_route.
  rewrite (bool_decide_true ("GET" = "GET")), (bool_decide_false ("GET" = "POST")) by done.
  cbv zeta. cbn [andb]. repeat first [rewrite andb_false_r | progress cbn [andb]]. repeat (case_match; try done); by simplify_eq.
Qed.

Lemma dispatch_other launches method pathname :
  method ≠ "GET" -> method ≠ "POST" -> dispatch launches method pathname = rt_not_found.
Proof.
  intros Hg Hp. unfold dispatch, exact_route. rewrite (bool_decide_false (method = "GET")), (bool_decide_false (method = "POST")) by done.
  cbv zeta. repeat first [rewrite andb_false_r | progress cbn [andb]]. by case_match.
Qed.

Section Posts.
Context (pf : RelayPlatform) (base58 : list Z -> string) (EQUINOX_PROGRAM_ID : string).
Context (JSON_parse : string -> option json) (ed25519_public : list Z -> list Z) (ed25519_sign : list Z -> list Z -> list Z).
Context (verifyPrivy : string -> result PrivyClaims) (encodeWire : WireTransaction -> string).
Context (account : Domain -> string -> result (option AccountInfo)) (isBlockhashValid : Domain -> string -> result bool)
  (send_to : Domain -> string -> result string) (clock : nat -> Z).
Context (signing_of : KeeperSigningEnv -> result KeeperSigningResolution)
  (associatedTokenAddress : string -> string -> result string)
  (compile_and_sign : Signer -> list Instruction -> string -> result string).

(** The handler behind a guarded post answers a request without its credential
    before it reads or changes anything. *)
Definition refuses (r : Route) : Prop :=
  match r with
  | rt_ingest_event => forall bound token authorization clock body w, isAuthorized authorization token = false ->
      ingest_market_event bound token authorization clock body w = (w, Ok (http_error "unauthorized" 401))
  | rt_ingest_market => forall bound token authorization now body w, isAuthorized authorization token = false ->
      ingest_market bound token authorization now body w = (w, Ok (http_error "unauthorized" 401))
  | rt_operator_mint => forall chain env authorization wallet tokens s, isAuthorized authorization (fe_INGESTION_TOKEN env) = false ->
      operatorMint signing_of base58 associatedTokenAddress compile_and_sign chain env authorization wallet tokens s
      = (s, Ok (http_error "unauthorized" 401))
  | rt_relay => forall env request w, RELAYER_SERVICE_TOKEN env = None \/ hr_serviceToken request ≠ RELAYER_SERVICE_TOKEN env ->
      exists response, relay_route pf base58 EQUINOX_PROGRAM_ID JSON_parse ed25519_public ed25519_sign verifyPrivy encodeWire account
        isBlockhashValid send_to clock env request w = (w, Ok response) /\ (http_status response = 401 \/ http_status response = 503)
  | _ => False
  end.

(** The dispatcher, for every method and path: a method other than GET and POST
    reaches nothing; a GET never reaches a handler that writes on behalf of a
    caller; a POST reaches a handler exactly when its path is one of seven, each
    path its own handler; and of those, every one is either among the three routes
    the CORS layer opens to browsers or refuses, before it reads or changes
    anything, a request that lacks the ingestion bearer or the relayer service
    token. *)
Theorem posts_public_or_guarded (launches : bool) (method pathname : string) :
  (method ≠ "GET" -> method ≠ "POST" -> dispatch launches method pathname = rt_not_found)
  /\ (post_only (dispatch launches method pathname) = true -> method = "POST")
  /\ dispatch launches "POST" pathname = post_route launches pathname
  /\ (dispatch launches "POST" pathname = rt_not_found \/ pathname ∈ PUBLIC_POST_ROUTES \/ refuses (dispatch launches "POST" pathname)).
Proof.
  split_and!; [apply dispatch_other| |apply dispatch_post|].
  - intros H. destruct (decide (method = "POST")) as [|Hp]; [done|]. destruct (decide (method = "GET")) as [->|Hg].
    + by rewrite dispatch_get in H.
    + by rewrite dispatch_other in H.
  - rewrite dispatch_post. unfold post_route, PUBLIC_POST_ROUTES.
    repeat (case_bool_decide; [subst; first [by left; destruct launches | by right; left; apply (bool_decide_eq_true_1 _); vm_compute | right; right]|]); [..|by left]; cbn [refuses].
    + intros chain env authorization wallet tokens s Ha. unfold operatorMint. by rewrite Ha.
    + intros bound token authorization c body w Ha. unfold ingest_market_event. by rewrite Ha.
    + intros bound token authorization c body w Ha. unfold ingest_market. by rewrite Ha.
    + intros env request w Ht. unfold relay_route, authenticate, present.
      destruct (RELAYER_SERVICE_TOKEN env) as [t|]; [|eexists; split; [done|by right]].
      case_bool_decide; [eexists; split; [done|by right]|]. rewrite bool_decide_false by (destruct Ht; done).
      eexists; split; [done|by left].
Qed.
End Posts.

(** ** One status read per market and ten seconds *)

Record StatusCall := mkStatusCall { sc_symbol : string; sc_l1 : AccountReader; sc_er : AccountReader; sc_now : Z; sc_nowFetch : Z }.

(** What a call did: its symbol, its time, whether it read the chain, its answer. *)
Record StatusEvent := mkStatusEvent { se_symbol : string; se_now : Z; se_fetched : bool; se_outcome : result StatusOutcome }.

Definition status_call (configured : bool) (c : StatusCall) (cw : StatusCache * WState) : (StatusCache * WState) * StatusEvent :=
  let (cw', r) := sharedExecutionStatus configured (sc_symbol c) (sc_l1 c) (sc_er c) (sc_now c) (sc_nowFetch c) cw in
  (cw', mkStatusEvent (sc_symbol c) (sc_now c) (bool_decide (shared_hit (fst cw) (sc_symbol c) (sc_now c) = None)) r).

Definition status_trace (configured : bool) (calls : list StatusCall) (cw : StatusCache * WState) : (StatusCache * WState) * list StatusEvent :=
  foldl (fun s c => let (cw', e) := status_call configured c (fst s) in (cw', snd s ++ [e])) (cw, []) calls.

(** Two reads of one market. *)
Definition reads_apart (a b : StatusEvent) : Prop :=
  se_fetched a = true -> se_fetched b = true -> se_symbol a = se_symbol b -> se_now a + STATUS_SHARE_MS <= se_now b.
(** [b] answers with what [a] read. *)
Definition answers_from (a b : StatusEvent) : Prop :=
  se_fetched a = true /\ se_symbol a = se_symbol b /\ se_outcome a = se_outcome b /\ se_now b - se_now a < STATUS_SHARE_MS.

Record share_invariant (cache : StatusCache) (trace : list StatusEvent) : Prop := {
  si_last : forall s at_ v, cache !! s = Some (at_, v) ->
    mkStatusEvent s at_ true v ∈ trace /\ forall e, e ∈ trace -> se_fetched e = true -> se_symbol e = s -> se_now e <= at_;
  si_none : forall s, cache !! s = None -> forall e, e ∈ trace -> se_symbol e ≠ s;
  si_apart : StronglySorted reads_apart trace;
  si_served : forall e, e ∈ trace -> exists f, f ∈ trace /\ answers_from f e }.

Lemma StronglySorted_snoc {A} (R : relation A) l x :
  StronglySorted R l -> (forall a, a ∈ l -> R a x) -> StronglySorted R (l ++ [x]).
Proof.
  induction 1 as [|a l Hs IH Ha]; intros Hx; cbn; [repeat constructor|].
  constructor; [apply IH; intros; apply Hx; by right|]. apply Forall_app. split; [done|]. constructor; [|constructor]. apply Hx. left.
Qed.

Lemma share_step configured c cache w trace cw' e :
  status_call configured c (cache, w) = (cw', e) ->
  (forall f, f ∈ trace -> se_now f <= sc_now c) ->
  share_invariant cache trace -> share_invariant (fst cw') (trace ++ [e]) /\ se_now e = sc_now c.
Proof.
  unfold status_call, sharedExecutionStatus. cbn [fst]. intros Hc Hlate [H1 H2 H3 H4].
  assert (Hin : forall f x, f ∈ trace -> f ∈ trace ++ [x]) by (intros; apply elem_of_app; by left).
  assert (Hnew : forall x : StatusEvent, x ∈ trace ++ [x]) by (intros; apply elem_of_app; right; by apply list_elem_of_singleton).
  destruct (shared_hit cache (sc_symbol c) (sc_now c)) as [v|] eqn:Hh.
  - rewrite bool_decide_false in Hc by done. injection Hc as <- <-. split; [|done]. cbn [fst].
    unfold shared_hit in Hh. destruct (cache !! sc_symbol c) as [[at_ v']|] eqn:Hs; [|done].
    destruct (sc_now c - at_ <? STATUS_SHARE_MS) eqn:Hage; [|done]. injection Hh as ->. apply Z.ltb_lt in Hage.
    destruct (H1 _ _ _ Hs) as [Hsrc _]. split.
    + intros s at' v' Hs'. destruct (H1 _ _ _ Hs') as [Ha Hb]. split; [by apply Hin|].
      intros f [Hf|Hf%list_elem_of_singleton]%elem_of_app; [by apply Hb|by subst].
    + intros s Hs' f [Hf|Hf%list_elem_of_singleton]%elem_of_app; [by eapply H2|subst; cbn; congruence].
    + apply StronglySorted_snoc; [done|]. intros a _ _ ?. done.
    + intros f [Hf|Hf%list_elem_of_singleton]%elem_of_app.
      * destruct (H4 f Hf) as (g & Hg & ?). exists g. auto.
      * subst. exists (mkStatusEvent (sc_symbol c) at_ true v). split; [by apply Hin|]. done.
  - destruct (fetchExecutionStatus _ _ _ _ _ w) as [w' v] eqn:Hf. rewrite bool_decide_true in Hc by done. injection Hc as <- <-.
    split; [|done]. cbn [fst]. set (e := mkStatusEvent (sc_symbol c) (sc_now c) true v). split.
    + intros s at_ v'. rewrite lookup_insert_Some. intros [[<- [= <- <-]]|[Hne Hs]].
      * split; [apply Hnew|]. intros f [Hf'|Hf'%list_elem_of_singleton]%elem_of_app; [intros; by apply Hlate|subst; done].
      * destruct (H1 _ _ _ Hs) as [Ha Hb]. split; [by apply Hin|].
        intros f [Hf'|Hf'%list_elem_of_singleton]%elem_of_app; [by apply Hb|subst; done].
    + intros s Hs f. rewrite lookup_insert_None in Hs. destruct Hs as [Hs Hne].
      intros [Hf'|Hf'%list_elem_of_singleton]%elem_of_app; [by eapply H2|subst; done].
    + apply StronglySorted_snoc; [done|]. intros a Ha Hfa _ Hsym. cbn in Hsym. unfold shared_hit in Hh.
      destruct (cache !! sc_symbol c) as [[at_ v']|] eqn:Hs; [|exfalso; by eapply H2].
      destruct (sc_now c - at_ <? STATUS_SHARE_MS) eqn:Hage; [done|]. apply Z.ltb_ge in Hage.
      destruct (H1 _ _ _ Hs) as [_ Hb]. specialize (Hb a Ha Hfa Hsym). cbn. lia.
    + intros f [Hf'|Hf'%list_elem_of_singleton]%elem_of_app.
      * destruct (H4 f Hf') as (g & Hg & ?). exists g. auto.
      * subst f. exists e. split; [apply Hnew|]. unfold answers_from, STATUS_SHARE_MS. split_and!; try done. lia.
Qed.

Lemma share_trace configured calls w :
  StronglySorted Z.le (sc_now <$> calls) ->
  let t := status_trace configured calls (∅, w) in
  share_invariant (fst (fst t)) (snd t) /\ se_now <$> snd t = sc_now <$> calls.
Proof.
  induction calls as [|c calls IH] using rev_ind; intros Hs; cbv zeta.
  { split; [|done]. split; cbn; try done; try (intros; set_solver). constructor. }
  rewrite fmap_app in Hs. cbn in Hs.
  assert (Hs' : StronglySorted Z.le (sc_now <$> calls) /\ forall t, t ∈ sc_now <$> calls -> t <= sc_now c).
  { clear IH. revert Hs. generalize (sc_now <$> calls). intros l. induction l as [|a l IHl]; intros Hl; [split; [constructor|set_solver]|].
    cbn in Hl. apply StronglySorted_inv in Hl as [Hl Ha]. apply Forall_app in Ha as [Ha Hx]. rewrite Forall_singleton in Hx.
    destruct (IHl Hl) as [Hl' Hle]. split; [by constructor|]. intros t [->|Ht]%elem_of_cons; [done|by apply Hle]. }
  destruct Hs' as [Hsorted Hle]. destruct (IH Hsorted) as [Hinv Htimes]. unfold status_trace. rewrite foldl_app.
  fold (status_trace configured calls (∅, w)). destruct (status_trace configured calls (∅, w)) as [[cache w'] trace]. cbn [fst snd] in *.
  cbn [foldl]. destruct (status_call configured c (cache, w')) as [cw' e] eqn:He. cbn [fst snd].
  destruct (share_step configured c cache w' trace cw' e He) as [Hi Hn]; [|done|].
  - intros f Hf. apply Hle. rewrite <- Htimes. apply list_elem_of_fmap. by exists f.
  - rewrite He. cbn [fst snd]. split; [done|]. rewrite !fmap_app, Htimes. cbn. by rewrite Hn.
Qed.

(** The shared execution status, over any sequence of calls made at
    non-decreasing times: two calls that read the chain for the same market are at
    least ten seconds apart, and every answer, a failure included, is exactly what
    such a read for that market returned less than ten seconds before. *)
Theorem status_share_bound configured (calls : list StatusCall) (w : WState) :
  StronglySorted Z.le (sc_now <$> calls) ->
  let trace := snd (status_trace configured calls (∅, w)) in
  StronglySorted reads_apart trace
  /\ (forall e, e ∈ trace -> exists f, f ∈ trace /\ answers_from f e)
  /\ length trace = length calls.
Proof.
  intros Hs. destruct (share_trace configured calls w Hs) as [[_ _ H3 H4] Ht]. cbv zeta. split_and!; [done|done|].
  rewrite <- (length_fmap se_now), Ht. apply length_fmap.
Qed.

Lemma status_share_bound_witness :
  let calls := (fun t => mkStatusCall "TSLA-PERP" (fun _ => Ok None) (fun _ => Ok None) t t) <$> [0; 4000; 9999; 10000] in
  StronglySorted Z.le (sc_now <$> calls)
  /\ se_fetched <$> snd (status_trace true calls (∅, empty_worker)) = [true; false; false; true]
  /\ StronglySorted reads_apart (snd (status_trace true calls (∅, empty_worker))).
Proof.
  assert (Hs : StronglySorted Z.le [0; 4000; 9999; 10000]) by (repeat constructor; lia).
  cbv zeta. split; [exact Hs|]. split; [vm_compute; reflexivity|].
  apply (status_share_bound true ((fun t => mkStatusCall "TSLA-PERP" (fun _ => Ok None) (fun _ => Ok None) t t) <$> [0; 4000; 9999; 10000]) empty_worker).
  exact Hs.
Defined.

(** ** The V3 read route always answers *)

Section V3Total.
Context (kit : Kit) (base58 : list Z -> string).

Lemma derive_Ok seed core suffix key : address_bytes kit core = Some key ->
  WorkerPdas.derive kit seed core suffix = Ok (getProgramDerivedAddress kit (kit_programId kit) [ascii_bytes seed; key; suffix]).
Proof. intros H. unfold WorkerPdas.derive, WorkerPdas.coreSeed. by rewrite H. Qed.

(** The twenty-six child addresses of a core account. *)
Definition shard_addresses (core : string) (key : list Z) : V3ShardAddresses :=
  let at_ seed suffix := getProgramDerivedAddress kit (kit_programId kit) [ascii_bytes seed; key; suffix] in
  mkAddresses core ((fun flat => at_ "book-page-v3" [flat / 9; flat mod 9]) <$> seqZ 0 18)
    ((fun i => at_ "seat-shard-v3" [i]) <$> seqZ 0 4) ((fun i => at_ "event-shard-v3" [i]) <$> seqZ 0 4).

Lemma fetchV3MarketSnapshot_eq configured core multipleAccounts now :
  fetchV3MarketSnapshot kit base58 configured core multipleAccounts now
  = Ok (if configured then
          match address_bytes kit core with
          | Some key =>
              match fetchAuthoritativeV3Market base58 (kit_programId kit) multipleAccounts (shard_addresses core key) now with
              | Ok a => a | Throw _ => None
              end
          | None => None
          end
        else None).
Proof.
  unfold fetchV3MarketSnapshot. destruct configured; [|done]. cbn [negb]. destruct (address_bytes kit core) as [key|] eqn:Hk; [|done].
  rewrite (mapR_pure _ (fun flat => getProgramDerivedAddress kit (kit_programId kit) [ascii_bytes "book-page-v3"; key; [flat / 9; flat mod 9]]) (seqZ 0 18)).
  2: { intros flat Hf. unfold WorkerPdas.deriveBookPageV3. rewrite (page_range flat Hf). cbn [throw_if mbind result_bind]. by apply derive_Ok. }
  rewrite (mapR_pure (WorkerPdas.deriveSeatShardV3 kit core) (fun i => getProgramDerivedAddress kit (kit_programId kit) [ascii_bytes "seat-shard-v3"; key; [i]]) (seqZ 0 4)).
  2: { intros i Hi. unfold WorkerPdas.deriveSeatShardV3. rewrite (shard_range i Hi). cbn [throw_if mbind result_bind]. by apply derive_Ok. }
  rewrite (mapR_pure (WorkerPdas.deriveEventShardV3 kit core) (fun i => getProgramDerivedAddress kit (kit_programId kit) [ascii_bytes "event-shard-v3"; key; [i]]) (seqZ 0 4)).
  2: { intros i Hi. unfold WorkerPdas.deriveEventShardV3. rewrite (shard_range i Hi). cbn [throw_if mbind result_bind]. by apply derive_Ok. }
  unfold mbind, result_bind. fold (shard_addresses core key). by destruct (fetchAuthoritativeV3Market _ _ _ _ _).
Qed.

(** The V3 read route answers every request and never fails: it handles exactly
    the GETs of /v1/v3/markets/<core>, and an aggregate it returns was read, in one
    request to the transport of the asked domain, from the core address and the
    twenty-six addresses derived from it, never from an address the caller names. *)
Theorem v3_route_answers configured method parts domain (transports : Domain -> MultipleAccounts) now :
  exists r, handleV3MarketRoute kit base58 configured method parts domain transports now = Ok r
  /\ (r ≠ None <-> method = "GET" /\ exists core, parts = ["v1"; "v3"; "markets"; core])
  /\ forall a, r = Some (v3_found a) -> exists core key, parts = ["v1"; "v3"; "markets"; core] /\ address_bytes kit core = Some key
       /\ fetchAuthoritativeV3Market base58 (kit_programId kit) (transports (if bool_decide (domain = Some "er") then ER else L1))
            (shard_addresses core key) now = Ok (Some a).
Proof.
  unfold handleV3MarketRoute.
  destruct parts as [|p0 [|p1 [|p2 [|core [|]]]]];
    try (exists None; split; [done|]; split; [split; [done|intros [_ [? [=]]]]|done]).
  case_match eqn:Hg.
  - exists None. split; [done|]. split; [|done]. split; [done|]. intros [-> [core' [= -> -> -> ->]]].
    rewrite !bool_decide_true in Hg by done. done.
  - rewrite !orb_false_iff, !negb_false_iff, !bool_decide_eq_true in Hg. destruct Hg as [[[-> ->] ->] ->].
    rewrite fetchV3MarketSnapshot_eq. cbn [mbind result_bind]. eexists. split; [done|]. split; [by split; [eauto|]|].
    intros a. destruct configured; [|done]. destruct (address_bytes kit core) as [key|] eqn:Hk; [|done].
    case_match eqn:Ha; [|done]. intros [= ->]. exists core, key. split; [done|]. split; [done|].
    destruct (fetchAuthoritativeV3Market _ _ _ _ _); simplify_eq. done.
Qed.
End V3Total.

(** The diagnostics route shows which bindings are set and nothing of their values:
    two environments that set the same names get the same answer. *)
Lemma env_presence_hides_values env env' DB :
  (forall k, is_present (env k) = is_present (env' k)) -> env_presence env DB = env_presence env' DB.
Proof. intros H. unfold env_presence. do 3 f_equal. apply list_fmap_ext. intros i k _. by rewrite H. Qed.

(** The history proxy is asked only for a well-formed query on the one market with
    history, and only when the cache has nothing. *)
Lemma candles_route_put fetcher key encoded symbol resolution from to_ cached response :
  candles_route fetcher key encoded symbol resolution from to_ cached = Ok (response, true) ->
  symbol = "TSLA-PERP" /\ cached = None /\ exists k query body, present key = Some k /\ parseCandleQuery resolution from to_ = Some query
    /\ fetchCandles fetcher k encoded query = Ok body /\ response = mkHttp 200 body.
Proof.
  unfold candles_route. destruct (present key) as [k|]; [|done]. case_bool_decide as Hs; cbn [negb]; [|done].
  destruct (parseCandleQuery resolution from to_) as [query|]; [|done]. destruct cached; [done|].
  intros (body & Hb & [= <-])%result_bind_Ok. split_and!; try done. by exists k, query, body.
Qed.
