(* ===== verification/ScheduledWork.v ===== *)
(** * The scheduled worker

    [runIngestionTick] and [scheduled] of workers/src/index.ts: the poll of every
    registered market's recent signatures through the durable indexer, the push of
    private seat projections, and the order in which one cron invocation runs the
    clean-up, the ingestion and the keeper jobs.  The chain is a parameter; the
    database, the streams and the keepers are the modelled ones. *)

From S2P Require Import Prelude Json Bytes ExecutionStatus Repositories PrivateSessions Keepers Orchestrator EventDecoder.
From S2P Require Import Indexer Signers KeeperRuntime RelayRoute WorkerRoutes.

(** ** Loops *)

(** A loop that adds up what its steps counted. *)
Fixpoint sum_eff {S A} (f : A -> eff S Z) (l : list A) : eff S Z :=
  match l with
  | [] => mret 0
  | a :: rest => n ← f a; m ← sum_eff f rest; mret (n + m)
  end.

(** A loop run for its effects. *)
Fixpoint each_eff {S A} (f : A -> eff S unit) (l : list A) : eff S unit :=
  match l with
  | [] => mret tt
  | a :: rest => _ ← f a; each_eff f rest
  end.

(** ** Serialising a projection *)

(** A value handed to [JSON.stringify]: JSON, or a [bigint], on which it throws. *)
Inductive js_value := js_plain (j : json) | js_bigint (z : Z).

Definition stringify_field (f : string * js_value) : result (string * json) :=
  match snd f with
  | js_plain j => Ok (fst f, j)
  | js_bigint _ => Throw "Do not know how to serialize a BigInt"
  end.
Definition JSON_stringify (fields : list (string * js_value)) : result json :=
  fs ← mapR stringify_field fields; Ok (JObj fs).

(** The fields of a [TraderSeatProjection] with their types. *)
Definition projection_fields (p : TraderSeatProjection) : list (string * js_value) :=
  [("seatIndex", js_plain (JNum (tp_seatIndex p))); ("owner", js_plain (JStr (tp_owner p)));
   ("availableCollateral", js_bigint (tp_availableCollateral p)); ("reservedMargin", js_bigint (tp_reservedMargin p));
   ("basePosition", js_bigint (tp_basePosition p)); ("quoteEntryValue", js_bigint (tp_quoteEntryValue p));
   ("realizedPnl", js_bigint (tp_realizedPnl p)); ("lastFundingAccumulator", js_bigint (tp_lastFundingAccumulator p));
   ("openBidExposure", js_bigint (tp_openBidExposure p)); ("openAskExposure", js_bigint (tp_openAskExposure p));
   ("openOrderCount", js_plain (JNum (tp_openOrderCount p))); ("liquidationState", js_plain (JNum (tp_liquidationState p)));
   ("sequence", js_bigint (tp_sequence p))].

(** ** runIngestionTick *)

(** An entry of [getSignaturesForAddress]; [sg_err] is the truthiness of [err]. *)
Record SignatureEntry := mkSignature { sg_signature : string; sg_slot : Z; sg_err : bool }.

(** What the chain answers during one tick; a transaction is [None] when the RPC
    knows none by that signature (its result is [null]). *)
Record TickChain := mkTickChain {
  tc_signatures : string -> result (list SignatureEntry);
  tc_transaction : string -> result (option RawTransactionResult);
  tc_account : Domain -> string -> result (Z * option (list Z)) }.

Section Tick.
Context (chain : TickChain) (clock : nat -> Z) (base58 : list Z -> string).

(** [new Map(markets.results.map(...))]: of two rows of one address the later. *)
Definition definitions_by_pda (markets : list MarketDefinition) : gmap string MarketDefinition :=
  foldl (fun m d => <[md_marketPda d := d]> m) ∅ markets.

Definition stream_name (defs : gmap string MarketDefinition) (marketPda : string) : string :=
  match defs !! marketPda with Some d => md_symbol d | None => marketPda end.

(** [decodeCustodyEvents] reads a property of its argument. *)
Definition decode_transaction (transaction : option RawTransactionResult) (now : Z) : result (list MarketEvent) :=
  match transaction with
  | None => Throw "Cannot read properties of null (reading 'meta')"
  | Some tx => decodeCustodyEvents tx L1 now
  end.

(** The durable object's [publishPrivate] on what the sink is told; its rejection
    reaches nobody. *)
Definition deliver_projection (name : string) (told : string * Z * TraderSeatProjection) : eff WState unit :=
  let '(wallet, seatIndex, projection) := told in
  in_stream name
    (match JSON_stringify (projection_fields projection) with
     | Ok payload => MarketStream.publishPrivate wallet seatIndex payload
     | Throw _ => mret tt
     end).

Definition l1_reader : AccountReader := fun a => r ← tc_account chain L1 a; Ok (snd r).

Definition push_seat (marketPda name : string) (seatIndex : Z) : eff WState unit :=
  now ← in_world (now_eff clock);
  told ← eff_catch (r ← in_tables (publishSeatProjection base58 l1_reader marketPda seatIndex now); mret (snd r)) (fun _ => mret []);
  each_eff (deliver_projection name) told.

Definition push_event (marketPda name : string) (event : MarketEvent) : eff WState unit :=
  match prop "discriminator" (me_payload event), prop "payload" (me_payload event) with
  | Some (JNum discriminator), Some (JStr payload) =>
      bytes ← eff_lift (match atob payload with Some b => Ok b | None => Throw "InvalidCharacterError" end);
      seats ← eff_lift (seatsAffectedByEvent discriminator bytes);
      each_eff (push_seat marketPda name) seats
  | _, _ => mret tt
  end.

Definition tick_event (defs : gmap string MarketDefinition) (market : MarketDefinition) (event : MarketEvent) : eff WState Z :=
  let marketPda := md_marketPda market in
  let name := stream_name defs marketPda in
  now ← in_world (now_eff clock);
  ingested ← eff_catch
    (_ ← in_store marketPda name (ingest (account_snapshot (tc_account chain) (fun pda => default market (defs !! pda)) now) marketPda event);
     mret true) (fun _ => mret false);
  if (ingested : bool) then (_ ← push_event marketPda name event; mret 1) else mret 0.

Definition tick_entry (defs : gmap string MarketDefinition) (market : MarketDefinition) (cursor : option CursorRow) (entry : SignatureEntry)
    : eff WState Z :=
  if sg_err entry || match cursor with Some c => sg_slot entry <=? cr_slot c | None => false end then mret 0
  else match tc_transaction chain (sg_signature entry) with
  | Throw _ => mret 0
  | Ok transaction =>
      now ← in_world (now_eff clock);
      events ← eff_lift (decode_transaction transaction now);
      sum_eff (tick_event defs market) events
  end.

Definition tick_market (defs : gmap string MarketDefinition) (market : MarketDefinition) : eff WState Z :=
  cursor ← in_tables (IndexerRepository.cursor (md_marketPda market) L1);
  match tc_signatures chain (md_marketPda market) with
  | Throw _ => mret 0
  | Ok signatures => sum_eff (tick_entry defs market cursor) (reverse signatures)
  end.

(** [configured]: the bindings and the RPC endpoint are there; the answer is the
    number of markets and of ingested events. *)
Definition runIngestionTick (configured : bool) : eff WState (Z * Z) :=
  if negb configured then mret (0, 0)
  else
    w ← eff_get;
    let markets := market_rows w in
    n ← sum_eff (tick_market (definitions_by_pda markets)) markets;
    mret (Z.of_nat (length markets), n).
End Tick.

(** ** Which events a transaction yields *)

Lemma b64_value_bound c v : b64_value c = Some v -> 0 <= v < 64.
Proof. unfold b64_value. repeat case_match; intros [= <-]; lia. Qed.

(** Induction on 6-bit groups, four at a time. *)
Lemma list_ind4 {A} (P : list A -> Prop) :
  P [] -> (forall a, P [a]) -> (forall a b, P [a; b]) -> (forall a b c, P [a; b; c]) ->
  (forall a b c d l, P l -> P (a :: b :: c :: d :: l)) -> forall l, P l.
Proof.
  intros H0 H1 H2 H3 H4.
  enough (forall l, P l /\ (forall a, P (a :: l)) /\ (forall a b, P (a :: b :: l)) /\ forall a b c, P (a :: b :: c :: l)) as H by apply H.
  induction l as [|d l (IH0 & IH1 & IH2 & IH3)]; [by split_and!|]. split_and!; [apply IH1|intros; apply IH2|intros; apply IH3|].
  intros a b c. by apply H4.
Qed.

Lemma octets_bytes ss : Forall (fun v => 0 <= v < 64) ss -> uint8array (octets ss).
Proof.
  pattern ss. apply list_ind4; clear ss; unfold uint8array, is_byte.
  - constructor.
  - constructor.
  - intros a b H. inv H as [|? ? Ha H']. inv H' as [|? ? Hb _]. repeat constructor; Z.to_euclidean_division_equations; lia.
  - intros a b c H. inv H as [|? ? Ha H']. inv H' as [|? ? Hb H'']. inv H'' as [|? ? Hc _].
    repeat constructor; Z.to_euclidean_division_equations; lia.
  - intros a b c d l IH H. inv H as [|? ? Ha H']. inv H' as [|? ? Hb H'']. inv H'' as [|? ? Hc H3]. inv H3 as [|? ? Hd H4]. cbn [octets].
    constructor; [|constructor; [|constructor; [|by apply IH]]]; Z.to_euclidean_division_equations; lia.
Qed.

Lemma atob_bytes s bs : atob s = Some bs -> uint8array bs.
Proof.
  unfold atob. intros H. apply bind_Some in H as (ss & Hss & H). case_match; [done|]. injection H as <-.
  apply octets_bytes. apply mapM_Some in Hss. clear -Hss. induction Hss as [|c v l k Hv _ IH]; constructor; [by eapply b64_value_bound|done].
Qed.

(** The payload of a decoded event is Base64 of the record's 48 payload bytes. *)
Definition custody_event (e : MarketEvent) : Prop :=
  exists d bs, prop "discriminator" (me_payload e) = Some (JNum d) /\ prop "payload" (me_payload e) = Some (JStr (btoa bs)) /\ uint8array bs.

Lemma decodeEventLogLine_payload line d :
  decodeEventLogLine line = Ok (Some d) -> exists bs, dec_payload d = btoa bs /\ uint8array bs.
Proof.
  unfold decodeEventLogLine. intros H. destruct (after_prefix _ _) as [rest|]; [|done].
  destruct (atob (trim rest)) as [bs|] eqn:Hb; [|done]. apply atob_bytes in Hb. destruct (negb _); [done|].
  unfold decode_event_bytes in H. apply result_bind_Ok in H as (a & _ & H). apply result_bind_Ok in H as (b & _ & H).
  case_match; [done|]. apply result_bind_Ok in H as (c & _ & H). injection H as <-. cbn. eexists. split; [done|]. by apply slice_uint8array.
Qed.

Lemma event_of_custody domain slot signature observedAt d bs :
  dec_payload d = btoa bs -> uint8array bs -> custody_event (event_of domain slot signature observedAt d).
Proof. intros Hp Hb. exists (dec_discriminator d), bs. unfold event_of. cbn [me_payload]. rewrite Hp. destruct signature; done. Qed.

Lemma decodeCustodyLogMessages_total logs domain slot signature observedAt :
  exists es, decodeCustodyLogMessages logs domain slot signature observedAt = Ok es /\ Forall custody_event es.
Proof.
  induction logs as [|line logs (es & IH & Hes)]; cbn; [by eexists|].
  destruct (decodeEventLogLine_total line) as [r Hr]. rewrite Hr, IH. cbn. eexists. split; [done|].
  destruct r as [d|]; [|done]. apply decodeEventLogLine_payload in Hr as (bs & Hp & Hb). constructor; [|done]. by eapply event_of_custody.
Qed.

Lemma decode_transaction_total tx now :
  exists es, decode_transaction (Some tx) now = Ok es /\ Forall custody_event es.
Proof.
  cbn. unfold decodeCustodyEvents. destruct (tx_err tx); [by eexists|]. apply decodeCustodyLogMessages_total.
Qed.

Lemma seatsAffectedByEvent_total d bs : exists seats, seatsAffectedByEvent d bs = Ok seats.
Proof.
  unfold seatsAffectedByEvent. case_match eqn:Hl; [by eexists|]. apply Z.ltb_ge in Hl. unfold getUint32, getUint16.
  destruct (view_unsigned_in_range bs 0 4) as [a ->]; [lia|cbn; lia|].
  destruct (view_unsigned_in_range bs 4 4) as [b ->]; [lia|cbn; lia|].
  destruct (view_unsigned_in_range bs 0 2) as [c ->]; [lia|cbn; lia|].
  cbn. repeat case_match; by eexists.
Qed.

(** ** The tick completes *)

Definition completes {S A} (m : eff S A) : Prop := forall s, exists s' a, m s = (s', Ok a).

Lemma completes_ret {S A} (a : A) : completes (mret a : eff S A).
Proof. intros s. by exists s, a. Qed.

Lemma completes_bind {S A B} (m : eff S A) (f : A -> eff S B) :
  completes m -> (forall a, completes (f a)) -> completes (m ≫= f).
Proof.
  intros Hm Hf s. destruct (Hm s) as (s1 & a & E). destruct (Hf a s1) as (s2 & b & E'). exists s2, b.
  unfold mbind, eff_bind. by rewrite E.
Qed.

Lemma completes_catch {S A} (m : eff S A) (h : string -> eff S A) : (forall e, completes (h e)) -> completes (eff_catch m h).
Proof.
  intros Hh s. unfold eff_catch. destruct (m s) as [s' [a|e]]; [by exists s', a|]. apply Hh.
Qed.

Lemma completes_sum {S A} (f : A -> eff S Z) l : Forall (fun a => completes (f a)) l -> completes (sum_eff f l).
Proof.
  induction 1 as [|a l Ha _ IH]; cbn; [apply completes_ret|].
  apply completes_bind; [done|]. intros n. apply completes_bind; [done|]. intros m. apply completes_ret.
Qed.

Lemma completes_each {S A} (f : A -> eff S unit) l : (forall a, completes (f a)) -> completes (each_eff f l).
Proof. intros Hf. induction l as [|a l IH]; cbn; [apply completes_ret|]. by apply completes_bind. Qed.

Create HintDb completion.
#[export] Hint Resolve completes_ret completes_bind completes_catch completes_each : completion.

Lemma completes_clock clock : completes (in_world (now_eff clock)).
Proof. intros w. eexists _, _. reflexivity. Qed.
#[export] Hint Resolve completes_clock : completion.

Lemma completes_deliver name told : completes (deliver_projection name told).
Proof.
  destruct told as [[wallet seat] p]. intros w. unfold deliver_projection, in_stream.
  destruct (JSON_stringify _); eexists _, _; reflexivity.
Qed.
#[export] Hint Resolve completes_deliver : completion.

Section TickTotal.
Context (chain : TickChain) (clock : nat -> Z) (base58 : list Z -> string).

Lemma completes_push_seat m name seat : completes (push_seat chain clock base58 m name seat).
Proof. unfold push_seat. apply completes_bind; [apply completes_clock|]. intros now. apply completes_bind; eauto with completion. Qed.

Lemma completes_push_event m name e : custody_event e -> completes (push_event chain clock base58 m name e).
Proof.
  intros (d & bs & Hd & Hp & Hb). unfold push_event. rewrite Hd, Hp, atob_btoa by done.
  destruct (seatsAffectedByEvent_total d bs) as [seats Hs]. intros w. unfold mbind, eff_bind, eff_lift. rewrite Hs.
  apply completes_each. intros. apply completes_push_seat.
Qed.

Lemma completes_tick_event defs market e : custody_event e -> completes (tick_event chain clock base58 defs market e).
Proof.
  intros He. unfold tick_event. apply completes_bind; [apply completes_clock|]. intros now.
  apply completes_bind; [eauto with completion|]. intros [|]; [|apply completes_ret].
  apply completes_bind; [by apply completes_push_event|]. intros. apply completes_ret.
Qed.

Lemma completes_tick_entry defs market cursor entry :
  tc_transaction chain (sg_signature entry) ≠ Ok None -> completes (tick_entry chain clock base58 defs market cursor entry).
Proof.
  intros Hn. unfold tick_entry. destruct (_ || _); [apply completes_ret|].
  destruct (tc_transaction chain (sg_signature entry)) as [[tx|]|e]; [|done|apply completes_ret].
  apply completes_bind; [apply completes_clock|]. intros now. destruct (decode_transaction_total tx now) as (es & -> & Hes).
  intros w. unfold mbind, eff_bind, eff_lift. apply completes_sum. eapply List.Forall_impl; [|exact Hes]. intros e He. by apply completes_tick_event.
Qed.

Lemma completes_tick_market defs market :
  (forall sigs entry, tc_signatures chain (md_marketPda market) = Ok sigs -> entry ∈ sigs -> tc_transaction chain (sg_signature entry) ≠ Ok None) ->
  completes (tick_market chain clock base58 defs market).
Proof.
  intros Hn. unfold tick_market. apply completes_bind; [intros w; eexists _, _; reflexivity|]. intros cursor.
  destruct (tc_signatures chain (md_marketPda market)) as [sigs|e] eqn:Hs; [|apply completes_ret].
  apply completes_sum. apply List.Forall_forall. intros entry He. apply list_elem_of_In in He. rewrite elem_of_reverse in He. apply completes_tick_entry. exact (Hn sigs entry eq_refl He).
Qed.
End TickTotal.

(** The ingestion tick completes: provided no listed signature's transaction
    comes back as [null], a tick over any set of registered markets returns, with
    the number of markets as its first count, however the other requests fail: a
    market whose signatures cannot be listed, a transaction that cannot be fetched,
    an event the indexer rejects and a projection that cannot be pushed are each
    passed over. *)
Theorem ingestion_tick_completes (chain : TickChain) (clock : nat -> Z) (base58 : list Z -> string) (configured : bool) (w : WState) :
  (forall pda sigs entry, tc_signatures chain pda = Ok sigs -> entry ∈ sigs -> tc_transaction chain (sg_signature entry) ≠ Ok None) ->
  exists w' n, runIngestionTick chain clock base58 configured w
    = (w', Ok (if configured then Z.of_nat (length (market_rows w)) else 0, n)).
Proof.
  intros Hn. unfold runIngestionTick. destruct configured; cbn [negb]; [|by exists w, 0].
  destruct (completes_sum (tick_market chain clock base58 (definitions_by_pda (market_rows w))) (market_rows w)) with (s := w) as (w' & n & E).
  - apply List.Forall_forall. intros market _. apply completes_tick_market. intros. by eapply Hn.
  - exists w', n. unfold mbind, eff_bind, eff_get. by rewrite E.
Qed.

(** A market of two signatures whose older transaction the RPC does not know yet. *)
Module TickSample.
Definition market : MarketDefinition := mkDefinition "TSLA-PERP" "i" 0 "m" "v" ms_active "f" "regular".
Definition other : MarketDefinition := mkDefinition "AAPL-PERP" "j" 1 "n" "v" ms_active "f" "regular".
Definition state : WState := mkWState (mkWorld empty_db 0 []) {["TSLA-PERP" := (market, 1); "AAPL-PERP" := (other, 1)]} ∅ ∅.
(** The wire form of event [q] of market [m]. *)
Definition record (q : Z) : list Z :=
  [144; 1; 1; 0] ++ le_split 8 q ++ repeat 7 32%nat ++ le_split 8 55 ++ repeat 0 48%nat.
Definition tx (signature : string) (q : Z) : option RawTransactionResult :=
  Some (mkRawTransaction (Some 9) false (Some [EVENT_DATA_PREFIX +:+ btoa (record q)]) (Some [signature])).
Definition chain (known : bool) : TickChain := mkTickChain
  (fun m => Ok (if bool_decide (m = "m") then [mkSignature "s2" 10 false; mkSignature "s1" 9 false] else [mkSignature (m +:+ "1") 9 false]))
  (fun s => Ok (if bool_decide (s = "s1") then (if known then tx s 1 else None) else if bool_decide (s = "s2") then tx s 2 else tx s 1))
  (fun _ _ => Ok (5, None)).
Definition run (known : bool) := runIngestionTick (chain known) (fun _ => 1000) (fun _ => "") true state.
End TickSample.

(** With every transaction known, both markets are indexed. *)
Example tick_indexes :
  snd (TickSample.run true) = Ok (2, 3)
  /\ indexer_cursors (ws_db (fst (TickSample.run true))) !! ("m", L1) = Some (mkCursorRow 2 9 1000).
Proof. vm_compute. done. Qed.

(** One transaction the RPC answers with [null] ends the whole tick: the later
    transaction of that market, and every market after it, is not polled. *)
Theorem null_transaction_aborts_tick :
  snd (TickSample.run false) = Throw "Cannot read properties of null (reading 'meta')"
  /\ indexer_cursors (ws_db (fst (TickSample.run false))) !! ("m", L1) = None.
Proof. vm_compute. done. Qed.

Lemma ingestion_tick_completes_witness :
  (forall pda sigs entry, tc_signatures (TickSample.chain true) pda = Ok sigs -> entry ∈ sigs ->
     tc_transaction (TickSample.chain true) (sg_signature entry) ≠ Ok None)
  /\ exists w' n, runIngestionTick (TickSample.chain true) (fun _ => 1000) (fun _ => "") true TickSample.state = (w', Ok (2, n)).
Proof.
  assert (H : forall pda sigs entry, tc_signatures (TickSample.chain true) pda = Ok sigs -> entry ∈ sigs ->
     tc_transaction (TickSample.chain true) (sg_signature entry) ≠ Ok None).
  { intros pda sigs entry _ _. cbn. by repeat case_bool_decide. }
  split; [exact H|]. exact (ingestion_tick_completes (TickSample.chain true) (fun _ => 1000) (fun _ => "") true TickSample.state H).
Defined.

(** ** Private projections *)

(** The projection's amounts are [bigint]s, which [JSON.stringify] rejects, so a push
    reaches no socket of any stream. *)
Theorem private_push_delivers_nothing name told w other :
  snd (deliver_projection name told w) = Ok tt /\ named_stream other (fst (deliver_projection name told w)) = named_stream other w.
Proof.
  destruct told as [[wallet seat] p]. unfold deliver_projection, in_stream, named_stream. cbn. split; [done|].
  destruct (decide (other = name)) as [->|Hn]; [by rewrite lookup_insert_eq|by rewrite lookup_insert_ne].
Qed.

(** ** What a tick may touch *)

(** Tables other than the event log, the cursors and the snapshots. *)
Record other_tables (d d' : Db) : Prop := {
  ot_leases : keeper_leases d' = keeper_leases d;
  ot_operations : operation_keys d' = operation_keys d;
  ot_rates : rate_limits d' = rate_limits d;
  ot_sessions : application_sessions d' = application_sessions d;
  ot_letters : dead_letters d' = dead_letters d;
  ot_attempts : tx_attempts d' = tx_attempts d;
  ot_oracle : oracle_updates d' = oracle_updates d;
  ot_commits : commit_records d' = commit_records d;
  ot_status : execution_status d' = execution_status d;
  ot_keepers : keeper_cursors d' = keeper_cursors d;
  ot_private : private_sessions d' = private_sessions d }.

#[export] Instance other_tables_preorder : PreOrder other_tables.
Proof. split; [by intros d; split|]. intros a b c [] []. split; congruence. Qed.

Record tick_frame (names : list string) (w w' : WState) : Prop := {
  tf_markets : ws_markets w' = ws_markets w;
  tf_events : ws_market_events w' = ws_market_events w;
  tf_sent : sent (ws_world w') = sent (ws_world w);
  tf_tables : other_tables (ws_db w) (ws_db w');
  tf_streams : forall name, name ∉ names -> ws_streams w' !! name = ws_streams w !! name }.

#[export] Instance tick_frame_preorder names : PreOrder (tick_frame names).
Proof.
  split; [by intros w; split|]. intros a b c [H1 H2 H3 H4 H5] [G1 G2 G3 G4 G5]. split; [congruence..| |].
  - by etransitivity.
  - intros name Hn. by rewrite G5, H5.
Qed.

Definition store_frame (st st' : Store) : Prop := other_tables (st_db st) (st_db st').
#[export] Instance store_frame_preorder : PreOrder store_frame.
Proof. unfold store_frame. split; [by intros st|]. intros a b c H G. by etransitivity. Qed.

Lemma in_db_append_frame m dom q slot id ev now : preserves store_frame (in_db (IndexerRepository.append m dom q slot id ev now)).
Proof.
  intros st. unfold in_db, store_frame. pose proof (append_outcome m dom q slot id ev now (st_db st)) as H.
  destruct (IndexerRepository.append _ _ _ _ _ _ _ _) as [d [[| |e]|e]]; cbn [fst st_db]; destruct_and?; subst; try done.
Qed.

Lemma in_db_replace_frame m dom q slot sn now : preserves store_frame (in_db (IndexerRepository.replaceSnapshot m dom q slot sn now)).
Proof.
  intros st. unfold in_db, store_frame, IndexerRepository.replaceSnapshot. run_eff. repeat case_match; simplify_eq/=; done.
Qed.

Lemma on_stream_frame {A} m (f : eff MarketStream.t A) : preserves store_frame (on_stream m f).
Proof. intros st. unfold on_stream, store_frame. by destruct (f _). Qed.
#[local] Hint Resolve in_db_append_frame in_db_replace_frame on_stream_frame : frame.

Lemma ingest_frame snapshots m e : preserves store_frame (ingest snapshots m e).
Proof. unfold ingest, resnapshot. frame_tac. Qed.

Lemma in_store_frame {A} names m name (f : eff Store A) : name ∈ names -> preserves store_frame f -> preserves (tick_frame names) (in_store m name f).
Proof.
  intros Hn Hf w. unfold in_store. specialize (Hf (mkStore (ws_db w) {[m := named_stream name w]})).
  destruct (f _) as [st r]. cbn in *. split; try done. intros other Ho. cbn. rewrite lookup_insert_ne; [done|]. by intros ->.
Qed.

Lemma in_stream_frame {A} names name (f : eff MarketStream.t A) : name ∈ names -> preserves (tick_frame names) (in_stream name f).
Proof.
  intros Hn w. unfold in_stream. destruct (f _) as [s r]. split; try done. intros other Ho. cbn. rewrite lookup_insert_ne; [done|]. by intros ->.
Qed.

Lemma clock_frame names clock : preserves (tick_frame names) (in_world (now_eff clock)).
Proof. intros w. by split. Qed.

Lemma each_frame {A} names (f : A -> eff WState unit) l : (forall a, preserves (tick_frame names) (f a)) -> preserves (tick_frame names) (each_eff f l).
Proof. intros Hf. induction l as [|a l IH]; cbn; frame_tac. Qed.

Lemma sum_frame {A} names (f : A -> eff WState Z) l : (forall a, a ∈ l -> preserves (tick_frame names) (f a)) -> preserves (tick_frame names) (sum_eff f l).
Proof.
  induction l as [|a l IH]; intros Hf; cbn; [frame_tac|]. apply preserves_bind; [apply _|apply Hf; left|]. intros n.
  apply preserves_bind; [apply _|apply IH; intros; apply Hf; by right|]. intros m. frame_tac.
Qed.

Lemma in_tables_frame {A} names (m : eff Db A) : preserves other_tables m -> preserves (tick_frame names) (in_tables m).
Proof. intros Hm w. rewrite in_tables_run. specialize (Hm (ws_db w)). by split. Qed.

Lemma publishSeatProjection_frame base58 account m seat now : preserves other_tables (publishSeatProjection base58 account m seat now).
Proof.
  unfold publishSeatProjection, PrivateSessionRepository.walletForSeat. frame_tac; intros d; by run_eff.
Qed.

#[local] Hint Resolve clock_frame in_tables_frame publishSeatProjection_frame each_frame : frame.

Section TickFrame.
Context (chain : TickChain) (clock : nat -> Z) (base58 : list Z -> string) (names : list string).

Lemma push_event_frame m name e : name ∈ names -> preserves (tick_frame names) (push_event chain clock base58 m name e).
Proof.
  intros Hn. unfold push_event. frame_tac. apply each_frame. intros seat. unfold push_seat. frame_tac.
  apply each_frame. intros [[wallet i] p]. unfold deliver_projection. by apply in_stream_frame.
Qed.

Lemma tick_event_frame defs market e :
  stream_name defs (md_marketPda market) ∈ names -> preserves (tick_frame names) (tick_event chain clock base58 defs market e).
Proof.
  intros Hn. unfold tick_event. frame_tac; [by apply in_store_frame, ingest_frame|by apply push_event_frame].
Qed.

Lemma tick_market_frame defs market :
  stream_name defs (md_marketPda market) ∈ names -> preserves (tick_frame names) (tick_market chain clock base58 defs market).
Proof.
  intros Hn. unfold tick_market. apply preserves_bind; [apply _| |].
  { apply in_tables_frame. intros d. by run_eff. }
  intros cursor. case_match; [|frame_tac]. apply sum_frame. intros entry _. unfold tick_entry. frame_tac.
  apply sum_frame. intros e _. by apply tick_event_frame.
Qed.
End TickFrame.

Lemma definitions_by_pda_sound markets pda d : definitions_by_pda markets !! pda = Some d -> d ∈ markets.
Proof.
  unfold definitions_by_pda. induction markets as [|x l IH] using rev_ind; [done|]. rewrite foldl_app. cbn.
  rewrite lookup_insert_Some, elem_of_app, list_elem_of_singleton. intros [[_ ->]|[_ H]]; auto.
Qed.

Lemma definitions_by_pda_complete markets pda : pda ∈ md_marketPda <$> markets -> is_Some (definitions_by_pda markets !! pda).
Proof.
  unfold definitions_by_pda. induction markets as [|x l IH] using rev_ind; [set_solver|]. rewrite foldl_app, fmap_app, elem_of_app. cbn.
  intros H. destruct (decide (md_marketPda x = pda)) as [<-|Hne]; [by rewrite lookup_insert_eq|]. rewrite lookup_insert_ne by done.
  apply IH. destruct H as [H|H%list_elem_of_singleton]; [done|by subst].
Qed.

Lemma definitions_by_pda_name markets pda : pda ∈ md_marketPda <$> markets -> stream_name (definitions_by_pda markets) pda ∈ md_symbol <$> markets.
Proof.
  intros [d Hd]%definitions_by_pda_complete. unfold stream_name. rewrite Hd. apply list_elem_of_fmap. exists d. split; [done|].
  by apply definitions_by_pda_sound in Hd.
Qed.

(** What one ingestion tick may touch, whether it returns or fails half way: it
    submits no transaction and writes no market, no market-event row and no table
    but the event log, the cursors and the snapshots, and of the stream objects
    only those named after registered markets. *)
Theorem ingestion_tick_frame (chain : TickChain) (clock : nat -> Z) (base58 : list Z -> string) (configured : bool) (w : WState) :
  tick_frame (md_symbol <$> market_rows w) w (fst (runIngestionTick chain clock base58 configured w)).
Proof.
  unfold runIngestionTick. destruct configured; cbn [negb]; [|done]. unfold mbind, eff_bind, eff_get.
  assert (H : preserves (tick_frame (md_symbol <$> market_rows w))
    (sum_eff (tick_market chain clock base58 (definitions_by_pda (market_rows w))) (market_rows w))).
  { apply sum_frame. intros market Hm. apply tick_market_frame, definitions_by_pda_name. apply list_elem_of_fmap. by exists market. }
  specialize (H w). by destruct (sum_eff _ _ w) as [w' [n|e]].
Qed.

(** ** scheduled *)

(** [runDurableKeeper] over any state that contains the tables. *)
Section Durable.
Context {S : Type} (tables : forall A, eff Db A -> eff S A) {T : Type} `{Json T}.
Import ProtocolRepository.

Definition durable (leaseKey holder idempotencyKey requestHash : string) (now leaseTtlMs idempotencyTtlMs : Z) (work : eff S T) : eff S T :=
  acquired ← tables _ (acquire leaseKey holder leaseTtlMs now);
  match acquired with
  | None => eff_throw "keeper lease unavailable"
  | Some lease =>
      eff_finally
        (reserved ← tables _ (reserve idempotencyKey holder requestHash idempotencyTtlMs now);
         if negb reserved then
           existing ← tables _ (operation idempotencyKey);
           match existing with
           | Some row =>
               match or_status row, or_result row with
               | op_succeeded, Some v => mret (of_json v)
               | _, _ => eff_throw "keeper operation already pending or failed"
               end
           | None => eff_throw "keeper operation already pending or failed"
           end
         else
           eff_catch
             (value ← work;
              _ ← tables _ (finish idempotencyKey holder true (to_json value) lease now);
              mret value)
             (fun error =>
               _ ← tables _ (finish idempotencyKey holder false (JObj [("error", JStr error)]) lease now);
               eff_throw error))
        (tables _ (release lease))
  end.
End Durable.

(** On the keepers' world it is the keepers' own definition. *)
Lemma durable_runDurableKeeper `{Json T} (r : DurableKeeperRequest T) :
  durable (@on_db) (leaseKey r) (holder r) (idempotencyKey r) (requestHash r) (now r) (leaseTtlMs r) (idempotencyTtlMs r) (work r)
  = runDurableKeeper r.
Proof. reflexivity. Qed.

#[export] Instance tick_json : Json (Z * Z).
Proof.
  refine {| to_json n := JObj [("marketsPolled", JNum (fst n)); ("eventsIngested", JNum (snd n))];
            of_json j := (default 0 (prop "marketsPolled" j ≫= fun v => match v with JNum z => Some z | _ => None end),
                          default 0 (prop "eventsIngested" j ≫= fun v => match v with JNum z => Some z | _ => None end)) |}.
  by intros [a b].
Defined.

#[export] Instance cleaned_json : Json Z.
Proof.
  refine {| to_json n := JObj [("cleanedAt", JNum n)];
            of_json j := default 0 (prop "cleanedAt" j ≫= fun v => match v with JNum z => Some z | _ => None end) |}.
  done.
Defined.

(** [DELETE FROM indexed_events WHERE observed_at < ?], then the protocol tables. *)
Definition cleanup_work (now : Z) : eff WState Z :=
  _ ← in_tables (eff_modify (on_indexed_events (filter (fun '(_, row) => ~ er_observed_at row < now - 90 * 24 * 60 * 60 * 1000))));
  _ ← in_tables (ProtocolRepository.cleanup now);
  mret now.

Definition scheduled_cleanup (now : Z) : eff WState Z :=
  let key := "cleanup:" +:+ pretty (now / 60000) in
  durable (@in_tables) (keeperLeaseKey lk_cleanup None) "scheduled-worker" key key now 55000 (24 * 60 * 60 * 1000) (cleanup_work now).

Section Scheduled.
Context (chain : TickChain) (clock : nat -> Z) (base58 : list Z -> string).
Context (JSON_parse : string -> option json) (ed25519_public : list Z -> list Z) (ed25519_sign : list Z -> list Z -> list Z).
Context (pf : Platform).

Definition scheduled_ingestion (configured : bool) (now : Z) : eff WState (Z * Z) :=
  let key := "ingest:" +:+ pretty (now / 15000) in
  durable (@in_tables) (keeperLeaseKey lk_ingestion None) "scheduled-worker" key key now 55000 (5 * 60000)
    (runIngestionTick chain clock base58 configured).

(** [worker.scheduled]: [streams] is the stream binding, the database binding and
    the RPC endpoint are in [env]. *)
Definition scheduled (env : RuntimeEnv) (streams : bool) (KEEPER_ORCHESTRATION : option string) (runId : string) (now : Z) : eff WState unit :=
  if negb (re_DB env) then mret tt
  else
    _ ← scheduled_cleanup now;
    if is_present (SOLANA_RPC_URL (re_signing env)) then
      _ ← eff_catch (_ ← scheduled_ingestion streams now; mret tt) (fun _ => mret tt);
      if bool_decide (KEEPER_ORCHESTRATION = Some "on")
      then eff_catch (_ ← in_world (runKeeperOrchestrationTick JSON_parse ed25519_public ed25519_sign pf env runId); mret tt) (fun _ => mret tt)
      else mret tt
    else mret tt.

(** One cron invocation fails exactly when its clean-up does, and then nothing
    else of it has run: the state is the one the clean-up left, so neither the
    ingestion tick nor the keeper jobs were reached.  Otherwise it succeeds,
    whatever the ingestion and the keeper jobs do, and the keeper jobs run only
    when orchestration is switched on. *)
Theorem scheduled_spec env streams orchestration runId now w :
  re_DB env = true ->
  match scheduled_cleanup now w with
  | (w1, Throw e) => scheduled env streams orchestration runId now w = (w1, Throw e)
  | (w1, Ok _) =>
      snd (scheduled env streams orchestration runId now w) = Ok tt
      /\ (is_present (SOLANA_RPC_URL (re_signing env)) = false -> scheduled env streams orchestration runId now w = (w1, Ok tt))
      /\ (is_present (SOLANA_RPC_URL (re_signing env)) = true -> orchestration ≠ Some "on" ->
          fst (scheduled env streams orchestration runId now w) = fst (scheduled_ingestion streams now w1))
  end.
Proof.
  intros Hdb. unfold scheduled. rewrite Hdb. cbn [negb]. destruct (scheduled_cleanup now w) as [w1 [c|e]] eqn:Hc.
  2: { unfold mbind at 1, eff_bind at 1. by rewrite Hc. }
  unfold mbind at 1 5 9, eff_bind at 1 5 9. rewrite Hc. clear Hc.
  destruct (is_present _); [|done].
  split_and!; [|done|].
  - unfold mbind at 1, eff_bind at 1. unfold eff_catch at 1. destruct ((scheduled_ingestion streams now ≫= _) w1) as [w2 [[]|e]]; cbn.
    all: case_bool_decide; [|done]. all: unfold eff_catch; destruct ((in_world _ ≫= _) w2) as [w3 [[]|e']]; done.
  - intros _ Ho. rewrite bool_decide_false by done. unfold mbind, eff_bind, eff_catch.
    by destruct (scheduled_ingestion streams now w1) as [w2 [n|e]].
Qed.
End Scheduled.

(** A cron invocation over the sample chain, after a clean-up of the same minute
    that failed. *)
Module CronSample.
Definition env : RuntimeEnv := sample_runtime_env "https://api.devnet.solana.com".
Definition run (w : WState) := scheduled (TickSample.chain true) (fun _ => 1000) (fun _ => "") (fun _ => None) sample_pub sample_sgn sample_platform
  env true None "run" 600000 w.
Definition failed : WState :=
  mkWState (mkWorld (on_operation_keys (insert "cleanup:10" (mkOperationRow "scheduled-worker" "cleanup:10" op_failed (Some JNull) 600000 900000))
    empty_db) 0 []) (ws_markets TickSample.state) ∅ ∅.
End CronSample.

(** A clean-up that failed in this minute keeps the ingestion from running. *)
Theorem failed_cleanup_blocks_ingestion :
  snd (CronSample.run CronSample.failed) = Throw "keeper operation already pending or failed"
  /\ indexer_cursors (ws_db (fst (CronSample.run CronSample.failed))) = ∅.
Proof. vm_compute. done. Qed.

Lemma scheduled_spec_witness :
  re_DB CronSample.env = true
  /\ (exists w1, scheduled_cleanup 600000 TickSample.state = (w1, Ok 600000) /\ snd (CronSample.run TickSample.state) = Ok tt
      /\ fst (CronSample.run TickSample.state) = fst (scheduled_ingestion (TickSample.chain true) (fun _ => 1000) (fun _ => "") true 600000 w1)).
Proof.
  split; [reflexivity|].
  pose proof (scheduled_spec (TickSample.chain true) (fun _ => 1000) (fun _ => "") (fun _ => None) sample_pub sample_sgn sample_platform
    CronSample.env true None "run" 600000 TickSample.state eq_refl) as H.
  destruct (scheduled_cleanup 600000 TickSample.state) as [w1 [c|e]] eqn:Hc; [|exfalso; revert Hc; vm_compute; discriminate].
  exists w1. split; [f_equal; revert Hc; vm_compute; intros [= _ <-]; reflexivity|].
  destruct H as (H1 & _ & H3). split; [exact H1|]. apply H3; [vm_compute; reflexivity|discriminate].
Defined.
