(* ===== verification/BrowserSession.v ===== *)
(** * The browser's trading session

    lib/browser-session.ts (the in-memory key store and the session predicates),
    lib/session-trading.ts (creating a session and signing for the relayer), and
    the hooks features/sessions/use-trading-session.ts (authorise with readback,
    rehydrate, revoke) and use-session-order.ts (the gate before a session-signed
    order and its submission).  WebCrypto, the Solana libraries, the wallet and the
    network are parameters; a hook is the state it owns and the callbacks it
    returns. *)

From S2P Require Import Prelude Json Bytes ExecutionStatus EventDecoder Transactions Signers ClientInstructions ClientAccounts BrowserState.

(** ** browser-session.ts *)

(** [value.replace(/-/g, "+").replace(/_/g, "/")], then [atob]. *)
Definition url_char (c : Ascii.ascii) : Ascii.ascii :=
  if bool_decide (c = Ascii.ascii_of_nat 45) then Ascii.ascii_of_nat 43
  else if bool_decide (c = Ascii.ascii_of_nat 95) then Ascii.ascii_of_nat 47 else c.
Definition base64UrlDecode (value : string) : result (list Z) :=
  match atob (String.string_of_list_ascii (url_char <$> String.list_ascii_of_string value)) with
  | Some bytes => Ok bytes
  | None => Throw "InvalidCharacterError"
  end.

Definition pkcs8Wrap (seed : list Z) : list Z :=
  [0x30; 0x2e; 0x02; 0x01; 0x00; 0x30; 0x05; 0x06; 0x03; 0x2b; 0x65; 0x70; 0x04; 0x22; 0x04; 0x20] ++ seed.

Inductive SessionAction := act_place | act_cancel | act_cancelAll | act_replace | act_reduceOnlyClose.
#[export] Instance session_action_eq_dec : EqDecision SessionAction.
Proof. solve_decision. Defined.

Definition SESSION_ACTION (a : SessionAction) : Z :=
  match a with
  | act_place => Z.shiftl 1 0 | act_cancel => Z.shiftl 1 1 | act_cancelAll => Z.shiftl 1 2
  | act_replace => Z.shiftl 1 3 | act_reduceOnlyClose => Z.shiftl 1 4
  end.
Definition SESSION_ACTION_all : Z := Z.shiftl 1 5 - 1.

(** The four limits are decimal strings in the source, here the numbers they
    denote. *)
Record SessionStatus := mkSessionStatus {
  ss_sessionPda : string; ss_sessionSignerAddress : string; ss_ownerWallet : string; ss_marketPda : string; ss_seatIndex : Z;
  ss_actions : Z; ss_expiresAt : Z; ss_maxOrderNotional : Z; ss_maxCumulativeNotional : Z; ss_maximumExposure : Z; ss_maximumOpenOrders : Z;
  ss_nextExpectedNonce : Z; ss_revoked : bool; ss_v3ExecutionAccounts : option V3ExecutionAccounts }.

Definition isSessionUsable (status : SessionStatus) (nowUnixSeconds : Z) : bool :=
  negb (ss_revoked status) && (nowUnixSeconds <? ss_expiresAt status) && negb (ss_actions status =? 0).

Definition actionAllowed (actions : Z) (action : SessionAction) : bool := negb (Z.land (to_int32 actions) (SESSION_ACTION action) =? 0).

Definition nextNonce (status : SessionStatus) (consumed : bool) : Z := ss_nextExpectedNonce status + (if consumed then 1 else 0).

(** ** session-trading.ts *)

Record SessionKeyInfo := mkKeyInfo { ki_sessionPda : string; ki_sessionSignerAddress : string; ki_marketPda : string; ki_seatIndex : Z }.

(** What the tab holds: the key material, the sessions created, the hook's status
    and the last signature shown. *)
Record Tab := mkTab {
  seeds : gmap string (list Z); sessionKeysByOwner : gmap string SessionKeyInfo; rawStatus : option SessionStatus;
  lastSignature : option (string * string * Domain) }.

Definition on_seeds f (t : Tab) : Tab := mkTab (f (seeds t)) (sessionKeysByOwner t) (rawStatus t) (lastSignature t).
Definition set_status (s : option SessionStatus) (t : Tab) : Tab := mkTab (seeds t) (sessionKeysByOwner t) s (lastSignature t).
Definition recordSignature (label signature : string) (d : Domain) (t : Tab) : Tab :=
  mkTab (seeds t) (sessionKeysByOwner t) (rawStatus t) (Some (label, signature, d)).

Definition hasSessionKey (address : string) (t : Tab) : bool := bool_decide (is_Some (seeds t !! address)).
Definition clearSessionKey (address : string) : eff Tab unit := eff_modify (on_seeds (delete address)).
Definition clearAllSessionKeys : eff Tab unit := eff_modify (on_seeds (fun _ => ∅)).
Definition destroySession (sessionSignerAddress : string) : eff Tab unit := clearSessionKey sessionSignerAddress.

Definition lookup_key (ownerWallet marketPda : string) (seatIndex : Z) : string := ownerWallet +:+ ":" +:+ marketPda +:+ ":" +:+ pretty seatIndex.
Definition lookupSession (ownerWallet marketPda : string) (seatIndex : Z) (t : Tab) : option SessionKeyInfo :=
  sessionKeysByOwner t !! lookup_key ownerWallet marketPda seatIndex.

(** What the relayer proxy is sent. *)
Record SubmitToRelayerInput := mkSubmit {
  sr_csrfToken : string; sr_privyAccessToken : string; sr_ownerWallet : string; sr_transactionBase64 : string;
  sr_expectedProgramAddress : string; sr_expectedMarket : string; sr_expectedNonce : Z; sr_sessionSignerAddress : string; sr_domain : Domain }.

Section Session.
Context (web3 : Web3) (base58 : list Z -> string).
(** WebCrypto's signature with a PKCS#8 key; [compileTransaction] of a v0 message
    with the given fee payer and blockhash, as message bytes; the base64 wire form
    of a message and one signature. *)
Context (sign_pkcs8 : list Z -> list Z -> list Z) (compile : string -> list Instruction -> string -> list Z)
  (wire : list Z -> string -> list Z -> string).

(** [generateKey] answers the public key and the JWK's [d]. *)
Definition generateSessionKey (rawPublic : list Z) (jwk_d : string) : eff Tab string :=
  seed ← eff_lift (base64UrlDecode jwk_d);
  let address := base58 rawPublic in
  _ ← eff_modify (on_seeds (insert address seed));
  mret address.

Definition signWithSessionKey (address : string) (message : list Z) : eff Tab (list Z) :=
  t ← eff_get;
  match seeds t !! address with
  | None => eff_throw "no session key in memory for this address"
  | Some seed => mret (sign_pkcs8 (pkcs8Wrap seed) message)
  end.

(** A new key and its session: the PDA, the signer and whether a key was reused. *)
Definition fresh_session (ownerWallet marketPda : string) (seatIndex : Z) (rawPublic : list Z) (jwk_d : string) : eff Tab (string * string * bool) :=
  address ← generateSessionKey rawPublic jwk_d;
  pda ← eff_lift (deriveTradingSession web3 (addr_text ownerWallet) (addr_text marketPda) (Num seatIndex) (addr_text address));
  let sessionPda := toBase58 web3 pda in
  _ ← eff_modify (fun t => mkTab (seeds t)
        (<[lookup_key ownerWallet marketPda seatIndex := mkKeyInfo sessionPda address marketPda seatIndex]> (sessionKeysByOwner t)) (rawStatus t)
        (lastSignature t));
  mret (sessionPda, address, false).

Definition createSession (ownerWallet marketPda : string) (seatIndex : Z) (rawPublic : list Z) (jwk_d : string)
    : eff Tab (string * string * bool) :=
  t ← eff_get;
  match lookupSession ownerWallet marketPda seatIndex t with
  | Some existing =>
      if hasSessionKey (ki_sessionSignerAddress existing) t
      then mret (ki_sessionPda existing, ki_sessionSignerAddress existing, true)
      else fresh_session ownerWallet marketPda seatIndex rawPublic jwk_d
  | None => fresh_session ownerWallet marketPda seatIndex rawPublic jwk_d
  end.

Definition buildSessionSignedTransaction (sessionSignerAddress relayerAddress : string) (instructions : list Instruction) (recentBlockhash : string)
    : eff Tab string :=
  let messageBytes := compile relayerAddress instructions recentBlockhash in
  sessionSignature ← signWithSessionKey sessionSignerAddress messageBytes;
  mret (wire messageBytes sessionSignerAddress sessionSignature).

(** ** use-trading-session.ts *)

Definition toSessionStatus (sessionPda sessionSignerAddress ownerWallet marketPda : string) (seatIndex : Z) (readback : Abi.TradingSessionView)
    (v3Core : option string) : result SessionStatus :=
  v3 ← (match v3Core with
        | Some core => a ← deriveV3ExecutionAccounts web3 (addr_text core) (addr_text ownerWallet) (Some (addr_text sessionPda)); Ok (Some a)
        | None => Ok None
        end);
  Ok (mkSessionStatus sessionPda sessionSignerAddress ownerWallet marketPda seatIndex (Abi.xv_actions readback) (to_number (Abi.xv_expiresAt readback))
        (Abi.xv_maxOrderNotional readback) (Abi.xv_maxCumulativeNotional readback) (Abi.xv_maximumExposure readback) (Abi.xv_maximumOpenOrders readback)
        (Abi.xv_nextExpectedNonce readback) (Abi.xv_revoked readback) v3).

(** The status shown for the wallet that is active now. *)
Definition visible_status (ownerWallet : option string) (t : Tab) : option SessionStatus :=
  match rawStatus t with
  | Some s => if bool_decide (ownerWallet = Some (ss_ownerWallet s)) then Some s else None
  | None => None
  end.

(** The effect that follows a change of wallet. *)
Definition wallet_effect (ownerWallet : option string) : eff Tab unit :=
  t ← eff_get;
  match rawStatus t with
  | Some s => if bool_decide (ownerWallet = Some (ss_ownerWallet s)) then mret tt else destroySession (ss_sessionSignerAddress s)
  | None => mret tt
  end.

Record SessionConfigInput := mkSessionConfig {
  cf_expiresInMinutes : Z; cf_maxOrderNotional : Z; cf_maxCumulativeNotional : Z; cf_maximumExposure : Z; cf_maximumOpenOrders : Z; cf_actions : Z }.

(** The network and wallet as the hook sees them: the oracle clock of the market it
    authorises against ([oracleValid] and the last verified timestamp), the L1
    execution (a signature) and the session account. *)
Record SessionProtocol := mkProtocol {
  pr_clock : string -> result (bool * Z);
  pr_executeL1 : TransactionInstruction -> result string;
  pr_tradingSession : string -> result (option Abi.TradingSessionView) }.

(** The readback accepts exactly the session that was asked for. *)
Definition readback_matches (readback : Abi.TradingSessionView) (signer owner market : string) : bool :=
  bool_decide (Abi.xv_sessionSigner readback = signer) && bool_decide (Abi.xv_owner readback = owner) && bool_decide (Abi.xv_market readback = market).

Definition authorize_instruction (v3Core : option string) (ownerWallet marketPda sessionPda signer : string) (expiresAt : Z) (policy : TradingSessionPolicy)
    : result TransactionInstruction :=
  match v3Core with
  | Some core =>
      accounts ← deriveV3ExecutionAccounts web3 (addr_text core) (addr_text ownerWallet) None;
      authorizeTradingSessionV3 web3 (mkSessionAuthorization accounts (addr_text sessionPda) (addr_text signer)) (Num expiresAt) policy
  | None => authorizeTradingSession web3 (addr_text marketPda) (addr_text ownerWallet) (addr_text signer) (addr_text ownerWallet) (Num expiresAt) policy
  end.

(** [authorize]: an exception becomes the error the hook shows; [generated] is the
    key WebCrypto would make. *)
Definition authorize (protocol : SessionProtocol) (v3Core : option string) (ownerWallet marketPda : string) (seatIndex : Z)
    (generated : list Z * string) (config : SessionConfigInput) : eff Tab unit :=
  let sessionMarket := default marketPda v3Core in
  created ← createSession ownerWallet sessionMarket seatIndex (fst generated) (snd generated);
  let '(sessionPda, signer, _) := created in
  oracle ← eff_lift (pr_clock protocol sessionMarket);
  _ ← eff_lift (throw_if (negb (fst oracle)) "The market's oracle has never been verified -- session expiry has no valid clock reference yet.");
  let expiresAt := snd oracle + cf_expiresInMinutes config * 60 in
  instruction ← eff_lift (authorize_instruction v3Core ownerWallet marketPda sessionPda signer expiresAt
    (mkPolicy (Num seatIndex) (Num (cf_actions config)) (BigInt (cf_maxOrderNotional config)) (BigInt (cf_maxCumulativeNotional config))
       (BigInt (cf_maximumExposure config)) (Num (cf_maximumOpenOrders config))));
  signature ← eff_lift (pr_executeL1 protocol instruction);
  _ ← eff_modify (recordSignature "AuthorizeTradingSession" signature L1);
  readback ← eff_lift (pr_tradingSession protocol sessionPda);
  match readback with
  | None => eff_throw "Session authorized on-chain but readback did not match the requested session -- trading stays disabled."
  | Some readback =>
      if Abi.xv_revoked readback || negb (readback_matches readback signer ownerWallet sessionMarket)
      then eff_throw "Session authorized on-chain but readback did not match the requested session -- trading stays disabled."
      else
        status ← eff_lift (toSessionStatus sessionPda signer ownerWallet sessionMarket seatIndex readback v3Core);
        eff_modify (set_status (Some status))
  end.

(** The rehydration effect; failures are swallowed. *)
Definition rehydrate (protocol : SessionProtocol) (v3Core : option string) (ownerWallet marketPda : string) (seatIndex : Z) : eff Tab unit :=
  t ← eff_get;
  let sessionMarket := default marketPda v3Core in
  match visible_status (Some ownerWallet) t, lookupSession ownerWallet sessionMarket seatIndex t with
  | None, Some existing =>
      if negb (hasSessionKey (ki_sessionSignerAddress existing) t) then mret tt
      else match pr_tradingSession protocol (ki_sessionPda existing) with
      | Ok (Some readback) =>
          if negb (readback_matches readback (ki_sessionSignerAddress existing) ownerWallet sessionMarket) then mret tt
          else match toSessionStatus (ki_sessionPda existing) (ki_sessionSignerAddress existing) ownerWallet sessionMarket seatIndex readback v3Core with
          | Ok status => eff_modify (set_status (Some status))
          | Throw _ => mret tt
          end
      | _ => mret tt
      end
  | _, _ => mret tt
  end.

Definition revoke_instruction (v3Core : option string) (ownerWallet marketPda : string) (seatIndex : Z) (status : SessionStatus) : result TransactionInstruction :=
  match v3Core with
  | Some core =>
      accounts ← deriveV3ExecutionAccounts web3 (addr_text core) (addr_text ownerWallet) None;
      revokeTradingSessionV3 web3 (mkSessionAuthorization accounts (addr_text (ss_sessionPda status)) (addr_text (ss_sessionSignerAddress status))) (Num seatIndex)
  | None => revokeTradingSession web3 (addr_text marketPda) (addr_text ownerWallet) (addr_text (ss_sessionPda status))
              (addr_text (ss_sessionSignerAddress status)) (Num seatIndex)
  end.

Definition revoke (protocol : SessionProtocol) (v3Core : option string) (ownerWallet marketPda : string) (seatIndex : Z) : eff Tab unit :=
  t ← eff_get;
  match visible_status (Some ownerWallet) t with
  | None => eff_throw "No active session to revoke."
  | Some status =>
      instruction ← eff_lift (revoke_instruction v3Core ownerWallet marketPda seatIndex status);
      signature ← eff_lift (pr_executeL1 protocol instruction);
      _ ← eff_modify (recordSignature "RevokeTradingSession" signature L1);
      _ ← destroySession (ss_sessionSignerAddress status);
      eff_modify (set_status None)
  end.

Definition clearLocal (ownerWallet : option string) : eff Tab unit :=
  t ← eff_get;
  _ ← (match visible_status ownerWallet t with Some s => destroySession (ss_sessionSignerAddress s) | None => mret tt end);
  eff_modify (set_status None).

Definition with_nonce (n : Z) (s : SessionStatus) : SessionStatus :=
  mkSessionStatus (ss_sessionPda s) (ss_sessionSignerAddress s) (ss_ownerWallet s) (ss_marketPda s) (ss_seatIndex s) (ss_actions s) (ss_expiresAt s)
    (ss_maxOrderNotional s) (ss_maxCumulativeNotional s) (ss_maximumExposure s) (ss_maximumOpenOrders s) n (ss_revoked s) (ss_v3ExecutionAccounts s).
Definition advanceNonce : eff Tab unit :=
  eff_modify (fun t => set_status ((fun s => with_nonce (ss_nextExpectedNonce s + 1) s) <$> rawStatus t) t).
End Session.

(** ** use-session-order.ts *)

Definition requiredActionBits (action : SessionAction) (reduceOnly : bool) : list SessionAction :=
  if (bool_decide (action = act_place) || bool_decide (action = act_replace)) && reduceOnly then [action; act_reduceOnlyClose] else [action].

Definition action_name (a : SessionAction) : string :=
  match a with
  | act_place => "place" | act_cancel => "cancel" | act_cancelAll => "cancelAll" | act_replace => "replace" | act_reduceOnlyClose => "reduceOnlyClose"
  end.

Inductive SessionExecutionMode := mode_v3 (accounts : V3ExecutionAccounts) | mode_v2 | mode_invalid (reason : string).

Definition resolveSessionExecutionMode (session : SessionStatus) (configuredV3Core : option string) : SessionExecutionMode :=
  match ss_v3ExecutionAccounts session, present configuredV3Core with
  | None, Some _ => mode_invalid "V3 execution bundle unavailable for the configured V3 core"
  | Some accounts, _ => mode_v3 accounts
  | None, None => mode_v2
  end.

(** The loop over the required actions: the first one that is not allowed. *)
Fixpoint first_refused (actions : Z) (required : list SessionAction) : option SessionAction :=
  match required with
  | [] => None
  | a :: rest => if actionAllowed actions a then first_refused actions rest else Some a
  end.

Definition evaluateSessionActionGate (session : option SessionStatus) (required : list SessionAction) (executionStatus : option ExecutionDisplayState)
    (nowUnixSeconds : Z) : SessionActionResult + Domain :=
  match session with
  | None => inl (blocked session_invalid (Some "No authorized session"))
  | Some session =>
      if ss_revoked session then inl (blocked session_revoked None)
      else if negb (isSessionUsable session nowUnixSeconds) then inl (blocked session_expired None)
      else match first_refused (ss_actions session) required with
      | Some a => inl (blocked session_invalid (Some ("Session is not authorized for " +:+ action_name a)))
      | None =>
          match executionStatus with
          | None => inl (blocked execution_status_unavailable (Some "MagicBlock execution-status endpoint has not returned a status"))
          | Some e =>
              match display_orderRoutingDomain e with
              | None => inl (blocked er_transition_blocked
                          (Some "The market is currently transitioning between L1 and the ER -- try again once it settles"))
              | Some domain => inr domain
              end
          end
      end
  end.

(** What surrounds one submission: the configuration, the blockhash of the RPC
    transport if there is one, the wallet and its tokens, the execution status, the
    time, and the relayer proxy's answer ([None]: the request failed). *)
Record OrderEnv := mkOrderEnv {
  oe_RELAYER_ADDRESS : option string; oe_V3_CORE : option string; oe_blockhash : option (result string); oe_walletAddress : option string;
  oe_accessToken : option string; oe_csrf : option string; oe_execution : option ExecutionDisplayState; oe_now : Z;
  oe_post : SubmitToRelayerInput -> option (Z * option RelayBody) }.

Definition submitToRelayer (env : OrderEnv) (input : SubmitToRelayerInput) : Z * option RelayBody := default (0, None) (oe_post env input).

(** The results reported, in order, and the submission made. *)
Record RelayOutcome := mkRelayOutcome { ro_results : list SessionActionResult; ro_submitted : option SubmitToRelayerInput }.
Definition reported (r : SessionActionResult) : RelayOutcome := mkRelayOutcome [r] None.

Section Orders.
Context (web3 : Web3) (sign_pkcs8 : list Z -> list Z -> list Z) (compile : string -> list Instruction -> string -> list Z)
  (wire : list Z -> string -> list Z -> string).

(** The part of [relay] after its checks, inside the [try]. *)
Definition relay_submit (env : OrderEnv) (session : SessionStatus) (instruction : TransactionInstruction) (label relayer wallet token csrf : string)
    (blockhash : result string) (domain : Domain) : eff Tab RelayOutcome :=
  let progress := mkActionResult None ("Submitting " +:+ label +:+ "…") None None in
  eff_catch
    (hash ← eff_lift blockhash;
     base64 ← buildSessionSignedTransaction sign_pkcs8 compile wire (ss_sessionSignerAddress session) relayer [toKitInstruction web3 instruction] hash;
     let input := mkSubmit csrf token wallet base64 (toBase58 web3 (ti_programId instruction)) (ss_marketPda session) (ss_nextExpectedNonce session)
                    (ss_sessionSignerAddress session) domain in
     let response := submitToRelayer env input in
     let classified := classifyRelayResponse (fst response) (snd response) in
     _ ← (match present (ar_signature classified) with
          | Some signature => _ ← eff_modify (recordSignature label signature domain); advanceNonce
          | None => mret tt
          end);
     mret (mkRelayOutcome [progress; classified] (Some input)))
    (fun e => mret (mkRelayOutcome [progress; blocked transaction_rejected (Some e)] None)).

Definition relay (env : OrderEnv) (session : option SessionStatus) (instruction : TransactionInstruction) (required : list SessionAction) (label : string)
    : eff Tab RelayOutcome :=
  match evaluateSessionActionGate session required (oe_execution env) (oe_now env) with
  | inl result => mret (reported result)
  | inr domain =>
      match present (oe_RELAYER_ADDRESS env) with
      | None => mret (reported (blocked relayer_unconfigured (Some "NEXT_PUBLIC_EQUINOX_RELAYER_ADDRESS is unset")))
      | Some relayer =>
          match oe_blockhash env with
          | None => mret (reported (blocked relayer_unavailable (Some "No RPC transport for a fresh blockhash")))
          | Some blockhash =>
              match present (oe_walletAddress env), session with
              | None, _ => mret (reported (blocked authentication_required (Some "No active wallet")))
              | Some _, None => mret (reported (blocked session_invalid (Some "No authorized session")))
              | Some wallet, Some session =>
                  match present (oe_accessToken env) with
                  | None => mret (reported (blocked authentication_required (Some "No Privy access token")))
                  | Some token =>
                      match present (oe_csrf env) with
                      | None => mret (reported (blocked authentication_required (Some "No app session token")))
                      | Some csrf => relay_submit env session instruction label relayer wallet token csrf blockhash domain
                      end
                  end
              end
          end
      end
  end.

(** The fields the hook fixes over the caller's order. *)
Definition session_params (session : SessionStatus) (p : OrderParams) : OrderParams :=
  mkOrderParams (Num (ss_seatIndex session)) (side p) (tree p) (quantity p) (priceOrOffset p) (expiresAt p) (pegLimit p) (clientOrderId p)
    (Some (BigInt (ss_nextExpectedNonce session))) (postOnly p) (immediateOrCancel p) (reduceOnly p) (selfTradeBehavior p).
Definition session_accounts (session : SessionStatus) (a : V3ExecutionAccounts) : V3ExecutionAccounts :=
  mkExecution (core a) (bookPages a) (seatShards a) (eventShards a) (addr_text (ss_sessionSignerAddress session))
    (Some (addr_text (ss_sessionPda session))) (oracleSnapshot a).

(** The common shape of the four callbacks: refuse without a session or with a
    bundle missing, build for the V3 or V2 program, then relay. *)
Definition with_session (env : OrderEnv) (session : option SessionStatus) (v3 : SessionStatus -> V3ExecutionAccounts -> result TransactionInstruction)
    (v2 : SessionStatus -> result TransactionInstruction) (required : list SessionAction) (label : string) : eff Tab RelayOutcome :=
  match session with
  | None => mret (reported (blocked session_invalid None))
  | Some s =>
      match resolveSessionExecutionMode s (oe_V3_CORE env) with
      | mode_invalid reason => mret (reported (blocked session_invalid (Some reason)))
      | mode_v3 accounts => instruction ← eff_lift (v3 s (session_accounts s accounts)); relay env session instruction required label
      | mode_v2 => instruction ← eff_lift (v2 s); relay env session instruction required label
      end
  end.

Definition placeSessionOrder (env : OrderEnv) (session : option SessionStatus) (scratch : string) (params : OrderParams) : eff Tab RelayOutcome :=
  with_session env session (fun s a => placeOrderV3 web3 a (session_params s params))
    (fun s => placeOrder web3 (addr_text (ss_marketPda s)) (addr_text (ss_sessionSignerAddress s)) (addr_text scratch)
                (Some (addr_text (ss_sessionPda s))) (session_params s params))
    (requiredActionBits act_place (reduceOnly params)) (if reduceOnly params then "ReduceOnlyClose" else "PlaceOrder").

Definition cancelSessionOrder (env : OrderEnv) (session : option SessionStatus) (orderKey : Z) : eff Tab RelayOutcome :=
  with_session env session (fun s a => cancelOrderV3 web3 a (Num (ss_seatIndex s)) orderKey (BigInt (ss_nextExpectedNonce s)))
    (fun s => cancelOrder web3 (addr_text (ss_marketPda s)) (addr_text (ss_sessionSignerAddress s)) (Some (addr_text (ss_sessionPda s)))
                (Num (ss_seatIndex s)) orderKey (BigInt (ss_nextExpectedNonce s)))
    [act_cancel] "CancelOrder".

Definition replaceSessionOrder (env : OrderEnv) (session : option SessionStatus) (oldOrderKey : Z) (scratch : string) (params : OrderParams)
    : eff Tab RelayOutcome :=
  with_session env session (fun s a => replaceOrderV3 web3 a oldOrderKey (session_params s params))
    (fun s => replaceOrder web3 (addr_text (ss_marketPda s)) (addr_text (ss_sessionSignerAddress s)) (addr_text scratch)
                (Some (addr_text (ss_sessionPda s))) oldOrderKey (session_params s params))
    (requiredActionBits act_replace (reduceOnly params)) "ReplaceOrder".

Definition cancelAllSessionOrders (env : OrderEnv) (session : option SessionStatus) (limit : Z) : eff Tab RelayOutcome :=
  with_session env session (fun s a => cancelAllV3 web3 a (Num (ss_seatIndex s)) (Num limit) (BigInt (ss_nextExpectedNonce s)))
    (fun s => cancelAll web3 (addr_text (ss_marketPda s)) (addr_text (ss_sessionSignerAddress s)) (Some (addr_text (ss_sessionPda s)))
                (Num (ss_seatIndex s)) (Num limit) (BigInt (ss_nextExpectedNonce s)))
    [act_cancelAll] "CancelAll".
End Orders.

(** ** What reaches the relayer *)

Lemma first_refused_None actions required : first_refused actions required = None <-> Forall (fun a => actionAllowed actions a = true) required.
Proof.
  induction required as [|a l IH]; cbn; [by split|]. destruct (actionAllowed actions a) eqn:Ha.
  - rewrite IH. split; [by constructor|]. by intros [_ ?]%Forall_cons_1.
  - split; [done|]. intros [H _]%Forall_cons_1. congruence.
Qed.

Lemma gate_spec session required execution now d :
  evaluateSessionActionGate session required execution now = inr d
  <-> exists s e, session = Some s /\ ss_revoked s = false /\ now < ss_expiresAt s /\ ss_actions s ≠ 0
      /\ Forall (fun a => actionAllowed (ss_actions s) a = true) required
      /\ execution = Some e /\ display_orderRoutingDomain e = Some d.
Proof.
  unfold evaluateSessionActionGate, isSessionUsable. split.
  - destruct session as [s|]; [|done]. destruct (ss_revoked s) eqn:Hr; [done|]. cbn [negb andb].
    destruct (now <? ss_expiresAt s) eqn:He; [|done]. destruct (ss_actions s =? 0) eqn:Ha; [done|]. cbn [negb andb].
    destruct (first_refused _ _) eqn:Hf; [done|]. apply first_refused_None in Hf. destruct execution as [e|]; [|done].
    destruct (display_orderRoutingDomain e) eqn:Hd; [|done]. intros [= <-]. exists s, e. split_and!; try done; lia.
  - intros (s & e & -> & Hr & He & Ha & Hf & -> & Hd). rewrite Hr. apply Z.ltb_lt in He. apply Z.eqb_neq in Ha. rewrite He, Ha. cbn [negb andb].
    apply first_refused_None in Hf. by rewrite Hf, Hd.
Qed.

Section OrderProofs.
Context (web3 : Web3) (sign_pkcs8 : list Z -> list Z -> list Z) (compile : string -> list Instruction -> string -> list Z)
  (wire : list Z -> string -> list Z -> string).
Abbreviation relay_to := (relay web3 sign_pkcs8 compile wire).

(** A submission that was allowed. *)
Record submission (env : OrderEnv) (session : option SessionStatus) (instruction : TransactionInstruction) (required : list SessionAction)
    (t : Tab) (input : SubmitToRelayerInput) : Prop := {
  sb_gate : evaluateSessionActionGate session required (oe_execution env) (oe_now env) = inr (sr_domain input);
  sb_session : exists s, session = Some s /\ sr_sessionSignerAddress input = ss_sessionSignerAddress s /\ sr_expectedMarket input = ss_marketPda s
    /\ sr_expectedNonce input = ss_nextExpectedNonce s;
  sb_wallet : oe_walletAddress env = Some (sr_ownerWallet input) /\ oe_accessToken env = Some (sr_privyAccessToken input)
    /\ oe_csrf env = Some (sr_csrfToken input);
  sb_signed : exists seed relayer hash, seeds t !! sr_sessionSignerAddress input = Some seed /\ oe_RELAYER_ADDRESS env = Some relayer
    /\ oe_blockhash env = Some (Ok hash)
    /\ let message := compile relayer [toKitInstruction web3 instruction] hash in
       sr_transactionBase64 input = wire message (sr_sessionSignerAddress input) (sign_pkcs8 (pkcs8Wrap seed) message) }.

Lemma present_Some v s : present v = Some s -> v = Some s /\ s ≠ "".
Proof. unfold present. destruct v as [x|]; [|done]. case_bool_decide; [done|]. by intros [= <-]. Qed.

(** The tab after a submission: the signature, if the answer carried one, is shown
    and the nonce moves on. *)
Definition after_answer (label : string) (input : SubmitToRelayerInput) (classified : SessionActionResult) (t : Tab) : Tab :=
  match present (ar_signature classified) with
  | Some signature =>
      let t1 := recordSignature label signature (sr_domain input) t in
      set_status ((fun s => with_nonce (ss_nextExpectedNonce s + 1) s) <$> rawStatus t) t1
  | None => t
  end.

Lemma relay_cases env session instruction required label t t' r :
  relay_to env session instruction required label t = (t', r) ->
  exists o, r = Ok o /\
  ((ro_submitted o = None /\ t' = t /\ exists result, list.last (ro_results o) = Some result /\ is_Some (ar_reason result))
   \/ exists input, ro_submitted o = Some input /\ submission env session instruction required t input
        /\ let classified := classifyRelayResponse (fst (submitToRelayer env input)) (snd (submitToRelayer env input)) in
           list.last (ro_results o) = Some classified /\ t' = after_answer label input classified t).
Proof.
  unfold relay. intros H.
  assert (Hstop : forall reason detail, (t, Ok (reported (blocked reason detail))) = (t', r) -> exists o, r = Ok o /\
    ((ro_submitted o = None /\ t' = t /\ exists result, list.last (ro_results o) = Some result /\ is_Some (ar_reason result)) \/
     exists input, ro_submitted o = Some input /\ submission env session instruction required t input
        /\ let classified := classifyRelayResponse (fst (submitToRelayer env input)) (snd (submitToRelayer env input)) in
           list.last (ro_results o) = Some classified /\ t' = after_answer label input classified t)).
  { intros reason detail [= <- <-]. eexists. split; [done|]. left. split_and!; try done. by eexists. }
  destruct (evaluateSessionActionGate _ _ _ _) as [result|domain] eqn:Hg.
  { assert (Hb : exists reason detail, result = blocked reason detail).
    { revert Hg. unfold evaluateSessionActionGate. repeat case_match; intros [= <-]; eauto. }
    destruct Hb as (reason & detail & ->). by eapply Hstop. }
  destruct (present (oe_RELAYER_ADDRESS env)) as [relayer|] eqn:Hrel; [|by eapply Hstop].
  destruct (oe_blockhash env) as [blockhash|] eqn:Hbh; [|by eapply Hstop].
  destruct (present (oe_walletAddress env)) as [wallet|] eqn:Hw; [|by eapply Hstop].
  destruct session as [s|]; [|by eapply Hstop].
  destruct (present (oe_accessToken env)) as [token|] eqn:Ht; [|by eapply Hstop].
  destruct (present (oe_csrf env)) as [csrf|] eqn:Hcs; [|by eapply Hstop].
  apply present_Some in Hrel as [Hrel _], Hw as [Hw _], Ht as [Ht _], Hcs as [Hcs _].
  unfold relay_submit, eff_catch in H. unfold mbind, eff_bind, eff_lift in H.
  assert (Hfail : forall e progress, (t, Ok (mkRelayOutcome [progress; blocked transaction_rejected (Some e)] None)) = (t', r) -> exists o, r = Ok o /\
    ((ro_submitted o = None /\ t' = t /\ exists result, list.last (ro_results o) = Some result /\ is_Some (ar_reason result)) \/
     exists input, ro_submitted o = Some input /\ submission env (Some s) instruction required t input
        /\ let classified := classifyRelayResponse (fst (submitToRelayer env input)) (snd (submitToRelayer env input)) in
           list.last (ro_results o) = Some classified /\ t' = after_answer label input classified t)).
  { intros e progress [= <- <-]. eexists. split; [done|]. left. split_and!; try done. by eexists. }
  destruct blockhash as [hash|e]; [|by eapply Hfail].
  unfold buildSessionSignedTransaction, signWithSessionKey, mbind, eff_bind, eff_get, eff_throw in H.
  destruct (seeds t !! ss_sessionSignerAddress s) as [seed|] eqn:Hseed; [|by eapply Hfail].
  set (message := compile relayer [toKitInstruction web3 instruction] hash) in *.
  set (input := mkSubmit csrf token wallet (wire message (ss_sessionSignerAddress s) (sign_pkcs8 (pkcs8Wrap seed) message))
    (toBase58 web3 (ti_programId instruction)) (ss_marketPda s) (ss_nextExpectedNonce s) (ss_sessionSignerAddress s) domain) in *.
  assert (Hsub : submission env (Some s) instruction required t input).
  { split; [done|by exists s|done|]. exists seed, relayer, hash. done. }
  cbv zeta in H. cbn [mret eff_ret] in H. fold message in H. fold input in H.
  destruct (present (ar_signature (classifyRelayResponse (fst (submitToRelayer env input)) (snd (submitToRelayer env input))))) as [signature|] eqn:Hsig;
    injection H as <- <-; eexists; (split; [done|]); right; exists input; (split; [done|]); (split; [done|]); (split; [done|]);
    unfold after_answer; by rewrite Hsig.
Qed.


(** ** The nonce and the chain *)

(** The program takes an action exactly when it carries the session's next nonce;
    [lost]: the answer to this submission does not come back. *)
Definition chain_post (nonce : Z) (lost : bool) (input : SubmitToRelayerInput) : option (Z * option RelayBody) :=
  if sr_expectedNonce input =? nonce then (if lost then None else Some (202, Some (mkRelayBody (Some "signature") None None)))
  else Some (400, Some (mkRelayBody None (Some "SessionNonceReplay") None)).
Definition chain_next (nonce : Z) (input : SubmitToRelayerInput) : Z := if sr_expectedNonce input =? nonce then nonce + 1 else nonce.

Definition against (env : OrderEnv) (nonce : Z) (lost : bool) : OrderEnv :=
  mkOrderEnv (oe_RELAYER_ADDRESS env) (oe_V3_CORE env) (oe_blockhash env) (oe_walletAddress env) (oe_accessToken env) (oe_csrf env) (oe_execution env)
    (oe_now env) (chain_post nonce lost).

(** One action of the signed-in wallet: the tab and the chain's nonce after it. *)
Definition trade (env : OrderEnv) (owner : string) (instruction : TransactionInstruction) (required : list SessionAction) (tc : Tab * Z) (lost : bool)
    : Tab * Z :=
  let '(t, nonce) := tc in
  let (t', r) := relay_to (against env nonce lost) (visible_status (Some owner) t) instruction required "PlaceOrder" t in
  (t', match r with Ok o => match ro_submitted o with Some input => chain_next nonce input | None => nonce end | Throw _ => nonce end).

(** Everything a submission needs is in place. *)
Record trading (env : OrderEnv) (owner : string) (required : list SessionAction) (t : Tab) (local : Z) : Prop := {
  tr_status : exists s, rawStatus t = Some s /\ ss_ownerWallet s = owner /\ ss_nextExpectedNonce s = local
    /\ is_Some (seeds t !! ss_sessionSignerAddress s)
    /\ exists d, evaluateSessionActionGate (Some s) required (oe_execution env) (oe_now env) = inr d;
  tr_config : is_Some (present (oe_RELAYER_ADDRESS env)) /\ (exists hash, oe_blockhash env = Some (Ok hash)) /\ is_Some (present (oe_walletAddress env))
    /\ is_Some (present (oe_accessToken env)) /\ is_Some (present (oe_csrf env)) }.

Lemma classify_accepted : present (ar_signature (classifyRelayResponse 202 (Some (mkRelayBody (Some "signature") None None)))) = Some "signature".
Proof. reflexivity. Qed.
Lemma classify_replay : present (ar_signature (classifyRelayResponse 400 (Some (mkRelayBody None (Some "SessionNonceReplay") None)))) = None.
Proof. reflexivity. Qed.

Lemma trade_step env owner instruction required t local nonce lost :
  trading env owner required t local ->
  exists t', trade env owner instruction required (t, nonce) lost = (t', if local =? nonce then nonce + 1 else nonce)
    /\ trading env owner required t' (if (local =? nonce) && negb lost then local + 1 else local).
Proof.
  intros [(s & Hs & Ho & Hn & [seed Hseed] & d & Hg) ([rel Hrel] & [hash Hh] & [wallet Hw] & [token Ht] & [csrf Hc])].
  unfold trade, visible_status. rewrite Hs, bool_decide_true by congruence. unfold relay, against. cbn [oe_execution oe_now oe_RELAYER_ADDRESS oe_blockhash oe_walletAddress oe_accessToken oe_csrf].
  rewrite Hg, Hrel, Hh, Hw, Ht, Hc. unfold relay_submit, eff_catch, mbind, eff_bind, eff_lift.
  unfold buildSessionSignedTransaction, signWithSessionKey, mbind, eff_bind, eff_get. rewrite Hseed. cbv zeta. cbn [mret eff_ret].
  unfold submitToRelayer. cbn [oe_post]. unfold chain_post. cbn [sr_expectedNonce]. rewrite Hn.
  assert (Hsame : trading env owner required t local).
  { split; [exists s; split_and!; eauto|split_and!; eauto]. }
  destruct (local =? nonce) eqn:He; [destruct lost|].
  - cbn. exists t. unfold chain_next. cbn [sr_expectedNonce]. rewrite ?Hn, ?He. done.
  - cbn [from_option id fst snd]. rewrite classify_accepted. eexists. cbn -[classifyRelayResponse]. unfold chain_next. cbn [sr_expectedNonce]. rewrite ?Hn, ?He. split; [done|].
    split; [|split_and!; eauto]. cbn. rewrite Hs. cbn. exists (with_nonce (ss_nextExpectedNonce s + 1) s).
    split_and!; [done|done|cbn; lia|by exists seed|]. exists d. exact Hg.
  - cbn [from_option id fst snd]. rewrite classify_replay. exists t. cbn -[classifyRelayResponse]. unfold chain_next. cbn [sr_expectedNonce]. rewrite ?Hn, ?He. done.
Qed.

Definition trades (env : OrderEnv) (owner : string) (instruction : TransactionInstruction) (required : list SessionAction) (tc : Tab * Z)
    (losses : list bool) : Tab * Z := foldl (trade env owner instruction required) tc losses.

(** How many of the submissions the chain takes: all up to and including the first
    whose answer is lost. *)
Fixpoint taken (losses : list bool) : Z :=
  match losses with [] => 0 | true :: _ => 1 | false :: rest => 1 + taken rest end.

Lemma trades_behind env owner instruction required losses t local nonce :
  trading env owner required t local -> local < nonce ->
  exists t', trades env owner instruction required (t, nonce) losses = (t', nonce) /\ trading env owner required t' local.
Proof.
  revert t. induction losses as [|lost losses IH]; intros t Ht Hn; [by exists t|]. cbn [trades foldl].
  destruct (trade_step env owner instruction required t local nonce lost Ht) as (t1 & -> & Ht1).
  destruct (Z.eqb_spec local nonce); [lia|]. cbn in Ht1. by apply IH.
Qed.

(** The session's nonce against the program's, over any sequence of actions of a
    tab that is ready to trade and starts in step with the chain.  As long as every
    answer comes back, each action is taken and the tab stays in step.  After the
    first answer that is lost although the program took the action, the tab's nonce
    never moves again and the program takes nothing more, however many further
    actions are submitted. *)
Theorem session_nonce_lockstep env owner instruction required t nonce losses :
  trading env owner required t nonce ->
  exists t', trades env owner instruction required (t, nonce) losses = (t', nonce + taken losses)
    /\ trading env owner required t' (nonce + (if existsb (fun b => b) losses then taken losses - 1 else taken losses)).
Proof.
  revert t nonce. induction losses as [|lost losses IH]; intros t nonce Ht.
  { exists t. cbn. rewrite Z.add_0_r. done. }
  cbn [trades foldl taken existsb]. destruct (trade_step env owner instruction required t nonce nonce lost Ht) as (t1 & -> & Ht1).
  rewrite Z.eqb_refl in *. cbn [andb] in Ht1. destruct lost; cbn [negb orb] in *.
  - destruct (trades_behind env owner instruction required losses t1 nonce (nonce + 1) Ht1) as (t2 & E & Ht2); [lia|].
    exists t2. unfold trades in E. rewrite E. split; [done|]. by replace (nonce + (1 - 1)) with nonce by lia.
  - destruct (IH t1 (nonce + 1) Ht1) as (t2 & E & Ht2). exists t2. unfold trades in E. rewrite E. split; [f_equal; lia|].
    destruct (existsb _ losses);
      [by replace (nonce + (1 + taken losses - 1)) with (nonce + 1 + (taken losses - 1)) by lia
      |by replace (nonce + (1 + taken losses)) with (nonce + 1 + taken losses) by lia].
Qed.
End OrderProofs.

(** ** Authorising and destroying a session *)

Section Custody.
Context (web3 : Web3) (base58 : list Z -> string) (sign_pkcs8 : list Z -> list Z -> list Z).

Lemma fresh_session_spec owner market seat rawPublic d t t' r :
  fresh_session web3 base58 owner market seat rawPublic d t = (t', r) ->
  rawStatus t' = rawStatus t /\ forall pda signer reused, r = Ok (pda, signer, reused) -> is_Some (seeds t' !! signer).
Proof.
  unfold fresh_session, generateSessionKey, mbind, eff_bind, eff_lift, eff_modify.
  destruct (base64UrlDecode d) as [seed|e]; [|intros [= <- <-]; by split]. cbn [mret eff_ret].
  destruct (deriveTradingSession _ _ _ _ _) as [key|e]; intros [= <- <-]; [|by split]. split; [done|].
  intros pda signer reused [= <- <- <-]. cbn. by rewrite lookup_insert_eq.
Qed.

Lemma createSession_spec owner market seat rawPublic d t t' r :
  createSession web3 base58 owner market seat rawPublic d t = (t', r) ->
  rawStatus t' = rawStatus t /\ forall pda signer reused, r = Ok (pda, signer, reused) -> is_Some (seeds t' !! signer).
Proof.
  unfold createSession. unfold mbind at 1, eff_bind at 1, eff_get. intros H.
  destruct (lookupSession _ _ _ t) as [info|]; [|by eapply fresh_session_spec].
  destruct (hasSessionKey _ t) eqn:Hk; [|by eapply fresh_session_spec]. injection H as <- <-. split; [done|].
  intros pda signer reused [= <- <- <-]. by apply bool_decide_eq_true in Hk.
Qed.

(** A status that the chain confirmed. *)
Definition confirmed_status (protocol : SessionProtocol) (owner market : string) (s : SessionStatus) : Prop :=
  ss_ownerWallet s = owner /\ ss_marketPda s = market /\ ss_revoked s = false
  /\ exists readback, pr_tradingSession protocol (ss_sessionPda s) = Ok (Some readback)
     /\ Abi.xv_owner readback = owner /\ Abi.xv_market readback = market /\ Abi.xv_sessionSigner readback = ss_sessionSignerAddress s
     /\ Abi.xv_revoked readback = false /\ ss_actions s = Abi.xv_actions readback /\ ss_nextExpectedNonce s = Abi.xv_nextExpectedNonce readback
     /\ ss_expiresAt s = to_number (Abi.xv_expiresAt readback).

Lemma toSessionStatus_spec pda signer owner market seat readback core s :
  toSessionStatus web3 pda signer owner market seat readback core = Ok s ->
  ss_sessionPda s = pda /\ ss_sessionSignerAddress s = signer /\ ss_ownerWallet s = owner /\ ss_marketPda s = market
  /\ ss_revoked s = Abi.xv_revoked readback /\ ss_actions s = Abi.xv_actions readback
  /\ ss_nextExpectedNonce s = Abi.xv_nextExpectedNonce readback /\ ss_expiresAt s = to_number (Abi.xv_expiresAt readback).
Proof. unfold toSessionStatus. intros (v3 & _ & [= <-])%result_bind_Ok. done. Qed.

Lemma authorize_cases protocol core owner market seat generated config t t' r :
  authorize web3 base58 protocol core owner market seat generated config t = (t', r) ->
  rawStatus t' = rawStatus t /\ r ≠ Ok tt
  \/ r = Ok tt /\ exists s, rawStatus t' = Some s /\ confirmed_status protocol owner (default market core) s
       /\ is_Some (seeds t' !! ss_sessionSignerAddress s).
Proof.
  unfold authorize. unfold mbind at 1, eff_bind at 1. destruct (createSession _ _ _ _ _ _ _ t) as [t1 c] eqn:Hc.
  apply createSession_spec in Hc as [Hs Hk]. destruct c as [[[pda signer] reused]|e]; [|intros [= <- <-]; by left].
  specialize (Hk pda signer reused eq_refl). unfold mbind, eff_bind, eff_lift, eff_modify.
  destruct (pr_clock _ _) as [[valid at_]|e]; [|intros [= <- <-]; by left].
  destruct (throw_if _ _) as [[]|e]; [|intros [= <- <-]; by left].
  destruct (authorize_instruction _ _ _ _ _ _ _ _) as [ix|e]; [|intros [= <- <-]; by left].
  destruct (pr_executeL1 _ _) as [signature|e]; [|intros [= <- <-]; by left].
  destruct (pr_tradingSession protocol pda) as [[readback|]|e] eqn:Hr; [|intros [= <- <-]; by left..].
  destruct (_ || _) eqn:Hm; [intros [= <- <-]; by left|].
  destruct (toSessionStatus _ _ _ _ _ _ _ _) as [s|e] eqn:Ht; intros [= <- <-]; [|by left].
  right. split; [done|]. exists s. split; [done|]. apply orb_false_iff in Hm as [Hrev Hm]. apply negb_false_iff in Hm.
  unfold readback_matches in Hm. rewrite !andb_true_iff, !bool_decide_eq_true in Hm. destruct Hm as [[Hsig Hown] Hmkt].
  apply toSessionStatus_spec in Ht as (Hp & Hsg & Ho & Hmk & Hrv & Ha & Hn & He). split; [|cbn; by rewrite Hsg].
  split_and!; [done|done|congruence|]. exists readback. rewrite Hp. split_and!; congruence.
Qed.

(** Custody of the session key.  Authorising enables trading only on a session
    that was read back from the chain with the requested owner, market and signer
    and is not revoked, taking its permissions, expiry and nonce from the chain,
    with its key in this tab; every failure leaves the status as it was.  Once a
    revocation went through, or the tab was cleared, or another wallet became
    active, no status is shown to that wallet and the key is gone, so nothing can
    be signed for the session any more. *)
Theorem session_key_custody protocol core owner market seat :
  (forall generated config t t' r, authorize web3 base58 protocol core owner market seat generated config t = (t', r) ->
     rawStatus t' = rawStatus t /\ r ≠ Ok tt
     \/ r = Ok tt /\ exists s, rawStatus t' = Some s /\ confirmed_status protocol owner (default market core) s
          /\ is_Some (seeds t' !! ss_sessionSignerAddress s))
  /\ (forall t t' s message, visible_status (Some owner) t = Some s -> revoke web3 protocol core owner market seat t = (t', Ok tt) ->
        rawStatus t' = None /\ snd (signWithSessionKey sign_pkcs8 (ss_sessionSignerAddress s) message t') = Throw "no session key in memory for this address")
  /\ (forall t s message, visible_status (Some owner) t = Some s -> let t' := fst (clearLocal (Some owner) t) in
        rawStatus t' = None /\ snd (signWithSessionKey sign_pkcs8 (ss_sessionSignerAddress s) message t') = Throw "no session key in memory for this address")
  /\ (forall t s other message, visible_status (Some owner) t = Some s -> other ≠ Some owner -> let t' := fst (wallet_effect other t) in
        visible_status other t' = None
        /\ snd (signWithSessionKey sign_pkcs8 (ss_sessionSignerAddress s) message t') = Throw "no session key in memory for this address").
Proof.
  assert (Hgone : forall a message t, seeds t !! a = None -> snd (signWithSessionKey sign_pkcs8 a message t) = Throw "no session key in memory for this address").
  { intros a message t Ha. unfold signWithSessionKey, mbind, eff_bind, eff_get. by rewrite Ha. }
  split; [intros; by eapply authorize_cases|]. split; [|split].
  - intros t t' s message Hv. unfold revoke, mbind, eff_bind, eff_get, eff_lift, eff_modify. rewrite Hv.
    destruct (revoke_instruction _ _ _ _ _ _) as [ix|e]; [|done]. destruct (pr_executeL1 _ _) as [signature|e]; [|done].
    intros [= <-]. split; [done|]. apply Hgone. cbn. apply lookup_delete_eq.
  - intros t s message Hv. unfold clearLocal, mbind, eff_bind, eff_get. rewrite Hv. cbn [destroySession clearSessionKey eff_modify fst].
    split; [done|]. apply Hgone. cbn. apply lookup_delete_eq.
  - intros t s other message Hv Ho. unfold visible_status in Hv. destruct (rawStatus t) as [s'|] eqn:Hs; [|done].
    case_bool_decide as Hown; [|done]. injection Hv as ->. injection Hown as ->.
    unfold wallet_effect, mbind, eff_bind, eff_get. rewrite Hs, bool_decide_false by done. cbn [destroySession clearSessionKey eff_modify fst].
    split; [unfold visible_status; cbn; by rewrite Hs, bool_decide_false|]. apply Hgone. cbn. apply lookup_delete_eq.
Qed.
End Custody.

(** ** A tab that trades *)

Module TabSample.
Definition web3 : Web3 := mkWeb3 (fun s => Some (ascii_bytes s)) (fun _ _ => replicate 32 9) (fun _ => "base58") (replicate 32 1).
Definition sign (key message : list Z) : list Z := key ++ message.
Definition compile (payer : string) (instructions : list Instruction) (hash : string) : list Z := ascii_bytes (payer +:+ hash).
Definition wire (message : list Z) (signer : string) (signature : list Z) : string := btoa (message ++ signature).
Definition status : SessionStatus := mkSessionStatus "pda" "signer" "owner" "market" 3 SESSION_ACTION_all 5000 1 1 1 1 7 false None.
Definition tab : Tab := mkTab {["signer" := replicate 32 5]} ∅ (Some status) None.
Definition display : ExecutionDisplayState := deriveExecutionDisplay (mkResponse (mkState er_active (mkSequences 0 0 0 0 0 0 0) None) false).
Definition env : OrderEnv := mkOrderEnv (Some "relayer") None (Some (Ok "hash")) (Some "owner") (Some "token") (Some "csrf") (Some display) 1000
  (chain_post 7 false).
Definition instruction : TransactionInstruction := mkTransactionInstruction (replicate 32 1) [] [1].
End TabSample.


Lemma session_nonce_lockstep_witness :
  trading TabSample.env "owner" [act_place] TabSample.tab 7
  /\ exists t', trades TabSample.web3 TabSample.sign TabSample.compile TabSample.wire TabSample.env "owner" TabSample.instruction [act_place]
       (TabSample.tab, 7) [false; false; true; false] = (t', 10)
     /\ trading TabSample.env "owner" [act_place] t' 9.
Proof.
  assert (H : trading TabSample.env "owner" [act_place] TabSample.tab 7).
  { split.
    - exists TabSample.status. split; [reflexivity|]. split; [reflexivity|]. split; [reflexivity|]. split; [by eexists|]. exists ER. reflexivity.
    - split; [by eexists|]. split; [by eexists|]. split; [by eexists|]. split; by eexists. }
  split; [exact H|].
  exact (session_nonce_lockstep TabSample.web3 TabSample.sign TabSample.compile TabSample.wire TabSample.env "owner" TabSample.instruction [act_place]
    TabSample.tab 7 [false; false; true; false] H).
Defined.
