(* ===== verification/BrowserBook.v ===== *)
(** * The browser's view of the V3 book

    The pure part of features/trading/use-v3-book.ts (levels, fills and orders, from
    account bytes or from the market API's aggregate) and lib/open-orders.ts.  The decoders and the tree labelling are the ones the
    hook imports from workers/src/v3-market-state.ts. *)

From stdpp Require Import sorting.
From S2P Require Import Prelude Json Bytes V3Market.

(** ** Nodes *)

(** [string | bigint]: a decimal string, or a [bigint], of which [0n] is falsy. *)
Inductive Int := int_text (z : Z) | int_big (z : Z).
Definition int_value (v : Int) : Z := match v with int_text z | int_big z => z end.
Definition int_truthy (v : option Int) : bool :=
  match v with Some (int_text _) => true | Some (int_big z) => negb (z =? 0) | None => false end.
Definition int_or_zero (v : option Int) : Z := match v with Some i => int_value i | None => 0 end.

Record AggregateNode := mkRawNode {
  rn_tag : Z; rn_side : option Z; rn_quantity : option Int; rn_priceOrOffset : option Int; rn_expiresAt : option Int; rn_tree : option Tree;
  rn_pegLimit : option Int; rn_owner : option Z; rn_key : Int; rn_postOnly : bool; rn_reduceOnly : bool }.

(** A decoded node as the browser sees it: with [bigint]s when it decoded the bytes
    itself, with strings when the worker's JSON carried it. *)
Definition raw_node (int : Z -> Int) (n : V3BookNodeState) : AggregateNode :=
  mkRawNode (tag n) (side <$> leaf n) (int ∘ quantity <$> leaf n) (int ∘ priceOrOffset <$> leaf n) (int ∘ expiresAt <$> leaf n) (tree n)
    (int ∘ pegLimit <$> leaf n) (owner <$> leaf n) (int (key n)) (default false (postOnly <$> leaf n)) (default false (reduceOnly <$> leaf n)).

(** ** use-v3-book.ts *)

(** Prices stay in the oracle's raw scale; the source divides them by 1e5 for
    display, which keeps distinct prices below 2^52 distinct. *)
Record BookLevel := mkLevel { lv_price : Z; lv_size : Z }.
Record Trade := mkTrade { td_sequence : Z; td_price : Z; td_size : Z; td_makerSeat : Z; td_takerSeat : Z; td_time : Z }.
Record SeatPosition := mkSeatPosition {
  sp_shard : Z; sp_slot : Z; sp_trader : string; sp_availableCollateral : Z; sp_reservedMargin : Z; sp_basePosition : Z; sp_quoteEntryValue : Z;
  sp_realizedPnl : Z; sp_openOrderCount : Z; sp_liquidationState : Z }.
Record RestingOrderView := mkResting {
  ro_owner : Z; ro_orderKey : Z; ro_bid : bool; ro_price : Z; ro_quantity : Z; ro_expiresAt : Z; ro_postOnly : bool; ro_reduceOnly : bool }.
Record BookView := mkBookView {
  bv_bids : list BookLevel; bv_asks : list BookLevel; bv_trades : list Trade; bv_positions : list SeatPosition; bv_orders : list RestingOrderView }.

Definition FILL_KINDS : list Z := [203; 204].

(** The price and size one leaf contributes, if any. *)
Definition level_of (bid : bool) (oracleRaw nowSec : Z) (n : AggregateNode) : option (Z * Z) :=
  if negb (rn_tag n =? 2) || negb (int_truthy (rn_quantity n)) || negb (int_truthy (rn_priceOrOffset n)) then None
  else if int_truthy (rn_expiresAt n) && (int_or_zero (rn_expiresAt n) <=? nowSec) then None
  else
    let base := int_or_zero (rn_priceOrOffset n) in
    let pegged := bool_decide (rn_tree n = Some tree_pegged) in
    let price := if pegged then base + oracleRaw else base in
    let limit := if int_truthy (rn_pegLimit n) then int_or_zero (rn_pegLimit n) else 0 in
    if pegged && ((limit <=? 0) || (if bid then limit <? price else price <? limit)) then None
    else if (price <=? 0) || (to_number (int_or_zero (rn_quantity n)) <=? 0) then None
    else Some (to_number price, to_number (int_or_zero (rn_quantity n))).

(** [bySide.set(key, (bySide.get(key) ?? 0) + quantity)], a sum of doubles. *)
Definition add_level (m : gmap Z Z) (l : Z * Z) : gmap Z Z := <[fst l := js_add (default 0 (m !! fst l)) (snd l)]> m.

Definition better (bid : bool) (a b : BookLevel) : Prop := if bid then lv_price b <= lv_price a else lv_price a <= lv_price b.
#[export] Instance better_dec bid a b : Decision (better bid a b).
Proof. unfold better. destruct bid; apply _. Defined.

Definition level_map (nodes : list AggregateNode) (bid : bool) (oracleRaw nowSec : Z) : gmap Z Z :=
  foldl add_level ∅ (omap (level_of bid oracleRaw nowSec) nodes).

Definition levelsFrom (nodes : list AggregateNode) (bid : bool) (oracleRaw nowSec : Z) : list BookLevel :=
  merge_sort (better bid) ((fun e => mkLevel (fst e) (snd e)) <$> map_to_list (level_map nodes bid oracleRaw nowSec)).

(** A fill record's payload: maker seat, taker seat, price, quantity. *)
Definition trade_of (r : option V3EventRecord) : option Trade :=
  match r with
  | Some r =>
      if negb (bool_decide (ev_kind r ∈ FILL_KINDS)) || (blen (ev_payload r) <? 24) then None
      else match getUint32 (ev_payload r) 0, getUint32 (ev_payload r) 4, getBigInt64 (ev_payload r) 8, getBigUint64 (ev_payload r) 16 with
      | Ok maker, Ok taker, Ok price, Ok size => Some (mkTrade (ev_sequence r) (to_number price) (to_number size) maker taker (to_number (ev_timestamp r)))
      | _, _, _, _ => None
      end
  | None => None
  end.

(** The source's comparison never answers 0; two fills never share a sequence
    number, so the order of equals is left to the sort. *)
Definition newer (a b : Trade) : Prop := td_sequence b <= td_sequence a.
#[export] Instance newer_dec a b : Decision (newer a b).
Proof. unfold newer. apply _. Defined.

Definition tradesFrom (shards : list (list (option V3EventRecord))) : list Trade := take 50 (merge_sort newer (omap trade_of (concat shards))).

Definition seat_position (p : V3SeatPositionState) : SeatPosition :=
  mkSeatPosition (seat_shard p) (slot p) (trader p) (availableCollateral p) (reservedMargin p) (basePosition p) (quoteEntryValue p) (realizedPnl p)
    (openOrderCount p) (liquidationState p).

Definition fixed_liquidity (n : AggregateNode) : Prop := rn_tag n = 2 /\ rn_tree n ≠ Some tree_pegged.
#[export] Instance fixed_liquidity_dec n : Decision (fixed_liquidity n).
Proof. unfold fixed_liquidity. apply _. Defined.

Definition order_of (n : AggregateNode) : RestingOrderView :=
  mkResting (default 0 (rn_owner n)) (int_value (rn_key n)) (bool_decide (rn_side n = Some 0)) (int_or_zero (rn_priceOrOffset n)) (int_or_zero (rn_quantity n))
    (int_or_zero (rn_expiresAt n)) (rn_postOnly n) (rn_reduceOnly n).

Definition still_resting (nowSec : Z) (n : AggregateNode) : Prop := nowSec < int_or_zero (rn_expiresAt n) /\ 0 < int_or_zero (rn_quantity n).
#[export] Instance still_resting_dec nowSec n : Decision (still_resting nowSec n).
Proof. unfold still_resting. apply _. Defined.

Section Decode.
Context (base58 : list Z -> string).

Definition decodeBundle (pages seats events : list (option (list Z))) (nowSec : Z) : option BookView :=
  decoded ← mapM (fun b => b ≫= decodeV3BookPage base58) pages;
  let (ok, labelled) := annotateBookTrees decoded in
  if negb ok then None
  else
    let fixed := filter fixed_liquidity (raw_node int_big <$> labelled) in
    Some (mkBookView
      (levelsFrom (filter (fun n => rn_side n = Some 0) fixed) true 0 nowSec)
      (levelsFrom (filter (fun n => rn_side n = Some 1) fixed) false 0 nowSec)
      (tradesFrom ((fun b => match b ≫= decodeV3EventShard base58 with Some s => es_records s | None => [] end) <$> events))
      (seat_position <$> concat ((fun b => match b ≫= decodeV3SeatShard base58 with Some s => ss_positions s | None => [] end) <$> seats))
      (order_of <$> filter (still_resting nowSec) fixed)).

(** The aggregate's JSON, as far as the fallback reads it. *)
Record AggregateBookResponse := mkAggregateBook {
  ab_complete : bool; ab_delegationStatus : Z; ab_bids : list AggregateNode; ab_asks : list AggregateNode; ab_positions : list SeatPosition;
  ab_eventShards : list (list (option V3EventRecord)); ab_asOfSlot : option Z; ab_oraclePrice : Int }.

(** What the worker serialises ([v3JsonValue]: a [bigint] becomes its text). *)
Definition aggregate_json (a : V3MarketAggregate) : AggregateBookResponse :=
  mkAggregateBook (completeExecutionState a) (core_delegationStatus (core a)) (raw_node int_text <$> bids a) (raw_node int_text <$> asks a)
    (seat_position <$> positions a) (es_records <$> eventShards a) (asOfSlot a) (int_text (lastVerifiedOraclePrice (core a))).

Definition incomplete (n : AggregateNode) : bool :=
  bool_decide (rn_owner n = None) || bool_decide (rn_expiresAt n = None) || bool_decide (rn_quantity n = None)
  || bool_decide (rn_priceOrOffset n = None) || bool_decide (rn_side n = None).

(** [er] is whether the rollup is the domain asked. *)
Definition bookFromAggregate (value : AggregateBookResponse) (er : bool) (nowSec : Z) : option BookView :=
  let d := ab_delegationStatus value in
  let correctDomain := if er then (d =? 1) || (d =? 2) else (d =? 0) || (d =? 3) in
  if negb (ab_complete value) || negb correctDomain then None
  else
    let fixed := filter fixed_liquidity (ab_bids value ++ ab_asks value) in
    if existsb incomplete fixed then None
    else
      Some (mkBookView
        (levelsFrom (filter (fun n => rn_side n = Some 0) fixed) true 0 nowSec)
        (levelsFrom (filter (fun n => rn_side n = Some 1) fixed) false 0 nowSec)
        (tradesFrom (ab_eventShards value)) (ab_positions value) (order_of <$> filter (still_resting nowSec) fixed)).
End Decode.

(** ** open-orders.ts *)

Definition OPEN_ORDERS_UNAVAILABLE_REASON : string :=
  "Open orders require a complete V3 shard aggregate; the authoritative market state is currently unavailable.".

Record OpenOrderView := mkOpenOrder {
  oo_orderKey : Z; oo_bid : bool; oo_tree : Tree; oo_price : Z; oo_quantity : Z; oo_postOnly : bool; oo_reduceOnly : bool; oo_expiresAt : option Z }.

Inductive OpenOrdersFetchResult := oo_unavailable (reason : string) | oo_ready (orders : list OpenOrderView) (asOfSlot : option Z).

(** A decimal string. *)
Definition bigintField (v : option Int) : option Z := match v with Some (int_text z) => Some z | _ => None end.

Definition fixedPrice (key : Z) (bid : bool) : Z :=
  let normalized := Z.shiftr key 64 in if bid then 2 ^ 64 - 1 - normalized else normalized.

(** One node of the loop: skipped, malformed, or an order. *)
Inductive NodeReading := nr_skip | nr_malformed | nr_order (o : OpenOrderView).

Definition read_open_order (seatIndex : Z) (mark : option Z) (n : AggregateNode) : NodeReading :=
  match rn_tree n with
  | None => nr_skip
  | Some t =>
      if negb (bool_decide (rn_owner n = Some seatIndex)) || negb (bool_decide (rn_side n = Some 0) || bool_decide (rn_side n = Some 1)) then nr_skip
      else match bigintField (Some (rn_key n)), bigintField (rn_quantity n), bigintField (rn_priceOrOffset n), bigintField (rn_expiresAt n) with
      | Some key, Some quantity, Some offset, Some expires =>
          let bid := bool_decide (rn_side n = Some 0) in
          let price := match t with tree_fixed => Some (fixedPrice key bid) | tree_pegged => (fun m => m + offset) <$> mark end in
          match price with
          | None => nr_malformed
          | Some price =>
              if price <=? 0 then nr_malformed
              else nr_order (mkOpenOrder key bid t price quantity (rn_postOnly n) (rn_reduceOnly n) (if expires =? 2 ^ 64 - 1 then None else Some expires))
          end
      | _, _, _, _ => nr_malformed
      end
  end.

Fixpoint open_orders (seatIndex : Z) (mark : option Z) (nodes : list AggregateNode) : option (list OpenOrderView) :=
  match nodes with
  | [] => Some []
  | n :: rest =>
      match read_open_order seatIndex mark n with
      | nr_skip => open_orders seatIndex mark rest
      | nr_malformed => None
      | nr_order o => os ← open_orders seatIndex mark rest; Some (o :: os)
      end
  end.

(** [fetchOpenOrders]: [aggregate] is the API's answer, [None] when it failed. *)
Definition fetchOpenOrders (aggregate : option AggregateBookResponse) (seatIndex : Z) : OpenOrdersFetchResult :=
  match aggregate with
  | None => oo_unavailable OPEN_ORDERS_UNAVAILABLE_REASON
  | Some a =>
      if negb (ab_complete a) then oo_unavailable OPEN_ORDERS_UNAVAILABLE_REASON
      else match open_orders seatIndex (bigintField (Some (ab_oraclePrice a))) (ab_bids a ++ ab_asks a) with
      | Some orders => oo_ready orders (ab_asOfSlot a)
      | None => oo_unavailable OPEN_ORDERS_UNAVAILABLE_REASON
      end
  end.

Inductive OpenOrdersViewState :=
  | ov_loading | ov_unavailable (reason : string) | ov_error (message : string) | ov_empty | ov_ready (orders : list OpenOrderView) (stale : bool).

Definition classifyOpenOrdersResult (previous : OpenOrdersViewState) (result : option OpenOrdersFetchResult) (error : option string) : OpenOrdersViewState :=
  match result with
  | None =>
      match previous with
      | ov_ready orders _ => ov_ready orders true
      | _ => ov_error (default "Failed to load open orders" error)
      end
  | Some (oo_unavailable reason) => ov_unavailable reason
  | Some (oo_ready orders _) => match orders with [] => ov_empty | _ => ov_ready orders false end
  end.


(** ** Levels conserve the size of their leaves *)

(** The size of a list of contributions, and those at one price. *)
Definition depth (ls : list (Z * Z)) : Z := foldr (fun l s => snd l + s) 0 ls.
Definition at_price (p : Z) (ls : list (Z * Z)) : list (Z * Z) := filter (fun l => fst l = p) ls.

Lemma depth_app l k : depth (l ++ k) = depth l + depth k.
Proof. unfold depth. induction l as [|x l IH]; cbn; lia. Qed.

Lemma depth_perm l k : l ≡ₚ k -> depth l = depth k.
Proof. unfold depth. induction 1; cbn; lia. Qed.

Lemma depth_filter (P : Z * Z -> Prop) `{!forall l, Decision (P l)} ls :
  Forall (fun l => 0 <= snd l) ls -> 0 <= depth (filter P ls) <= depth ls.
Proof.
  unfold depth. induction 1 as [|l ls Hl _ IH]; [done|]. rewrite filter_cons. cbn. case_decide; cbn; lia.
Qed.

Lemma foldl_add_level ls p :
  Forall (fun l => 0 <= snd l) ls -> depth ls < 2 ^ 53 ->
  foldl add_level ∅ ls !! p = if decide (at_price p ls = []) then None else Some (depth (at_price p ls)).
Proof.
  induction ls as [|l ls IH] using rev_ind; [done|]. rewrite Forall_app, Forall_singleton, depth_app. cbn. intros [Hf Hl] Hd.
  pose proof (depth_filter (fun x => fst x = p) ls Hf) as Hp. fold (at_price p ls) in Hp.
  specialize (IH Hf ltac:(lia)). rewrite foldl_app. cbn [foldl]. unfold add_level at 1, at_price. rewrite list.filter_app. fold (at_price p ls).
  destruct (decide (fst l = p)) as [E|E].
  - subst p. rewrite lookup_insert_eq, filter_cons_True, filter_nil by done. rewrite decide_False by (by destruct (at_price _ _)).
    rewrite IH, depth_app. cbn. f_equal. unfold js_add.
    case_decide as Hn; [rewrite Hn in *|]; cbn [default from_option id] in *; rewrite to_number_small by (cbn in *; lia); cbn; lia.
  - rewrite lookup_insert_ne by done. rewrite filter_cons_False by done. by rewrite app_nil_r.
Qed.

Lemma level_of_size bid o now n l : level_of bid o now n = Some l -> 0 < snd l.
Proof.
  unfold level_of. repeat case_match; intros ?; simplify_eq; cbn;
    match goal with H : _ || (to_number _ <=? 0) = false |- _ => apply orb_false_iff in H as [_ ?] end; lia.
Qed.

Lemma levels_size bid o now ns : Forall (fun l => 0 <= snd l) (omap (level_of bid o now) ns).
Proof.
  apply list.Forall_forall. intros l (n & _ & Hl)%list_elem_of_omap. apply level_of_size in Hl. lia.
Qed.

(** The level map depends on the contributions as a multiset only. *)
Lemma level_map_perm bid o now ns ns' :
  omap (level_of bid o now) ns ≡ₚ omap (level_of bid o now) ns' -> depth (omap (level_of bid o now) ns) < 2 ^ 53 ->
  levelsFrom ns bid o now = levelsFrom ns' bid o now.
Proof.
  intros Hp Hd. unfold levelsFrom. do 3 f_equal. apply map_eq. intros p. unfold level_map.
  assert (depth (omap (level_of bid o now) ns') < 2 ^ 53) as Hd' by by rewrite <- (depth_perm _ _ Hp).
  rewrite !foldl_add_level by first [apply levels_size | assumption].
  assert (at_price p (omap (level_of bid o now) ns) ≡ₚ at_price p (omap (level_of bid o now) ns')) as Ha by (unfold at_price; by rewrite Hp).
  rewrite (depth_perm _ _ Ha). destruct (decide (at_price p (omap _ ns) = [])) as [E|E], (decide (at_price p (omap _ ns') = [])) as [E'|E']; try done.
  - rewrite E in Ha. by apply Permutation_nil_l in Ha.
  - rewrite E' in Ha. by apply Permutation_nil_r in Ha.
Qed.

Lemma better_total bid : Total (better bid).
Proof. intros a b. unfold better. destruct bid; lia. Qed.
Lemma better_trans bid : Transitive (better bid).
Proof. intros a b c. unfold better. destruct bid; lia. Qed.

(** A side of the book shows each price once, best price first, with the total
    size of the live leaves at that price, and shows every price some live leaf
    has; sizes are exact while the side's depth is below 2^53. *)
Theorem book_levels_spec bid o now ns :
  depth (omap (level_of bid o now) ns) < 2 ^ 53 ->
  let ls := omap (level_of bid o now) ns in
  StronglySorted (better bid) (levelsFrom ns bid o now)
  /\ NoDup (lv_price <$> levelsFrom ns bid o now)
  /\ (forall p s, mkLevel p s ∈ levelsFrom ns bid o now <-> at_price p ls ≠ [] /\ s = depth (at_price p ls)).
Proof.
  intros Hd ls. assert (Hperm : levelsFrom ns bid o now ≡ₚ (fun e => mkLevel (fst e) (snd e)) <$> map_to_list (level_map ns bid o now)) by apply merge_sort_Permutation.
  split_and!.
  - apply StronglySorted_merge_sort; [apply better_trans|apply better_total].
  - rewrite Hperm, <- list_fmap_compose. apply NoDup_fst_map_to_list.
  - intros p s. rewrite Hperm, list_elem_of_fmap. unfold level_map.
    assert (foldl add_level ∅ ls !! p = if decide (at_price p ls = []) then None else Some (depth (at_price p ls))) as Hl
      by (apply foldl_add_level; [apply levels_size|done]).
    split.
    + intros ([p' s'] & E & Hin%elem_of_map_to_list). cbn in E. simplify_eq. fold ls in Hin. rewrite Hl in Hin. by case_decide; simplify_eq.
    + intros [Hne ->]. exists (p, depth (at_price p ls)). split; [done|]. apply elem_of_map_to_list. fold ls. rewrite Hl. by rewrite decide_False.
Qed.

(** ** The API fallback agrees with the direct read *)

(** A leaf on one of the two sides that carries an expiry. *)
Definition plain (n : V3BookNodeState) : Prop :=
  match leaf n with Some l => (side l = 0 \/ side l = 1) /\ expiresAt l ≠ 0 | None => tag n ≠ 2 end.

(** The nodes of a book, labelled with their trees. *)
Definition labelled_nodes (base58 : list Z -> string) (pages : list (list Z)) : list V3BookNodeState :=
  match mapM (decodeV3BookPage base58) pages with Some ps => snd (annotateBookTrees ps) | None => [] end.

Definition fixed_nodes (int : Z -> Int) (st : list V3BookNodeState) : list AggregateNode := filter fixed_liquidity (raw_node int <$> st).

Lemma fixed_nodes_cons int n st :
  fixed_nodes int (n :: st) = if decide (tag n = 2 /\ tree n ≠ Some tree_pegged) then raw_node int n :: fixed_nodes int st else fixed_nodes int st.
Proof. unfold fixed_nodes. cbn [fmap list_fmap]. rewrite filter_cons. repeat case_decide; unfold fixed_liquidity in *; cbn in *; naive_solver. Qed.

(** Outside the pegged tree a text and a [bigint] reading of a leaf contribute the
    same, once the expiry is not 0. *)
Lemma level_of_reading bid now n :
  plain n -> tree n ≠ Some tree_pegged -> level_of bid 0 now (raw_node int_text n) = level_of bid 0 now (raw_node int_big n).
Proof.
  unfold plain, level_of. intros Hp Ht. cbn. destruct (leaf n) as [l|]; cbn; [|done]. rewrite !bool_decide_eq_false_2 by done. cbn.
  destruct (Z.eqb_spec (expiresAt l) 0); [tauto|]. cbn. destruct (tag n =? 2); [|done]. cbn. destruct (expiresAt l <=? now); [by repeat case_match|].
  destruct (Z.eqb_spec (quantity l) 0) as [->|]; cbn; [by rewrite orb_true_r|]. destruct (Z.eqb_spec (priceOrOffset l) 0) as [->|]; done.
Qed.

Lemma levels_reading bid now s st :
  Forall plain st ->
  omap (level_of bid 0 now) (filter (fun n => rn_side n = Some s) (fixed_nodes int_text st))
  = omap (level_of bid 0 now) (filter (fun n => rn_side n = Some s) (fixed_nodes int_big st)).
Proof.
  induction 1 as [|n st Hn _ IH]; [done|]. rewrite !fixed_nodes_cons. case_decide as Hf; [|done]. rewrite !filter_cons.
  cbn [raw_node rn_side]. case_decide; [|done]. cbn [omap list_omap]. rewrite level_of_reading by tauto. by rewrite IH.
Qed.

Lemma orders_reading now st :
  order_of <$> filter (still_resting now) (fixed_nodes int_text st) = order_of <$> filter (still_resting now) (fixed_nodes int_big st).
Proof.
  induction st as [|n st IH]; [done|]. rewrite !fixed_nodes_cons. case_decide; [|done]. rewrite !filter_cons.
  assert (order_of (raw_node int_text n) = order_of (raw_node int_big n)) as Ho by (unfold order_of; cbn; by destruct (leaf n)).
  assert (still_resting now (raw_node int_text n) <-> still_resting now (raw_node int_big n)) as Hs by (unfold still_resting; cbn; by destruct (leaf n)).
  repeat case_decide; try tauto. cbn. by rewrite Ho, IH.
Qed.

(** The two sides partition plain leaves. *)
Lemma sides_partition st :
  Forall plain st ->
  filter (leaf_side_is 0) (filter (fun n => tag n = 2) st) ++ filter (leaf_side_is 1) (filter (fun n => tag n = 2) st) ≡ₚ filter (fun n => tag n = 2) st.
Proof.
  induction 1 as [|n st Hn _ IH]; [done|]. rewrite (filter_cons _ n st). case_decide as Ht; [|done]. rewrite !filter_cons.
  assert ((leaf_side_is 0 n /\ ~ leaf_side_is 1 n) \/ (~ leaf_side_is 0 n /\ leaf_side_is 1 n)) as [[? ?]|[? ?]]
    by (unfold plain, leaf_side_is in *; destruct (leaf n) as [l|]; [lia|done]); repeat case_decide; try tauto.
  - cbn. by rewrite IH.
  - by rewrite <- Permutation_middle, IH.
Qed.

Lemma fixed_of_leaves int st : filter fixed_liquidity (raw_node int <$> filter (fun n => tag n = 2) st) = fixed_nodes int st.
Proof.
  induction st as [|n st IH]; [done|]. rewrite fixed_nodes_cons, filter_cons. case_decide as Ht; [|case_decide; [tauto|done]].
  cbn [fmap list_fmap]. rewrite filter_cons. rewrite <- IH. repeat case_decide; unfold fixed_liquidity in *; cbn in *; tauto.
Qed.

Lemma mapM_fmap_default {A B C} (f : A -> option B) (g : B -> list C) l k :
  mapM f l = Some k -> (fun b => match b ≫= f with Some s => g s | None => [] end) <$> (Some <$> l) = g <$> k.
Proof. intros H%mapM_Some_1. induction H as [|x y l k Hx _ IH]; [done|]. cbn. by rewrite Hx, IH. Qed.

Lemma mapM_present {A B} (f : A -> option B) l : mapM (fun b => b ≫= f) (Some <$> l) = mapM f l.
Proof. induction l as [|x l IH]; [done|]. cbn. by rewrite IH. Qed.

Lemma bind_concat {A B} (g : A -> list B) l : l ≫= g = concat (g <$> l).
Proof. induction l as [|x l IH]; [done|]. cbn. by rewrite IH. Qed.

Lemma aggregate_parts base58 cb pagesB seatsB eventsB addr slot now a :
  aggregateV3Market base58 cb pagesB seatsB eventsB addr slot now = Some a ->
  exists ps st,
    mapM (decodeV3BookPage base58) pagesB = Some ps /\ annotateBookTrees ps = (true, st)
    /\ mapM (decodeV3SeatShard base58) seatsB = Some (seatShards a) /\ mapM (decodeV3EventShard base58) eventsB = Some (eventShards a)
    /\ positions a = seatShards a ≫= ss_positions
    /\ bids a ≡ₚ filter (leaf_side_is 0) (filter (fun n => tag n = 2) st) /\ asks a ≡ₚ filter (leaf_side_is 1) (filter (fun n => tag n = 2) st).
Proof.
  unfold aggregateV3Market. intros (c & Hc & H)%bind_Some. apply bind_Some in H as (ps & Hp & H).
  apply bind_Some in H as (seats & Hs & H). apply bind_Some in H as (events & He & H). do 2 (case_match; [done|]).
  destruct (annotateBookTrees ps) as [[] st] eqn:Ea; [|done]. cbn in H. simplify_eq/=. exists ps, st.
  split_and!; try done; apply sort_by_key_perm.
Qed.

Lemma plain_complete st : Forall plain st -> existsb incomplete (fixed_nodes int_text st) = false.
Proof.
  induction 1 as [|n st Hn _ IH]; [done|]. rewrite fixed_nodes_cons. case_decide as Hf; [|done]. cbn [existsb]. rewrite IH, orb_false_r.
  unfold plain, incomplete in *. cbn. destruct (leaf n); [done|tauto].
Qed.

Lemma existsb_perm {A} (f : A -> bool) l k : l ≡ₚ k -> existsb f l = existsb f k.
Proof. induction 1; cbn; try congruence. destruct (f y), (f x); done. Qed.

Lemma depth_side bid now s st :
  depth (omap (level_of bid 0 now) (raw_node int_big <$> st)) < 2 ^ 53 ->
  depth (omap (level_of bid 0 now) (filter (fun n => rn_side n = Some s) (fixed_nodes int_big st))) < 2 ^ 53.
Proof.
  intros H. enough (depth (omap (level_of bid 0 now) (filter (fun n => rn_side n = Some s) (fixed_nodes int_big st)))
    <= depth (omap (level_of bid 0 now) (raw_node int_big <$> st))) by lia. clear H.
  induction st as [|n st IH]; [done|]. rewrite fixed_nodes_cons. cbn [fmap list_fmap].
  pose proof (level_of_size bid 0 now (raw_node int_big n)) as Hs. unfold depth in *.
  repeat case_decide; rewrite ?filter_cons; repeat case_decide; cbn [omap list_omap];
    destruct (level_of bid 0 now (raw_node int_big n)) as [l|]; cbn; try lia; specialize (Hs l eq_refl); lia.
Qed.

(** The fallback's leaves are the direct read's, up to order and reading. *)
Lemma aggregate_leaves st b k :
  Forall plain st ->
  b ≡ₚ filter (leaf_side_is 0) (filter (fun n => tag n = 2) st) -> k ≡ₚ filter (leaf_side_is 1) (filter (fun n => tag n = 2) st) ->
  filter fixed_liquidity ((raw_node int_text <$> b) ++ (raw_node int_text <$> k)) ≡ₚ fixed_nodes int_text st.
Proof. intros Hp Hb Hk. rewrite <- fmap_app, Hb, Hk, (sides_partition _ Hp). by rewrite fixed_of_leaves. Qed.

(** C38. The market API's fallback shows the book the accounts hold.  When the worker
    could aggregate the market's accounts, its answer is complete and from the
    domain the browser asked for, then decoding the same bytes in the browser
    and reading the worker's JSON give the same bids and asks, the same
    fills, the same seats, and the same resting orders up to their order; for
    leaves on one of the two sides with a non-zero expiry, and a depth below 2^53. *)
Theorem fallback_agrees base58 cb pagesB seatsB eventsB addr slot now a (er : bool) :
  aggregateV3Market base58 cb pagesB seatsB eventsB addr slot now = Some a ->
  completeExecutionState a = true ->
  (let d := core_delegationStatus (core a) in if er then d = 1 \/ d = 2 else d = 0 \/ d = 3) ->
  Forall plain (labelled_nodes base58 pagesB) ->
  (forall bid, depth (omap (level_of bid 0 now) (raw_node int_big <$> labelled_nodes base58 pagesB)) < 2 ^ 53) ->
  exists direct fallback,
    decodeBundle base58 (Some <$> pagesB) (Some <$> seatsB) (Some <$> eventsB) now = Some direct
    /\ bookFromAggregate (aggregate_json a) er now = Some fallback
    /\ bv_bids fallback = bv_bids direct /\ bv_asks fallback = bv_asks direct
    /\ bv_trades fallback = bv_trades direct /\ bv_positions fallback = bv_positions direct
    /\ bv_orders fallback ≡ₚ bv_orders direct.
Proof.
  intros (ps & st & Hps & Hann & Hseats & Hevents & Hpos & Hb & Hk)%aggregate_parts Hcomplete Hd Hplain Hdepth.
  unfold labelled_nodes in *. rewrite Hps, Hann in *. cbn [snd] in *.
  pose proof (aggregate_leaves _ _ _ Hplain Hb Hk) as Hleaves.
  unfold decodeBundle, bookFromAggregate, aggregate_json. cbn [ab_complete ab_delegationStatus ab_bids ab_asks ab_positions ab_eventShards].
  rewrite mapM_present, Hps. cbn [mbind option_bind]. rewrite Hann, Hcomplete. cbn [negb orb].
  rewrite (existsb_perm _ _ _ Hleaves), plain_complete by done.
  destruct (if er then _ else _) eqn:E; [|exfalso; destruct er; apply orb_false_iff in E; lia]. cbn [negb].
  do 2 eexists. split; [reflexivity|]. split; [reflexivity|]. cbn.
  assert (forall bid s, levelsFrom (filter (fun n => rn_side n = Some s) (filter fixed_liquidity ((raw_node int_text <$> bids a) ++ (raw_node int_text <$> asks a)))) bid 0 now
    = levelsFrom (filter (fun n => rn_side n = Some s) (fixed_nodes int_big st)) bid 0 now) as Hl.
  { intros bid s. symmetry. apply level_map_perm; [|by apply depth_side]. rewrite <- levels_reading by done. by rewrite Hleaves. }
  split_and!; [apply Hl|apply Hl| | |].
  - by rewrite (mapM_fmap_default _ es_records _ _ Hevents).
  - by rewrite (mapM_fmap_default _ ss_positions _ _ Hseats), Hpos, bind_concat.
  - rewrite Hleaves, orders_reading. done.
Qed.

(** A complete book: one bid of 7 at 950 in the first page of its side (expiry
    [expiry]), one fill of 3 at 940, no seats. *)
Definition sample_leaf_bytes (expiry : Z) : list Z :=
  [2; 0; 0; 0] ++ le_split 4 11 ++ le_split 8 1 ++ le_split 8 (2 ^ 64 - 1 - 950) ++ le_split 8 7 ++ le_split 8 expiry ++ replicate 16 0 ++ le_split 8 950
  ++ replicate 24 0.
Definition sample_page (s p root : Z) (nodes : list Z) : list Z :=
  STKBK003 ++ [3; 0; s; p] ++ replicate 32 0 ++ le_split 4 root ++ le_split 4 NONE_HANDLE ++ replicate 8 0 ++ le_split 4 (if root =? 0 then 1 else 0)
  ++ nodes ++ replicate (Z.to_nat 10120 - length nodes) 0.
Definition sample_pagesB (expiry : Z) : list (list Z) :=
  sample_page 0 0 0 (sample_leaf_bytes expiry) :: ((fun p => sample_page 0 p NONE_HANDLE []) <$> [1; 2; 3; 4; 5; 6; 7; 8])
  ++ ((fun p => sample_page 1 p NONE_HANDLE []) <$> [0; 1; 2; 3; 4; 5; 6; 7; 8]).
Definition sample_seatsB : list (list Z) := (fun i => STKST003 ++ [3; 0; i; 0] ++ replicate (Z.to_nat 8224) 0) <$> [0; 1; 2; 3].
Definition sample_fill_bytes : list Z :=
  [203; 0; 0; 0] ++ le_split 8 5 ++ replicate 32 0 ++ le_split 8 77 ++ le_split 4 11 ++ le_split 4 12 ++ le_split 8 940 ++ le_split 8 3 ++ replicate 24 0.
Definition sample_eventsB : list (list Z) := (fun i => STKEV003 ++ [3; 0; i; 0] ++ replicate 32 0 ++ (if i =? 0 then sample_fill_bytes else replicate 100 0) ++ replicate 3100 0) <$> [0; 1; 2; 3].

Lemma fallback_agrees_witness :
  exists a direct,
    aggregateV3Market (fun _ => "core") sample_core_bytes (sample_pagesB 100) sample_seatsB sample_eventsB "core" (Some 7) 50 = Some a
    /\ decodeBundle (fun _ => "core") (Some <$> sample_pagesB 100) (Some <$> sample_seatsB) (Some <$> sample_eventsB) 50 = Some direct
    /\ (bv_bids direct, bv_trades direct) = ([mkLevel 950 7], [mkTrade 5 940 3 11 12 77])
    /\ bv_bids <$> bookFromAggregate (aggregate_json a) false 50 = Some (bv_bids direct).
Proof.
  assert (Hc : (fun a => (completeExecutionState a, core_delegationStatus (core a)))
    <$> aggregateV3Market (fun _ => "core") sample_core_bytes (sample_pagesB 100) sample_seatsB sample_eventsB "core" (Some 7) 50 = Some (true, 0)) by (vm_compute; reflexivity).
  destruct (aggregateV3Market (fun _ => "core") sample_core_bytes (sample_pagesB 100) sample_seatsB sample_eventsB "core" (Some 7) 50) as [a|] eqn:E; [|discriminate Hc].
  injection Hc as Hc Hd.
  assert (Hn : labelled_nodes (fun _ => "core") (sample_pagesB 100)
    = [mkNode 0 2 (Z.lor (Z.shiftl (2 ^ 64 - 1 - 950) 64) 1) (Some (mkLeaf 0 11 7 100 0 0 950 0 0 false false)) (Some tree_fixed)]) by (vm_compute; reflexivity).
  destruct (fallback_agrees (fun _ => "core") sample_core_bytes (sample_pagesB 100) sample_seatsB sample_eventsB "core" (Some 7) 50 a false E Hc)
    as (direct & fallback & H1 & H2 & H3 & _).
  - left. exact Hd.
  - rewrite Hn. vm_compute. repeat constructor. discriminate.
  - rewrite Hn. intros []; vm_compute; reflexivity.
  - exists a, direct. rewrite H2. split_and!; [reflexivity|exact H1| |cbn; by rewrite H3].
    assert ((fun b => (bv_bids b, bv_trades b)) <$> decodeBundle (fun _ => "core") (Some <$> sample_pagesB 100) (Some <$> sample_seatsB) (Some <$> sample_eventsB) 50
      = Some ([mkLevel 950 7], [mkTrade 5 940 3 11 12 77])) as Hb by (vm_compute; reflexivity).
    rewrite H1 in Hb. by injection Hb as -> ->.
Defined.

(** A leaf with expiry 0 is shown by the direct read, as a [bigint], and hidden by the
    fallback, as text. *)
Theorem zero_expiry_divergence :
  let leaf0 := mkNode 0 2 1 (Some (mkLeaf 0 11 7 0 0 0 950 0 0 false false)) (Some tree_fixed) in
  levelsFrom (fixed_nodes int_big [leaf0]) true 0 50 = [mkLevel 950 7] /\ levelsFrom (fixed_nodes int_text [leaf0]) true 0 50 = [].
Proof. split; vm_compute; reflexivity. Qed.
