(* ===== verification/BrowserCustody.v ===== *)
(** * Deposits and withdrawals from the browser

    lib/oracle-freshness.ts, lib/execution-boundary.ts, lib/protocol-service.ts and
    the collateral flows of features/collateral (rollup-deposit.ts,
    use-deposit.ts, use-withdraw.ts).  Every call that leaves the browser is an
    act appended to a trace; what it answers, and the clock, are functions of the
    trace so far, so the theorems hold for every behaviour of the wallet, the
    RPC endpoints, the market API and the user's patience.  The instruction
    builders are those of ClientInstructions; SPL token builders are parameters. *)

From S2P Require Import Prelude Bytes ExecutionStatus ClientInstructions BrowserRpc.

(** ** Acts and the world *)

(** What the status line says. *)
Inductive Notice :=
  | n_blocked (reason : string) | n_step (text : string) | n_deposited (amount : Z) | n_withdrew (amount : Z) (toOwner : bool)
  | n_receipt (instruction : string) (finalized : bool) (signature : string) (balances : list (option Z)) | n_not_completed (flow : string) (e : RpcError)
  | n_failed (instruction : string) (e : RpcError).

Inductive Act :=
  | a_publish_time | a_refresh | a_sequence | a_sleep (ms : Z)
  | a_blockhash (writable : list string) | a_encode (ixs : list TransactionInstruction) (blockhash : option string)
  | a_sign (bytes : list Z) | a_simulate (bytes : list Z) | a_submit_l1 (bytes : list Z) | a_confirm (signature : string)
  | a_submit_er (bytes : list Z) (kind : string)
  | a_shard (address : string) | a_balance (address : string) | a_seat (address : string)
  | a_record (instruction signature : string) | a_notice (n : Notice) | a_refresh_balances
  | a_sol_balance (address : string) | a_sign_message (bytes : list Z) | a_faucet (wallet : string)
  | a_aggregate (core : string) | a_account (address : string).

(** The refresh endpoint's body: [rb_sequence] is [None] when the field is absent or
    empty, and otherwise what [BigInt] makes of it. *)
Record RefreshBody := mkRefreshBody { rb_status : option string; rb_sequence : option (result Z); rb_reason : option string }.
Record RefreshResponse := mkRefreshResponse { rf_ok : bool; rf_status : Z; rf_body : option RefreshBody }.

Definition answer (A : Type) : Type := (A + RpcError)%type.

Record World := mkWorld {
  w_now : list Act -> Z;
  w_publish_time : option (list Act -> answer (option Z));
  w_refresh : list Act -> answer RefreshResponse;
  w_sequence : list Act -> answer (option Z);
  w_blockhash : list Act -> list string -> answer string;
  w_encode : list Act -> list TransactionInstruction -> option string -> answer (list Z);
  w_sign : list Act -> list Z -> answer (list Z);
  w_simulate : list Act -> list Z -> answer Z;
  w_submit_l1 : list Act -> list Z -> answer string;
  w_confirm : list Act -> string -> answer bool;
  w_submit_er : list Act -> list Z -> string -> answer (Z * option string);
  w_shard : list Act -> string -> answer (option (list Z));
  w_balance : list Act -> string -> answer Z;
  w_seat : list Act -> string -> answer (option Z) }.

(** [lastRead] of the freshness closure, and the hook's [pending]. *)
Record St := mkSt { trace : list Act; lastRead : option (option Z * Z); pending : bool }.

(** A computation ends with a value, an exception, or out of fuel. *)
Inductive Failure := failed (e : RpcError) | out_of_fuel.
Definition io (A : Type) : Type := St -> St * (A + Failure).

Definition io_ret {A} (a : A) : io A := fun s => (s, inl a).
Definition io_throw {A} (message : string) : io A := fun s => (s, inr (failed (JsError message))).
Definition io_bind {A B} (m : io A) (f : A -> io B) : io B :=
  fun s => let '(s', r) := m s in match r with inl a => f a s' | inr e => (s', inr e) end.
(** [m.catch(h)] *)
Definition io_catch {A} (m : io A) (h : RpcError -> io A) : io A :=
  fun s => let '(s', r) := m s in match r with inr (failed e) => h e s' | _ => (s', r) end.
(** [try { m } finally { k }] *)
Definition io_finally {A} (m : io A) (k : io unit) : io A :=
  fun s => let '(s', r) := m s in match r with inr out_of_fuel => (s', r) | _ => (fst (k s'), r) end.
(** [Promise.all([m, k])]: both run; the first failure is the outcome. *)
Definition io_both {A B} (m : io A) (k : io B) : io A :=
  fun s => let '(s1, r1) := m s in let '(s2, r2) := k s1 in
    (s2, match r1, r2 with inr e, _ => inr e | _, inr e => inr e | inl a, inl _ => inl a end).

Declare Scope io_scope.
Delimit Scope io_scope with io.
Notation "x <- m ; k" := (io_bind m (fun x => k)) (at level 100, m at next level, right associativity) : io_scope.
#[local] Open Scope io_scope.

Definition act (a : Act) : io unit := fun s => (mkSt (trace s ++ [a]) (lastRead s) (pending s), inl tt).
Definition call {A} (f : list Act -> answer A) (a : Act) : io A :=
  fun s => (mkSt (trace s ++ [a]) (lastRead s) (pending s), match f (trace s) with inl x => inl x | inr e => inr (failed e) end).
Definition io_result {A} (r : result A) : io A := match r with Ok a => io_ret a | Throw e => io_throw e end.
Definition notice (n : Notice) : io unit := act (a_notice n).
Definition set_lastRead (r : option (option Z * Z)) : io unit := fun s => (mkSt (trace s) r (pending s), inl tt).
Definition setPending (b : bool) : io unit := fun s => (mkSt (trace s) (lastRead s) b, inl tt).

Section Flows.
Context (w : World).

Definition clock : io Z := fun s => (s, inl (w_now w (trace s))).

(** ** oracle-freshness.ts *)

Definition ER_FAST_PATH_MAX_AGE_S : Z := 7.
Definition PUBLISH_READ_REUSE_MS : Z := 1500.
Definition ER_FALLBACK_MAX_AGE_S : Z := 8.

Record FreshOptions := mkFreshOptions { refreshable : bool; erTimeoutMs : Z }.

Definition read_publish_time : io (option Z) :=
  published <- match w_publish_time w with
               | None => io_ret None
               | Some read => io_catch (call read a_publish_time) (fun _ => io_ret None)
               end;
  at_ <- clock; _ <- set_lastRead (Some (published, at_)); io_ret published.

Definition readPublished : io (option Z) :=
  fun s => match lastRead s with
  | Some (published, at_) => if w_now w (trace s) - at_ <? PUBLISH_READ_REUSE_MS then (s, inl published) else read_publish_time s
  | None => read_publish_time s
  end.

Definition refresh : io Z :=
  response <- call (w_refresh w) a_refresh;
  let reason := match rf_body response ≫= rb_reason with Some r => r | None => ("HTTP " +:+ pretty (rf_status response)) end in
  match rf_ok response, rf_body response ≫= rb_sequence with
  | true, Some sequence =>
      if bool_decide (rf_body response ≫= rb_status = Some "fresh") || bool_decide (rf_body response ≫= rb_status = Some "refreshed")
      then io_result sequence
      else io_throw ("Could not refresh the TSLA price: " +:+ reason)
  | _, _ => io_throw ("Could not refresh the TSLA price: " +:+ reason)
  end.

Definition fresh_l1 : io unit := _ <- refresh; io_ret tt.

(** [clock() / 1000 - Number(published) <= seconds] *)
Definition age_at_most (now published seconds : Z) : bool := now <=? 1000 * (to_number published + seconds).
Definition aged (now : Z) (published : option Z) (seconds : Z) : bool :=
  match published with Some p => age_at_most now p seconds | None => false end.

(** The loop over [attempts]: [n] are left. *)
Fixpoint wait_sequence (n : nat) (sequence : Z) : io unit :=
  match n with
  | O => io_throw "MagicBlock has not received the fresh price yet; try again."
  | S n =>
      seen <- io_catch (call (w_sequence w) a_sequence) (fun _ => io_ret None);
      if match seen with Some q => sequence <=? q | None => false end then io_ret tt
      else (_ <- act (a_sleep 200); wait_sequence n sequence)
  end.

(** [Math.ceil(erTimeoutMs / 200)] *)
Definition attempts_of (o : FreshOptions) : nat := Z.to_nat ((erTimeoutMs o + 199) / 200).

Definition fresh_er (o : FreshOptions) : io unit :=
  published <- readPublished;
  now <- clock;
  if aged now published ER_FAST_PATH_MAX_AGE_S then io_ret tt
  else if negb (refreshable o) then
    (if aged now published ER_FALLBACK_MAX_AGE_S then io_ret tt
     else io_throw "This market's price is stale (its price reporter is behind); try again in a few seconds.")
  else
    (_ <- set_lastRead None;
     fun s =>
       let '(s1, r) := refresh s in
       match r with
       | inr (failed e) => if aged now published ER_FALLBACK_MAX_AGE_S then (s1, inl tt) else (s1, inr (failed e))
       | inr out_of_fuel => (s1, inr out_of_fuel)
       | inl sequence => wait_sequence (attempts_of o) sequence s1
       end).

(** [warm]: the read it starts runs in the background. *)
Definition fresh_warm : io unit :=
  fun s =>
    let stale := match lastRead s with Some (_, at_) => PUBLISH_READ_REUSE_MS / 2 <=? w_now w (trace s) - at_ | None => true end in
    if stale then (_ <- set_lastRead None; _ <- readPublished; io_ret tt) s else (s, inl tt).

(** ** execution-boundary.ts *)

(** [executeL1]: the signature and whether it is finalized. *)
Definition executeL1 (bytes : list Z) (ensureFreshOracle : option (io unit)) : io (string * bool) :=
  let fresh := default (io_ret tt) ensureFreshOracle in
  _ <- fresh;
  _ <- call (fun t => w_simulate w t bytes) (a_simulate bytes);
  signed <- call (fun t => w_sign w t bytes) (a_sign bytes);
  _ <- fresh;
  signature <- call (fun t => w_submit_l1 w t signed) (a_submit_l1 signed);
  finalized <- call (fun t => w_confirm w t signature) (a_confirm signature);
  io_ret (signature, finalized).

Definition submitEr (bytes : list Z) (kind : string) : io (Z * option string) := call (fun t => w_submit_er w t bytes kind) (a_submit_er bytes kind).

(** ** protocol-service.ts *)

(** [transport.freshOracle] *)
Context (freshOracle : option FreshOptions).

Definition service_executeL1 (ixs : list TransactionInstruction) (fresh : bool) : io (string * bool) :=
  bytes <- call (fun t => w_encode w t ixs None) (a_encode ixs None);
  executeL1 bytes (if fresh then (fun _ => fresh_l1) <$> freshOracle else None).

Definition service_refresh (bestEffort : bool) : io unit :=
  match freshOracle with
  | None => io_ret tt
  | Some o => if bestEffort then io_catch (fresh_er o) (fun _ => io_ret tt) else fresh_er o
  end.

Definition executeEr (kind : string) (ixs : list TransactionInstruction) (writable : list string) (bestEffort : bool) : io (Z * option string) :=
  blockhash <- io_both (call (fun t => w_blockhash w t writable) (a_blockhash writable)) (service_refresh bestEffort);
  bytes <- call (fun t => w_encode w t ixs (Some blockhash)) (a_encode ixs (Some blockhash));
  signingStarted <- clock;
  signed <- call (fun t => w_sign w t bytes) (a_sign bytes);
  signedAt <- clock;
  _ <- (if 2000 <? signedAt - signingStarted then service_refresh bestEffort else io_ret tt);
  submitEr signed kind.

(** ** features/collateral *)

(** The SPL token and compute-budget builders, and [deployment.magicBlock.validator]. *)
Context (web3 : Web3).
Record Spl := mkSpl {
  setComputeUnitLimit : Z -> TransactionInstruction;
  getAssociatedTokenAddressSync : PublicKey -> PublicKey -> PublicKey -> PublicKey;
  createAssociatedTokenAccountIdempotentInstruction : PublicKey -> PublicKey -> PublicKey -> PublicKey -> PublicKey -> TransactionInstruction;
  createTransferCheckedInstruction : PublicKey -> PublicKey -> PublicKey -> PublicKey -> Z -> Z -> PublicKey -> TransactionInstruction;
  magicBlock_validator : AddressInput }.
Context (spl : Spl).

Record V3WithdrawAccounts := mkWithdrawAccounts {
  wa_execution : V3ExecutionAccounts; wa_destination : AddressInput; wa_mint : AddressInput; wa_vault : AddressInput; wa_vaultAuthority : AddressInput;
  wa_tokenProgram : AddressInput }.

Record ResolvedCustodyAccounts := mkResolved { rc_legacy : CustodyAccounts; rc_seatIndex : Z; rc_v3 : option (V3DepositAccounts * V3WithdrawAccounts) }.

(** [String(address)] *)
Definition address_string (a : AddressInput) : string := match a with addr_key k => toBase58 web3 k | addr_text s => s end.

(** rollup-deposit.ts: the claim, [n] retries left. *)
Fixpoint claim_attempts (n : nat) (claim : TransactionInstruction) (writable : list string) : io unit :=
  fun s =>
    let '(s1, r) := executeEr "ClaimInboxDepositV3" [claim] writable false s in
    match r with
    | inl _ => (s1, inl tt)
    | inr (failed e) =>
        match n with
        | O => (s1, inr (failed e))
        | S n => (_ <- act (a_sleep 2000); claim_attempts n claim writable) s1
        end
    | inr out_of_fuel => (s1, inr out_of_fuel)
    end.

Definition rollupDeposit (accounts : ResolvedCustodyAccounts) (amount : Z) : io unit :=
  match rc_v3 accounts with
  | None => io_throw "not a V3 market"
  | Some (d, _) =>
      _ <- notice (n_step "Step 1/2 · Depositing into the vault on Solana…");
      inbox <- io_result (depositToInboxV3 web3 (da_core d) (da_authority d) (da_source d) (da_vault d) (da_mint d) (da_tokenProgram d) (BigInt amount));
      result <- service_executeL1 [inbox] false;
      _ <- act (a_record "DepositToInboxV3" (fst result));
      _ <- notice (n_step "Step 2/2 · Crediting your margin account in the MagicBlock rollup…");
      claim <- io_result (claimInboxDepositV3 web3 (da_core d) (da_seatShard d) (da_eventShards d) (da_authority d) (Num (rc_seatIndex accounts)));
      claim_attempts 3 claim (address_string <$> da_core d :: da_seatShard d :: da_eventShards d)
  end.

(** [p.catch(() => null)] of a read-back. *)
Definition readback {A} (m : io A) : io (option A) := io_catch (x <- m; io_ret (Some x)) (fun _ => io_ret None).

Definition done_pending : io unit := _ <- setPending false; act a_refresh_balances.

(** use-deposit.ts; [connected] is whether there is a protocol. *)
Definition submitDeposit (connected : bool) (accounts : ResolvedCustodyAccounts) (amount : Z) (inRollup : bool) : io unit :=
  if negb connected then notice (n_blocked "connect a wallet capable of signing on Devnet.")
  else if amount <=? 0 then notice (n_blocked "enter a positive amount.")
  else match inRollup, rc_v3 accounts with
  | true, Some _ =>
      _ <- setPending true;
      io_finally
        (io_catch (_ <- rollupDeposit accounts amount; notice (n_deposited amount)) (fun e => notice (n_not_completed "Deposit" e)))
        done_pending
  | _, _ =>
      instruction <- io_result (match rc_v3 accounts with
                                | Some (d, _) => depositCollateralV3 web3 d (Num (rc_seatIndex accounts)) (BigInt amount)
                                | None => depositCollateral web3 (rc_legacy accounts) (BigInt amount)
                                end);
      _ <- setPending true;
      _ <- notice (n_step "Simulating DepositCollateral");
      io_finally
        (io_catch
          (result <- service_executeL1 [instruction] true;
           _ <- act (a_record "DepositCollateral" (fst result));
           vaultBalance <- readback (let a := address_string (cu_vault (rc_legacy accounts)) in call (fun t => w_balance w t a) (a_balance a));
           notice (n_receipt "DepositCollateral" (snd result) (fst result) [vaultBalance]))
          (fun e => notice (n_failed "DepositCollateral" e)))
        done_pending
  end.

(** use-withdraw.ts *)

Definition RECONCILIATION_SAFE_STATUS : Z := 0.

(** [WithdrawGate]: [None] when allowed, the reason otherwise. *)
Definition evaluateWithdrawGate (execution : option ExecutionDisplayState) (reconciliationStatus : option Z) : option string :=
  match execution with
  | None => Some "Execution status unavailable"
  | Some e =>
      if degraded e then Some "Execution status reconciliation error"
      else if negb (withdrawalSafe e) then Some "Market is delegating, delegated, committing, undelegating, or awaiting restoration"
      else match reconciliationStatus with
           | Some r => if negb (r =? RECONCILIATION_SAFE_STATUS) then Some "Vault reconciliation is not confirmed" else None
           | None => None
           end
  end.

(** The total requested so far, from the seat's bytes on Solana; the account is a whole
    shard, so the field is inside it. *)
Definition requestedOnL1 (seatShard : option AddressInput) (seatIndex : Z) : io Z :=
  match seatShard with
  | None => io_throw "Invalid public key input"
  | Some a =>
      bytes <- (let s := address_string a in call (fun t => w_shard w t s) (a_shard s));
      match bytes with
      | None => io_throw "seat shard not found on Solana"
      | Some bs => io_result (getBigUint64 bs (44 + (seatIndex mod 32) * 256 + 192))
      end
  end.

(** [while (requested < target) { if (now > deadline) throw; sleep }], with fuel. *)
Fixpoint wait_commit (fuel : nat) (seatShard : option AddressInput) (seatIndex target deadline : Z) : io unit :=
  match fuel with
  | O => fun s => (s, inr out_of_fuel)
  | S fuel =>
      requested <- io_catch (requestedOnL1 seatShard seatIndex) (fun _ => io_ret 0);
      if target <=? requested then io_ret tt
      else
        now <- clock;
        if deadline <? now then io_throw "the rollup commit has not reached Solana yet — press Withdraw again later to collect it"
        else (_ <- act (a_sleep 750); wait_commit fuel seatShard seatIndex target deadline)
  end.

(** 45 s in pauses of 750 ms (see [wait_commit_ends]). *)
Definition commit_fuel : nat := 62.

Definition public_key (s : string) : result PublicKey := match new_PublicKey web3 s with Some k => Ok k | None => Throw "Invalid public key input" end.
Definition missing_account {A} : result A := Throw "Invalid public key input".

Definition payout_instructions (a : V3WithdrawAccounts) (amount : Z) (payoutOwner : option string) : result (list TransactionInstruction) :=
  match payoutOwner with
  | None => Ok []
  | Some owner =>
      if bool_decide (owner = "") then Ok []
      else
        mint ← public_key (address_string (wa_mint a)); tokenProgram ← public_key (address_string (wa_tokenProgram a));
        trader ← public_key (address_string (authority (wa_execution a)));
        ownerKey ← public_key owner;
        let payout := getAssociatedTokenAddressSync spl mint ownerKey tokenProgram in
        destination ← public_key (address_string (wa_destination a));
        Ok [createAssociatedTokenAccountIdempotentInstruction spl trader payout ownerKey mint tokenProgram;
            createTransferCheckedInstruction spl destination mint payout trader amount 6 tokenProgram]
  end.

Definition withdraw_request (a : V3WithdrawAccounts) (seatShard : option AddressInput) (snapshot : AddressInput) (seatIndex amount : Z)
    : result (list TransactionInstruction) :=
  feeVault ← deriveMagicFeeVault web3 (magicBlock_validator spl);
  match seatShard with
  | None => missing_account
  | Some shard =>
      let e := wa_execution a in
      ix ← requestWithdrawalV3 web3 (core e) shard (eventShards e) (authority e) snapshot (Some (addr_key feeVault)) (Num seatIndex) (BigInt amount);
      Ok [setComputeUnitLimit spl 600000; ix]
  end.

Definition withdraw_claim (a : V3WithdrawAccounts) (seatShard : option AddressInput) (seatIndex amount : Z) (payoutOwner : option string)
    : result (list TransactionInstruction) :=
  match seatShard with
  | None => missing_account
  | Some shard =>
      let e := wa_execution a in
      claim ← claimWithdrawalV3 web3 (core e) shard (authority e) (wa_destination a) (wa_vault a) (wa_vaultAuthority a) (wa_mint a) (wa_tokenProgram a) (Num seatIndex);
      more ← payout_instructions a amount payoutOwner;
      Ok (claim :: more)
  end.

(** The try block of the rollup branch. *)
Definition rollup_withdraw (a : V3WithdrawAccounts) (seatShard : option AddressInput) (snapshot : AddressInput) (seatIndex amount : Z)
    (payoutOwner : option string) : io unit :=
  before <- requestedOnL1 seatShard seatIndex;
  let target := before + amount in
  _ <- notice (n_step "Step 1/2 · Requesting the withdrawal in the MagicBlock rollup…");
  request <- io_result (withdraw_request a seatShard snapshot seatIndex amount);
  _ <- executeEr "RequestWithdrawalV3" request (address_string <$> core (wa_execution a) :: option_list seatShard ++ eventShards (wa_execution a)) true;
  _ <- notice (n_step "Step 2/2 · Waiting for the rollup commit on Solana…");
  now <- clock;
  _ <- wait_commit commit_fuel seatShard seatIndex target (now + 45000);
  _ <- notice (n_step "Step 2/2 · Paying out from the vault on Solana…");
  claim <- io_result (withdraw_claim a seatShard seatIndex amount payoutOwner);
  result <- service_executeL1 claim false;
  _ <- act (a_record "ClaimWithdrawalV3" (fst result));
  notice (n_withdrew amount (match payoutOwner with Some o => negb (bool_decide (o = "")) | None => false end)).

(** [seat] is the free collateral of the caller's seat, when known. *)
Definition submitWithdraw (connected : bool) (accounts : ResolvedCustodyAccounts) (amount : Z) (gate : option string) (seat : option Z)
    (inRollup : bool) (payoutOwner : option string) : io unit :=
  let exceeds := match seat with Some available => available <? amount | None => false end in
  let shard a := seatShards (wa_execution a) !! Z.to_nat (rc_seatIndex accounts / 32) in
  if negb connected then notice (n_blocked "connect a wallet capable of signing on Devnet.")
  else match inRollup, rc_v3 accounts with
  | true, Some (_, a) =>
      if amount <=? 0 then notice (n_blocked "enter a positive amount.")
      else if exceeds then notice (n_blocked "amount exceeds your free collateral.")
      else match given (oracleSnapshot (wa_execution a)) with
      | None => notice (n_blocked "no oracle snapshot configured.")
      | Some snapshot =>
          _ <- setPending true;
          io_finally
            (io_catch (rollup_withdraw a (shard a) snapshot (rc_seatIndex accounts) amount payoutOwner) (fun e => notice (n_not_completed "Withdraw" e)))
            done_pending
      end
  | _, v3 =>
      match gate with
      | Some reason => notice (n_blocked reason)
      | None =>
          if amount <=? 0 then notice (n_blocked "enter a positive amount.")
          else if exceeds then notice (n_blocked "amount exceeds available collateral")
          else
            instruction <- io_result (match v3 with
              | Some (_, a) => withdrawCollateralV3 web3 (wa_execution a) (wa_destination a) (wa_mint a) (wa_vault a) (wa_vaultAuthority a) (wa_tokenProgram a)
                                 (Num (rc_seatIndex accounts)) (BigInt amount)
              | None => withdrawCollateral web3 (rc_legacy accounts) (BigInt amount)
              end);
            _ <- setPending true;
            _ <- notice (n_step "Simulating WithdrawCollateral");
            io_finally
              (io_catch
                (result <- service_executeL1 [instruction] true;
                 _ <- act (a_record "WithdrawCollateral" (fst result));
                 vaultBalance <- readback (let x := address_string (cu_vault (rc_legacy accounts)) in call (fun t => w_balance w t x) (a_balance x));
                 destinationBalance <- readback (let x := address_string (cu_sourceOrDestination (rc_legacy accounts)) in call (fun t => w_balance w t x) (a_balance x));
                 collateral <- readback (let x := match v3 with Some (_, a) => from_option address_string "undefined" (shard a) | None => address_string (cu_market (rc_legacy accounts)) end
                                         in call (fun t => w_seat w t x) (a_seat x));
                 notice (n_receipt "WithdrawCollateral" (snd result) (fst result) [vaultBalance; destinationBalance; mjoin collateral]))
                (fun e => notice (n_failed "WithdrawCollateral" e)))
              done_pending
      end
  end.
End Flows.

(** ** Calm computations: no transaction leaves the browser *)

Definition quiet (a : Act) : Prop := match a with a_submit_l1 _ | a_submit_er _ _ => False | _ => True end.
#[export] Instance quiet_dec a : Decision (quiet a).
Proof. destruct a; apply _. Defined.

(** The transactions of a trace. *)
Definition submissions (t : list Act) : list Act := filter (fun a => ~ quiet a) t.

Lemma submissions_quiet d : Forall quiet d -> submissions d = [].
Proof. induction 1 as [|a d Ha _ IH]; [done|]. unfold submissions. rewrite filter_cons_False by tauto. exact IH. Qed.
Lemma submissions_app d k : submissions (d ++ k) = submissions d ++ submissions k.
Proof. apply list.filter_app. Qed.

(** The cached publish time is what the rollup answered when it was read. *)
Definition honest (w : World) (s : St) : Prop :=
  match lastRead s with
  | Some (Some p, at_) =>
      exists read t, w_publish_time w = Some read /\ read t = inl (Some p) /\ t ++ [a_publish_time] `prefix_of` trace s
        /\ at_ = w_now w (t ++ [a_publish_time])
  | _ => True
  end.

Definition calm_step {A} (w : World) (s : St) (out : St * (A + Failure)) : Prop :=
  (exists d, trace (fst out) = trace s ++ d /\ Forall quiet d) /\ pending (fst out) = pending s /\ snd out ≠ inr out_of_fuel
  /\ (honest w s -> honest w (fst out)).
Definition calm {A} (w : World) (m : io A) : Prop := forall s, calm_step w s (m s).

Lemma honest_grow w s s' d : lastRead s' = lastRead s -> trace s' = trace s ++ d -> honest w s -> honest w s'.
Proof.
  unfold honest. intros -> ->. destruct (lastRead s) as [[[p|] at_]|]; try done. intros (read & t & ? & ? & ? & ?). exists read, t.
  split_and!; try done. by apply prefix_app_r.
Qed.

Lemma calm_step_trans {A B} w s s' (r : A + Failure) (out : St * (B + Failure)) :
  calm_step w s (s', r) -> calm_step w s' out -> calm_step w s out.
Proof.
  intros ((d & Hd & Hq) & Hp & _ & Hh) ((k & Hk & Hqk) & Hpk & Hr & Hhk). cbn in *. split; [|split_and!; [congruence|done|tauto]].
  exists (d ++ k). rewrite Hk, Hd, app_assoc. split; [done|]. by apply Forall_app_2.
Qed.

Lemma calm_here {A} w s (r : A + Failure) : r ≠ inr out_of_fuel -> calm_step w s (s, r).
Proof. intros Hr. split; [exists []; by rewrite app_nil_r|done]. Qed.

(** Another outcome of the same state. *)
Lemma calm_step_outcome {A B} w s s' (r : A + Failure) (r' : B + Failure) : calm_step w s (s', r) -> r' ≠ inr out_of_fuel -> calm_step w s (s', r').
Proof. intros (Ht & Hp & _ & Hh) Hr. done. Qed.

Lemma calm_one {A} w s a (r : A + Failure) : quiet a -> r ≠ inr out_of_fuel -> calm_step w s (mkSt (trace s ++ [a]) (lastRead s) (pending s), r).
Proof.
  intros Ha Hr. split; [exists [a]; split; [done|by constructor]|]. split_and!; [done|done|]. by apply honest_grow with [a].
Qed.

Lemma calm_ret {A} w (a : A) : calm w (io_ret a).
Proof. intros s. by apply calm_here. Qed.
Lemma calm_throw {A} w e : calm w (@io_throw A e).
Proof. intros s. by apply calm_here. Qed.
Lemma calm_result {A} w (r : result A) : calm w (io_result r).
Proof. intros s. destruct r; by apply calm_here. Qed.
Lemma calm_clock w : calm w (clock w).
Proof. intros s. by apply calm_here. Qed.
Lemma calm_forget w : calm w (set_lastRead None).
Proof. intros s. split; [exists []; by rewrite app_nil_r|done]. Qed.
Lemma calm_act w a : quiet a -> calm w (act a).
Proof. intros Ha s. by apply calm_one. Qed.
Lemma calm_call {A} w (f : list Act -> answer A) a : quiet a -> calm w (call f a).
Proof. intros Ha s. apply calm_one; [done|]. by destruct (f (trace s)). Qed.
Lemma calm_notice w n : calm w (notice n).
Proof. by apply calm_act. Qed.

Lemma calm_bind {A B} w (m : io A) (f : A -> io B) : calm w m -> (forall a, calm w (f a)) -> calm w (io_bind m f).
Proof.
  intros Hm Hf s. unfold io_bind. pose proof (Hm s) as Hs. destruct (m s) as [s' [a|e]]; [eapply calm_step_trans; [exact Hs|apply Hf]|].
  eapply calm_step_outcome; [exact Hs|]. destruct Hs as (_ & _ & Hne & _). cbn in Hne. congruence.
Qed.
Lemma calm_catch {A} w (m : io A) h : calm w m -> (forall e, calm w (h e)) -> calm w (io_catch m h).
Proof.
  intros Hm Hh s. unfold io_catch. pose proof (Hm s) as Hs. destruct (m s) as [s' [a|[e|]]]; [done| |done].
  eapply calm_step_trans; [exact Hs|apply Hh].
Qed.
Lemma calm_both {A B} w (m : io A) (k : io B) : calm w m -> calm w k -> calm w (io_both m k).
Proof.
  intros Hm Hk s. unfold io_both. pose proof (Hm s) as Hs. destruct (m s) as [s1 r1]. pose proof (Hk s1) as Hs1. destruct (k s1) as [s2 r2].
  pose proof (calm_step_trans _ _ _ _ _ Hs Hs1) as H. eapply calm_step_outcome; [exact H|].
  destruct Hs as (_ & _ & Hne1 & _), Hs1 as (_ & _ & Hne2 & _). cbn in *. destruct r1, r2; congruence.
Qed.

Create HintDb calm.
#[export] Hint Resolve calm_ret calm_throw calm_result calm_clock calm_forget calm_notice calm_bind calm_catch calm_both : calm.
#[export] Hint Extern 2 (calm _ (act _)) => apply calm_act; exact I : calm.
#[export] Hint Extern 2 (calm _ (call _ _)) => apply calm_call; exact I : calm.
Ltac calm := repeat first [progress intros | case_match | solve [auto with calm] | apply calm_bind | apply calm_catch | apply calm_both].

Lemma calm_read_publish_time w : calm w (read_publish_time w).
Proof.
  intros s. unfold read_publish_time, io_bind, clock, set_lastRead, io_ret, io_catch, call.
  destruct (w_publish_time w) as [read|] eqn:Er; cbn.
  - destruct (read (trace s)) as [[p|]|e] eqn:Ea; cbn; (split; [exists [a_publish_time]; split; [done|by constructor]|]); split_and!; try done.
    intros _. cbn. by exists read, (trace s).
  - split; [exists []; by rewrite app_nil_r|done].
Qed.
Lemma calm_readPublished w : calm w (readPublished w).
Proof.
  intros s. unfold readPublished. destruct (lastRead s) as [[p t]|]; [|apply calm_read_publish_time].
  case_match; [by apply calm_here|apply calm_read_publish_time].
Qed.
Lemma calm_refresh w : calm w (refresh w).
Proof. unfold refresh. calm. Qed.
Lemma calm_fresh_l1 w : calm w (fresh_l1 w).
Proof. unfold fresh_l1. pose proof (calm_refresh w). calm. Qed.
Lemma calm_wait_sequence w n sequence : calm w (wait_sequence w n sequence).
Proof. induction n as [|n IH]; cbn; calm. Qed.
Lemma calm_fresh_er w o : calm w (fresh_er w o).
Proof.
  unfold fresh_er. apply calm_bind; [apply calm_readPublished|intros published]. apply calm_bind; [auto with calm|intros now].
  case_match; [calm|]. case_match; [calm|]. apply calm_bind; [auto with calm|intros _].
  intros s. pose proof (calm_refresh w s) as Hs. destruct (refresh w s) as [s1 [q|[e|]]].
  - eapply calm_step_trans; [exact Hs|apply calm_wait_sequence].
  - case_match; (eapply calm_step_outcome; [exact Hs|done]).
  - by destruct Hs as (_ & _ & Hs & _).
Qed.
#[export] Hint Resolve calm_fresh_l1 calm_fresh_er : calm.
Lemma calm_service_refresh w fo be : calm w (service_refresh w fo be).
Proof. unfold service_refresh. calm. Qed.
#[export] Hint Resolve calm_service_refresh : calm.
Lemma calm_requestedOnL1 w web3 shard i : calm w (requestedOnL1 w web3 shard i).
Proof. unfold requestedOnL1. calm. Qed.
#[export] Hint Resolve calm_requestedOnL1 : calm.

(** ** A price check that passes saw a recent price *)

(** What justifies a passed check, at its end [t]: a publish time the rollup
    answered was at most eight seconds old at some moment after that answer, or the rollup
    answered a snapshot sequence that has reached the refreshed one. *)
Definition justified (w : World) (t : list Act) : Prop :=
  (exists read t1 p t2, w_publish_time w = Some read /\ read t1 = inl (Some p) /\ t1 ++ [a_publish_time] `prefix_of` t2 /\ t2 `prefix_of` t
     /\ w_now w t2 <= 1000 * (to_number p + ER_FALLBACK_MAX_AGE_S))
  \/ (exists t1 response sequence t2 q, w_refresh w t1 = inl response /\ rf_body response ≫= rb_sequence = Some (Ok sequence)
        /\ t1 ++ [a_refresh] `prefix_of` t2 /\ w_sequence w t2 = inl (Some q) /\ sequence <= q /\ t = t2 ++ [a_sequence]).

Lemma read_publish_time_cached w s : exists p at_ s', read_publish_time w s = (s', inl p) /\ lastRead s' = Some (p, at_).
Proof.
  unfold read_publish_time, io_bind, clock, set_lastRead, io_ret, io_catch, call.
  destruct (w_publish_time w) as [read|]; [destruct (read (trace s))|]; cbn; eauto 10.
Qed.

Lemma readPublished_cached w s : exists p at_ s', readPublished w s = (s', inl p) /\ lastRead s' = Some (p, at_).
Proof.
  unfold readPublished. destruct (lastRead s) as [[p at_]|] eqn:E; [|apply read_publish_time_cached].
  case_match; [eauto 10|apply read_publish_time_cached].
Qed.

Lemma refresh_ok w s s' q :
  refresh w s = (s', inl q) ->
  exists response, w_refresh w (trace s) = inl response /\ rf_body response ≫= rb_sequence = Some (Ok q) /\ trace s' = trace s ++ [a_refresh].
Proof.
  unfold refresh, io_bind, call. destruct (w_refresh w (trace s)) as [response|]; [|done]. intros H. exists response. split; [done|].
  destruct (rf_ok response); [|done]. destruct (rf_body response ≫= rb_sequence) as [[z|]|]; case_match; cbn in *; unfold io_throw, io_ret in *; simplify_eq; done.
Qed.

Lemma wait_sequence_ok w n sequence s s' :
  wait_sequence w n sequence s = (s', inl tt) ->
  exists t q, trace s `prefix_of` t /\ w_sequence w t = inl (Some q) /\ sequence <= q /\ trace s' = t ++ [a_sequence].
Proof.
  revert s. induction n as [|n IH]; intros s; [done|]. cbn. unfold io_bind, io_catch, call at 1.
  destruct (w_sequence w (trace s)) as [seen|e] eqn:E; cbn.
  - destruct (match seen with Some _ => _ | None => _ end) eqn:Eb; cbn; intros H.
    + destruct seen as [q|]; [|done]. unfold io_ret in H. simplify_eq/=. exists (trace s), q. split_and!; [done|done|lia|done].
    + destruct (IH _ H) as (t & q & Hp & Hq). exists t, q. split; [|done]. etrans; [|exact Hp]. cbn. apply prefix_app_r, prefix_app_r. done.
  - intros H. destruct (IH _ H) as (t & q & Hp & Hq). exists t, q. split; [|done]. etrans; [|exact Hp]. cbn. apply prefix_app_r, prefix_app_r. done.
Qed.

Lemma aged_justified w s p at_ now sec d :
  honest w s -> lastRead s = Some (p, at_) -> now = w_now w (trace s) -> sec <= ER_FALLBACK_MAX_AGE_S -> aged now p sec = true -> justified w (trace s ++ d).
Proof.
  unfold honest. intros Hh E -> Hs Ha. rewrite E in Hh. destruct p as [p|]; [|done]. destruct Hh as (read & t & Hr & Hrt & Hp & _).
  left. exists read, t, p, (trace s). cbn in Ha. unfold age_at_most in Ha. split_and!; try done; [by apply prefix_app_r|lia].
Qed.

Lemma fresh_er_justified w o s s' : honest w s -> fresh_er w o s = (s', inl tt) -> justified w (trace s').
Proof.
  intros Hh. unfold fresh_er, io_bind at 1. pose proof (calm_readPublished w s) as (_ & _ & _ & Hh1).
  destruct (readPublished_cached w s) as (p & at_ & s1 & E & Hl). rewrite E in *. cbn in Hh1. specialize (Hh1 Hh).
  unfold io_bind at 1, clock. cbn [w_now].
  assert (Hgo : forall sec, sec <= ER_FALLBACK_MAX_AGE_S -> aged (w_now w (trace s1)) p sec = true -> forall d, justified w (trace s1 ++ d)).
  { intros sec Hs Ha d. by eapply aged_justified. }
  destruct (aged _ _ ER_FAST_PATH_MAX_AGE_S) eqn:E7.
  { intros [= <-]. rewrite <- (app_nil_r (trace s1)). by apply (Hgo ER_FAST_PATH_MAX_AGE_S). }
  destruct (refreshable o); cbn [negb].
  - unfold io_bind, set_lastRead. pose proof (calm_refresh w (mkSt (trace s1) None (pending s1))) as ((d & Hd & _) & _).
    destruct (refresh w _) as [s2 [q|[e|]]] eqn:Er; [|destruct (aged _ _ ER_FALLBACK_MAX_AGE_S) eqn:E8; intros [= <-]|done].
    + intros H. apply wait_sequence_ok in H as (t & q' & Hp & Hq' & Hle & ->). apply refresh_ok in Er as (response & H1 & H2 & H3).
      right. exists (trace s1), response, q, t, q'. cbn in *. rewrite H3 in Hp. done.
    + cbn in Hd. rewrite Hd. by apply (Hgo _ ltac:(done) E8).
  - destruct (aged _ _ ER_FALLBACK_MAX_AGE_S) eqn:E8; [|done]. intros [= <-]. rewrite <- (app_nil_r (trace s1)). by apply (Hgo _ ltac:(done) E8).
Qed.

(** ** One rollup submission *)

(** [s1] is reached from [s] without a submission; a computation quits when it ends
    there with an exception. *)
Definition reach (w : World) (s s1 : St) : Prop :=
  (exists d, trace s1 = trace s ++ d /\ Forall quiet d) /\ pending s1 = pending s /\ honest w s1.
Definition quits {A} (w : World) (s s1 : St) (r : A + Failure) : Prop := reach w s s1 /\ exists e, r = inr (failed e).

Lemma reach_refl w s : honest w s -> reach w s s.
Proof. intros Hh. split; [exists []; by rewrite app_nil_r|done]. Qed.
Lemma reach_trans w s s1 s2 : reach w s s1 -> reach w s1 s2 -> reach w s s2.
Proof.
  intros ((d & Hd & Hq) & Hp & _) ((k & Hk & Hqk) & Hpk & Hh). split; [|split; [congruence|done]].
  exists (d ++ k). rewrite Hk, Hd, app_assoc. split; [done|]. by apply Forall_app_2.
Qed.
Lemma reach_quits {A} w s s1 s2 (r : A + Failure) : reach w s s1 -> quits w s1 s2 r -> quits w s s2 r.
Proof. intros H1 [H2 He]. split; [by eapply reach_trans|done]. Qed.
Lemma reach_prefix w s s1 : reach w s s1 -> trace s `prefix_of` trace s1.
Proof. intros ((d & -> & _) & _). by apply prefix_app_r. Qed.
Lemma reach_honest w s s1 : reach w s s1 -> honest w s1.
Proof. by intros (_ & _ & ?). Qed.

Lemma calm_out {A} w (m : io A) s s' r : calm w m -> honest w s -> m s = (s', r) -> reach w s s' /\ r ≠ inr out_of_fuel.
Proof. intros Hm Hh E. pose proof (Hm s) as (Ht & Hp & Hr & Hh'). rewrite E in *. split; [|done]. split; [exact Ht|]. split; [exact Hp|]. by apply Hh'. Qed.

(** A calm step of a sequence: it quits there, or goes on. *)
Lemma calm_bind_inv {A B} w (m : io A) (f : A -> io B) s s' r :
  calm w m -> honest w s -> io_bind m f s = (s', r) -> quits w s s' r \/ exists a s1, m s = (s1, inl a) /\ reach w s s1 /\ f a s1 = (s', r).
Proof.
  intros Hm Hh. unfold io_bind. destruct (m s) as [s1 [a|e]] eqn:E; destruct (calm_out _ _ _ _ _ Hm Hh E) as [Hr Hne].
  - intros H. right. eauto.
  - intros [= <- <-]. left. split; [done|]. destruct e; [eauto|done].
Qed.

(** A passed required check leaves a justification. *)
Lemma service_refresh_justified w o s s' :
  honest w s -> service_refresh w (Some o) false s = (s', inl tt) -> justified w (trace s') /\ trace s `prefix_of` trace s'.
Proof.
  intros Hh H. split; [by eapply fresh_er_justified|]. destruct (calm_out _ _ _ _ _ (calm_fresh_er w o) Hh H) as [Hr _]. by eapply reach_prefix.
Qed.

(** When the submission at the end of [t ++ d] was signed at [ts], and whether a
    check justified it: before signing that took at most 2 s, or after it. *)
Definition signed_fresh (w : World) (t d ts : list Act) (bytes : list Z) : Prop :=
  (w_now w (ts ++ [a_sign bytes]) - w_now w ts <= 2000 /\ exists t', justified w t' /\ t `prefix_of` t' /\ t' `prefix_of` ts)
  \/ (exists t', justified w t' /\ ts ++ [a_sign bytes] `prefix_of` t' /\ t' `prefix_of` t ++ d).

Definition er_submission (w : World) (fo : option FreshOptions) (be : bool) (kind : string) (s s' : St) (r : Z * option string + Failure) : Prop :=
  exists d d1 d2 bytes signed,
    trace s' = trace s ++ d ++ [a_submit_er signed kind] /\ d = d1 ++ [a_sign bytes] ++ d2 /\ Forall quiet d
    /\ w_sign w (trace s ++ d1) bytes = inl signed
    /\ r = match w_submit_er w (trace s ++ d) signed kind with inl x => inl x | inr e => inr (failed e) end
    /\ (be = false -> is_Some fo -> signed_fresh w (trace s) d (trace s ++ d1) bytes).

Lemma both_inl {A B} (m : io A) (k : io B) s s' a :
  io_both m k s = (s', inl a) -> exists s1 b, m s = (s1, inl a) /\ k s1 = (s', inl b).
Proof. unfold io_both. destruct (m s) as [s1 [x|]], (k s1) as [s2 [y|]] eqn:E; intros [= <- <-]; eauto. Qed.

Lemma executeEr_run w fo kind ixs wr be s s' r :
  honest w s -> executeEr w fo kind ixs wr be s = (s', r) -> quits w s s' r \/ er_submission w fo be kind s s' r /\ pending s' = pending s /\ honest w s'.
Proof.
  intros Hh H. unfold executeEr in H.
  apply (calm_bind_inv w) in H as [H|(bh & s1 & E1 & R1 & H)]; [by left| |calm|done].
  apply (calm_bind_inv w) in H as [H|(bytes & s2 & _ & R2 & H)]; [left; by eapply reach_quits| |calm|by eapply reach_honest].
  pose proof (reach_trans _ _ _ _ R1 R2) as R12. unfold io_bind at 1, clock at 1 in H.
  apply (calm_bind_inv w) in H as [H|(signed & s3 & E3 & R3 & H)]; [left; by eapply reach_quits| |calm|by eapply reach_honest].
  pose proof (reach_trans _ _ _ _ R12 R3) as R13. unfold io_bind at 1, clock at 1 in H.
  apply (calm_bind_inv w) in H as [H|([] & s4 & E4 & R4 & H)]; [left; by eapply reach_quits| |calm|by eapply reach_honest].
  right. pose proof (reach_trans _ _ _ _ R13 R4) as R14. unfold submitEr, call in H, E3.
  destruct (w_sign w (trace s2) bytes) as [sg|] eqn:Es; [|done]. injection E3 as <- <-.
  destruct R14 as ((d & Hd & Hq) & Hp & Hh4), R12 as ((d1 & Hd1 & Hq1) & _), R4 as ((d2 & Hd2 & _) & _). cbn in Hd2.
  assert (d = d1 ++ [a_sign bytes] ++ d2) as Ed. { rewrite Hd2, Hd1, <- !app_assoc in Hd. by apply app_inv_head in Hd. }
  injection H as <- <-. cbn. split; [|split; [done|by apply (honest_grow w s4 _ [a_submit_er sg kind])]].
  exists d, d1, d2, bytes, sg. rewrite <- Hd1. rewrite <- Hd. split_and!; [by rewrite Hd, <- app_assoc|done|done|done|done|].
  intros -> [o ->]. unfold signed_fresh. rewrite <- Hd. cbn in E4. destruct (2000 <? _) eqn:E2.
  - right. apply service_refresh_justified in E4 as [Hj Hpre]; [eauto|]. by eapply reach_honest.
  - left. split; [lia|]. apply both_inl in E1 as (s0 & [] & E0 & E1). apply service_refresh_justified in E1 as [Hj Hpre].
    + exists (trace s1). split_and!; [done|by eapply reach_prefix|by eapply reach_prefix].
    + destruct (calm_out w _ _ _ _ (calm_call w _ (a_blockhash wr) I) Hh E0) as [? _]. by eapply reach_honest.
Qed.

(** An order or a claim is sent to the rollup with a recent price.  A required
    rollup execution submits at most one transaction, the one the wallet
    signed; when the deployment checks the oracle, the submission was preceded by a
    check that passed because a publish time the rollup answered was at most eight
    seconds old, or because the rollup had reached the refreshed snapshot; and that
    check came after the signature unless signing took at most two seconds. *)
Theorem er_submission_fresh w o kind ixs wr s s' r bytes :
  honest w s -> executeEr w (Some o) kind ixs wr false s = (s', r) ->
  a_submit_er bytes kind ∈ drop (length (trace s)) (trace s') ->
  exists d ts unsigned,
    trace s' = trace s ++ d ++ [a_submit_er bytes kind] /\ submissions d = []
    /\ w_sign w ts unsigned = inl bytes /\ ts ++ [a_sign unsigned] `prefix_of` trace s ++ d
    /\ signed_fresh w (trace s) d ts unsigned.
Proof.
  intros Hh H Hin. destruct (executeEr_run _ _ _ _ _ _ _ _ _ Hh H) as [[((d & Hd & Hq) & _) _]|[(d & d1 & d2 & b & sg & Hd & Ed & Hq & Hs & _ & Hf) _]];
    rewrite Hd, drop_app_length in Hin.
  - rewrite list.Forall_forall in Hq. by destruct (Hq _ Hin).
  - apply elem_of_app in Hin as [Hin|Hin]; [rewrite list.Forall_forall in Hq; by destruct (Hq _ Hin)|].
    apply list_elem_of_singleton in Hin. simplify_eq. exists (d1 ++ [a_sign b] ++ d2), (trace s ++ d1), b.
    split_and!; [done|by apply submissions_quiet|done| |by apply Hf]. rewrite !app_assoc. by apply prefix_app_r.
Qed.

(** ** One settlement-layer submission *)

(** The wallet signed [bytes] at [ts] into [signed], after they were simulated. *)
Definition signed_simulated (w : World) (ts : list Act) (bytes signed : list Z) : Prop :=
  w_sign w ts bytes = inl signed /\ exists t units, t ++ [a_simulate bytes] `prefix_of` ts /\ w_simulate w t bytes = inl units.

Definition l1_submission {A} (w : World) (fo : option FreshOptions) (fresh : bool) (s s' : St) (r : A + Failure) : Prop :=
  exists d k ts bytes signed,
    trace s' = trace s ++ d ++ [a_submit_l1 signed] ++ k /\ Forall quiet d /\ Forall quiet k
    /\ signed_simulated w ts bytes signed /\ ts ++ [a_sign bytes] `prefix_of` trace s ++ d
    /\ (fresh = true -> is_Some fo ->
          exists t response sequence, w_refresh w t = inl response /\ rf_body response ≫= rb_sequence = Some (Ok sequence)
            /\ ts ++ [a_sign bytes] `prefix_of` t /\ t ++ [a_refresh] `prefix_of` trace s ++ d)
    /\ (forall a, r = inl a -> exists t signature, w_submit_l1 w t signed = inl signature).

Lemma fresh_l1_ok w s s' :
  fresh_l1 w s = (s', inl tt) ->
  exists response q, w_refresh w (trace s) = inl response /\ rf_body response ≫= rb_sequence = Some (Ok q) /\ trace s' = trace s ++ [a_refresh].
Proof.
  unfold fresh_l1, io_bind. destruct (refresh w s) as [s1 [q|]] eqn:E; [|done]. intros [= <-]. apply refresh_ok in E as (response & ?). eauto.
Qed.

Lemma service_executeL1_run w fo ixs fresh s s' r :
  honest w s -> service_executeL1 w fo ixs fresh s = (s', r) ->
  quits w s s' r \/ l1_submission w fo fresh s s' r /\ pending s' = pending s /\ honest w s' /\ r ≠ inr out_of_fuel.
Proof.
  intros Hh H. unfold service_executeL1 in H.
  assert (Cf : calm w (default (io_ret tt) (if fresh then (fun _ => fresh_l1 w) <$> fo else None))) by (destruct fresh, fo; cbn; auto with calm).
  apply (calm_bind_inv w) in H as [H|(bytes & s1 & _ & R1 & H)]; [by left| |calm|done]. unfold executeL1 in H.
  apply (calm_bind_inv w) in H as [H|([] & s2 & _ & R2 & H)]; [left; by eapply reach_quits| |exact Cf|by eapply reach_honest].
  pose proof (reach_trans _ _ _ _ R1 R2) as R12.
  apply (calm_bind_inv w) in H as [H|(units & s3 & E3 & R3 & H)]; [left; by eapply reach_quits| |calm|by eapply reach_honest].
  pose proof (reach_trans _ _ _ _ R12 R3) as R13.
  apply (calm_bind_inv w) in H as [H|(signed & s4 & E4 & R4 & H)]; [left; by eapply reach_quits| |calm|by eapply reach_honest].
  pose proof (reach_trans _ _ _ _ R13 R4) as R14.
  apply (calm_bind_inv w) in H as [H|([] & s5 & E5 & R5 & H)]; [left; by eapply reach_quits| |exact Cf|by eapply reach_honest].
  pose proof (reach_trans _ _ _ _ R14 R5) as R15. right.
  unfold call in E3, E4. destruct (w_simulate w (trace s2) bytes) as [u|] eqn:Eu; [|done]. destruct (w_sign w (trace s3) bytes) as [sg|] eqn:Es; [|done].
  injection E3 as <- <-. injection E4 as <- <-. cbn [trace] in *.
  destruct R15 as ((d & Hd & Hq) & Hp & Hh5).
  assert (Hpre : (trace s2 ++ [a_simulate bytes]) ++ [a_sign bytes] `prefix_of` trace s ++ d) by (rewrite <- Hd; apply (reach_prefix _ _ _ R5)).
  unfold io_bind, call in H. set (s6 := mkSt (trace s5 ++ [a_submit_l1 sg]) (lastRead s5) (pending s5)) in *.
  assert (Hh6 : honest w s6) by by apply (honest_grow w s5 _ [a_submit_l1 sg]).
  assert (exists k, trace s' = trace s6 ++ k /\ Forall quiet k /\ pending s' = pending s6 /\ honest w s' /\ r ≠ inr out_of_fuel
    /\ (forall a, r = inl a -> exists signature, w_submit_l1 w (trace s5) sg = inl signature)) as (k & Hk & Hqk & Hpk & Hh' & Hr & Ha).
  { destruct (w_submit_l1 w (trace s5) sg) as [signature|e]; [|injection H as <- <-; exists []; rewrite app_nil_r; by split_and!].
    destruct (w_confirm w (trace s6) signature); injection H as <- <-; exists [a_confirm signature]; split_and!; try done; try (by constructor);
      try (by apply (honest_grow w s6 _ [a_confirm signature])); eauto. }
  split; [|split_and!; [cbn in *; congruence|done|done]].
  exists d, k, (trace s2 ++ [a_simulate bytes]), bytes, sg. split_and!; try done.
  - rewrite Hk. unfold s6. cbn. by rewrite Hd, <- !app_assoc.
  - split; [done|]. by exists (trace s2), u.
  - intros -> [o ->]. cbn in E5. apply fresh_l1_ok in E5 as (response & q & Hresp & Hseq & Ht). cbn in Ht. exists ((trace s2 ++ [a_simulate bytes]) ++ [a_sign bytes]), response, q.
    rewrite <- Hd, Ht. done.
  - intros a Hra. destruct (Ha a Hra) as [signature ?]. eauto.
Qed.

(** ** Withdrawals *)

(** A clock that does not go back and advances through a pause; account bytes are
    bytes. *)
Record regular (w : World) : Prop := {
  reg_mono : forall t a, w_now w t <= w_now w (t ++ [a]);
  reg_sleep : forall t, w_now w t + 750 <= w_now w (t ++ [a_sleep 750]);
  reg_bytes : forall t a bs, w_shard w t a = inl (Some bs) -> uint8array bs }.

Lemma now_prefix w t t' : regular w -> t `prefix_of` t' -> w_now w t <= w_now w t'.
Proof.
  intros Hw [d ->]. induction d as [|a d IH] using rev_ind; [rewrite app_nil_r; lia|]. rewrite app_assoc.
  pose proof (reg_mono w Hw (t ++ d) a). lia.
Qed.

(** The total requested that Solana shows at [t]. *)
Definition requested_at (w : World) (web3 : Web3) (shard : option AddressInput) (i : Z) (t : list Act) (z : Z) : Prop :=
  exists a bs, shard = Some a /\ w_shard w t (address_string web3 a) = inl (Some bs) /\ getBigUint64 bs (44 + (i mod 32) * 256 + 192) = Ok z.

Lemma requestedOnL1_ok w web3 shard i s s' z : requestedOnL1 w web3 shard i s = (s', inl z) -> requested_at w web3 shard i (trace s) z.
Proof.
  unfold requestedOnL1, requested_at, io_bind, call. destruct shard as [a|]; [|done]. destruct (w_shard w (trace s) (address_string web3 a)) as [[bs|]|] eqn:E; try done.
  intros H. exists a, bs. split_and!; try done. destruct (getBigUint64 bs _); cbn in H; unfold io_ret, io_throw in H; by simplify_eq.
Qed.

Lemma requested_nonneg w web3 shard i t z : regular w -> requested_at w web3 shard i t z -> 0 <= z.
Proof. intros Hw (a & bs & _ & Hs & Hz). apply (reg_bytes w Hw) in Hs. pose proof (view_unsigned_bound _ _ _ _ Hs Hz). lia. Qed.

Lemma calm_poll w web3 shard i : calm w (io_catch (requestedOnL1 w web3 shard i) (fun _ => io_ret 0)).
Proof. calm. Qed.

(** The wait reads only; when it ends well, a read showed the target. *)
Lemma wait_commit_run w web3 n shard i target deadline s s' r :
  honest w s -> 0 < target -> wait_commit w web3 n shard i target deadline s = (s', r) ->
  reach w s s' /\ (r = inl tt -> exists t z, trace s `prefix_of` t /\ t `prefix_of` trace s' /\ requested_at w web3 shard i t z /\ target <= z).
Proof.
  revert s. induction n as [|n IH]; intros s Hh Ht; [cbn; intros [= <- <-]; split; [by apply reach_refl|done]|].
  cbn. unfold io_bind at 1. destruct (io_catch _ _ s) as [s1 [z|e]] eqn:E; destruct (calm_out w _ _ _ _ (calm_poll w web3 shard i) Hh E) as [R1 Hne].
  2: { intros [= <- <-]. by split. }
  destruct (target <=? z) eqn:Ez.
  - intros [= <- <-]. split; [done|]. intros _. exists (trace s), z. split_and!; [done|by eapply reach_prefix| |lia].
    unfold io_catch in E. destruct (requestedOnL1 w web3 shard i s) as [s2 [z'|[e|]]] eqn:Eq; unfold io_ret in E; simplify_eq; [|lia].
    by eapply requestedOnL1_ok.
  - unfold io_bind at 1, clock. destruct (deadline <? _); [intros [= <- <-]; by split|]. unfold io_bind, act. intros H.
    assert (R2 : reach w s (mkSt (trace s1 ++ [a_sleep 750]) (lastRead s1) (pending s1))).
    { eapply reach_trans; [exact R1|]. by destruct (calm_out w (act (a_sleep 750)) s1 _ _ (calm_act w (a_sleep 750) I) (reach_honest _ _ _ R1) eq_refl). }
    destruct (IH _ (reach_honest _ _ _ R2) Ht H) as [R3 Hw]. split; [by eapply reach_trans|]. intros Hr. destruct (Hw Hr) as (t & z' & Hp & ?).
    exists t, z'. split; [|done]. etrans; [by eapply reach_prefix|exact Hp].
Qed.

(** With a regular clock the wait ends: 750 ms pass per round. *)
Lemma wait_commit_ends w web3 n shard i target deadline s :
  regular w -> honest w s -> deadline - w_now w (trace s) < 750 * Z.of_nat n -> snd (wait_commit w web3 (S n) shard i target deadline s) ≠ inr out_of_fuel.
Proof.
  intros Hw. revert s. induction n as [|n IH]; intros s Hh Hd; cbn [wait_commit]; unfold io_bind at 1;
    (destruct (io_catch _ _ s) as [s1 [z|e]] eqn:E; destruct (calm_out w _ _ _ _ (calm_poll w web3 shard i) Hh E) as [R1 Hne]; [|cbn; congruence]);
    (destruct (target <=? z); [done|]); unfold io_bind at 1, clock; pose proof (now_prefix w _ _ Hw (reach_prefix _ _ _ R1));
    destruct (deadline <? _) eqn:Ed; try done; [exfalso; lia|].
  unfold io_bind at 1, act. pose proof (reg_sleep w Hw (trace s1)). apply IH; [|cbn [trace]; lia].
  apply (honest_grow w s1 _ [a_sleep 750]); [done|done|by eapply reach_honest].
Qed.

(** What a rollup withdrawal may have sent when it ends at [t ++ d]: nothing; the
    request; or the request, which the rollup accepted, and then one payout, between
    which Solana showed the total requested before plus the amount. *)
Definition withdraw_sent (w : World) (web3 : Web3) (shard : option AddressInput) (i amount : Z) (t d : list Act) : Prop :=
  Forall quiet d
  \/ exists d0 req d1 t0 before,
      Forall quiet d0 /\ Forall quiet d1 /\ requested_at w web3 shard i t0 before /\ t `prefix_of` t0 /\ t0 `prefix_of` t ++ d0
      /\ (d = d0 ++ [a_submit_er req "RequestWithdrawalV3"] ++ d1
          \/ exists claim d2 accepted t1 z,
              Forall quiet d2 /\ d = d0 ++ [a_submit_er req "RequestWithdrawalV3"] ++ d1 ++ [a_submit_l1 claim] ++ d2
              /\ w_submit_er w (t ++ d0) req "RequestWithdrawalV3" = inl accepted
              /\ requested_at w web3 shard i t1 z /\ before + amount <= z
              /\ t ++ d0 ++ [a_submit_er req "RequestWithdrawalV3"] `prefix_of` t1
              /\ t1 `prefix_of` t ++ d0 ++ [a_submit_er req "RequestWithdrawalV3"] ++ d1).

Definition withdraw_ran (w : World) (web3 : Web3) (shard : option AddressInput) (i amount : Z) (s s' : St) (r : unit + Failure) : Prop :=
  (exists d, trace s' = trace s ++ d /\ withdraw_sent w web3 shard i amount (trace s) d) /\ pending s' = pending s /\ honest w s' /\ r ≠ inr out_of_fuel.

Lemma quits_ran w web3 shard i amount s s' r : quits w s s' r -> withdraw_ran w web3 shard i amount s s' r.
Proof. intros [((d & Hd & Hq) & Hp & Hh) [e ->]]. split_and!; try done. exists d. split; [done|]. by left. Qed.

(** After the request: [s1] ends with it. *)
Lemma requested_ran w web3 shard i amount s s1 s2 r d0 req t0 before :
  trace s1 = trace s ++ d0 ++ [a_submit_er req "RequestWithdrawalV3"] -> Forall quiet d0 -> requested_at w web3 shard i t0 before ->
  trace s `prefix_of` t0 -> t0 `prefix_of` trace s ++ d0 -> pending s1 = pending s -> r ≠ inr out_of_fuel ->
  reach w s1 s2 -> withdraw_ran w web3 shard i amount s s2 r.
Proof.
  intros H1 Hq0 Hb Hp0 Hp0' Hp Hr ((d1 & Hd1 & Hq1) & Hp1 & Hh). split_and!; [|congruence|done|done].
  exists (d0 ++ [a_submit_er req "RequestWithdrawalV3"] ++ d1). split; [by rewrite Hd1, H1, <- !app_assoc|].
  right. exists d0, req, d1, t0, before. split_and!; try done. by left.
Qed.

(** What follows the accepted request: the wait and the payout. *)
Lemma payout_ran w fo web3 spl a shard i amount owner s s1 s' r d0 req t0 before accepted :
  regular w -> honest w s1 -> 0 < amount ->
  trace s1 = trace s ++ d0 ++ [a_submit_er req "RequestWithdrawalV3"] -> Forall quiet d0 -> requested_at w web3 shard i t0 before ->
  trace s `prefix_of` t0 -> t0 `prefix_of` trace s ++ d0 -> pending s1 = pending s ->
  w_submit_er w (trace s ++ d0) req "RequestWithdrawalV3" = inl accepted ->
  io_bind (notice (n_step "Step 2/2 · Waiting for the rollup commit on Solana…")) (fun _ =>
  io_bind (clock w) (fun now =>
  io_bind (wait_commit w web3 commit_fuel shard i (before + amount) (now + 45000)) (fun _ =>
  io_bind (notice (n_step "Step 2/2 · Paying out from the vault on Solana…")) (fun _ =>
  io_bind (io_result (withdraw_claim web3 spl a shard i amount owner)) (fun claim =>
  io_bind (service_executeL1 w fo claim false) (fun result =>
  io_bind (act (a_record "ClaimWithdrawalV3" (fst result))) (fun _ =>
  notice (n_withdrew amount (match owner with Some o => negb (bool_decide (o = "")) | None => false end))))))))) s1 = (s', r) ->
  withdraw_ran w web3 shard i amount s s' r.
Proof.
  intros Hw Hh Ham H1 Hq0 Hb Hp0 Hp0' Hp Hacc H.
  assert (Hquit : forall s2 r', reach w s1 s2 -> r' ≠ inr out_of_fuel -> withdraw_ran w web3 shard i amount s s2 r') by (intros; by eapply requested_ran).
  apply (calm_bind_inv w) in H as [[R [e ->]]|(? & s2 & _ & R2 & H)]; [by apply Hquit| |calm|done].
  unfold io_bind at 1, clock in H. pose proof (requested_nonneg _ _ _ _ _ _ Hw Hb).
  assert (Hend : snd (wait_commit w web3 commit_fuel shard i (before + amount) (w_now w (trace s2) + 45000) s2) ≠ inr out_of_fuel)
    by (apply wait_commit_ends; [done|by eapply reach_honest|lia]).
  unfold io_bind at 1 in H. destruct (wait_commit w web3 commit_fuel shard i _ _ s2) as [s3 r3] eqn:E3. cbn in Hend.
  apply wait_commit_run in E3 as [R3 Hseen]; [|by eapply reach_honest|lia]. pose proof (reach_trans _ _ _ _ R2 R3) as R23.
  destruct r3 as [[]|e]; [|injection H as <- <-; apply Hquit; [done|congruence]]. destruct (Hseen eq_refl) as (t1 & z & Ht1 & Ht1' & Hz & Hle).
  apply (calm_bind_inv w) in H as [[R [e ->]]|(? & s4 & _ & R4 & H)]; [apply Hquit; [by eapply reach_trans|done]| |calm|by eapply reach_honest].
  pose proof (reach_trans _ _ _ _ R23 R4) as R24.
  apply (calm_bind_inv w) in H as [[R [e ->]]|(claim & s5 & _ & R5 & H)]; [apply Hquit; [by eapply reach_trans|done]| |calm|by eapply reach_honest].
  pose proof (reach_trans _ _ _ _ R24 R5) as R25. unfold io_bind at 1 in H.
  destruct (service_executeL1 w fo claim false s5) as [s6 r6] eqn:E6.
  apply service_executeL1_run in E6 as [[R6 [e ->]]|((d & k & ts & bytes & signed & Hd & Hqd & Hqk & _) & Hp6 & Hh6 & Hne6)]; [| |by eapply reach_honest].
  { injection H as <- <-. apply Hquit; [by eapply reach_trans|done]. }
  assert (R6' : reach w s6 s' /\ r ≠ inr out_of_fuel).
  { destruct r6 as [res|e]; [|injection H as <- <-; split; [by apply reach_refl|congruence]].
    eapply (calm_out w (io_bind (act (a_record "ClaimWithdrawalV3" (fst res))) (fun _ => notice _))); [calm|done|exact H]. }
  destruct R6' as [((k' & Hk' & Hqk') & Hp' & Hh') Hr]. destruct R25 as ((d1 & Hd1 & Hq1) & Hp5 & _).
  split_and!; [|congruence|done|done].
  exists (d0 ++ [a_submit_er req "RequestWithdrawalV3"] ++ (d1 ++ d) ++ [a_submit_l1 signed] ++ (k ++ k')).
  split; [by rewrite Hk', Hd, Hd1, H1, <- !app_assoc|]. right. exists d0, req, (d1 ++ d), t0, before. split_and!; try done; [by apply Forall_app_2|].
  right. exists signed, (k ++ k'), accepted, t1, z. split_and!; try done; [by apply Forall_app_2| |].
  - rewrite <- H1. etrans; [apply (reach_prefix _ _ _ R2)|done].
  - etrans; [exact Ht1'|]. etrans; [eapply reach_prefix, R4|]. etrans; [eapply reach_prefix, R5|]. rewrite Hd1, H1, <- !app_assoc.
    do 3 apply prefix_app. by apply prefix_app_r.
Qed.

Lemma rollup_withdraw_ran w fo web3 spl a shard snapshot i amount owner s s' r :
  regular w -> honest w s -> 0 < amount -> rollup_withdraw w fo web3 spl a shard snapshot i amount owner s = (s', r) ->
  withdraw_ran w web3 shard i amount s s' r.
Proof.
  intros Hw Hh Ham H. unfold rollup_withdraw in H.
  apply (calm_bind_inv w) in H as [H|(before & s1 & E1 & R1 & H)]; [by apply quits_ran| |calm|done].
  apply (calm_bind_inv w) in H as [H|(? & s2 & _ & R2 & H)]; [by eapply quits_ran, reach_quits| |calm|by eapply reach_honest].
  pose proof (reach_trans _ _ _ _ R1 R2) as R12.
  apply (calm_bind_inv w) in H as [H|(request & s3 & _ & R3 & H)]; [by eapply quits_ran, reach_quits| |calm|by eapply reach_honest].
  pose proof (reach_trans _ _ _ _ R12 R3) as R13. apply requestedOnL1_ok in E1 as Hb.
  unfold io_bind at 1 in H. destruct (executeEr _ _ _ _ _ _ s3) as [s4 r4] eqn:E4.
  apply executeEr_run in E4 as [Hq|((d & d1 & d2 & bytes & req & Hd & Ed & Hqd & _ & Hr4 & _) & Hp4 & Hh4)]; [| |by eapply reach_honest].
  { destruct Hq as [R4 [e ->]]. injection H as <- <-. apply quits_ran. split; [by eapply reach_trans|eauto]. }
  destruct R13 as ((d0 & Hd0 & Hq0) & Hp3 & _).
  assert (Ht4 : trace s4 = trace s ++ (d0 ++ d) ++ [a_submit_er req "RequestWithdrawalV3"]) by by rewrite Hd, Hd0, <- !app_assoc.
  assert (Hpre : trace s `prefix_of` trace s ++ (d0 ++ d)) by by apply prefix_app_r.
  rewrite Hd0, <- app_assoc in Hr4. destruct r4 as [acc|e]; [|injection H as <- <-].
  - destruct (w_submit_er w _ req _) as [accepted|] eqn:Ea; [|done].
    eapply payout_ran; [exact Hw|exact Hh4|exact Ham|exact Ht4|by apply Forall_app_2|exact Hb|done|exact Hpre|congruence|exact Ea|exact H].
  - eapply requested_ran; [exact Ht4|by apply Forall_app_2|exact Hb|done|exact Hpre|congruence| |by apply reach_refl].
    destruct (w_submit_er w _ req _); congruence.
Qed.

(** Quiet acts at the end change nothing. *)
Lemma withdraw_sent_more w web3 shard i amount t d n : withdraw_sent w web3 shard i amount t d -> Forall quiet n -> withdraw_sent w web3 shard i amount t (d ++ n).
Proof.
  intros [Hq|(d0 & req & d1 & t0 & before & H0 & H1 & Hb & Hp & Hp' & [->|(claim & d2 & acc & t1 & z & H2 & -> & H)])] Hn.
  - left. by apply Forall_app_2.
  - right. exists d0, req, (d1 ++ n), t0, before. split_and!; try done; [by apply Forall_app_2|]. left. by rewrite <- !app_assoc.
  - right. exists d0, req, d1, t0, before. split_and!; try done. right. exists claim, (d2 ++ n), acc, t1, z.
    split; [by apply Forall_app_2|]. split; [by rewrite <- !app_assoc|done].
Qed.

(** The end of the hook: a notice or none, then [pending] is cleared. *)
Lemma finish_withdraw w web3 shard i amount s s2 (r2 : unit + Failure) flow s' r :
  withdraw_ran w web3 shard i amount s s2 r2 ->
  (let '(s3, r3) := match r2 with inr (failed e) => notice (n_not_completed flow e) s2 | _ => (s2, r2) end in
   match r3 with inr out_of_fuel => (s3, r3) | _ => (fst (done_pending s3), r3) end) = (s', r) ->
  r = inl tt /\ pending s' = false /\ honest w s' /\ exists acts, trace s' = trace s ++ acts /\ withdraw_sent w web3 shard i amount (trace s) acts.
Proof.
  intros ((k & Hk & Hsent) & _ & Hh & Hne). destruct r2 as [[]|[e|]]; [| |done]; cbn; intros [= <- <-]; cbn; (split_and!; [done|done| |]).
  - by apply (honest_grow w s2 _ [a_refresh_balances]).
  - exists (k ++ [a_refresh_balances]). rewrite Hk, <- app_assoc. split; [done|]. apply withdraw_sent_more; [done|by constructor].
  - apply (honest_grow w s2 _ [a_notice (n_not_completed flow e); a_refresh_balances]); [done|cbn; by rewrite <- app_assoc|done].
  - exists (k ++ [a_notice (n_not_completed flow e); a_refresh_balances]). rewrite Hk, <- !app_assoc. split; [done|]. apply withdraw_sent_more; [done|by repeat constructor].
Qed.


(** ** Deposits *)

Definition CLAIM_INBOX : string := "ClaimInboxDepositV3".

Lemma claim_attempts_run w fo n claim wr s s' r :
  honest w s -> claim_attempts w fo n claim wr s = (s', r) ->
  pending s' = pending s /\ honest w s' /\ r ≠ inr out_of_fuel
  /\ exists d txs, trace s' = trace s ++ d /\ submissions d = (fun tx => a_submit_er tx CLAIM_INBOX) <$> txs /\ (length txs <= S n)%nat
      /\ (r = inl tt -> exists t tx accepted, list.last txs = Some tx /\ w_submit_er w t tx CLAIM_INBOX = inl accepted).
Proof.
  revert s. induction n as [|n IH]; intros s Hh; cbn [claim_attempts]; destruct (executeEr _ _ _ _ _ _ s) as [s1 r1] eqn:E;
    (apply executeEr_run in E as [[((d & Hd & Hq) & Hp & Hh1) [e ->]]|((d & d1 & d2 & bytes & tx & Hd & _ & Hq & _ & Hr1 & _) & Hp & Hh1)]; [| |done]).
  - intros [= <- <-]. split_and!; try done. exists d, []. split_and!; [done|by rewrite submissions_quiet|cbn; lia|done].
  - intros H. assert (s' = s1 /\ r ≠ inr out_of_fuel /\ (r = inl tt -> exists acc, w_submit_er w (trace s ++ d) tx CLAIM_INBOX = inl acc)) as (-> & Hr & Hacc).
    { unfold CLAIM_INBOX. destruct (w_submit_er w _ tx _) as [acc|e]; subst r1; injection H as <- <-; split_and!; eauto; done. }
    split_and!; try done. exists (d ++ [a_submit_er tx CLAIM_INBOX]), [tx]. split_and!; [done| |cbn; lia|intros ->; destruct (Hacc eq_refl); eauto].
    by rewrite submissions_app, submissions_quiet.
  - intros H. cbn in H. apply IH in H as (Hp' & Hh' & Hr & k & txs & Hk & Hs & Hl & Hacc); [|by apply (honest_grow w s1 _ [a_sleep 2000])].
    cbn in *. split_and!; [congruence|done|done|]. exists (d ++ [a_sleep 2000] ++ k), txs. split_and!; [by rewrite Hk, Hd, <- !app_assoc| |lia|done].
    by rewrite !submissions_app, submissions_quiet, Hs.
  - destruct (w_submit_er w _ tx _) as [acc|e] eqn:Ea; subst r1.
    + intros [= <- <-]. split_and!; try done. exists (d ++ [a_submit_er tx CLAIM_INBOX]), [tx]. split_and!; [done| |cbn; lia|eauto 10].
      by rewrite submissions_app, submissions_quiet.
    + intros H. cbn in H. apply IH in H as (Hp' & Hh' & Hr & k & txs & Hk & Hs & Hl & Hacc); [|by apply (honest_grow w s1 _ [a_sleep 2000])].
      cbn in *. split_and!; [congruence|done|done|]. exists ((d ++ [a_submit_er tx CLAIM_INBOX]) ++ [a_sleep 2000] ++ k), (tx :: txs).
      split_and!; [by rewrite Hk, Hd, <- !app_assoc| |cbn; lia|].
      * by rewrite !submissions_app, (submissions_quiet d), Hs.
      * intros Hr'. destruct (Hacc Hr') as (t & tx' & acc & Hlast & Ht). exists t, tx', acc. split; [|done].
        destruct txs; [done|]. exact Hlast.
Qed.

(** What a rollup deposit sent: nothing, or the transfer and then claims. *)
Definition deposit_sent (w : World) (r : unit + Failure) (acts : list Act) : Prop :=
  submissions acts = [] /\ r ≠ inl tt
  \/ exists transfer claims, submissions acts = a_submit_l1 transfer :: ((fun tx => a_submit_er tx CLAIM_INBOX) <$> claims)
      /\ (length claims <= 4)%nat
      /\ (claims ≠ [] -> exists t signature, w_submit_l1 w t transfer = inl signature)
      /\ (r = inl tt -> exists t tx accepted, list.last claims = Some tx /\ w_submit_er w t tx CLAIM_INBOX = inl accepted).

Definition deposit_ran (w : World) (s s' : St) (r : unit + Failure) : Prop :=
  r ≠ inr out_of_fuel /\ pending s' = pending s /\ honest w s' /\ exists acts, trace s' = trace s ++ acts /\ deposit_sent w r acts.

Lemma deposit_quits w s s' r : quits w s s' r -> deposit_ran w s s' r.
Proof.
  intros [((d & Hd & Hq) & Hp & Hh) [e ->]]. split_and!; try done. exists d. split; [done|]. left. split; [by apply submissions_quiet|done].
Qed.

(** The steps after the transfer, which ended at [s1]. *)
Lemma after_transfer w s s1 s2 s' r acts transfer k txs :
  trace s1 = trace s ++ acts -> submissions acts = [a_submit_l1 transfer] -> pending s1 = pending s ->
  reach w s1 s2 -> trace s' = trace s2 ++ k -> submissions k = (fun tx => a_submit_er tx CLAIM_INBOX) <$> txs -> (length txs <= 4)%nat ->
  pending s' = pending s2 -> honest w s' -> r ≠ inr out_of_fuel ->
  (txs ≠ [] -> exists t signature, w_submit_l1 w t transfer = inl signature) ->
  (r = inl tt -> exists t tx accepted, list.last txs = Some tx /\ w_submit_er w t tx CLAIM_INBOX = inl accepted) -> deposit_ran w s s' r.
Proof.
  intros H1 Hs Hp1 ((d & Hd & Hq) & Hp2 & _) Hk Hsk Hl Hp' Hh' Hr Hacc Hlast. split_and!; [done|congruence|done|].
  exists (acts ++ d ++ k). split; [by rewrite Hk, Hd, H1, <- !app_assoc|]. right. exists transfer, txs. split_and!; try done.
  by rewrite !submissions_app, Hs, Hsk, (submissions_quiet d).
Qed.

(** A deposit into the rollup moves the tokens at most once.  The flow sends at
    most one transfer into the vault; it claims it in the rollup only after
    Solana accepted that transfer, with at most four transactions; and it reports
    success only when the rollup accepted the last of them. *)
Theorem rollup_deposit_spec w fo web3 accounts amount s s' r :
  honest w s -> rollupDeposit w fo web3 accounts amount s = (s', r) ->
  r ≠ inr out_of_fuel /\ pending s' = pending s /\ honest w s'
  /\ exists acts, trace s' = trace s ++ acts /\ deposit_sent w r acts.
Proof.
  intros Hh H. change (deposit_ran w s s' r). unfold rollupDeposit in H. destruct (rc_v3 accounts) as [[dep ?]|].
  2: { injection H as <- <-. apply deposit_quits. split; [by apply reach_refl|eauto]. }
  apply (calm_bind_inv w) in H as [H|(? & s1 & _ & R1 & H)]; [by apply deposit_quits| |calm|done].
  apply (calm_bind_inv w) in H as [H|(inbox & s2 & _ & R2 & H)]; [by eapply deposit_quits, reach_quits| |calm|by eapply reach_honest].
  pose proof (reach_trans _ _ _ _ R1 R2) as R12. unfold io_bind at 1 in H. destruct (service_executeL1 w fo [inbox] false s2) as [s3 r3] eqn:E3.
  apply service_executeL1_run in E3 as [[R3 [e ->]]|((d3 & k & ts & bytes & transfer & Hd3 & Hq3 & Hqk & _ & _ & _ & Hacc) & Hp3 & Hh3 & Hne)]; [| |by eapply reach_honest].
  { injection H as <- <-. apply deposit_quits. split; [by eapply reach_trans|eauto]. }
  destruct R12 as ((d & Hd & Hq) & Hp & _). set (acts := d ++ d3 ++ [a_submit_l1 transfer] ++ k).
  assert (Ht : trace s3 = trace s ++ acts) by by rewrite Hd3, Hd, <- app_assoc.
  assert (Hs : submissions acts = [a_submit_l1 transfer])
    by by unfold acts; rewrite !submissions_app, (submissions_quiet _ Hq), (submissions_quiet _ Hq3), (submissions_quiet _ Hqk).
  destruct r3 as [result|e].
  2: { injection H as <- <-. eapply (after_transfer w s s3 s3 s3 _ acts transfer [] []); try done; [congruence|by apply reach_refl|by rewrite app_nil_r|cbn; lia|congruence]. }
  assert (Hstop : quits w s3 s' r -> deposit_ran w s s' r).
  { intros [R [e ->]]. eapply (after_transfer w s s3 s' s' _ acts transfer [] []); try done; [congruence|by rewrite app_nil_r|cbn; lia|by eapply reach_honest]. }
  apply (calm_bind_inv w) in H as [H|(? & s4 & _ & R4 & H)]; [by apply Hstop| |calm|done].
  apply (calm_bind_inv w) in H as [H|(? & s5 & _ & R5 & H)]; [by eapply Hstop, reach_quits| |calm|by eapply reach_honest].
  pose proof (reach_trans _ _ _ _ R4 R5) as R45.
  apply (calm_bind_inv w) in H as [H|(claim & s6 & _ & R6 & H)]; [by eapply Hstop, reach_quits| |calm|by eapply reach_honest].
  pose proof (reach_trans _ _ _ _ R45 R6) as R46.
  apply claim_attempts_run in H as (Hp' & Hh' & Hr & k' & txs & Hk' & Hs' & Hl & Hlast); [|by eapply reach_honest].
  eapply (after_transfer w s s3 s6 s' r acts transfer k' txs); try done; [congruence|]. intros _. destruct (Hacc result eq_refl) as (t & sg & ?). eauto.
Qed.

(** ** Concrete runs *)

(** A market whose rollup accepts everything and commits at once: every act takes one
    second, and the price was published when it is read. *)
Module Sample.
Definition web3 : Web3 := mkWeb3 (fun _ => Some (replicate 32 7)) (fun _ _ => replicate 32 9) (fun _ => "key") (replicate 32 3).
Definition key (n : Z) : AddressInput := addr_key (replicate 32 n).
Definition ix : TransactionInstruction := mkTransactionInstruction (replicate 32 0) [] [].
Definition spl : Spl := mkSpl (fun _ => ix) (fun _ _ _ => replicate 32 8) (fun _ _ _ _ _ => ix) (fun _ _ _ _ _ _ _ => ix) (key 5).
Definition now (t : list Act) : Z := 1000000 + 1000 * Z.of_nat (length t).
(** Requested so far: 5, and 12 once a request was submitted. *)
Definition shard_bytes (t : list Act) : list Z := replicate 1004 0 ++ le_split 8 (if decide (submissions t = []) then 5 else 12).
Definition world : World := {|
  w_now := now; w_publish_time := Some (fun t => inl (Some (1000 + Z.of_nat (length t)))); w_refresh := fun _ => inr (JsError "offline");
  w_sequence := fun _ => inl None; w_blockhash := fun _ _ => inl "hash"; w_encode := fun _ _ _ => inl [1]; w_sign := fun _ b => inl (9 :: b);
  w_simulate := fun _ _ => inl 1; w_submit_l1 := fun _ _ => inl "signature"; w_confirm := fun _ _ => inl true; w_submit_er := fun _ _ _ => inl (1, None);
  w_shard := fun t _ => inl (Some (shard_bytes t)); w_balance := fun _ _ => inl 0; w_seat := fun _ _ => inl None |}.
Definition fresh : FreshOptions := mkFreshOptions true 8000.
Definition execution : V3ExecutionAccounts := mkExecution (key 1) (replicate 18 (key 1)) (replicate 4 (key 2)) (replicate 4 (key 3)) (key 4) None (Some (key 6)).
Definition accounts : ResolvedCustodyAccounts :=
  mkResolved (mkCustody (key 1) (key 4) (key 1) (key 1) (key 1) (key 1) (Num 3) (key 1)) 3
    (Some (mkDepositAccounts (key 1) (key 2) (replicate 4 (key 3)) (key 4) (key 1) (key 1) (key 1) (key 1) None,
           mkWithdrawAccounts execution (key 1) (key 1) (key 1) (key 1) (key 1))).
Definition start : St := mkSt [] None false.
End Sample.

Lemma sample_regular : regular Sample.world.
Proof.
  split; cbn; unfold Sample.now.
  - intros t a. rewrite length_app. cbn. lia.
  - intros t. rewrite length_app. cbn. lia.
  - intros t a bs [= <-]. unfold Sample.shard_bytes. case_decide; apply uint8array_check; vm_compute; reflexivity.
Qed.

Lemma er_submission_fresh_witness :
  exists s' d ts unsigned,
    executeEr Sample.world (Some Sample.fresh) "PlaceOrderV3" [Sample.ix] ["core"] false Sample.start = (s', inl (1, None))
    /\ trace s' = d ++ [a_submit_er [9; 1] "PlaceOrderV3"] /\ submissions d = [] /\ signed_fresh Sample.world [] d ts unsigned.
Proof.
  destruct (executeEr Sample.world (Some Sample.fresh) "PlaceOrderV3" [Sample.ix] ["core"] false Sample.start) as [s' r] eqn:E.
  assert (r = inl (1, None)) as -> by (vm_compute in E; by injection E).
  destruct (er_submission_fresh Sample.world Sample.fresh "PlaceOrderV3" [Sample.ix] ["core"] Sample.start s' _ [9; 1] I E) as (d & ts & u & H1 & H2 & _ & _ & H3).
  - vm_compute in E. injection E as <-. cbn. set_solver.
  - exists s', d, ts, u. by split_and!.
Defined.


Lemma rollup_deposit_spec_witness :
  exists s', rollupDeposit Sample.world (Some Sample.fresh) Sample.web3 Sample.accounts 7 Sample.start = (s', inl tt)
    /\ deposit_sent Sample.world (inl tt) (trace s') /\ length (submissions (trace s')) = 2%nat.
Proof.
  destruct (rollupDeposit Sample.world (Some Sample.fresh) Sample.web3 Sample.accounts 7 Sample.start) as [s' r] eqn:E.
  assert (r = inl tt) as -> by (vm_compute in E; by injection E).
  destruct (rollup_deposit_spec Sample.world (Some Sample.fresh) Sample.web3 Sample.accounts 7 Sample.start s' _ I E) as (_ & _ & _ & acts & Ht & Hs).
  exists s'. cbn in Ht. rewrite Ht. split_and!; [done|exact Hs|]. rewrite <- Ht. vm_compute in E. injection E as <-. vm_compute. reflexivity.
Defined.
