(* ===== verification/MarketEvents.v ===== *)
(** * The browser's event feed

    features/activity/use-market-events.ts with lib/market-stream-events.ts and
    lib/activity-view-model.ts: the hook that loads a snapshot, follows the market
    stream and repairs gaps.  The hook is a state machine: its state is what
    React keeps and what the effect closes over, an input is a resolved snapshot
    request, a socket event, the reconnect timer, or the end of the effect.
    Snapshot requests may resolve in any order.  The sequence tracker is that of
    BrowserState. *)

From S2P Require Import Prelude Json ExecutionStatus BrowserState.

(** ** market-stream-events.ts *)

Record RawMarketEvent := mkRawEvent {
  me_id : string; me_kind : string; me_sequence : option Z; me_domain : option Domain; me_slot : option Z; me_observedAt : Z; me_payloadKind : option string }.
#[export] Instance raw_market_event_eq_dec : EqDecision RawMarketEvent.
Proof. solve_decision. Defined.

(** A stream payload: a per-domain snapshot (a domain without an event array has
    none), the flat snapshot, one pushed event, or anything else. *)
Inductive StreamPayload :=
  | payload_domains (domains : list (option (list RawMarketEvent))) | payload_events (events : option (list RawMarketEvent))
  | payload_event (e : RawMarketEvent) | payload_other.

Definition marketStreamEvents (data : StreamPayload) : list RawMarketEvent :=
  match data with
  | payload_domains ds => concat (default [] <$> ds)
  | payload_events es => default [] es
  | payload_event e => [e]
  | payload_other => []
  end.

(** ** use-market-events.ts *)

Definition MAX_EVENTS : nat := 100.
Definition RECONNECT_DELAY_MS : Z := 2000.
Definition MAX_RECONNECT_ATTEMPTS : Z := 5.

Inductive StreamStatus := ss_connecting | ss_live | ss_resynchronizing | ss_unavailable.
#[export] Instance stream_status_eq_dec : EqDecision StreamStatus.
Proof. solve_decision. Defined.

Definition hasSequenceAndDomain (e : RawMarketEvent) : option SequencedEvent :=
  match me_sequence e, me_domain e with Some s, Some d => Some (mkSequenced d s (me_slot e)) | _, _ => None end.

(** What follows a snapshot request: the first connection, going live after a gap, or
    a reconnection. *)
Inductive AfterLoad := then_connect_if_ok | then_live_if_ok | then_connect.
#[export] Instance after_load_eq_dec : EqDecision AfterLoad.
Proof. solve_decision. Defined.

Record Feed := mkFeed {
  events : list RawMarketEvent; status : StreamStatus; gapCount : Z; duplicateCount : Z; lastGapAt : option Z;
  tracker : SequenceTrackerState; stopped : bool;
  (** sockets created and not closed, requests in flight, the timer *)
  sockets : list nat; nextSocket : nat; loads : list AfterLoad; reconnectTimer : bool; consecutiveFailures : Z }.

Definition set_status (s : StreamStatus) (f : Feed) : Feed :=
  mkFeed (events f) s (gapCount f) (duplicateCount f) (lastGapAt f) (tracker f) (stopped f) (sockets f) (nextSocket f) (loads f) (reconnectTimer f) (consecutiveFailures f).
Definition set_events (es : list RawMarketEvent) (f : Feed) : Feed :=
  mkFeed es (status f) (gapCount f) (duplicateCount f) (lastGapAt f) (tracker f) (stopped f) (sockets f) (nextSocket f) (loads f) (reconnectTimer f) (consecutiveFailures f).
Definition set_tracker (t : SequenceTrackerState) (f : Feed) : Feed :=
  mkFeed (events f) (status f) (gapCount f) (duplicateCount f) (lastGapAt f) t (stopped f) (sockets f) (nextSocket f) (loads f) (reconnectTimer f) (consecutiveFailures f).
Definition set_wires (ss : list nat) (n : nat) (ls : list AfterLoad) (timer : bool) (fails : Z) (f : Feed) : Feed :=
  mkFeed (events f) (status f) (gapCount f) (duplicateCount f) (lastGapAt f) (tracker f) (stopped f) ss n ls timer fails.
Definition count_gap (now : Z) (f : Feed) : Feed :=
  mkFeed (events f) (status f) (gapCount f + 1) (duplicateCount f) (Some now) (tracker f) (stopped f) (sockets f) (nextSocket f) (loads f) (reconnectTimer f) (consecutiveFailures f).
Definition count_duplicate (f : Feed) : Feed :=
  mkFeed (events f) (status f) (gapCount f) (duplicateCount f + 1) (lastGapAt f) (tracker f) (stopped f) (sockets f) (nextSocket f) (loads f) (reconnectTimer f) (consecutiveFailures f).

(** [current === "resynchronizing" ? current : "live"] *)
Definition live_unless_resynchronizing (f : Feed) : Feed :=
  if decide (status f = ss_resynchronizing) then f else set_status ss_live f.

Definition start_load (k : AfterLoad) (f : Feed) : Feed :=
  set_wires (sockets f) (nextSocket f) (loads f ++ [k]) (reconnectTimer f) (consecutiveFailures f) f.

Definition connect (f : Feed) : Feed :=
  if stopped f then f else set_wires (sockets f ++ [nextSocket f]) (S (nextSocket f)) (loads f) (reconnectTimer f) (consecutiveFailures f) f.

(** The end of [loadSnapshot]: the feed and whether it answers true; [None] is a
    failed or refused request. *)
Definition loadSnapshot (answer : option StreamPayload) (f : Feed) : Feed * bool :=
  match answer with
  | None => (if stopped f then f else set_status ss_unavailable f, false)
  | Some data =>
      let es := marketStreamEvents data in
      if stopped f then (f, false)
      else (set_events (take MAX_EVENTS (reverse es)) (set_tracker (seedFromSnapshot (tracker f) (omap hasSequenceAndDomain es)) f), true)
  end.

Definition after_load (k : AfterLoad) (ok : bool) (f : Feed) : Feed :=
  match k with
  | then_connect_if_ok => if ok && negb (stopped f) then connect f else f
  | then_live_if_ok => if ok && negb (stopped f) then set_status ss_live f else f
  | then_connect => if negb (stopped f) then connect f else f
  end.

(** One event of a batch: the feed, and the event when it is shown. *)
Definition ingest_one (now : Z) (f : Feed) (e : RawMarketEvent) : Feed * option RawMarketEvent :=
  match hasSequenceAndDomain e with
  | None => (f, Some e)
  | Some q =>
      let result := advanceSequence (tracker f) q in
      let f := set_tracker (ad_state result) f in
      match ad_outcome result with
      | seq_duplicate => (count_duplicate f, None)
      | seq_gap | seq_slot_regression => (start_load then_live_if_ok (set_status ss_resynchronizing (count_gap now f)), Some e)
      | seq_first | seq_in_order => (f, Some e)
      end
  end.

Fixpoint ingest_all (now : Z) (f : Feed) (incoming : list RawMarketEvent) : Feed * list RawMarketEvent :=
  match incoming with
  | [] => (f, [])
  | e :: rest =>
      let '(f, shown) := ingest_one now f e in
      let '(f, accepted) := ingest_all now f rest in
      (f, option_list shown ++ accepted)
  end.

Definition ingest (now : Z) (incoming : list RawMarketEvent) (f : Feed) : Feed :=
  match incoming with
  | [] => f
  | _ =>
      let '(f, accepted) := ingest_all now f incoming in
      let f := match accepted with [] => f | _ => set_events (take MAX_EVENTS (accepted ++ events f)) f end in
      live_unless_resynchronizing f
  end.

Definition on_open (f : Feed) : Feed :=
  let f := set_wires (sockets f) (nextSocket f) (loads f) (reconnectTimer f) 0 f in
  if stopped f then f else live_unless_resynchronizing f.

(** [onclose]; the socket is gone. *)
Definition on_close (f : Feed) : Feed :=
  if stopped f then f
  else
    let failures := consecutiveFailures f + 1 in
    if MAX_RECONNECT_ATTEMPTS <=? failures then set_status ss_unavailable (set_wires (sockets f) (nextSocket f) (loads f) (reconnectTimer f) failures f)
    else set_status ss_resynchronizing (set_wires (sockets f) (nextSocket f) (loads f) true failures f).

(** The mounted effect, its first request in flight. *)
Definition useMarketEvents : Feed :=
  mkFeed [] ss_connecting 0 0 None INITIAL_SEQUENCE_TRACKER false [] 0 [then_connect_if_ok] false 0.

Inductive FeedInput :=
  | in_loaded (request : nat) (answer : option StreamPayload)
  | in_open (socket : nat) | in_message (socket : nat) (now : Z) (data : StreamPayload) | in_close (socket : nat) | in_timer | in_cleanup.

Definition drop_nth {A} (n : nat) (l : list A) : list A := take n l ++ drop (S n) l.

(** An input for a request, socket or timer that is not there changes nothing.  The
    cleanup closes the socket, whose close event then finds the effect stopped. *)
Definition feed_step (f : Feed) (i : FeedInput) : Feed :=
  match i with
  | in_loaded n answer =>
      match loads f !! n with
      | None => f
      | Some k =>
          let f := set_wires (sockets f) (nextSocket f) (drop_nth n (loads f)) (reconnectTimer f) (consecutiveFailures f) f in
          let '(f, ok) := loadSnapshot answer f in after_load k ok f
      end
  | in_open s => if decide (s ∈ sockets f) then on_open f else f
  | in_message s now data => if decide (s ∈ sockets f) then ingest now (reverse (marketStreamEvents data)) f else f
  | in_close s =>
      if decide (s ∈ sockets f)
      then on_close (set_wires (filter (fun x => x ≠ s) (sockets f)) (nextSocket f) (loads f) (reconnectTimer f) (consecutiveFailures f) f)
      else f
  | in_timer =>
      if reconnectTimer f
      then start_load then_connect (set_wires (sockets f) (nextSocket f) (loads f) false (consecutiveFailures f) f)
      else f
  | in_cleanup =>
      mkFeed (events f) (status f) (gapCount f) (duplicateCount f) (lastGapAt f) (tracker f) true [] (nextSocket f) (loads f) false (consecutiveFailures f)
  end.

Definition feed_run (inputs : list FeedInput) (f : Feed) : Feed := foldl feed_step f inputs.

(** ** activity-view-model.ts *)

Record ActivityRowView := mkActivityRow {
  ar_id : string; ar_category : string; ar_detail : string; ar_sequence : option Z; ar_domain : option Domain; ar_observedAt : Z }.

Definition ACTIVITY_DETAIL_UNAVAILABLE : string := "details unavailable".

Definition toActivityRow (e : RawMarketEvent) : ActivityRowView :=
  mkActivityRow (me_id e) (me_kind e) (default ACTIVITY_DETAIL_UNAVAILABLE (me_payloadKind e)) (me_sequence e) (me_domain e) (me_observedAt e).

Definition ACTIVITY_FILTERS : list (string * option (list string)) :=
  [("all", None); ("trades", Some ["fill"]); ("orders", Some ["book"]); ("funding", Some ["funding"]); ("oracle", Some ["oracle"]);
   ("custody", Some ["custody"]); ("market", Some ["health"])].

Definition matchesActivityFilter (category filter_ : string) : bool :=
  match list_find (fun f => fst f = filter_) ACTIVITY_FILTERS with
  | Some (_, (_, Some categories)) => bool_decide (category ∈ categories)
  | _ => true
  end.

(** ** trading-terminal.tsx: the latest lifecycle event *)

(** [lifecycleEventRef] and the state set with it; the reference outlives the effect,
    which runs once per market. *)
Definition LifecycleRef : Type := option (Z * string).

Definition lifecycle_of (e : RawMarketEvent) : option (Z * string) :=
  match me_payloadKind e, me_sequence e with
  | Some kind, Some sequence => if bool_decide (kind ≠ "" /\ kind ∈ ORACLE_LIFECYCLE_EVENT_KINDS) then Some (sequence, kind) else None
  | _, _ => None
  end.

Definition applyEvent (ref : LifecycleRef) (e : RawMarketEvent) : LifecycleRef :=
  match lifecycle_of e with
  | Some (sequence, kind) => if match ref with Some (held, _) => held <? sequence | None => true end then Some (sequence, kind) else ref
  | None => ref
  end.
Definition applyEvents (es : list RawMarketEvent) (ref : LifecycleRef) : LifecycleRef := foldl applyEvent ref es.

(** ** What the feed shows *)

Definition tracked_key (e : RawMarketEvent) : option (Domain * Z) :=
  (fun q => (sq_domain q, sq_sequence q)) <$> hasSequenceAndDomain e.
Definition shown_keys (es : list RawMarketEvent) : list (Domain * Z) := omap tracked_key es.
Arguments shown_keys : simpl never.

(** A key the tracker has passed. *)
Definition passed (t : SequenceTrackerState) (k : Domain * Z) : Prop :=
  exists c, cursor_of k.1 t = Some c /\ k.2 <= dc_sequence c.

Record shown_ok (t : SequenceTrackerState) (es : list RawMarketEvent) : Prop := mkShownOk {
  shown_once : NoDup (shown_keys es); shown_passed : Forall (passed t) (shown_keys es) }.

Lemma passed_advance t q k : passed t k -> passed (ad_state (advanceSequence t q)) k.
Proof. intros (c & Hc & Hle). destruct (advance_cursor k.1 t q c Hc) as (c' & Hc' & Hle' & _). exists c'. split; [done|lia]. Qed.

Lemma passed_seed t qs k : passed t k -> passed (seedFromSnapshot t qs) k.
Proof.
  intros (c & Hc & Hle). destruct (seed_takes_the_maximum t qs k.1) as [H _]. unfold passed.
  destruct (cursor_of k.1 (seedFromSnapshot t qs)) as [c'|]; [|naive_solver].
  exists c'. split; [done|]. destruct H as [_ [?|[_ Hlt]]]; [|specialize (Hlt c Hc); lia]. simplify_eq. lia.
Qed.

(** Every tracked event of a snapshot is passed once the snapshot has seeded the tracker. *)
Lemma seeded_passed t es : Forall (passed (seedFromSnapshot t (omap hasSequenceAndDomain es))) (shown_keys es).
Proof.
  apply list.Forall_forall. intros [d n] Hk. unfold shown_keys, tracked_key in Hk. apply list_elem_of_omap in Hk as (e & He & Hq).
  destruct (hasSequenceAndDomain e) as [q|] eqn:Eq; cbn in Hq; simplify_eq.
  assert (sq_sequence q ∈ snapshot_sequences (sq_domain q) (omap hasSequenceAndDomain es)) as Hin.
  { unfold snapshot_sequences. apply list_elem_of_fmap. exists q. split; [done|]. apply list_elem_of_filter. split; [done|].
    apply list_elem_of_omap. by exists e. }
  destruct (seed_takes_the_maximum t (omap hasSequenceAndDomain es) (sq_domain q)) as [H _]. unfold passed. cbn.
  destruct (cursor_of _ _) as [c|].
  - exists c. split; [done|]. destruct H as [H _]. rewrite list.Forall_forall in H. by apply H.
  - destruct H as [_ H]. rewrite H in Hin. by apply elem_of_nil in Hin.
Qed.

(** The outcome decides: a duplicate was already passed, anything else was not. *)
Lemma advance_passes t q :
  passed (ad_state (advanceSequence t q)) (sq_domain q, sq_sequence q)
  /\ (ad_outcome (advanceSequence t q) = seq_duplicate <-> passed t (sq_domain q, sq_sequence q)).
Proof.
  unfold passed, advanceSequence. cbn. destruct (cursor_of (sq_domain q) t) as [c|] eqn:Ec.
  - destruct (sq_sequence q <=? dc_sequence c) eqn:E; zbool; cbn; [naive_solver|].
    assert (~ exists c0, Some c = Some c0 /\ sq_sequence q <= dc_sequence c0) by (intros (? & [= <-] & ?); lia).
    repeat case_match; cbn; rewrite ?cursor_of_with; split; try split; try done; eexists; (split; [done|]); cbn; lia.
  - cbn. rewrite cursor_of_with. split; [eexists; split; [done|]; cbn; lia|]. split; [done|]. naive_solver.
Qed.

Lemma shown_keys_app l k : shown_keys (l ++ k) = shown_keys l ++ shown_keys k.
Proof. apply omap_app. Qed.
Lemma shown_keys_cons e l : shown_keys (e :: l) = option_list (tracked_key e) ++ shown_keys l.
Proof. unfold shown_keys. cbn. by destruct (tracked_key e). Qed.

Lemma shown_ok_take n t es : shown_ok t es -> shown_ok t (take n es).
Proof.
  intros [H1 H2]. rewrite <- (take_drop n es), shown_keys_app in H1, H2. apply list.NoDup_app in H1 as [H1 _]. apply Forall_app in H2 as [H2 _]. by split.
Qed.

(** What a batch does to the rest of the feed: one gap repair is requested per gap
    reported, and nothing else of the wiring changes. *)
Record ingested (f f' : Feed) (k : nat) : Prop := mkIngested {
  ig_loads : loads f' = loads f ++ replicate k then_live_if_ok;
  ig_gaps : gapCount f' = gapCount f + Z.of_nat k;
  ig_status : status f' = if decide (k = 0%nat) then status f else ss_resynchronizing;
  ig_same : events f' = events f /\ stopped f' = stopped f /\ sockets f' = sockets f /\ nextSocket f' = nextSocket f
    /\ reconnectTimer f' = reconnectTimer f /\ consecutiveFailures f' = consecutiveFailures f;
  ig_passed : forall x, passed (tracker f) x -> passed (tracker f') x }.

Lemma ingested_trans f g h j k : ingested f g j -> ingested g h k -> ingested f h (j + k).
Proof.
  intros [L1_ G1 S1 E1 P1] [L2 G2 S2 E2 P2]. split.
  - by rewrite L2, L1_, <- app_assoc, replicate_add.
  - lia.
  - rewrite S2, S1. repeat case_decide; (done || lia).
  - naive_solver congruence.
  - auto.
Qed.

Lemma ingest_one_spec now f e f' shown :
  ingest_one now f e = (f', shown) ->
  (exists k, ingested f f' k)
  /\ match tracked_key e with
     | None => shown = Some e
     | Some x => passed (tracker f') x /\ ((shown = None /\ passed (tracker f) x) \/ (shown = Some e /\ ~ passed (tracker f) x))
     end.
Proof.
  unfold ingest_one, tracked_key. destruct (hasSequenceAndDomain e) as [q|]; cbn; intros H.
  - destruct (advance_passes (tracker f) q) as [Hp Hd]. pose proof (passed_advance (tracker f) q) as Hmono.
    destruct (ad_outcome (advanceSequence (tracker f) q)) eqn:Eo; simplify_eq; cbn.
    all: split; [|split; [done|]; (left; naive_solver) || (right; split; [done|]; naive_solver)].
    all: solve [exists 0%nat; split; cbn; rewrite ?app_nil_r; solve [done | lia | auto] | exists 1%nat; split; cbn; solve [done | lia | auto]].
  - simplify_eq. split; [|done]. exists 0%nat. split; cbn; rewrite ?app_nil_r; (done || lia).
Qed.

Lemma ingest_all_spec now l f f' accepted :
  ingest_all now f l = (f', accepted) ->
  (exists k, ingested f f' k) /\ shown_ok (tracker f') accepted /\ Forall (fun x => ~ passed (tracker f) x) (shown_keys accepted)
  /\ Forall (passed (tracker f')) (shown_keys l) /\ accepted ⊆ l.
Proof.
  revert f accepted. induction l as [|e l IH]; intros f accepted H; cbn in H.
  { simplify_eq. split_and!; [exists 0%nat; split; cbn; rewrite ?app_nil_r; (done || lia)|split; constructor|constructor|constructor|set_solver]. }
  destruct (ingest_one now f e) as [f1 shown] eqn:E1. destruct (ingest_all now f1 l) as [f2 acc] eqn:E2. simplify_eq.
  destruct (ingest_one_spec _ _ _ _ _ E1) as [[j Hj] Hk]. destruct (IH _ _ E2) as ([k Hk2] & [Hn Hp] & Hnew & Hall & Hsub).
  assert (Forall (fun x => ~ passed (tracker f) x) (shown_keys acc)) as Hnew'.
  { eapply Forall_impl; [|exact Hnew]. intros x Hx ?. by apply Hx, (ig_passed _ _ _ Hj). }
  split; [exists (j + k)%nat; by eapply ingested_trans|]. rewrite (shown_keys_cons e l).
  destruct (tracked_key e) as [x|] eqn:Ex.
  - destruct Hk as [Hx [[-> Hold]|[-> Hnot]]]; cbn.
    + split_and!; [by split|done|constructor; [by apply (ig_passed _ _ _ Hk2)|done]|set_solver].
    + rewrite shown_keys_cons, Ex. cbn. split_and!; [|by constructor|constructor; [by apply (ig_passed _ _ _ Hk2)|done]|set_solver].
      split; rewrite shown_keys_cons, Ex; cbn; constructor; [|done|by apply (ig_passed _ _ _ Hk2)|done].
      intros Hin. rewrite list.Forall_forall in Hnew. by apply (Hnew x).
  - rewrite Hk. cbn. rewrite shown_keys_cons, Ex. split_and!; [split; by rewrite shown_keys_cons, Ex|done|done|set_solver].
Qed.

(** ** The wiring *)

(** Whatever leads to a socket: one that is there, a reconnection that is timed, a
    request that ends in a connection. *)
Definition wires (f : Feed) : nat :=
  (length (sockets f) + (if reconnectTimer f then 1 else 0) + length (filter (fun k => k ≠ then_live_if_ok) (loads f)))%nat.

Record wired (f : Feed) : Prop := mkWired {
  wi_stopped : stopped f = true -> sockets f = [] /\ reconnectTimer f = false;
  wi_one : stopped f = false ->
    (wires f = 1%nat /\ consecutiveFailures f < MAX_RECONNECT_ATTEMPTS)
    \/ (wires f = 0%nat /\ (consecutiveFailures f = MAX_RECONNECT_ATTEMPTS \/ nextSocket f = 0%nat));
  wi_first : then_connect_if_ok ∈ loads f -> nextSocket f = 0%nat;
  wi_failures : 0 <= consecutiveFailures f <= MAX_RECONNECT_ATTEMPTS }.

Lemma filter_drop_nth (P : AfterLoad -> Prop) `{!forall k, Decision (P k)} l n k :
  l !! n = Some k -> length (filter P l) = (length (filter P (drop_nth n l)) + if decide (P k) then 1 else 0)%nat.
Proof.
  intros Hn. rewrite <- (take_drop_middle l n k Hn) at 1. unfold drop_nth. rewrite !list.filter_app, !length_app, filter_cons.
  case_decide; cbn; lia.
Qed.

Lemma filter_repairs k : filter (fun k => k ≠ then_live_if_ok) (replicate k then_live_if_ok) = [].
Proof. by induction k. Qed.

Definition connects (k : AfterLoad) (ok : bool) : bool :=
  match k with then_connect_if_ok => ok | then_live_if_ok => false | then_connect => true end.

Lemma after_load_kept k ok f :
  stopped f = false ->
  let f' := after_load k ok f in
  wires f' = (wires f + if connects k ok then 1 else 0)%nat /\ nextSocket f' = (nextSocket f + if connects k ok then 1 else 0)%nat
  /\ stopped f' = false /\ consecutiveFailures f' = consecutiveFailures f /\ loads f' = loads f.
Proof.
  intros Hs. unfold wires, after_load, connect. destruct k, ok; rewrite Hs; cbn; rewrite ?length_app; split_and!; try done; cbn; lia.
Qed.

Lemma load_kept f answer :
  let f' := (loadSnapshot answer f).1 in
  wires f' = wires f /\ stopped f' = stopped f /\ sockets f' = sockets f /\ reconnectTimer f' = reconnectTimer f
  /\ consecutiveFailures f' = consecutiveFailures f /\ nextSocket f' = nextSocket f /\ loads f' = loads f.
Proof. unfold loadSnapshot. destruct answer; cbn; by case_match. Qed.

Lemma no_first_load f : wires f = 0%nat -> then_connect_if_ok ∉ loads f.
Proof.
  intros H Hin. assert (then_connect_if_ok ∈ filter (fun k => k ≠ then_live_if_ok) (loads f)) as Hf by by apply list_elem_of_filter.
  unfold wires in H. destruct (filter _ (loads f)); [by apply elem_of_nil in Hf|cbn in H; lia].
Qed.

Lemma wired_loaded f n answer : wired f -> wired (feed_step f (in_loaded n answer)).
Proof.
  intros [Hst Hone Hfirst Hfail]. cbn. destruct (loads f !! n) as [k|] eqn:Hk; [|by split].
  set (g := set_wires _ _ (drop_nth n (loads f)) _ _ f).
  assert (wires f = wires g + match k with then_live_if_ok => 0 | _ => 1 end)%nat as Hw.
  { unfold wires. rewrite (filter_drop_nth (fun k => k ≠ then_live_if_ok) _ _ _ Hk). cbn. destruct k; case_decide; (done || lia). }
  assert (forall x, x ∈ loads g -> x ∈ loads f) as Hsub.
  { intros x Hx. rewrite <- (take_drop_middle (loads f) n k Hk). revert Hx. cbn. unfold drop_nth.
    rewrite !elem_of_app, elem_of_cons. clear. tauto. }
  assert (stopped g = stopped f /\ sockets g = sockets f /\ reconnectTimer g = reconnectTimer f
    /\ consecutiveFailures g = consecutiveFailures f /\ nextSocket g = nextSocket f) as (G1 & G2 & G3 & G4 & G5) by done.
  clearbody g. pose proof (load_kept g answer) as (W & S1 & K & T & F & N & L).
  destruct (loadSnapshot answer g) as [h ok]. cbn in W, S1, K, T, F, N, L. rewrite G1 in S1. rewrite G2 in K. rewrite G3 in T. rewrite G4 in F. rewrite G5 in N.
  assert (k = then_connect_if_ok -> nextSocket f = 0%nat) as Hk0 by (intros ->; apply Hfirst; by eapply list_elem_of_lookup_2).
  destruct (stopped f) eqn:Es.
  - assert (after_load k ok h = h) as -> by (unfold after_load; destruct k; rewrite S1, ?andb_false_r; done).
    split; rewrite ?S1, ?K, ?T, ?F, ?N, ?L; auto; done.
  - specialize (Hone eq_refl). destruct (after_load_kept k ok h S1) as (A1 & A2 & A3 & A4 & A5). rewrite W in A1. rewrite N in A2.
    split; rewrite ?A3, ?A4, ?A5, ?L, ?F; [done| |intros Hin|done].
    + intros _. rewrite A1, A2. destruct k, ok; cbn in *; rewrite ?Hk0 by done; lia.
    + rewrite A2. pose proof (Hfirst (Hsub _ Hin)). destruct (connects k ok) eqn:Ec; [|lia].
      exfalso. apply (no_first_load g); [|done]. destruct k, ok; cbn in *; lia || done.
Qed.

Lemma live_unless_kept f :
  let f' := live_unless_resynchronizing f in
  wires f' = wires f /\ stopped f' = stopped f /\ sockets f' = sockets f /\ reconnectTimer f' = reconnectTimer f
  /\ consecutiveFailures f' = consecutiveFailures f /\ nextSocket f' = nextSocket f /\ loads f' = loads f /\ tracker f' = tracker f
  /\ events f' = events f /\ gapCount f' = gapCount f.
Proof. unfold live_unless_resynchronizing. by case_decide. Qed.

(** A batch, as a whole. *)
Lemma feed_ingest_spec now l f :
  let f' := ingest now l f in
  exists k accepted, loads f' = loads f ++ replicate k then_live_if_ok
  /\ gapCount f' = gapCount f + Z.of_nat k
  /\ status f' = (if decide (k = 0%nat /\ status f ≠ ss_resynchronizing /\ l ≠ []) then ss_live else if decide (k = 0%nat) then status f else ss_resynchronizing)
  /\ (events f' = take MAX_EVENTS (accepted ++ events f) \/ (accepted = [] /\ events f' = events f))
  /\ shown_ok (tracker f') accepted /\ Forall (fun x => ~ passed (tracker f) x) (shown_keys accepted)
  /\ Forall (passed (tracker f')) (shown_keys l) /\ accepted ⊆ l
  /\ (forall x, passed (tracker f) x -> passed (tracker f') x)
  /\ stopped f' = stopped f /\ sockets f' = sockets f /\ nextSocket f' = nextSocket f
  /\ reconnectTimer f' = reconnectTimer f /\ consecutiveFailures f' = consecutiveFailures f.
Proof.
  unfold ingest. destruct l as [|e l].
  { exists 0%nat, []. cbn. rewrite app_nil_r. split_and!; try done; try lia; [by case_decide; naive_solver|by right|by split; constructor]. }
  remember (e :: l) as l' eqn:El. destruct (ingest_all now f l') as [g accepted] eqn:E.
  destruct (ingest_all_spec _ _ _ _ _ E) as ([k [L G St (E1 & E2 & E3 & E4 & E5 & E6) P]] & Hok & Hnew & Hall & Hsub).
  exists k, accepted. set (h := match accepted with [] => g | _ => _ end).
  assert (loads h = loads g /\ gapCount h = gapCount g /\ status h = status g /\ tracker h = tracker g /\ stopped h = stopped g /\ sockets h = sockets g
    /\ nextSocket h = nextSocket g /\ reconnectTimer h = reconnectTimer g /\ consecutiveFailures h = consecutiveFailures g
    /\ (events h = take MAX_EVENTS (accepted ++ events g) \/ (accepted = [] /\ events h = events g)))
    as (H1 & H2 & H3 & H4 & H5 & H6 & H7 & H8 & H9 & H10) by (unfold h; clear; destruct accepted; cbn; split_and!; auto).
  clearbody h. destruct (live_unless_kept h) as (_ & -> & -> & -> & -> & -> & -> & -> & -> & ->).
  rewrite H1, H2, H4, H5, H6, H7, H8, H9, <- E1. split_and!; try done; try congruence.
  unfold live_unless_resynchronizing. rewrite H3, St. repeat case_decide; cbn; try congruence; naive_solver congruence.
Qed.

Lemma socket_wired f s : wired f -> s ∈ sockets f -> stopped f = false /\ sockets f = [s] /\ wires f = 1%nat /\ consecutiveFailures f < MAX_RECONNECT_ATTEMPTS.
Proof.
  intros [Hst Hone _ _] Hin. destruct (stopped f) eqn:Es.
  { destruct (Hst eq_refl) as [H _]. rewrite H in Hin. by apply elem_of_nil in Hin. }
  split; [done|]. specialize (Hone eq_refl). unfold wires in *. destruct (sockets f) as [|s1 [|s2 ss]]; cbn in *; [by apply elem_of_nil in Hin| |lia].
  apply list_elem_of_singleton in Hin as ->. split; [done|]. lia.
Qed.

Lemma wired_step f i : wired f -> wired (feed_step f i).
Proof.
  intros Hf. destruct i as [n answer|s|s now data|s| |]; [by apply wired_loaded|..]; cbn.
  - case_decide as Hin; [|done]. destruct (socket_wired f s Hf Hin) as (Hs & Hss & Hw & Hlt). unfold on_open. cbn. rewrite Hs.
    set (g := set_wires _ _ _ _ _ f). destruct (live_unless_kept g) as (K1 & K2 & K3 & K4 & K5 & K6 & K7 & _).
    split; rewrite ?K1, ?K2, ?K5, ?K6, ?K7; cbn; [congruence| |apply Hf|unfold MAX_RECONNECT_ATTEMPTS; lia].
    intros _. left. split; [exact Hw|unfold MAX_RECONNECT_ATTEMPTS; lia].
  - case_decide as Hin; [|done]. destruct (socket_wired f s Hf Hin) as (Hs & Hss & Hw & Hlt).
    destruct (feed_ingest_spec now (reverse (marketStreamEvents data)) f) as (k & acc & L & _ & _ & _ & _ & _ & _ & _ & _ & S1 & S2 & S3 & S4 & S5).
    split; rewrite ?S1, ?S3, ?S5; [congruence| | |apply Hf].
    + intros _. left. split; [|done]. rewrite <- Hw. unfold wires. rewrite L, S2, S4, list.filter_app, filter_repairs, app_nil_r. done.
    + rewrite L, elem_of_app. intros [?|Hr]; [by apply Hf|]. by apply elem_of_replicate_inv in Hr.
  - case_decide as Hin; [|done]. destruct (socket_wired f s Hf Hin) as (Hs & Hss & Hw & Hlt). pose proof (wi_failures f Hf).
    assert (filter (fun x => x ≠ s) (sockets f) = []) as Hnil by (rewrite Hss, filter_cons; by case_decide).
    unfold on_close. cbn. rewrite Hs, Hnil. unfold wires in Hw. rewrite Hss in Hw. cbn in Hw.
    destruct (MAX_RECONNECT_ATTEMPTS <=? _) eqn:E; zbool; (split; cbn; [intros; congruence| |apply Hf|lia]); intros _; unfold wires; cbn; destruct (reconnectTimer f); lia.
  - destruct (reconnectTimer f) eqn:Et; [|done].
    assert (stopped f = false) as Hs by (destruct (stopped f) eqn:Es; [|done]; destruct (wi_stopped f Hf Es); congruence).
    pose proof (wi_one f Hf Hs) as Hone. pose proof (wi_failures f Hf). unfold wires in Hone. rewrite Et in Hone.
    split; cbn; [intros; congruence| |rewrite elem_of_app, list_elem_of_singleton; intros [?|?]; [by apply Hf|done]|done].
    intros _. left. unfold wires. cbn. rewrite list.filter_app, length_app. cbn. case_decide; [cbn; lia|done].
  - split; cbn; [done|done|apply Hf|apply Hf].
Qed.

(** ** The feed as a whole *)

Record feed_ok (f : Feed) : Prop := mkFeedOk {
  fo_length : (length (events f) <= MAX_EVENTS)%nat; fo_shown : shown_ok (tracker f) (events f) }.

(** A snapshot lists an event once. *)
Definition distinct_snapshot (i : FeedInput) : Prop :=
  match i with in_loaded _ (Some data) => NoDup (shown_keys (marketStreamEvents data)) | _ => True end.

Lemma shown_ok_reverse t es : shown_ok t es -> shown_ok t (reverse es).
Proof.
  intros [H1 H2]. assert (shown_keys (reverse es) ≡ₚ shown_keys es) as Hp by (apply omap_Permutation, reverse_Permutation).
  split; by rewrite Hp.
Qed.

Lemma loadSnapshot_ok f answer :
  match answer with Some data => NoDup (shown_keys (marketStreamEvents data)) | None => True end -> feed_ok f -> feed_ok (loadSnapshot answer f).1.
Proof.
  intros Hd [Hlen Hshown]. unfold loadSnapshot. destruct answer as [data|]; cbn; case_match; cbn; try by split.
  split; cbn -[take]; [rewrite length_take; unfold MAX_EVENTS; lia|]. apply shown_ok_take, shown_ok_reverse. split; [done|apply seeded_passed].
Qed.

Lemma ingest_ok now l f : feed_ok f -> feed_ok (ingest now l f).
Proof.
  intros [Hlen Hs]. destruct (feed_ingest_spec now l f) as (k & acc & _ & _ & _ & Hev & [Ha Hp] & Hnew & _ & _ & Hmono & _).
  assert (shown_ok (tracker (ingest now l f)) (acc ++ events f)) as Hall.
  { destruct Hs as [H1 H2]. split; rewrite shown_keys_app.
    - apply list.NoDup_app. split_and!; [done| |done]. intros x Hx Hy. rewrite list.Forall_forall in Hnew, H2. apply (Hnew x Hx), H2, Hy.
    - apply Forall_app. split; [done|]. eapply Forall_impl; [|exact H2]. auto. }
  destruct Hev as [Hev|[-> Hev]]; split; rewrite Hev; [rewrite length_take; lia|by apply shown_ok_take|done|done].
Qed.

Lemma feed_ok_congr f g : tracker g = tracker f -> events g = events f -> feed_ok f -> feed_ok g.
Proof. intros Ht He [H1 H2]. by split; rewrite ?He, ?Ht. Qed.

Lemma after_load_shows k ok f : tracker (after_load k ok f) = tracker f /\ events (after_load k ok f) = events f.
Proof. unfold after_load, connect. destruct k; repeat case_match; done. Qed.

Lemma feed_ok_step f i : distinct_snapshot i -> feed_ok f -> feed_ok (feed_step f i).
Proof.
  intros Hd Hf. destruct i as [n answer|s|s now data|s| |]; cbn.
  - destruct (loads f !! n) as [k|]; [|done]. set (g := set_wires _ _ _ _ _ f).
    pose proof (loadSnapshot_ok g answer Hd (feed_ok_congr f g eq_refl eq_refl Hf)) as Hg. destruct (loadSnapshot answer g) as [h ok].
    destruct (after_load_shows k ok h). by eapply feed_ok_congr.
  - case_decide; [|done]. unfold on_open. cbn. case_match; [by apply (feed_ok_congr f)|].
    set (g := set_wires _ _ _ _ _ f). destruct (live_unless_kept g) as (_ & _ & _ & _ & _ & _ & _ & K1 & K2 & _). by apply (feed_ok_congr f).
  - case_decide; [|done]. by apply ingest_ok.
  - case_decide; [|done]. unfold on_close. repeat case_match; by apply (feed_ok_congr f).
  - case_match; [|done]. by apply (feed_ok_congr f).
  - by apply (feed_ok_congr f).
Qed.

Lemma feed_run_ok inputs f : Forall distinct_snapshot inputs -> feed_ok f -> wired f -> feed_ok (feed_run inputs f) /\ wired (feed_run inputs f).
Proof.
  intros Hall. revert f. induction Hall as [|i inputs Hi _ IH]; intros f Hf Hw; [done|].
  apply IH; [by apply feed_ok_step|by apply wired_step].
Qed.

Lemma mounted_ok : feed_ok useMarketEvents /\ wired useMarketEvents.
Proof.
  split; split; cbn; try done; try (unfold MAX_EVENTS; lia); [split; constructor|]. intros _. by left.
Qed.

(** What React renders. *)
Definition rendered (f : Feed) := (events f, status f, gapCount f, duplicateCount f, lastGapAt f).

Lemma stopped_step f i :
  wired f -> stopped f = true -> rendered (feed_step f i) = rendered f /\ stopped (feed_step f i) = true.
Proof.
  intros Hw Hs. destruct (wi_stopped f Hw Hs) as [Hss Ht].
  destruct i as [n answer|s|s now data|s| |]; cbn; rewrite ?Hss; try (case_decide as Hin; [by apply elem_of_nil in Hin|done]).
  - destruct (loads f !! n) as [k|]; [|done]. destruct answer as [data|], k; unfold after_load; cbn; rewrite ?Hs; cbn; by rewrite ?Hs.
  - by rewrite Ht.
  - done.
Qed.

Lemma stopped_run inputs f : wired f -> stopped f = true -> rendered (feed_run inputs f) = rendered f.
Proof.
  revert f. induction inputs as [|i inputs IH]; intros f Hw Hs; [done|]. destruct (stopped_step f i Hw Hs) as [<- Hs'].
  apply IH; [by apply wired_step|done].
Qed.

(** C37. The activity feed, over every order in which requests resolve, sockets
    open, deliver and close, and the timer fires.  At most 100 events are
    shown; a sequenced event is shown at most once and the tracker has passed
    every sequenced event shown; a running feed has exactly one thing that
    leads to a connection (a socket, a timed reconnection or a request), or none
    when five attempts in a row have failed or the first snapshot never came;
    and once the effect has ended nothing it renders changes again. *)
Theorem feed_invariant inputs :
  Forall distinct_snapshot inputs ->
  let f := feed_run inputs useMarketEvents in
  (length (events f) <= MAX_EVENTS)%nat
  /\ NoDup (shown_keys (events f))
  /\ Forall (passed (tracker f)) (shown_keys (events f))
  /\ (stopped f = false ->
       (wires f = 1%nat /\ consecutiveFailures f < MAX_RECONNECT_ATTEMPTS)
       \/ (wires f = 0%nat /\ (consecutiveFailures f = MAX_RECONNECT_ATTEMPTS \/ nextSocket f = 0%nat)))
  /\ (stopped f = true -> forall more, rendered (feed_run more f) = rendered f).
Proof.
  intros Hall f. destruct mounted_ok as [H1 H2]. destruct (feed_run_ok inputs useMarketEvents Hall H1 H2) as [[Hl [Hn Hp]] Hw].
  split_and!; [exact Hl|exact Hn|exact Hp|exact (wi_one _ Hw)|]. intros Hs more. by apply stopped_run.
Qed.

Definition sample_raw_event (n : Z) : RawMarketEvent := mkRawEvent "e" "fill" (Some n) (Some ER) None 0 None.
Definition sample_feed_inputs : list FeedInput :=
  [in_loaded 0 (Some (payload_events (Some [sample_raw_event 1; sample_raw_event 2]))); in_open 0;
   in_message 0 50 (payload_event (sample_raw_event 2)); in_message 0 60 (payload_event (sample_raw_event 3))].

Lemma feed_invariant_witness :
  let f := feed_run sample_feed_inputs useMarketEvents in
  events f = [sample_raw_event 3; sample_raw_event 2; sample_raw_event 1] /\ status f = ss_live /\ duplicateCount f = 1 /\ NoDup (shown_keys (events f)).
Proof.
  split_and!; [reflexivity|reflexivity|reflexivity|]. apply (feed_invariant sample_feed_inputs).
  apply Forall_cons; [|by repeat (apply Forall_cons; [exact I|])]. by apply (bool_decide_unpack (NoDup _)).
Defined.

(** ** A feed that has lost its connection *)

Lemma gaps_monotone f i : gapCount f <= gapCount (feed_step f i).
Proof.
  destruct i as [n answer|s|s now data|s| |]; cbn; try done.
  - destruct (loads f !! n) as [k|]; [|done]. unfold loadSnapshot, after_load, connect. destruct answer, k; cbn; repeat case_match; simplify_eq; cbn; done.
  - case_decide; [|done]. unfold on_open. case_match; [done|]. by rewrite (proj2 (proj2 (proj2 (proj2 (proj2 (proj2 (proj2 (proj2 (proj2 (live_unless_kept _)))))))))).
  - case_decide; [|done]. destruct (feed_ingest_spec now (reverse (marketStreamEvents data)) f) as (k & _ & _ & -> & _). lia.
  - case_decide; [|done]. unfold on_close. by repeat case_match.
  - by case_match.
Qed.

Lemma gaps_monotone_run inputs f : gapCount f <= gapCount (feed_run inputs f).
Proof.
  revert f. induction inputs as [|i inputs IH]; intros f; [cbn; lia|]. etrans; [apply (gaps_monotone f i)|apply IH].
Qed.

Definition answered (i : FeedInput) : Prop := match i with in_loaded _ None => False | _ => True end.

(** Resynchronizing with nothing that ends it, or given up. *)
Record stranded (f : Feed) : Prop := mkStranded {
  sd_status : status f = ss_resynchronizing \/ (status f = ss_unavailable /\ wires f = 0%nat);
  sd_repair : then_live_if_ok ∉ loads f; sd_wired : wired f }.

Lemma given_up_step f i : then_live_if_ok ∉ loads f -> wires f = 0%nat -> status (feed_step f i) = status f /\ loads (feed_step f i) = loads f /\ wires (feed_step f i) = 0%nat.
Proof.
  intros Hr H0. assert (sockets f = [] /\ reconnectTimer f = false /\ loads f = []) as (Hs & Ht & Hl).
  { unfold wires in H0. split_and!; [apply nil_length_inv; lia|destruct (reconnectTimer f); (done || lia)|].
    destruct (loads f) as [|k ks]; [done|]. rewrite filter_cons in H0. case_decide as Hk; cbn in H0; [lia|]. exfalso. apply Hr.
    destruct (decide (k = then_live_if_ok)) as [->|]; [left|done]. }
  destruct i as [n answer|s|s now data|s| |]; cbn; rewrite ?Hl, ?Hs, ?Ht; cbn; try done.
  all: try (case_decide as Hin; [by apply elem_of_nil in Hin|done]).
Qed.

Lemma stranded_step f i : answered i -> gapCount (feed_step f i) = gapCount f -> stranded f -> stranded (feed_step f i).
Proof.
  intros Ha Hg [Hst Hr Hw]. pose proof (wired_step f i Hw) as Hw'. destruct Hst as [Hst|[Hst H0]].
  2: { destruct (given_up_step f i Hr H0) as (E1 & E2 & E3). split; [right; split; congruence|by rewrite E2|done]. }
  split; [| |done]; clear Hw'; destruct i as [n answer|s|s now data|s| |]; cbn in Hg |- *; try by auto.
  - destruct (loads f !! n) as [k|] eqn:Ek; [|by left]. destruct answer as [data|]; [|done].
    assert (k ≠ then_live_if_ok) by (intros ->; apply Hr; by eapply list_elem_of_lookup_2).
    left. unfold loadSnapshot, after_load, connect. cbn. destruct k; repeat case_match; simplify_eq; cbn; done.
  - case_decide; [|by left]. left. unfold on_open, live_unless_resynchronizing. cbn. case_match; [done|]. by rewrite decide_True.
  - case_decide; [|by left]. left. destruct (feed_ingest_spec now (reverse (marketStreamEvents data)) f) as (k & _ & _ & G & -> & _).
    assert (k = 0%nat) as -> by lia. case_decide; naive_solver.
  - case_decide as Hin; [|by left]. destruct (socket_wired f s Hw Hin) as (Hs & Hss & H1 & Hlt). unfold on_close. cbn. rewrite Hs.
    destruct (MAX_RECONNECT_ATTEMPTS <=? _); [right|by left]. split; [done|]. unfold wires in *. cbn. rewrite Hss in *. cbn in *.
    case_decide; [done|]. cbn. lia.
  - case_match; by left.
  - destruct (loads f !! n) as [k|] eqn:Ek; [|done]. set (g := set_wires _ _ _ _ _ f).
    assert (then_live_if_ok ∉ loads g) as Hr'.
    { cbn. intros Hin. apply Hr. rewrite <- (take_drop_middle _ _ _ Ek). revert Hin. unfold drop_nth. rewrite !elem_of_app, elem_of_cons. clear. tauto. }
    clearbody g. pose proof (load_kept g answer) as (_ & _ & _ & _ & _ & _ & L). destruct (loadSnapshot answer g) as [h ok]. cbn in L.
    unfold after_load, connect. destruct k; repeat case_match; cbn; by rewrite L.
  - case_decide; [|done]. unfold on_open, live_unless_resynchronizing. cbn. repeat case_match; done.
  - case_decide; [|done]. destruct (feed_ingest_spec now (reverse (marketStreamEvents data)) f) as (k & _ & -> & G & _).
    assert (k = 0%nat) as -> by lia. by rewrite app_nil_r.
  - case_decide; [|done]. unfold on_close. by repeat case_match.
  - case_match; [|done]. cbn. rewrite elem_of_app, list_elem_of_singleton. by intros [?|?].
Qed.

(** A feed whose socket closed does not go live again.  [onclose] sets
    "resynchronizing", which opening the new socket and receiving events leave as
    it is, and only the repair of a gap clears it: as long as no gap is reported
    the status never returns to "live", however often the feed reconnects, loads
    a snapshot and delivers events in order. *)
Theorem reconnected_feed_never_live f s inputs :
  wired f -> s ∈ sockets f -> then_live_if_ok ∉ loads f ->
  let g := feed_step f (in_close s) in
  Forall answered inputs -> gapCount (feed_run inputs g) = gapCount g -> status (feed_run inputs g) ≠ ss_live.
Proof.
  intros Hw Hin Hr. cbv zeta.
  assert (stranded (feed_step f (in_close s))) as Hg.
  { destruct (socket_wired f s Hw Hin) as (Hs & Hss & H1 & Hlt). split; [| |by apply wired_step]; cbn; rewrite decide_True by done; unfold on_close; cbn; rewrite Hs.
    - destruct (MAX_RECONNECT_ATTEMPTS <=? _); [right|by left]. split; [done|]. unfold wires in *. cbn. rewrite Hss in *. cbn in *. case_decide; [done|]. cbn. lia.
    - by case_match. }
  revert Hg. generalize (feed_step f (in_close s)). clear. intros g Hg Hall. revert g Hg.
  induction Hall as [|i inputs Hi _ IH]; intros g Hg Heq; cbn in Heq |- *.
  { destruct Hg as [[Hst|[Hst _]] _ _]; by rewrite Hst. }
  pose proof (gaps_monotone g i). pose proof (gaps_monotone_run inputs (feed_step g i)). unfold feed_run in H0.
  apply IH; [apply stranded_step; (done || lia)|unfold feed_run; lia].
Qed.

Definition sample_reconnect : list FeedInput :=
  [in_timer; in_loaded 0 (Some (payload_events (Some [sample_raw_event 1; sample_raw_event 2; sample_raw_event 3]))); in_open 1;
   in_message 1 90 (payload_event (sample_raw_event 4))].

Lemma reconnected_feed_never_live_witness :
  let f := feed_run sample_feed_inputs useMarketEvents in
  let g := feed_run sample_reconnect (feed_step f (in_close 0)) in
  status f = ss_live /\ sockets g = [1%nat] /\ status g ≠ ss_live /\ status g = ss_resynchronizing.
Proof.
  split_and!; [reflexivity|reflexivity| |reflexivity].
  apply (reconnected_feed_never_live (feed_run sample_feed_inputs useMarketEvents) 0).
  - assert (forall l f, wired f -> wired (feed_run l f)) as Hrun by (induction l; intros; [done|]; by apply IHl, wired_step).
    apply Hrun, mounted_ok.
  - by left.
  - apply not_elem_of_nil.
  - by repeat constructor.
  - vm_compute; reflexivity.
Defined.

(** A reconnection trusts the socket without a snapshot: when the request fails the
    feed connects all the same, and opening the socket makes it "live" over the
    events and the cursors of before the outage. *)
Theorem failed_reconnect_goes_live f n :
  loads f !! n = Some then_connect -> stopped f = false -> sockets f = [] ->
  let g := feed_step (feed_step f (in_loaded n None)) (in_open (nextSocket f)) in
  status g = ss_live /\ events g = events f /\ tracker g = tracker f.
Proof.
  intros Hl Hs Hss. cbn. rewrite Hl, Hs. cbn. rewrite Hs. cbn. unfold connect. cbn. rewrite Hs, Hss. cbn. case_decide as Hin.
  - unfold on_open. cbn. rewrite Hs. by unfold live_unless_resynchronizing.
  - exfalso. apply Hin. by left.
Qed.

Lemma loaded_shows f n k data :
  loads f !! n = Some k -> stopped f = false ->
  let g := feed_step f (in_loaded n (Some data)) in
  tracker g = seedFromSnapshot (tracker f) (omap hasSequenceAndDomain (marketStreamEvents data))
  /\ events g = take MAX_EVENTS (reverse (marketStreamEvents data)).
Proof. intros Hl Hs. cbn -[take]. rewrite Hl, Hs. unfold after_load, connect. destruct k; cbn -[take]; rewrite Hs; done. Qed.

(** A snapshot that answers late takes back what was pushed since: the tracker has
    passed the event, so no push shows it again. *)
Theorem late_snapshot_hides_pushed_event f n k data e x inputs :
  loads f !! n = Some k -> stopped f = false -> tracked_key e = Some x -> passed (tracker f) x -> e ∉ marketStreamEvents data ->
  Forall (fun i => match i with in_loaded _ _ => False | _ => True end) inputs ->
  e ∉ events (feed_run inputs (feed_step f (in_loaded n (Some data)))).
Proof.
  intros Hl Hs Hx Hp Hne Hall. set (g := feed_step f (in_loaded n (Some data))).
  assert (passed (tracker g) x /\ e ∉ events g) as [Hpg Heg].
  { destruct (loaded_shows f n k data Hl Hs) as [E1 E2]. fold g in E1, E2.
    split; [rewrite E1; by apply passed_seed|rewrite E2]. intros Hin%elem_of_take. destruct Hin as (j & Hj & _).
    apply list_elem_of_lookup_2 in Hj. rewrite elem_of_reverse in Hj. done. }
  clearbody g. clear Hl Hs Hp Hne. revert g Hpg Heg. induction Hall as [|i inputs Hi _ IH]; intros g Hpg Heg; [done|].
  cbn. apply IH; destruct i as [m answer|s|s now d|s| |]; cbn; try done.
  all: try (case_decide; [|done]); try (case_match; [|done]); try done.
  all: try (unfold on_open, live_unless_resynchronizing; repeat case_match; done).
  all: try (unfold on_close; repeat case_match; done).
  all: destruct (feed_ingest_spec now (reverse (marketStreamEvents d)) g) as (j & acc & _ & _ & _ & Hev & _ & Hnew & _ & _ & Hmono & _).
  { by apply Hmono. }
  assert (e ∉ acc) as Hna. { intros Hin. rewrite list.Forall_forall in Hnew. apply (Hnew x); [|done]. apply list_elem_of_omap. by exists e. }
  destruct Hev as [->|[_ ->]]; [|done]. intros (i & Hi' & _)%elem_of_take. apply list_elem_of_lookup_2 in Hi'. set_solver.
Qed.

(** Events the tracker has passed are counted and not shown. *)
Lemma duplicates_dropped now l f :
  Forall (fun e => exists x, tracked_key e = Some x /\ passed (tracker f) x) l ->
  exists f', ingest_all now f l = (f', []) /\ duplicateCount f' = duplicateCount f + Z.of_nat (length l)
  /\ events f' = events f /\ loads f' = loads f /\ gapCount f' = gapCount f.
Proof.
  revert f. induction l as [|e l IH]; intros f Hall; [exists f; cbn; split_and!; (done || lia)|].
  apply list.Forall_cons in Hall as [(x & Hx & Hp) Hall]. cbn. unfold ingest_one. unfold tracked_key in Hx.
  destruct (hasSequenceAndDomain e) as [q|]; [|done]. cbn in Hx. simplify_eq.
  assert (advanceSequence (tracker f) q = mkAdvance (tracker f) seq_duplicate 0) as ->.
  { destruct Hp as (c & Hc & Hle). cbn in Hc, Hle. unfold advanceSequence. rewrite Hc. by rewrite (proj2 (Z.leb_le _ _) Hle). }
  cbn. destruct (IH (count_duplicate (set_tracker (tracker f) f))) as (f' & -> & D & E & L & G); [done|].
  exists f'. cbn in D, E, L, G. split_and!; (done || lia).
Qed.

(** A batch is taken newest first.  The first events of a domain to arrive in one
    message (the snapshot the server sends when a socket opens) set the cursor
    from the newest, so the others count as duplicates: only one is shown and no
    gap is reported. *)
Theorem first_batch_shows_newest_only f s now data es e d n :
  s ∈ sockets f -> marketStreamEvents data = es ++ [e] -> tracked_key e = Some (d, n) ->
  Forall (fun x => exists m, tracked_key x = Some (d, m) /\ m <= n) es -> cursor_of d (tracker f) = None ->
  let g := feed_step f (in_message s now data) in
  events g = take MAX_EVENTS (e :: events f) /\ gapCount g = gapCount f /\ loads g = loads f
  /\ duplicateCount g = duplicateCount f + Z.of_nat (length es).
Proof.
  intros Hs Hd He Hall Hc. cbn -[take]. rewrite decide_True, Hd by done. rewrite reverse_app. cbn -[take ingest_all]. cbn [ingest_all].
  assert (ingest_one now f e = (set_tracker (with_cursor d (mkCursor n (default 0 (me_slot e))) (tracker f)) f, Some e)) as ->.
  { unfold ingest_one. unfold tracked_key, hasSequenceAndDomain in *. destruct (me_sequence e), (me_domain e); cbn in *; try done.
    simplify_eq. unfold advanceSequence. cbn. by rewrite Hc. }
  set (g := set_tracker _ f). destruct (duplicates_dropped now (reverse es) g) as (f' & -> & D & E & L & G).
  { apply Forall_reverse. eapply Forall_impl; [|exact Hall]. intros x (m & Hx & Hle). exists (d, m). split; [done|].
    exists (mkCursor n (default 0 (me_slot e))). split; [apply cursor_of_with|done]. }
  rewrite length_reverse in D. cbn -[take] in *. unfold live_unless_resynchronizing. rewrite <- E, <- G, <- L, <- D. case_decide; done.
Qed.

(** The feed lists nothing that its filter excludes, and every row carries what the
    wire gave it. *)
Theorem activity_rows_filtered filter_ (es : list RawMarketEvent) row :
  row ∈ filter (fun r => matchesActivityFilter (ar_category r) filter_ = true) (toActivityRow <$> es) <->
  exists e, e ∈ es /\ row = toActivityRow e
  /\ (filter_ = "trades" -> me_kind e = "fill") /\ (filter_ = "orders" -> me_kind e = "book") /\ (filter_ = "funding" -> me_kind e = "funding")
  /\ (filter_ = "oracle" -> me_kind e = "oracle") /\ (filter_ = "custody" -> me_kind e = "custody") /\ (filter_ = "market" -> me_kind e = "health").
Proof.
  rewrite list_elem_of_filter, list_elem_of_fmap. split.
  - intros [Hm (e & -> & He)]. exists e. split; [done|]. split; [done|].
    split_and!; intros ->; cbn in Hm; apply bool_decide_eq_true_1 in Hm; by apply list_elem_of_singleton in Hm.
  - intros (e & He & -> & H1 & H2 & H3 & H4 & H5 & H6). split; [|by exists e]. unfold matchesActivityFilter. cbn.
    repeat (case_decide; simplify_eq; cbn; [try done; apply bool_decide_eq_true_2, list_elem_of_singleton; auto|]). done.
Qed.

(** The lifecycle event kept is the one with the highest sequence among what was held
    and what came; it survives a change of market, so an event of the new market is
    ignored unless its sequence is above the old market's. *)
Theorem lifecycle_event_latest es ref :
  match applyEvents es ref with
  | None => ref = None /\ omap lifecycle_of es = []
  | Some (n, kind) => (ref = Some (n, kind) \/ (n, kind) ∈ omap lifecycle_of es)
      /\ Forall (fun x => x.1 <= n) (omap lifecycle_of es) /\ (forall m k, ref = Some (m, k) -> m <= n)
  end
  /\ (forall m k, ref = Some (m, k) -> Forall (fun x => x.1 <= m) (omap lifecycle_of es) -> applyEvents es ref = ref).
Proof.
  revert ref. induction es as [|e es IH]; intros ref; cbn [omap list_omap].
  { split; [|done]. destruct ref as [[n k]|]; [|done]. split; [by left|]. split; [constructor|]. intros m k' [= -> ->]. lia. }
  change (applyEvents (e :: es) ref) with (applyEvents es (applyEvent ref e)).
  set (ref' := applyEvent ref e). destruct (IH ref') as [H1 H2]. split.
  - destruct (applyEvents es ref') as [[n kind]|].
    + destruct H1 as (Ha & Hb & Hc). unfold ref', applyEvent in Ha, Hc. destruct (lifecycle_of e) as [[q k]|]; [|by split_and!].
      destruct ref as [[m k']|]; [destruct (m <? q) eqn:E; zbool|].
      * specialize (Hc q k eq_refl). split_and!; [|by constructor|intros ? ? [= -> ->]; lia]. right. destruct Ha as [[= -> ->]|?]; [by left|by right].
      * specialize (Hc m k' eq_refl). split_and!; [|constructor; [cbn; lia|done]|by intros ? ? [= -> ->]]. destruct Ha as [?|?]; [by left|right; by right].
      * specialize (Hc q k eq_refl). split_and!; [|by constructor|done]. right. destruct Ha as [[= -> ->]|?]; [by left|by right].
    + destruct H1 as [H1 H1']. unfold ref', applyEvent in H1. destruct (lifecycle_of e) as [[q k]|]; [|done]. destruct ref as [[m k']|]; [by destruct (m <? q)|done].
  - intros m k -> Hall. assert (ref' = Some (m, k)) as Hr.
    { unfold ref', applyEvent. destruct (lifecycle_of e) as [[q k']|]; [|done]. apply Forall_inv in Hall. cbn in Hall. by rewrite (proj2 (Z.ltb_ge _ _)). }
    rewrite Hr in H2 |- *. apply (H2 m k eq_refl). destruct (lifecycle_of e); [by inversion Hall|done].
Qed.
