(* ===== verification/BookFeed.v ===== *)
(** * The browser's live book

    The effect of [useV3Book] (features/trading/use-v3-book.ts) and what it renders:
    the first read and its fallback over the market API, the socket's account
    pushes, their coalescing into frames, the hold over a market maker's requote,
    and the polling that repairs a quiet socket.  The decoders are those of
    BrowserBook.  The effect is a state machine over its inputs (answers, socket
    events, timers, frames); [performance.now] and [Date.now] are separate clocks.

    [decodeAccount] (base64, and zstd from a third-party package) is a parameter;
    [None] is an exception.  [decodeBundle] cannot throw here, since the decoders
    of V3Market are total. *)

From S2P Require Import Prelude Json Bytes ExecutionStatus V3Market BrowserBook.

Inductive BookStatus := bs_loading | bs_live | bs_empty | bs_stale | bs_unavailable.
#[export] Instance book_status_eq_dec : EqDecision BookStatus.
Proof. solve_decision. Defined.

Record V3Book := mkV3Book { vb_view : BookView; vb_status : BookStatus; vb_updatedAt : option Z; vb_domain : Domain }.

Definition EMPTY : BookView := mkBookView [] [] [] [] [].
Definition STALE_AFTER_MS : Z := 20000.
Definition REQUOTE_GAP_MS : Z := 2500.
Definition MIN_RENDER_GAP_MS : Z := 50.
Definition BUNDLE : nat := 26.
Definition POLL_QUIET_MS : Z := 10000.

(** What an account carries on the wire: its text and encoding, or null. *)
Abbreviation RawAccount := (option (string * string)).

Inductive FallbackPhase := fb_timer | fb_request | fb_done.

Record BookEffect := mkBookEffect {
  be_domain : Domain; be_data : list (option (list Z)); be_stopped : bool; be_lastGood : Z; be_scheduled : bool; be_snapshotPending : bool;
  be_lastQuotedAt : Z; be_pending : list (Z * RawAccount); be_lastRaw : list (option string); be_lastPublishAt : Z;
  be_socketOpen : bool; be_subscriptions : gmap Z Z; be_fallback : FallbackPhase;
  (** callbacks the browser holds: frames with the time they are due, reads in
      flight, and the timers of a held requote *)
  be_frames : list Z; be_requests : nat; be_retries : nat;
  be_book : V3Book }.

Definition with_data (d : list (option (list Z))) (r : list (option string)) (p : list (Z * RawAccount)) (f : BookEffect) : BookEffect :=
  mkBookEffect (be_domain f) d (be_stopped f) (be_lastGood f) (be_scheduled f) (be_snapshotPending f) (be_lastQuotedAt f) p r (be_lastPublishAt f)
    (be_socketOpen f) (be_subscriptions f) (be_fallback f) (be_frames f) (be_requests f) (be_retries f) (be_book f).
Definition with_times (good quoted : Z) (f : BookEffect) : BookEffect :=
  mkBookEffect (be_domain f) (be_data f) (be_stopped f) good (be_scheduled f) (be_snapshotPending f) quoted (be_pending f) (be_lastRaw f) (be_lastPublishAt f)
    (be_socketOpen f) (be_subscriptions f) (be_fallback f) (be_frames f) (be_requests f) (be_retries f) (be_book f).
Definition with_frames (scheduled : bool) (frames : list Z) (at_ : Z) (retries : nat) (f : BookEffect) : BookEffect :=
  mkBookEffect (be_domain f) (be_data f) (be_stopped f) (be_lastGood f) scheduled (be_snapshotPending f) (be_lastQuotedAt f) (be_pending f) (be_lastRaw f) at_
    (be_socketOpen f) (be_subscriptions f) (be_fallback f) frames (be_requests f) retries (be_book f).
Definition with_reads (pending : bool) (requests : nat) (fb : FallbackPhase) (f : BookEffect) : BookEffect :=
  mkBookEffect (be_domain f) (be_data f) (be_stopped f) (be_lastGood f) (be_scheduled f) pending (be_lastQuotedAt f) (be_pending f) (be_lastRaw f) (be_lastPublishAt f)
    (be_socketOpen f) (be_subscriptions f) fb (be_frames f) requests (be_retries f) (be_book f).
Definition with_socket (open : bool) (subs : gmap Z Z) (f : BookEffect) : BookEffect :=
  mkBookEffect (be_domain f) (be_data f) (be_stopped f) (be_lastGood f) (be_scheduled f) (be_snapshotPending f) (be_lastQuotedAt f) (be_pending f) (be_lastRaw f) (be_lastPublishAt f)
    open subs (be_fallback f) (be_frames f) (be_requests f) (be_retries f) (be_book f).
Definition setBook (b : V3Book) (f : BookEffect) : BookEffect :=
  mkBookEffect (be_domain f) (be_data f) (be_stopped f) (be_lastGood f) (be_scheduled f) (be_snapshotPending f) (be_lastQuotedAt f) (be_pending f) (be_lastRaw f) (be_lastPublishAt f)
    (be_socketOpen f) (be_subscriptions f) (be_fallback f) (be_frames f) (be_requests f) (be_retries f) b.

(** Array access by a number: outside the bundle nothing reads what is stored. *)
Definition at_index {A} (i : Z) (l : list A) : option A := if 0 <=? i then l !! Z.to_nat i else None.
Definition set_index {A} (i : Z) (v : A) (l : list A) : list A := if 0 <=? i then <[Z.to_nat i := v]> l else l.

(** [Map.set]: a key already there keeps its place. *)
Fixpoint pending_set (i : Z) (v : RawAccount) (p : list (Z * RawAccount)) : list (Z * RawAccount) :=
  match p with
  | [] => [(i, v)]
  | (j, w) :: rest => if i =? j then (j, v) :: rest else (j, w) :: pending_set i v rest
  end.

Section Effect.
Context (base58 : list Z -> string) (decodeAccount : string -> string -> option (list Z)) (marketApiUrl : bool).

(** The first loop of [publish]; false when a decode throws. *)
Fixpoint apply_pending (p : list (Z * RawAccount)) (data : list (option (list Z))) (lastRaw : list (option string))
    : list (option (list Z)) * list (option string) * bool :=
  match p with
  | [] => (data, lastRaw, true)
  | (i, None) :: rest => apply_pending rest (set_index i None data) (set_index i None lastRaw)
  | (i, Some (text, encoding)) :: rest =>
      if decide (at_index i lastRaw = Some (Some text)) then apply_pending rest data lastRaw
      else
        let lastRaw := set_index i (Some text) lastRaw in
        match decodeAccount text encoding with
        | None => (data, lastRaw, false)
        | Some bytes => apply_pending rest (set_index i (Some bytes) data) lastRaw
        end
  end.

Definition markUnavailable (now : Z) (f : BookEffect) : BookEffect :=
  if be_stopped f then f
  else
    let previous := be_book f in
    let status :=
      match vb_updatedAt previous with
      | Some at_ => if at_ =? 0 then bs_unavailable else if STALE_AFTER_MS <? now - at_ then bs_stale else vb_status previous
      | None => bs_unavailable
      end in
    setBook (mkV3Book (vb_view previous) status (vb_updatedAt previous) (be_domain f)) f.

Definition quoted (v : BookView) : bool := negb (bool_decide (bv_bids v = [] /\ bv_asks v = [])).
Definition shown_book (v : BookView) (now : Z) (d : Domain) : V3Book :=
  mkV3Book v (if quoted v then bs_live else bs_empty) (Some now) d.

Definition decoded_bundle (data : list (option (list Z))) (now : Z) : option BookView :=
  decodeBundle base58 (take 18 data) (take 4 (drop 18 data)) (take 4 (drop 22 data)) (now / 1000).

(** [None] is an exception out of [publish]. *)
Definition publish (now : Z) (f : BookEffect) : BookEffect * option bool :=
  let f := with_frames false (be_frames f) (be_lastPublishAt f) (be_retries f) f in
  if be_stopped f then (f, Some false)
  else
    let '(data, lastRaw, ok) := apply_pending (be_pending f) (be_data f) (be_lastRaw f) in
    if negb ok then (with_data data lastRaw (be_pending f) f, None)
    else
      let f := with_data data lastRaw [] f in
      match decoded_bundle data now with
      | None => (f, Some false)
      | Some v =>
          let f := with_times now (be_lastQuotedAt f) f in
          if negb (quoted v) && (now - be_lastQuotedAt f <? REQUOTE_GAP_MS)
          then (with_frames (be_scheduled f) (be_frames f) (be_lastPublishAt f) (S (be_retries f)) f, Some true)
          else
            let f := if quoted v then with_times now now f else f in
            (setBook (shown_book v now (be_domain f)) f, Some true)
      end.

Definition schedule (perf : Z) (f : BookEffect) : BookEffect :=
  if be_scheduled f then f
  else with_frames true (be_frames f ++ [Z.max perf (be_lastPublishAt f + MIN_RENDER_GAP_MS)]) (be_lastPublishAt f) (be_retries f) f.

Definition snapshot (f : BookEffect) : BookEffect :=
  if be_snapshotPending f then f else with_reads true (S (be_requests f)) (be_fallback f) f.

(** The loop over the values of a snapshot; false when a decode throws. *)
Fixpoint apply_values (i : nat) (values : list RawAccount) (data : list (option (list Z))) (lastRaw : list (option string))
    : list (option (list Z)) * list (option string) * bool :=
  match values with
  | [] => (data, lastRaw, true)
  | None :: rest => apply_values (S i) rest (<[i := None]> data) (<[i := None]> lastRaw)
  | Some (text, encoding) :: rest =>
      match decodeAccount text encoding with
      | None => (data, lastRaw, false)
      | Some bytes => apply_values (S i) rest (<[i := Some bytes]> data) (<[i := None]> lastRaw)
      end
  end.

(** The answer to [snapshot]'s request; [None] when it failed or was not a list. *)
Definition snapshot_answered (values : option (list RawAccount)) (now : Z) (f : BookEffect) : BookEffect :=
  let f := with_reads (be_snapshotPending f) (pred (be_requests f)) (be_fallback f) f in
  let f :=
    match values with
    | Some vs =>
        if negb (length vs =? BUNDLE)%nat || be_stopped f then markUnavailable now f
        else
          let '(data, lastRaw, ok) := apply_values 0 vs (be_data f) (be_lastRaw f) in
          let f := with_data data lastRaw (be_pending f) f in
          if negb ok then markUnavailable now f
          else match publish now f with (f, Some true) => f | (f, _) => markUnavailable now f end
    | None => markUnavailable now f
    end in
  with_reads false (be_requests f) (be_fallback f) f.

Definition fallback_started (f : BookEffect) : BookEffect :=
  with_reads (be_snapshotPending f) (be_requests f) (if negb marketApiUrl || be_stopped f || (0 <? be_lastGood f) then fb_done else fb_request) f.

(** [None] when the request failed or was refused. *)
Definition fallbackSnapshot (answer : option AggregateBookResponse) (now : Z) (f : BookEffect) : BookEffect :=
  let f := with_reads (be_snapshotPending f) (be_requests f) fb_done f in
  match answer with
  | None => f
  | Some aggregate =>
      if be_stopped f || (0 <? be_lastGood f) then f
      else
        match bookFromAggregate aggregate (bool_decide (be_domain f = ER)) (now / 1000) with
        | None => f
        | Some v => setBook (shown_book v now (be_domain f)) (with_times now (be_lastQuotedAt f) f)
        end
  end.

(** The effect as it starts, over whatever book the hook holds. *)
Definition mount (domain : Domain) (book : V3Book) : BookEffect :=
  mkBookEffect domain (replicate BUNDLE None) false 0 false true 0 [] (replicate BUNDLE None) 0 false ∅ fb_timer [] 1 0 book.

Inductive BookInput :=
  | bi_snapshot (values : option (list RawAccount)) (now : Z)
  | bi_fallback_timer | bi_fallback (answer : option AggregateBookResponse) (now : Z)
  | bi_open | bi_close | bi_ack (id subscription : Z) | bi_push (subscription : Z) (value : RawAccount) (perf : Z)
  | bi_frame (perf now : Z) | bi_retry (perf : Z) | bi_interval (hidden : bool) (now : Z) | bi_stop.

(** An input for which nothing is waiting changes nothing. *)
Definition book_step (f : BookEffect) (i : BookInput) : BookEffect :=
  match i with
  | bi_snapshot values now => match be_requests f with O => f | _ => snapshot_answered values now f end
  | bi_fallback_timer => match be_fallback f with fb_timer => fallback_started f | _ => f end
  | bi_fallback answer now => match be_fallback f with fb_request => fallbackSnapshot answer now f | _ => f end
  | bi_open => if bool_decide (be_domain f = ER) && negb (be_stopped f) then with_socket true (be_subscriptions f) f else f
  | bi_close => with_socket false (be_subscriptions f) f
  | bi_ack id subscription => if be_socketOpen f then with_socket true (<[subscription := id - 1]> (be_subscriptions f)) f else f
  | bi_push subscription value perf =>
      if be_socketOpen f
      then
        match be_subscriptions f !! subscription with
        | None => f
        | Some index => schedule perf (with_data (be_data f) (be_lastRaw f) (pending_set index value (be_pending f)) f)
        end
      else f
  | bi_frame perf now =>
      match be_frames f with
      | [] => f
      | due :: rest => if due <=? perf then fst (publish now (with_frames (be_scheduled f) rest perf (be_retries f) f)) else f
      end
  | bi_retry perf => match be_retries f with O => f | S n => schedule perf (with_frames (be_scheduled f) (be_frames f) (be_lastPublishAt f) n f) end
  | bi_interval hidden now =>
      if be_stopped f || hidden then f
      else if be_socketOpen f && (now - be_lastGood f <? POLL_QUIET_MS) then f
      else snapshot f
  | bi_stop =>
      let f := with_socket false (be_subscriptions f) (with_reads (be_snapshotPending f) (be_requests f) (match be_fallback f with fb_timer => fb_done | p => p end) f) in
      mkBookEffect (be_domain f) (be_data f) true (be_lastGood f) (be_scheduled f) (be_snapshotPending f) (be_lastQuotedAt f) (be_pending f) (be_lastRaw f)
        (be_lastPublishAt f) (be_socketOpen f) (be_subscriptions f) (be_fallback f) (be_frames f) (be_requests f) (be_retries f) (be_book f)
  end.

Definition book_run (inputs : list BookInput) (f : BookEffect) : BookEffect := foldl book_step f inputs.

(** What the hook renders from the book it holds, for a market and the domain it is in. *)
Definition useV3Book (core : option string) (domain : option Domain) (sourceTimedOut : bool) (book : V3Book) : V3Book :=
  match core with
  | None => mkV3Book EMPTY bs_unavailable None (default ER domain)
  | Some _ =>
      match domain with
      | None => mkV3Book EMPTY (if sourceTimedOut then bs_unavailable else bs_loading) None ER
      | Some d => if decide (vb_domain book = d) then book else mkV3Book EMPTY bs_loading None d
      end
  end.

(** ** Pushes that repeat a payload are skipped, and nothing is lost by it *)

(** The reference: decode every pending payload. *)
Definition apply_all (p : list (Z * RawAccount)) (data : list (option (list Z))) : list (option (list Z)) :=
  foldl (fun d '(i, raw) => set_index i (raw ≫= fun '(text, encoding) => decodeAccount text encoding) d) data p.

Definition readable (encoding : string) (raw : RawAccount) : Prop :=
  match raw with Some (text, e) => e = encoding /\ is_Some (decodeAccount text e) | None => True end.

(** The text remembered for an account is the one its bytes were decoded from. *)
Record raw_ok (encoding : string) (data : list (option (list Z))) (lastRaw : list (option string)) : Prop := mkRawOk {
  rw_length : length data = length lastRaw;
  rw_text : forall i text, lastRaw !! i = Some (Some text) -> exists bytes, decodeAccount text encoding = Some bytes /\ data !! i = Some (Some bytes) }.

Lemma raw_ok_insert encoding data lastRaw i raw t :
  raw_ok encoding data lastRaw ->
  match t with Some text => exists bytes, decodeAccount text encoding = Some bytes /\ raw = Some bytes | None => True end ->
  raw_ok encoding (<[i := raw]> data) (<[i := t]> lastRaw).
Proof.
  intros [Hl Ht] Hi. split; [by rewrite !length_insert|]. intros j text Hj.
  apply list_lookup_insert_Some in Hj as [(-> & -> & Hlt)|[Hne Hj]].
  - destruct Hi as (bytes & Hd & ->). exists bytes. split; [done|]. apply list_lookup_insert_eq. lia.
  - destruct (Ht j text Hj) as (bytes & ? & ?). exists bytes. split; [done|]. by rewrite list_lookup_insert_ne.
Qed.

Lemma raw_ok_set encoding data lastRaw i raw t :
  raw_ok encoding data lastRaw ->
  match t with Some text => exists bytes, decodeAccount text encoding = Some bytes /\ raw = Some bytes | None => True end ->
  raw_ok encoding (set_index i raw data) (set_index i t lastRaw).
Proof. intros H Ht. unfold set_index. destruct (0 <=? i); [by apply raw_ok_insert|done]. Qed.

Lemma apply_pending_reference encoding p data lastRaw :
  raw_ok encoding data lastRaw -> Forall (fun x => readable encoding (snd x)) p ->
  exists lastRaw', apply_pending p data lastRaw = (apply_all p data, lastRaw', true) /\ raw_ok encoding (apply_all p data) lastRaw'.
Proof.
  intros Hok Hall. revert data lastRaw Hok. induction Hall as [|[i [[text e]|]] p Hx _ IH]; intros data lastRaw Hok.
  - by exists lastRaw.
  - cbn in Hx. destruct Hx as [-> [bytes Hb]]. cbn. rewrite Hb. case_decide as Hs.
    + assert (set_index i (Some bytes) data = data) as ->.
      { unfold at_index in Hs. unfold set_index. case_match; [|done]. destruct (rw_text _ _ _ Hok _ _ Hs) as (b' & Hb' & Hd).
        simplify_eq. by apply list_insert_id. }
      by apply IH.
    + apply IH. apply raw_ok_set; [done|]. by exists bytes.
  - cbn. apply IH. by apply raw_ok_set.
Qed.

Lemma apply_values_raw_ok encoding i values data lastRaw :
  raw_ok encoding data lastRaw ->
  raw_ok encoding (fst (fst (apply_values i values data lastRaw))) (snd (fst (apply_values i values data lastRaw))).
Proof.
  revert i data lastRaw. induction values as [|[[text e]|] values IH]; intros i data lastRaw H; cbn; [done| |by apply IH, raw_ok_insert].
  destruct (decodeAccount text e); [by apply IH, raw_ok_insert|done].
Qed.
(** ** The invariant of the effect *)

(** Every push carries a payload in the encoding asked for. *)
Definition readable_input (encoding : string) (i : BookInput) : Prop :=
  match i with bi_push _ value _ => readable encoding value | _ => True end.

Record book_inv (encoding : string) (f : BookEffect) : Prop := mkBookInv {
  bk_raw : raw_ok encoding (be_data f) (be_lastRaw f);
  bk_pending : Forall (fun x => readable encoding (snd x)) (be_pending f);
  bk_scheduled : be_scheduled f = true -> be_frames f ≠ [];
  bk_rendered : be_stopped f = false -> be_pending f ≠ [] -> be_frames f ≠ [];
  bk_stopped : be_stopped f = true -> be_socketOpen f = false /\ be_fallback f ≠ fb_timer }.

(** One read at a time. *)
Definition one_read (f : BookEffect) : Prop := be_requests f = if be_snapshotPending f then 1%nat else 0%nat.

Lemma pending_set_readable encoding i v p :
  readable encoding v -> Forall (fun x => readable encoding (snd x)) p -> Forall (fun x => readable encoding (snd x)) (pending_set i v p).
Proof. intros Hv. induction 1 as [|[j w] p Hw Hp IH]; cbn; [by constructor|]. case_match; by constructor. Qed.

Lemma markUnavailable_same now f :
  markUnavailable now f = setBook (be_book (markUnavailable now f)) f.
Proof. unfold markUnavailable. case_match; [by destruct f|done]. Qed.

Lemma setBook_inv encoding b f : book_inv encoding f -> book_inv encoding (setBook b f).
Proof. by intros []. Qed.

Lemma markUnavailable_inv encoding now f : book_inv encoding f -> book_inv encoding (markUnavailable now f).
Proof. rewrite markUnavailable_same. apply setBook_inv. Qed.

(** What [publish] leaves alone, and the data it leaves. *)
Lemma publish_kept encoding now f :
  raw_ok encoding (be_data f) (be_lastRaw f) -> Forall (fun x => readable encoding (snd x)) (be_pending f) ->
  let g := fst (publish now f) in
  raw_ok encoding (be_data g) (be_lastRaw g)
  /\ be_pending g = (if be_stopped f then be_pending f else []) /\ be_data g = (if be_stopped f then be_data f else apply_all (be_pending f) (be_data f))
  /\ be_frames g = be_frames f /\ be_scheduled g = false /\ be_requests g = be_requests f /\ be_snapshotPending g = be_snapshotPending f
  /\ be_stopped g = be_stopped f /\ be_socketOpen g = be_socketOpen f /\ be_fallback g = be_fallback f.
Proof.
  intros Hr Hp. cbv zeta. unfold publish. cbn.
  destruct (be_stopped f) eqn:Es; [done|]. destruct (apply_pending_reference _ _ _ _ Hr Hp) as (r' & -> & Hr'). cbn.
  destruct (decoded_bundle _ now) as [v|]; cbn; [|done]. destruct (negb (quoted v) && _); cbn; [done|]. by destruct (quoted v).
Qed.

Lemma publish_inv encoding now f :
  raw_ok encoding (be_data f) (be_lastRaw f) -> Forall (fun x => readable encoding (snd x)) (be_pending f) ->
  (be_stopped f = true -> be_socketOpen f = false /\ be_fallback f ≠ fb_timer) ->
  book_inv encoding (fst (publish now f)).
Proof.
  intros Hr Hp Hs. destruct (publish_kept encoding now f Hr Hp) as (K1 & K2 & _ & K4 & K5 & K6 & K7 & K8 & K9 & K10).
  split; rewrite ?K2, ?K4, ?K5, ?K6, ?K7, ?K8, ?K9, ?K10; try done; by destruct (be_stopped f).
Qed.

Lemma schedule_inv encoding perf f :
  raw_ok encoding (be_data f) (be_lastRaw f) -> Forall (fun x => readable encoding (snd x)) (be_pending f) ->
  (be_scheduled f = true -> be_frames f ≠ []) -> (be_stopped f = true -> be_socketOpen f = false /\ be_fallback f ≠ fb_timer) ->
  book_inv encoding (schedule perf f).
Proof.
  intros Hr Hp Hf Hs. unfold schedule. destruct (be_scheduled f) eqn:E; split; cbn; try done; try congruence; auto; intros; by destruct (be_frames f).
Qed.

Lemma with_reads_inv encoding p q fb f : fb ≠ fb_timer \/ fb = be_fallback f -> book_inv encoding f -> book_inv encoding (with_reads p q fb f).
Proof. intros Hfb [H1 H2 H3 H4 H5]. split; cbn; try done. intros Hs. destruct (H5 Hs). by destruct Hfb as [?| ->]. Qed.

Lemma snapshot_inv encoding values now f : book_inv encoding f -> book_inv encoding (snapshot_answered values now f).
Proof.
  intros Hf. unfold snapshot_answered. apply with_reads_inv; [by right|].
  pose proof (with_reads_inv encoding (be_snapshotPending f) (pred (be_requests f)) (be_fallback f) f (or_intror eq_refl) Hf) as Hg.
  set (g := with_reads _ _ _ f) in *. clearbody g. clear f Hf.
  destruct values as [vs|]; [|by apply markUnavailable_inv]. destruct (_ || be_stopped g); [by apply markUnavailable_inv|].
  pose proof (apply_values_raw_ok encoding 0 vs _ _ (bk_raw _ _ Hg)) as Hr.
  destruct (apply_values 0 vs (be_data g) (be_lastRaw g)) as [[data lastRaw] ok]. cbn in Hr.
  set (h := with_data data lastRaw (be_pending g) g). assert (book_inv encoding h) as Hh by (destruct Hg; by split).
  clearbody h. clear Hr. destruct ok; [|by apply markUnavailable_inv]. cbn.
  pose proof (publish_inv encoding now h (bk_raw _ _ Hh) (bk_pending _ _ Hh) (bk_stopped _ _ Hh)) as Hp.
  destruct (publish now h) as [k [[]|]]; cbn in Hp; [done|by apply markUnavailable_inv|by apply markUnavailable_inv].
Qed.

Lemma book_step_inv encoding f i : readable_input encoding i -> book_inv encoding f -> book_inv encoding (book_step f i).
Proof.
  intros Hi Hf. destruct i; cbn.
  - case_match; [done|by apply snapshot_inv].
  - case_match; [|done|done]. apply with_reads_inv; [left; by repeat case_match|done].
  - case_match; [done| |done]. unfold fallbackSnapshot.
    assert (book_inv encoding (with_reads (be_snapshotPending f) (be_requests f) fb_done f)) as Hg by (apply with_reads_inv; [by left|done]).
    destruct answer as [a|]; [|done]. cbn. destruct (be_stopped f || _); [done|]. destruct (bookFromAggregate _ _ _); [|done]. by destruct Hg.
  - case_match eqn:E; [|done]. apply andb_true_iff in E as [_ E]. apply negb_true_iff in E. destruct Hf. split; cbn; congruence || done.
  - destruct Hf as [? ? ? ? H5]. split; cbn; try done. intros Hs. by destruct (H5 Hs).
  - case_match eqn:E; [|done]. destruct Hf as [? ? ? ? H5]. split; cbn; try done. intros Hs. destruct (H5 Hs). congruence.
  - case_match eqn:E; [|done]. destruct (be_subscriptions f !! subscription) as [index|]; [|done]. destruct Hf.
    apply schedule_inv; cbn; try done. by apply pending_set_readable.
  - destruct (be_frames f) as [|due rest] eqn:Ef; [done|]. case_match; [|done]. destruct Hf. by apply publish_inv.
  - destruct (be_retries f) as [|n]; [done|]. destruct Hf. by apply schedule_inv.
  - repeat (case_match; [done|]). unfold snapshot. case_match; [done|]. apply with_reads_inv; [by right|done].
  - destruct Hf. split; cbn; try done. intros _. split; [done|]. by case_match.
Qed.
(** [publish] does not touch the reads. *)
Lemma publish_reads now f :
  let g := fst (publish now f) in
  be_requests g = be_requests f /\ be_snapshotPending g = be_snapshotPending f /\ be_stopped g = be_stopped f /\ be_domain g = be_domain f
  /\ (be_stopped f = true -> be_book g = be_book f).
Proof.
  cbv zeta. unfold publish. cbn. destruct (be_stopped f) eqn:Es; [done|]. destruct (apply_pending _ _ _) as [[d r] []]; [|done]. cbn.
  destruct (decoded_bundle _ now) as [v|]; cbn; [|done]. destruct (negb (quoted v) && _); cbn; [done|]. by destruct (quoted v).
Qed.

Lemma markUnavailable_kept now f :
  let g := markUnavailable now f in
  be_requests g = be_requests f /\ be_snapshotPending g = be_snapshotPending f /\ be_stopped g = be_stopped f /\ be_data g = be_data f
  /\ vb_view (be_book g) = vb_view (be_book f) /\ vb_updatedAt (be_book g) = vb_updatedAt (be_book f) /\ (be_stopped f = true -> g = f).
Proof. cbv zeta. unfold markUnavailable. destruct (be_stopped f) eqn:Es; cbn; done. Qed.

Lemma snapshot_one_read values now f : be_requests f = 1%nat -> one_read (snapshot_answered values now f).
Proof.
  intros H1. unfold one_read, snapshot_answered. cbn. rewrite H1. cbn.
  destruct values as [vs|]; [|by destruct (markUnavailable_kept now (with_reads (be_snapshotPending f) 0 (be_fallback f) f)) as [-> _]].
  destruct (_ || be_stopped f); [by destruct (markUnavailable_kept now (with_reads (be_snapshotPending f) 0 (be_fallback f) f)) as [-> _]|].
  destruct (apply_values 0 vs _ _) as [[data lastRaw] ok]. set (g := with_data data lastRaw _ _).
  assert (be_requests g = 0%nat) as Hg by done. clearbody g. destruct ok; cbn; [|by destruct (markUnavailable_kept now g) as [-> _]].
  destruct (publish_reads now g) as [Hp _]. destruct (publish now g) as [h [[]|]]; cbn in *; try (destruct (markUnavailable_kept now h) as [-> _]); congruence.
Qed.

Lemma schedule_kept perf f :
  let g := schedule perf f in
  be_requests g = be_requests f /\ be_snapshotPending g = be_snapshotPending f /\ be_stopped g = be_stopped f /\ be_book g = be_book f
  /\ be_data g = be_data f.
Proof. cbv zeta. unfold schedule. by case_match. Qed.

Lemma one_read_step f i : one_read f -> one_read (book_step f i).
Proof.
  intros H. destruct i; cbn; try done.
  - destruct (be_requests f) as [|n] eqn:E; [done|]. apply snapshot_one_read. unfold one_read in H. destruct (be_snapshotPending f); congruence.
  - by case_match.
  - case_match; [done| |done]. unfold fallbackSnapshot. repeat case_match; done.
  - by case_match.
  - by case_match.
  - case_match; [|done]. case_match; [|done]. unfold one_read. match goal with |- context [schedule ?p ?g] => by destruct (schedule_kept p g) as (-> & -> & _) end.
  - case_match; [done|]. case_match; [|done]. unfold one_read.
    match goal with |- context [publish ?n ?g] => by destruct (publish_reads n g) as (-> & -> & _) end.
  - case_match; [done|]. unfold one_read. match goal with |- context [schedule ?p ?g] => by destruct (schedule_kept p g) as (-> & -> & _) end.
  - repeat (case_match; [done|]). unfold snapshot. destruct (be_snapshotPending f) eqn:E; [done|]. unfold one_read in *. cbn. by rewrite H, E.
Qed.

(** ** Where the book on the screen comes from *)

(** A step shows the book it had (perhaps marked), the bundle as it now stands, or the
    answer of the market API before any direct read. *)
Definition from_bundle (f g : BookEffect) (now : Z) : Prop :=
  exists v, decoded_bundle (be_data g) now = Some v /\ be_book g = shown_book v now (be_domain f)
  /\ (quoted v = false -> REQUOTE_GAP_MS <= now - be_lastQuotedAt f).

Definition from_fallback (f g : BookEffect) (a : AggregateBookResponse) (now : Z) : Prop :=
  be_lastGood f <= 0 /\ exists v, bookFromAggregate a (bool_decide (be_domain f = ER)) (now / 1000) = Some v /\ be_book g = shown_book v now (be_domain f).

Definition kept (f g : BookEffect) : Prop :=
  vb_view (be_book g) = vb_view (be_book f) /\ vb_updatedAt (be_book g) = vb_updatedAt (be_book f).

Lemma publish_shows now f :
  let g := fst (publish now f) in (kept f g \/ from_bundle f g now) /\ (be_stopped f = false -> snd (publish now f) = Some true -> be_lastGood g = now).
Proof.
  cbv zeta. unfold publish. cbn. destruct (be_stopped f) eqn:Es; [split; [by left|done]|].
  destruct (apply_pending _ _ _) as [[d r] []]; cbn; [|split; [by left|done]].
  destruct (decoded_bundle d now) as [v|] eqn:Ev; cbn; [|split; [by left|done]].
  destruct (negb (quoted v) && (now - be_lastQuotedAt f <? REQUOTE_GAP_MS)) eqn:Eh; cbn; [split; [by left|done]|].
  split; [right|by destruct (quoted v)]. exists v.
  destruct (quoted v) eqn:Eq; cbn in *; split_and!; try done. intros _. zbool. lia.
Qed.
Lemma publish_failed now f : snd (publish now f) ≠ Some true -> be_book (fst (publish now f)) = be_book f.
Proof.
  unfold publish. cbn. destruct (be_stopped f); [done|]. destruct (apply_pending _ _ _) as [[d r] []]; [|done]. cbn.
  destruct (decoded_bundle d now) as [v|]; [|done]. destruct (negb (quoted v) && _); [done|]. cbn. intros H. by destruct H.
Qed.

Lemma snapshot_shows values now f : let g := snapshot_answered values now f in kept f g \/ from_bundle f g now.
Proof.
  cbv zeta. unfold snapshot_answered. set (h := with_reads (be_snapshotPending f) (pred (be_requests f)) (be_fallback f) f).
  assert (forall k, be_book k = be_book h -> kept f (with_reads false (be_requests (markUnavailable now k)) (be_fallback (markUnavailable now k)) (markUnavailable now k))) as Hm.
  { intros k Hk. destruct (markUnavailable_kept now k) as (_ & _ & _ & _ & V & U & _). unfold kept. cbn. by rewrite V, U, Hk. }
  destruct values as [vs|]; [|left; by apply Hm]. destruct (_ || be_stopped h); [left; by apply Hm|].
  destruct (apply_values 0 vs _ _) as [[data lastRaw] ok]. destruct ok; [|left; by apply Hm]. cbn [negb].
  set (k := with_data data lastRaw (be_pending h) h). assert (be_book k = be_book h /\ be_domain k = be_domain f /\ be_lastQuotedAt k = be_lastQuotedAt f) as (K1 & K2 & K3) by done.
  destruct (publish_shows now k) as [Hp _]. pose proof (publish_failed now k) as Hfail. clearbody k.
  destruct (publish now k) as [l [[]|]]; cbn in Hp, Hfail; [|left; apply Hm; rewrite Hfail by done; done|left; apply Hm; rewrite Hfail by done; done].
  destruct Hp as [[V U]|(v & Hv & Hb & Hq)]; [left; unfold kept; cbn; by rewrite V, U, K1|right].
  exists v. cbn. by rewrite <- K2, <- K3.
Qed.

Lemma book_step_shows f i :
  let g := book_step f i in
  kept f g \/ (exists now, from_bundle f g now) \/ (exists a now, i = bi_fallback (Some a) now /\ from_fallback f g a now).
Proof.
  cbv zeta. destruct i; cbn; try (by left).
  - case_match; [by left|]. destruct (snapshot_shows values now f); [by left|right; left; by exists now].
  - case_match; by left.
  - case_match; [by left| |by left]. unfold fallbackSnapshot. destruct answer as [a|]; [|by left]. cbn.
    destruct (be_stopped f || (0 <? be_lastGood f)) eqn:E; [by left|]. destruct (bookFromAggregate a _ _) as [v|] eqn:Ev; [|by left].
    right; right. exists a, now. split; [done|]. split; [apply orb_false_iff in E as [_ E]; zbool; lia|]. by exists v.
  - case_match; by left.
  - case_match; by left.
  - case_match; [|by left]. case_match; [|by left]. left. unfold kept.
    match goal with |- context [schedule ?p ?g] => by destruct (schedule_kept p g) as (_ & _ & _ & -> & _) end.
  - case_match; [by left|]. case_match; [|by left]. match goal with |- context [publish ?n ?g] => destruct (publish_shows n g) as [[H'|H'] _] end;
      [by left|right; left]. by exists now.
  - case_match; [by left|]. left. unfold kept. match goal with |- context [schedule ?p ?g] => by destruct (schedule_kept p g) as (_ & _ & _ & -> & _) end.
  - repeat (case_match; [by left|]). unfold snapshot. case_match; by left.
Qed.

Lemma stopped_book_step f i : be_stopped f = true -> be_stopped (book_step f i) = true /\ be_book (book_step f i) = be_book f.
Proof.
  intros Hs. destruct i; cbn; try done.
  - case_match; [done|]. unfold snapshot_answered. set (h := with_reads (be_snapshotPending f) (pred (be_requests f)) (be_fallback f) f).
    assert (markUnavailable now h = h) as Hm by (apply markUnavailable_kept; done).
    destruct values as [vs|]; [|by rewrite Hm]. assert (be_stopped h = true) as -> by done. rewrite orb_true_r. by rewrite Hm.
  - by case_match.
  - case_match; [done| |done]. unfold fallbackSnapshot. destruct answer; [|done]. cbn. by rewrite Hs.
  - by rewrite Hs, andb_false_r.
  - by case_match.
  - case_match; [|done]. case_match; [|done]. match goal with |- context [schedule ?p ?g] => by destruct (schedule_kept p g) as (_ & _ & -> & -> & _) end.
  - case_match; [done|]. case_match; [|done]. match goal with |- context [publish ?n ?g] => destruct (publish_reads n g) as (_ & _ & -> & _ & Hb) end.
    by rewrite Hb.
  - case_match; [done|]. match goal with |- context [schedule ?p ?g] => by destruct (schedule_kept p g) as (_ & _ & -> & -> & _) end.
  - by rewrite Hs.
Qed.
Lemma book_run_inv encoding inputs f :
  Forall (readable_input encoding) inputs -> book_inv encoding f -> one_read f -> book_inv encoding (book_run inputs f) /\ one_read (book_run inputs f).
Proof.
  intros Hall. revert f. induction Hall as [|i inputs Hi _ IH]; intros f H1 H2; [done|].
  apply IH; [by apply book_step_inv|by apply one_read_step].
Qed.

Lemma mount_inv encoding domain book : book_inv encoding (mount domain book) /\ one_read (mount domain book).
Proof.
  split; [|done]. split; try done. split; [done|]. intros i text H. apply lookup_replicate in H as [H _]. done.
Qed.

Lemma stopped_book_run inputs f : be_stopped f = true -> be_book (book_run inputs f) = be_book f.
Proof.
  revert f. induction inputs as [|i inputs IH]; intros f Hs; [done|]. destruct (stopped_book_step f i Hs) as [Hs' <-]. by apply IH.
Qed.


(** An empty bundle inside the requote gap is held, with a timer; the timer and the
    frame it asks for show the empty book once the gap is over. *)
Theorem empty_book_held_then_shown f due perf0 now0 v0 perf1 perf2 now1 v1 :
  be_frames f = [due] -> due <= perf0 -> be_stopped f = false -> snd (publish now0 (with_frames (be_scheduled f) [] perf0 (be_retries f) f)) = Some true ->
  let f1 := book_step f (bi_frame perf0 now0) in
  decoded_bundle (be_data f1) now0 = Some v0 -> quoted v0 = false -> now0 - be_lastQuotedAt f < REQUOTE_GAP_MS ->
  decoded_bundle (be_data f1) now1 = Some v1 -> quoted v1 = false -> REQUOTE_GAP_MS <= now1 - be_lastQuotedAt f ->
  Z.max perf1 (perf0 + MIN_RENDER_GAP_MS) <= perf2 ->
  be_book f1 = be_book f /\ be_book (book_run [bi_retry perf1; bi_frame perf2 now1] f1) = shown_book v1 now1 (be_domain f).
Proof.
  intros Hf Hd Hs Hok. cbv zeta. cbn [book_step]. rewrite Hf. rewrite (proj2 (Z.leb_le _ _) Hd). revert Hok.
  unfold publish at 1 2 3 4 5. cbn. rewrite Hs. destruct (apply_pending _ _ _) as [[d r] []] eqn:Ep; cbn; [|done].
  destruct (decoded_bundle d now0) as [v|] eqn:Ev; cbn; [|done]. intros _ Hv0 Hq0 Hgap.
  assert (v = v0) as ->.
  { match type of Hv0 with decoded_bundle ?x _ = _ => assert (x = d) as Hx by (repeat case_match; done); rewrite Hx in Hv0 end. congruence. }
  rewrite Hq0, (proj2 (Z.ltb_lt _ _) Hgap). cbn. intros Hv1 Hq1 Hgap1 Hperf.
  split; [done|]. rewrite (proj2 (Z.leb_le _ _) Hperf). unfold publish. cbn. rewrite Hs. cbn. rewrite Hv1. cbn. rewrite Hq1. cbn.
  by rewrite (proj2 (Z.ltb_ge _ _) Hgap1).
Qed.

(** ** Books that are not the market's or the domain's *)

(** After the market moved, one failed read of the new domain puts the old domain's
    book on the screen under the new domain's name, with the status it had. *)
Theorem domain_switch_relabels_book core d d' book now at_ :
  vb_domain book = d -> d ≠ d' -> vb_updatedAt book = Some at_ -> at_ ≠ 0 -> now - at_ <= STALE_AFTER_MS ->
  let f := mount d' book in
  useV3Book (Some core) (Some d') false (be_book f) = mkV3Book EMPTY bs_loading None d'
  /\ useV3Book (Some core) (Some d') false (be_book (book_step f (bi_snapshot None now))) = mkV3Book (vb_view book) (vb_status book) (Some at_) d'.
Proof.
  intros <- Hne Hat Hz Hst. cbn. rewrite decide_False by done. split; [done|]. unfold markUnavailable. cbn. rewrite Hat.
  rewrite (proj2 (Z.eqb_neq _ _) Hz), (proj2 (Z.ltb_ge _ _)) by done. cbn. by rewrite decide_True.
Qed.

(** The book is kept across markets: until the first read of the new market lands, the
    previous market's levels, seats and orders are rendered for it. *)
Theorem market_switch_keeps_book core' d book : vb_domain book = d -> useV3Book (Some core') (Some d) false (be_book (mount d book)) = book.
Proof. intros <-. cbn. by rewrite decide_True. Qed.

(** A snapshot that lands while a frame is due clears the guard, so the next push
    queues a second frame. *)
Theorem snapshot_lets_a_second_frame_in f due vs now subscription index raw perf data lastRaw :
  be_frames f = [due] -> be_stopped f = false -> be_requests f = 1%nat -> length vs = BUNDLE ->
  apply_values 0 vs (be_data f) (be_lastRaw f) = (data, lastRaw, true) -> be_socketOpen f = true -> be_subscriptions f !! subscription = Some index ->
  length (be_frames (book_run [bi_snapshot (Some vs) now; bi_push subscription raw perf] f)) = 2%nat.
Proof.
  intros Hf Hs Hr Hl Ha Ho Hsub. cbn [book_run foldl book_step]. rewrite Hr. set (g := snapshot_answered (Some vs) now f).
  assert (be_frames g = [due] /\ be_scheduled g = false /\ be_socketOpen g = true /\ be_subscriptions g !! subscription = Some index) as (G1 & G2 & G3 & G4).
  { unfold g, snapshot_answered. cbn. rewrite Hl, Hs. cbn. rewrite Ha. cbn. unfold publish. cbn. rewrite Hs.
    destruct (apply_pending _ _ _) as [[d r] []]; cbn; unfold markUnavailable; cbn; rewrite ?Hs; try done.
    destruct (decoded_bundle d now) as [v|]; cbn; rewrite ?Hs; try done. destruct (negb (quoted v) && _); cbn; [done|]. by destruct (quoted v). }
  clearbody g. rewrite G3, G4. unfold schedule. cbn. rewrite G2, G1. done.
Qed.

(** A payload that cannot be decoded is remembered all the same: the push stays
    pending, later frames skip it, and the account keeps its old bytes. *)
Theorem unreadable_push_hides_account f now now' text encoding i :
  be_stopped f = false -> be_pending f = [(Z.of_nat i, Some (text, encoding))] -> decodeAccount text encoding = None ->
  (i < length (be_lastRaw f))%nat -> be_lastRaw f !! i ≠ Some (Some text) ->
  let g := fst (publish now f) in
  snd (publish now f) = None /\ be_pending g = be_pending f /\ be_data (fst (publish now' g)) = be_data f.
Proof.
  intros Hs Hp Hd Hlt Hne. cbv zeta. assert (apply_pending (be_pending f) (be_data f) (be_lastRaw f) = (be_data f, <[i := Some text]> (be_lastRaw f), false)) as Ha.
  { rewrite Hp. cbn. unfold at_index, set_index. rewrite (proj2 (Z.leb_le 0 _)) by lia. rewrite Nat2Z.id. rewrite decide_False by done. by rewrite Hd. }
  assert (publish now f = (with_data (be_data f) (<[i := Some text]> (be_lastRaw f)) (be_pending f)
    (with_frames false (be_frames f) (be_lastPublishAt f) (be_retries f) f), None)) as -> by (unfold publish; cbn; by rewrite Hs, Ha).
  cbn. split; [done|]. split; [done|].
  unfold publish. cbn. rewrite Hs, Hp. cbn. unfold at_index. rewrite (proj2 (Z.leb_le 0 _)) by lia. rewrite Nat2Z.id, list_lookup_insert_eq by done.
  rewrite decide_True by done. cbn. destruct (decoded_bundle _ now') as [v|]; cbn; [|done]. destruct (negb (quoted v) && _); cbn; [done|]. by destruct (quoted v).
Qed.
End Effect.

Definition sample_pushes : list BookInput :=
  [bi_open; bi_ack 1 7; bi_push 7 (Some ("a", "base64+zstd")) 10; bi_push 7 (Some ("b", "base64+zstd")) 12; bi_interval false 40].

