(* ===== verification/BrowserFeeds.v ===== *)
(** * The browser's polling hooks

    The hooks that read one market or one wallet and poll it: the execution status
    (features/magicblock/use-execution-status.ts), the oracle clock
    (features/oracle/use-market-clock.ts), open orders
    (features/orders/use-open-orders.ts), wallet balances, the seats of a wallet and
    the account total (features/portfolio/), the recent fills
    (features/activity/use-recent-fills.ts), the candles
    (features/trading/use-candles.ts), and the seat a trader uses
    (lib/v3-seat.ts, features/trading/rollup-seat.ts).

    Most share one shape: an effect keyed by what it reads, an answer that is
    applied unless the effect has ended.  [Polling] is that shape, its steps a
    relation, so that one lemma carries an invariant through every interleaving of
    key changes, ticks and late answers. *)

From stdpp Require Import sorting.
From S2P Require Import Prelude Json Bytes ExecutionStatus V3Market ClientInstructions ClientAccounts PrivateSessions.
From S2P Require Import BrowserState BrowserBook.


(** ** The shape of a polling effect *)

(** What an effect does to the hook's state when it starts, and with an answer. *)
Class Polling (K St A : Type) := { poll_mount : K -> St -> St; poll_answer : K -> Z -> A -> St -> St }.

Record Polled (K St : Type) := mkPolled {
  pl_key : option K; pl_epoch : nat; pl_state : St;
  (** answers awaited, with the effect run and the key they were asked for *)
  pl_requests : list (nat * K) }.
Arguments mkPolled {K St}. Arguments pl_key {K St}. Arguments pl_epoch {K St}. Arguments pl_state {K St}. Arguments pl_requests {K St}.

Section Polled.
Context {K St A : Type} `{!Polling K St A} (genuine : K -> A -> Prop).

Definition effect_starts (k : K) (p : Polled K St) : Polled K St :=
  mkPolled (Some k) (S (pl_epoch p)) (poll_mount k (pl_state p)) (pl_requests p ++ [(S (pl_epoch p), k)]).
Definition effect_ends (p : Polled K St) : Polled K St := mkPolled None (S (pl_epoch p)) (pl_state p) (pl_requests p).
Definition ticked (k : K) (p : Polled K St) : Polled K St :=
  mkPolled (pl_key p) (pl_epoch p) (pl_state p) (pl_requests p ++ [(pl_epoch p, k)]).
Definition answered_by (n e : nat) (k : K) (now : Z) (a : A) (p : Polled K St) : Polled K St :=
  mkPolled (pl_key p) (pl_epoch p) (if (e =? pl_epoch p)%nat then poll_answer k now a (pl_state p) else pl_state p)
    (take n (pl_requests p) ++ drop (S n) (pl_requests p)).

Inductive poll_step : Polled K St -> Polled K St -> Prop :=
  | ps_start p k : poll_step p (effect_starts k p)
  | ps_end p : poll_step p (effect_ends p)
  | ps_tick p k : pl_key p = Some k -> poll_step p (ticked k p)
  | ps_answer p n e k now a : pl_requests p !! n = Some (e, k) -> genuine k a -> poll_step p (answered_by n e k now a p).

(** A request of the present run was made for the present key. *)
Definition requests_ok (p : Polled K St) : Prop :=
  Forall (fun r => (fst r <= pl_epoch p)%nat /\ (fst r = pl_epoch p -> pl_key p = Some (snd r))) (pl_requests p).

Lemma requests_ok_step p q : poll_step p q -> requests_ok p -> requests_ok q.
Proof.
  intros Hs Hp. unfold requests_ok in *. destruct Hs as [p k|p|p k Hk|p n e k now a Hn Hg]; cbn.
  - apply Forall_app. split; [|by repeat constructor]. eapply Forall_impl; [|exact Hp]. cbn. intros r [? ?]. split; lia.
  - eapply Forall_impl; [|exact Hp]. cbn. intros r [? ?]. split; lia.
  - apply Forall_app. split; [done|]. by repeat constructor.
  - rewrite <- (take_drop_middle _ _ _ Hn) in Hp. apply Forall_app in Hp as [H1 H2]. apply Forall_app. split; [done|]. by inversion H2.
Qed.

(** An invariant of the state, relative to the key the effect runs for. *)
Lemma polled_invariant (R : option K -> St -> Prop) p q :
  (forall o k s, R o s -> R (Some k) (poll_mount k s)) -> (forall o s, R o s -> R None s) ->
  (forall k now a s, genuine k a -> R (Some k) s -> R (Some k) (poll_answer k now a s)) ->
  rtc poll_step p q -> requests_ok p -> R (pl_key p) (pl_state p) -> requests_ok q /\ R (pl_key q) (pl_state q).
Proof.
  intros Hm Hn Ha. induction 1 as [|p q r Hs _ IH]; intros Hok HR; [done|].
  apply IH; [by eapply requests_ok_step|]. destruct Hs as [p k|p|p k Hk|p n e k now a Hl Hg]; cbn; [by eapply Hm|by eapply Hn|done|].
  case_match eqn:E; [|done]. apply Nat.eqb_eq in E. subst e.
  assert (pl_key p = Some k) as Hk.
  { unfold requests_ok in Hok. rewrite list.Forall_forall in Hok. destruct (Hok _ (list_elem_of_lookup_2 _ _ _ Hl)) as [_ H]. by apply H. }
  rewrite Hk in *. by apply Ha.
Qed.
End Polled.

(** ** use-execution-status.ts *)

Definition HOLD_LAST_GOOD_MS : Z := 30000.

(** The display and the time of the last good answer; a new market starts from
    nothing. *)
Definition useExecutionStatus : Polling string (option ExecutionDisplayState * Z) (option ExecutionStatusResponse) := {|
  poll_mount _ _ := (None, 0);
  poll_answer _ now response s :=
    match response with
    | Some r => (Some (deriveExecutionDisplay r), now)
    | None => if HOLD_LAST_GOOD_MS <? now - s.2 then (None, s.2) else s
    end |}.
#[export] Existing Instance useExecutionStatus.

(** ** use-market-clock.ts *)

(** The oracle's price is kept with its exponent; the source multiplies them. *)
Record ClockOracle := mkClockOracle { co_price : Z; co_confidence : Z; co_exponent : Z; co_tradingOpen : bool; co_sequence : Z }.
Record MarketClock := mkMarketClock { mc_oracleValid : bool; mc_lastVerifiedOracleTimestamp : Z; mc_oracle : option ClockOracle }.

(** What a read found: the V2 header's two fields, or the bytes of the snapshot. *)
Inductive ClockAnswer := clock_header (oracleValid : bool) (timestamp : Z) | clock_snapshot (bytes : list Z) | clock_failed.

Definition read_clock (marketAddress : string) (a : ClockAnswer) : option MarketClock :=
  match a with
  | clock_failed => None
  | clock_header valid t => Some (mkMarketClock valid t None)
  | clock_snapshot bytes =>
      match Abi.decodeOracleSnapshotV3 bytes with
      | Throw _ => None
      | Ok s =>
          if bool_decide (base58Encode (Abi.sv_core s) = marketAddress)
          then Some (mkMarketClock (Abi.sv_authenticated s) (Abi.sv_publishTimestamp s)
                 (Some (mkClockOracle (Abi.sv_price s) (Abi.sv_confidence s) (Abi.sv_exponent s) (Abi.sv_tradingStatus s =? 0) (Abi.sv_sequence s))))
          else None
      end
  end.

Definition useMarketClock : Polling string (option MarketClock) ClockAnswer := {|
  poll_mount _ clock := clock;
  poll_answer marketAddress _ a _ := read_clock marketAddress a |}.
#[export] Existing Instance useMarketClock.

(** ** use-open-orders.ts *)

(** What is shown, and the effect's own [current].  The key is the adapter's market
    and the seat; an answer is a result or an error. *)
Definition useOpenOrders : Polling (string * Z) (OpenOrdersViewState * OpenOrdersViewState) (OpenOrdersFetchResult + option string) := {|
  poll_mount _ s := (s.1, ov_loading);
  poll_answer _ _ a s :=
    let current := match a with inl r => classifyOpenOrdersResult s.2 (Some r) None | inr e => classifyOpenOrdersResult s.2 None e end in
    (current, current) |}.
#[export] Existing Instance useOpenOrders.

(** ** use-wallet-balances.ts *)

Record WalletBalances := mkBalances { solLamports : option Z; collateralTokenBalance : option Z }.

(** An answer is the pair of reads, each [None] when it failed. *)
Definition useWalletBalances : Polling string WalletBalances (option Z * option Z) := {|
  poll_mount _ b := b;
  poll_answer _ _ a _ := mkBalances a.1 a.2 |}.
#[export] Existing Instance useWalletBalances.

(** ** use-account-summary.ts *)

Record AccountSeat := mkAccountSeat {
  as_index : Z; as_available : Z; as_reserved : Z; as_position : Z; as_realizedPnl : Z; as_openOrderCount : Z }.

(** A market's symbol with the wallet's seat there, if it has one. *)
Definition MarketSeats : Type := list (string * option AccountSeat).

Record SeatsState := mkSeatsState { sts_snapshot : option (string * bool * MarketSeats); sts_failure : option (string * bool) }.

Definition account_seat (p : SeatPosition) : AccountSeat :=
  mkAccountSeat (sp_shard p * 32 + sp_slot p) (sp_availableCollateral p) (sp_reservedMargin p) (sp_basePosition p) (sp_realizedPnl p) (sp_openOrderCount p).

(** One market's entry: [accounts] are its four seat shards as they were read. *)
Definition market_seat (wallet symbol : string) (positions : list SeatPosition) : string * option AccountSeat :=
  (symbol, account_seat <$> (snd <$> list_find (fun p => sp_trader p = wallet) positions)).

(** An answer is the seats of each market, [None] when the read failed or was short. *)
Definition useSeats : Polling (string * bool) SeatsState (option (list (string * list SeatPosition))) := {|
  poll_mount _ s := s;
  poll_answer k _ a s :=
    match a with
    | None => mkSeatsState (sts_snapshot s) (Some k)
    | Some markets => mkSeatsState (Some (k, (fun m => market_seat k.1 m.1 m.2) <$> markets)) None
    end |}.
#[export] Existing Instance useSeats.

Definition seats_shown (wallet : option string) (delegated enabled : bool) (s : SeatsState) : option MarketSeats * bool :=
  match wallet with
  | Some w =>
      if enabled
      then (match sts_snapshot s with
            | Some (k, seats) => if decide (k = (w, delegated)) then Some seats else None
            | None => None
            end, bool_decide (sts_failure s = Some (w, delegated)))
      else (None, false)
  | None => (None, false)
  end.

Definition seat_total (seats : MarketSeats) : Z :=
  foldl (fun sum m => match m.2 with Some s => sum + (as_available s + as_reserved s) | None => sum end) 0 seats.

(** [trading] is whether there is a trading key, whose balances are the second pair. *)
Definition totalUsdc (wallet : WalletBalances) (trading : bool) (tradingBalances : WalletBalances) (seats : option MarketSeats) : option Z :=
  match solLamports wallet, seats with
  | Some _, Some seats =>
      if trading && bool_decide (solLamports tradingBalances = None) then None
      else Some (default 0 (collateralTokenBalance wallet) + (if trading then default 0 (collateralTokenBalance tradingBalances) else 0) + seat_total seats)
  | _, _ => None
  end.

(** ** v3-seat.ts and rollup-seat.ts *)

Definition V3_SEAT_COUNT : nat := 128.

Definition seat_index (p : SeatPosition) : Z := sp_shard p * 32 + sp_slot p.

(** The loop over the indices: the first that no position has. *)
Definition first_free (positions : list SeatPosition) : option Z :=
  snd <$> list_find (fun i => i ∉ (seat_index <$> positions)) (Z.of_nat <$> seq 0 V3_SEAT_COUNT).
Arguments first_free : simpl never.

Definition resolveV3Seat (positions : list SeatPosition) (wallet : string) : option (Z * bool) :=
  match snd <$> list_find (fun p => sp_trader p = wallet) positions with
  | Some own => Some (seat_index own, true)
  | None => (fun i => (i, false)) <$> first_free positions
  end.

Definition seatFromPositions (positions : list SeatPosition) (wallet : string) : option (Z * TraderSeatView) :=
  own ← snd <$> list_find (fun p => sp_trader p = wallet) positions;
  let index := seat_index own in
  Some (index, mkSeatDisplay
    {| tp_seatIndex := index; tp_owner := sp_trader own; tp_availableCollateral := sp_availableCollateral own; tp_reservedMargin := sp_reservedMargin own;
       tp_basePosition := sp_basePosition own; tp_quoteEntryValue := sp_quoteEntryValue own; tp_realizedPnl := sp_realizedPnl own;
       tp_lastFundingAccumulator := 0; tp_openBidExposure := 0; tp_openAskExposure := 0; tp_openOrderCount := sp_openOrderCount own;
       tp_liquidationState := sp_liquidationState own; tp_sequence := 0 |} (liquidationLabel (sp_liquidationState own))).

Definition firstFreeSeat (positions : list SeatPosition) : Z := default 0 (first_free positions).

(** The terminal's seat while the market is in the rollup. *)
Definition rollup_seat_index (positions : list SeatPosition) (trader : string) : Z :=
  match seatFromPositions positions trader with Some (i, _) => i | None => firstFreeSeat positions end.

(** ** v3-order.ts *)

(** [nextClientOrderId]: the id and the module's new [lastClientOrderId]. *)
Definition nextClientOrderId (nowMs lastClientOrderId : Z) : Z :=
  let now := nowMs * 1000 in if lastClientOrderId <? now then now else lastClientOrderId + 1.

(** ** use-candles.ts *)

(** Prices are compared, never computed with; any integer scale serves. *)
Record Candle := mkCandle { cd_t : Z; cd_o : Z; cd_h : Z; cd_l : Z; cd_c : Z }.

Record Resolution := mkResolution { rs_code : string; rs_seconds : Z; rs_lookback : Z }.
Definition RESOLUTIONS : list Resolution :=
  [mkResolution "1" 60 10800; mkResolution "5" 300 43200; mkResolution "15" 900 129600; mkResolution "60" 3600 604800;
   mkResolution "240" 14400 2592000; mkResolution "D" 86400 15552000].

(** What the hook holds, and the number of the last request. *)
Record Candles := mkCandles { cs_series : option (string * list Candle * option string); cs_request : nat }.

Inductive CandleAnswer := ca_no_data | ca_error (message : string) | ca_ok (candles : list Candle).

Definition load_started (s : Candles) : Candles := mkCandles (cs_series s) (S (cs_request s)).

Definition held_candles (code : string) (s : Candles) : list Candle :=
  match cs_series s with Some (c, candles, _) => if decide (c = code) then candles else [] | None => [] end.

(** The end of [load] for request [id] of a resolution. *)
Definition load (id : nat) (code : string) (answer : CandleAnswer) (s : Candles) : Candles :=
  if (id =? cs_request s)%nat
  then match answer with
    | ca_no_data => mkCandles (Some (code, held_candles code s, None)) (cs_request s)
    | ca_error e => mkCandles (Some (code, held_candles code s, Some e)) (cs_request s)
    | ca_ok candles => mkCandles (Some (code, candles, None)) (cs_request s)
    end
  else s.

(** The live price merged into the history. *)
Definition merge_live (seconds : Z) (live : option (Z * Z)) (history : list Candle) : list Candle :=
  match list.last history, live with
  | Some last, Some (price, publishTime) =>
      let bucket := publishTime / seconds * seconds in
      if bucket =? cd_t last then removelast history ++ [mkCandle (cd_t last) (cd_o last) (Z.max (cd_h last) price) (Z.min (cd_l last) price) price]
      else if cd_t last <? bucket then history ++ [mkCandle bucket price price price price]
      else history
  | _, _ => history
  end.

(** [candles], [error] and [loading] for the selected resolution. *)
Definition useCandles (r : Resolution) (live : option (Z * Z)) (s : Candles) : list Candle * option string * bool :=
  match cs_series s with
  | Some (c, candles, error) => if decide (c = rs_code r) then (merge_live (rs_seconds r) live candles, error, false) else ([], None, true)
  | None => ([], None, true)
  end.

(** ** use-recent-fills.ts *)

Record Fill := mkFill { fl_market : string; fl_trade : Trade }.
#[export] Instance trade_eq_dec : EqDecision Trade.
Proof. solve_decision. Defined.
#[export] Instance fill_eq_dec : EqDecision Fill.
Proof. solve_decision. Defined.

Inductive FillsStatus := fs_loading | fs_live | fs_unavailable.
Record RecentFills := mkRecentFills { rf_fills : list Fill; rf_status : FillsStatus }.

(** Newest first: by time, then by sequence. *)
Definition fill_before (a b : Fill) : Prop :=
  td_time (fl_trade b) < td_time (fl_trade a)
  \/ (td_time (fl_trade a) = td_time (fl_trade b) /\ td_sequence (fl_trade b) <= td_sequence (fl_trade a)).
#[export] Instance fill_before_dec a b : Decision (fill_before a b).
Proof. unfold fill_before. apply _. Defined.

Definition fill_key (f : Fill) : string * Z := (fl_market f, td_sequence (fl_trade f)).

(** The fills of one read: each market's records. *)
Definition fills_of (markets : list (string * list (list (option V3EventRecord)))) : list Fill :=
  merge_sort fill_before (concat ((fun m => mkFill m.1 <$> tradesFrom m.2) <$> markets)).

(** [None] is a failed, short or undecodable read. *)
Definition read_fills (answer : option (list (string * list (list (option V3EventRecord))))) (s : RecentFills) : RecentFills :=
  match answer with
  | None => mkRecentFills (rf_fills s) fs_unavailable
  | Some markets =>
      let fills := fills_of markets in
      let merged := merge_sort fill_before (fills ++ filter (fun f => fill_key f ∉ (fill_key <$> fills)) (rf_fills s)) in
      mkRecentFills (take 100 merged) fs_live
  end.

(** ** Whose data is on the screen *)

Definition unmounted {K St} (s : St) : Polled K St := mkPolled None 0 s [].

Lemma polled_from_unmounted {K St A} `{!Polling K St A} (genuine : K -> A -> Prop) (R : option K -> St -> Prop) s p :
  rtc (poll_step genuine) (unmounted s) p -> R None s ->
  (forall o k s, R o s -> R (Some k) (poll_mount k s)) -> (forall o s, R o s -> R None s) ->
  (forall k now a s, genuine k a -> R (Some k) s -> R (Some k) (poll_answer k now a s)) -> R (pl_key p) (pl_state p).
Proof. intros Hr H0 H1 H2 H3. apply (polled_invariant genuine R (unmounted s) p H1 H2 H3 Hr); [constructor|exact H0]. Qed.

(** The hooks that are safe against a change of market or wallet, over every
    interleaving of key changes, ticks and late answers: the execution status
    shown was reported for the market selected; the effect's own open orders come
    from an answer for its market and seat; and the seats shown were read for the
    wallet and the chain selected. *)
Theorem polled_data_is_its_keys (reported : string -> ExecutionStatusResponse -> Prop) (orders_of : string * Z -> OpenOrdersFetchResult -> Prop)
    (read_for : string * bool -> list (string * list SeatPosition) -> Prop) :
  (forall p market d, rtc (poll_step (fun k a => forall r, a = Some r -> reported k r)) (unmounted (None, 0)) p ->
     pl_key p = Some market -> (pl_state p).1 = Some d -> exists r, reported market r /\ d = deriveExecutionDisplay r)
  /\ (forall p k orders stale, rtc (poll_step (fun k a => forall r, a = inl r -> orders_of k r)) (unmounted (ov_loading, ov_loading)) p ->
     pl_key p = Some k -> (pl_state p).2 = ov_ready orders stale -> exists slot, orders_of k (oo_ready orders slot))
  /\ (forall p wallet delegated seats, rtc (poll_step (fun k a => forall ms, a = Some ms -> read_for k ms)) (unmounted (mkSeatsState None None)) p ->
     (seats_shown (Some wallet) delegated true (pl_state p)).1 = Some seats ->
     exists markets, read_for (wallet, delegated) markets /\ seats = (fun m => market_seat wallet m.1 m.2) <$> markets).
Proof.
  split_and!.
  - intros p market d Hr Hk Hd.
    pose proof (polled_from_unmounted _ (fun o s => match o with Some k => forall d, s.1 = Some d -> exists r, reported k r /\ d = deriveExecutionDisplay r | None => True end) _ _ Hr I) as H.
    rewrite Hk in H. apply H; [done|by destruct o| |done].
    intros k now [r|] s Hg Hs; cbn; [intros d' [= <-]; exists r; split; [by apply Hg|done]|]. case_match; [done|exact Hs].
  - intros p k orders stale Hr Hk Ho.
    pose proof (polled_from_unmounted _ (fun o s => match o with Some k => forall orders stale, s.2 = ov_ready orders stale -> exists slot, orders_of k (oo_ready orders slot) | None => True end) _ _ Hr I) as H.
    rewrite Hk in H. eapply H; [done|by destruct o| |done].
    intros k' now [[reason|os slot]|e] [sh cur] Hg Hs os' st; cbn in *; [done| |].
    + destruct os; [done|]. intros [= <- <-]. exists slot. by apply Hg.
    + destruct cur; try done. intros [= <- <-]. by eapply Hs.
  - intros p wallet delegated seats Hr Hsh.
    pose proof (polled_from_unmounted _ (fun _ s => forall k ms, sts_snapshot s = Some (k, ms) -> exists markets, read_for k markets /\ ms = (fun m => market_seat k.1 m.1 m.2) <$> markets) _ _ Hr) as H.
    cbn in Hsh. destruct (sts_snapshot (pl_state p)) as [[k ms]|] eqn:E; [|done]. case_decide as Hk; [|done]. simplify_eq.
    apply (H ltac:(done)) with (k := (wallet, delegated)); [done|done| |done].
    intros k now [markets|] s Hg Hs k' ms; cbn; [|apply Hs]. intros [= <- <-]. exists markets. split; [by apply Hg|done].
Qed.

(** The others keep what they showed: after a change of market the oracle clock, and
    after a change of wallet the balances, are the previous one's until an answer
    arrives, and so are the open orders on the screen. *)
Theorem kept_across_keys :
  (forall market (p : Polled string (option MarketClock)), pl_state (effect_starts market p) = pl_state p)
  /\ (forall wallet (p : Polled string WalletBalances), pl_state (effect_starts wallet p) = pl_state p)
  /\ (forall k (p : Polled (string * Z) _), (pl_state (effect_starts k p)).1 = (pl_state p).1).
Proof. done. Qed.

(** A clock that an answer set is of the market asked: a snapshot bound to another
    market is refused. *)
Theorem clock_answer_is_the_markets market now bytes clock c :
  poll_answer market now (clock_snapshot bytes) clock = Some c -> exists s, Abi.decodeOracleSnapshotV3 bytes = Ok s /\ base58Encode (Abi.sv_core s) = market
    /\ mc_lastVerifiedOracleTimestamp c = Abi.sv_publishTimestamp s /\ mc_oracleValid c = true.
Proof.
  cbn. destruct (Abi.decodeOracleSnapshotV3 bytes) as [s|] eqn:E; [|done]. case_bool_decide; [|done]. intros [= <-]. exists s. split_and!; try done. cbn.
  unfold Abi.decodeOracleSnapshotV3, throw_if in E. repeat (case_match; cbn in E; try done). by simplify_eq.
Qed.

(** ** Seats *)

Lemma first_free_Some positions i :
  first_free positions = Some i -> 0 <= i < 128 /\ (i ∉ seat_index <$> positions) /\ forall j, 0 <= j < i -> j ∈ (seat_index <$> positions).
Proof.
  unfold first_free. destruct (list_find _ _) as [[n j]|] eqn:E; [|done]. intros [= <-]. apply list_find_Some in E as (Hl & Hn & Hmin).
  rewrite list_lookup_fmap, fmap_Some in Hl. destruct Hl as (m & Hm & ->). apply lookup_seq in Hm as [-> Hlt]. unfold V3_SEAT_COUNT in Hlt. split_and!; [lia|lia|done|].
  intros j Hj. specialize (Hmin (Z.to_nat j) (Z.of_nat (Z.to_nat j))). rewrite Z2Nat.id in Hmin by lia. apply dec_stable, Hmin; [|lia].
  rewrite list_lookup_fmap, lookup_seq_lt; [cbn; by rewrite Z2Nat.id by lia|unfold V3_SEAT_COUNT; lia].
Qed.

Lemma first_free_None positions : first_free positions = None -> forall i, 0 <= i < 128 -> i ∈ (seat_index <$> positions).
Proof.
  unfold first_free. destruct (list_find _ _) as [|] eqn:E; [done|]. intros _ i Hi. apply list_find_None in E. rewrite list.Forall_forall in E.
  apply dec_stable, E. apply list_elem_of_fmap. exists (Z.to_nat i). split; [lia|]. apply elem_of_seq. unfold V3_SEAT_COUNT. lia.
Qed.

(** The seat the terminal uses in the rollup is the one [resolveV3Seat] gives: the
    trader's own, else the lowest free index below 128.  When every seat is taken the
    two part: [resolveV3Seat] gives none, the terminal takes seat 0, which another
    trader holds. *)
Theorem rollup_seat_spec positions trader :
  match resolveV3Seat positions trader with
  | Some (i, existing) => rollup_seat_index positions trader = i
      /\ (existing = true -> exists p, p ∈ positions /\ sp_trader p = trader /\ i = seat_index p)
      /\ (existing = false -> 0 <= i < 128 /\ Forall (fun p => seat_index p ≠ i /\ sp_trader p ≠ trader) positions /\ forall j, 0 <= j < i -> exists p, p ∈ positions /\ seat_index p = j)
  | None => rollup_seat_index positions trader = 0 /\ exists p, p ∈ positions /\ seat_index p = 0 /\ sp_trader p ≠ trader
  end.
Proof.
  unfold rollup_seat_index, resolveV3Seat, seatFromPositions, firstFreeSeat.
  destruct (list_find (fun p => sp_trader p = trader) positions) as [[n own]|] eqn:E; cbn.
  { apply list_find_Some in E as (Hl & Ht & _). split_and!; [done| |done]. intros _. exists own. split_and!; [by eapply list_elem_of_lookup_2|done|done]. }
  apply list_find_None in E. rewrite list.Forall_forall in E. destruct (first_free positions) as [i|] eqn:Ef; cbn.
  - destruct (first_free_Some _ _ Ef) as (H1 & H2 & H3). split_and!; [done|done|]. intros _. split_and!; [lia|lia| |].
    + apply list.Forall_forall. intros p Hp. split; [|by apply E]. intros <-. apply H2, list_elem_of_fmap. by exists p.
    + intros j Hj. specialize (H3 j Hj). apply list_elem_of_fmap in H3 as (p & -> & Hp). by exists p.
  - split; [done|]. pose proof (first_free_None _ Ef 0 ltac:(lia)) as H. apply list_elem_of_fmap in H as (p & Hp & Hin). exists p. split_and!; [done|done|by apply E].
Qed.

(** Client order ids only grow, so no two orders of a page share one. *)
Theorem client_order_ids_increase nows last :
  StronglySorted Z.lt (snd (foldl (fun '(l, ids) now => (nextClientOrderId now l, ids ++ [nextClientOrderId now l])) (last, []) nows)).
Proof.
  enough (forall nows l ids, Forall (fun i => i <= l) ids -> StronglySorted Z.lt ids ->
    StronglySorted Z.lt (snd (foldl (fun '(l, ids) now => (nextClientOrderId now l, ids ++ [nextClientOrderId now l])) (l, ids) nows))) as H by (apply H; constructor).
  clear. induction nows as [|now nows IH]; intros l ids Hl Hs; [done|]. cbn. assert (l < nextClientOrderId now l) by (unfold nextClientOrderId; case_match; zbool; lia).
  apply IH.
  - apply Forall_app. split; [eapply Forall_impl; [|exact Hl]; cbn; lia|]. constructor; [lia|constructor].
  - apply StronglySorted_app. split_and!; [|done|repeat constructor]. intros x y Hx Hy. apply list_elem_of_singleton in Hy as ->. rewrite list.Forall_forall in Hl. specialize (Hl _ Hx). lia.
Qed.

(** ** Fills *)

#[export] Instance fill_before_total : Total fill_before.
Proof. intros a b. unfold fill_before. lia. Qed.
#[export] Instance fill_before_trans : Transitive fill_before.
Proof. intros a b c. unfold fill_before. lia. Qed.

(** What is shown keeps the order and the uniqueness. *)
Record fills_ok (fs : list Fill) : Prop := mkFillsOk {
  fi_once : NoDup (fill_key <$> fs); fi_sorted : StronglySorted fill_before fs; fi_length : (length fs <= 100)%nat }.

Lemma sorted_prefix_newer fs x y : StronglySorted fill_before fs -> x ∈ take 100 fs -> y ∈ drop 100 fs -> fill_before x y.
Proof. rewrite <- (take_drop 100 fs) at 1. intros H Hx Hy. apply StronglySorted_app in H as (H & _ & _). by apply H. Qed.

(** The list of recent fills.  After any read it holds at most 100 fills, newest
    first, no fill twice; it is made of the fills read and those already shown; and
    a fill that is left out is no newer than any shown, and is left out only when 100
    are shown.  A failed read changes the status alone. *)
Theorem recent_fills_spec answer s :
  fills_ok (rf_fills s) ->
  match answer with Some markets => NoDup (fill_key <$> fills_of markets) | None => True end ->
  let s' := read_fills answer s in
  fills_ok (rf_fills s')
  /\ match answer with
     | None => rf_fills s' = rf_fills s /\ rf_status s' = fs_unavailable
     | Some markets => rf_status s' = fs_live
         /\ (forall f, f ∈ rf_fills s' -> f ∈ fills_of markets \/ f ∈ rf_fills s)
         /\ (forall f, f ∈ fills_of markets \/ (f ∈ rf_fills s /\ fill_key f ∉ (fill_key <$> fills_of markets)) ->
              f ∈ rf_fills s' \/ (length (rf_fills s') = 100%nat /\ Forall (fun g => fill_before g f) (rf_fills s')))
     end.
Proof.
  intros [Hn Hs Hl] Ha. destruct answer as [markets|]; cbn -[take]; [|done].
  set (new := fills_of markets) in *. set (all := new ++ filter _ (rf_fills s)). set (sorted := merge_sort fill_before all).
  assert (sorted ≡ₚ all) as Hp by apply merge_sort_Permutation.
  assert (StronglySorted fill_before sorted) as Hss by (apply Sorted_StronglySorted, Sorted_merge_sort; apply _).
  assert (NoDup (fill_key <$> sorted)) as Hnd.
  { rewrite Hp. unfold all. rewrite fmap_app. apply list.NoDup_app. split_and!; [done| |].
    - intros k Hk Hk'. apply list_elem_of_fmap in Hk' as (f & -> & Hf). by apply list_elem_of_filter in Hf as [? _].
    - clear - Hn. induction (rf_fills s) as [|f fs IH]; [constructor|]. cbn in Hn. apply list.NoDup_cons in Hn as [Hf Hn]. rewrite filter_cons. case_decide; [|by apply IH].
      cbn. apply list.NoDup_cons. split; [|by apply IH]. intros Hin. apply Hf. apply list_elem_of_fmap in Hin as (g & Hg & Hin). apply list_elem_of_fmap.
      exists g. split; [done|]. by apply list_elem_of_filter in Hin as [_ ?]. }
  assert (forall f, f ∈ sorted <-> f ∈ new \/ (f ∈ rf_fills s /\ fill_key f ∉ (fill_key <$> new))) as Hin.
  { intros f. rewrite Hp. unfold all. rewrite elem_of_app, list_elem_of_filter. tauto. }
  clearbody sorted new. clear Hp all. rewrite <- (take_drop 100 sorted), fmap_app in Hnd. split.
  - split; [by apply list.NoDup_app in Hnd as [? _]| |rewrite length_take; lia].
    rewrite <- (take_drop 100 sorted) in Hss. by apply StronglySorted_app in Hss as (_ & ? & _).
  - split_and!; [done| |].
    + intros f Hf. apply elem_of_take in Hf as (i & Hi & _). apply list_elem_of_lookup_2, Hin in Hi. tauto.
    + intros f Hf. apply Hin in Hf. rewrite <- (take_drop 100 sorted), elem_of_app in Hf. destruct Hf as [Hf|Hf]; [by left|right].
      split; [|apply list.Forall_forall; intros g Hg; by eapply sorted_prefix_newer].
      rewrite length_take. apply Nat.min_l. destruct (decide (100 <= length sorted)%nat) as [|Hlt]; [done|]. rewrite drop_ge in Hf by lia. by apply elem_of_nil in Hf.
Qed.

(** ** Candles *)

Definition candle_ok (c : Candle) : Prop := cd_l c <= cd_o c <= cd_h c /\ cd_l c <= cd_c c <= cd_h c.

(** The series of the chart.  Only the latest request writes it, and what is shown is
    of the resolution selected; the live price keeps the candles well formed and in
    order, and is the close of the last candle unless it is older than it. *)
Theorem candles_spec r price publishTime id code answer s history :
  (id ≠ cs_request s -> load id code answer s = s)
  /\ (useCandles r (Some (price, publishTime)) s = ([], None, true)
      \/ exists candles e, cs_series s = Some (rs_code r, candles, e) /\ useCandles r (Some (price, publishTime)) s = (merge_live (rs_seconds r) (Some (price, publishTime)) candles, e, false))
  /\ (0 < rs_seconds r -> Forall candle_ok history -> StronglySorted Z.lt (cd_t <$> history) ->
      let merged := merge_live (rs_seconds r) (Some (price, publishTime)) history in
      Forall candle_ok merged /\ StronglySorted Z.lt (cd_t <$> merged)
      /\ (forall c, list.last history = Some c -> cd_t c <= publishTime / rs_seconds r * rs_seconds r -> exists c', list.last merged = Some c' /\ cd_c c' = price)).
Proof.
  split_and!.
  - intros H. unfold load. by rewrite (proj2 (Nat.eqb_neq _ _) H).
  - unfold useCandles. destruct (cs_series s) as [[[c candles] e]|]; [|by left]. case_decide as Hc; [|by left]. subst c. right. by exists candles, e.
  - intros Hsec Hok Hs. cbv zeta. unfold merge_live. destruct (list.last history) as [c|] eqn:El; [|split_and!; done].
    apply last_Some in El as (pre & ->). rewrite removelast_last. rewrite fmap_app in Hs. apply StronglySorted_app in Hs as (Hlt & Hpre & _).
    apply Forall_app in Hok as [Hok Hc]. apply Forall_inv in Hc. set (bucket := publishTime / rs_seconds r * rs_seconds r).
    destruct (bucket =? cd_t c) eqn:E1; zbool; [|destruct (cd_t c <? bucket) eqn:E2; zbool].
    + split_and!.
      * apply Forall_app. split; [done|]. constructor; [|constructor]. unfold candle_ok in *. cbn. lia.
      * rewrite fmap_app. apply StronglySorted_app. split_and!; [exact Hlt|done|repeat constructor].
      * intros c' _ _. eexists. by rewrite last_snoc.
    + split_and!.
      * apply Forall_app. split; [by apply Forall_app; split; [|by constructor]|]. constructor; [|constructor]. unfold candle_ok. cbn. lia.
      * rewrite fmap_app. apply StronglySorted_app. split_and!; [|rewrite fmap_app; apply StronglySorted_app; split_and!; [exact Hlt|done|repeat constructor]|repeat constructor].
        intros x y Hx Hy. cbn in Hy. apply list_elem_of_singleton in Hy as ->. rewrite fmap_app, elem_of_app in Hx. destruct Hx as [Hx|Hx].
        -- assert (x < cd_t c) by (apply Hlt; [done|by left]). lia.
        -- cbn in Hx. by apply list_elem_of_singleton in Hx as ->.
      * intros c' _ _. eexists. by rewrite last_snoc.
    + split_and!.
      * apply Forall_app. split; [done|by constructor].
      * rewrite fmap_app. apply StronglySorted_app. split_and!; [exact Hlt|done|repeat constructor].
      * intros c' [= <-]. lia.
Qed.

(** ** The account total *)

Lemma seat_total_sum seats :
  seat_total seats = foldr (fun m sum => match m.2 with Some s => as_available s + as_reserved s | None => 0 end + sum) 0 seats.
Proof.
  unfold seat_total. rewrite <- (Z.add_0_l (foldr _ 0 seats)). set (z := 0) at 1 2. clearbody z. revert z.
  induction seats as [|[m [s|]] seats IH]; intros z; cbn; [lia| |]; rewrite IH; lia.
Qed.

(** The account total is missing until the wallet, the trading key if there is one, and
    the seats have been read; it is then the two token balances, a missing one counting
    as nothing, plus the collateral of each market's seat.  The balances are not tied
    to a wallet: after a change of wallet the total adds the previous wallet's
    balance to the seats of the new one. *)
Theorem account_total_spec wallet trading tradingBalances seats :
  (totalUsdc wallet trading tradingBalances seats = None <->
    solLamports wallet = None \/ seats = None \/ (trading = true /\ solLamports tradingBalances = None))
  /\ (forall total ss, totalUsdc wallet trading tradingBalances seats = Some total -> seats = Some ss ->
       total = default 0 (collateralTokenBalance wallet) + (if trading then default 0 (collateralTokenBalance tradingBalances) else 0)
         + foldr (fun m sum => match m.2 with Some s => as_available s + as_reserved s | None => 0 end + sum) 0 ss)
  /\ (forall other (p : Polled string WalletBalances), totalUsdc (pl_state (effect_starts other p)) false tradingBalances seats = totalUsdc (pl_state p) false tradingBalances seats).
Proof.
  split_and!; [| |done].
  - unfold totalUsdc. destruct (solLamports wallet), seats; cbn; try naive_solver. destruct trading; cbn; [case_bool_decide|]; naive_solver.
  - intros total ss H ->. unfold totalUsdc in H. destruct (solLamports wallet); [|done]. rewrite <- seat_total_sum. by repeat case_match; simplify_eq.
Qed.
