(* ===== verification/BrowserPositions.v ===== *)
(** * The trader's position and the market's readiness

    lib/v3-aggregate.ts and [v3JsonValue] of workers/src/v3-market-state.ts (the
    aggregate as a JSON value), features/positions/use-position.ts (the seat of the
    wallet and its position) and features/magicblock/use-v3-market-state.ts (the
    summary of the aggregate).  Both hooks are instances of [Polling] (BrowserFeeds). *)

From S2P Require Import Prelude Json Bytes V3Market PrivateSessions BrowserState BrowserBook BrowserFeeds.

(** ** Values with bigints and byte arrays *)

#[warnings="-register-all"]
Inductive jsvalue :=
  | V_null
  | V_bool (b : bool)
  | V_number (z : Z)
  | V_bigint (z : Z)
  | V_string (s : string)
  | V_bytes (bs : list Z)
  | V_array (items : list jsvalue)
  | V_object (fields : list (string * jsvalue)).

Fixpoint v3JsonValue (value : jsvalue) : json :=
  match value with
  | V_bigint z => JStr (pretty z)
  | V_bytes bs => JArr (map JNum bs)
  | V_array items => JArr (map v3JsonValue items)
  | V_object fields => JObj (map (fun '(key, entry) => (key, v3JsonValue entry)) fields)
  | V_null => JNull
  | V_bool b => JBool b
  | V_number z => JNum z
  | V_string s => JStr s
  end.

(** ** The aggregate as an object *)

Definition V_option {A} (f : A -> jsvalue) (o : option A) : jsvalue := match o with Some x => f x | None => V_null end.

Definition core_value (c : V3CoreState) : jsvalue := V_object
  [("kind", V_string "v3"); ("mode", V_number (mode c)); ("instrument", V_string (instrument c)); ("marketAuthority", V_string (marketAuthority c));
   ("oracleValid", V_bool (oracleValid c)); ("lastVerifiedOraclePrice", V_bigint (lastVerifiedOraclePrice c));
   ("lastVerifiedOracleTimestamp", V_bigint (lastVerifiedOracleTimestamp c)); ("oracleFeedId", V_number (oracleFeedId c));
   ("oracleChannel", V_number (oracleChannel c)); ("oracleExponent", V_number (oracleExponent c));
   ("delegationStatus", V_number (core_delegationStatus c)); ("expectedCommitSequence", V_bigint (core_expectedCommitSequence c));
   ("lastCommittedSequence", V_bigint (core_lastCommittedSequence c)); ("validator", V_string (validator c))].

Definition node_value (n : V3BookNodeState) : jsvalue := V_object
  ([("handle", V_number (handle n)); ("tag", V_number (tag n)); ("key", V_bigint (key n))]
   ++ match leaf n with
      | Some l =>
          [("side", V_number (side l)); ("owner", V_number (owner l)); ("quantity", V_bigint (quantity l)); ("expiresAt", V_bigint (expiresAt l));
           ("pegLimit", V_bigint (pegLimit l)); ("clientOrderId", V_bigint (clientOrderId l)); ("priceOrOffset", V_bigint (priceOrOffset l));
           ("sequence", V_bigint (sequence l)); ("timeInForce", V_number (timeInForce l)); ("postOnly", V_bool (postOnly l)); ("reduceOnly", V_bool (reduceOnly l))]
      | None => []
      end
   ++ match tree n with Some t => [("tree", V_string (match t with tree_fixed => "fixed" | tree_pegged => "oracle-pegged" end))] | None => [] end).

Definition page_value (p : V3BookPageState) : jsvalue := V_object
  [("side", V_number (page_side p)); ("page", V_number (page p)); ("core", V_string (page_core p)); ("fixedRoot", V_number (fixedRoot p));
   ("peggedRoot", V_number (peggedRoot p)); ("freeHead", V_number (freeHead p)); ("freeCount", V_number (freeCount p)); ("nodeCount", V_number (nodeCount p));
   ("nodeBytes", V_bytes (nodeBytes p)); ("nodes", V_array (map node_value (nodes p)))].

Definition seat_value (p : V3SeatPositionState) : jsvalue := V_object
  [("shard", V_number (seat_shard p)); ("slot", V_number (slot p)); ("trader", V_string (trader p));
   ("availableCollateral", V_bigint (availableCollateral p)); ("reservedMargin", V_bigint (reservedMargin p)); ("basePosition", V_bigint (basePosition p));
   ("quoteEntryValue", V_bigint (quoteEntryValue p)); ("realizedPnl", V_bigint (realizedPnl p)); ("lastFundingAccumulator", V_bigint (lastFundingAccumulator p));
   ("openBidExposure", V_bigint (openBidExposure p)); ("openAskExposure", V_bigint (openAskExposure p)); ("openOrderCount", V_number (openOrderCount p));
   ("liquidationState", V_number (liquidationState p)); ("sequence", V_bigint (seat_sequence p))].

Definition seat_shard_value (s : V3SeatShardState) : jsvalue := V_object
  [("shard", V_number (ss_shard s)); ("core", V_string (ss_core s)); ("seats", V_bytes (ss_seats s)); ("positions", V_array (map seat_value (ss_positions s)))].

Definition record_value (r : V3EventRecord) : jsvalue := V_object
  [("kind", V_number (ev_kind r)); ("sequence", V_bigint (ev_sequence r)); ("timestamp", V_bigint (ev_timestamp r)); ("payload", V_bytes (ev_payload r))].

Definition event_shard_value (s : V3EventShardState) : jsvalue := V_object
  [("shard", V_number (es_shard s)); ("core", V_string (es_core s)); ("events", V_bytes (es_events s)); ("records", V_array (map (V_option record_value) (es_records s)))].

Definition mark_value (q : V3MarkQuote) : jsvalue := V_object
  [("price", V_number (price q)); ("source", V_number (match source q with Index => 0 | BookMid => 1 | BookOneSided => 2 end))].

Definition aggregate_value (a : V3MarketAggregate) : jsvalue := V_object
  [("asOfSlot", V_option V_number (asOfSlot a)); ("core", core_value (core a)); ("bookPages", V_array (map page_value (bookPages a)));
   ("seatShards", V_array (map seat_shard_value (seatShards a))); ("eventShards", V_array (map event_shard_value (eventShards a)));
   ("completeBook", V_bool (completeBook a)); ("completeExecutionState", V_bool (completeExecutionState a)); ("withdrawalReady", V_bool (withdrawalReady a));
   ("orderBook", V_object [("bids", V_array (map node_value (bids a))); ("asks", V_array (map node_value (asks a)))]);
   ("positions", V_array (map seat_value (positions a))); ("mark", V_option mark_value (mark a))].

(** ** v3-aggregate.ts *)

Section Fetch.
Context (deriveBookPageV3 : string -> Z -> Z -> string) (deriveSeatShardV3 deriveEventShardV3 : string -> Z -> string).
Context (base58 : list Z -> string) (EQUINOX_PROGRAM_ID : string).

Definition v3_addresses (core : string) : V3ShardAddresses :=
  mkAddresses core
    (tabulate (2 * V3_BOOK_PAGES_PER_SIDE) (fun flat => deriveBookPageV3 core (flat / V3_BOOK_PAGES_PER_SIDE) (flat mod V3_BOOK_PAGES_PER_SIDE)))
    (tabulate 4 (deriveSeatShardV3 core)) (tabulate 4 (deriveEventShardV3 core)).

(** [None] is the source's [null]; [multipleAccounts] is the rollup's router. *)
Definition fetchV3Aggregate (multipleAccounts : MultipleAccounts) (now : Z) (core : string) : result (option json) :=
  aggregate ← fetchAuthoritativeV3Market base58 EQUINOX_PROGRAM_ID multipleAccounts (v3_addresses core) now;
  Ok (option_map (fun a => v3JsonValue (aggregate_value a)) aggregate).
End Fetch.

(** ** Reading fields *)

(** [value === z] for an integer [z]. *)
Definition is_number (z : Z) (v : option json) : bool := match v with Some (JNum w) => w =? z | _ => false end.

(** [/^-?\d+$/] and [BigInt]. *)
Definition bigintField (value : option json) : option Z :=
  match value with
  | Some (JStr s) =>
      if digit_string s then Some (decimal s)
      else match s with
           | String c rest => if bool_decide (c = Ascii.ascii_of_nat 45) && digit_string rest then Some (- decimal rest) else None
           | EmptyString => None
           end
  | _ => None
  end.

Definition bigintOrNull (value : option json) : option Z :=
  match value with Some (JStr s) => if digit_string s then Some (decimal s) else None | _ => None end.

(** [Array.isArray(value) ? value : undefined] *)
Definition array_of (value : option json) : option (list json) := match value with Some (JArr items) => Some items | _ => None end.

(** ** use-position.ts *)

Definition BIGINT_FIELDS : list string :=
  ["availableCollateral"; "reservedMargin"; "basePosition"; "quoteEntryValue"; "realizedPnl"; "lastFundingAccumulator"; "openBidExposure"; "openAskExposure"; "sequence"].

(** [None] as a value is [undefined]. *)
Definition decodeV3Position (value : option json) (seatIndex : Z) : option TraderSeatView :=
  position ← value;
  if negb (isRecord position) || negb (is_number (seatIndex / 32) (prop "shard" position)) || negb (is_number (Z.rem seatIndex 32) (prop "slot" position))
  then None
  else match prop "trader" position, prop "liquidationState" position with
       | Some (JStr owner), Some (JNum raw) =>
           fields ← mapM (fun name => bigintField (prop name position)) BIGINT_FIELDS;
           match fields, prop "openOrderCount" position with
           | [available; reserved; base; entry; pnl; funding; bid; ask; seq], Some (JNum count) =>
               if isSafeInteger count
               then Some (mkSeatDisplay
                 {| tp_seatIndex := seatIndex; tp_owner := owner; tp_availableCollateral := available; tp_reservedMargin := reserved; tp_basePosition := base;
                    tp_quoteEntryValue := entry; tp_realizedPnl := pnl; tp_lastFundingAccumulator := funding; tp_openBidExposure := bid; tp_openAskExposure := ask;
                    tp_openOrderCount := count; tp_liquidationState := raw; tp_sequence := seq |} (liquidationLabel raw))
               else None
           | _, _ => None
           end
       | _, _ => None
       end.

(** The values [resolveV3Seat] gets: the rest of a position is not read there. *)
Definition occupied_seat (value : json) : option SeatPosition :=
  match prop "shard" value, prop "slot" value, prop "trader" value with
  | Some (JNum shard), Some (JNum slot), Some (JStr trader) => Some (mkSeatPosition shard slot trader 0 0 0 0 0 0 0)
  | _, _, _ => None
  end.

(** What the effect reads: the aggregate of a core, with [v3.trader] as [undefined],
    [null] or a wallet; or the market account. *)
Inductive PositionSource := ps_v3 (core : string) (seatIndex : Z) (trader : option (option string)) | ps_market (marketAddress : string) (seatIndex : Z).

Inductive PositionAnswer := pa_aggregate (aggregate : option json) | pa_market (bytes : list Z) (traderSeatOffset reconciliationStatus : Z) | pa_failed (message : string).

Record PositionState := mkPositionState {
  po_seat : option TraderSeatView; po_resolvedSeatIndex : option Z; po_reconciliationStatus : option Z; po_error : option string }.

(** The index of the seat in the aggregate's positions. *)
Definition position_index (values : list json) (seatIndex : Z) (trader : option (option string)) : option Z :=
  match trader with
  | None => Some seatIndex
  | Some (Some wallet) => if bool_decide (wallet = "") then None else fst <$> resolveV3Seat (omap occupied_seat values) wallet
  | Some None => None
  end.

Definition position_at (values : list json) (index : Z) : option json :=
  snd <$> list_find (fun v => is_number (index / 32) (prop "shard" v) && is_number (Z.rem index 32) (prop "slot" v) = true) values.

Definition read_position (seatIndex : Z) (trader : option (option string)) (aggregate : option json) : PositionState :=
  let values := default [] (aggregate ≫= (fun a => array_of (prop "positions" a))) in
  let index := position_index values seatIndex trader in
  mkPositionState (index ≫= (fun i => decodeV3Position (position_at values i) i)) index None None.

Definition failed_position (message : string) (s : PositionState) : PositionState :=
  mkPositionState (po_seat s) (po_resolvedSeatIndex s) (po_reconciliationStatus s) (Some message).

Definition usePosition : Polling PositionSource PositionState PositionAnswer := {|
  poll_mount _ s := s;
  poll_answer k _ a s :=
    match k, a with
    | _, pa_failed message => failed_position message s
    | ps_v3 _ seatIndex trader, pa_aggregate aggregate => read_position seatIndex trader aggregate
    | ps_market _ seatIndex, pa_market bytes offset status =>
        match decodeTraderSeat bytes offset seatIndex with
        | Ok seat => mkPositionState seat (po_resolvedSeatIndex s) (Some status) None
        | Throw message => failed_position message s
        end
    | _, _ => s
    end |}.
#[export] Existing Instance usePosition.

(** The [seatIndex] the hook returns, and the index the terminal trades on L1 with. *)
Definition shown_seat_index (seatIndex : Z) (trader : option (option string)) (s : PositionState) : option Z :=
  match trader with None => Some seatIndex | Some _ => po_resolvedSeatIndex s end.

Definition l1SeatIndex (trader : option (option string)) (s : PositionState) : Z := default 0 (shown_seat_index 0 trader s).

(** ** use-v3-market-state.ts *)

Record V3Summary := mkSummary {
  su_completeExecutionState : bool; su_withdrawalReady : bool; su_bookPageCount : nat; su_seatShardCount : nat; su_eventShardCount : nat;
  su_positionCount : nat; su_eventCount : nat; su_delegationStatus : option Z; su_expectedCommitSequence : option Z; su_lastCommittedSequence : option Z }.

Definition emptySummary : V3Summary := mkSummary false false 0 0 0 0 0 None None None.

Definition array_length (v : option json) : nat := length (default [] (array_of v)).

(** [records.filter(Boolean).length] of a shard that has them. *)
Definition shard_events (shard : json) : nat := length (filter (fun r => truthy (Some r) = true) (default [] (array_of (prop "records" shard)))).

(** [input.core?.name] *)
Definition core_field (name : string) (input : json) : option json := prop "core" input ≫= prop name.

Definition summarizeV3Aggregate (input : json) : V3Summary :=
  mkSummary (is_bool true (prop "completeExecutionState" input)) (is_bool true (prop "withdrawalReady" input))
    (array_length (prop "bookPages" input)) (array_length (prop "seatShards" input)) (array_length (prop "eventShards" input)) (array_length (prop "positions" input))
    (foldl (fun count shard => (count + shard_events shard)%nat) 0%nat (default [] (array_of (prop "eventShards" input))))
    (match core_field "delegationStatus" input with Some (JNum z) => Some z | _ => None end)
    (bigintOrNull (core_field "expectedCommitSequence" input)) (bigintOrNull (core_field "lastCommittedSequence" input)).

Inductive ReadinessState := rd_not_configured | rd_loading | rd_available | rd_unavailable.

(** An answer is the aggregate, [None] when there is none or the read failed. *)
Definition useV3MarketState : Polling string (ReadinessState * V3Summary) (option json) := {|
  poll_mount _ s := s;
  poll_answer _ _ a _ := match a with Some v => (rd_available, summarizeV3Aggregate v) | None => (rd_unavailable, emptySummary) end |}.
#[export] Existing Instance useV3MarketState.

Definition initial_readiness (configured : bool) : ReadinessState * V3Summary := (if configured then rd_loading else rd_not_configured, emptySummary).

Definition shown_readiness (configured : bool) (status : ReadinessState * V3Summary) : ReadinessState * V3Summary :=
  if configured then status else (rd_not_configured, emptySummary).

Lemma bigintField_pretty z : bigintField (Some (JStr (pretty z))) = Some z.
Proof.
  destruct z as [|p|p]; [done| |].
  - change (pretty (Z.pos p)) with (pretty (Npos p)). destruct (pretty_pos p) as [Hs Hd]. cbn [bigintField]. by rewrite Hs, Hd.
  - change (pretty (Z.neg p)) with (String (Ascii.ascii_of_nat 45) (pretty (Npos p))). destruct (pretty_pos p) as [Hs Hd].
    cbn [bigintField]. unfold digit_string at 1. cbn [all_digits]. change (is_digit (Ascii.ascii_of_nat 45)) with false. cbn [andb]. rewrite andb_false_r, Hs, Hd. done.
Qed.

Lemma bigintOrNull_pretty z : 0 <= z -> bigintOrNull (Some (JStr (pretty z))) = Some z.
Proof.
  intros H. destruct z as [|p|p]; [done| |lia]. change (pretty (Z.pos p)) with (pretty (Npos p)). destruct (pretty_pos p) as [Hs Hd].
  cbn [bigintOrNull]. by rewrite Hs, Hd.
Qed.

(** ** Seats of an aggregate *)

(** The projection of an aggregate's seat, and what the browser shows of it. *)
Definition projection_of (p : V3SeatPositionState) : TraderSeatProjection :=
  {| tp_seatIndex := seat_shard p * 32 + slot p; tp_owner := trader p; tp_availableCollateral := availableCollateral p; tp_reservedMargin := reservedMargin p;
     tp_basePosition := basePosition p; tp_quoteEntryValue := quoteEntryValue p; tp_realizedPnl := realizedPnl p;
     tp_lastFundingAccumulator := lastFundingAccumulator p; tp_openBidExposure := openBidExposure p; tp_openAskExposure := openAskExposure p;
     tp_openOrderCount := openOrderCount p; tp_liquidationState := liquidationState p; tp_sequence := seat_sequence p |}.

(** What the decoder of a shard guarantees of a seat. *)
Record seat_ok (p : V3SeatPositionState) : Prop := mkSeatOk {
  so_shard : 0 <= seat_shard p < 4; so_slot : 0 <= slot p < 32; so_count : isSafeInteger (openOrderCount p) = true }.

Definition seat_json (p : V3SeatPositionState) : json := v3JsonValue (seat_value p).

Lemma seat_json_shard p : prop "shard" (seat_json p) = Some (JNum (seat_shard p)).
Proof. reflexivity. Qed.
Lemma seat_json_slot p : prop "slot" (seat_json p) = Some (JNum (slot p)).
Proof. reflexivity. Qed.

Lemma index_split s l : 0 <= s -> 0 <= l < 32 -> (s * 32 + l) / 32 = s /\ Z.rem (s * 32 + l) 32 = l.
Proof. intros Hs Hl. rewrite Z.rem_mod_nonneg by lia. split; Z.div_mod_to_equations; lia. Qed.

Lemma decode_seat_json p : seat_ok p -> decodeV3Position (Some (seat_json p)) (seat_shard p * 32 + slot p) = seat_display (Some (projection_of p)).
Proof.
  intros [Hs Hl Hc]. unfold decodeV3Position. cbn [mbind option_bind]. rewrite seat_json_shard, seat_json_slot. cbn [is_number].
  destruct (index_split (seat_shard p) (slot p)) as [-> ->]; [lia..|]. rewrite !Z.eqb_refl. change (isRecord (seat_json p)) with true. cbn [negb orb].
  change (prop "trader" (seat_json p)) with (Some (JStr (trader p))).
  change (prop "liquidationState" (seat_json p)) with (Some (JNum (liquidationState p))).
  change (prop "openOrderCount" (seat_json p)) with (Some (JNum (openOrderCount p))).
  assert (mapM (fun name => bigintField (prop name (seat_json p))) BIGINT_FIELDS
    = mapM Some [availableCollateral p; reservedMargin p; basePosition p; quoteEntryValue p; realizedPnl p;
        lastFundingAccumulator p; openBidExposure p; openAskExposure p; seat_sequence p]) as ->.
  { transitivity (mapM (fun z => bigintField (Some (JStr (pretty z)))) [availableCollateral p; reservedMargin p; basePosition p; quoteEntryValue p; realizedPnl p;
        lastFundingAccumulator p; openBidExposure p; openAskExposure p; seat_sequence p]); [reflexivity|]. apply mapM_ext. intros. apply bigintField_pretty. }
  cbn [mapM mbind option_bind mret option_ret]. by rewrite Hc.
Qed.

Lemma list_find_only {A} (P : A -> Prop) `{!forall x, Decision (P x)} l x :
  x ∈ l -> P x -> (forall y, y ∈ l -> P y -> y = x) -> snd <$> list_find P l = Some x.
Proof.
  intros Hin Hx Honly. destruct (list_find P l) as [[i y]|] eqn:E; cbn.
  - apply list_find_Some in E as (Hl & Hy & _). f_equal. apply Honly; [by eapply list_elem_of_lookup_2|done].
  - apply list_find_None in E. rewrite list.Forall_forall in E. by destruct (E x Hin).
Qed.

Lemma shard_size base58 bs s : decodeV3SeatShard base58 bs = Some s -> blen bs = 8236.
Proof.
  unfold decodeV3SeatShard, validVersion. intros H. destruct (blen bs =? V3_SEAT_SHARD_SIZE) eqn:E; [by apply Z.eqb_eq in E|done].
Qed.

Lemma shard_shape base58 bs s :
  uint8array bs -> decodeV3SeatShard base58 bs = Some s ->
  0 <= ss_shard s < 4 /\ uint8array (ss_seats s)
  /\ ss_positions s = present (tabulate V3_SEATS_PER_SHARD (fun i => decodeSeat base58 (slice (ss_seats s) (i * V3_SEAT_SIZE) ((i + 1) * V3_SEAT_SIZE)) (ss_shard s) i)).
Proof.
  unfold decodeV3SeatShard. intros Hu H. destruct (validVersion _ _ _); [|done]. destruct (4 <=? byte_or_0 bs 10) eqn:E; [done|]. cbn [negb orb] in H.
  destruct (negb (byte_is bs 11 0)); [done|]. apply (inj Some) in H. subst s. zbool. pose proof (byte_or_0_bound bs 10 Hu).
  split_and!; [cbn [ss_shard]; lia|cbn [ss_shard]; lia|cbn [ss_seats]; by apply slice_uint8array|reflexivity].
Qed.

Lemma decodeSeat_ok base58 bs shard i p :
  uint8array bs -> decodeSeat base58 bs shard i = Some p -> slot p = i /\ seat_shard p = shard /\ isSafeInteger (openOrderCount p) = true.
Proof.
  unfold decodeSeat. intros Hu H. destruct (_ || _); [done|]. apply (inj Some) in H. subst p. cbn [slot seat_shard openOrderCount]. split_and!; [done..|].
  pose proof (uint_at_bound 4 bs 168 Hu) as Hb. change (2 ^ (Z.of_nat 4 * 8)) with 4294967296 in Hb.
  unfold isSafeInteger, MAX_SAFE_INTEGER, u32_at. apply Z.leb_le. lia.
Qed.

Lemma elem_of_present_tabulate {A} (n : Z) (f : Z -> option A) x : x ∈ present (tabulate n f) -> exists i, 0 <= i < n /\ f i = Some x.
Proof.
  unfold present, tabulate. intros (o & Ho & Hx)%list_elem_of_omap. apply list_elem_of_fmap in Ho as (i & -> & Hi). apply elem_of_seq in Hi.
  exists (Z.of_nat i). split; [lia|exact Hx].
Qed.

(** A seat of a shard is the decoding of its own slot. *)
Lemma shard_seat base58 bs s p :
  uint8array bs -> decodeV3SeatShard base58 bs = Some s -> p ∈ ss_positions s ->
  seat_ok p /\ seat_shard p = ss_shard s
  /\ decodeSeat base58 (slice (ss_seats s) (slot p * V3_SEAT_SIZE) ((slot p + 1) * V3_SEAT_SIZE)) (ss_shard s) (slot p) = Some p.
Proof.
  intros Hu H Hp. destruct (shard_shape _ _ _ Hu H) as (Hs & Hu' & Hpos). rewrite Hpos in Hp. apply elem_of_present_tabulate in Hp as (i & Hr & Hd).
  pose proof (decodeSeat_ok _ _ _ _ _ (slice_uint8array _ _ _ Hu') Hd) as (Hi' & Hsh & Hc). rewrite Hi'.
  split_and!; [split; [lia|rewrite Hi'; exact Hr|done]|done|exact Hd].
Qed.

(** The worker's private projection of a seat found in the aggregate. *)
Lemma shard_projection base58 bs s p :
  uint8array bs -> decodeV3SeatShard base58 bs = Some s -> p ∈ ss_positions s ->
  decodeTraderSeatProjection base58 bs (seat_shard p * 32 + slot p) = Ok (Some (projection_of p)).
Proof.
  intros Hu Hd Hp. pose proof (shard_seat _ _ _ _ Hu Hd Hp) as ([Hs Hl _] & Hsh & Hdec). destruct (index_split (seat_shard p) (slot p)) as [Hdiv Hrem]; [lia..|].
  unfold decodeTraderSeatProjection, MAX_TRADER_SEATS. rewrite (shard_size _ _ _ Hd).
  replace ((_ <? 0) || (128 <=? _)) with false by lia. change (8236 =? 8236) with true. cbn match. rewrite Hd, Hdiv, <- Hsh, Z.eqb_refl. cbn [negb].
  rewrite Z.rem_mod_nonneg in Hrem by lia. unfold find_slot. rewrite Hrem.
  rewrite (list_find_only (fun q => slot q = slot p) _ p Hp eq_refl); [done|]. intros q Hq Hslot.
  pose proof (shard_seat _ _ _ _ Hu Hd Hq) as (_ & _ & Hdq). rewrite Hslot, Hdec in Hdq. congruence.
Qed.

Lemma aggregate_shards_once base58 cb pagesB seatsB eventsB addr slot now a :
  aggregateV3Market base58 cb pagesB seatsB eventsB addr slot now = Some a -> NoDup (ss_shard <$> seatShards a).
Proof.
  unfold aggregateV3Market. intros (c & Hc & H)%bind_Some. apply bind_Some in H as (ps & Hp & H).
  apply bind_Some in H as (seats & Hs & H). apply bind_Some in H as (events & He & H). case_match; [done|].
  destruct (unique (ss_shard <$> seats)) eqn:U; [|by rewrite orb_true_r in H]. case_match; [done|].
  destruct (annotateBookTrees ps) as [[] st]; [|done]. cbn in H. simplify_eq/=. by apply unique_NoDup.
Qed.

(** The seats of an aggregate, with the account each was decoded from; shard and slot
    identify a seat. *)
Record seats_of (base58 : list Z -> string) (seatsB : list (list Z)) (ps : list V3SeatPositionState) : Prop := mkSeatsOf {
  sf_account : forall p, p ∈ ps -> exists bs, bs ∈ seatsB /\ decodeTraderSeatProjection base58 bs (seat_shard p * 32 + slot p) = Ok (Some (projection_of p));
  sf_ok : forall p, p ∈ ps -> seat_ok p;
  sf_once : forall p q, p ∈ ps -> q ∈ ps -> seat_shard p = seat_shard q -> slot p = slot q -> p = q }.

Lemma aggregate_seats base58 cb pagesB seatsB eventsB addr slot now a :
  aggregateV3Market base58 cb pagesB seatsB eventsB addr slot now = Some a -> Forall uint8array seatsB -> seats_of base58 seatsB (positions a).
Proof.
  intros Ha Hu. pose proof (aggregate_shards_once _ _ _ _ _ _ _ _ _ Ha) as Hnd.
  apply aggregate_parts in Ha as (_ & _ & _ & _ & Hm & _ & Hpos & _). rewrite Hpos. clear Hpos.
  assert (forall p, p ∈ (seatShards a ≫= ss_positions) ->
    exists i bs s, seatsB !! i = Some bs /\ seatShards a !! i = Some s /\ uint8array bs /\ decodeV3SeatShard base58 bs = Some s /\ p ∈ ss_positions s) as Hin.
  { intros p (s & Hp & Hs)%list_elem_of_bind. apply mapM_Some_1 in Hm. apply list_elem_of_lookup in Hs as [i Hi].
    destruct (Forall2_lookup_r _ _ _ _ _ Hm Hi) as (bs & Hbs & Hd). exists i, bs, s. split_and!; try done. by eapply Forall_lookup_1 in Hu. }
  split.
  - intros p Hp. destruct (Hin p Hp) as (i & bs & s & Hb & _ & Hu' & Hd & Hps). exists bs. split; [by eapply list_elem_of_lookup_2|]. by eapply shard_projection.
  - intros p Hp. destruct (Hin p Hp) as (i & bs & s & _ & _ & Hu' & Hd & Hps). by eapply shard_seat in Hps as [? _].
  - intros p q Hp Hq Hsh Hslot. destruct (Hin p Hp) as (i & bs & s & _ & Hi & Hu' & Hd & Hps). destruct (Hin q Hq) as (j & bs' & s' & _ & Hj & Hu'' & Hd' & Hqs).
    destruct (shard_seat _ _ _ _ Hu' Hd Hps) as (_ & H1 & D1). destruct (shard_seat _ _ _ _ Hu'' Hd' Hqs) as (_ & H2 & D2).
    assert (i = j) as -> by (eapply NoDup_lookup; [exact Hnd|by rewrite list_lookup_fmap, Hi|rewrite list_lookup_fmap, Hj; cbn; congruence]).
    assert (s = s') as -> by congruence. rewrite Hslot, D2 in D1. congruence.
Qed.

(** ** The aggregate's positions as the browser reads them *)

Lemma positions_json a : array_of (prop "positions" (v3JsonValue (aggregate_value a))) = Some (seat_json <$> positions a).
Proof. transitivity (Some (map v3JsonValue (map seat_value (positions a)))); [reflexivity|]. by rewrite map_map. Qed.

Lemma occupied_positions (ps : list V3SeatPositionState) : omap occupied_seat (seat_json <$> ps) = (fun p => mkSeatPosition (seat_shard p) (slot p) (trader p) 0 0 0 0 0 0 0) <$> ps.
Proof.
  induction ps as [|p ps IH]; [done|]. cbn [fmap list_fmap omap list_omap].
  change (occupied_seat (seat_json p)) with (Some (mkSeatPosition (seat_shard p) (slot p) (trader p) 0 0 0 0 0 0 0)). cbn. by rewrite <- IH.
Qed.

Lemma resolve_own (ps : list V3SeatPositionState) w :
  fst <$> resolveV3Seat (omap occupied_seat (seat_json <$> ps)) w
  = match list_find (fun p => trader p = w) ps with
    | Some (_, p) => Some (seat_shard p * 32 + slot p)
    | None => first_free (seat_position <$> ps)
    end.
Proof.
  rewrite occupied_positions. unfold resolveV3Seat. rewrite list_find_fmap. unfold compose. cbn [sp_trader].
  change (fun x => trader x = w) with (fun p => trader p = w). destruct (list_find (fun p => trader p = w) ps) as [[i p]|]; [done|]. cbn.
  assert (first_free ((fun p => mkSeatPosition (seat_shard p) (slot p) (trader p) 0 0 0 0 0 0 0) <$> ps) = first_free (seat_position <$> ps)) as ->.
  { unfold first_free. by rewrite <- !list_fmap_compose. }
  by destruct (first_free _).
Qed.

Lemma position_at_seat ps i :
  0 <= i -> (forall p q, p ∈ ps -> q ∈ ps -> seat_shard p = seat_shard q -> slot p = slot q -> p = q) ->
  (forall p, p ∈ ps -> seat_ok p) ->
  position_at (seat_json <$> ps) i = seat_json <$> (snd <$> list_find (fun p => seat_shard p * 32 + slot p = i) ps).
Proof.
  intros Hi Honce Hok. unfold position_at. rewrite list_find_fmap. unfold compose.
  assert (forall p, p ∈ ps -> (is_number (i / 32) (prop "shard" (seat_json p)) && is_number (Z.rem i 32) (prop "slot" (seat_json p)) = true
    <-> seat_shard p * 32 + slot p = i)) as Heq.
  { intros p [Hs Hl _]%Hok. rewrite seat_json_shard, seat_json_slot. cbn [is_number]. rewrite andb_true_iff, !Z.eqb_eq, Z.rem_mod_nonneg by lia.
    split; intros; Z.div_mod_to_equations; lia. }
  clear Hok Honce. revert Heq. generalize (i / 32), (Z.rem i 32). intros d r Heq.
  enough (option_map snd (list_find (fun p => is_number d (prop "shard" (seat_json p)) && is_number r (prop "slot" (seat_json p)) = true) ps)
    = option_map snd (list_find (fun p => seat_shard p * 32 + slot p = i) ps)) as H.
  { do 2 destruct (list_find _ ps) as [[? ?]|]; cbn in *; by simplify_eq. }
  induction ps as [|p ps IH]; [done|]. cbn [list_find]. specialize (IH (fun q Hq => Heq q (list_elem_of_further _ _ _ Hq))).
  pose proof (Heq p (list_elem_of_here _ _)) as Hp. repeat case_decide; try tauto; try done.
  revert IH. do 2 destruct (list_find _ ps) as [[? ?]|]; cbn; done.
Qed.

Section Shown.
Context (base58 : list Z -> string).

(** C30. The position the browser shows for a wallet.  When the market's accounts can be
    aggregated, a read for a signed-in wallet ends without error and in one of two
    ways.  Either the wallet holds a seat, the hook reports its index and shows,
    every number through its decimal text and back, exactly the worker's private
    projection of that index in the shard account it lives in, and that projection
    is owned by the wallet; or no seat of the market is the wallet's, nothing is
    shown, and the index reported is the lowest free one, if any. *)
Theorem position_shown cb pagesB seatsB eventsB addr slot now a core seatIndex wallet time s0 :
  aggregateV3Market base58 cb pagesB seatsB eventsB addr slot now = Some a -> Forall uint8array seatsB -> wallet ≠ "" ->
  let s := poll_answer (ps_v3 core seatIndex (Some (Some wallet))) time (pa_aggregate (Some (v3JsonValue (aggregate_value a)))) s0 in
  po_error s = None
  /\ ((exists bs i projection, bs ∈ seatsB /\ decodeTraderSeatProjection base58 bs i = Ok (Some projection) /\ tp_owner projection = wallet
        /\ po_resolvedSeatIndex s = Some i /\ po_seat s = seat_display (Some projection))
      \/ (Forall (fun p => trader p ≠ wallet) (positions a) /\ po_seat s = None /\ po_resolvedSeatIndex s = first_free (seat_position <$> positions a))).
Proof.
  intros Ha Hu Hw. pose proof (aggregate_seats _ _ _ _ _ _ _ _ _ Ha Hu) as [Hacc Hok Honce]. cbv zeta. split; [done|].
  cbn [poll_answer usePosition]. unfold read_position. cbn [mbind option_bind]. rewrite positions_json. cbn [default position_index po_seat po_resolvedSeatIndex].
  rewrite bool_decide_eq_false_2 by done. unfold id. rewrite resolve_own.
  destruct (list_find (fun p => trader p = wallet) (positions a)) as [[n p]|] eqn:E.
  - left. apply list_find_Some in E as (Hl & Ht & _). apply list_elem_of_lookup_2 in Hl. destruct (Hacc p Hl) as (bs & Hbs & Hd).
    exists bs, (seat_shard p * 32 + V3Market.slot p), (projection_of p). split_and!; [done|done|done|done|]. cbn [mbind option_bind].
    pose proof (Hok p Hl) as Hp. rewrite position_at_seat by (try done; destruct Hp; lia).
    rewrite (list_find_only (fun q => seat_shard q * 32 + V3Market.slot q = seat_shard p * 32 + V3Market.slot p) _ p Hl eq_refl); [by apply decode_seat_json|].
    intros q Hq Hi. pose proof (Hok q Hq) as [? ? _]. destruct Hp as [? ? _]. apply Honce; [done|done|lia|lia].
  - right. apply list_find_None in E. split_and!; [done| |done]. destruct (first_free _) as [i|] eqn:Ef; [|done]. cbn [mbind option_bind].
    apply first_free_Some in Ef as (Hi & Hfree & _). rewrite position_at_seat by (try done; lia).
    destruct (list_find _ (positions a)) as [[n q]|] eqn:Eq; [|done]. exfalso. apply list_find_Some in Eq as (Hl & Hq & _). apply Hfree.
    apply list_elem_of_fmap. exists (seat_position q). split; [unfold seat_index; cbn; lia|]. apply list_elem_of_fmap. exists q. split; [done|]. by eapply list_elem_of_lookup_2.
Qed.
End Shown.

(** A market whose second seat shard has one seat, in its slot 2: collateral 5000 and a
    position of -7 at 8192. *)
Definition sample_seat_bytes : list Z :=
  [1] ++ replicate 39 9 ++ le_split 16 5000 ++ le_split 16 0 ++ le_split 16 (-7) ++ le_split 16 (-8192) ++ replicate 64 0 ++ le_split 4 3 ++ [1] ++ replicate 3 0
  ++ le_split 8 12 ++ replicate 72 0.
Definition sample_shard (i : Z) : list Z :=
  STKST003 ++ [3; 0; i; 0] ++ replicate 32 0 ++ (if i =? 1 then replicate 512 0 ++ sample_seat_bytes ++ replicate (Z.to_nat 7424) 0 else replicate (Z.to_nat 8192) 0).
Definition sample_seat_shards : list (list Z) := sample_shard <$> [0; 1; 2; 3].

Lemma position_shown_witness :
  exists a, aggregateV3Market (fun _ => "core") sample_core_bytes (sample_pagesB 100) sample_seat_shards sample_eventsB "core" (Some 7) 50 = Some a
    /\ let s := poll_answer (ps_v3 "core" 0 (Some (Some "core"))) 0 (pa_aggregate (Some (v3JsonValue (aggregate_value a)))) (mkPositionState None None None None) in
       po_resolvedSeatIndex s = Some 34 /\ (fun v => (tp_basePosition (sd_projection v), tp_quoteEntryValue (sd_projection v), sd_liquidationState v)) <$> po_seat s = Some (-7, -8192, liq_warning)
       /\ exists bs projection, bs ∈ sample_seat_shards /\ decodeTraderSeatProjection (fun _ => "core") bs 34 = Ok (Some projection) /\ po_seat s = seat_display (Some projection).
Proof.
  assert (Hc : (fun a => let s := poll_answer (ps_v3 "core" 0 (Some (Some "core"))) 0 (pa_aggregate (Some (v3JsonValue (aggregate_value a)))) (mkPositionState None None None None) in
    (po_resolvedSeatIndex s, (fun v => (tp_basePosition (sd_projection v), tp_quoteEntryValue (sd_projection v), sd_liquidationState v)) <$> po_seat s))
    <$> aggregateV3Market (fun _ => "core") sample_core_bytes (sample_pagesB 100) sample_seat_shards sample_eventsB "core" (Some 7) 50
    = Some (Some 34, Some (-7, -8192, liq_warning))) by (vm_compute; reflexivity).
  destruct (aggregateV3Market (fun _ => "core") sample_core_bytes (sample_pagesB 100) sample_seat_shards sample_eventsB "core" (Some 7) 50) as [a|] eqn:E; [|discriminate Hc].
  cbv zeta in Hc. apply (inj Some) in Hc.
  destruct (position_shown (fun _ => "core") sample_core_bytes (sample_pagesB 100) sample_seat_shards sample_eventsB "core" (Some 7) 50 a "core" 0 "core" 0
    (mkPositionState None None None None) E) as [_ H]; [|discriminate|].
  - unfold sample_seat_shards. repeat (constructor; [apply uint8array_check; vm_compute; reflexivity|]). constructor.
  - exists a. split; [reflexivity|]. cbv zeta in *. set (s := poll_answer _ _ _ _) in *. clearbody s. apply pair_equal_spec in Hc as [Hi Hs]. split_and!; [exact Hi|exact Hs|].
    destruct H as [(bs & i & projection & Hbs & Hd & _ & Hri & Hp)|(_ & Hn & _)]; [|rewrite Hn in Hs; discriminate Hs].
    rewrite Hi in Hri. injection Hri as <-. exists bs, projection. split_and!; [exact Hbs|exact Hd|exact Hp].
Defined.

(** A position is shown whole or not at all: it is the value of the asked shard and
    slot, and each of its nine amounts was a decimal. *)
Theorem no_partial_position v i d :
  decodeV3Position (Some v) i = Some d ->
  tp_seatIndex (sd_projection d) = i /\ prop "trader" v = Some (JStr (tp_owner (sd_projection d)))
  /\ prop "shard" v = Some (JNum (i / 32)) /\ prop "slot" v = Some (JNum (Z.rem i 32))
  /\ (let p := sd_projection d in
      [tp_availableCollateral p; tp_reservedMargin p; tp_basePosition p; tp_quoteEntryValue p; tp_realizedPnl p; tp_lastFundingAccumulator p;
       tp_openBidExposure p; tp_openAskExposure p; tp_sequence p] = omap (fun name => bigintField (prop name v)) BIGINT_FIELDS).
Proof.
  unfold decodeV3Position. cbn [mbind option_bind]. destruct (isRecord v); [|done]. cbn [negb orb].
  destruct (is_number (i / 32) _) eqn:E1; [|done]. destruct (is_number (Z.rem i 32) _) eqn:E2; [|done]. cbn [negb orb].
  destruct (prop "trader" v) as [[]|]; try done. destruct (prop "liquidationState" v) as [[]|]; try done.
  destruct (mapM _ BIGINT_FIELDS) as [fields|] eqn:Ef; [|done]. cbn [mbind option_bind]. intros H.
  assert (forall z o, is_number z o = true -> o = Some (JNum z)) as Hnum by (intros ? [[]|]; cbn; intros; zbool; congruence).
  assert (omap (fun name => bigintField (prop name v)) BIGINT_FIELDS = fields) as Ho.
  { apply mapM_Some_1 in Ef. clear -Ef. induction Ef as [|n f ns fs Hn _ IH]; [done|]. cbn. by rewrite Hn, IH. }
  rewrite Ho. repeat (case_match; try done). simplify_eq/=. split_and!; try done; by apply Hnum.
Qed.

(** What the hook does outside of a good read.  Signed out, nothing is shown.  A failed
    read keeps the position on the screen and adds the error, and so does a market
    account whose seat cannot be read.  A change of wallet or market keeps the
    previous one's position, and the index orders go to, until an answer arrives.
    And when the market cannot be aggregated at all the answer is an empty market,
    whose first free seat is 0. *)
Theorem position_edges :
  (forall seatIndex aggregate, read_position seatIndex (Some None) aggregate = mkPositionState None None None None)
  /\ (forall k time message s, po_seat (poll_answer k time (pa_failed message) s) = po_seat s /\ po_error (poll_answer k time (pa_failed message) s) = Some message)
  /\ (forall market seatIndex time bytes offset status s message, decodeTraderSeat bytes offset seatIndex = Throw message ->
       poll_answer (ps_market market seatIndex) time (pa_market bytes offset status) s = failed_position message s)
  /\ (forall k (p : Polled PositionSource PositionState), pl_state (effect_starts k p) = pl_state p)
  /\ (forall wallet seatIndex, wallet ≠ "" ->
       let s := read_position seatIndex (Some (Some wallet)) None in po_seat s = None /\ po_error s = None /\ l1SeatIndex (Some (Some wallet)) s = 0).
Proof.
  split_and!; [done|by intros [] ???..|intros ???????? H; cbn; by rewrite H|done|].
  intros wallet seatIndex Hw. unfold read_position. cbn [mbind option_bind default id position_index]. rewrite bool_decide_eq_false_2 by done. vm_compute. done.
Qed.

(** ** The summary *)

Lemma shard_events_json s : shard_events (v3JsonValue (event_shard_value s)) = length (present (es_records s)).
Proof.
  unfold shard_events. change (prop "records" (v3JsonValue (event_shard_value s))) with (Some (JArr (map v3JsonValue (map (V_option record_value) (es_records s))))).
  cbn [array_of default]. unfold id, present. induction (es_records s) as [|[r|] rs IH]; [done| |]; cbn [map]; rewrite filter_cons.
  - rewrite decide_True by done. exact (f_equal S IH).
  - rewrite decide_False by done. exact IH.
Qed.

Lemma event_count shards n :
  foldl (fun count shard => (count + shard_events shard)%nat) n (map v3JsonValue (map event_shard_value shards))
  = (n + sum_list_with (fun s => length (present (es_records s))) shards)%nat.
Proof. revert n. induction shards as [|s ss IH]; intros n; cbn [map foldl sum_list_with]; [lia|]. rewrite IH, shard_events_json. lia. Qed.

Lemma core_sequences_nonneg base58 cb c : uint8array cb -> decodeV3Core base58 cb = Some c -> 0 <= core_expectedCommitSequence c /\ 0 <= core_lastCommittedSequence c.
Proof.
  unfold decodeV3Core. intros Hu H. destruct (_ || _ || _); [done|]. apply (inj Some) in H. subst c. cbn [core_expectedCommitSequence core_lastCommittedSequence].
  split; by apply (uint_at_bound 8).
Qed.

Lemma is_bool_true b : is_bool true (Some (JBool b)) = b.
Proof. by destruct b. Qed.

Lemma json_items {A} (f : A -> jsvalue) l : length (default [] (array_of (Some (v3JsonValue (V_array (map f l)))))) = length l.
Proof. cbn. unfold id. by rewrite !length_map. Qed.

Lemma length_relabel ps st : length (relabel ps st) = length ps.
Proof. revert st. induction ps as [|p ps IH]; intros st; [done|]. cbn. by rewrite IH. Qed.

(** The readiness the status strip shows.  Of an aggregate of the market's accounts the
    summary reports its two flags, how many pages, shards, seats and events it has,
    and the commit counters unchanged; when the execution state is complete these
    are 18 pages and 4 shards of each kind.  Of any answer at all, readiness is
    claimed only on a literal [true]; and no answer claims nothing. *)
Theorem readiness_summary base58 cb pagesB seatsB eventsB addr slot now a :
  aggregateV3Market base58 cb pagesB seatsB eventsB addr slot now = Some a -> uint8array cb ->
  (let s := summarizeV3Aggregate (v3JsonValue (aggregate_value a)) in
   s = mkSummary (completeExecutionState a) (withdrawalReady a) (length (bookPages a)) (length (seatShards a)) (length (eventShards a)) (length (positions a))
         (sum_list_with (fun e => length (present (es_records e))) (eventShards a)) (Some (core_delegationStatus (core a)))
         (Some (core_expectedCommitSequence (core a))) (Some (core_lastCommittedSequence (core a)))
   /\ (completeExecutionState a = true -> su_bookPageCount s = 18%nat /\ su_seatShardCount s = 4%nat /\ su_eventShardCount s = 4%nat))
  /\ (forall input, su_withdrawalReady (summarizeV3Aggregate input) = true -> prop "withdrawalReady" input = Some (JBool true))
  /\ (forall core time s, poll_answer core time None s = (rd_unavailable, emptySummary)).
Proof.
  intros Ha Hu. split_and!; [|intros input; cbn; destruct (prop "withdrawalReady" input) as [[]|]; cbn; try done; by intros ->%bool_decide_eq_true_1|done].
  assert (exists c, decodeV3Core base58 cb = Some c /\ core a = c
    /\ (completeExecutionState a = true -> length (bookPages a) = 18%nat /\ length (seatShards a) = 4%nat /\ length (eventShards a) = 4%nat)) as (c & Hc & <- & Hlen).
  { unfold aggregateV3Market in Ha. apply bind_Some in Ha as (c & Hc & H). apply bind_Some in H as (ps & Hp & H). apply bind_Some in H as (seats & Hs & H).
    apply bind_Some in H as (events & He & H). do 2 (case_match; [done|]). destruct (annotateBookTrees ps) as [[] st]; [|done]. cbn in H. simplify_eq/=.
    exists c. split_and!; [done|done|]. rewrite !andb_true_iff, Z.eqb_eq, !Nat.eqb_eq. unfold V3_BOOK_PAGES_PER_SIDE. intros [[[[[]]]]]. split_and!; [|lia|lia].
    rewrite length_relabel. lia. }
  cbv zeta. assert (summarizeV3Aggregate (v3JsonValue (aggregate_value a)) = mkSummary (completeExecutionState a) (withdrawalReady a)
    (length (bookPages a)) (length (seatShards a)) (length (eventShards a)) (length (positions a))
    (sum_list_with (fun e => length (present (es_records e))) (eventShards a)) (Some (core_delegationStatus (core a)))
    (Some (core_expectedCommitSequence (core a))) (Some (core_lastCommittedSequence (core a)))) as ->; [|by split].
  destruct (core_sequences_nonneg _ _ _ Hu Hc) as [H1 H2]. unfold summarizeV3Aggregate.
  pose proof (event_count (eventShards a) 0) as Hev. cbn [Nat.add] in Hev.
  change (prop "eventShards" (v3JsonValue (aggregate_value a))) with (Some (JArr (map v3JsonValue (map event_shard_value (eventShards a))))).
  cbn [array_of default]. unfold id at 1. rewrite Hev. unfold array_length, core_field.
  change (prop "core" (v3JsonValue (aggregate_value a))) with (Some (v3JsonValue (core_value (core a)))). cbn [mbind option_bind].
  change (prop "expectedCommitSequence" (v3JsonValue (core_value (core a)))) with (Some (JStr (pretty (core_expectedCommitSequence (core a))))).
  change (prop "lastCommittedSequence" (v3JsonValue (core_value (core a)))) with (Some (JStr (pretty (core_lastCommittedSequence (core a))))).
  rewrite !bigintOrNull_pretty by done. f_equal; first [apply is_bool_true|apply json_items|reflexivity].
Qed.
