(* ===== verification/OrderTicket.v ===== *)
(** * The order ticket

    features/trading/order-ticket.tsx ([sizeTicket], [orderGuard]), [usdToRawPrice] of
    features/trading/v3-order.ts, and what the terminal makes of a ticket: the
    quantity, the kind of order and the limit of a close.  All on doubles
    (Doubles), with the text of the inputs as the user typed it. *)

From S2P Require Import Prelude Json Doubles.
From Stdlib Require Import Lqa.

(** ** v3-order.ts *)

(** [usdToRawPrice] with the default exponent: [None] is [null]. *)
Definition usdToRawPrice (usd : string) : result (option Z) :=
  let value := Number usd in
  if negb (isFinite value) || num_le value (Fin 0) then Ok None
  else raw ← BigInt_of (Math_round (num_mul value (of_Z (10 ^ 5)))); Ok (Some raw).

(** ** order-ticket.tsx *)

Record Ticket := mkTicket {
  tk_market : bool; tk_long : bool; tk_price : string; tk_amount : string; tk_leverage : number; tk_slippageBps : string; tk_postOnly : bool;
  tk_reduceOnly : bool; tk_expiresInMinutes : string }.

Definition DEFAULT_TICKET : Ticket := mkTicket false true "" "" (Fin 2) "50" false false "".

Record SizedOrder := mkSized { sz_shares : number; sz_entryPrice : number; sz_notional : number; sz_margin : number; sz_limitPriceUsd : string }.

Definition slippage (t : Ticket) : Z :=
  let parsed := match parseInt10 (tk_slippageBps t) with Some v => if v =? 0 then 50 else v | None => 50 end in
  Z.min (Z.max parsed 1) 5000.

Definition band_of (long : bool) (bps : Z) : number :=
  let part := num_div (of_Z bps) (of_Z 10000) in if long then num_add (Fin 1) part else num_sub (Fin 1) part.

Definition sizeTicket (t : Ticket) (markPrice : option number) (initialMarginBps : Z) : option SizedOrder :=
  entry ← (if tk_market t then markPrice else Some (Number (tk_price t)));
  let amount := Number (tk_amount t) in
  if num_falsy entry || negb (isFinite entry) || num_le entry (Fin 0) || negb (isFinite amount) || num_le amount (Fin 0) then None
  else
    let shares := Math_floor (num_div (num_mul amount (tk_leverage t)) entry) in
    let notional := num_mul shares entry in
    let limitPriceUsd := if tk_market t then toFixed 2 (num_mul entry (band_of (tk_long t) (slippage t))) else tk_price t in
    Some (mkSized shares entry notional (num_div (num_mul notional (of_Z initialMarginBps)) (of_Z 10000)) limitPriceUsd).

Record Guard := mkGuard { gd_block : option string; gd_warn : option string }.
Definition pass : Guard := mkGuard None None.
Definition blocked (s : string) : Guard := mkGuard (Some s) None.

(** How far through the market a limit reaches. *)
Definition through_of (long : bool) (price : string) (mark : number) : number :=
  num_mul (num_div (num_sub (Number price) mark) mark) (if long then Fin 1 else Fin (-1)).

Definition limit_guard (market long : bool) (price : string) (markPrice : option number) : Guard :=
  match markPrice with
  | Some mark =>
      if market || num_falsy mark then pass
      else
        let through := through_of long price mark in
        let side := if long then "above" else "below" in
        if num_lt (Number "0.1") through
        then blocked ("Limit is " +:+ toFixed 0 (num_mul through (Fin 100)) +:+ "% " +:+ side +:+ " the market — use Market or a closer price")
        else if num_lt (Number "0.02") through
        then mkGuard None (Some ("Crosses the book up to " +:+ toFixed 1 (num_mul through (Fin 100)) +:+ "% " +:+ side +:+ " the market"))
        else pass
  | None => pass
  end.

Definition orderGuard (market long reduceOnly : bool) (price : string) (marginUsd : number) (markPrice availableUsd : option number) (position : option Z) : Guard :=
  let limit := limit_guard market long price markPrice in
  if reduceOnly
  then match position with
       | None | Some 0 => blocked "Reduce-only needs an open position"
       | Some p =>
           if (if long then 0 <? p else p <? 0)
           then blocked ("Reduce-only " +:+ (if long then "buy" else "sell") +:+ " needs a " +:+ (if long then "short" else "long") +:+ " position")
           else limit
       end
  else match availableUsd with
       | Some available =>
           if num_lt (num_add available (Number "1e-6")) marginUsd then blocked ("Needs $" +:+ toFixed 2 marginUsd +:+ " margin — deposit more") else limit
       | None => limit
       end.

(** ** What the terminal makes of a ticket *)

(** [BigInt(sized?.shares ?? 0)], evaluated at every render. *)
Definition ticket_quantity (sized : option SizedOrder) : result Z := match sized with Some s => BigInt_of (sz_shares s) | None => Ok 0 end.

Inductive OrderType := ot_ioc | ot_limit | ot_post_only.
#[export] Instance order_type_eq_dec : EqDecision OrderType.
Proof. solve_decision. Defined.

Definition orderTypeFor (t : Ticket) : OrderType := if tk_market t then ot_ioc else if tk_postOnly t then ot_post_only else ot_limit.

(** The seat as the guard reads it: [Number(availableCollateral) / 1e6] and the position. *)
Definition seat_available (availableCollateral : Z) : number := num_div (of_Z availableCollateral) (Fin (inject_Z 1000000)).

(** [seat] is the free collateral and the position. *)
Definition orderCheck (t : Ticket) (sized : option SizedOrder) (needsFunding : bool) (markPrice : option number) (seat : option (Z * Z)) : option Guard :=
  match sized with
  | Some s =>
      if num_lt (Fin 0) (sz_shares s) && negb needsFunding
      then Some (orderGuard (tk_market t) (tk_long t) (tk_reduceOnly t) (tk_price t) (sz_margin s) markPrice ((fun x => seat_available x.1) <$> seat) (snd <$> seat))
      else None
  | None => None
  end.

(** What keeps the submit button off, if anything: [busy] is the action under way. *)
Definition blocker (busy : option string) (orderPending needsFunding authenticated hasOracle snapshotStale marketClosed : bool) (t : Ticket) (markPrice : option number)
    (sized : option SizedOrder) (check : option Guard) : option string :=
  match busy, orderPending with
  | Some action, false => Some action
  | _, _ =>
      if needsFunding then None
      else if authenticated && (negb hasOracle || snapshotStale) then Some "Waiting for a verified price"
      else if marketClosed && authenticated then Some "Market closed — US session only"
      else if negb authenticated then None
      else match sized with
           | None =>
               Some (if negb (tk_market t) && negb (num_lt (Fin 0) (Number (tk_price t))) then "Enter a limit price"
                     else match markPrice with None => "Waiting for the verified price" | Some _ => "Enter an amount" end)
           | Some s => if num_le (sz_shares s) (Fin 0) then Some "Below one share" else check ≫= gd_block
           end
  end.

(** The limit of a close of a position: 1% through the mark. *)
Definition close_limit (short : bool) (markPrice : number) : string := toFixed 2 (num_mul markPrice (if short then Number "0.99" else Number "1.01")).

(** [Number(expiresInMinutes) || 0] *)
Definition ticket_minutes (t : Ticket) : number := let m := Number (tk_expiresInMinutes t) in if num_falsy m then Fin 0 else m.

(** ** The sizes of the tests *)

Example size_limit :
  (fun s => (sz_shares s, sz_limitPriceUsd s)) <$> sizeTicket (mkTicket false true "250" "1000" (Fin 3) "50" false false "") (Some (Fin 999)) 2000 = Some (Fin 12, "250").
Proof. vm_compute. reflexivity. Qed.
Example size_market :
  sz_limitPriceUsd <$> sizeTicket (mkTicket true true "" "100" (Fin 2) "100" false false "") (Some (Fin 200)) 2000 = Some "202.00"
  /\ sz_limitPriceUsd <$> sizeTicket (mkTicket true false "" "100" (Fin 2) "100" false false "") (Some (Fin 200)) 2000 = Some "198.00".
Proof. split; vm_compute; reflexivity. Qed.

(** ** Prices *)

Lemma moderate_between x lo hi :
  (lo <= x)%Q -> (x <= hi)%Q -> ((1 # 2 ^ 1000) <= lo)%Q -> (hi <= inject_Z (2 ^ 1000))%Q -> moderate x.
Proof. intros. apply positive_moderate; by eapply Qle_trans. Qed.

Lemma num_le_zero x : (0 < x)%Q -> num_le (Fin x) (Fin 0) = false.
Proof. intros H. cbn. destruct (Qle_bool x 0) eqn:E; [|done]. apply Qle_bool_iff in E. by apply Qlt_not_le in H. Qed.

Lemma raw_product v x raw :
  near v x -> (x * inject_Z 100000 == inject_Z raw)%Q -> 0 < raw <= 2 ^ 50 -> BigInt_of (Math_round (num_mul (Fin v) (of_Z (10 ^ 5)))) = Ok raw.
Proof.
  intros Hv Hx Hr. rewrite of_Z_exact by (vm_compute; discriminate). change (10 ^ 5) with 100000. cbn [num_mul].
  assert (inject_Z 1 <= inject_Z raw)%Q as H1 by (rewrite <- Zle_Qle; lia). assert (inject_Z raw <= inject_Z (2 ^ 50))%Q as H2 by (rewrite <- Zle_Qle; lia).
  change (inject_Z 1) with 1%Q in H1. change (inject_Z 100000) with (100000 # 1) in *.
  assert (0 < x)%Q as Hx0 by lra. pose proof (near_half v x Hx0 Hv) as [Hv1 Hv2].
  assert (Hlo : ((1 # 2) <= v * (100000 # 1))%Q) by lra. assert (Hhi : (v * (100000 # 1) <= inject_Z (2 ^ 51))%Q).
  { assert (inject_Z (2 ^ 51) == 2 * inject_Z (2 ^ 50))%Q as -> by (by vm_compute). lra. }
  destruct (rounded_near (v * (100000 # 1))) as (p & -> & Hp); [apply (moderate_between _ _ _ Hlo Hhi); by vm_compute|].
  pose proof (near_trans_bound v p x (100000 # 1) Hv Hp) as Hb. rewrite Hx in Hb. rewrite (Qabs_pos (inject_Z raw)) in Hb by lra.
  cbn [Math_round]. rewrite (nearest_integer p raw); [apply BigInt_of_Z|]. eapply Qle_lt_trans; [exact Hb|].
  assert (inject_Z raw * ((1 # 2 ^ 52) + (1 # 2 ^ 106)) <= inject_Z (2 ^ 50) * ((1 # 2 ^ 52) + (1 # 2 ^ 106)))%Q as Hm by (apply Qmult_le_compat_r; [done|by vm_compute]).
  eapply Qle_lt_trans; [exact Hm|]. by vm_compute.
Qed.

(** A price typed with up to five decimals is the raw price exactly: no value is lost to
    the binary fractions in between. *)
Theorem usd_raw_price_exact n (k : nat) :
  (k <= 4)%nat -> 0 < n -> n * 10 ^ (4 - Z.of_nat k) <= 2 ^ 50 -> usdToRawPrice (fixed_text n (S k)) = Ok (Some (n * 10 ^ (4 - Z.of_nat k))).
Proof.
  intros Hk Hn Hr. unfold usdToRawPrice. rewrite Number_fixed_text by lia. set (x := n # Z.to_pos (10 ^ Z.of_nat (S k))).
  assert (x * inject_Z 100000 == inject_Z (n * 10 ^ (4 - Z.of_nat k)))%Q as Hx.
  { unfold x, Qeq. cbn [Qmult Qnum Qden inject_Z]. rewrite Pos.mul_1_r, Z.mul_1_r, Z2Pos.id by (apply Z.pow_pos_nonneg; lia).
    rewrite <- Z.mul_assoc, <- Z.pow_add_r by lia. replace (4 - Z.of_nat k + Z.of_nat (S k)) with 5 by lia. lia. }
  assert (1 <= n * 10 ^ (4 - Z.of_nat k)) as H1 by (assert (0 < 10 ^ (4 - Z.of_nat k)) by (apply Z.pow_pos_nonneg; lia); nia).
  set (raw := n * 10 ^ (4 - Z.of_nat k)) in *. clearbody x raw.
  assert (inject_Z 1 <= inject_Z raw)%Q as Q1 by (rewrite <- Zle_Qle; lia). assert (inject_Z raw <= inject_Z (2 ^ 50))%Q as Q2 by (rewrite <- Zle_Qle; lia).
  change (inject_Z 1) with 1%Q in Q1. change (inject_Z 100000) with (100000 # 1) in Hx.
  assert (Hlo : ((1 # 100000) <= x)%Q) by lra. assert (Hhi : (x <= inject_Z (2 ^ 50))%Q) by lra.
  destruct (rounded_near x) as (v & -> & Hv); [apply (moderate_between _ _ _ Hlo Hhi); by vm_compute|].
  pose proof (near_half v x ltac:(lra) Hv) as [Hv1 _]. cbn [isFinite negb orb]. rewrite num_le_zero by lra.
  by rewrite (raw_product v x raw Hv Hx) by lia.
Qed.

(** The text of a price in cents is read as that price. *)
Lemma cents_raw e :
  ((1 # 100) <= e <= inject_Z (2 ^ 33))%Q ->
  exists n, usdToRawPrice (toFixed 2 (Fin e)) = Ok (Some (n * 1000)) /\ (- (1 # 200) <= (n # 100) - e <= 1 # 200)%Q.
Proof.
  intros [H1 H2]. rewrite toFixed_text; [|lra|eapply Qle_lt_trans; [exact H2|by vm_compute]].
  change (inject_Z (10 ^ Z.of_nat 2)) with (100 # 1). pose proof (floor_half (e * (100 # 1))) as Hf. set (n := Qfloor (e * (100 # 1) + (1 # 2))) in *. clearbody n.
  assert ((n # 100) == inject_Z n * (1 # 100))%Q as En by (unfold Qeq; cbn; lia). exists n. rewrite En. split; [|lra].
  assert (inject_Z 0 < inject_Z n)%Q as Hn by (change (inject_Z 0) with 0%Q; lra). rewrite <- Zlt_Qlt in Hn.
  assert (inject_Z n <= inject_Z (2 ^ 40))%Q as Hu.
  { assert (1 <= inject_Z (2 ^ 33))%Q by (by vm_compute). apply (Qle_trans _ (inject_Z (2 ^ 33) * (101 # 1))); [lra|by vm_compute]. }
  rewrite <- Zle_Qle in Hu. apply (usd_raw_price_exact n 1); [lia|done|]. change (10 ^ (4 - Z.of_nat 1)) with 1000. lia.
Qed.

Lemma slippage_range t : 1 <= slippage t <= 5000.
Proof. unfold slippage. lia. Qed.

(** The widening of a market order, exactly. *)
Definition band_exact (long : bool) (bps : Z) : Q := if long then (1 + (bps # 10000))%Q else (1 - (bps # 10000))%Q.

Lemma near_inject_div bps : 1 <= bps <= 5000 -> exists a, num_div (of_Z bps) (of_Z 10000) = Fin a /\ ((bps # 10000) - (1 # 2 ^ 53) <= a <= (bps # 10000) + (1 # 2 ^ 53))%Q.
Proof.
  intros Hb. rewrite !of_Z_exact by lia. cbn [num_div]. change (Q_zero (inject_Z 10000)) with false. cbn match.
  assert (inject_Z bps / inject_Z 10000 == (bps # 10000))%Q as E by (unfold Qdiv, Qinv, Qmult, Qeq; cbn; lia). rewrite (rounded_proper _ _ E).
  assert ((1 # 10000) <= (bps # 10000) <= 1 # 2)%Q as [H1 H2] by (unfold Qle; cbn; lia).
  destruct (rounded_near (bps # 10000)) as (a & -> & Ha); [apply (moderate_between _ _ _ H1 H2); by vm_compute|]. exists a. split; [done|].
  pose proof (near_within a _ 1 Ha ltac:(rewrite Qabs_pos; lra)). lra.
Qed.

Lemma band_of_near long bps :
  1 <= bps <= 5000 -> exists b, band_of long bps = Fin b /\ (band_exact long bps - (1 # 2 ^ 51) <= b <= band_exact long bps + (1 # 2 ^ 51))%Q.
Proof.
  intros Hb. destruct (near_inject_div bps Hb) as (a & Ha & Ha1 & Ha2). unfold band_of. rewrite Ha.
  assert ((1 # 10000) <= (bps # 10000) <= 1 # 2)%Q as [H1 H2] by (unfold Qle; cbn; lia).
  assert ((1 # 2 ^ 51) == (4 # 1) * (1 # 2 ^ 53))%Q as E51 by (by vm_compute). assert (0 < (1 # 2 ^ 53) < 1 # 1000000)%Q as Hu by (split; by vm_compute).
  assert (exists x, (if long then num_add (Fin 1) (Fin a) else num_sub (Fin 1) (Fin a)) = rounded x
    /\ (band_exact long bps - (1 # 2 ^ 53) <= x <= band_exact long bps + (1 # 2 ^ 53))%Q /\ ((1 # 3) <= x <= 2)%Q) as (x & -> & Hx & Hx1 & Hx2).
  { unfold band_exact. destruct long; [exists (1 + a)%Q|exists (1 + - a)%Q]; (split; [done|lra]). }
  destruct (rounded_near x) as (b & -> & Hn); [apply (moderate_between _ _ _ Hx1 Hx2); by vm_compute|]. exists b. split; [done|].
  pose proof (near_within b x 2 Hn ltac:(rewrite Qabs_pos; lra)). lra.
Qed.

(** A market order's limit, in raw units, is the mark widened by the slippage, to the
    nearest cent. *)
Lemma market_limit m long bps :
  ((1 # 40) <= m <= inject_Z (2 ^ 32))%Q -> 1 <= bps <= 5000 ->
  exists raw, usdToRawPrice (toFixed 2 (num_mul (Fin m) (band_of long bps))) = Ok (Some raw)
    /\ (Qabs ((raw # 100000) - m * band_exact long bps) <= (1 # 200) + m * (1 # 2 ^ 50))%Q.
Proof.
  intros [Hm1 Hm2] Hb. destruct (band_of_near long bps Hb) as (b & -> & Hb1 & Hb2). cbn [num_mul].
  assert (inject_Z (2 ^ 33) == inject_Z (2 ^ 32) * 2)%Q as E33 by (by vm_compute).
  assert ((1 # 2 ^ 51) == (4 # 1) * (1 # 2 ^ 53))%Q as E51 by (by vm_compute). assert ((1 # 2 ^ 50) == (8 # 1) * (1 # 2 ^ 53))%Q as E50 by (by vm_compute).
  assert (0 < (1 # 2 ^ 53) < 1 # 1000000)%Q as Hu by (split; by vm_compute).
  assert ((1 # 2) <= band_exact long bps <= 3 # 2)%Q as Hband.
  { unfold band_exact. assert ((1 # 10000) <= (bps # 10000) <= 1 # 2)%Q as [H1 H2] by (unfold Qle; cbn; lia). destruct long; lra. }
  set (u := (1 # 2 ^ 53)%Q) in *. assert (m * (1 # 2 ^ 50) == m * ((8 # 1) * u))%Q as Em by (by rewrite E50). set (beta := band_exact long bps) in *.
  assert (m * (beta - (4 # 1) * u) <= m * b <= m * (beta + (4 # 1) * u))%Q as [Hp1 Hp2].
  { rewrite !(Qmult_comm m). split; apply Qmult_le_compat_r; lra. }
  assert (m * (1 # 2) <= m * beta <= m * (3 # 2))%Q as [Hq1 Hq2] by (rewrite !(Qmult_comm m); split; apply Qmult_le_compat_r; lra).
  assert (0 <= m * u <= m * (1 # 1000000))%Q as [Hmu0 Hmu1] by (split; [apply Qmult_le_0_compat; lra|rewrite !(Qmult_comm m); apply Qmult_le_compat_r; lra]).
  assert (Hlo : ((1 # 100) <= m * b)%Q) by lra. assert (Hhi : (m * b <= inject_Z (2 ^ 32) * 2)%Q) by lra.
  destruct (rounded_near (m * b)) as (e & -> & He); [apply (moderate_between _ _ _ Hlo Hhi); by vm_compute|].
  pose proof (near_within e _ (m * 2) He ltac:(rewrite Qabs_pos; lra)) as [He1 He2]. fold u in He1, He2.
  destruct (cents_raw e) as (n & Hn & Hc1 & Hc2); [rewrite E33; lra|]. exists (n * 1000). split; [exact Hn|].
  assert ((n * 1000 # 100000) == (n # 100))%Q as -> by (unfold Qeq; cbn; lia). apply Qabs_Qle_condition. split; lra.
Qed.

(** ** Sizes *)

Lemma practical_pos x : practical x -> (0 < x)%Q.
Proof. intros [H _]. eapply Qlt_le_trans; [|exact H]. by vm_compute. Qed.

Lemma practical_mul x y : practical x -> practical y -> ((1 # 2 ^ 200) <= x * y <= inject_Z (2 ^ 200))%Q.
Proof.
  intros Hx Hy. pose proof (practical_pos y Hy) as Hy0. destruct Hx as [Hx1 Hx2], Hy as [Hy1 Hy2]. split.
  - apply (Qle_trans _ ((1 # 2 ^ 100) * y)); [|apply Qmult_le_compat_r; [done|lra]]. rewrite Qmult_comm.
    apply (Qle_trans _ ((1 # 2 ^ 100) * (1 # 2 ^ 100))); [by vm_compute|]. apply Qmult_le_compat_r; [done|by vm_compute].
  - apply (Qle_trans _ (inject_Z (2 ^ 100) * y)); [apply Qmult_le_compat_r; [done|lra]|]. rewrite Qmult_comm.
    apply (Qle_trans _ (inject_Z (2 ^ 100) * inject_Z (2 ^ 100))); [|by vm_compute]. apply Qmult_le_compat_r; [done|by vm_compute].
Qed.

Lemma practical_inv x : practical x -> practical (/ x).
Proof.
  intros Hx. pose proof (practical_pos x Hx) as H0. destruct Hx as [H1 H2]. split.
  - apply Qle_shift_inv_l; [done|]. eapply Qle_trans; [rewrite Qmult_comm; apply Qmult_le_compat_r; [exact H2|by vm_compute]|]. by vm_compute.
  - apply Qle_shift_inv_r; [done|]. eapply Qle_trans; [|rewrite Qmult_comm; apply Qmult_le_compat_r; [exact H1|by vm_compute]]. by vm_compute.
Qed.

(** The product of two practical doubles, and then a quotient. *)
Lemma mul_practical x y : practical x -> practical y -> exists p, num_mul (Fin x) (Fin y) = Fin p /\ near p (x * y).
Proof.
  intros Hx Hy. destruct (practical_mul x y Hx Hy) as [H1 H2]. cbn [num_mul]. apply rounded_near. apply (moderate_between _ _ _ H1 H2); by vm_compute.
Qed.

Lemma div_near p x y e :
  near p (x * y) -> practical x -> practical y -> practical e -> exists q, num_div (Fin p) (Fin e) = Fin q /\ near q (p * / e).
Proof.
  intros Hp Hx Hy He. destruct (practical_mul x y Hx Hy) as [H1 H2]. pose proof (practical_pos e He) as He0. pose proof (practical_inv e He) as Hi.
  assert (0 < x * y)%Q as Hxy by (eapply Qlt_le_trans; [|exact H1]; by vm_compute). pose proof (near_half p _ Hxy Hp) as [Hp1 Hp2].
  cbn [num_div]. assert (Q_zero e = false) as ->. { destruct (Q_zero e) eqn:E; [|done]. apply Q_zero_iff in E. rewrite E in He0. by apply Qlt_irrefl in He0. }
  destruct Hi as [Hi1 Hi2]. assert (0 < / e)%Q as Hinv by (by apply Qinv_lt_0_compat).
  assert (Hlo : ((1 # 2 ^ 302) <= p / e)%Q).
  { unfold Qdiv. apply (Qle_trans _ ((1 # 2 ^ 201) * / e)); [|apply Qmult_le_compat_r; [|lra]].
    - rewrite Qmult_comm. apply (Qle_trans _ ((1 # 2 ^ 100) * (1 # 2 ^ 201))); [by vm_compute|]. apply Qmult_le_compat_r; [done|by vm_compute].
    - eapply Qle_trans; [|exact Hp1]. apply (Qle_trans _ ((1 # 2 ^ 200) * (1 # 2))); [by vm_compute|]. apply Qmult_le_compat_r; [done|by vm_compute]. }
  assert (Hhi : (p / e <= inject_Z (2 ^ 302))%Q).
  { unfold Qdiv. apply (Qle_trans _ (inject_Z (2 ^ 201) * / e)); [apply Qmult_le_compat_r; [|lra]|].
    - eapply Qle_trans; [exact Hp2|]. apply (Qle_trans _ (inject_Z (2 ^ 200) * (3 # 2))); [|by vm_compute]. apply Qmult_le_compat_r; [done|by vm_compute].
    - rewrite Qmult_comm. apply (Qle_trans _ (inject_Z (2 ^ 100) * inject_Z (2 ^ 201))); [|by vm_compute]. apply Qmult_le_compat_r; [done|by vm_compute]. }
  destruct (rounded_near (p / e)) as (q & -> & Hq); [apply (moderate_between _ _ _ Hlo Hhi); by vm_compute|]. by exists q.
Qed.

Lemma div_product p x y e :
  near p (x * y) -> practical x -> practical y -> practical e -> exists q, num_div (Fin p) (Fin e) = Fin q /\ rel 3 q (x * y / e).
Proof.
  intros Hp Hx Hy He. destruct (div_near p x y e Hp Hx Hy He) as (q & -> & Hq). exists q. split; [done|].
  unfold Qdiv. change 3%Q with (1 + 2)%Q. apply (rel_step 1 p q); [lra|by apply near_rel|done].
Qed.

(** The shares of an amount at a price: the largest number that the amount pays for, up
    to one part in 2^50. *)
Lemma shares_of a l e :
  practical a -> practical l -> practical e ->
  exists n, Math_floor (num_div (num_mul (Fin a) (Fin l)) (Fin e)) = Fin (inject_Z n) /\ 0 <= n
    /\ (inject_Z n * e <= a * l * (1 + (1 # 2 ^ 51)))%Q /\ (a * l * (1 - (1 # 2 ^ 51)) < (inject_Z n + 1) * e)%Q.
Proof.
  intros Ha Hl He. destruct (mul_practical a l Ha Hl) as (p & -> & Hp). destruct (div_product p a l e Hp Ha Hl He) as (q & -> & Hq).
  pose proof (practical_pos e He) as He0. pose proof (practical_pos a Ha) as Ha0. pose proof (practical_pos l Hl) as Hl0.
  assert (0 < a * l)%Q as Hal by (by apply Qmult_lt_0_compat). assert (0 < a * l / e)%Q as Hx by (apply Qlt_shift_div_l; [done|lra]).
  pose proof (rel_bounds 3 q _ Hx Hq) as [Hq1 Hq2]. cbn [Math_floor]. exists (Qfloor q). split; [done|].
  pose proof (Qfloor_le q) as Hf. pose proof (Qlt_floor q) as Hf'. rewrite inject_Z_plus in Hf'. change (inject_Z 1) with 1%Q in Hf'.
  assert (0 < (1 # 2 ^ 53) < 1 # 1000000)%Q as [Hu0 Hu1] by (split; by vm_compute). assert ((1 # 2 ^ 51) == (4 # 1) * (1 # 2 ^ 53))%Q as E51 by (by vm_compute).
  assert (a * l / e * e == a * l)%Q as Ee by (field; lra). set (z := (a * l / e)%Q) in *. clearbody z.
  assert (0 <= z * (1 # 2 ^ 53))%Q by (apply Qmult_le_0_compat; lra). split_and!.
  - assert (0 <= q)%Q as Hq0. { assert (z * (1 # 2 ^ 53) <= z * (1 # 1000000))%Q by (rewrite !(Qmult_comm z); apply Qmult_le_compat_r; lra). lra. }
    apply (Qfloor_resp_le 0) in Hq0. exact Hq0.
  - rewrite E51. rewrite <- Ee. apply (Qle_trans _ (q * e)); [apply Qmult_le_compat_r; lra|].
    apply (Qle_trans _ (z * (1 + 3 * (1 # 2 ^ 53)) * e)); [apply Qmult_le_compat_r; lra|].
    setoid_replace (z * e * (1 + (4 # 1) * (1 # 2 ^ 53)))%Q with (z * (1 + (4 # 1) * (1 # 2 ^ 53)) * e)%Q using relation Qeq by ring. apply Qmult_le_compat_r; lra.
  - rewrite E51. rewrite <- Ee. apply (Qle_lt_trans _ (z * (1 - 3 * (1 # 2 ^ 53)) * e)).
    + setoid_replace (z * e * (1 - (4 # 1) * (1 # 2 ^ 53)))%Q with (z * (1 - (4 # 1) * (1 # 2 ^ 53)) * e)%Q using relation Qeq by ring. apply Qmult_le_compat_r; lra.
    + apply Qmult_lt_r; [done|]. lra.
Qed.

(** The sizes a user trades with. *)
Definition everyday (x : Q) : Prop := ((1 # 2 ^ 20) <= x <= inject_Z (2 ^ 30))%Q.

Lemma everyday_practical x : everyday x -> practical x.
Proof. intros [H1 H2]. split; [eapply Qle_trans; [|exact H1]; by vm_compute|eapply Qle_trans; [exact H2|by vm_compute]]. Qed.

Lemma practical_between x lo hi : (lo <= x)%Q -> (x <= hi)%Q -> ((1 # 2 ^ 100) <= lo)%Q -> (hi <= inject_Z (2 ^ 100))%Q -> practical x.
Proof. intros. split; by eapply Qle_trans. Qed.

(** Notional and margin of at least one share. *)
Lemma margin_of n e bps :
  1 <= n <= 2 ^ 81 -> everyday e -> (inject_Z n * e <= inject_Z (2 ^ 61))%Q -> 1 <= bps <= 10000 ->
  exists margin, num_div (num_mul (num_mul (Fin (inject_Z n)) (Fin e)) (of_Z bps)) (of_Z 10000) = Fin margin
    /\ rel 5 margin (inject_Z n * e * (bps # 10000)).
Proof.
  intros Hn He Hne Hb. rewrite !of_Z_exact by lia.
  assert (practical (inject_Z n)) as Pn.
  { apply (practical_between _ (inject_Z 1) (inject_Z (2 ^ 81))); [rewrite <- Zle_Qle; lia|rewrite <- Zle_Qle; lia|by vm_compute|by vm_compute]. }
  assert (practical (inject_Z bps)) as Pb.
  { apply (practical_between _ (inject_Z 1) (inject_Z 10000)); [rewrite <- Zle_Qle; lia|rewrite <- Zle_Qle; lia|by vm_compute|by vm_compute]. }
  assert (practical (inject_Z 10000)) as P4 by (split; by vm_compute).
  destruct (mul_practical _ e Pn (everyday_practical _ He)) as (t & -> & Ht).
  assert ((1 # 2 ^ 20) <= inject_Z n * e)%Q as Hlo.
  { destruct He as [He _]. apply (Qle_trans _ (inject_Z 1 * e)); [change (inject_Z 1) with 1%Q; lra|]. apply Qmult_le_compat_r; [rewrite <- Zle_Qle; lia|].
    eapply Qle_trans; [|exact He]. by vm_compute. }
  assert (0 < inject_Z n * e)%Q as H0 by (eapply Qlt_le_trans; [|exact Hlo]; by vm_compute).
  pose proof (near_half t _ H0 Ht) as [Ht1 Ht2].
  assert (practical t) as Pt.
  { apply (practical_between _ ((1 # 2 ^ 20) * (1 # 2)) (inject_Z (2 ^ 61) * (3 # 2))); [|  |by vm_compute|by vm_compute].
    - eapply Qle_trans; [|exact Ht1]. apply Qmult_le_compat_r; [done|by vm_compute].
    - eapply Qle_trans; [exact Ht2|]. apply Qmult_le_compat_r; [done|by vm_compute]. }
  destruct (mul_practical t _ Pt Pb) as (p & -> & Hp). destruct (div_near p t _ _ Hp Pt Pb P4) as (q & -> & Hq). exists q. split; [done|].
  assert (inject_Z n * e * (bps # 10000) == inject_Z n * e * inject_Z bps * / inject_Z 10000)%Q as ->.
  { assert ((bps # 10000) == inject_Z bps * / inject_Z 10000)%Q as -> by (unfold Qeq, Qmult, Qinv, inject_Z; cbn; lia). ring. }
  change 5%Q with (1 + 2 + 2)%Q. apply (rel_step _ p q); [lra| |done]. apply (rel_step _ t p); [lra|by apply near_rel|done].
Qed.

Lemma sized_everyday t mark bps e a :
  (if tk_market t then mark else Some (Number (tk_price t))) = Some (Fin e) -> Number (tk_amount t) = Fin a -> everyday e -> everyday a ->
  sizeTicket t mark bps = Some (
    let shares := Math_floor (num_div (num_mul (Fin a) (tk_leverage t)) (Fin e)) in
    let notional := num_mul shares (Fin e) in
    mkSized shares (Fin e) notional (num_div (num_mul notional (of_Z bps)) (of_Z 10000))
      (if tk_market t then toFixed 2 (num_mul (Fin e) (band_of (tk_long t) (slippage t))) else tk_price t)).
Proof.
  intros He Ha Pe Pa. unfold sizeTicket. rewrite He, Ha. cbn [mbind option_bind isFinite num_falsy negb orb].
  pose proof (practical_pos e (everyday_practical _ Pe)) as He0. pose proof (practical_pos a (everyday_practical _ Pa)) as Ha0.
  rewrite !num_le_zero by done. assert (Q_zero e = false) as ->; [|done].
  destruct (Q_zero e) eqn:E; [|done]. apply Q_zero_iff in E. rewrite E in He0. by apply Qlt_irrefl in He0.
Qed.


Definition sample_ticket : Ticket := mkTicket true true "" "1000" (Fin 3) "50" false false "".


(** The quantity is computed at every render: an amount whose product with the multiplier
    overflows makes the render throw. *)
Theorem overflowing_amount_throws :
  exists t, ticket_quantity (sizeTicket t (Some (Fin 250)) 2000) = Throw "The number cannot be converted to a BigInt because it is not an integer".
Proof. exists (mkTicket true true "" "1e308" (Fin 2) "50" false false ""). vm_compute. reflexivity. Qed.

(** ** The guard *)

Definition bounded (x : Q) : Prop := ((1 # 2 ^ 100) <= Qabs x)%Q /\ (Qabs x <= inject_Z (2 ^ 100))%Q.

Lemma moderate_mul x y : bounded x -> bounded y -> moderate (x * y).
Proof.
  unfold bounded, moderate. rewrite Qabs_Qmult. pose proof (Qabs_nonneg y) as Hy. intros [Hx1 Hx2] [Hy1 Hy2]. split.
  - apply (Qle_trans _ ((1 # 2 ^ 100) * Qabs y)); [|by apply Qmult_le_compat_r]. rewrite Qmult_comm.
    apply (Qle_trans _ ((1 # 2 ^ 100) * (1 # 2 ^ 100))); [by vm_compute|]. apply Qmult_le_compat_r; [done|by vm_compute].
  - apply (Qle_trans _ (inject_Z (2 ^ 100) * Qabs y)); [by apply Qmult_le_compat_r|]. rewrite Qmult_comm.
    apply (Qle_trans _ (inject_Z (2 ^ 100) * inject_Z (2 ^ 100))); [|by vm_compute]. apply Qmult_le_compat_r; [done|by vm_compute].
Qed.

Lemma near_abs r x : near r x -> (Qabs x * (1 # 2) <= Qabs r <= Qabs x * (3 # 2))%Q.
Proof.
  unfold near. intros H. pose proof (Qabs_nonneg x) as Hx. pose proof (Qabs_triangle_reverse r x) as H1. pose proof (Qabs_triangle_reverse x r) as H2. rewrite (Qabs_Qminus x r) in H2.
  assert (Qabs x * (1 # 2 ^ 53) <= Qabs x * (1 # 2))%Q by (rewrite !(Qmult_comm (Qabs x)); apply Qmult_le_compat_r; [by vm_compute|done]). split; lra.
Qed.

(** How far a limit reaches, when that is at least a twentieth of the mark. *)
Lemma through_near long price m p :
  Number price = Fin p -> everyday m -> everyday p -> (m * (1 # 20) <= Qabs (p - m))%Q ->
  exists r, through_of long price (Fin m) = Fin r /\ rel 5 r ((p - m) / m * (if long then 1 else -1 # 1))%Q.
Proof.
  intros Hp Pm Pp Hd. unfold through_of. rewrite Hp. cbn [num_sub num_opp num_add]. pose proof (practical_pos m (everyday_practical _ Pm)) as Hm0.
  pose proof (practical_pos p (everyday_practical _ Pp)) as Hp0.
  assert ((1 # 2 ^ 25) <= Qabs (p + - m))%Q as Hlo.
  { eapply Qle_trans; [|exact Hd]. apply (Qle_trans _ ((1 # 2 ^ 20) * (1 # 20))); [by vm_compute|]. apply Qmult_le_compat_r; [apply Pm|by vm_compute]. }
  assert (Qabs (p + - m) <= inject_Z (2 ^ 30))%Q as Hhi by (apply Qabs_Qle_condition; destruct Pm, Pp; split; lra).
  destruct (rounded_near (p + - m)) as (d & -> & Hdn); [split; [eapply Qle_trans; [|exact Hlo]; by vm_compute|eapply Qle_trans; [exact Hhi|by vm_compute]]|].
  destruct (near_abs d _ Hdn) as [Hd1 Hd2].
  assert (bounded d) as Bd.
  { split; [eapply Qle_trans; [|exact Hd1]|eapply Qle_trans; [exact Hd2|]].
    - apply (Qle_trans _ ((1 # 2 ^ 25) * (1 # 2))); [by vm_compute|]. apply Qmult_le_compat_r; [done|by vm_compute].
    - apply (Qle_trans _ (inject_Z (2 ^ 30) * (3 # 2))); [|by vm_compute]. apply Qmult_le_compat_r; [done|by vm_compute]. }
  pose proof (practical_inv m (everyday_practical _ Pm)) as [Pi1 Pi2]. assert (0 < / m)%Q as Hi by (by apply Qinv_lt_0_compat).
  assert (bounded (/ m)) as Bi by (split; rewrite Qabs_pos by lra; done).
  cbn [num_div]. assert (Q_zero m = false) as ->. { destruct (Q_zero m) eqn:E; [|done]. apply Q_zero_iff in E. rewrite E in Hm0. by apply Qlt_irrefl in Hm0. }
  destruct (rounded_near (d / m)) as (q & -> & Hq); [by apply moderate_mul|].
  assert (exists r, num_mul (Fin q) (if long then Fin 1 else Fin (-1)) = Fin r /\ near r (q * (if long then 1 else -1 # 1))) as (r & -> & Hr).
  { destruct (near_abs q _ Hq) as [Hq1 Hq2]. assert (rounded_arg : moderate (q * (if long then 1 else -1 # 1))).
    { unfold moderate. rewrite Qabs_Qmult. assert (Qabs (if long then 1 else -1 # 1) == 1)%Q as -> by (by destruct long). rewrite Qmult_1_r.
      assert (Qabs (d / m) == Qabs d * / m)%Q as Ed by (unfold Qdiv; rewrite Qabs_Qmult, (Qabs_pos (/ m)) by lra; done). rewrite Ed in Hq1, Hq2. destruct Bd as [Bd1 Bd2]. split.
      - eapply Qle_trans; [|exact Hq1]. apply (Qle_trans _ ((1 # 2 ^ 100) * (1 # 2 ^ 100) * (1 # 2))); [by vm_compute|]. apply Qmult_le_compat_r; [|by vm_compute].
        apply (Qle_trans _ ((1 # 2 ^ 100) * / m)); [apply Qmult_le_l; [by vm_compute|done]|]. apply Qmult_le_compat_r; [done|lra].
      - eapply Qle_trans; [exact Hq2|]. apply (Qle_trans _ (inject_Z (2 ^ 100) * inject_Z (2 ^ 100) * (3 # 2))); [|by vm_compute]. apply Qmult_le_compat_r; [|by vm_compute].
        apply (Qle_trans _ (inject_Z (2 ^ 100) * / m)); [apply Qmult_le_compat_r; [done|lra]|]. apply Qmult_le_l; [by vm_compute|done]. }
    destruct (rounded_near _ rounded_arg) as (r & Hr & Hn). exists r. by destruct long. }
  exists r. split; [done|]. change 5%Q with (1 + 2 + 2)%Q. apply (rel_step _ q r); [lra| |done]. apply (rel_step _ d q); [lra|by apply near_rel|done].
Qed.

(** A limit that the guard lets through reaches at most 10% through the mark. *)
Lemma limit_guard_pass long price m p :
  Number price = Fin p -> everyday m -> everyday p -> gd_block (limit_guard false long price (Some (Fin m))) = None ->
  (if long then p <= m * ((11 # 10) + (1 # 2 ^ 49)) else m * ((9 # 10) - (1 # 2 ^ 49)) <= p)%Q.
Proof.
  intros Hp Pm Pp. pose proof (practical_pos m (everyday_practical _ Pm)) as Hm0. unfold limit_guard. cbn [num_falsy orb].
  assert (Q_zero m = false) as ->. { destruct (Q_zero m) eqn:E; [|done]. apply Q_zero_iff in E. rewrite E in Hm0. by apply Qlt_irrefl in Hm0. }
  cbv zeta. intros Hb. destruct (num_lt (Number "0.1") _) eqn:E; [done|]. clear Hb.
  assert ((1 # 2 ^ 49) == (16 # 1) * (1 # 2 ^ 53))%Q as E49 by (by vm_compute). assert (0 < (1 # 2 ^ 53) < 1 # 1000000)%Q as [Hu0 Hu1] by (split; by vm_compute).
  assert (0 <= m * (1 # 2 ^ 49))%Q as Hmu by (apply Qmult_le_0_compat; [lra|by vm_compute]).
  destruct (Qlt_le_dec (if long then m * ((11 # 10) + (1 # 2 ^ 49)) else p) (if long then p else m * ((9 # 10) - (1 # 2 ^ 49)))) as [Hlt|]; [|by destruct long]. exfalso.
  set (x := ((p - m) / m * (if long then 1 else -1 # 1))%Q).
  assert (x * m == (p - m) * (if long then 1 else -1 # 1))%Q as Ex by (unfold x; field; lra).
  assert ((1 # 10) + (1 # 2 ^ 49) < x)%Q as Hx by (apply (Qmult_lt_r _ _ m Hm0); rewrite Ex; destruct long; lra).
  destruct (through_near long price m p Hp Pm Pp) as (r & Hr & Hrel).
  { destruct long; [rewrite Qabs_pos by lra; lra|rewrite Qabs_neg by lra; lra]. }
  fold x in Hrel. pose proof (rel_bounds 5 r x ltac:(lra) Hrel) as [Hr1 _]. rewrite Hr in E. unfold num_lt in E. clearbody x. clear Hr Hrel Hlt Ex Hp.
  assert (Hn : exists c, Number "0.1" = Fin c /\ (c <= (1 # 10) + (1 # 2 ^ 53))%Q) by (eexists; split; [vm_compute; reflexivity|by vm_compute]).
  destruct Hn as (c & Hc & Hc'). rewrite Hc in E. apply negb_false_iff, Qle_bool_iff in E.
  assert (((1 # 10) + (1 # 2 ^ 49)) * (1 - 5 * (1 # 2 ^ 53)) <= x * (1 - 5 * (1 # 2 ^ 53)))%Q as Hx' by (apply Qmult_le_compat_r; lra).
  rewrite E49 in Hx'. set (u := (1 # 2 ^ 53)%Q) in *. assert (u * u <= u * (1 # 1000000))%Q by (apply Qmult_le_l; [done|lra]). lra.
Qed.

(** What the guard lets through.  An order it does not block either reduces a position of
    the other side, or asks for no more margin than is available, up to a
    millionth of a dollar, when that is known; and a limit order reaches at most
    10% through the mark. *)
Theorem order_guard_spec market long reduceOnly price margin mark available position m p :
  gd_block (orderGuard market long reduceOnly price margin (Some mark) available position) = None ->
  (reduceOnly = true -> exists q, position = Some q /\ (if long then q < 0 else 0 < q))
  /\ (reduceOnly = false -> forall a, available = Some a -> num_lt (num_add a (Number "1e-6")) margin = false)
  /\ (market = false -> mark = Fin m -> Number price = Fin p -> everyday m -> everyday p ->
      (if long then p <= m * ((11 # 10) + (1 # 2 ^ 49)) else m * ((9 # 10) - (1 # 2 ^ 49)) <= p)%Q).
Proof.
  intros H. assert (gd_block (limit_guard market long price (Some mark)) = None) as Hl.
  { unfold orderGuard in H. destruct reduceOnly.
    - destruct position as [[|q|q]|]; try done; destruct long; done.
    - destruct available; [|done]. destruct (num_lt _ _); done. }
  split_and!.
  - intros ->. cbn in H. destruct position as [[|q|q]|]; try done; destruct long; try done; by eexists.
  - intros -> a ->. unfold orderGuard in H. destruct (num_lt _ _); done.
  - intros -> -> Hp Pm Pp. by apply (limit_guard_pass long price).
Qed.

Lemma order_guard_spec_witness :
  gd_block (orderGuard false true false "105" (Fin 40) (Some (Fin 100)) (Some (Fin 1000)) (Some 0)) = None
  /\ num_lt (num_add (Fin 1000) (Number "1e-6")) (Fin 40) = false.
Proof.
  assert (H : gd_block (orderGuard false true false "105" (Fin 40) (Some (Fin 100)) (Some (Fin 1000)) (Some 0)) = None) by (vm_compute; reflexivity).
  split; [exact H|]. exact (proj1 (proj2 (order_guard_spec false true false "105" (Fin 40) (Fin 100) (Some (Fin 1000)) (Some 0) 100 105 H)) eq_refl (Fin 1000) eq_refl).
Defined.

(** The tests' fat-finger limits. *)
Example guard_fat_finger :
  gd_block (orderGuard false true false "115" (Fin 40) (Some (Fin 100)) (Some (Fin 1000)) (Some 0)) = Some "Limit is 15% above the market — use Market or a closer price"
  /\ gd_warn (orderGuard false true false "105" (Fin 40) (Some (Fin 100)) (Some (Fin 1000)) (Some 0)) = Some "Crosses the book up to 5.0% above the market"
  /\ orderGuard false true false "80" (Fin 40) (Some (Fin 100)) (Some (Fin 1000)) (Some 0) = pass.
Proof. split_and!; vm_compute; reflexivity. Qed.

(** A ticket whose button is on.  Signed in and funded, it has a verified price that is
    not stale, an open market and a size of at least one share, and passes the guard
    for the seat at hand. *)
Theorem unblocked_ticket orderPending hasOracle snapshotStale marketClosed t mark bps seat n :
  let sized := sizeTicket t mark bps in
  blocker None orderPending false true hasOracle snapshotStale marketClosed t mark sized (orderCheck t sized false mark seat) = None ->
  ticket_quantity sized = Ok n ->
  hasOracle = true /\ snapshotStale = false /\ marketClosed = false /\ 0 < n
  /\ exists s, sized = Some s /\ gd_block (orderGuard (tk_market t) (tk_long t) (tk_reduceOnly t) (tk_price t) (sz_margin s) mark
                                            ((fun x => seat_available x.1) <$> seat) (snd <$> seat)) = None.
Proof.
  cbv zeta. unfold blocker. intros H Hq. assert (hasOracle = true /\ snapshotStale = false /\ marketClosed = false) as (-> & -> & ->).
  { destruct orderPending, hasOracle, snapshotStale, marketClosed; done. }
  assert (exists s, sizeTicket t mark bps = Some s /\ num_le (sz_shares s) (Fin 0) = false /\ orderCheck t (Some s) false mark seat ≫= gd_block = None) as (s & Es & Hle & Hg).
  { destruct (sizeTicket t mark bps) as [s|]; [|by destruct orderPending]. exists s. split; [done|]. destruct (num_le _ _); destruct orderPending; done. }
  rewrite Es in Hq |- *. cbn [ticket_quantity] in Hq. unfold BigInt_of in Hq. destruct (sz_shares s) as [x| |] eqn:Ex; [|done..].
  destruct (Qeq_bool _ _) eqn:Ei; [|done]. injection Hq as <-. apply Qeq_bool_iff in Ei.
  assert (0 < x)%Q as Hx. { apply Qnot_le_lt. intros Hx. apply Qle_bool_iff in Hx. cbn in Hle. by rewrite Hx in Hle. }
  split_and!; [done|done|done| |].
  - rewrite <- Ei in Hx. change 0%Q with (inject_Z 0) in Hx. by rewrite <- Zlt_Qlt in Hx.
  - exists s. split; [done|]. unfold orderCheck in Hg. rewrite Ex in Hg. assert (num_lt (Fin 0) (Fin x) = true) as E0; [|by rewrite E0 in Hg].
    unfold num_lt. apply negb_true_iff. by apply num_le_zero.
Qed.
