(* ===== verification/Terminal.v ===== *)
(** * The trading terminal

    The actions of features/trading/trading-terminal.tsx on a V3 market: placing an
    order (with [buildV3OrderInstructions] of features/trading/v3-order.ts),
    closing a position, cancelling, opening a margin account and the one-click
    start of trading with its faucet claim (lib/faucet-client.ts), and the
    tracking of lifecycle events.  The acts and the world are those of
    BrowserCustody, so what a wallet, an endpoint or the clock answers is any
    function of what happened before.

    Amounts and prices are the text of the ticket, read and rounded on doubles as
    OrderTicket has it.  Notices are kept, toasts and button states are not. *)

From S2P Require Import Prelude Bytes ExecutionStatus Transactions ClientInstructions BrowserRpc.
From S2P Require Import BrowserCustody Doubles OrderTicket.

#[local] Open Scope io_scope.

(** ** v3-order.ts *)

Definition GTC_SECONDS : Z := 60 * 60 * 24 * 30.

Record V3OrderInput := mkOrderInput {
  oi_core : AddressInput; oi_wallet : AddressInput; oi_oracleSnapshot : AddressInput; oi_seatIndex : Z; oi_side : Side; oi_orderType : OrderType;
  oi_reduceOnly : bool; oi_quantity : Z; oi_limitPriceUsd : string; oi_expiresInMinutes : number;
  oi_oracleClock : Z }.

Section Terminal.
Context (w : World) (freshOracle : option FreshOptions) (web3 : Web3) (spl : Spl).

Definition writable_of (e : V3ExecutionAccounts) : list string :=
  address_string web3 <$> core e :: bookPages e ++ seatShards e ++ eventShards e.

(** An error for the user on the left. *)
Definition buildV3OrderInstructions (input : V3OrderInput) (nextClientOrderId : Z) : result (string + (list TransactionInstruction * list string)) :=
  if oi_quantity input <=? 0 then Ok (inl "Enter a size above zero.")
  else
  raw ← usdToRawPrice (oi_limitPriceUsd input);
  match raw with
  | None => Ok (inl "Enter a limit price in USD.")
  | Some price =>
      derived ← deriveV3ExecutionAccounts web3 (oi_core input) (oi_wallet input) None;
      let execution := mkExecution (core derived) (bookPages derived) (seatShards derived) (eventShards derived) (authority derived) (session derived)
        (Some (oi_oracleSnapshot input)) in
      let minutes := oi_expiresInMinutes input in
      seconds ← (if num_lt (Fin 0) minutes then BigInt_of (num_mul minutes (Fin 60)) else Ok GTC_SECONDS);
      let expiresAt := oi_oracleClock input + seconds in
      order ← placeOrderV3 web3 execution (mkOrderParams (Num (oi_seatIndex input)) (oi_side input) (Some tree_fixed) (BigInt (oi_quantity input)) (BigInt price)
        (Some (BigInt expiresAt)) None (BigInt nextClientOrderId) None (bool_decide (oi_orderType input = ot_post_only))
        (bool_decide (oi_orderType input = ot_ioc)) (oi_reduceOnly input) None);
      Ok (inr ([setComputeUnitLimit spl 600000; order], writable_of execution))
  end.

(** ** trading-terminal.tsx *)

(** What a render of the terminal holds: the connection, the trader, the market,
    the execution status, the seat with its position, and the oracle clock. *)
Record Terminal := mkTerminal {
  tm_protocol : bool; tm_trader : option AddressInput; tm_core : option AddressInput; tm_oracleSnapshot : option AddressInput;
  tm_executionStatus : option ExecutionDisplayState; tm_seat : option Z; tm_seatIndex : Z; tm_clock : option Z; tm_markPrice : option number;
  tm_readOnly : bool }.

Definition routing (t : Terminal) : option Domain := tm_executionStatus t ≫= display_orderRoutingDomain.

(** The ticket's order, or the one of a close. *)
Record OrderSpec := mkOrderSpec {
  os_long : bool; os_quantity : Z; os_orderType : OrderType; os_reduceOnly : bool; os_limitPriceUsd : string; os_minutes : number }.

Definition send_order (t : Terminal) (ixs : list TransactionInstruction) (writable : list string) : io unit :=
  io_catch
    (if decide (routing t = Some ER)
     then (_ <- notice (n_step "Placing your order in the MagicBlock rollup…");
           _ <- executeEr w freshOracle "PlaceOrder" ixs writable false;
           notice (n_step "Order accepted by the MagicBlock rollup."))
     else (_ <- notice (n_step "Placing your order on Solana L1 (the market is not delegated right now)…");
           result <- service_executeL1 w freshOracle ixs true;
           _ <- act (a_record "PlaceOrder" (fst result));
           notice (n_receipt "PlaceOrder" (snd result) (fst result) [])))
    (fun e => notice (n_failed "PlaceOrder" e)).

(** [order] is [None] when the ticket cannot be sized. *)
Definition placeV3Order (t : Terminal) (order : option OrderSpec) (nextClientOrderId : Z) : io unit :=
  match tm_protocol t, tm_trader t, tm_core t, tm_oracleSnapshot t, order with
  | true, Some trader, Some core, Some oracleSnapshot, Some order =>
      match tm_seat t with
      | None => notice (n_step "Press Start trading first: it opens your margin account and deposits collateral.")
      | Some _ =>
          match tm_clock t with
          | None => notice (n_step "Waiting for the verified price before placing an order.")
          | Some now =>
              built <- io_result (buildV3OrderInstructions (mkOrderInput core trader oracleSnapshot (tm_seatIndex t) (if os_long order then side_bid else side_ask)
                (os_orderType order) (os_reduceOnly order) (os_quantity order) (os_limitPriceUsd order) (os_minutes order) now) nextClientOrderId);
              match built with
              | inl error => notice (n_step error)
              | inr (ixs, writable) => send_order t ixs writable
              end
          end
      end
  | _, _, _, _, _ => io_ret tt
  end.

(** The order of a close: [half] or all of the position, up to 1% through the mark. *)
Definition close_order (base : Z) (half : bool) (markPrice : number) : option OrderSpec :=
  let size := Z.abs base in
  let qty := if half then size / 2 else size in
  if (base =? 0) || (qty <=? 0) then None
  else Some (mkOrderSpec (base <? 0) qty ot_ioc true (close_limit (0 <? base) markPrice) (Fin 0)).

Definition closePosition (t : Terminal) (half : bool) (nextClientOrderId : Z) : io unit :=
  match tm_markPrice t ≫= close_order (default 0 (tm_seat t)) half with
  | Some order => placeV3Order t (Some order) nextClientOrderId
  | None => io_ret tt
  end.

(** The ticket's order at a render: [Throw] is a render that throws. *)
Definition ticket_order (t : Terminal) (ticket : Ticket) (initialMarginBps : Z) : result (option OrderSpec) :=
  let sized := sizeTicket ticket (tm_markPrice t) initialMarginBps in
  quantity ← ticket_quantity sized;
  Ok (option_map (fun s => mkOrderSpec (tk_long ticket) quantity (orderTypeFor ticket) (tk_reduceOnly ticket) (sz_limitPriceUsd s) (ticket_minutes ticket)) sized).

Definition cancelV3 (t : Terminal) (orderKey : option Z) : io unit :=
  match tm_protocol t, tm_trader t, tm_core t, tm_oracleSnapshot t, tm_seat t with
  | true, Some trader, Some core_, Some oracleSnapshot, Some _ =>
      derived <- io_result (deriveV3ExecutionAccounts web3 core_ trader None);
      let execution := mkExecution (core derived) (bookPages derived) (seatShards derived) (eventShards derived) (authority derived) (session derived) (Some oracleSnapshot) in
      ix <- io_result (match orderKey with
                       | None => cancelAllV3 web3 execution (Num (tm_seatIndex t)) (Num 8) (Num 0)
                       | Some key => cancelOrderV3 web3 execution (Num (tm_seatIndex t)) key (Num 0)
                       end);
      io_catch
        (_ <- executeEr w freshOracle (match orderKey with None => "CancelAll" | Some _ => "CancelOrder" end) [setComputeUnitLimit spl 1000000; ix] (writable_of execution) false;
         notice (n_step (match orderKey with None => "Cancelled your open orders." | Some _ => "Order cancelled." end)))
        (fun e => notice (n_failed "Cancel" e))
  | _, _, _, _, _ => io_ret tt
  end.

(** The V2 branch of the source is not reached: a market address is a V3 core. *)
Definition runLifecycle (t : Terminal) : io bool :=
  if tm_readOnly t then (_ <- notice (n_step "Read-only Devnet demo: account changes are disabled."); io_ret false)
  else match tm_protocol t, tm_trader t, tm_core t with
  | true, Some trader, Some core_ =>
      io_catch
        (match routing t with
         | None => _ <- notice (n_step "Can't open a margin account right now: the market is moving between Solana and the rollup. Try again in a few seconds."); io_ret false
         | Some domain =>
             execution <- io_result (deriveV3ExecutionAccounts web3 core_ trader None);
             seat <- io_result (createV3TraderSeat web3 (mkSeatAccounts core_ (seatShards execution) (eventShards execution) trader) (Num (tm_seatIndex t)));
             match domain with
             | ER =>
                 _ <- notice (n_step "Opening your margin account in the MagicBlock rollup…");
                 _ <- executeEr w freshOracle "CreateV3TraderSeat" [seat] (address_string web3 <$> core_ :: seatShards execution ++ eventShards execution) false;
                 _ <- notice (n_step "Margin account opened in the rollup. Deposit USDC to start trading."); io_ret true
             | L1 =>
                 _ <- notice (n_step "Submitting CreateV3TraderSeat…");
                 result <- service_executeL1 w freshOracle [seat] false;
                 _ <- act (a_record "CreateV3TraderSeat" (fst result));
                 _ <- notice (n_receipt "CreateV3TraderSeat" (snd result) (fst result) []); io_ret true
             end
         end)
        (fun e => _ <- notice (n_failed "CreateV3TraderSeat" e); io_ret false)
  | _, _, _ => _ <- notice (n_step "Sign in and connect a wallet before opening a margin account."); io_ret false
  end.
(** ** faucet-client.ts *)

Record FaucetResponse := mkFaucetResponse { fr_ok : bool; fr_status : Z; fr_error : option string; fr_sol : bool; fr_retryAfterSeconds : option Z }.
Record FaucetClaimResult := mkClaim { fc_ok : bool; fc_message : string }.

(** The two reads and the two endpoints the terminal adds to the world; a wallet without
    an application session signs the claim. *)
Context (solBalance : list Act -> string -> answer Z) (signMessage : list Act -> list Z -> answer (list Z)) (faucet : list Act -> answer FaucetResponse).

Definition nl : string := String (Ascii.ascii_of_nat 10) "".
Definition faucet_message (address : string) (nowMs : Z) : string :=
  "Equinox devnet faucet" +:+ nl +:+ "wallet: " +:+ address +:+ nl +:+ "issued: " +:+ pretty (nowMs / 1000).

Definition claim_result (response : option FaucetResponse) : FaucetClaimResult :=
  match response with
  | None => mkClaim false "No test funds sent: faucet unavailable."
  | Some r =>
      if fr_ok r then mkClaim true ("Sent 1,000 test USDC" +:+ (if fr_sol r then " and 0.05 SOL" else "") +:+ " to your wallet.")
      else if (fr_status r =? 429) && bool_decide (fr_error r = Some "already claimed today") then
        let retry :=
          match fr_retryAfterSeconds r with
          | Some after =>
              if 0 <? after
              then let hours := (after + 3599) / 3600 in "Try again in about " +:+ pretty hours +:+ " " +:+ (if hours =? 1 then "hour" else "hours") +:+ "."
              else "Try again 24 hours after the last claim."
          | None => "Try again 24 hours after the last claim."
          end in
        mkClaim false ("This trading account has already claimed its daily test funds. " +:+ retry +:+ " You can also transfer devnet test USDC to this account.")
      else if fr_status r =? 429 then mkClaim false "The faucet is rate limited. Wait a minute and try again."
      else mkClaim false ("No test funds sent: " +:+ default "faucet unavailable" (fr_error r) +:+ ".")
  end.

Definition error_message (e : RpcError) : string :=
  match e with
  | RpcFailure method code => "RPC " +:+ method +:+ " failed (" +:+ match code with code_status n => pretty n | code_text c => c end +:+ ")"
  | JsError m => m
  end.

Definition requestTestFunds (address : string) : io FaucetClaimResult :=
  now <- clock w;
  let bytes := ascii_bytes (faucet_message address now) in
  signed <- io_catch (sg <- call (fun t => signMessage t bytes) (a_sign_message bytes); io_ret (inr sg)) (fun e => io_ret (inl e));
  match signed with
  | inl e => io_ret (mkClaim false ("No test funds sent: " +:+ error_message e +:+ "."))
  | inr _ =>
      response <- io_catch (r <- call faucet (a_faucet address); io_ret (Some r)) (fun _ => io_ret None);
      io_ret (claim_result response)
  end.

(** ** The one-click start *)

Definition MIN_SOL : Z := 10000000.

Definition rate_limited (e : RpcError) : bool := match e with RpcFailure _ (code_status 429) => true | _ => false end.
Definition io_raise {A} (e : RpcError) : io A := fun s => (s, inr (failed e)).

Definition readUsdc (collateral : string) : io Z :=
  io_catch (call (fun t => w_balance w t collateral) (a_balance collateral)) (fun e => if rate_limited e then io_raise e else io_ret 0).
Definition readSol (trader : string) : io Z := call (fun t => solBalance t trader) (a_sol_balance trader).

(** The wait for the faucet's transfer, [n] attempts left: the last balance read. *)
Fixpoint wait_funds (n : nat) (collateral : string) (amount usdc : Z) : io Z :=
  match n with
  | O => io_ret usdc
  | S n => if amount <=? usdc then io_ret usdc else (_ <- act (a_sleep 1000); usdc <- readUsdc collateral; wait_funds n collateral amount usdc)
  end.

(** The first part: whether the account holds the amount and the fees. *)
Definition fund (trader collateral : string) (amount : Z) : io bool :=
  usdc <- readUsdc collateral;
  sol <- readSol trader;
  if (amount <=? usdc) && (MIN_SOL <=? sol) then io_ret true
  else
    _ <- notice (n_step "1/3 · Funding your trading account with test USDC and SOL…");
    claim <- requestTestFunds trader;
    _ <- act a_refresh_balances;
    usdc <- (if fc_ok claim then io_ret (Some usdc)
             else (usdc <- readUsdc collateral;
                   currentSol <- readSol trader;
                   if (usdc <? amount) || (currentSol <? MIN_SOL) then (_ <- notice (n_step (fc_message claim)); io_ret None) else io_ret (Some usdc)));
    match usdc with
    | None => io_ret false
    | Some usdc =>
        usdc <- wait_funds 30 collateral amount usdc;
        _ <- act a_refresh_balances;
        if usdc <? amount then (_ <- notice (n_step "Test USDC has not reached your trading account yet. Check the wallet balance and try again."); io_ret false)
        else
          (sol <- readSol trader;
           if sol <? MIN_SOL
           then (_ <- notice (n_step "Your trading account needs a little Devnet SOL for fees. Top it up and try again."); io_ret false)
           else io_ret true)
    end.

Definition start_failed (e : RpcError) : io unit :=
  notice (n_step (if rate_limited e then "Solana Devnet RPC is rate limited. Wait a minute and try again." else error_message e)).

(** [startTrading] with an unlocked trading key: the new [seatCreatedFor].  The
    source's one [try] is split where the seat reference is written, each part with
    its handler. *)
Definition startTrading (t : Terminal) (trader collateral : string) (accounts : option ResolvedCustodyAccounts) (amount : Z)
    (seatLoading : bool) (seatCreatedFor : option string) : io (option string) :=
  if seatLoading then (_ <- notice (n_step "Loading your margin account — try again in a moment."); io_ret seatCreatedFor)
  else
    let hasSeat := bool_decide (is_Some (tm_seat t)) || bool_decide (seatCreatedFor = Some trader) in
    let deposit :=
      match accounts with
      | Some a => submitDeposit w freshOracle web3 (tm_protocol t) a amount (match tm_executionStatus t with Some e => marketDelegated e | None => false end)
      | None => io_ret tt
      end in
    funded <- io_catch (fund trader collateral amount) (fun e => _ <- start_failed e; io_ret false);
    created <- (if negb funded then io_ret None
                else if hasSeat then io_ret (Some seatCreatedFor)
                else (opened <- runLifecycle t; io_ret (if (opened : bool) then Some (Some trader) else None)));
    match created with
    | None => _ <- act a_refresh_balances; io_ret seatCreatedFor
    | Some created => _ <- io_catch deposit start_failed; _ <- act a_refresh_balances; io_ret created
    end.
End Terminal.

(** ** At most one transaction *)

(** From [s] to [s'] at most one transaction left the browser; [ok] holds of the trace
    before it and of the act. *)
Definition sent (w : World) (ok : list Act -> Act -> Prop) (s s' : St) : Prop :=
  honest w s' /\ exists d, trace s' = trace s ++ d
  /\ (Forall quiet d \/ exists d1 a k, d = d1 ++ [a] ++ k /\ Forall quiet d1 /\ Forall quiet k /\ ~ quiet a /\ ok (trace s ++ d1) a).

Lemma reach_sent w ok s s' : reach w s s' -> sent w ok s s'.
Proof. intros ((d & Hd & Hq) & _ & Hh). split; [done|]. exists d. split; [done|by left]. Qed.

Lemma sent_before w ok s s1 s' : reach w s s1 -> sent w ok s1 s' -> sent w ok s s'.
Proof.
  intros ((d0 & Hd0 & Hq0) & _) (Hh & d & Hd & Hs). split; [done|]. exists (d0 ++ d). rewrite Hd, Hd0, app_assoc. split; [done|].
  destruct Hs as [Hq|(d1 & a & k & -> & Hq1 & Hk & Ha & Hok)]; [left; by apply Forall_app_2|right].
  exists (d0 ++ d1), a, k. rewrite <- app_assoc. split_and!; [done|by apply Forall_app_2|done|done|]. by rewrite app_assoc, <- Hd0.
Qed.

Lemma sent_after w ok s s1 s' : sent w ok s s1 -> reach w s1 s' -> sent w ok s s'.
Proof.
  intros (_ & d & Hd & Hs) ((e & He & Hqe) & _ & Hh). split; [done|]. exists (d ++ e). rewrite He, Hd, app_assoc. split; [done|].
  destruct Hs as [Hq|(d1 & a & k & -> & Hq1 & Hk & Ha & Hok)]; [left; by apply Forall_app_2|right].
  exists d1, a, (k ++ e). rewrite <- !app_assoc. split_and!; [done|done|by apply Forall_app_2|done|done].
Qed.

(** A computation that sends at most once, and one that follows it quietly. *)
Definition sends {A} (w : World) (ok : list Act -> Act -> Prop) (m : io A) : Prop :=
  forall s s' r, honest w s -> m s = (s', r) -> sent w ok s s' /\ r ≠ inr out_of_fuel.

Lemma calm_sends {A} w ok (m : io A) : calm w m -> sends w ok m.
Proof. intros Hm s s' r Hh H. destruct (calm_out _ _ _ _ _ Hm Hh H) as [Hr Hne]. split; [by apply reach_sent|done]. Qed.

Lemma calm_then_sends {A B} w ok (m : io A) (f : A -> io B) : calm w m -> (forall a, sends w ok (f a)) -> sends w ok (io_bind m f).
Proof.
  intros Hm Hf s s' r Hh H. destruct (calm_bind_inv w m f s s' r Hm Hh H) as [[Hr [e ->]]|(a & s1 & _ & Hr & H1)].
  - split; [by apply reach_sent|done].
  - destruct (Hf a s1 s' r (reach_honest _ _ _ Hr) H1) as [Hs Hne]. split; [by eapply sent_before|done].
Qed.

Lemma sends_then_calm {A B} w ok (m : io A) (f : A -> io B) : sends w ok m -> (forall a, calm w (f a)) -> sends w ok (io_bind m f).
Proof.
  intros Hm Hf s s' r Hh H. unfold io_bind in H. destruct (m s) as [s1 [a|e]] eqn:E; destruct (Hm s s1 _ Hh E) as [Hs Hne].
  - destruct (calm_out _ _ _ _ _ (Hf a) (proj1 Hs) H) as [Hr Hne']. split; [by eapply sent_after|done].
  - injection H as <- <-. split; [done|congruence].
Qed.

Lemma sends_catch {A} w ok (m : io A) h : sends w ok m -> (forall e, calm w (h e)) -> sends w ok (io_catch m h).
Proof.
  intros Hm Hc s s' r Hh H. unfold io_catch in H. destruct (m s) as [s1 [a|[e|]]] eqn:E; destruct (Hm s s1 _ Hh E) as [Hs Hne].
  - by injection H as <- <-.
  - destruct (calm_out _ _ _ _ _ (Hc e) (proj1 Hs) H) as [Hr Hne']. split; [by eapply sent_after|done].
  - done.
Qed.

(** A transaction signed for the rollup after a price check that justified it. *)
Definition rollup_ok (w : World) (fo : option FreshOptions) (kind : string) (t : list Act) (a : Act) : Prop :=
  exists signed unsigned ts, a = a_submit_er signed kind /\ w_sign w ts unsigned = inl signed /\ ts ++ [a_sign unsigned] `prefix_of` t
  /\ (is_Some fo -> exists base d, t = base ++ d /\ signed_fresh w base d ts unsigned).

Lemma executeEr_sends w fo kind ixs wr : sends w (rollup_ok w fo kind) (executeEr w fo kind ixs wr false).
Proof.
  intros s s' r Hh H. destruct (executeEr_run _ _ _ _ _ _ _ _ _ Hh H) as [[Hr [e ->]]|[(d & d1 & d2 & b & sg & Hd & Ed & Hq & Hs & Hr & Hf) [_ Hh']]].
  - split; [by apply reach_sent|done].
  - split; [|rewrite Hr; by case_match]. split; [done|]. eexists. split; [exact Hd|]. right. exists d, (a_submit_er sg kind), []. split_and!; [by rewrite app_nil_r|done|done|by intros []|].
    exists sg, b, (trace s ++ d1). split_and!; [done|done|rewrite Ed, !app_assoc; by apply prefix_app_r|]. intros Ho. exists (trace s), d. split; [done|]. by apply Hf.
Qed.

(** A transaction simulated, signed and, when [fresh], sent after the oracle refresh. *)
Definition settlement_ok (w : World) (fo : option FreshOptions) (fresh : bool) (t : list Act) (a : Act) : Prop :=
  exists signed unsigned ts, a = a_submit_l1 signed /\ signed_simulated w ts unsigned signed /\ ts ++ [a_sign unsigned] `prefix_of` t
  /\ (fresh = true -> is_Some fo -> exists u response sequence, w_refresh w u = inl response /\ rf_body response ≫= rb_sequence = Some (Ok sequence)
        /\ ts ++ [a_sign unsigned] `prefix_of` u /\ u ++ [a_refresh] `prefix_of` t).

Lemma executeL1_sends w fo ixs fresh : sends w (settlement_ok w fo fresh) (service_executeL1 w fo ixs fresh).
Proof.
  intros s s' r Hh H. destruct (service_executeL1_run _ _ _ _ _ _ _ Hh H) as [[Hr [e ->]]|[(d & k & ts & b & sg & Hd & Hq & Hk & Hs & Hp & Hf & _) (_ & Hh' & Hr)]].
  - split; [by apply reach_sent|done].
  - split; [|done]. split; [done|]. eexists. split; [exact Hd|]. right. exists d, (a_submit_l1 sg), k. split_and!; [done|done|done|by intros []|].
    exists sg, b, ts. split_and!; done.
Qed.

Lemma sends_weaken {A} w (ok ok' : list Act -> Act -> Prop) (m : io A) : (forall t a, ok t a -> ok' t a) -> sends w ok m -> sends w ok' m.
Proof.
  intros Hok Hm s s' r Hh H. destruct (Hm s s' r Hh H) as [(Hh' & d & Hd & Hs) Hne]. split; [|done]. split; [done|]. exists d. split; [done|].
  destruct Hs as [?|(d1 & a & k & ? & ? & ? & ? & ?)]; [by left|right]. exists d1, a, k. auto 10.
Qed.

(** ** Orders *)

Definition order_sent (w : World) (fo : option FreshOptions) (t : Terminal) (trace : list Act) (a : Act) : Prop :=
  (routing t = Some ER /\ rollup_ok w fo "PlaceOrder" trace a) \/ (routing t ≠ Some ER /\ settlement_ok w fo true trace a).

Lemma send_order_sends w fo t ixs wr : sends w (order_sent w fo t) (send_order w fo t ixs wr).
Proof.
  unfold send_order. apply sends_catch; [|intros; calm]. case_decide as Hr; apply calm_then_sends; [calm|intros _|calm|intros _].
  - apply sends_then_calm; [|intros; calm]. eapply sends_weaken; [|apply executeEr_sends]. by left.
  - apply sends_then_calm; [|intros; calm]. eapply sends_weaken; [|apply executeL1_sends]. by right.
Qed.


(** A market whose status is unknown, as after a change of market, or in transition is
    ordered on Solana, while a margin account is never opened there. *)
Theorem unknown_status_orders_on_l1 w fo t ixs wr :
  routing t = None ->
  send_order w fo t ixs wr =
    io_catch (_ <- notice (n_step "Placing your order on Solana L1 (the market is not delegated right now)…");
              result <- service_executeL1 w fo ixs true;
              _ <- act (a_record "PlaceOrder" (fst result));
              notice (n_receipt "PlaceOrder" (snd result) (fst result) []))
      (fun e => notice (n_failed "PlaceOrder" e)).
Proof. intros H. unfold send_order. by rewrite H. Qed.

(** A close is a reduce-only order of the opposite side, no larger than the position. *)
Theorem close_order_spec base half mark :
  match close_order base half mark with
  | Some o => base ≠ 0 /\ os_reduceOnly o = true /\ os_orderType o = ot_ioc /\ os_long o = (base <? 0) /\ 0 < os_quantity o <= Z.abs base
      /\ (half = true -> 2 * os_quantity o <= Z.abs base < 2 * os_quantity o + 2)
  | None => base = 0 \/ (half = true /\ Z.abs base = 1)
  end.
Proof.
  unfold close_order. destruct (base =? 0) eqn:E; zbool; cbn; [by left|].
  pose proof (Z.div_mod (Z.abs base) 2 ltac:(lia)). pose proof (Z.mod_pos_bound (Z.abs base) 2 ltac:(lia)).
  destruct half; destruct (_ <=? 0) eqn:Eq; zbool; cbn; try lia; split_and!; (done || lia || (intros; (done || lia))).
Qed.

Lemma cancel_sends w fo web3 spl t key :
  sends w (rollup_ok w fo (match key with None => "CancelAll" | Some _ => "CancelOrder" end)) (cancelV3 w fo web3 spl t key).
Proof.
  unfold cancelV3. repeat (case_match; try (apply calm_sends; calm; fail)).
  all: apply calm_then_sends; [calm|intros]; apply calm_then_sends; [calm|intros]; apply sends_catch; [|intros; calm].
  all: apply sends_then_calm; [apply executeEr_sends|intros; calm].
Qed.

Lemma lifecycle_sends w fo web3 t :
  sends w (fun tr a => (routing t = Some ER /\ rollup_ok w fo "CreateV3TraderSeat" tr a) \/ (routing t = Some L1 /\ settlement_ok w fo false tr a))
    (runLifecycle w fo web3 t).
Proof.
  unfold runLifecycle. destruct (tm_readOnly t); [apply calm_sends; calm|]. destruct (tm_protocol t); [|apply calm_sends; calm].
  destruct (tm_trader t); [|apply calm_sends; calm]. destruct (tm_core t); [|apply calm_sends; calm]. apply sends_catch; [|intros; calm].
  destruct (routing t) as [[]|]; [| |apply calm_sends; calm].
  all: apply calm_then_sends; [calm|intros]; apply calm_then_sends; [calm|intros]; apply calm_then_sends; [calm|intros]; apply sends_then_calm; [|intros; calm].
  - eapply sends_weaken; [|apply executeL1_sends]. by right.
  - eapply sends_weaken; [|apply executeEr_sends]. by left.
Qed.

(** ** The one-click start *)

(** A balance read showed the amount. *)
Definition funded (w : World) (collateral : string) (amount : Z) (tr : list Act) : Prop :=
  amount <= 0 \/ exists t v, t ++ [a_balance collateral] `prefix_of` tr /\ w_balance w t collateral = inl v /\ amount <= v.

Lemma funded_grow w c amount tr tr' : tr `prefix_of` tr' -> funded w c amount tr -> funded w c amount tr'.
Proof. intros Hp [?|(t & v & Ht & ? & ?)]; [by left|right]. exists t, v. split_and!; [by etrans|done|done]. Qed.

Lemma calm_raise {A} w e : calm w (@io_raise A e).
Proof. intros s. by apply calm_here. Qed.
#[export] Hint Resolve calm_raise : calm.

Lemma calm_readUsdc w c : calm w (readUsdc w c).
Proof. unfold readUsdc. calm. Qed.
#[export] Hint Resolve calm_readUsdc : calm.
Lemma calm_readSol w sol tr : calm w (readSol sol tr).
Proof. unfold readSol. calm. Qed.
#[export] Hint Resolve calm_readSol : calm.
Lemma calm_claim w sm fc a : calm w (requestTestFunds w sm fc a).
Proof. unfold requestTestFunds. calm. Qed.
#[export] Hint Resolve calm_claim : calm.
Lemma calm_wait_funds w n c amount usdc : calm w (wait_funds w n c amount usdc).
Proof. revert usdc. induction n as [|n IH]; intros usdc; cbn; [calm|]. case_match; [calm|]. apply calm_bind; [calm|intros _]. apply calm_bind; [calm|auto]. Qed.
#[export] Hint Resolve calm_wait_funds : calm.
Lemma calm_fund w sol sm fc tr c amount : calm w (fund w sol sm fc tr c amount).
Proof. unfold fund. calm. Qed.

Lemma readUsdc_funded w c amount s s' v : readUsdc w c s = (s', inl v) -> amount <= v -> funded w c amount (trace s').
Proof.
  unfold readUsdc, io_catch, call. destruct (w_balance w (trace s) c) as [z|e] eqn:E.
  - intros [= <- <-] Hv. right. by exists (trace s), z.
  - case_match; [done|]. intros [= <- <-] Hv. by left.
Qed.

Lemma wait_funds_funded w n c amount usdc s s' v :
  honest w s -> (amount <= usdc -> funded w c amount (trace s)) -> wait_funds w n c amount usdc s = (s', inl v) -> amount <= v -> funded w c amount (trace s').
Proof.
  revert usdc s. induction n as [|n IH]; intros usdc s Hh Hu H Hv; cbn in H; [injection H as <- <-; auto|].
  destruct (amount <=? usdc); [injection H as <- <-; auto|].
  apply (calm_bind_inv w) in H as [[_ [e ?]]|([] & s1 & _ & R1 & H)]; [done| |calm|done].
  apply (calm_bind_inv w) in H as [[_ [e ?]]|(z & s2 & E2 & R2 & H)]; [done| |calm|by eapply reach_honest].
  apply (IH z s2); [by eapply reach_honest| |done|done]. intros Hz. by eapply readUsdc_funded.
Qed.

Lemma fund_funded w sol sm fc trader c amount s s' :
  honest w s -> fund w sol sm fc trader c amount s = (s', inl true) -> funded w c amount (trace s').
Proof.
  intros Hh H. unfold fund in H.
  apply (calm_bind_inv w) in H as [[_ [e ?]]|(usdc & s1 & E1 & R1 & H)]; [done| |calm|done].
  apply (calm_bind_inv w) in H as [[_ [e ?]]|(z & s2 & E2 & R2 & H)]; [done| |calm|by eapply reach_honest].
  assert (amount <= usdc -> funded w c amount (trace s2)) as H2.
  { intros Hu. eapply funded_grow; [by eapply reach_prefix|]. by eapply readUsdc_funded. }
  destruct ((amount <=? usdc) && (MIN_SOL <=? z)) eqn:Eg; [injection H as <-; zbool; apply H2; lia|].
  apply (calm_bind_inv w) in H as [[_ [e ?]]|(u3 & s3 & _ & R3 & H)]; [done| |calm|by eapply reach_honest].
  apply (calm_bind_inv w) in H as [[_ [e ?]]|(claim & s4 & _ & R4 & H)]; [done| |calm|by eapply reach_honest].
  apply (calm_bind_inv w) in H as [[_ [e ?]]|(u5 & s5 & _ & R5 & H)]; [done| |calm|by eapply reach_honest].
  assert (amount <= usdc -> funded w c amount (trace s5)) as H5.
  { intros Hu. apply (funded_grow _ _ _ _ _ (reach_prefix _ _ _ (reach_trans _ _ _ _ R3 (reach_trans _ _ _ _ R4 R5)))). by apply H2. }
  apply (calm_bind_inv w) in H as [[_ [e ?]]|(o & s6 & E6 & R6 & H)]; [done| |calm|by eapply reach_honest].
  destruct o as [v|]; [|done].
  assert (amount <= v -> funded w c amount (trace s6)) as H6.
  { destruct (fc_ok claim); [injection E6 as <- <-; exact H5|]. intros Hv.
    apply (calm_bind_inv w) in E6 as [[_ [e ?]]|(v1 & s7 & E7 & R7 & E6)]; [done| |calm|by eapply reach_honest].
    apply (calm_bind_inv w) in E6 as [[_ [e ?]]|(z1 & s8 & E8 & R8 & E6)]; [done| |calm|by eapply reach_honest].
    case_match; [unfold io_bind, io_ret in E6; cbn in E6; congruence|]. injection E6 as <- <-.
    apply (funded_grow _ _ _ _ _ (reach_prefix _ _ _ R8)). by eapply readUsdc_funded. }
  apply (calm_bind_inv w) in H as [[_ [e ?]]|(v2 & s9 & E9 & R9 & H)]; [done| |calm|by eapply reach_honest].
  apply (calm_bind_inv w) in H as [[_ [e ?]]|(u & s10 & _ & R10 & H)]; [done| |calm|by eapply reach_honest].
  destruct (v2 <? amount) eqn:Ev; [unfold io_bind, io_ret, notice, act in H; congruence|]. zbool.
  apply (calm_bind_inv w) in H as [[_ [e ?]]|(z2 & s11 & _ & R11 & H)]; [done| |calm|by eapply reach_honest].
  case_match; [unfold io_bind, io_ret, notice, act in H; congruence|]. injection H as <-.
  apply (funded_grow _ _ _ _ _ (reach_prefix _ _ _ (reach_trans _ _ _ _ R10 R11))). eapply wait_funds_funded; [|exact H6|exact E9|lia]. by eapply reach_honest.
Qed.

(** ** Nothing is taken back from a trace *)

Definition grows {A} (m : io A) : Prop := forall s, exists d, trace (fst (m s)) = trace s ++ d.

Lemma grows_here {A} (r : A + Failure) : grows (fun s => (s, r)).
Proof. intros s. exists []. by rewrite app_nil_r. Qed.
Lemma grows_call {A} (f : list Act -> answer A) a : grows (call f a).
Proof. intros s. by exists [a]. Qed.
Lemma grows_act a : grows (act a).
Proof. intros s. by exists [a]. Qed.
Lemma grows_result {A} (r : result A) : grows (io_result r).
Proof. destruct r; apply grows_here. Qed.
Lemma grows_pending b : grows (setPending b).
Proof. intros s. exists []. by rewrite app_nil_r. Qed.
Lemma grows_bind {A B} (m : io A) (f : A -> io B) : grows m -> (forall a, grows (f a)) -> grows (io_bind m f).
Proof.
  intros Hm Hf s. unfold io_bind. destruct (Hm s) as [d Hd]. destruct (m s) as [s1 [a|e]]; [|by exists d].
  destruct (Hf a s1) as [k Hk]. exists (d ++ k). cbn in Hd. by rewrite Hk, Hd, app_assoc.
Qed.
Lemma grows_catch {A} (m : io A) h : grows m -> (forall e, grows (h e)) -> grows (io_catch m h).
Proof.
  intros Hm Hf s. unfold io_catch. destruct (Hm s) as [d Hd]. destruct (m s) as [s1 [a|[e|]]]; [by exists d| |by exists d].
  destruct (Hf e s1) as [k Hk]. exists (d ++ k). cbn in Hd. by rewrite Hk, Hd, app_assoc.
Qed.
Lemma grows_finally {A} (m : io A) k : grows m -> grows k -> grows (io_finally m k).
Proof.
  intros Hm Hf s. unfold io_finally. destruct (Hm s) as [d Hd]. destruct (m s) as [s1 r]. destruct (Hf s1) as [e He]. cbn in Hd.
  assert (exists x, trace (fst (k s1)) = trace s ++ x) as Hx by (exists (d ++ e); by rewrite He, Hd, app_assoc).
  destruct r as [a|[e'|]]; [done|done|by exists d].
Qed.
Lemma grows_calm {A} w (m : io A) : calm w m -> grows m.
Proof. intros Hm s. destruct (Hm s) as ((d & Hd & _) & _). by exists d. Qed.

Create HintDb grows.
#[export] Hint Resolve grows_call grows_act grows_result grows_pending grows_bind grows_catch grows_finally : grows.
#[export] Hint Extern 1 (grows (io_ret _)) => apply grows_here : grows.
#[export] Hint Extern 1 (grows (io_throw _)) => apply grows_here : grows.
#[export] Hint Extern 1 (grows (clock _)) => intros ?; exists []; cbn; by rewrite app_nil_r : grows.
Ltac grows := repeat first [progress intros | solve [auto 2 with grows] | apply grows_bind | apply grows_catch | apply grows_finally | case_match].

Lemma grows_executeL1 w fo ixs fresh : grows (service_executeL1 w fo ixs fresh).
Proof.
  unfold service_executeL1, executeL1. apply grows_bind; [grows|intros bytes].
  assert (grows (default (io_ret tt) (if fresh then (fun _ => fresh_l1 w) <$> fo else None))) as Hf.
  { apply (grows_calm w). destruct fresh, fo; cbn; auto with calm. }
  repeat (apply grows_bind; [first [exact Hf|solve [auto with grows]]|intros]). apply grows_here.
Qed.
Lemma grows_executeEr w fo kind ixs wr be : grows (executeEr w fo kind ixs wr be).
Proof.
  unfold executeEr, submitEr. apply grows_bind; [apply (grows_calm w); calm|intros]. grows. apply (grows_calm w). calm.
Qed.
#[export] Hint Resolve grows_executeL1 grows_executeEr : grows.
Lemma grows_claim w fo n claim wr : grows (claim_attempts w fo n claim wr).
Proof.
  induction n as [|n IH]; intros s; cbn; destruct (grows_executeEr w fo "ClaimInboxDepositV3" [claim] wr false s) as [d Hd];
    destruct (executeEr w fo "ClaimInboxDepositV3" [claim] wr false s) as [s1 [a|[e|]]]; cbn in Hd; try (by exists d).
  destruct (grows_bind (act (a_sleep 2000)) (fun _ => claim_attempts w fo n claim wr) (grows_act _) (fun _ => IH) s1) as [k Hk].
  exists (d ++ k). rewrite app_assoc, <- Hd. exact Hk.
Qed.
#[export] Hint Resolve grows_claim : grows.
Lemma grows_deposit w fo web3 connected accounts amount inRollup : grows (submitDeposit w fo web3 connected accounts amount inRollup).
Proof. unfold submitDeposit, rollupDeposit, done_pending, readback, notice. grows. Qed.
Lemma grows_lifecycle w fo web3 t : grows (runLifecycle w fo web3 t).
Proof. unfold runLifecycle, notice. grows. Qed.

(** Starting to trade with one click.  It ends; no transaction leaves before a
    balance read showed the deposit amount; without a seat nothing is sent, not even
    the deposit, unless the execution status says which chain the market is on; and
    a trader whose seat was opened in this session is not given a second one. *)
Theorem start_trading_spec w fo web3 sol sm fc t trader collateral accounts amount seatLoading created s s' r :
  honest w s -> startTrading w fo web3 sol sm fc t trader collateral accounts amount seatLoading created s = (s', r) ->
  exists d, trace s' = trace s ++ d
  /\ (submissions d = [] \/ exists d1 d2, d = d1 ++ d2 /\ submissions d1 = [] /\ funded w collateral amount (trace s ++ d1))
  /\ (tm_seat t = None -> created ≠ Some trader -> routing t = None -> submissions d = [])
  /\ (seatLoading = true -> submissions d = [])
  /\ (is_Some (tm_seat t) \/ created = Some trader -> forall c, r = inl c -> c = created).
Proof.
  intros Hh H. unfold startTrading in H. destruct seatLoading.
  { injection H as <- <-. exists [a_notice (n_step "Loading your margin account — try again in a moment.")]. split_and!; try done; [by left|]. by intros _ c [= <-]. }
  set (hasSeat := bool_decide (is_Some (tm_seat t)) || bool_decide (created = Some trader)) in H.
  set (deposit := match accounts with Some a => _ | None => _ end) in H.
  assert (grows deposit) as Hdep by (unfold deposit; destruct accounts; [apply grows_deposit|apply grows_here]).
  apply (calm_bind_inv w) in H as [[((d & Hd & Hq) & _) [e ->]]|(f & s1 & E1 & R1 & H)];
    [exists d; rewrite (submissions_quiet d) by done; split_and!; try done; by left| |pose proof (calm_fund w sol sm fc trader collateral amount); unfold start_failed; calm|done].
  destruct R1 as ((d1 & Hd1 & Hq1) & Hp1 & Hh1).
  assert (f = true -> funded w collateral amount (trace s1)) as Hfund.
  { intros ->. unfold io_catch in E1. destruct (fund w sol sm fc trader collateral amount s) as [u [b|[e|]]] eqn:Ef; [|done|done].
    injection E1 as -> ->. exact (fund_funded _ _ _ _ _ _ _ _ _ Hh Ef). }
  assert (grows (x <- (if negb f then io_ret None else if hasSeat then io_ret (Some created)
      else opened <- runLifecycle w fo web3 t; io_ret (if (opened : bool) then Some (Some trader) else None));
      match x with None => _ <- act a_refresh_balances; io_ret created | Some c => _ <- io_catch deposit start_failed; _ <- act a_refresh_balances; io_ret c end)) as Hg.
  { apply grows_bind; [destruct f, hasSeat; cbn; try apply grows_here; apply grows_bind; [apply grows_lifecycle|intros; apply grows_here]|].
    intros [c|]; unfold start_failed, notice; grows. }
  destruct (Hg s1) as [d2 Hd2]. rewrite H in Hd2. cbn in Hd2. exists (d1 ++ d2). rewrite Hd2, Hd1, app_assoc. split; [done|].
  rewrite submissions_app, (submissions_quiet d1) by done. cbn.
  assert (f = false -> d2 = [a_refresh_balances] /\ r = inl created) as Hf0.
  { intros ->. unfold io_bind, io_ret, act in H. cbn in H. injection H as <- <-. cbn in Hd2. split; [|done]. by apply app_inv_head in Hd2. }
  split_and!.
  - destruct f; [right|left]. { exists d1, d2. split_and!; [done|by apply submissions_quiet|]. rewrite <- Hd1. by apply Hfund. }
    by destruct (Hf0 eq_refl) as [-> _].
  - intros Hs Hc Hr. destruct f; [|by destruct (Hf0 eq_refl) as [-> _]].
    assert (hasSeat = false) as Eh by (unfold hasSeat; rewrite Hs; by rewrite !bool_decide_eq_false_2 by (done || by intros [? ?])).
    rewrite Eh in H. cbn in H. unfold io_bind at 1 2 in H.
    destruct (lifecycle_sends w fo web3 t s1 _ _ Hh1 (surjective_pairing _)) as [(_ & k & Hk & Hcase) _].
    assert (Forall quiet k) as Hqk by (destruct Hcase as [?|(? & ? & ? & ? & ? & ? & ? & [[? _]|[? _]])]; [done|congruence|congruence]). clear Hcase.
    assert (snd (runLifecycle w fo web3 t s1) ≠ inl true) as Hopen.
    { unfold runLifecycle. destruct (tm_readOnly t); [done|]. destruct (tm_protocol t); [|done]. destruct (tm_trader t); [|done]. destruct (tm_core t); [|done]. by rewrite Hr. }
    destruct (runLifecycle w fo web3 t s1) as [s2 [[]|e]]; cbn in Hk, Hopen, H; [done| |].
    + injection H as <- _. cbn in Hd2. rewrite Hk, <- app_assoc in Hd2. apply app_inv_head in Hd2 as <-. apply submissions_quiet, Forall_app. split; [done|by repeat constructor].
    + injection H as <- _. rewrite Hk in Hd2. apply app_inv_head in Hd2 as <-. by apply submissions_quiet.
  - done.
  - intros Hhas c ->. destruct f; [|by destruct (Hf0 eq_refl) as [_ [= ->]]].
    assert (hasSeat = true) as Eh. { unfold hasSeat. destruct Hhas as [?|?]; [by rewrite bool_decide_eq_true_2 by done|rewrite (bool_decide_eq_true_2 (created = _)) by done; apply orb_true_r]. }
    rewrite Eh in H. unfold io_bind, io_ret, act in H. cbn in H. destruct (io_catch deposit start_failed s1) as [s3 [[]|e]]; [|done]. by injection H as _ <-.
Qed.

Module TerminalSample.
Definition display : ExecutionDisplayState := deriveExecutionDisplay (mkResponse (mkState er_active (mkSequences 0 0 0 0 0 0 0) None) false).
Definition terminal : Terminal :=
  mkTerminal true (Some (Sample.key 4)) (Some (Sample.key 1)) (Some (Sample.key 6)) (Some display) (Some 5) 3 (Some 1000) (Some (Fin 100)) false.
Definition order : OrderSpec := mkOrderSpec true 2 ot_limit false "123.45" (Fin 0).
Definition rich (t : list Act) (a : string) : answer Z := inl 50000000.
Definition world : World := {|
  w_now := w_now Sample.world; w_publish_time := w_publish_time Sample.world; w_refresh := w_refresh Sample.world; w_sequence := w_sequence Sample.world;
  w_blockhash := w_blockhash Sample.world; w_encode := w_encode Sample.world; w_sign := w_sign Sample.world; w_simulate := w_simulate Sample.world;
  w_submit_l1 := w_submit_l1 Sample.world; w_confirm := w_confirm Sample.world; w_submit_er := w_submit_er Sample.world; w_shard := w_shard Sample.world;
  w_balance := rich; w_seat := w_seat Sample.world |}.
End TerminalSample.


Lemma start_trading_spec_witness :
  exists s' d, startTrading TerminalSample.world (Some Sample.fresh) Sample.web3 TerminalSample.rich (fun _ _ => inl []) (fun _ => inr (JsError "offline"))
      TerminalSample.terminal "trader" "usdc" (Some Sample.accounts) 7 false None Sample.start = (s', inl None)
    /\ trace s' = d /\ length (submissions d) = 2%nat /\ (submissions d = [] \/ exists d1 d2, d = d1 ++ d2 /\ submissions d1 = [] /\ funded TerminalSample.world "usdc" 7 d1).
Proof.
  destruct (startTrading TerminalSample.world (Some Sample.fresh) Sample.web3 TerminalSample.rich (fun _ _ => inl []) (fun _ => inr (JsError "offline"))
      TerminalSample.terminal "trader" "usdc" (Some Sample.accounts) 7 false None Sample.start) as [s' r] eqn:E.
  destruct (start_trading_spec TerminalSample.world (Some Sample.fresh) Sample.web3 TerminalSample.rich (fun _ _ => inl []) (fun _ => inr (JsError "offline"))
      TerminalSample.terminal "trader" "usdc" (Some Sample.accounts) 7 false None Sample.start s' r I E) as (d & Hd & Hs & _).
  cbn in Hd. subst d. vm_compute in E. injection E as <- <-. eexists. eexists. split_and!; [reflexivity|reflexivity|reflexivity|exact Hs].
Defined.
