(* ===== verification/Baskets.v ===== *)
(** * Custody accounts and baskets

    features/collateral/custody-accounts.ts with lib/token-accounts.ts (the accounts a
    deposit or a withdrawal names), and features/pre-ipo/basket.ts: sizing the legs
    of a basket and trading one leg (a seat if there is none, the margin that is
    missing, a market order), over the [io] monad of BrowserCustody. *)

From S2P Require Import Prelude Json Bytes ExecutionStatus Transactions ClientInstructions ClientAccounts BrowserRpc BrowserBook BrowserFeeds BrowserCustody Doubles OrderTicket Terminal.

#[local] Open Scope io_scope.

(** ** token-accounts.ts and custody-accounts.ts *)

Definition ASSOCIATED_TOKEN_PROGRAM_ID : string := "ATokenGPvbdGVxr1b2hvZbsiqW5xWH25efTNsLJA8knL".
Definition TOKEN_PROGRAM : string := "TokenkegQfeZyiNwAJbNbGKPFXCWuBvf9Ss623VQ5DA".

(** The environment of the build and the deployment manifest, and of a market of it
    what the flows read. *)
Record CustodyEnv := mkCustodyEnv {
  ce_v3Core : option string; ce_mint : option string; ce_tokenProgram : option string; ce_vault : option string; ce_vaultAuthority : option string;
  dp_core : option string; dp_collateralMint : option string; dp_oracleSnapshot : option string }.

Record V3Market := mkV3Market { vm_symbol : string; vm_core : string; vm_oracleSnapshot : string }.

(** A non-empty string. *)
Definition some_text (s : option string) : option string := match s with Some t => if bool_decide (t = "") then None else Some t | None => None end.

Section Accounts.
Context (web3 : Web3) (env : CustodyEnv).

Definition deriveCollateralTokenAccount (owner mint tokenProgram : string) : result string :=
  owner ← public_key web3 owner; tokenProgram ← public_key web3 tokenProgram; mint ← public_key web3 mint;
  program ← public_key web3 ASSOCIATED_TOKEN_PROGRAM_ID;
  Ok (toBase58 web3 (findProgramAddressSync web3 [owner; tokenProgram; mint] program)).

Definition coreSeedAddress (seed core : string) : result string :=
  core ← public_key web3 core;
  Ok (toBase58 web3 (findProgramAddressSync web3 [ascii_bytes seed; core] (EQUINOX_PROGRAM_KEY web3))).

(** [a ?? (manifest ? b : c)] *)
Definition configured (value : option string) (manifest : bool) (b c : result (option string)) : result (option string) :=
  match value with Some v => Ok (Some v) | None => if manifest then b else c end.

(** A seat index outside the four shards names no account. *)
Definition shard_of (execution : V3ExecutionAccounts) (seatIndex : Z) : AddressInput :=
  default (addr_text "undefined") (if seatIndex <? 0 then None else seatShards execution !! Z.to_nat (seatIndex / 32)).

Definition resolveCustodyAccounts (walletAddress marketAddress : option string) (marketVault : option string) (seatIndex : Z) (market : option V3Market)
    : result (option ResolvedCustodyAccounts) :=
  match some_text walletAddress, some_text marketAddress with
  | Some wallet, Some marketKey =>
      let v3Core := match market with Some m => Some (vm_core m) | None => ce_v3Core env end in
      let coreText := some_text v3Core in
      let manifestMarket := match coreText with Some c => bool_decide (is_Some market) || bool_decide (dp_core env = Some c) | None => false end in
      let ofCore seed := match coreText with Some c => a ← coreSeedAddress seed c; Ok (Some a) | None => Ok None end in
      mint ← configured (ce_mint env) manifestMarket (Ok (dp_collateralMint env)) (Ok None);
      tokenProgram ← configured (ce_tokenProgram env) manifestMarket (Ok (Some TOKEN_PROGRAM)) (Ok None);
      vault ← configured (ce_vault env) manifestMarket (ofCore "vault") (Ok marketVault);
      vaultAuthority ← configured (ce_vaultAuthority env) manifestMarket (ofCore "vault-authority") (Ok None);
      match some_text mint, some_text tokenProgram, some_text vault, some_text vaultAuthority with
      | Some mint, Some tokenProgram, Some vault, Some vaultAuthority =>
          source ← deriveCollateralTokenAccount wallet mint tokenProgram;
          let legacy := mkCustody (addr_text marketKey) (addr_text wallet) (addr_text mint) (addr_text tokenProgram) (addr_text vault) (addr_text vaultAuthority)
            (Num seatIndex) (addr_text source) in
          match coreText with
          | None => Ok (Some (mkResolved legacy seatIndex None))
          | Some c =>
              let snapshot := match market with
                              | Some m => Some (vm_oracleSnapshot m)
                              | None => if bool_decide (dp_core env = Some c) then dp_oracleSnapshot env else None
                              end in
              let oracle := if manifestMarket then addr_text <$> some_text snapshot else None in
              e ← deriveV3ExecutionAccounts web3 (addr_text c) (addr_text wallet) None;
              let execution := mkExecution (ClientInstructions.core e) (bookPages e) (seatShards e) (eventShards e) (authority e) (session e) oracle in
              Ok (Some (mkResolved legacy seatIndex (Some (
                mkDepositAccounts (addr_text c) (shard_of e seatIndex) (eventShards e) (addr_text wallet) (addr_text source) (addr_text vault) (addr_text mint)
                  (addr_text tokenProgram) oracle,
                mkWithdrawAccounts execution (addr_text source) (addr_text mint) (addr_text vault) (addr_text vaultAuthority) (addr_text tokenProgram)))))
          end
      | _, _, _, _ => Ok None
      end
  | _, _ => Ok None
  end.
End Accounts.

(** ** basket.ts: sizing *)

Record Basket := mkBasket { bk_id : string; bk_legs : list (string * number) }.

Definition BASKETS : list Basket :=
  [mkBasket "ai" [("OPENAI-PERP", Number "0.5"); ("ANTHROPIC-PERP", Number "0.5")];
   mkBasket "frontier" [("OPENAI-PERP", num_div (Fin 1) (Fin 3)); ("ANTHROPIC-PERP", num_div (Fin 1) (Fin 3)); ("SPACEX-PERP", num_div (Fin 1) (Fin 3))]].

Record LegPlan := mkLegPlan { lp_market : V3Market; lp_price : number; lp_quantity : Z; lp_marginUsd : number }.

Definition marginFor (quantity : Z) (price leverage : number) : number := num_mul (num_div (num_mul (of_Z quantity) price) leverage) (Number "1.1").

Definition sharesFor (notionalUsd priceUsd : number) : result Z := BigInt_of (Math_max (Fin 1) (Math_floor (num_div notionalUsd priceUsd))).

(** [Number(snapshot.price) / 1e5] *)
Definition snapshot_price (raw : Z) : number := num_div (of_Z raw) (Fin (inject_Z 100000)).

(** One leg, from the bytes of its market's snapshot. *)
Definition plan_leg (market : V3Market) (weight notionalUsd leverage : number) (bytes : list Z) : result LegPlan :=
  snapshot ← Abi.decodeOracleSnapshotV3 bytes;
  let price := snapshot_price (Abi.sv_price snapshot) in
  quantity ← sharesFor (num_mul notionalUsd weight) price;
  Ok (mkLegPlan market price quantity (marginFor quantity price leverage)).

Definition planBasket (v3MarketFor : string -> V3Market) (accountBytes : string -> result (list Z)) (basket : Basket) (notionalUsd leverage : number) : result (list LegPlan) :=
  mapR (fun '(symbol, weight) =>
    let market := v3MarketFor symbol in
    bytes ← accountBytes (vm_oracleSnapshot market);
    plan_leg market weight notionalUsd leverage bytes) (bk_legs basket).

(** ** basket.ts: trading *)

Record LegResult := mkLegResult { lr_symbol : string; lr_quantity : Z; lr_price : number; lr_signature : option string }.

Section Trade.
Context (w : World) (freshOracle : option FreshOptions) (web3 : Web3) (spl : Spl).
(** Whether [createEquinoxProtocol] finds a signer; [fetchV3Aggregate(...)?.positions], and [rpc.accountBytes]. *)
Context (connected : bool) (aggregate : list Act -> string -> answer (option (list SeatPosition))) (accountBytes : list Act -> string -> answer (list Z)).
Context (env : CustodyEnv) (marketVault : option string).

(** [Promise.all] of the two reads. *)
Definition leg_reads (market : V3Market) : io (option (list SeatPosition) * list Z) :=
  fun s =>
    let '(s1, r1) := call (fun t => aggregate t (vm_core market)) (a_aggregate (vm_core market)) s in
    let '(s2, r2) := call (fun t => accountBytes t (vm_oracleSnapshot market)) (a_account (vm_oracleSnapshot market)) s1 in
    (s2, match r1, r2 with inl a, inl b => inl (a, b) | inr e, _ => inr e | _, inr e => inr e end).

(** A seat for the trader, if it has none. *)
Definition leg_seat (market : V3Market) (wallet : string) (execution : V3ExecutionAccounts) (own : option SeatPosition) (seatIndex : Z) : io unit :=
  match own with
  | Some _ => io_ret tt
  | None =>
      _ <- notice (n_step (vm_symbol market +:+ ": opening your margin account…"));
      seat <- io_result (createV3TraderSeat web3 (mkSeatAccounts (addr_text (vm_core market)) (seatShards execution) (eventShards execution) (addr_text wallet)) (Num seatIndex));
      _ <- executeEr w freshOracle "CreateV3TraderSeat" [seat] (address_string web3 <$> addr_text (vm_core market) :: seatShards execution ++ eventShards execution) false;
      io_ret tt
  end.

(** The margin the leg needs, in micro-dollars. *)
Definition leg_margin (quantity : Z) (price leverage : number) : result Z := BigInt_of (Math_ceil (num_mul (marginFor quantity price leverage) (Fin (inject_Z 1000000)))).

(** [marketVault] is the vault of the TSLA-PERP configuration, which every leg passes. *)
Definition leg_deposit (market : V3Market) (wallet : string) (available margin seatIndex : Z) : io unit :=
  if available <? margin
  then
    accounts <- io_result (resolveCustodyAccounts web3 env (Some wallet) (Some (vm_core market)) marketVault seatIndex (Some market));
    match accounts with
    | None => io_throw "custody accounts unavailable"
    | Some accounts =>
        _ <- notice (n_step (vm_symbol market +:+ ": depositing " +:+ toFixed 2 (num_div (of_Z (margin - available)) (Fin (inject_Z 1000000))) +:+ " USDC margin…"));
        rollupDeposit w freshOracle web3 accounts (margin - available)
    end
  else io_ret tt.

(** The limit of the order: 2% through the price. *)
Definition leg_limit (long : bool) (price : number) : string := toFixed 2 (num_mul price (if long then Number "1.02" else Number "0.98")).

Definition leg_order (market : V3Market) (wallet : string) (seatIndex : Z) (long : bool) (quantity : Z) (price : number) (oracleClock nextClientOrderId : Z)
    : io (Z * option string) :=
  built <- io_result (buildV3OrderInstructions web3 spl (mkOrderInput (addr_text (vm_core market)) (addr_text wallet) (addr_text (vm_oracleSnapshot market)) seatIndex
    (if long then side_bid else side_ask) ot_ioc false quantity (leg_limit long price) (Fin 0) oracleClock) nextClientOrderId);
  match built with
  | inl error => io_throw error
  | inr (ixs, writable) =>
      _ <- notice (n_step (vm_symbol market +:+ ": " +:+ (if long then "buying " else "selling ") +:+ pretty quantity +:+ "…"));
      executeEr w freshOracle "PlaceOrder" ixs writable false
  end.

(** [ms] of the result, the time of the last call, is left out. *)
Definition tradeLeg (plan : LegPlan) (long : bool) (leverage : number) (wallet : string) (nextClientOrderId : Z) : io LegResult :=
  let market := lp_market plan in let quantity := lp_quantity plan in
  if negb connected then io_throw "no signer" else
  execution <- io_result (deriveV3ExecutionAccounts web3 (addr_text (vm_core market)) (addr_text wallet) None);
  reads <- leg_reads market;
  let positions := default [] (fst reads) in
  let own := snd <$> list_find (fun p => sp_trader p = wallet) positions in
  let seatIndex := match own with Some p => seat_index p | None => firstFreeSeat positions end in
  snapshot <- io_result (Abi.decodeOracleSnapshotV3 (snd reads));
  let price := snapshot_price (Abi.sv_price snapshot) in
  _ <- leg_seat market wallet execution own seatIndex;
  margin <- io_result (leg_margin quantity price leverage);
  _ <- leg_deposit market wallet (match own with Some p => sp_availableCollateral p | None => 0 end) margin seatIndex;
  result <- leg_order market wallet seatIndex long quantity price (Abi.sv_publishTimestamp snapshot) nextClientOrderId;
  io_ret (mkLegResult (vm_symbol market) quantity price (snd result)).

End Trade.

(** [Promise.all] of the legs: each leg has a client and a market of its own, so its
    run is given by its plan; every leg runs whatever the others do, and one failure is
    the outcome (here the first in the list; in the code the first in time). *)
Fixpoint tradeBasket (run : LegPlan -> St * (LegResult + Failure)) (plan : list LegPlan) : list St * (list LegResult + Failure) :=
  match plan with
  | [] => ([], inl [])
  | leg :: rest =>
      let '(s, r) := run leg in
      let '(states, rs) := tradeBasket run rest in
      (s :: states, match r, rs with inr e, _ => inr e | _, inr e => inr e | inl a, inl l => inl (a :: l) end)
  end.

(** ** Sizing *)

(** A whole number of at least one share, whatever the price and the amount, or an
    exception (an infinite or undefined quotient). *)
Lemma sharesFor_positive notionalUsd priceUsd q : sharesFor notionalUsd priceUsd = Ok q -> 1 <= q.
Proof.
  unfold sharesFor, Math_max. destruct (Math_floor _) as [f|[]|] eqn:E; try done; [|by intros [= <-]].
  destruct (num_lt (Fin 1) (Fin f)) eqn:El; [|by intros [= <-]]. unfold BigInt_of. case_match; [|done]. intros [= <-].
  unfold Math_floor in E. destruct (num_div notionalUsd priceUsd); try done. injection E as <-. cbn in El. rewrite Qfloor_Z.
  apply negb_true_iff, not_true_iff_false in El. rewrite Qle_bool_iff in El. change 1%Q with (inject_Z 1) in El. rewrite <- Zle_Qle in El. lia.
Qed.

(** ** What a computation submits *)

(** From an honest state [m] ends in one, not out of fuel, and its submissions and its
    outcome satisfy [P]. *)
Definition emits {A} (w : World) (P : list Act -> A + Failure -> Prop) (m : io A) : Prop :=
  forall s s' r, honest w s -> m s = (s', r) ->
    honest w s' /\ r ≠ inr out_of_fuel /\ exists d, trace s' = trace s ++ d /\ P (submissions d) r.

Lemma emits_calm {A} w (m : io A) : calm w m -> emits w (fun l _ => l = []) m.
Proof.
  intros Hm s s' r Hh H. destruct (calm_out _ _ _ _ _ Hm Hh H) as [((d & Hd & Hq) & _ & Hh') Hne].
  split_and!; [done|done|]. exists d. split; [done|by apply submissions_quiet].
Qed.

Lemma emits_weaken {A} w (P Q : list Act -> A + Failure -> Prop) (m : io A) : (forall l r, P l r -> Q l r) -> emits w P m -> emits w Q m.
Proof. intros HPQ Hm s s' r Hh H. destruct (Hm s s' r Hh H) as (? & ? & d & ? & ?). eauto 10. Qed.

(** The outcome of a sequence: the first part failed, or both parts ran. *)
Lemma emits_bind {A B} w (P : list Act -> A + Failure -> Prop) (Q : A -> list Act -> B + Failure -> Prop) (m : io A) (f : A -> io B) :
  emits w P m -> (forall a, emits w (Q a) (f a)) ->
  emits w (fun l r => (exists e, P l (inr e) /\ r = inr e) \/ exists a l1 l2, l = l1 ++ l2 /\ P l1 (inl a) /\ Q a l2 r) (io_bind m f).
Proof.
  intros Hm Hf s s' r Hh H. unfold io_bind in H. destruct (m s) as [s1 [a|e]] eqn:E; destruct (Hm s s1 _ Hh E) as (Hh1 & Hne & d & Hd & HP).
  - destruct (Hf a s1 s' r Hh1 H) as (Hh' & Hne' & k & Hk & HQ). split_and!; [done|done|]. exists (d ++ k).
    rewrite Hk, Hd, app_assoc, submissions_app. split; [done|]. right. eauto 10.
  - injection H as <- <-. split_and!; [done|congruence|]. exists d. split; [done|]. left. eauto.
Qed.

Lemma emits_ret {A} w (P : list Act -> A + Failure -> Prop) a : P [] (inl a) -> emits w P (io_ret a).
Proof. intros HP s s' r Hh [= <- <-]. split_and!; [done|done|]. exists []. by rewrite app_nil_r. Qed.
Lemma emits_throw {A} w (P : list Act -> A + Failure -> Prop) e : P [] (inr (failed (JsError e))) -> emits w P (io_throw e).
Proof. intros HP s s' r Hh [= <- <-]. split_and!; [done|done|]. exists []. by rewrite app_nil_r. Qed.

Lemma emits_seq {A B} w (P : list Act -> A + Failure -> Prop) (Q : list Act -> B + Failure -> Prop) (m : io A) (f : A -> io B) :
  emits w P m -> (forall a, emits w Q (f a)) ->
  emits w (fun l r => (exists e, P l (inr e) /\ r = inr e) \/ exists a l1 l2, l = l1 ++ l2 /\ P l1 (inl a) /\ Q l2 r) (io_bind m f).
Proof. intros Hm Hf. by apply emits_bind with (Q := fun _ => Q). Qed.

(** A quiet part before or after one that submits. *)
Lemma emits_after_calm {A B} w (Q : list Act -> B + Failure -> Prop) (m : io A) (f : A -> io B) :
  calm w m -> (forall a, emits w Q (f a)) -> (forall e, Q [] (inr e)) -> emits w Q (io_bind m f).
Proof.
  intros Hm Hf HQ. eapply emits_weaken; [|apply emits_bind with (Q := fun _ => Q); [by apply emits_calm|done]].
  intros l r [(e & -> & ->)|(a & l1 & l2 & -> & -> & H)]; [apply HQ|done].
Qed.

(** At most one transaction of [kind]; an outcome is what the rollup answered to it. *)
Definition er_once (w : World) (kind : string) (l : list Act) (r : (Z * option string) + Failure) : Prop :=
  (l = [] /\ forall x, r ≠ inl x) \/ exists tx, l = [a_submit_er tx kind] /\ forall x, r = inl x -> exists t, w_submit_er w t tx kind = inl x.

Lemma emits_executeEr w fo kind ixs wr : emits w (er_once w kind) (executeEr w fo kind ixs wr false).
Proof.
  intros s s' r Hh H. destruct (executeEr_run _ _ _ _ _ _ _ _ _ Hh H) as [[((d & Hd & Hq) & _ & Hh') [e ->]]|[(d & d1 & d2 & b & tx & Hd & _ & Hq & _ & Hr & _) [_ Hh']]].
  - split_and!; [done|done|]. exists d. split; [done|]. left. split; [by apply submissions_quiet|done].
  - split_and!; [done|rewrite Hr; by case_match|]. eexists. split; [exact Hd|]. right. exists tx.
    rewrite submissions_app, submissions_quiet by done. split; [done|]. intros x ->. exists (trace s ++ d). destruct (w_submit_er w _ tx kind); congruence.
Qed.

(** ** Trading a leg *)

Definition SEAT_KIND : string := "CreateV3TraderSeat".
Definition ORDER_KIND : string := "PlaceOrder".

(** The trader has a margin account: its own, or one the rollup has just accepted. *)
Definition seat_ready (w : World) (own : option SeatPosition) (seat : list Act) : Prop :=
  match own with
  | Some _ => seat = []
  | None => exists tx t accepted, seat = [a_submit_er tx SEAT_KIND] /\ w_submit_er w t tx SEAT_KIND = inl accepted
  end.

Definition available_of (own : option SeatPosition) : Z := match own with Some p => sp_availableCollateral p | None => 0 end.

(** The seat holds the margin, or a deposit of what is missing was claimed. *)
Definition margin_ready (w : World) (available margin : Z) (deposit : list Act) : Prop :=
  (margin <= available /\ deposit = []) \/ (available < margin /\ exists acts, submissions acts = deposit /\ deposit_sent w (inl tt) acts).

(** The submissions of a leg and its outcome: it stopped at the margin account, at the
    deposit, or it got to the order. *)
Inductive leg_sent (w : World) (plan : LegPlan) (leverage : number) (own : option SeatPosition) (price : number) : list Act -> LegResult + Failure -> Prop :=
  | stopped_opening seat e : (seat = [] \/ own = None /\ exists tx, seat = [a_submit_er tx SEAT_KIND]) -> leg_sent w plan leverage own price seat (inr e)
  | stopped_funding seat acts e :
      seat_ready w own seat -> deposit_sent w (inr e) acts -> leg_sent w plan leverage own price (seat ++ submissions acts) (inr e)
  | ordered seat deposit order margin answer r :
      seat_ready w own seat -> leg_margin (lp_quantity plan) price leverage = Ok margin -> margin_ready w (available_of own) margin deposit ->
      er_once w ORDER_KIND order answer ->
      r = match answer with inl a => inl (mkLegResult (vm_symbol (lp_market plan)) (lp_quantity plan) price (snd a)) | inr e => inr e end ->
      leg_sent w plan leverage own price (seat ++ deposit ++ order) r.

Section Leg.
Context (w : World) (fo : option FreshOptions) (web3 : Web3) (spl : Spl) (connected : bool).
Context (aggregate : list Act -> string -> answer (option (list SeatPosition))) (accountBytes : list Act -> string -> answer (list Z)).
Context (env : CustodyEnv) (marketVault : option string).

Lemma emits_leg_seat market wallet execution own i :
  emits w (fun l r => match r with inl _ => seat_ready w own l | inr _ => l = [] \/ own = None /\ exists tx, l = [a_submit_er tx SEAT_KIND] end)
    (leg_seat w fo web3 market wallet execution own i).
Proof.
  unfold leg_seat. destruct own as [p|].
  - eapply emits_weaken; [|apply emits_calm; calm]. intros l [] ->; [done|by left].
  - apply emits_after_calm; [calm|intros _|by left]. apply emits_after_calm; [calm|intros seat|by left].
    eapply emits_weaken; [|apply emits_bind with (Q := fun _ l _ => l = []); [apply emits_executeEr|intros; apply emits_calm; calm]].
    intros l r [(e & H & ->)|(a & l1 & l2 & -> & H & ->)].
    + destruct H as [[-> _]|(tx & -> & _)]; eauto.
    + rewrite app_nil_r. destruct H as [[_ H]|(tx & -> & H)]; [by destruct (H a)|]. destruct (H a eq_refl) as [t Ht]. destruct r; [by exists tx, t, a|eauto].
Qed.

Lemma emits_leg_deposit market wallet available margin i :
  emits w (fun l r => match r with
                      | inl _ => margin_ready w available margin l
                      | inr e => exists acts, submissions acts = l /\ deposit_sent w (inr e) acts
                      end) (leg_deposit w fo web3 env marketVault market wallet available margin i).
Proof.
  assert (forall e : Failure, exists acts, submissions acts = [] /\ deposit_sent w (inr e) acts) as Hnone by (intros e; exists []; split; [done|by left]).
  unfold leg_deposit. destruct (available <? margin) eqn:E; zbool.
  - apply emits_after_calm; [calm|intros accounts|apply Hnone]. destruct accounts as [accounts|].
    + apply emits_after_calm; [calm|intros _|apply Hnone]. intros s s' r Hh H.
      destruct (rollup_deposit_spec _ _ _ _ _ _ _ _ Hh H) as (Hr & _ & Hh' & acts & Ht & Hs). split_and!; [done|done|]. exists acts. split; [done|].
      destruct r as [[]|e]; [right|]; eauto.
    + apply emits_throw, Hnone.
  - eapply emits_weaken; [|apply emits_calm; calm]. intros l [] ->; [left; split; [lia|done]|apply Hnone].
Qed.

Lemma emits_leg_order market wallet i long quantity price clock id :
  emits w (er_once w ORDER_KIND) (leg_order w fo web3 spl market wallet i long quantity price clock id).
Proof.
  assert (forall e : Failure, er_once w ORDER_KIND [] (inr e)) as Hnone by (intros e; by left).
  unfold leg_order. apply emits_after_calm; [calm|intros built|apply Hnone]. destruct built as [error|[ixs wr]].
  - apply emits_throw, Hnone.
  - apply emits_after_calm; [calm|intros _; apply emits_executeEr|apply Hnone].
Qed.

Lemma emits_leg_reads market :
  emits w (fun l r => l = [] /\ forall x, r = inl x -> exists t t', aggregate t (vm_core market) = inl (fst x) /\ accountBytes t' (vm_oracleSnapshot market) = inl (snd x))
    (leg_reads aggregate accountBytes market).
Proof.
  intros s s' r Hh H. unfold leg_reads, call in H. cbn in H. injection H as <- <-.
  split_and!; [|by destruct (aggregate _ _); [destruct (accountBytes _ _)|]|exists [a_aggregate (vm_core market); a_account (vm_oracleSnapshot market)]].
  - apply honest_grow with s [a_aggregate (vm_core market); a_account (vm_oracleSnapshot market)]; [done|cbn; by rewrite <- app_assoc|done].
  - cbn. rewrite <- app_assoc. split_and!; [done|done|]. intros [a b] E.
    destruct (aggregate (trace s) _) as [a'|] eqn:Ea; [|done].
    destruct (accountBytes _ _) as [b'|] eqn:Eb; simplify_eq/=. eauto.
Qed.

Definition order_result (plan : LegPlan) (price : number) (r : (Z * option string) + Failure) : LegResult + Failure :=
  match r with inl a => inl (mkLegResult (vm_symbol (lp_market plan)) (lp_quantity plan) price (snd a)) | inr e => inr e end.

(** The deposit and the order. *)
Lemma emits_funded_order (plan : LegPlan) long wallet id own i price clock margin :
  emits w (fun l r => (exists acts e, l = submissions acts /\ r = inr e /\ deposit_sent w (inr e) acts)
      \/ exists deposit order answer, l = deposit ++ order /\ margin_ready w (available_of own) margin deposit /\ er_once w ORDER_KIND order answer
         /\ r = order_result plan price answer)
    (_ <- leg_deposit w fo web3 env marketVault (lp_market plan) wallet (available_of own) margin i;
     result <- leg_order w fo web3 spl (lp_market plan) wallet i long (lp_quantity plan) price clock id;
     io_ret (mkLegResult (vm_symbol (lp_market plan)) (lp_quantity plan) price (snd result)))%io.
Proof.
  eapply emits_weaken; [|apply emits_seq; [apply emits_leg_deposit|intros _; apply emits_bind with (Q := fun a l r => l = [] /\ r = order_result plan price (inl a));
    [apply emits_leg_order|intros a; by apply emits_ret]]].
  cbn. intros l r [(e & (acts & <- & H) & ->)|([] & l1 & l2 & -> & H1 & [(e & H2 & ->)|(a & l3 & l4 & -> & H2 & -> & ->)])].
  - left. eauto.
  - right. exists l1, l2, (inr e). done.
  - right. exists l1, l3, (inl a). by rewrite app_nil_r.
Qed.

(** What follows the reads. *)
Lemma emits_leg_rest (plan : LegPlan) long leverage wallet id own i execution price clock :
  emits w (leg_sent w plan leverage own price)
    (_ <- leg_seat w fo web3 (lp_market plan) wallet execution own i;
     margin <- io_result (leg_margin (lp_quantity plan) price leverage);
     _ <- leg_deposit w fo web3 env marketVault (lp_market plan) wallet (available_of own) margin i;
     result <- leg_order w fo web3 spl (lp_market plan) wallet i long (lp_quantity plan) price clock id;
     io_ret (mkLegResult (vm_symbol (lp_market plan)) (lp_quantity plan) price (snd result)))%io.
Proof.
  destruct (leg_margin (lp_quantity plan) price leverage) as [margin|e] eqn:Em; cbn [io_result].
  - eapply emits_weaken; [|apply emits_seq; [apply emits_leg_seat|intros _; apply emits_funded_order]]. cbn.
    intros l r [(e & H & ->)|(a & l1 & l2 & -> & Hs & [(acts & e & -> & -> & H)|(deposit & order & answer & -> & Hm & Ho & ->)])].
    + by apply stopped_opening.
    + by apply stopped_funding.
    + by eapply ordered.
  - eapply emits_weaken; [|apply emits_seq; [apply emits_leg_seat|intros _; apply emits_throw with (P := fun l r => l = [] /\ r = inr (failed (JsError e))); done]].
    cbn. intros l r [(e' & H & ->)|(a & l1 & l2 & -> & Hs & -> & ->)]; [by apply stopped_opening|].
    change (@nil Act) with (submissions []). apply stopped_funding; [done|by left].
Qed.
End Leg.


(** ** The accounts and the plan *)

Lemma derived_core_authority web3 c a session e : deriveV3ExecutionAccounts web3 c a session = Ok e -> ClientInstructions.core e = c /\ authority e = a.
Proof. unfold deriveV3ExecutionAccounts. intros H. do 4 apply result_bind_Ok in H as (? & _ & H). by injection H as <-. Qed.

(** Deposits and withdrawals name one token account, the associated account of the
    trader for the mint, one vault and one mint, and the wallet as authority; the
    withdrawal carries the oracle snapshot exactly when the deposit does. *)
Theorem custody_accounts_spec web3 env wallet marketAddress vault i market accounts :
  resolveCustodyAccounts web3 env wallet marketAddress vault i market = Ok (Some accounts) ->
  exists trader mint program source,
    wallet = Some trader /\ deriveCollateralTokenAccount web3 trader mint program = Ok source
    /\ rc_seatIndex accounts = i
    /\ cu_authority (rc_legacy accounts) = addr_text trader /\ cu_sourceOrDestination (rc_legacy accounts) = addr_text source
    /\ forall d a, rc_v3 accounts = Some (d, a) ->
         da_authority d = addr_text trader /\ authority (wa_execution a) = addr_text trader
         /\ da_source d = addr_text source /\ wa_destination a = addr_text source
         /\ da_mint d = addr_text mint /\ wa_mint a = da_mint d /\ wa_vault a = da_vault d
         /\ ClientInstructions.core (wa_execution a) = da_core d /\ oracleSnapshot (wa_execution a) = da_oracleSnapshot d
         /\ da_seatShard d = shard_of (wa_execution a) i.
Proof.
  unfold resolveCustodyAccounts. destruct (some_text wallet) as [trader|] eqn:Ew; [|done]. destruct (some_text marketAddress) as [key|]; [|done].
  assert (wallet = Some trader) as -> by (destruct wallet as [u|]; cbn in Ew; [case_bool_decide; by simplify_eq|done]). clear Ew. cbv zeta.
  set (coreText := some_text _). set (manifest := match coreText with Some _ => _ | None => _ end).
  intros H. do 4 apply result_bind_Ok in H as (? & _ & H).
  do 4 (match type of H with context [some_text ?x] => destruct (some_text x) as [?|]; [|done] end).
  apply result_bind_Ok in H as (source & Esrc & H). do 4 eexists. split; [done|]. split; [exact Esrc|].
  destruct coreText as [c|]; [|by injection H as <-].
  apply result_bind_Ok in H as (e & He & H). apply derived_core_authority in He as [Hc Ha]. injection H as <-. cbn.
  split_and!; try done. intros d a [= <- <-]. cbn. done.
Qed.

(** A plan has a leg for each leg of the basket, in order, at the price of its
    market's snapshot, with at least one share and the margin of those shares. *)
Theorem plan_basket_spec marketFor accountBytes basket notionalUsd leverage plan :
  planBasket marketFor accountBytes basket notionalUsd leverage = Ok plan ->
  Forall2 (fun leg p => lp_market p = marketFor (fst leg) /\ 1 <= lp_quantity p
    /\ lp_marginUsd p = marginFor (lp_quantity p) (lp_price p) leverage
    /\ exists bytes snapshot, accountBytes (vm_oracleSnapshot (lp_market p)) = Ok bytes /\ Abi.decodeOracleSnapshotV3 bytes = Ok snapshot
       /\ lp_price p = snapshot_price (Abi.sv_price snapshot)
       /\ sharesFor (num_mul notionalUsd (snd leg)) (lp_price p) = Ok (lp_quantity p)) (bk_legs basket) plan.
Proof.
  unfold planBasket. rewrite mapR_Ok. intros H. eapply list.Forall2_impl; [exact H|]. clear H. intros [symbol weight] p. cbn [fst snd].
  destruct (accountBytes _) as [bytes|] eqn:Eb; [|done]. cbn. unfold plan_leg.
  destruct (Abi.decodeOracleSnapshotV3 bytes) as [snapshot|] eqn:Es; [|done]. cbn.
  destruct (sharesFor _ _) as [q|] eqn:Eq; [|done]. cbn. intros [= <-]. cbn. pose proof (sharesFor_positive _ _ _ Eq).
  split_and!; try done. by exists bytes, snapshot.
Qed.

(** A basket runs every leg, and reports results only when every leg did. *)
Theorem basket_outcome run plan :
  (tradeBasket run plan).1 = (fun leg => (run leg).1) <$> plan
  /\ forall results, (tradeBasket run plan).2 = inl results <-> Forall2 (fun leg a => (run leg).2 = inl a) plan results.
Proof.
  induction plan as [|leg rest [IH1 IH2]]; cbn.
  { split; [done|]. intros results. split; [by intros [= <-]|by inversion 1]. }
  destruct (run leg) as [s r] eqn:El, (tradeBasket run rest) as [states rs]. cbn in *. split; [by rewrite IH1|]. intros results. split.
  - intros H. destruct r as [a|], rs as [l|]; simplify_eq. constructor; [by rewrite El|]. by apply IH2.
  - inversion 1 as [|? a ? l Ha Hl]; subst. rewrite El in Ha. cbn in Ha. subst r. apply IH2 in Hl. by rewrite Hl.
Qed.

(** ** A concrete leg *)

Module BasketSample.
Definition market : V3Market := mkV3Market "OPENAI-PERP" "core" "snapshot".
Definition env : CustodyEnv := mkCustodyEnv None None None None None (Some "core") (Some "mint") (Some "snapshot").
(** A snapshot at 100 dollars. *)
Definition snapshot : list Z := Abi.STKORS03 ++ [3; 0; 1] ++ replicate 42 0 ++ le_split 8 10000000 ++ replicate 26 0 ++ [1] ++ replicate 40 0.
Definition plan : LegPlan := mkLegPlan market (Fin (inject_Z 100)) 2 (marginFor 2 (Fin (inject_Z 100)) (Fin 5)).
Definition run : St * (LegResult + Failure) :=
  tradeLeg Sample.world (Some Sample.fresh) Sample.web3 Sample.spl true (fun _ _ => inl (Some [])) (fun _ _ => inl snapshot) env None
    plan true (Fin 5) "trader" 77 Sample.start.
End BasketSample.

