(* ===== verification/ErSocket.v ===== *)
(** * The browser's confirmation socket

    lib/er-socket.ts: the one WebSocket to the rollup that is shared by all
    transactions, subscribing to a signature before it is sent and settling on the
    rollup's push.  The object is a state machine over calls of [watch], socket
    events, messages and timers; the promises of a watch are its phase and its
    outcome, which can be set once. *)

From S2P Require Import Prelude.

(** What [watch] awaits: the connection, the acknowledgement of its request, then the
    notification; a rejected [watch] threw. *)
Inductive Phase := ph_connecting (socket : nat) | ph_subscribing (id : Z) | ph_watching (subscription : Z) | ph_rejected.

(** [wt_done] is the outcome of [done]: [Some None] is null, a timeout.  [wt_timer] is
    the timer of [done]. *)
Record Watch := mkWatch { wt_phase : Phase; wt_done : option (option bool); wt_timer : bool }.

Record ErSocket := mkErSocket {
  es_ws : option nat; es_opening : option nat; es_nextId : Z; es_acks : gmap Z nat; es_waiters : gmap Z nat;
  (** sockets that are open, the next one's number, and the calls of [watch] so far *)
  es_ready : gset nat; es_sockets : nat; es_watches : list Watch }.

Definition with_connection (ws opening : option nat) (ready : gset nat) (sockets : nat) (e : ErSocket) : ErSocket :=
  mkErSocket ws opening (es_nextId e) (es_acks e) (es_waiters e) ready sockets (es_watches e).
Definition with_watches (acks waiters : gmap Z nat) (ws : list Watch) (e : ErSocket) : ErSocket :=
  mkErSocket (es_ws e) (es_opening e) (es_nextId e) acks waiters (es_ready e) (es_sockets e) ws.

(** The socket a call of [connect] resolves to at once, or the one being opened. *)
Definition connect (e : ErSocket) : ErSocket * (nat + nat) :=
  match es_ws e with
  | Some s => if decide (s ∈ es_ready e) then (e, inl s)
      else match es_opening e with
      | Some o => (e, inr o)
      | None => (with_connection (es_ws e) (Some (es_sockets e)) (es_ready e) (S (es_sockets e)) e, inr (es_sockets e))
      end
  | None =>
      match es_opening e with
      | Some o => (e, inr o)
      | None => (with_connection None (Some (es_sockets e)) (es_ready e) (S (es_sockets e)) e, inr (es_sockets e))
      end
  end.

Definition set_phase (i : nat) (p : Phase) (ws : list Watch) : list Watch := alter (fun w => mkWatch p (wt_done w) (wt_timer w)) i ws.
(** A promise settles once. *)
Definition settle (i : nat) (r : option bool) (ws : list Watch) : list Watch :=
  alter (fun w => mkWatch (wt_phase w) (Some (default r (wt_done w))) (wt_timer w)) i ws.
Definition set_timer (i : nat) (b : bool) (ws : list Watch) : list Watch := alter (fun w => mkWatch (wt_phase w) (wt_done w) b) i ws.

(** A watch continues after its connection: with the request, or with the rejection. *)
Definition subscribe (e : ErSocket) (i : nat) : ErSocket :=
  match wt_phase <$> es_watches e !! i with
  | Some (ph_connecting _) =>
      mkErSocket (es_ws e) (es_opening e) (es_nextId e + 1) (<[es_nextId e := i]> (es_acks e)) (es_waiters e) (es_ready e) (es_sockets e)
        (set_phase i (ph_subscribing (es_nextId e)) (es_watches e))
  | _ => e
  end.
Definition reject (e : ErSocket) (i : nat) : ErSocket :=
  match wt_phase <$> es_watches e !! i with
  | Some (ph_connecting _) => with_watches (es_acks e) (es_waiters e) (set_phase i ph_rejected (es_watches e)) e
  | _ => e
  end.

(** The watches that await a socket, in the order of their calls. *)
Definition awaiting (s : nat) (e : ErSocket) : list nat :=
  omap (fun x => match wt_phase x.2 with ph_connecting o => if decide (o = s) then Some x.1 else None | _ => None end) (imap pair (es_watches e)).

Definition watch (e : ErSocket) : ErSocket :=
  let i := length (es_watches e) in
  let '(e, c) := connect e in
  match c with
  | inl s => subscribe (with_watches (es_acks e) (es_waiters e) (es_watches e ++ [mkWatch (ph_connecting s) None false]) e) i
  | inr o => with_watches (es_acks e) (es_waiters e) (es_watches e ++ [mkWatch (ph_connecting o) None false]) e
  end.

Definition onopen (s : nat) (e : ErSocket) : ErSocket :=
  foldl subscribe (with_connection (Some s) None ({[s]} ∪ es_ready e) (es_sockets e) e) (awaiting s e).

Definition onerror (s : nat) (e : ErSocket) : ErSocket :=
  foldl reject (with_connection (es_ws e) None (es_ready e) (es_sockets e) e) (awaiting s e).

Definition onclose (s : nat) (e : ErSocket) : ErSocket :=
  with_connection (if decide (es_ws e = Some s) then None else es_ws e) (es_opening e) (es_ready e ∖ {[s]}) (es_sockets e) e.

Definition on_ack (id subscription : Z) (e : ErSocket) : ErSocket :=
  match es_acks e !! id with
  | None => e
  | Some i => with_watches (delete id (es_acks e)) (<[subscription := i]> (es_waiters e)) (set_timer i true (set_phase i (ph_watching subscription) (es_watches e))) e
  end.

Definition on_notification (subscription : Z) (ok : bool) (e : ErSocket) : ErSocket :=
  match es_waiters e !! subscription with
  | None => e
  | Some i => with_watches (es_acks e) (delete subscription (es_waiters e)) (settle i (Some ok) (es_watches e)) e
  end.

Definition ack_timeout (id : Z) (e : ErSocket) : ErSocket :=
  match es_acks e !! id with
  | None => e
  | Some i => with_watches (delete id (es_acks e)) (es_waiters e) (set_phase i ph_rejected (es_watches e)) e
  end.

Definition done_timeout (i : nat) (e : ErSocket) : ErSocket :=
  match es_watches e !! i with
  | Some (mkWatch (ph_watching subscription) _ true) =>
      let ws := set_timer i false (es_watches e) in
      match es_waiters e !! subscription with
      | Some _ => with_watches (es_acks e) (delete subscription (es_waiters e)) (settle i None ws) e
      | None => with_watches (es_acks e) (es_waiters e) ws e
      end
  | _ => e
  end.

Inductive SocketInput :=
  | si_watch | si_open (s : nat) | si_error (s : nat) | si_closing (s : nat) | si_close (s : nat)
  | si_ack (id subscription : Z) | si_notification (subscription : Z) (ok : bool) | si_ack_timeout (id : Z) | si_done_timeout (i : nat).

Definition socket_step (e : ErSocket) (i : SocketInput) : ErSocket :=
  match i with
  | si_watch => watch e
  | si_open s => onopen s e
  | si_error s => onerror s e
  | si_closing s => with_connection (es_ws e) (es_opening e) (es_ready e ∖ {[s]}) (es_sockets e) e
  | si_close s => onclose s e
  | si_ack id subscription => on_ack id subscription e
  | si_notification subscription ok => on_notification subscription ok e
  | si_ack_timeout id => ack_timeout id e
  | si_done_timeout i => done_timeout i e
  end.

Definition new_ErSocket : ErSocket := mkErSocket None None 1 ∅ ∅ ∅ 0 [].
Definition socket_run (inputs : list SocketInput) : ErSocket := foldl socket_step new_ErSocket inputs.

(** ** Watches settle *)

Lemma alter_insert (f : Watch -> Watch) i (l : list Watch) w : l !! i = Some w -> alter f i l = <[i := f w]> l.
Proof.
  intros Hi. apply list_eq. intros j. destruct (decide (j = i)) as [->|Hne].
  - rewrite list_lookup_alter, decide_True, list_lookup_insert_eq by (done || by eapply lookup_lt_Some). by rewrite Hi.
  - by rewrite list_lookup_alter_ne, list_lookup_insert_ne by done.
Qed.

Record inv (used : list Z) (e : ErSocket) : Prop := mkInv {
  iv_acks : forall id i, es_acks e !! id = Some i <-> exists w, es_watches e !! i = Some w /\ wt_phase w = ph_subscribing id;
  iv_ids : forall id i, es_acks e !! id = Some i -> id < es_nextId e;
  iv_waiters : forall sub i, es_waiters e !! sub = Some i <-> exists w, es_watches e !! i = Some w /\ wt_phase w = ph_watching sub /\ wt_done w = None;
  iv_timer : forall i w sub, es_watches e !! i = Some w -> wt_phase w = ph_watching sub -> wt_done w = None -> wt_timer w = true;
  iv_used : forall i w sub, es_watches e !! i = Some w -> wt_phase w = ph_watching sub -> sub ∈ used;
  iv_unique : forall i j w v sub, es_watches e !! i = Some w -> es_watches e !! j = Some v -> wt_phase w = ph_watching sub -> wt_phase v = ph_watching sub -> i = j;
  iv_idle : forall i w, es_watches e !! i = Some w -> (forall sub, wt_phase w ≠ ph_watching sub) -> wt_done w = None /\ wt_timer w = false }.

Lemma inv_connection used e ws o r n : inv used e -> inv used (with_connection ws o r n e).
Proof. by intros []. Qed.

(** One watch goes from [old] to [new], with the maps that follow it. *)
Lemma inv_update used used' e i old new nextId acks waiters :
  inv used e -> es_watches e !! i = Some old -> used ⊆ used' -> es_nextId e <= nextId ->
  (forall id j, acks !! id = Some j <-> (j ≠ i /\ es_acks e !! id = Some j) \/ (j = i /\ wt_phase new = ph_subscribing id)) ->
  (forall id, wt_phase new = ph_subscribing id -> id < nextId) ->
  (forall sub j, waiters !! sub = Some j <-> (j ≠ i /\ es_waiters e !! sub = Some j) \/ (j = i /\ wt_phase new = ph_watching sub /\ wt_done new = None)) ->
  (forall sub, wt_phase new = ph_watching sub -> (wt_done new = None -> wt_timer new = true) /\ sub ∈ used' /\ (wt_phase old = ph_watching sub \/ sub ∉ used)) ->
  ((forall sub, wt_phase new ≠ ph_watching sub) -> wt_done new = None /\ wt_timer new = false) ->
  inv used' (mkErSocket (es_ws e) (es_opening e) nextId acks waiters (es_ready e) (es_sockets e) (<[i := new]> (es_watches e))).
Proof.
  intros [H1 H2 H3 H4 H5 H6 H7] Ho Hu Hid Ha Hids Hw Hnew Hidle.
  assert (forall j w, <[i := new]> (es_watches e) !! j = Some w <-> (j = i /\ w = new) \/ (j ≠ i /\ es_watches e !! j = Some w)) as Hl.
  { intros j w. rewrite list_lookup_insert_Some. apply lookup_lt_Some in Ho. naive_solver. }
  split; cbn.
  - intros id j. rewrite Ha, H1. setoid_rewrite Hl. naive_solver.
  - intros id j [[_ Hj]|[_ Hp]]%Ha; [apply H2 in Hj; lia|by apply Hids].
  - intros sub j. rewrite Hw, H3. setoid_rewrite Hl. naive_solver.
  - intros j w sub [[-> ->]|[Hne Hj]]%Hl Hp Hd; [by apply (Hnew sub)|by eapply H4].
  - intros j w sub [[-> ->]|[Hne Hj]]%Hl Hp; [by apply Hnew|]. apply Hu. by eapply H5.
  - intros j k w v sub [[-> ->]|[Hne Hj]]%Hl [[-> ->]|[Hne' Hk]]%Hl Hp Hq; try done; try by eapply H6.
    + destruct (Hnew sub Hp) as (_ & _ & [Hold|Hfresh]); [by eapply H6|]. destruct Hfresh. by eapply H5.
    + destruct (Hnew sub Hq) as (_ & _ & [Hold|Hfresh]); [by eapply H6|]. destruct Hfresh. by eapply H5.
  - intros j w [[-> ->]|[Hne Hj]]%Hl Hp; [by apply Hidle|by eapply H7].
Qed.

Lemma inv_subscribe used e i : inv used e -> inv used (subscribe e i).
Proof.
  intros Hi. unfold subscribe, set_phase. destruct (es_watches e !! i) as [[p dn tm]|] eqn:Ei; cbn; [|done]. destruct p as [s| | |]; try done.
  destruct (iv_idle _ _ Hi _ _ Ei) as [Hd Ht]; [done|]. cbn in Hd, Ht. subst. rewrite (alter_insert _ _ _ _ Ei). cbn.
  eapply (inv_update used); try done; cbn; try lia; try (intros; simplify_eq; lia).
  - intros id j. rewrite lookup_insert_Some. pose proof (iv_ids _ _ Hi id j). split.
    + intros [[<- <-]|[Hne Hj]]; [by right|left]. split; [|done]. intros ->. apply (iv_acks _ _ Hi) in Hj as (w & Hw & Hp). by simplify_eq.
    + intros [[Hne Hj]|[-> [= <-]]]; [right|by left]. split; [|done]. intros <-. specialize (H Hj). lia.
  - intros sub j. split; [|by intros [[_ ?]|(_ & ? & _)]]. intros Hj. left. split; [|done]. intros ->. apply (iv_waiters _ _ Hi) in Hj as (w & Hw & Hp & _). by simplify_eq.
Qed.

Lemma inv_reject used e i : inv used e -> inv used (reject e i).
Proof.
  intros Hi. unfold reject, set_phase, with_watches. destruct (es_watches e !! i) as [[p dn tm]|] eqn:Ei; cbn; [|done]. destruct p as [s| | |]; try done.
  destruct (iv_idle _ _ Hi _ _ Ei) as [Hd Ht]; [done|]. cbn in Hd, Ht. subst. rewrite (alter_insert _ _ _ _ Ei). cbn.
  eapply (inv_update used); try done; cbn; try lia.
  - intros id j. split; [|by intros [[_ ?]|[_ ?]]]. intros Hj. left. split; [|done]. intros ->. apply (iv_acks _ _ Hi) in Hj as (w & Hw & Hp). by simplify_eq.
  - intros sub j. split; [|by intros [[_ ?]|(_ & ? & _)]]. intros Hj. left. split; [|done]. intros ->. apply (iv_waiters _ _ Hi) in Hj as (w & Hw & Hp & _). by simplify_eq.
Qed.

Lemma inv_foldl (f : ErSocket -> nat -> ErSocket) used l e : (forall e i, inv used e -> inv used (f e i)) -> inv used e -> inv used (foldl f e l).
Proof. intros Hf. revert e. induction l as [|i l IH]; intros e He; [done|]. apply IH. by apply Hf. Qed.

(** A new watch that awaits a socket. *)
Lemma socket_inv_new used e s : inv used e -> inv used (with_watches (es_acks e) (es_waiters e) (es_watches e ++ [mkWatch (ph_connecting s) None false]) e).
Proof.
  intros [H1 H2 H3 H4 H5 H6 H7].
  assert (forall j w, (es_watches e ++ [mkWatch (ph_connecting s) None false]) !! j = Some w ->
    es_watches e !! j = Some w \/ w = mkWatch (ph_connecting s) None false) as Hl.
  { intros j w. rewrite lookup_app_Some. intros [?|[_ Hj]]; [by left|right]. by apply list_lookup_singleton_Some in Hj as [_ <-]. }
  assert (forall j w, es_watches e !! j = Some w -> (es_watches e ++ [mkWatch (ph_connecting s) None false]) !! j = Some w) as Hr.
  { intros j w Hj. by apply lookup_app_l_Some. }
  split; cbn.
  - intros id i. rewrite H1. split; intros (w & Hw & Hp); exists w; [by split; [apply Hr|]|]. apply Hl in Hw as [Hw| ->]; done.
  - done.
  - intros sub i. rewrite H3. split; intros (w & Hw & Hp & Hd); exists w; [by split; [apply Hr|]|]. apply Hl in Hw as [Hw| ->]; done.
  - intros i w sub [Hw| ->]%Hl Hp; [by eapply H4|done].
  - intros i w sub [Hw| ->]%Hl Hp; [by eapply H5|done].
  - intros i j w v sub [Hw| ->]%Hl [Hv| ->]%Hl Hp Hq; try done. by eapply H6.
  - intros i w [Hw| ->]%Hl Hp; [by eapply H7|done].
Qed.

Lemma acked_idle used e id i : inv used e -> es_acks e !! id = Some i -> es_watches e !! i = Some (mkWatch (ph_subscribing id) None false).
Proof.
  intros Hi Ha. apply (iv_acks _ _ Hi) in Ha as ([p d t] & Hw & Hp). cbn in Hp. subst. destruct (iv_idle _ _ Hi _ _ Hw) as [Hd Ht]; [done|]. cbn in *. by subst.
Qed.

Lemma inv_ack used e id sub : inv used e -> sub ∉ used -> inv (sub :: used) (on_ack id sub e).
Proof.
  intros Hi Hf. unfold on_ack. destruct (es_acks e !! id) as [i|] eqn:Ea.
  2: { destruct Hi. split; try done. intros i w s Hw Hp. right. by eapply iv_used0. }
  pose proof (acked_idle _ _ _ _ Hi Ea) as Hw. unfold with_watches, set_timer, set_phase. rewrite (alter_insert _ _ _ _ Hw). cbn.
  rewrite (alter_insert _ i _ (mkWatch (ph_watching sub) None false)) by (apply list_lookup_insert_eq; by eapply lookup_lt_Some).
  rewrite list_insert_insert_eq. cbn. eapply (inv_update used); try done; cbn; [set_solver| | | |].
  - intros id' j. rewrite lookup_delete_Some. split; [|by intros [[Hne Hj]|[_ ?]]; [split; [|done]; intros <-; congruence|]].
    intros [Hne Hj]. left. split; [|done]. intros ->. pose proof (acked_idle _ _ _ _ Hi Hj). congruence.
  - intros s j. rewrite lookup_insert_Some. split.
    + intros [[<- <-]|[Hne Hj]]; [by right|left]. split; [|done]. intros ->. apply (iv_waiters _ _ Hi) in Hj as (w & Hw' & Hp & _). by simplify_eq.
    + intros [[Hne Hj]|(-> & [= ->] & _)]; [right|by left]. split; [|done]. intros <-. apply (iv_waiters _ _ Hi) in Hj as (w & Hw' & Hp & _). by apply Hf, (iv_used _ _ Hi _ _ _ Hw').
  - intros s [= <-]. split_and!; [done|by left|by right].
  - intros H. by destruct (H sub).
Qed.

Lemma inv_ack_timeout used e id : inv used e -> inv used (ack_timeout id e).
Proof.
  intros Hi. unfold ack_timeout. destruct (es_acks e !! id) as [i|] eqn:Ea; [|done].
  pose proof (acked_idle _ _ _ _ Hi Ea) as Hw. unfold with_watches, set_phase. rewrite (alter_insert _ _ _ _ Hw). cbn.
  eapply (inv_update used); try done; cbn.
  - intros id' j. rewrite lookup_delete_Some. split; [|by intros [[Hne Hj]|[_ ?]]; [split; [|done]; intros <-; congruence|]].
    intros [Hne Hj]. left. split; [|done]. intros ->. pose proof (acked_idle _ _ _ _ Hi Hj). congruence.
  - intros s j. split; [|by intros [[_ ?]|(_ & ? & _)]]. intros Hj. left. split; [|done]. intros ->. apply (iv_waiters _ _ Hi) in Hj as (w & Hw' & Hp & _). by simplify_eq.
Qed.

(** The watch of a waiter settles and the waiter goes. *)
Lemma inv_settle used e sub i w t :
  inv used e -> es_waiters e !! sub = Some i -> es_watches e !! i = Some w -> forall r,
  inv used (with_watches (es_acks e) (delete sub (es_waiters e)) (<[i := mkWatch (ph_watching sub) (Some r) t]> (es_watches e)) e).
Proof.
  intros Hi Hs Hw r. apply (iv_waiters _ _ Hi) in Hs as (w' & Hw' & Hp & Hd). simplify_eq.
  eapply (inv_update used); try done; cbn.
  - intros id j. split; [|by intros [[_ ?]|[_ ?]]]. intros Hj. left. split; [|done]. intros ->. pose proof (acked_idle _ _ _ _ Hi Hj). by simplify_eq.
  - intros s j. rewrite lookup_delete_Some. split; [|intros [[Hne Hj]|(_ & _ & ?)]; [|done]].
    + intros [Hne Hj]. left. split; [|done]. intros ->. apply (iv_waiters _ _ Hi) in Hj as (v & Hv & Hpv & _). simplify_eq. congruence.
    + split; [|done]. intros <-. apply (iv_waiters _ _ Hi) in Hj as (v & Hv & Hpv & _). by destruct Hne, (iv_unique _ _ Hi _ _ _ _ _ Hv Hw' Hpv Hp).
  - intros s [= <-]. split_and!; [done|by eapply (iv_used _ _ Hi)|by left].
  - intros H. by destruct (H sub).
Qed.

Lemma inv_notification used e sub ok : inv used e -> inv used (on_notification sub ok e).
Proof.
  intros Hi. unfold on_notification. destruct (es_waiters e !! sub) as [i|] eqn:Es; [|done].
  pose proof Es as Hw. apply (iv_waiters _ _ Hi) in Hw as ([p d t] & Hw & Hp & Hd). cbn in Hp, Hd. subst.
  unfold settle. rewrite (alter_insert _ _ _ _ Hw). cbn. by eapply inv_settle.
Qed.

Lemma inv_done_timeout used e i : inv used e -> inv used (done_timeout i e).
Proof.
  intros Hi. unfold done_timeout. destruct (es_watches e !! i) as [[[]  d []]|] eqn:Ei; try done.
  destruct (es_waiters e !! subscription) as [j|] eqn:Es.
  - pose proof Es as Hw. apply (iv_waiters _ _ Hi) in Hw as ([p d' t] & Hw & Hp & Hd). cbn in Hp, Hd. subst.
    assert (j = i) as -> by (by eapply (iv_unique _ _ Hi)). simplify_eq. unfold settle, set_timer. rewrite (alter_insert _ _ _ _ Ei). cbn.
    rewrite (alter_insert _ i _ (mkWatch (ph_watching subscription) None false)) by (apply list_lookup_insert_eq; by eapply lookup_lt_Some).
    rewrite list_insert_insert_eq. cbn. by eapply inv_settle.
  - assert (d ≠ None) as Hd. { intros ->. assert (es_waiters e !! subscription = Some i) as H by (apply (iv_waiters _ _ Hi); by eexists). congruence. }
    unfold set_timer, with_watches. rewrite (alter_insert _ _ _ _ Ei). cbn. eapply (inv_update used); try done; cbn.
    + intros id j. split; [|by intros [[_ ?]|[_ ?]]]. intros Hj. left. split; [|done]. intros ->. pose proof (acked_idle _ _ _ _ Hi Hj). by simplify_eq.
    + intros s j. split; [|by intros [[_ ?]|(_ & _ & ?)]]. intros Hj. left. split; [|done]. intros ->. apply (iv_waiters _ _ Hi) in Hj as (v & Hv & _ & Hdv). by simplify_eq.
    + intros s [= <-]. split_and!; [done|by eapply (iv_used _ _ Hi)|by left].
    + intros H. by destruct (H subscription).
Qed.

Definition acknowledged (i : SocketInput) : list Z := match i with si_ack _ sub => [sub] | _ => [] end.

Lemma inv_step used e i : inv used e -> (forall sub, sub ∈ acknowledged i -> sub ∉ used) -> inv (acknowledged i ++ used) (socket_step e i).
Proof.
  intros Hi Hf. destruct i; cbn.
  - unfold watch, connect. repeat case_match; simplify_eq; try (by apply socket_inv_new); try (apply inv_subscribe; by apply socket_inv_new);
      apply (socket_inv_new _ (with_connection _ _ _ _ _)); by apply inv_connection.
  - unfold onopen. apply inv_foldl; [intros; by apply inv_subscribe|by apply inv_connection].
  - unfold onerror. apply inv_foldl; [intros; by apply inv_reject|by apply inv_connection].
  - by apply inv_connection.
  - by apply inv_connection.
  - apply inv_ack; [done|]. apply Hf. by left.
  - by apply inv_notification.
  - by apply inv_ack_timeout.
  - by apply inv_done_timeout.
Qed.

Lemma inv_run inputs : NoDup (concat (acknowledged <$> inputs)) -> exists used, used ⊆ concat (acknowledged <$> inputs) /\ inv used (socket_run inputs).
Proof.
  induction inputs as [|i inputs IH] using rev_ind; intros Hn.
  - exists []. split; [done|]. split; try done; intros; try (split; [done|]); by intros (? & ? & ?).
  - rewrite fmap_app, concat_app in Hn |- *. apply list.NoDup_app in Hn as (Hn & Hd & _). destruct (IH Hn) as (used & Hsub & Hi). cbn in Hd |- *. rewrite app_nil_r in Hd |- *.
    exists (acknowledged i ++ used). split; [set_solver|]. unfold socket_run. rewrite foldl_app. cbn. apply inv_step; [done|].
    intros sub Hs Hu. apply (Hd sub); [by apply Hsub|done].
Qed.

Definition dones (e : ErSocket) : list (option (option bool)) := wt_done <$> es_watches e.

Lemma dones_alter (f : Watch -> Watch) (i : nat) (l : list Watch) : (forall w, wt_done (f w) = wt_done w) -> wt_done <$> alter f i l = wt_done <$> l.
Proof.
  intros Hf. apply list_eq. intros j. rewrite !list_lookup_fmap. destruct (decide (j = i)) as [->|Hne].
  - rewrite list_lookup_alter, decide_True by done. destruct (l !! i); cbn; [by rewrite Hf|done].
  - by rewrite list_lookup_alter_ne by done.
Qed.

Lemma dones_subscribe e i : dones (subscribe e i) = dones e.
Proof. unfold subscribe, dones. repeat case_match; cbn; try done. by apply dones_alter. Qed.
Lemma dones_reject e i : dones (reject e i) = dones e.
Proof. unfold reject, dones. repeat case_match; cbn; try done. by apply dones_alter. Qed.
Lemma dones_foldl (f : ErSocket -> nat -> ErSocket) l e : (forall e i, dones (f e i) = dones e) -> dones (foldl f e l) = dones e.
Proof. intros Hf. revert e. induction l as [|i l IH]; intros e; cbn; [done|]. by rewrite IH, Hf. Qed.

(** Only a notification and the timeout of [done] settle. *)
Lemma dones_step e i :
  match i with
  | si_notification _ _ | si_done_timeout _ => True
  | _ => dones e `prefix_of` dones (socket_step e i)
  end.
Proof.
  destruct i; cbn; try done.
  - unfold watch. destruct (connect e) as [e' c] eqn:Ec.
    assert (es_watches e' = es_watches e) as Hw by (unfold connect in Ec; repeat case_match; by simplify_eq).
    destruct c; [rewrite dones_subscribe|]; unfold dones; cbn; rewrite Hw, fmap_app; by apply prefix_app_r.
  - unfold onopen. by rewrite dones_foldl by apply dones_subscribe.
  - unfold onerror. by rewrite dones_foldl by apply dones_reject.
  - unfold on_ack, dones. case_match; [|done]. cbn. unfold set_timer, set_phase. by rewrite !dones_alter.
  - unfold ack_timeout, dones. case_match; [|done]. cbn. unfold set_phase. by rewrite dones_alter.
Qed.

(** C14. A watch settles.  When no subscription number is acknowledged twice, over every
    order of calls, socket events, messages and timers: a watch whose timer has
    fired has settled; one that has not settled is settled by the notification of
    its own subscription, with its outcome, or by its timer, with null; and nothing
    else settles it. *)
Theorem er_socket_settles inputs i w sub :
  NoDup (concat (acknowledged <$> inputs)) ->
  let e := socket_run inputs in
  es_watches e !! i = Some w -> wt_phase w = ph_watching sub ->
  (wt_timer w = false -> is_Some (wt_done w))
  /\ (wt_done w = None ->
       (forall ok, dones (socket_step e (si_notification sub ok)) !! i = Some (Some (Some ok)))
       /\ dones (socket_step e (si_done_timeout i)) !! i = Some (Some None)
       /\ forall input r, dones (socket_step e input) !! i = Some (Some r) ->
            (exists ok, input = si_notification sub ok /\ r = Some ok) \/ (input = si_done_timeout i /\ r = None)).
Proof.
  intros Hn e Hw Hp. destruct (inv_run inputs Hn) as (used & _ & Hi). fold e in Hi. clearbody e. clear Hn inputs.
  destruct w as [p d t]. cbn in Hp. subst p. cbn. split.
  { intros ->. destruct d; [done|]. by specialize (iv_timer _ _ Hi _ _ _ Hw eq_refl eq_refl). }
  intros ->. pose proof (iv_timer _ _ Hi _ _ _ Hw eq_refl eq_refl) as Ht. cbn in Ht. subst t.
  assert (es_waiters e !! sub = Some i) as Hs by (apply (iv_waiters _ _ Hi); by eexists).
  assert (forall s j, es_waiters e !! s = Some j -> j = i -> s = sub) as Hown.
  { intros s j Hj ->. apply (iv_waiters _ _ Hi) in Hj as (v & Hv & Hpv & _). rewrite Hw in Hv. injection Hv as <-. cbn in Hpv. congruence. }
  split_and!.
  - intros ok. unfold on_notification. rewrite Hs. unfold dones, settle. cbn. by rewrite list_lookup_fmap, list_lookup_alter, decide_True, Hw.
  - unfold done_timeout. rewrite Hw, Hs. unfold dones, settle, set_timer. cbn. by rewrite list_lookup_fmap, !list_lookup_alter, !decide_True, Hw.
  - intros input r Hr. assert (dones e !! i = Some None) as H0 by (unfold dones; by rewrite list_lookup_fmap, Hw).
    pose proof (dones_step e input) as Hd. destruct input as [|s|s|s|s|id sub'|sub' ok|id|j]; cbn in Hd, Hr;
      try (pose proof (prefix_lookup_Some _ _ _ _ H0 Hd); congruence).
    + left. unfold on_notification in Hr. destruct (es_waiters e !! sub') as [j|] eqn:Ej; [|congruence].
      destruct (decide (j = i)) as [->|Hne].
      * rewrite (Hown _ _ Ej eq_refl) in *. exists ok. split; [done|]. unfold dones, settle in Hr. cbn in Hr. rewrite list_lookup_fmap, list_lookup_alter, decide_True, Hw in Hr by done. cbn in Hr. congruence.
      * unfold dones, settle in Hr. cbn in Hr. rewrite list_lookup_fmap, list_lookup_alter_ne, Hw in Hr by done. done.
    + right. unfold done_timeout in Hr. destruct (es_watches e !! j) as [[[] dj []]|] eqn:Ej; try congruence.
      destruct (decide (j = i)) as [->|Hne].
      * split; [done|]. rewrite Hw in Ej. simplify_eq. rewrite Hs in Hr. unfold dones, settle, set_timer in Hr. cbn in Hr.
        rewrite list_lookup_fmap, !list_lookup_alter, !decide_True, Hw in Hr by done. cbn in Hr. congruence.
      * case_match; unfold dones, settle, set_timer in Hr; cbn in Hr; rewrite list_lookup_fmap, ?list_lookup_alter_ne, Hw in Hr by done; done.
Qed.

(** ** A number used twice *)

(** A watch that nothing can settle any more. *)
Record lost (e : ErSocket) (i : nat) (sub : Z) : Prop := mkLost {
  ls_watch : es_watches e !! i = Some (mkWatch (ph_watching sub) None false);
  ls_waiters : forall s, es_waiters e !! s ≠ Some i; ls_acks : forall id, es_acks e !! id ≠ Some i }.

Lemma lost_connection ws o r n e i sub : lost e i sub -> lost (with_connection ws o r n e) i sub.
Proof. by intros []. Qed.

Lemma lost_subscribe e i sub j : lost e i sub -> lost (subscribe e j) i sub.
Proof.
  intros [H1 H2 H3]. unfold subscribe. destruct (es_watches e !! j) as [[p d t]|] eqn:Ej; [|done]. cbn. destruct p; try done.
  assert (j ≠ i) by (intros ->; congruence). split; cbn; [unfold set_phase; by rewrite list_lookup_alter_ne|done|].
  intros id. rewrite lookup_insert_Some. intros [[_ ?]|[_ ?]]; [done|by eapply H3].
Qed.
Lemma lost_reject e i sub j : lost e i sub -> lost (reject e j) i sub.
Proof.
  intros [H1 H2 H3]. unfold reject. destruct (es_watches e !! j) as [[p d t]|] eqn:Ej; [|done]. cbn. destruct p; try done.
  assert (j ≠ i) by (intros ->; congruence). split; cbn; [unfold set_phase; by rewrite list_lookup_alter_ne|done|done].
Qed.
Lemma lost_foldl (f : ErSocket -> nat -> ErSocket) l e i sub : (forall e j, lost e i sub -> lost (f e j) i sub) -> lost e i sub -> lost (foldl f e l) i sub.
Proof. intros Hf. revert e. induction l as [|j l IH]; intros e He; [done|]. apply IH. by apply Hf. Qed.
Lemma lost_new e i sub w : lost e i sub -> lost (with_watches (es_acks e) (es_waiters e) (es_watches e ++ [w]) e) i sub.
Proof. intros [H1 H2 H3]. split; cbn; [by apply lookup_app_l_Some|done|done]. Qed.

Lemma lost_step e i sub input : lost e i sub -> lost (socket_step e input) i sub.
Proof.
  intros Hl. pose proof Hl as [H1 H2 H3]. destruct input; cbn.
  - unfold watch, connect. repeat case_match; simplify_eq; try (by apply lost_new); try (apply lost_subscribe; by apply lost_new);
      apply (lost_new (with_connection _ _ _ _ _)); by apply lost_connection.
  - apply lost_foldl; [intros; by apply lost_subscribe|by apply lost_connection].
  - apply lost_foldl; [intros; by apply lost_reject|by apply lost_connection].
  - by apply lost_connection.
  - by apply lost_connection.
  - unfold on_ack. destruct (es_acks e !! id) as [j|] eqn:Ea; [|done]. assert (j ≠ i) by (intros ->; by eapply H3).
    split; cbn; [unfold set_timer, set_phase; by rewrite !list_lookup_alter_ne| |].
    + intros s. rewrite lookup_insert_Some. intros [[_ ?]|[_ ?]]; [done|by eapply H2].
    + intros id'. rewrite lookup_delete_Some. intros [_ ?]. by eapply H3.
  - unfold on_notification. destruct (es_waiters e !! subscription) as [j|] eqn:Ea; [|done]. assert (j ≠ i) by (intros ->; by eapply H2).
    split; cbn; [unfold settle; by rewrite list_lookup_alter_ne| |done]. intros s. rewrite lookup_delete_Some. intros [_ ?]. by eapply H2.
  - unfold ack_timeout. destruct (es_acks e !! id) as [j|] eqn:Ea; [|done]. assert (j ≠ i) by (intros ->; by eapply H3).
    split; cbn; [unfold set_phase; by rewrite list_lookup_alter_ne|done|]. intros id'. rewrite lookup_delete_Some. intros [_ ?]. by eapply H3.
  - unfold done_timeout. destruct (es_watches e !! i0) as [[[] d []]|] eqn:Ej; try done. assert (i0 ≠ i) by (intros ->; congruence).
    case_match; split; cbn; unfold settle, set_timer; rewrite ?list_lookup_alter_ne by done; try done. intros s. rewrite lookup_delete_Some. intros [_ ?]. by eapply H2.
Qed.

(** Two watches on two connections, given the same number; both timers fire. *)
Definition reused_number : list SocketInput :=
  [si_watch; si_open 0; si_ack 1 7; si_closing 0; si_close 0; si_watch; si_open 1; si_ack 2 7; si_done_timeout 0; si_done_timeout 1].

Lemma reused_maps :
  es_waiters (socket_run reused_number) = ∅ /\ es_acks (socket_run reused_number) = ∅
  /\ es_watches (socket_run reused_number) !! 1%nat = Some (mkWatch (ph_watching 7) None false).
Proof. vm_compute. done. Qed.

Lemma lost_run more e i sub : lost e i sub -> lost (foldl socket_step e more) i sub.
Proof. revert e. induction more as [|x more IH]; intros e He; [done|]. cbn [foldl]. apply IH. by apply lost_step. Qed.

Lemma socket_run_app a b : socket_run (a ++ b) = foldl socket_step (socket_run a) b.
Proof. apply foldl_app. Qed.

(** The server numbers the subscriptions of each connection, so after a reconnection a
    number can come again within the five seconds of a watch.  Then the first
    watch's timer takes the second one's waiter, and the second never settles. *)
Theorem reused_subscription_never_settles more : dones (socket_run (reused_number ++ more)) !! 1%nat = Some None.
Proof.
  destruct reused_maps as (H1 & H2 & H3). rewrite socket_run_app. revert H1 H2 H3. generalize (socket_run reused_number). intros e H1 H2 H3.
  assert (lost e 1 7) as He by (split; [done|rewrite H1; intros s|rewrite H2; intros id]; by rewrite lookup_empty).
  unfold dones. rewrite list_lookup_fmap, (ls_watch _ _ _ (lost_run more e 1 7 He)). done.
Qed.

Lemma er_socket_settles_witness :
  let e := socket_run [si_watch; si_open 0; si_ack 1 7] in
  es_watches e !! 0%nat = Some (mkWatch (ph_watching 7) None true) /\ dones (socket_step e (si_notification 7 true)) !! 0%nat = Some (Some (Some true)).
Proof.
  split; [reflexivity|].
  assert (NoDup (concat (acknowledged <$> [si_watch; si_open 0; si_ack 1 7]))) as Hn by (apply NoDup_singleton).
  destruct (er_socket_settles [si_watch; si_open 0; si_ack 1 7] 0 (mkWatch (ph_watching 7) None true) 7 Hn eq_refl eq_refl) as [_ H].
  by apply H.
Defined.
